(* ===== verification/_CoqProject ===== *)
-Q . S2P
Prelude.v
Rc4.v
Words.v
BlockHash.v
Md5.v
Sha2.v
Sha1.v
AesTables.v
Aes.v
CharTypes.v
Filters.v
BasicModule.v
TextString.v
Pitch.v
Flate.v
Lzw.v
Scanline.v
RlScanline.v
FlateScan.v
BitStream.v
FaxTables.v
Fax.v
FaxBits.v
FaxCodes.v
FaxText.v
FaxTotal.v
FxNumber.v
Reader.v
Syntax.v
Objects.v
ObjectText.v
ObjectTotal.v
StreamText.v
Search.v
Utf8.v
Dict.v
AesKeys.v
Crypto.v
CryptoText.v
Security.v
SecurityText.v
StdMap.v
CrossRef.v
XRef.v
XRefText.v
XRefTable.v
DataDecode.v
DataPipeline.v
WriteTo.v
WriteText.v
DocParser.v
DocLoad.v
DocTotal.v
Linearized.v
Holder.v
Creator.v
Pointer.v
DocText.v
DocRead.v
Store.v
PageTree.v
ReadValidator.v
HintTables.v
HintText.v
HintCheck.v
PageList.v
PageWalk.v
PageDoc.v
PageEdit.v
PageSpec.v
PageFind.v
DocPages.v
ReedSolomon.v
QrTables.v
QrBits.v
QrMatrix.v
QrEncoder.v
QrWords.v
QrSymbol.v
QrRead.v
