(* ===== verification/Prelude.v ===== *)
(** * xilou_core: a verification library for the core of the PDF engine

    xilou_core is a fork of PDFium.  This library models the part of it that
    decides what a PDF file means: the bytes of the file, the words and objects
    in them, the cross-reference table that says where objects are, encryption,
    the filters of streams, the document that is made of them with its pages, and
    the writer that saves it, and the QR codes of [src/fxbarcode].  The code is
    under [src/core] where nothing else is said; every definition has the name it
    has there where the name is free.

    ** How the parts work together

    [CPDF_Document] ([PageTree]) loads a file with [CPDF_Parser] ([DocParser],
    [DocLoad], [Linearized]) and works on the objects that it holds ([Holder],
    [Pointer]).  The parser reads through [CPDF_SyntaxParser], which has a buffer
    over the file ([Reader]), a lexer ([Syntax], [Search]) and a recursive parser
    of objects ([Objects]).  It finds objects through a cross-reference table
    ([CrossRef], [XRef]), lets [CPDF_SecurityHandler] check a password
    ([Security]) and [CPDF_CryptoHandler] decrypt strings and streams ([Crypto],
    [WriteTo]), which are built on the hashes and ciphers of [core/fdrm] ([Rc4],
    [Md5], [Sha1], [Sha2], [Aes]).  The data of a stream goes through the filters
    of its dictionary ([DataDecode], with [Filters], [Lzw], [Flate]) or, for
    images, line by line through scanline decoders ([Scanline], [RlScanline],
    [FlateScan]) and the fax codec ([Fax]).  [CPDF_Creator] ([Creator]) and the
    [WriteTo] methods of the objects go the other way ([WriteTo], [XRefText],
    [BasicModule], [TextString]).  Of a file that arrives in pieces
    [CPDF_ReadValidator] ([ReadValidator]) says what is there, and the hint tables
    of a linearized file ([HintTables]) what a page needs.  Bar codes of forms are
    drawn by encoders of their own: that of QR codes ([QrEncoder]) completes the
    text with the check bytes of a Reed-Solomon code ([ReedSolomon]) and draws it between patterns ([QrMatrix]) with the best of eight
    masks.

    ** The files

    - Prelude: machine integers ([fits w], casts as [mod 2^w]), C arrays ([rd],
      [wr]), bounded loops, tactics and hints.
    - Words: the big- and little-endian word macros and rotations.
    - Rc4, BlockHash, Md5, Sha1, Sha2, AesTables, Aes: [core/fdrm].  [BlockHash]
      is the interface (a type class) of a hash that works block by block: the
      theorems on buffering are proved once against it.
    - CharTypes: [fpdf_parser_utility.cpp] and [fx_extension.h]; TextString:
      [PDF_DecodeText], [PDF_EncodeText] and the string writers; FxNumber:
      [fx_system.cpp], [fx_number.cpp], [fx_string.cpp]; Utf8: the UTF-8 coders;
      BitStream: [cfx_bitstream.cpp].
    - Filters: the decoders of [fpdf_parser_decode.cpp]; BasicModule: the encoders
      of [basicmodule.cpp]; Pitch: the row sizes of [fx_codec.cpp]; Flate: the
      predictors, Lzw: [CLZWDecoder], both of [flatemodule.cpp]; Scanline:
      [scanlinedecoder.cpp], with the class of a decoder; RlScanline and
      FlateScan: its two instances.
    - FaxTables, Fax: [faxmodule.cpp]; FaxBits, FaxCodes: what its bit operations
      and its codes of runs do; FaxText: group 4 images are read back; FaxTotal:
      the decoder on any data.
    - Reader: the buffer of [cpdf_syntax_parser.cpp], against a class of seekable
      streams; Syntax: its words, strings and comments; Search: its [FindTag] and
      [BackwardsSearchToWord]; Objects: its parser of objects, streams and
      indirect objects, with the object classes; ObjectText, StreamText: what is
      printed is read back; ObjectTotal: parsing ends.
    - Dict: the operations of [cpdf_dictionary.cpp] and the getters of the object
      classes.
    - AesKeys, Crypto, CryptoText: [cpdf_crypto_handler.cpp]; Security,
      SecurityText: [cpdf_security_handler.cpp].
    - StdMap: [std::map] as a sorted list; CrossRef: [cpdf_cross_ref_table.cpp];
      XRef: the table parser of [cpdf_parser.cpp]; XRefText, XRefTable: the table
      writer of [cpdf_creator.cpp] and its round trip.
    - DataDecode, DataPipeline: [PDF_DataDecode], [FlateUncompress] and
      [CPDF_StreamAcc], with zlib as the class [Inflate] and its laws.
    - WriteTo, WriteText: the [WriteTo] methods with [CPDF_Encryptor] and
      [CPDF_FlateEncoder], and [DecryptObjectTree].
    - DocParser: the state of [cpdf_parser.cpp] with its look-ups of objects, plain
      and in the streams of [cpdf_object_stream.cpp], and cross-reference streams;
      DocLoad: [StartParse], the chains of sections, [RebuildCrossRef] and the
      security handler; DocTotal: loading ends; Linearized:
      [cpdf_linearized_header.cpp] and the loading of linearized files.
    - Holder: [cpdf_indirect_object_holder.cpp]; Creator: [cpdf_creator.cpp];
      DocText: where a new document has its objects; DocRead: it is loaded.
    - Pointer: the methods of [cpdf_array.cpp] and [cpdf_dictionary.cpp] on objects
      that are shared; Store: the interface of the objects of a document, a class
      with its laws, which a made and a loaded document implement; PageTree:
      [cpdf_document.cpp].
    - PageList: the tree as the list of its pages; PageWalk: its traversal; PageDoc:
      the invariant of a document; PageEdit: insertion and removal; PageSpec: the
      operations refine those of a list; PageFind: [GetPageIndex]; DocPages: the
      pages of a document that is saved and loaded.
    - ReadValidator: [cpdf_read_validator.cpp]; HintTables: [cpdf_hint_tables.cpp];
      HintText: the tables as the format describes them are read; HintCheck: what
      they answer.
    - ReedSolomon: [fxbarcode/common/reedsolomon]; QrTables, QrBits, QrMatrix,
      QrEncoder: [fxbarcode/qrcode].  QrWords: texts and code words are read back;
      QrSymbol: the order of the bits, and what the patterns of the forty versions
      occupy; QrRead: a reader of symbols of its own, which reads what is drawn, and
      the choice of the mask.

    ** What the theorems show

    - Round trips of the formats: objects ([parse_print]), streams
      ([stream_roundtrip]), string literals, names, numbers, text strings, UTF-8,
      run-length and ASCII85 data, group 4 images ([fax_g4_roundtrip]), QR codes
      ([qr_roundtrip]), the filter
      pipeline, hint tables ([hint_tables_roundtrip]), the cross-reference table
      ([xref_roundtrip]).
    - Documents: what [CPDF_Creator] writes for a new document [CPDF_Parser] loads,
      object by object ([document_roundtrip]) and page by page ([saved_pages]); the
      operations on pages are those of a list of pages ([pages_refine]), and
      [GetPageIndex] is the position in it ([page_index]).
    - Encryption: each cipher is inverted; what a handler encrypts it decrypts, in
      any pieces; a document that was protected opens with both of its passwords
      ([document_unlocks]), but for what [owner_password_fails] says; an encrypted
      object tree without streams is written, parsed and decrypted
      ([encrypted_object_roundtrip]).
    - Refinements: hashes, read in any pieces, of their standards; the buffered
      reader of direct access; LZW of the textbook decoder; bits of a stream of a
      list of bits; scanlines of whole images; the merging of cross-reference
      tables of the union of maps.
    - Codes: words of the Reed-Solomon code that differ do so in more places than
      there are check bytes ([reed_solomon_distance]).
    - Invariants and bounds: no filter writes outside its buffer; RC4 keeps a
      permutation; dictionaries stay sorted; archives of compressed objects stay
      known while they are in use; hint tables that are accepted are complete.
    - Termination: of the parser and of the loading of a document, linearized or
      broken, on every file (the tables of the other pages of a linearized file need the
      trailer of the first page); of revision 6 hashing, of inflating, of the fax
      decoder.  Liveness: a page that is asked for becomes available when the data
      arrive ([page_becomes_available]).
    - Departures from what the code means to do are theorems too
      ([owner_password_fails], [flate_scanlines_deviate]) and are listed as
      findings.

    ** Modelling

    Integers are [Z] with their casts written out; a check that rejects a value is
    a branch.  Bytes are [Z] as well.  A file is the list of its bytes, with the
    position of the parser in a record ([syntax]).  Objects are trees; a child
    that has an object number of its own is [CPDF_Indirect].  Code below the
    parser of documents takes the table of indirect objects as a parameter
    ([holder]); from [DocParser] on it is part of the state.  An object that two
    places share is reached by a pointer, the number of an indirect object and a
    path, so that a change is seen from both.  Errors are [option] values; in
    [PageTree], [HintTables] and [Fax] [None] is undefined behaviour: an index out
    of an array, a failed [CHECK], an overflow; in the files on QR codes it is a
    function that returns false.  Results of loops that have fuel
    are [option] values too, and no theorem holds because fuel ran out:

    - lexer and object loops have one unit per byte of the file and one more: each
      round takes a byte ([parser_terminates] shows that it is enough);
      [get_object] has the depth limit of the code, 64;
    - chains of cross-reference sections have two units more than the file has
      bytes, since no position is visited twice; rebuilding one more than bytes;
      nested look-ups of objects two more than the table has entries
      ([document_parse_terminates], [linearized_parse_terminates]);
    - functions on the page tree have the limit of the code, 1024 levels, and the
      theorems on them a tree that is not higher;
    - [rev6_loop] has 300 rounds, and 287 are enough ([rev6_terminates]);
    - [flate_loop] has one unit more than the output has bytes
      ([flate_uncompress_exact]); the LZW loop one per code of the source
      ([lzw_safe]); [xref_loop] one per byte of the file
      ([ParseCrossRefV4_total]); the loops of the fax decoder one more than bits
      are left ([fax_terminates]);
    - the division of polynomials has one unit per coefficient, each round takes one
      away; the columns of a symbol have its width and the lines one more
      ([embed_all_order]); the loops on the bits of an [int] have 32;
    - loops with a known number of rounds are [for_loop], folds or recursion on
      that number.

    Allocation succeeds and files do not change while they are read.

    ** What is not modelled

    zlib (a class with the laws of [inflate] that the loop uses), compression (a
    parameter), random numbers and time (parameters), and the virtual files of a
    platform (a class).  The state machine of [CPDF_DataAvail], which asks for the
    pieces of a file, is left out; what it drives is modelled.  Rendering, fonts,
    page content, image codecs on third-party libraries, JBIG2, GIF and BMP,
    bar codes other than QR codes, JavaScript, XFA and OFD are outside: they are
    listed, with reasons, as components that are not modelled.
*)
From Stdlib Require Export ZArith Lia ZifyBool.
From stdpp Require Export base list numbers sets.

Declare Scope fx_scope.
Delimit Scope fx_scope with fx.
#[global] Open Scope Z_scope.

(** C's bit operators on [Z]. *)
Infix ".^" := Z.lxor (at level 45, left associativity) : fx_scope.
Infix ".|" := Z.lor (at level 46, left associativity) : fx_scope.
Infix ".&" := Z.land (at level 44, left associativity) : fx_scope.
Infix ".<<" := Z.shiftl (at level 43, left associativity) : fx_scope.
Infix ".>>" := Z.shiftr (at level 43, left associativity) : fx_scope.
#[global] Open Scope fx_scope.

(** ** Machine integers: an unsigned w-bit value is a [Z] in [[0, 2^w)] and a
    cast is a reduction modulo [2^w]. *)
Abbreviation u8 z := (z mod 2 ^ 8).
Abbreviation u16 z := (z mod 2 ^ 16).
Abbreviation u32 z := (z mod 2 ^ 32).
Abbreviation u64 z := (z mod 2 ^ 64).

Definition fits (w z : Z) : Prop := 0 <= z < 2 ^ w.
Abbreviation byte := (fits 8).
Abbreviation bytes := (Forall (fits 8)).

#[export] Instance fits_dec w z : Decision (fits w z).
Proof. unfold fits. apply _. Defined.

Create HintDb fx.

Lemma fits_mod w z : 0 <= w → fits w (z mod 2 ^ w).
Proof. intros Hw. apply Z.mod_pos_bound. lia. Qed.

Lemma fits_nonneg w z : fits w z → 0 <= z.
Proof. unfold fits. lia. Qed.

Lemma fits_small w z : fits w z → z mod 2 ^ w = z.
Proof. apply Z.mod_small. Qed.

Lemma fits_mono w w' z : 0 <= w <= w' → fits w z → fits w' z.
Proof.
  intros Hw [H0 H1]. split; [done|].
  eapply Z.lt_le_trans; [done|]. apply Z.pow_le_mono_r; lia.
Qed.

(** A value fits [w] bits exactly when it is non-negative and has no bit at or
    above position [w]. *)
Lemma fits_testbit w z :
  0 <= w → fits w z ↔ 0 <= z ∧ ∀ i, w <= i → Z.testbit z i = false.
Proof.
  intros Hw. split.
  - intros [H0 H1]. split; [done|]. intros i Hi.
    destruct (decide (z = 0)) as [->|]; [apply Z.bits_0|].
    apply Z.bits_above_log2; [done|].
    assert (Z.log2 z < w) by (apply Z.log2_lt_pow2; lia). lia.
  - intros [H0 Hb]. split; [done|].
    destruct (decide (z = 0)) as [->|]; [lia|].
    apply Z.log2_lt_pow2; [lia|].
    destruct (decide (Z.log2 z < w)) as [|Hge]; [done|].
    specialize (Hb (Z.log2 z)). rewrite Z.bit_log2 in Hb by lia.
    discriminate Hb. lia.
Qed.

Lemma fits_lxor w a b : 0 <= w → fits w a → fits w b → fits w (a .^ b).
Proof.
  intros Hw Ha Hb. pose proof (fits_nonneg _ _ Ha). pose proof (fits_nonneg _ _ Hb).
  apply fits_testbit in Ha as [_ Ha]; [|done].
  apply fits_testbit in Hb as [_ Hb]; [|done].
  apply fits_testbit; [done|]. split; [apply Z.lxor_nonneg; lia|].
  intros i Hi. rewrite Z.lxor_spec, Ha, Hb by done. done.
Qed.

Lemma fits_lor w a b : 0 <= w → fits w a → fits w b → fits w (a .| b).
Proof.
  intros Hw Ha Hb. pose proof (fits_nonneg _ _ Ha). pose proof (fits_nonneg _ _ Hb).
  apply fits_testbit in Ha as [_ Ha]; [|done].
  apply fits_testbit in Hb as [_ Hb]; [|done].
  apply fits_testbit; [done|]. split; [apply Z.lor_nonneg; lia|].
  intros i Hi. rewrite Z.lor_spec, Ha, Hb by done. done.
Qed.

Lemma fits_land w a b : 0 <= w → fits w a → 0 <= b → fits w (a .& b).
Proof.
  intros Hw Ha Hb. pose proof (fits_nonneg _ _ Ha).
  apply fits_testbit in Ha as [_ Ha]; [|done].
  apply fits_testbit; [done|]. split; [apply Z.land_nonneg; lia|].
  intros i Hi. rewrite Z.land_spec, Ha by done. done.
Qed.

Lemma fits_land2 w a b : 0 <= w → fits w a → fits w b → fits w (a .& b).
Proof. intros Hw Ha Hb. apply fits_land; [done..|]. by eapply fits_nonneg. Qed.

Lemma fits_shiftr w a n : 0 <= w → 0 <= n → fits w a → fits w (a .>> n).
Proof.
  intros Hw Hn [H0 H1]. unfold fits. rewrite Z.shiftr_div_pow2 by done.
  assert (0 < 2 ^ n) by lia.
  split; [apply Z.div_pos; lia|].
  apply Z.le_lt_trans with a; [|done]. apply Z.div_le_upper_bound; nia.
Qed.

Lemma fits_shiftl w a n : 0 <= w → 0 <= n → fits w a → fits (w + n) (a .<< n).
Proof.
  intros Hw Hn [H0 H1]. unfold fits. rewrite Z.shiftl_mul_pow2, Z.pow_add_r by done.
  assert (0 < 2 ^ n) by lia. nia.
Qed.

Lemma land_ones_mod z w : 0 <= w → z .& (2 ^ w - 1) = z mod 2 ^ w.
Proof. intros. rewrite <-Z.land_ones by done. f_equal. rewrite Z.ones_equiv. lia. Qed.

Lemma lxor_cancel_r a b : (a .^ b) .^ b = a.
Proof. by rewrite Z.lxor_assoc, Z.lxor_nilpotent, Z.lxor_0_r. Qed.

#[export] Hint Resolve fits_mod fits_lxor fits_lor fits_land2 fits_shiftr : fx.
#[export] Hint Extern 1 (_ <= _) => lia : fx.

Lemma mask_byte z : byte (z .& 0xFF).
Proof. change 0xFF with (2 ^ 8 - 1). rewrite land_ones_mod by lia. auto with fx. Qed.
#[export] Hint Resolve mask_byte : fx.

(** [bytes] of an explicit list, element by element. *)
Ltac solve_bytes :=
  repeat first [apply List.Forall_nil | apply List.Forall_cons];
  try solve [assumption | auto with fx | unfold fits; lia].

(** ** Arrays

    A C array is a list of fixed length.  [a .[ i ]] reads it; the index is a
    [Z] as in the code and every use in the library is within bounds. *)
Definition rd (l : list Z) (i : Z) : Z := nth (Z.to_nat i) l 0.
Notation "l .[ i ]" := (rd l i) (at level 1, left associativity, format "l .[ i ]") : fx_scope.

(** [wr l i x] is [l[i] = x]. *)
Definition wr {A} (l : list A) (i : Z) (x : A) : list A := <[Z.to_nat i := x]> l.

Definition zlen {A} (l : list A) : Z := Z.of_nat (length l).

(** [subspan l off n] is [l.subspan(off, n)]. *)
Definition subspan {A} (l : list A) (off n : nat) : list A := take n (drop off l).

Lemma zlen_nil {A} : zlen (@nil A) = 0.
Proof. reflexivity. Qed.

Lemma zlen_app {A} (l k : list A) : zlen (l ++ k) = zlen l + zlen k.
Proof. unfold zlen. rewrite length_app. lia. Qed.

Lemma zlen_cons {A} (x : A) (l : list A) : zlen (x :: l) = 1 + zlen l.
Proof. unfold zlen. simpl length. lia. Qed.

Lemma zlen_nonneg {A} (l : list A) : 0 <= zlen l.
Proof. unfold zlen. lia. Qed.

Lemma length_wr {A} (l : list A) i x : length (wr l i x) = length l.
Proof. apply length_insert. Qed.

Lemma rd_lookup l i x : l !! Z.to_nat i = Some x → l.[i] = x.
Proof. unfold rd. intros H. by apply nth_lookup_Some. Qed.

Lemma rd_lookup_lt l i : 0 <= i < zlen l → l !! Z.to_nat i = Some (l.[i]).
Proof.
  unfold zlen. intros Hi. destruct (l !! Z.to_nat i) as [x|] eqn:E.
  - by rewrite (rd_lookup _ _ _ E).
  - apply lookup_ge_None in E. lia.
Qed.

Lemma bytes_rd l i : bytes l → byte l.[i].
Proof.
  intros Hl. unfold rd. rewrite nth_lookup.
  destruct (l !! Z.to_nat i) eqn:E; simpl; [|unfold fits; lia].
  by eapply Forall_lookup_1.
Qed.
#[export] Hint Resolve bytes_rd : fx.

Lemma rd_wr_eq l i x : 0 <= i < zlen l → (wr l i x).[i] = x.
Proof.
  unfold zlen. intros. apply rd_lookup. apply list_lookup_insert_eq. lia.
Qed.

Lemma rd_wr_ne l i j x : 0 <= i → 0 <= j → i ≠ j → (wr l i x).[j] = l.[j].
Proof.
  intros. unfold rd. rewrite !nth_lookup.
  unfold wr. rewrite list_lookup_insert_ne by lia. done.
Qed.

Lemma rd_app_l (l k : list Z) i : 0 <= i < zlen l → (l ++ k).[i] = l.[i].
Proof. unfold rd, zlen. intros. rewrite app_nth1 by lia. done. Qed.

Lemma rd_app_r (l k : list Z) i : 0 <= i → (l ++ k).[zlen l + i] = k.[i].
Proof.
  unfold rd, zlen. intros. rewrite app_nth2 by lia. f_equal. lia.
Qed.

Lemma rd_snoc (l : list Z) x : (l ++ [x]).[zlen l] = x.
Proof. unfold rd, zlen. rewrite app_nth2 by lia. by rewrite Nat2Z.id, Nat.sub_diag. Qed.

Lemma rd_cons_0 x (l : list Z) : (x :: l).[0] = x.
Proof. done. Qed.

Lemma rd_cons x (l : list Z) i : 0 <= i → (x :: l).[i + 1] = l.[i].
Proof. intros. unfold rd. by replace (Z.to_nat (i + 1)) with (S (Z.to_nat i)) by lia. Qed.

Lemma rd_take (l : list Z) n i : 0 <= i < Z.of_nat n → (take n l).[i] = l.[i].
Proof.
  intros. unfold rd. rewrite !nth_lookup. by rewrite lookup_take_lt by lia.
Qed.

Lemma rd_replicate n i : (replicate n 0).[i] = 0.
Proof.
  unfold rd. rewrite nth_lookup. destruct (replicate n 0 !! _) eqn:E; [|done].
  by apply lookup_replicate in E as [-> _].
Qed.

Lemma rd_map_seqZ (f : Z → Z) n j : 0 <= j < n → (map f (seqZ 0 n)).[j] = f j.
Proof.
  intros Hj. apply rd_lookup. rewrite list_lookup_fmap, lookup_seqZ_lt by lia. simpl.
  do 2 f_equal. lia.
Qed.

(** Taking one more element. *)
Lemma take_S_rd (l : list Z) k :
  (k < length l)%nat → take (S k) l = take k l ++ [l.[Z.of_nat k]].
Proof.
  intros Hk. apply take_S_r. rewrite <-(Nat2Z.id k) at 1. apply rd_lookup_lt.
  unfold zlen. lia.
Qed.

(** [swap l i j] is [std::swap(l[i], l[j])]. *)
Definition swap (l : list Z) (i j : Z) : list Z := wr (wr l i l.[j]) j l.[i].

Lemma length_swap l i j : length (swap l i j) = length l.
Proof. unfold swap. by rewrite !length_wr. Qed.

Lemma swap_perm l i j : 0 <= i < zlen l → 0 <= j < zlen l → swap l i j ≡ₚ l.
Proof.
  intros Hi Hj.
  pose proof (rd_lookup_lt l i Hi) as Li. pose proof (rd_lookup_lt l j Hj) as Lj.
  unfold zlen in *. set (a := Z.to_nat i) in *. set (b := Z.to_nat j) in *.
  apply Permutation_inj. split; [apply length_swap|].
  exists (λ k, if decide (k = a) then b else if decide (k = b) then a else k).
  split; [intros x y; repeat case_decide; congruence|].
  intros k. unfold swap, wr. fold a b. case_decide; [|case_decide]; subst.
  - destruct (decide (a = b)) as [->|].
    + rewrite list_lookup_insert_eq by (rewrite length_insert; lia). congruence.
    + rewrite list_lookup_insert_ne, list_lookup_insert_eq by lia. done.
  - rewrite list_lookup_insert_eq by (rewrite length_insert; lia). done.
  - rewrite !list_lookup_insert_ne by done. done.
Qed.

(** A loop [for (i = 0; i < n; ++i) s = body(i, s)]. *)
Fixpoint for_loop {S} (n : nat) (body : Z → S → S) (s : S) : S :=
  match n with
  | O => s
  | S n' => body (Z.of_nat n') (for_loop n' body s)
  end.

(** The Hoare rule of [for_loop]. *)
Lemma for_loop_ind {S} (I : nat → S → Prop) n (body : Z → S → S) s :
  I O s → (∀ k s', (k < n)%nat → I k s' → I (Datatypes.S k) (body (Z.of_nat k) s')) →
  I n (for_loop n body s).
Proof.
  intros H0 Hstep. induction n as [|n IH]; simpl; [done|].
  apply Hstep; [lia|]. apply IH. intros. apply Hstep; [lia|done].
Qed.

(** ** Exhaustive checks over the byte values *)
Lemma forall_byte (P : Z → bool) :
  forallb P (seqZ 0 256) = true → ∀ x, byte x → P x = true.
Proof.
  intros H x Hx. rewrite List.forallb_forall in H. apply H.
  rewrite <-list_elem_of_In. apply elem_of_seqZ. unfold fits in Hx. lia.
Qed.

(** ** Linear functions of a byte

    [lin8 f x] sums (in the sense of [xor]) the values of [f] at the bits of
    [x]; a table that agrees with it is linear. *)
Definition lin8 (f : Z → Z) (x : Z) : Z :=
  fold_right (λ i acc, (if Z.testbit x i then f (2 ^ i) else 0) .^ acc) 0
    [0; 1; 2; 3; 4; 5; 6; 7].

Lemma lin8_lxor f x y : lin8 f (x .^ y) = lin8 f x .^ lin8 f y.
Proof.
  unfold lin8. generalize [0; 1; 2; 3; 4; 5; 6; 7] as l.
  induction l as [|i l IH]; simpl; [done|]. rewrite IH, Z.lxor_spec.
  set (a := fold_right _ _ _). set (b := fold_right _ _ _). set (c := f (2 ^ i)).
  destruct (Z.testbit x i), (Z.testbit y i); simpl.
  - rewrite Z.lxor_0_l, <-(Z.lxor_assoc _ c b), (Z.lxor_comm (c .^ a) c),
      <-(Z.lxor_assoc c c a), Z.lxor_nilpotent, Z.lxor_0_l. done.
  - by rewrite Z.lxor_0_l, Z.lxor_assoc.
  - by rewrite Z.lxor_0_l, <-!Z.lxor_assoc, (Z.lxor_comm c a).
  - by rewrite !Z.lxor_0_l.
Qed.

Lemma lin8_linear f :
  forallb (λ x, f x =? lin8 f x) (seqZ 0 256) = true →
  ∀ x y, byte x → byte y → f (x .^ y) = f x .^ f y.
Proof.
  intros H x y Hx Hy. pose proof (forall_byte _ H) as Hf. simpl in Hf.
  rewrite (proj1 (Z.eqb_eq _ _) (Hf x Hx)), (proj1 (Z.eqb_eq _ _) (Hf y Hy)).
  rewrite (proj1 (Z.eqb_eq _ _) (Hf _ (fits_lxor 8 _ _ ltac:(lia) Hx Hy))).
  apply lin8_lxor.
Qed.

(** ** Loops that fill an array *)
Lemma fill_loop n off (f : Z → Z) a k :
  0 <= off → off + Z.of_nat n <= zlen a → 0 <= k →
  (for_loop n (λ j a, wr a (off + j) (f j)) a).[k] =
    (if (off <=? k) && (k <? off + Z.of_nat n) then f (k - off) else a.[k]) ∧
  length (for_loop n (λ j a, wr a (off + j) (f j)) a) = length a.
Proof.
  intros Hoff. induction n as [|n IH]; intros Hn Hk; simpl for_loop.
  - split; [|done]. by replace ((off <=? k) && (k <? off + Z.of_nat 0)) with false by lia.
  - destruct IH as [IH1 IH2]; [lia|lia|]. rewrite length_wr, IH2. split; [|done].
    destruct (Z.eq_dec k (off + Z.of_nat n)) as [->|Hne].
    + rewrite rd_wr_eq by (unfold zlen in *; rewrite IH2; lia).
      replace ((off <=? off + Z.of_nat n) && (off + Z.of_nat n <? off + Z.of_nat (S n))) with true by lia.
      f_equal. lia.
    + rewrite rd_wr_ne, IH1 by lia.
      replace (k <? off + Z.of_nat (S n)) with (k <? off + Z.of_nat n) by lia. done.
Qed.
