(* ===== verification/Rc4.v ===== *)
(** * RC4 ([core/fdrm/fx_crypt.cpp])

    The cipher PDF security handlers of revision 2 to 4 use: the key schedule
    [CRYPT_ArcFourSetup], the stream [CRYPT_ArcFourCrypt] over a mutable
    context, and the one-shot [CRYPT_ArcFourCryptBlock]. *)
From S2P Require Import Prelude.

Definition kPermutationLength : nat := 256.

Record CRYPT_rc4_context := Rc4Ctx { rc4_x : Z; rc4_y : Z; rc4_m : list Z }.

(** The body of the key-scheduling loop: the state is [(j, context->m)]. *)
Definition setup_step (key : list Z) (i : Z) (s : Z * list Z) : Z * list Z :=
  let '(j, m) := s in
  let k := if decide (key = []) then 0 else key.[i mod zlen key] in
  let j' := (j + m.[i] + k) .& 0xFF in
  (j', swap m i j').

Definition CRYPT_ArcFourSetup (key : list Z) : CRYPT_rc4_context :=
  let m0 := seqZ 0 (Z.of_nat kPermutationLength) in
  let '(_, m) := for_loop kPermutationLength (setup_step key) (0, m0) in
  Rc4Ctx 0 0 m.

(** One iteration of the stream loop: the new context and the key-stream byte
    the datum is xored with. *)
Definition rc4_next (c : CRYPT_rc4_context) : CRYPT_rc4_context * Z :=
  let x := (rc4_x c + 1) .& 0xFF in
  let y := (rc4_y c + (rc4_m c).[x]) .& 0xFF in
  let m := swap (rc4_m c) x y in
  (Rc4Ctx x y m, m.[(m.[x] + m.[y]) .& 0xFF]).

Fixpoint CRYPT_ArcFourCrypt (c : CRYPT_rc4_context) (data : list Z) :
    CRYPT_rc4_context * list Z :=
  match data with
  | [] => (c, [])
  | datum :: rest =>
      let '(c', k) := rc4_next c in
      let '(c'', out) := CRYPT_ArcFourCrypt c' rest in
      (c'', (datum .^ k) :: out)
  end.

Definition CRYPT_ArcFourCryptBlock (data key : list Z) : list Z :=
  snd (CRYPT_ArcFourCrypt (CRYPT_ArcFourSetup key) data).

(** ** The invariant: [m] is a permutation of 0..255 and the indices are
    bytes. *)
Definition rc4_wf (c : CRYPT_rc4_context) : Prop :=
  byte (rc4_x c) ∧ byte (rc4_y c) ∧ rc4_m c ≡ₚ seqZ 0 256.

Lemma zlen_perm m : m ≡ₚ seqZ 0 256 → zlen m = 256.
Proof. intros H. unfold zlen. rewrite H, length_seqZ. lia. Qed.

Lemma swap_wf m i j :
  m ≡ₚ seqZ 0 256 → byte i → byte j → swap m i j ≡ₚ seqZ 0 256.
Proof.
  intros Hm Hi Hj. rewrite swap_perm; [done| |];
    rewrite (zlen_perm _ Hm); unfold fits in *; lia.
Qed.

Lemma setup_wf key : rc4_wf (CRYPT_ArcFourSetup key).
Proof.
  unfold CRYPT_ArcFourSetup.
  pose proof (for_loop_ind (λ _ s, snd s ≡ₚ seqZ 0 256) kPermutationLength
    (setup_step key) (0, seqZ 0 (Z.of_nat kPermutationLength))) as H.
  destruct (for_loop _ _ _) as [j m]. simpl in H.
  repeat split; simpl; try lia. apply H; [done|].
  intros k [j' m'] Hk Hm. simpl in *.
  apply swap_wf; [done| |apply mask_byte]. unfold fits, kPermutationLength in *. lia.
Qed.

Lemma rc4_next_wf c : rc4_wf c → rc4_wf (fst (rc4_next c)).
Proof.
  intros (Hx & Hy & Hm). unfold rc4_next, rc4_wf; simpl.
  split_and!; try apply mask_byte. apply swap_wf; [done|apply mask_byte..].
Qed.

Lemma perm_rd_byte m i : m ≡ₚ seqZ 0 256 → byte i → byte m.[i].
Proof.
  intros Hm Hi. assert (Hr : 0 <= i < zlen m) by (rewrite (zlen_perm _ Hm); done).
  apply rd_lookup_lt, list_elem_of_lookup_2 in Hr.
  generalize dependent (m.[i]). intros x Hr. rewrite Hm in Hr.
  apply elem_of_seqZ in Hr. unfold fits. lia.
Qed.

(** The key stream byte is an element of the permutation, so a byte. *)
Lemma rc4_next_byte c : rc4_wf c → byte (snd (rc4_next c)).
Proof.
  intros Hc. pose proof (rc4_next_wf _ Hc) as (_ & _ & Hm).
  apply perm_rd_byte; [apply Hm|apply mask_byte].
Qed.

(** ** The stream *)
#[local] Arguments rc4_next : simpl never.

Lemma crypt_app c d1 d2 :
  CRYPT_ArcFourCrypt c (d1 ++ d2) =
    let '(c1, o1) := CRYPT_ArcFourCrypt c d1 in
    let '(c2, o2) := CRYPT_ArcFourCrypt c1 d2 in (c2, o1 ++ o2).
Proof.
  revert c. induction d1 as [|x d1 IH]; intros c; cbn [CRYPT_ArcFourCrypt app].
  - by destruct (CRYPT_ArcFourCrypt c d2).
  - destruct (rc4_next c) as [c' k]. rewrite IH.
    destruct (CRYPT_ArcFourCrypt c' d1) as [c1 o1].
    by destruct (CRYPT_ArcFourCrypt c1 d2).
Qed.

Lemma crypt_twice c d :
  snd (CRYPT_ArcFourCrypt c (snd (CRYPT_ArcFourCrypt c d))) = d.
Proof.
  revert c. induction d as [|x d IH]; intros c; cbn [CRYPT_ArcFourCrypt snd]; [done|].
  destruct (rc4_next c) as [c' k] eqn:E.
  specialize (IH c'). destruct (CRYPT_ArcFourCrypt c' d) as [c1 o1]. cbn [CRYPT_ArcFourCrypt snd] in *.
  rewrite E. destruct (CRYPT_ArcFourCrypt c' o1) as [c2 o2]. simpl in *.
  by rewrite IH, lxor_cancel_r.
Qed.

Lemma crypt_wf c d :
  rc4_wf c → bytes d →
  rc4_wf (fst (CRYPT_ArcFourCrypt c d)) ∧ bytes (snd (CRYPT_ArcFourCrypt c d)) ∧
  length (snd (CRYPT_ArcFourCrypt c d)) = length d.
Proof.
  revert c. induction d as [|x d IH]; intros c Hc Hd; cbn [CRYPT_ArcFourCrypt fst snd]; [done|].
  pose proof (rc4_next_wf _ Hc) as Hn. pose proof (rc4_next_byte _ Hc) as Hk.
  apply Forall_cons_1 in Hd as [Hx Hd].
  destruct (rc4_next c) as [c' k]. simpl in *.
  destruct (IH c' Hn Hd) as (H1 & H2 & H3).
  destruct (CRYPT_ArcFourCrypt c' d) as [c1 o1]. simpl in *.
  split_and!; [done| |lia]. constructor; auto with fx.
Qed.

(** ** Properties *)

(** RC4 decrypts what it encrypted: [CRYPT_ArcFourCryptBlock] applied twice
    with one key is the identity on the buffer, for every key (the empty one
    included) and every buffer. *)
Theorem rc4_involutive data key :
  CRYPT_ArcFourCryptBlock (CRYPT_ArcFourCryptBlock data key) key = data.
Proof. apply crypt_twice. Qed.

(** C31: after the key schedule and any number of [CRYPT_ArcFourCrypt] calls the
    context is well formed (both indices are bytes, [m] is a permutation of
    0..255), the output has the length of the input and is made of bytes, and
    two calls behave as one call on the concatenation. *)
Theorem rc4_stream_invariant key d1 d2 :
  bytes d1 → bytes d2 →
  let '(c1, o1) := CRYPT_ArcFourCrypt (CRYPT_ArcFourSetup key) d1 in
  let '(c2, o2) := CRYPT_ArcFourCrypt c1 d2 in
  rc4_wf c1 ∧ rc4_wf c2 ∧ bytes (o1 ++ o2) ∧
  length o1 = length d1 ∧ length o2 = length d2 ∧
  CRYPT_ArcFourCryptBlock (d1 ++ d2) key = o1 ++ o2.
Proof.
  intros H1 H2. unfold CRYPT_ArcFourCryptBlock. rewrite crypt_app.
  pose proof (crypt_wf _ d1 (setup_wf key) H1) as (W1 & B1 & L1).
  destruct (CRYPT_ArcFourCrypt _ d1) as [c1 o1]. simpl in *.
  pose proof (crypt_wf _ d2 W1 H2) as (W2 & B2 & L2).
  destruct (CRYPT_ArcFourCrypt c1 d2) as [c2 o2]. simpl in *.
  split_and!; try done. by apply Forall_app.
Qed.

Lemma rc4_stream_invariant_witness :
  bytes [1; 2] ∧ bytes [3] ∧
  let '(c1, o1) := CRYPT_ArcFourCrypt (CRYPT_ArcFourSetup [75; 101; 121]) [1; 2] in
  let '(c2, o2) := CRYPT_ArcFourCrypt c1 [3] in
  rc4_wf c1 ∧ rc4_wf c2 ∧ bytes (o1 ++ o2) ∧
  length o1 = length [1; 2] ∧ length o2 = length [3] ∧
  CRYPT_ArcFourCryptBlock ([1; 2] ++ [3]) [75; 101; 121] = o1 ++ o2.
Proof.
  assert (H1 : bytes [1; 2]) by (repeat constructor; lia).
  assert (H2 : bytes [3]) by (repeat constructor; lia).
  split; [exact H1|]. split; [exact H2|].
  exact (rc4_stream_invariant [75; 101; 121] [1; 2] [3] H1 H2).
Defined.

(** The published test vector: key "Key", plain text "Plaintext". *)
Example rc4_vector :
  CRYPT_ArcFourCryptBlock [80; 108; 97; 105; 110; 116; 101; 120; 116]
    [75; 101; 121] =
  [0xBB; 0xF3; 0x16; 0xE8; 0xD9; 0x40; 0xAF; 0x0A; 0xD3].
Proof. vm_compute. reflexivity. Qed.
