(* ===== verification/Words.v ===== *)
(** * Words and byte order

    The byte-order macros of [core/fdrm] ([GET_UINT32], [PUT_UINT32] of
    fx_crypt.cpp, [GET_32BIT_MSB_FIRST], [PUT_32BIT_MSB_FIRST] of
    fx_crypt_aes.cpp, [SHA_GET_UINT32] ... [SHA_PUT_UINT64] of
    fx_crypt_sha.cpp), rotations, and their round trips. *)
From S2P Require Import Prelude.

(** Little endian, 32 bits. *)
Definition GET_UINT32 (b : list Z) (i : Z) : Z :=
  b.[i] .| (b.[i + 1] .<< 8) .| (b.[i + 2] .<< 16) .| (b.[i + 3] .<< 24).

Definition PUT_UINT32 (n : Z) : list Z :=
  [n .& 0xFF; (n .>> 8) .& 0xFF; (n .>> 16) .& 0xFF; (n .>> 24) .& 0xFF].

(** Big endian, 32 bits. *)
Definition GET_32BIT_MSB_FIRST (b : list Z) (i : Z) : Z :=
  b.[i + 3] .| (b.[i + 2] .<< 8) .| (b.[i + 1] .<< 16) .| (b.[i] .<< 24).

Definition PUT_32BIT_MSB_FIRST (n : Z) : list Z :=
  [u8 (n .>> 24); u8 (n .>> 16); u8 (n .>> 8); u8 n].

(** Big endian, 64 bits. *)
Definition SHA_GET_UINT64 (b : list Z) (i : Z) : Z :=
  (b.[i] .<< 56) .| (b.[i + 1] .<< 48) .| (b.[i + 2] .<< 40) .|
  (b.[i + 3] .<< 32) .| (b.[i + 4] .<< 24) .| (b.[i + 5] .<< 16) .|
  (b.[i + 6] .<< 8) .| b.[i + 7].

Definition SHA_PUT_UINT64 (n : Z) : list Z :=
  [u8 (n .>> 56); u8 (n .>> 48); u8 (n .>> 40); u8 (n .>> 32);
   u8 (n .>> 24); u8 (n .>> 16); u8 (n .>> 8); u8 n].

(** Rotations of a 32-bit word. *)
Definition rotl32 (x n : Z) : Z := u32 (x .<< n) .| (x .>> (32 - n)).
Definition rotr32 (x n : Z) : Z := (x .>> n) .| u32 (x .<< (32 - n)).
Definition rotr64 (x n : Z) : Z := (x .>> n) .| u64 (x .<< (64 - n)).
Definition not32 (x : Z) : Z := x .^ 0xFFFFFFFF.

(** ** Disjoint [or] is addition *)
Lemma lor_shiftl_add a b k :
  0 <= k → fits k a → a .| (b .<< k) = a + b * 2 ^ k.
Proof.
  intros Hk Ha. rewrite <-Z.shiftl_mul_pow2 by done.
  rewrite Z.add_nocarry_lxor; [symmetry; apply Z.lxor_lor|];
    apply Z.bits_inj'; intros i Hi; rewrite Z.land_spec, Z.shiftl_spec, Z.bits_0 by lia;
    apply fits_testbit in Ha as [_ Ha]; try done;
    (destruct (decide (i < k)); [by rewrite (Z.testbit_neg_r b), andb_false_r by lia
                                |by rewrite Ha by lia]).
Qed.

Lemma fits_add_shift a b k w :
  0 <= k → 0 <= w → fits k a → fits w b → fits (k + w) (a + b * 2 ^ k).
Proof.
  unfold fits. intros Hk Hw Ha Hb. rewrite Z.pow_add_r by done. nia.
Qed.

(** The 32-bit words assembled from four bytes, as sums. *)
Lemma or4_sum a b c d :
  byte a → byte b → byte c → byte d →
  a .| (b .<< 8) .| (c .<< 16) .| (d .<< 24) =
    a + b * 2 ^ 8 + c * 2 ^ 16 + d * 2 ^ 24.
Proof.
  intros Ha Hb Hc Hd. rewrite (lor_shiftl_add a b 8) by done.
  rewrite (lor_shiftl_add _ c 16), (lor_shiftl_add _ d 24);
    unfold fits in *; lia.
Qed.

Lemma or4_sum' a b c d :
  byte a → byte b → byte c → byte d →
  (d .<< 24) .| (c .<< 16) .| (b .<< 8) .| a =
    a + b * 2 ^ 8 + c * 2 ^ 16 + d * 2 ^ 24.
Proof.
  intros. rewrite <-or4_sum by done. rewrite (Z.lor_comm _ a).
  rewrite (Z.lor_comm _ (b .<< 8)), (Z.lor_comm _ (c .<< 16)).
  by rewrite !Z.lor_assoc.
Qed.

Lemma shr_byte n k : 0 <= k → (n .>> k) .& 0xFF = (n / 2 ^ k) mod 2 ^ 8.
Proof.
  intros. rewrite Z.shiftr_div_pow2 by done.
  change 0xFF with (2 ^ 8 - 1). by rewrite land_ones_mod by lia.
Qed.

Lemma bytes_4 a b c d : byte a → byte b → byte c → byte d → bytes [a; b; c; d].
Proof. intros. solve_bytes. Qed.

Lemma put_le32_bytes n : bytes (PUT_UINT32 n).
Proof. apply bytes_4; apply mask_byte. Qed.

Lemma put_be32_bytes n : bytes (PUT_32BIT_MSB_FIRST n).
Proof. apply bytes_4; auto with fx. Qed.

Lemma put_be64_bytes n : bytes (SHA_PUT_UINT64 n).
Proof. unfold SHA_PUT_UINT64. solve_bytes. Qed.

(** Reading back what was written. *)
Lemma get_put_be32 n l : fits 32 n → GET_32BIT_MSB_FIRST (PUT_32BIT_MSB_FIRST n ++ l) 0 = n.
Proof.
  intros Hn. unfold GET_32BIT_MSB_FIRST, PUT_32BIT_MSB_FIRST, rd. simpl.
  rewrite or4_sum by auto with fx. unfold fits in Hn.
  rewrite !Z.shiftr_div_pow2 by lia. Z.div_mod_to_equations. lia.
Qed.

Lemma get_put_le32 n l : fits 32 n → GET_UINT32 (PUT_UINT32 n ++ l) 0 = n.
Proof.
  intros Hn. unfold GET_UINT32, PUT_UINT32, rd. simpl.
  rewrite or4_sum by apply mask_byte. unfold fits in Hn.
  change 255 with (2 ^ 8 - 1). rewrite !land_ones_mod, !Z.shiftr_div_pow2 by lia.
  Z.div_mod_to_equations. lia.
Qed.

(** Writing back what was read. *)
Lemma put_get_be32 a b c d l :
  byte a → byte b → byte c → byte d →
  PUT_32BIT_MSB_FIRST (GET_32BIT_MSB_FIRST (a :: b :: c :: d :: l) 0) = [a; b; c; d].
Proof.
  intros Ha Hb Hc Hd. unfold GET_32BIT_MSB_FIRST, PUT_32BIT_MSB_FIRST, rd. simpl.
  rewrite or4_sum by done. rewrite !Z.shiftr_div_pow2 by lia. unfold fits in *.
  repeat f_equal; Z.div_mod_to_equations; lia.
Qed.

Lemma get_be32_fits b i : bytes b → 0 <= i → i + 3 < zlen b → fits 32 (GET_32BIT_MSB_FIRST b i).
Proof.
  intros Hb Hi Hl. unfold GET_32BIT_MSB_FIRST.
  pose proof (bytes_rd b i Hb). pose proof (bytes_rd b (i + 1) Hb).
  pose proof (bytes_rd b (i + 2) Hb). pose proof (bytes_rd b (i + 3) Hb).
  rewrite or4_sum by done. unfold fits in *. lia.
Qed.

(** The low [w] bits of a word. *)
Lemma u32_fits n : fits 32 (u32 n).
Proof. auto with fx. Qed.
Lemma u64_fits n : fits 64 (u64 n).
Proof. auto with fx. Qed.
#[export] Hint Resolve u32_fits u64_fits put_be32_bytes put_le32_bytes put_be64_bytes : fx.

Lemma rotl32_fits x n : fits 32 x → 0 <= n <= 32 → fits 32 (rotl32 x n).
Proof. intros Hx Hn. unfold rotl32. auto with fx. Qed.
Lemma rotr32_fits x n : fits 32 x → 0 <= n → fits 32 (rotr32 x n).
Proof. intros Hx Hn. unfold rotr32. auto with fx. Qed.
Lemma rotr64_fits x n : fits 64 x → 0 <= n → fits 64 (rotr64 x n).
Proof. intros Hx Hn. unfold rotr64. auto with fx. Qed.
Lemma not32_fits x : fits 32 x → fits 32 (not32 x).
Proof. intros Hx. unfold not32. apply fits_lxor; [lia|done|]. unfold fits. lia. Qed.
#[export] Hint Resolve rotl32_fits rotr32_fits rotr64_fits not32_fits : fx.

(** ** Bitwise reasoning *)
Lemma testbit_not32 x i : 0 <= i < 32 → Z.testbit (not32 x) i = negb (Z.testbit x i).
Proof.
  intros Hi. unfold not32. rewrite Z.lxor_spec. change 0xFFFFFFFF with (Z.ones 32).
  by rewrite Z.ones_spec_low, xorb_true_r by lia.
Qed.

(** Two [w]-bit words with equal bits are equal. *)
Lemma fits_bits_inj w a b :
  0 <= w → fits w a → fits w b →
  (∀ i, 0 <= i < w → Z.testbit a i = Z.testbit b i) → a = b.
Proof.
  intros Hw Ha Hb H. apply fits_testbit in Ha as [_ Ha]; [|done].
  apply fits_testbit in Hb as [_ Hb]; [|done].
  apply Z.bits_inj'. intros i Hi. destruct (decide (i < w)); [by apply H|].
  by rewrite Ha, Hb by lia.
Qed.

(** Equality of bitwise expressions on 32-bit words, bit by bit. *)
Ltac bitwise32 :=
  apply (fits_bits_inj 32); [lia|auto 10 with fx..|];
  let i := fresh "i" in let Hi := fresh "Hi" in intros i Hi;
  repeat first [rewrite Z.lxor_spec | rewrite Z.land_spec | rewrite Z.lor_spec
               | rewrite testbit_not32 by done];
  repeat match goal with |- context [Z.testbit ?x i] => destruct (Z.testbit x i) end;
  reflexivity.
