(* ===== verification/BlockHash.v ===== *)
(** * Block-buffered hashing

    [CRYPT_MD5Update] (fx_crypt.cpp), [CRYPT_SHA1Update], [CRYPT_SHA256Update]
    and [CRYPT_SHA384Update] (fx_crypt_sha.cpp) keep an incomplete block in a
    buffer between calls.  The class [BlockHash] is what a hash promises to the
    buffering code: a block size and a compression function; the section proves
    once that the buffering is transparent, and each hash instantiates it. *)
From S2P Require Import Prelude.

Class BlockHash (St : Type) := {
  block_size : nat;
  process : St → list Z → St;
  block_size_pos : (0 < block_size)%nat;
}.

(** [memcpy(buf + off, src, |src|)]. *)
Definition splice (buf : list Z) (off : nat) (src : list Z) : list Z :=
  take off buf ++ src ++ drop (off + length src) buf.

Section block_hash.
Context {St : Type} `{!BlockHash St}.

(** [while (size >= B) { process(data); data += B; size -= B; }]: the state
    and the bytes left over.  [fuel = |data|] is enough since [B > 0]. *)
Fixpoint process_blocks (fuel : nat) (st : St) (data : list Z) : St * list Z :=
  match fuel with
  | O => (st, data)
  | S fuel' =>
      if decide (block_size <= length data)%nat
      then process_blocks fuel' (process st (take block_size data))
             (drop block_size data)
      else (st, data)
  end.

(** The body the three [Update] functions share, after the counters are
    updated; [left] is the number of buffered bytes. *)
Definition absorb (st : St) (buf : list Z) (left : nat) (data : list Z) :
    St * list Z :=
  let fill := (block_size - left)%nat in
  let '(st, buf, data, used) :=
    if decide (left ≠ 0 ∧ fill <= length data)%nat
    then let buf' := splice buf left (take fill data) in
         (process st (take block_size buf'), buf', drop fill data, O)
    else (st, buf, data, left) in
  let '(st, rest) := process_blocks (length data) st data in
  (st, if decide (rest = []) then buf else splice buf used rest).

(** ** Specification *)

(** The compression function folded over the whole blocks of [m]. *)
Definition hash_state (iv : St) (m : list Z) : St :=
  fst (process_blocks (length m) iv m).

(** [(st, buf)] is what the context holds once the bytes [m] went in. *)
Definition absorbed (iv : St) (m : list Z) (st : St) (buf : list Z) : Prop :=
  ∃ full tl, m = concat full ++ tl ∧
    Forall (λ b, length b = block_size) full ∧ (length tl < block_size)%nat ∧
    st = fold_left process full iv ∧
    (block_size <= length buf)%nat ∧ take (length tl) buf = tl.

Lemma split_blocks (data : list Z) :
  ∃ full tl, data = concat full ++ tl ∧
    Forall (λ b, length b = block_size) full ∧ (length tl < block_size)%nat.
Proof.
  pose proof block_size_pos as Hpos.
  induction data as [data IH] using (induction_ltof1 _ length); unfold ltof in IH.
  destruct (decide (block_size <= length data)%nat) as [Hge|Hlt].
  - destruct (IH (drop block_size data)) as (full & tl & E & Hf & Ht).
    { rewrite length_drop. lia. }
    exists (take block_size data :: full), tl. split_and!; [|constructor; [|done]|done].
    + simpl. rewrite <-app_assoc, <-E. by rewrite take_drop.
    + rewrite length_take. lia.
  - exists [], data. split_and!; [done|constructor|lia].
Qed.

Lemma length_blocks (full : list (list Z)) :
  Forall (λ b, length b = block_size) full →
  length (concat full) = (block_size * length full)%nat.
Proof.
  induction 1 as [|b full Hb _ IH]; simpl; [lia|].
  rewrite length_app, Hb, IH. lia.
Qed.

Lemma process_blocks_spec full tl st fuel :
  Forall (λ b, length b = block_size) full → (length tl < block_size)%nat →
  (length full <= fuel)%nat →
  process_blocks fuel st (concat full ++ tl) = (fold_left process full st, tl).
Proof.
  intros Hf Ht. revert st fuel. induction Hf as [|b full Hb Hf IH]; intros st fuel Hn.
  - destruct fuel; simpl; [done|]. rewrite decide_False by lia. done.
  - destruct fuel as [|fuel]; simpl in *; [lia|].
    rewrite decide_True by (rewrite !length_app, Hb; lia).
    rewrite <-app_assoc, take_app_length', drop_app_length' by done.
    apply IH. lia.
Qed.

Lemma blocks_fuel (full : list (list Z)) (tl : list Z) :
  Forall (λ b, length b = block_size) full →
  (length full <= length (concat full ++ tl))%nat.
Proof.
  intros Hf. rewrite length_app, (length_blocks _ Hf).
  pose proof block_size_pos. nia.
Qed.

Lemma hash_state_spec iv full tl :
  Forall (λ b, length b = block_size) full → (length tl < block_size)%nat →
  hash_state iv (concat full ++ tl) = fold_left process full iv.
Proof.
  intros Hf Ht. unfold hash_state.
  by rewrite process_blocks_spec by eauto using blocks_fuel.
Qed.

Lemma blocks_mod (full : list (list Z)) (tl : list Z) :
  Forall (λ b, length b = block_size) full → (length tl < block_size)%nat →
  (length (concat full ++ tl) mod block_size)%nat = length tl.
Proof.
  intros Hf Ht. rewrite length_app, (length_blocks _ Hf).
  rewrite Nat.add_comm, Nat.mul_comm, Nat.Div0.mod_add. by apply Nat.mod_small.
Qed.

Lemma absorbed_start iv buf : (block_size <= length buf)%nat → absorbed iv [] iv buf.
Proof.
  exists [], []. pose proof block_size_pos. by split_and!.
Qed.

Lemma length_splice (buf : list Z) (off : nat) (src : list Z) :
  (off + length src <= length buf)%nat → length (splice buf off src) = length buf.
Proof.
  intros. unfold splice. rewrite !length_app, length_take, length_drop. lia.
Qed.

Lemma take_splice (buf : list Z) (off : nat) (src : list Z) :
  (off + length src <= length buf)%nat →
  take (off + length src) (splice buf off src) = take off buf ++ src.
Proof.
  intros. unfold splice. rewrite app_assoc. apply take_app_length'.
  rewrite length_app, length_take. lia.
Qed.

Lemma splice_nil buf off : splice buf off [] = buf.
Proof. unfold splice. simpl. rewrite Nat.add_0_r. apply take_drop. Qed.

(** From a state with nothing buffered: the loop, then the final copy. *)
Lemma absorb_rest iv m full st buf data :
  m = concat full → Forall (λ b, length b = block_size) full →
  st = fold_left process full iv → (block_size <= length buf)%nat →
  let '(st', rest) := process_blocks (length data) st data in
  absorbed iv (m ++ data) st' (if decide (rest = []) then buf else splice buf 0 rest).
Proof.
  intros -> Hf -> Hb. destruct (split_blocks data) as (full' & tl & -> & Hf' & Ht).
  rewrite process_blocks_spec by eauto using blocks_fuel.
  assert ((if decide (tl = []) then buf else splice buf 0 tl) = splice buf 0 tl) as ->.
  { case_decide; [|done]. subst. by rewrite splice_nil. }
  exists (full ++ full'), tl. split_and!.
  - by rewrite concat_app, app_assoc.
  - by apply Forall_app.
  - done.
  - by rewrite fold_left_app.
  - rewrite length_splice; simpl; lia.
  - change (length tl) with (0 + length tl)%nat. by rewrite take_splice by lia.
Qed.

(** Buffering is transparent: absorbing [data] takes a context for [m] to a
    context for [m ++ data]. *)
Lemma absorb_absorbed iv m st buf data :
  absorbed iv m st buf →
  let '(st', buf') := absorb st buf (length m mod block_size)%nat data in
  absorbed iv (m ++ data) st' buf'.
Proof.
  intros (full & tl & -> & Hf & Ht & Hst & Hb & Hbuf). unfold absorb.
  rewrite (blocks_mod _ _ Hf Ht).
  case_decide as Hfill; [destruct Hfill as [Hl Hfill]|].
  - set (fill := (block_size - length tl)%nat) in *.
    assert (Hlen : length (take fill data) = fill) by (rewrite length_take; lia).
    assert (Hblk : take block_size (splice buf (length tl) (take fill data)) =
              tl ++ take fill data).
    { replace block_size with (length tl + length (take fill data))%nat at 1 by lia.
      rewrite take_splice by lia. by rewrite Hbuf. }
    rewrite Hblk.
    pose proof (absorb_rest iv _ (full ++ [tl ++ take fill data])
      (process st (tl ++ take fill data))
      (splice buf (length tl) (take fill data)) (drop fill data) eq_refl) as H.
    destruct (process_blocks _ _ (drop fill data)) as [st' rest].
    rewrite concat_app in H. simpl in H. rewrite app_nil_r, <-!app_assoc in H.
    rewrite take_drop in H. rewrite <-app_assoc. apply H.
    + apply Forall_app; split; [done|]. repeat constructor. rewrite length_app. lia.
    + by rewrite fold_left_app, Hst.
    + rewrite length_splice; lia.
  - destruct (decide (length tl = 0%nat)) as [Hz|Hnz].
    + apply nil_length_inv in Hz as ->. rewrite app_nil_r.
      pose proof (absorb_rest iv _ full st buf data eq_refl Hf Hst Hb) as H.
      by destruct (process_blocks _ _ data).
    + assert (Hs : (length tl + length data < block_size)%nat) by lia.
      pose proof (process_blocks_spec [] data st (length data)) as Hp. simpl in Hp.
      rewrite Hp by (try constructor; lia). clear Hp.
      assert ((if decide (data = []) then buf else splice buf (length tl) data) =
        splice buf (length tl) data) as ->.
      { case_decide; [|done]. subst. by rewrite splice_nil. }
      exists full, (tl ++ data). rewrite length_app. split_and!; try done.
      * by rewrite app_assoc.
      * rewrite length_splice; lia.
      * rewrite take_splice by lia. by rewrite Hbuf.
Qed.

(** When whole blocks went in, the chaining state is the specified one. *)
Lemma absorbed_state iv m st buf : absorbed iv m st buf → st = hash_state iv m.
Proof.
  intros (full & tl & -> & Hf & Ht & -> & _). by rewrite hash_state_spec.
Qed.
End block_hash.

(** ** The padding all four hashes append: 0x80, zeros, and the bit length in
    the last [lw] bytes of a block of [bs] bytes. *)
Definition pad_zeros (bs lw n : nat) : nat :=
  let last := (n mod bs)%nat in
  if decide (last < bs - lw)%nat then (bs - lw - last - 1)%nat
  else (2 * bs - lw - last - 1)%nat.

Lemma pad_zeros_total bs lw n :
  (0 < lw < bs)%nat → ((n + (1 + pad_zeros bs lw n) + lw) mod bs = 0)%nat.
Proof.
  intros Hlw. unfold pad_zeros. set (last := (n mod bs)%nat).
  assert (Hlast : (last < bs)%nat) by (apply Nat.mod_upper_bound; lia).
  pose proof (Nat.div_mod_eq n bs) as Hn. fold last in Hn.
  case_decide.
  - replace (n + (1 + (bs - lw - last - 1)) + lw)%nat with (0 + (n / bs + 1) * bs)%nat by nia.
    rewrite Nat.Div0.mod_add. by apply Nat.mod_small; lia.
  - replace (n + (1 + (2 * bs - lw - last - 1)) + lw)%nat
      with (0 + (n / bs + 2) * bs)%nat by nia.
    rewrite Nat.Div0.mod_add. by apply Nat.mod_small; lia.
Qed.
