(* ===== verification/Md5.v ===== *)
(** * MD5 ([core/fdrm/fx_crypt.cpp])

    The digest the standard security handler derives its keys with: the
    compression function [md5_process], the streaming context and
    [CRYPT_MD5Start] / [Update] / [Finish] / [Generate].  [data.size()] is a
    64-bit [size_t]. *)
From S2P Require Import Prelude Words BlockHash.

Definition md5_padding : list Z := 0x80 :: replicate 63 0.

Definition md5_regs : Type := Z * Z * Z * Z.

Record CRYPT_md5_context := Md5Ctx {
  md5_total0 : Z; md5_total1 : Z; md5_state : md5_regs; md5_buffer : list Z
}.

(** The four round functions, as the macros [F] write them. *)
Definition F1 (x y z : Z) : Z := z .^ (x .& (y .^ z)).
Definition F2 (x y z : Z) : Z := y .^ (z .& (x .^ y)).
Definition F3 (x y z : Z) : Z := x .^ y .^ z.
Definition F4 (x y z : Z) : Z := y .^ (x .| not32 z).

(** [P(a, b, c, d, k, s, t)] followed by the renaming of the registers in the
    next call: [P(A,B,C,D)], [P(D,A,B,C)], ... *)
Definition md5_P (F : Z → Z → Z → Z) (X : list Z) (r : md5_regs) (kst : Z * Z * Z) :
    md5_regs :=
  let '(a, b, c, d) := r in
  let '(k, s, t) := kst in
  let a := u32 (a + (F b c d + X.[k] + t)) in
  let a := u32 (rotl32 a s + b) in
  (d, a, b, c).

Definition md5_round1 : list (Z * Z * Z) :=
  [(0, 7, 0xD76AA478); (1, 12, 0xE8C7B756); (2, 17, 0x242070DB); (3, 22, 0xC1BDCEEE);
   (4, 7, 0xF57C0FAF); (5, 12, 0x4787C62A); (6, 17, 0xA8304613); (7, 22, 0xFD469501);
   (8, 7, 0x698098D8); (9, 12, 0x8B44F7AF); (10, 17, 0xFFFF5BB1); (11, 22, 0x895CD7BE);
   (12, 7, 0x6B901122); (13, 12, 0xFD987193); (14, 17, 0xA679438E); (15, 22, 0x49B40821)].

Definition md5_round2 : list (Z * Z * Z) :=
  [(1, 5, 0xF61E2562); (6, 9, 0xC040B340); (11, 14, 0x265E5A51); (0, 20, 0xE9B6C7AA);
   (5, 5, 0xD62F105D); (10, 9, 0x02441453); (15, 14, 0xD8A1E681); (4, 20, 0xE7D3FBC8);
   (9, 5, 0x21E1CDE6); (14, 9, 0xC33707D6); (3, 14, 0xF4D50D87); (8, 20, 0x455A14ED);
   (13, 5, 0xA9E3E905); (2, 9, 0xFCEFA3F8); (7, 14, 0x676F02D9); (12, 20, 0x8D2A4C8A)].

Definition md5_round3 : list (Z * Z * Z) :=
  [(5, 4, 0xFFFA3942); (8, 11, 0x8771F681); (11, 16, 0x6D9D6122); (14, 23, 0xFDE5380C);
   (1, 4, 0xA4BEEA44); (4, 11, 0x4BDECFA9); (7, 16, 0xF6BB4B60); (10, 23, 0xBEBFBC70);
   (13, 4, 0x289B7EC6); (0, 11, 0xEAA127FA); (3, 16, 0xD4EF3085); (6, 23, 0x04881D05);
   (9, 4, 0xD9D4D039); (12, 11, 0xE6DB99E5); (15, 16, 0x1FA27CF8); (2, 23, 0xC4AC5665)].

Definition md5_round4 : list (Z * Z * Z) :=
  [(0, 6, 0xF4292244); (7, 10, 0x432AFF97); (14, 15, 0xAB9423A7); (5, 21, 0xFC93A039);
   (12, 6, 0x655B59C3); (3, 10, 0x8F0CCC92); (10, 15, 0xFFEFF47D); (1, 21, 0x85845DD1);
   (8, 6, 0x6FA87E4F); (15, 10, 0xFE2CE6E0); (6, 15, 0xA3014314); (13, 21, 0x4E0811A1);
   (4, 6, 0xF7537E82); (11, 10, 0xBD3AF235); (2, 15, 0x2AD7D2BB); (9, 21, 0xEB86D391)].

Definition md5_process (st : md5_regs) (data : list Z) : md5_regs :=
  let X := map (λ i, GET_UINT32 data (4 * i)) (seqZ 0 16) in
  let r := fold_left (md5_P F1 X) md5_round1 st in
  let r := fold_left (md5_P F2 X) md5_round2 r in
  let r := fold_left (md5_P F3 X) md5_round3 r in
  let '(A, B, C, D) := fold_left (md5_P F4 X) md5_round4 r in
  let '(s0, s1, s2, s3) := st in
  (u32 (s0 + A), u32 (s1 + B), u32 (s2 + C), u32 (s3 + D)).

#[export] Program Instance md5_hash : BlockHash md5_regs :=
  {| block_size := 64; process := md5_process |}.
Next Obligation. lia. Qed.

(** [context->buffer] is not initialised by the code: it is an argument. *)
Definition CRYPT_MD5Start (buffer : list Z) : CRYPT_md5_context :=
  Md5Ctx 0 0 (0x67452301, 0xEFCDAB89, 0x98BADCFE, 0x10325476) buffer.

(** The bit counters: [size] is the number of bytes of one update. *)
Definition md5_count (total : Z * Z) (size : Z) : Z * Z :=
  let '(t0, t1) := total in
  let t0 := u32 (t0 + u64 (size .<< 3)) in
  let t1 := u32 (t1 + (size .>> 29)) in
  let t0 := t0 .& 0xFFFFFFFF in
  let t1 := u32 (t1 + Z.b2z (t0 <? u64 (size .<< 3))) in
  (t0, t1).

Definition CRYPT_MD5Update (ctx : CRYPT_md5_context) (data : list Z) :
    CRYPT_md5_context :=
  if decide (data = []) then ctx
  else
    let left := (md5_total0 ctx .>> 3) .& 0x3F in
    let '(t0, t1) := md5_count (md5_total0 ctx, md5_total1 ctx) (zlen data) in
    let '(st, buf) := absorb (md5_state ctx) (md5_buffer ctx) (Z.to_nat left) data in
    Md5Ctx t0 t1 st buf.

Definition md5_output (st : md5_regs) : list Z :=
  let '(s0, s1, s2, s3) := st in
  PUT_UINT32 s0 ++ PUT_UINT32 s1 ++ PUT_UINT32 s2 ++ PUT_UINT32 s3.

Definition CRYPT_MD5Finish (ctx : CRYPT_md5_context) : list Z :=
  let msglen := PUT_UINT32 (md5_total0 ctx) ++ PUT_UINT32 (md5_total1 ctx) in
  let last := (md5_total0 ctx .>> 3) .& 0x3F in
  let padn := if last <? 56 then 56 - last else 120 - last in
  let ctx := CRYPT_MD5Update ctx (take (Z.to_nat padn) md5_padding) in
  let ctx := CRYPT_MD5Update ctx msglen in
  md5_output (md5_state ctx).

Definition CRYPT_MD5Generate (buffer data : list Z) : list Z :=
  CRYPT_MD5Finish (CRYPT_MD5Update (CRYPT_MD5Start buffer) data).

Example md5_abc :
  CRYPT_MD5Generate (replicate 64 0xCD) [97; 98; 99] =
  [0x90; 0x01; 0x50; 0x98; 0x3c; 0xd2; 0x4f; 0xb0;
   0xd6; 0x96; 0x3f; 0x7d; 0x28; 0xe1; 0x7f; 0x72].
Proof. vm_compute. reflexivity. Qed.

(** ** The compression function of RFC 1321

    The same step written as the RFC does: the selection functions with their
    complement, and word index and shift computed from the step number.  The
    table of sines is the code's. *)
Definition rfc_F (x y z : Z) : Z := (x .& y) .| (not32 x .& z).
Definition rfc_G (x y z : Z) : Z := (x .& z) .| (y .& not32 z).
Definition rfc_T : list Z :=
  map snd (md5_round1 ++ md5_round2 ++ md5_round3 ++ md5_round4).

Definition rfc_step (X : list Z) (r : md5_regs) (i : Z) : md5_regs :=
  let '(a, b, c, d) := r in
  let '(f, k, s) :=
    if i <? 16 then (rfc_F b c d, i, [7; 12; 17; 22].[i mod 4])
    else if i <? 32 then (rfc_G b c d, (5 * i + 1) mod 16, [5; 9; 14; 20].[i mod 4])
    else if i <? 48 then (F3 b c d, (3 * i + 5) mod 16, [4; 11; 16; 23].[i mod 4])
    else (F4 b c d, (7 * i) mod 16, [6; 10; 15; 21].[i mod 4]) in
  (d, u32 (rotl32 (u32 (a + (f + X.[k] + rfc_T.[i]))) s + b), b, c).

Definition rfc_compress (st : md5_regs) (data : list Z) : md5_regs :=
  let X := map (λ i, GET_UINT32 data (4 * i)) (seqZ 0 16) in
  let '(A, B, C, D) := fold_left (rfc_step X) (seqZ 0 64) st in
  let '(s0, s1, s2, s3) := st in
  (u32 (s0 + A), u32 (s1 + B), u32 (s2 + C), u32 (s3 + D)).

Definition regs_fit (r : md5_regs) : Prop :=
  let '(a, b, c, d) := r in fits 32 a ∧ fits 32 b ∧ fits 32 c ∧ fits 32 d.

Lemma F1_rfc x y z : fits 32 x → fits 32 y → fits 32 z → F1 x y z = rfc_F x y z.
Proof. intros. unfold F1, rfc_F. bitwise32. Qed.

Lemma F2_rfc x y z : fits 32 x → fits 32 y → fits 32 z → F2 x y z = rfc_G x y z.
Proof. intros. unfold F2, rfc_G. bitwise32. Qed.

Lemma md5_P_fit F X r q : regs_fit r → regs_fit (md5_P F X r q).
Proof.
  destruct r as [[[a b] c] d], q as [[k s] t]. simpl.
  intros (Ha & Hb & Hc & Hd). auto with fx.
Qed.

(** One round: sixteen [P] calls are sixteen RFC steps. *)
Lemma md5_round_rfc F X tab i0 r :
  (∀ i r q, (i, q) ∈ zip (seqZ i0 16) tab → regs_fit r →
     md5_P F X r q = rfc_step X r i) →
  length tab = 16%nat → regs_fit r →
  fold_left (md5_P F X) tab r = fold_left (rfc_step X) (seqZ i0 16) r ∧
  regs_fit (fold_left (md5_P F X) tab r).
Proof.
  assert (Hlen : length (seqZ i0 16) = 16%nat) by (rewrite length_seqZ; lia).
  revert Hlen. generalize (seqZ i0 16) as ixs, 16%nat as n. intros ixs n Hi Hs Ht.
  revert ixs n r Hi Hs Ht.
  induction tab as [|q tab IH]; intros [|i ixs] n r Hi Hs Ht Hr; simpl in *; try lia.
  - done.
  - rewrite <-(Hs i r q) by (done || by left).
    apply (IH ixs (pred n)); [lia| |lia|by apply md5_P_fit].
    intros j r' q' Hj. apply Hs. by right.
Qed.

Ltac md5_round_cases :=
  let Hin := fresh "Hin" in
  intros ? [[[? ?] ?] ?] ? Hin (? & ? & ? & ?);
  rewrite list_elem_of_In in Hin; simpl in Hin;
  repeat (destruct Hin as [Hin|Hin];
    [injection Hin as <- <-; simpl; rewrite <-?F1_rfc, <-?F2_rfc by done; reflexivity|]);
  destruct Hin.

Lemma md5_process_steps X r :
  regs_fit r →
  fold_left (md5_P F4 X) md5_round4 (fold_left (md5_P F3 X) md5_round3
    (fold_left (md5_P F2 X) md5_round2 (fold_left (md5_P F1 X) md5_round1 r))) =
  fold_left (rfc_step X) (seqZ 0 64) r.
Proof.
  intros Hr.
  change (seqZ 0 64) with (seqZ 0 16 ++ seqZ 16 16 ++ seqZ 32 16 ++ seqZ 48 16).
  rewrite !fold_left_app.
  destruct (md5_round_rfc F1 X md5_round1 0 r ltac:(md5_round_cases) eq_refl Hr)
    as [<- H1].
  destruct (md5_round_rfc F2 X md5_round2 16 _ ltac:(md5_round_cases) eq_refl H1)
    as [<- H2].
  destruct (md5_round_rfc F3 X md5_round3 32 _ ltac:(md5_round_cases) eq_refl H2)
    as [<- H3].
  destruct (md5_round_rfc F4 X md5_round4 48 _ ltac:(md5_round_cases) eq_refl H3)
    as [<- H4].
  done.
Qed.

(** ** The streaming context *)
Definition md5_iv : md5_regs := (0x67452301, 0xEFCDAB89, 0x98BADCFE, 0x10325476).

(** The message of [n] bytes is followed by 0x80, zeros up to 56 modulo 64, and
    its length in bits, 64 bits little endian. *)
Definition md5_pad (n : nat) : list Z :=
  0x80 :: replicate (pad_zeros 64 8 n) 0 ++
  PUT_UINT32 (u32 (8 * Z.of_nat n)) ++ PUT_UINT32 (u32 (8 * Z.of_nat n / 2 ^ 32)).

Definition md5_spec (m : list Z) : list Z :=
  md5_output (hash_state md5_iv (m ++ md5_pad (length m))).

(** The context after the bytes [m]. *)
Definition md5_repr (m : list Z) (ctx : CRYPT_md5_context) : Prop :=
  absorbed md5_iv m (md5_state ctx) (md5_buffer ctx) ∧
  md5_total0 ctx = u32 (8 * zlen m) ∧
  md5_total1 ctx = u32 (8 * zlen m / 2 ^ 32).

Lemma md5_left (m : list Z) :
  (u32 (8 * zlen m) .>> 3) .& 0x3F = Z.of_nat (length m mod 64).
Proof.
  unfold zlen. change 0x3F with (2 ^ 6 - 1). rewrite land_ones_mod, Z.shiftr_div_pow2 by lia.
  rewrite Nat2Z.inj_mod. Z.div_mod_to_equations. lia.
Qed.

(** The counters of one update hold the bit count when the update is shorter
    than 2^29 bytes. *)
Lemma md5_count_small l n :
  0 <= l → 0 <= n < 2 ^ 29 →
  md5_count (u32 (8 * l), u32 (8 * l / 2 ^ 32)) n =
    (u32 (8 * (l + n)), u32 (8 * (l + n) / 2 ^ 32)).
Proof.
  intros Hl Hn. unfold md5_count.
  rewrite Z.shiftl_mul_pow2, Z.shiftr_div_pow2 by lia.
  change 0xFFFFFFFF with (2 ^ 32 - 1). rewrite land_ones_mod by lia.
  rewrite (Z.mod_small (n * 2 ^ 3) (2 ^ 64)) by lia.
  rewrite Z.mod_mod by lia. f_equal.
  - Z.div_mod_to_equations. lia.
  - destruct (Z.ltb_spec (u32 (u32 (8 * l) + n * 2 ^ 3)) (n * 2 ^ 3)) as [H|H];
      simpl Z.b2z; Z.div_mod_to_equations; lia.
Qed.

Lemma md5_update_repr m ctx data :
  zlen data < 2 ^ 29 → md5_repr m ctx → md5_repr (m ++ data) (CRYPT_MD5Update ctx data).
Proof.
  intros Hn (Ha & H0 & H1). unfold CRYPT_MD5Update.
  case_decide as Hd; [subst; by rewrite app_nil_r|].
  rewrite H0, H1, md5_count_small by (unfold zlen in *; lia).
  rewrite md5_left, Nat2Z.id.
  pose proof (absorb_absorbed _ _ _ _ data Ha) as Ha'.
  change block_size with 64%nat in Ha'.
  destruct (absorb _ _ _ data) as [st buf].
  split; [done|]. unfold zlen in *. simpl. rewrite length_app, Nat2Z.inj_add. done.
Qed.

Lemma md5_updates_repr m ctx chunks :
  Forall (λ d, zlen d < 2 ^ 29) chunks → md5_repr m ctx →
  md5_repr (m ++ concat chunks) (fold_left CRYPT_MD5Update chunks ctx).
Proof.
  intros Hc. revert m ctx. induction Hc as [|d chunks Hd Hc IH]; intros m ctx Hr; simpl.
  - by rewrite app_nil_r.
  - rewrite app_assoc. apply IH. by apply md5_update_repr.
Qed.

Lemma md5_start_repr buffer :
  length buffer = 64%nat → md5_repr [] (CRYPT_MD5Start buffer).
Proof.
  intros Hb. split; [|done]. apply absorbed_start. simpl. lia.
Qed.

(** The padding [CRYPT_MD5Finish] feeds back is [md5_pad]. *)
Lemma md5_padding_take n :
  let last := Z.of_nat (n mod 64) in
  take (Z.to_nat (if last <? 56 then 56 - last else 120 - last)) md5_padding =
    0x80 :: replicate (pad_zeros 64 8 n) 0.
Proof.
  unfold md5_padding, pad_zeros. set (k := (n mod 64)%nat). cbv zeta.
  assert (Hk : (k < 64)%nat) by (apply Nat.mod_upper_bound; lia).
  destruct (Z.ltb_spec (Z.of_nat k) 56); case_decide; try lia.
  - replace (Z.to_nat (56 - Z.of_nat k)) with (S (64 - 8 - k - 1)) by lia.
    rewrite firstn_cons, take_replicate. do 2 f_equal. lia.
  - replace (Z.to_nat (120 - Z.of_nat k)) with (S (2 * 64 - 8 - k - 1)) by lia.
    rewrite firstn_cons, take_replicate. do 2 f_equal. lia.
Qed.

Lemma md5_finish_spec m ctx : md5_repr m ctx → CRYPT_MD5Finish ctx = md5_spec m.
Proof.
  intros Hr. pose proof Hr as (_ & H0 & H1). unfold CRYPT_MD5Finish.
  rewrite H0, H1, md5_left, md5_padding_take.
  set (p := 0x80 :: _). set (l := PUT_UINT32 _ ++ _).
  assert (Hp : zlen p < 2 ^ 29).
  { unfold p, zlen, pad_zeros. simpl length. rewrite length_replicate.
    pose proof (Nat.mod_upper_bound (length m) 64). case_decide; lia. }
  apply (md5_update_repr _ _ p) in Hr; [|done].
  apply (md5_update_repr _ _ l) in Hr; [|done].
  destruct Hr as (Ha & _). apply absorbed_state in Ha. rewrite Ha.
  unfold md5_spec, md5_pad, p, l. by rewrite <-app_assoc.
Qed.

(** ** Properties *)

(** C24: the MD5 digest does not depend on how the message is cut into
    [CRYPT_MD5Update] calls (each shorter than 2^29 bytes) nor on the
    uninitialised context buffer: it is [md5_spec] of the concatenation, the
    compression function folded over the blocks of the padded message. *)
Theorem md5_streaming buffer chunks :
  length buffer = 64%nat → Forall (λ d, zlen d < 2 ^ 29) chunks →
  CRYPT_MD5Finish (fold_left CRYPT_MD5Update chunks (CRYPT_MD5Start buffer)) =
    md5_spec (concat chunks).
Proof.
  intros Hb Hc. apply md5_finish_spec.
  apply (md5_updates_repr [] _ _ Hc). by apply md5_start_repr.
Qed.

Lemma md5_streaming_witness :
  length (replicate 64 7) = 64%nat ∧ Forall (λ d, zlen d < 2 ^ 29) [[1; 2]; []; [3]] ∧
  CRYPT_MD5Finish (fold_left CRYPT_MD5Update [[1; 2]; []; [3]]
    (CRYPT_MD5Start (replicate 64 7))) = md5_spec (concat [[1; 2]; []; [3]]).
Proof.
  assert (Hb : length (replicate 64 7) = 64%nat) by reflexivity.
  assert (Hc : Forall (λ d, zlen d < 2 ^ 29) [[1; 2]; []; [3]])
    by (repeat constructor; unfold zlen; simpl; lia).
  split; [exact Hb|]. split; [exact Hc|]. exact (md5_streaming _ _ Hb Hc).
Defined.

(** C28: [md5_process], with its selection functions rewritten to save the
    complement and its steps unrolled, computes the compression function of
    RFC 1321 on every chaining state of 32-bit words. *)
Theorem md5_process_is_rfc1321 st data :
  regs_fit st → md5_process st data = rfc_compress st data.
Proof.
  intros Hst. unfold md5_process, rfc_compress. cbv zeta.
  by rewrite (md5_process_steps _ _ Hst).
Qed.

Lemma md5_process_is_rfc1321_witness :
  regs_fit (1, 2, 3, 4) ∧
  md5_process (1, 2, 3, 4) (replicate 64 5) = rfc_compress (1, 2, 3, 4) (replicate 64 5).
Proof.
  assert (H : regs_fit (1, 2, 3, 4)) by (unfold regs_fit, fits; lia).
  split; [exact H|]. exact (md5_process_is_rfc1321 _ _ H).
Defined.

(** The 64-bit bit counter.  After [l] bytes, an update of [n] bytes leaves
    the bit count of [l + n] bytes, except that an update of 2^29 bytes or more
    counts 2^32 bits too many whenever the low word does not really carry:
    [total[0] < data.size() << 3] compares a 32-bit with a 64-bit value. *)
Theorem md5_count_spec l n :
  0 <= l → 0 <= n < 2 ^ 61 →
  md5_count (u32 (8 * l), u32 (8 * l / 2 ^ 32)) n =
    (u32 (8 * (l + n)),
     u32 (8 * (l + n) / 2 ^ 32 +
          (if (2 ^ 29 <=? n) && (u32 (8 * l) + u32 (8 * n) <? 2 ^ 32) then 1 else 0))).
Proof.
  intros Hl Hn. destruct (Z.leb_spec (2 ^ 29) n) as [Hbig|Hsmall]; simpl andb.
  - unfold md5_count. rewrite Z.shiftl_mul_pow2, Z.shiftr_div_pow2 by lia.
    change 0xFFFFFFFF with (2 ^ 32 - 1). rewrite land_ones_mod by lia.
    rewrite (Z.mod_small (n * 2 ^ 3) (2 ^ 64)) by lia. rewrite Z.mod_mod by lia.
    destruct (Z.ltb_spec (u32 (u32 (8 * l) + n * 2 ^ 3)) (n * 2 ^ 3)) as [_|H];
      [|Z.div_mod_to_equations; lia].
    f_equal; [Z.div_mod_to_equations; lia|].
    destruct (Z.ltb_spec (u32 (8 * l) + u32 (8 * n)) (2 ^ 32)); simpl Z.b2z;
      Z.div_mod_to_equations; lia.
  - rewrite md5_count_small by lia. by rewrite Z.add_0_r.
Qed.

Lemma md5_count_spec_witness :
  0 <= 0 ∧ 0 <= 2 ^ 29 < 2 ^ 61 ∧
  md5_count (u32 (8 * 0), u32 (8 * 0 / 2 ^ 32)) (2 ^ 29) =
    (u32 (8 * (0 + 2 ^ 29)),
     u32 (8 * (0 + 2 ^ 29) / 2 ^ 32 +
       (if (2 ^ 29 <=? 2 ^ 29) && (u32 (8 * 0) + u32 (8 * 2 ^ 29) <? 2 ^ 32)
        then 1 else 0))).
Proof.
  split; [lia|]. split; [lia|].
  exact (md5_count_spec 0 (2 ^ 29) ltac:(lia) ltac:(lia)).
Defined.
