(* ===== verification/Sha2.v ===== *)
(** * SHA-256, SHA-384 and SHA-512

    The SHA-2 part of [core/fdrm/fx_crypt_sha.cpp].  A context keeps its eight
    chaining words as [uint64_t]; SHA-256 reads only their low halves. *)
From S2P Require Import Prelude Words BlockHash.

(** The registers A..H, and [ctx->state]. *)
Definition regs8 : Type := Z * Z * Z * Z * Z * Z * Z * Z.

Definition map8 (f : Z → Z) (r : regs8) : regs8 :=
  let '(a, b, c, d, e, f', g, h) := r in (f a, f b, f c, f d, f e, f f', f g, f h).
Definition zip8 (f : Z → Z → Z) (r s : regs8) : regs8 :=
  let '(a, b, c, d, e, f', g, h) := r in
  let '(a', b', c', d', e', f'', g', h') := s in
  (f a a', f b b', f c c', f d d', f e e', f f' f'', f g g', f h h').

Record CRYPT_sha2_context := Sha2Ctx {
  sha2_total_bytes : Z;
  sha2_state : regs8;
  sha2_buffer : list Z;
}.

Definition SHA_GET_UINT32 (b : list Z) (i : Z) : Z :=
  (b.[i] .<< 24) .| (b.[i + 1] .<< 16) .| (b.[i + 2] .<< 8) .| b.[i + 3].
Definition SHA_PUT_UINT32 (n : Z) : list Z :=
  [u8 (n .>> 24); u8 (n .>> 16); u8 (n .>> 8); u8 n].

(** ** SHA-256: the macros on [uint32_t] *)
Definition sha_SHR (x n : Z) : Z := (x .& 0xFFFFFFFF) .>> n.
Definition sha_ROTR (x n : Z) : Z := sha_SHR x n .| u32 (x .<< (32 - n)).
Definition sha_S0 (x : Z) : Z := sha_ROTR x 7 .^ sha_ROTR x 18 .^ sha_SHR x 3.
Definition sha_S1 (x : Z) : Z := sha_ROTR x 17 .^ sha_ROTR x 19 .^ sha_SHR x 10.
Definition sha_S2 (x : Z) : Z := sha_ROTR x 2 .^ sha_ROTR x 13 .^ sha_ROTR x 22.
Definition sha_S3 (x : Z) : Z := sha_ROTR x 6 .^ sha_ROTR x 11 .^ sha_ROTR x 25.
Definition sha_F0 (x y z : Z) : Z := (x .& y) .| (z .& (x .| y)).
Definition sha_F1 (x y z : Z) : Z := z .^ (x .& (y .^ z)).
Definition sha_R (W : list Z) (t : Z) : Z :=
  u32 (sha_S1 W.[t - 2] + W.[t - 7] + sha_S0 W.[t - 15] + W.[t - 16]).

(** [PS] updates [d] and [h]; the next call names the registers one place
    further, so the result is rotated. *)
Definition sha_PS (r : regs8) (x K : Z) : regs8 :=
  let '(a, b, c, d, e, f, g, h) := r in
  let temp1 := u32 (h + sha_S3 e + sha_F1 e f g + K + x) in
  let temp2 := u32 (sha_S2 a + sha_F0 a b c) in
  (u32 (temp1 + temp2), a, b, c, u32 (d + temp1), e, f, g).

Definition sha256_K : list Z :=
  [0x428A2F98; 0x71374491; 0xB5C0FBCF; 0xE9B5DBA5;
   0x3956C25B; 0x59F111F1; 0x923F82A4; 0xAB1C5ED5;
   0xD807AA98; 0x12835B01; 0x243185BE; 0x550C7DC3;
   0x72BE5D74; 0x80DEB1FE; 0x9BDC06A7; 0xC19BF174;
   0xE49B69C1; 0xEFBE4786; 0x0FC19DC6; 0x240CA1CC;
   0x2DE92C6F; 0x4A7484AA; 0x5CB0A9DC; 0x76F988DA;
   0x983E5152; 0xA831C66D; 0xB00327C8; 0xBF597FC7;
   0xC6E00BF3; 0xD5A79147; 0x06CA6351; 0x14292967;
   0x27B70A85; 0x2E1B2138; 0x4D2C6DFC; 0x53380D13;
   0x650A7354; 0x766A0ABB; 0x81C2C92E; 0x92722C85;
   0xA2BFE8A1; 0xA81A664B; 0xC24B8B70; 0xC76C51A3;
   0xD192E819; 0xD6990624; 0xF40E3585; 0x106AA070;
   0x19A4C116; 0x1E376C08; 0x2748774C; 0x34B0BCB5;
   0x391C0CB3; 0x4ED8AA4A; 0x5B9CCA4F; 0x682E6FF3;
   0x748F82EE; 0x78A5636F; 0x84C87814; 0x8CC70208;
   0x90BEFFFA; 0xA4506CEB; 0xBEF9A3F7; 0xC67178F2].

(** The step [t] of the unrolled body: [W[t]] for the first sixteen, [R(t)],
    which also stores [W[t]], afterwards. *)
Definition sha256_step (t : Z) (s : list Z * regs8) : list Z * regs8 :=
  let '(W, r) := s in
  let '(W, x) := if t <? 16 then (W, W.[t])
                 else let x := sha_R W t in (W ++ [x], x) in
  (W, sha_PS r x sha256_K.[t]).

Definition sha256_process (st : regs8) (data : list Z) : regs8 :=
  let W := map (λ i, SHA_GET_UINT32 data (4 * i)) (seqZ 0 16) in
  let '(_, r) := for_loop 64 sha256_step (W, map8 (λ x, u32 x) st) in
  zip8 (λ s a, u64 (s + a)) st r.

(** ** SHA-384 and SHA-512: the macros on [uint64_t] *)
Definition SHA384_SHR (x n : Z) : Z := x .>> n.
Definition SHA384_ROTR (x n : Z) : Z := SHA384_SHR x n .| u64 (x .<< (64 - n)).
Definition SHA384_S0 (x : Z) : Z := SHA384_ROTR x 1 .^ SHA384_ROTR x 8 .^ SHA384_SHR x 7.
Definition SHA384_S1 (x : Z) : Z := SHA384_ROTR x 19 .^ SHA384_ROTR x 61 .^ SHA384_SHR x 6.
Definition SHA384_S2 (x : Z) : Z := SHA384_ROTR x 28 .^ SHA384_ROTR x 34 .^ SHA384_ROTR x 39.
Definition SHA384_S3 (x : Z) : Z := SHA384_ROTR x 14 .^ SHA384_ROTR x 18 .^ SHA384_ROTR x 41.
Definition SHA384_F0 (x y z : Z) : Z := (x .& y) .| (z .& (x .| y)).
Definition SHA384_F1 (x y z : Z) : Z := z .^ (x .& (y .^ z)).
Definition SHA384_R (W : list Z) (t : Z) : Z :=
  u64 (SHA384_S1 W.[t - 2] + W.[t - 7] + SHA384_S0 W.[t - 15] + W.[t - 16]).
Definition SHA384_P (r : regs8) (x K : Z) : regs8 :=
  let '(a, b, c, d, e, f, g, h) := r in
  let temp1 := u64 (h + SHA384_S3 e + SHA384_F1 e f g + K + x) in
  let temp2 := u64 (SHA384_S2 a + SHA384_F0 a b c) in
  (u64 (temp1 + temp2), a, b, c, u64 (d + temp1), e, f, g).

Definition constants : list Z :=
  [0x428A2F98D728AE22; 0x7137449123EF65CD;
   0xB5C0FBCFEC4D3B2F; 0xE9B5DBA58189DBBC;
   0x3956C25BF348B538; 0x59F111F1B605D019;
   0x923F82A4AF194F9B; 0xAB1C5ED5DA6D8118;
   0xD807AA98A3030242; 0x12835B0145706FBE;
   0x243185BE4EE4B28C; 0x550C7DC3D5FFB4E2;
   0x72BE5D74F27B896F; 0x80DEB1FE3B1696B1;
   0x9BDC06A725C71235; 0xC19BF174CF692694;
   0xE49B69C19EF14AD2; 0xEFBE4786384F25E3;
   0x0FC19DC68B8CD5B5; 0x240CA1CC77AC9C65;
   0x2DE92C6F592B0275; 0x4A7484AA6EA6E483;
   0x5CB0A9DCBD41FBD4; 0x76F988DA831153B5;
   0x983E5152EE66DFAB; 0xA831C66D2DB43210;
   0xB00327C898FB213F; 0xBF597FC7BEEF0EE4;
   0xC6E00BF33DA88FC2; 0xD5A79147930AA725;
   0x06CA6351E003826F; 0x142929670A0E6E70;
   0x27B70A8546D22FFC; 0x2E1B21385C26C926;
   0x4D2C6DFC5AC42AED; 0x53380D139D95B3DF;
   0x650A73548BAF63DE; 0x766A0ABB3C77B2A8;
   0x81C2C92E47EDAEE6; 0x92722C851482353B;
   0xA2BFE8A14CF10364; 0xA81A664BBC423001;
   0xC24B8B70D0F89791; 0xC76C51A30654BE30;
   0xD192E819D6EF5218; 0xD69906245565A910;
   0xF40E35855771202A; 0x106AA07032BBD1B8;
   0x19A4C116B8D2D0C8; 0x1E376C085141AB53;
   0x2748774CDF8EEB99; 0x34B0BCB5E19B48A8;
   0x391C0CB3C5C95A63; 0x4ED8AA4AE3418ACB;
   0x5B9CCA4F7763E373; 0x682E6FF3D6B2B8A3;
   0x748F82EE5DEFB2FC; 0x78A5636F43172F60;
   0x84C87814A1F0AB72; 0x8CC702081A6439EC;
   0x90BEFFFA23631E28; 0xA4506CEBDE82BDE9;
   0xBEF9A3F7B2C67915; 0xC67178F2E372532B;
   0xCA273ECEEA26619C; 0xD186B8C721C0C207;
   0xEADA7DD6CDE0EB1E; 0xF57D4F7FEE6ED178;
   0x06F067AA72176FBA; 0x0A637DC5A2C898A6;
   0x113F9804BEF90DAE; 0x1B710B35131C471B;
   0x28DB77F523047D84; 0x32CAAB7B40C72493;
   0x3C9EBE0A15C9BEBC; 0x431D67C49C100D4C;
   0x4CC5D4BECB3E42B6; 0x597F299CFC657E2A;
   0x5FCB6FAB3AD6FAEC; 0x6C44198C4A475817].

(** One iteration of the loop on [i]: the eight words [temp], then eight [P]. *)
Definition sha384_group (i : Z) (s : list Z * regs8) : list Z * regs8 :=
  let '(W, r) := s in
  let W := if i <? 2 then W
           else for_loop 8 (λ j W, W ++ [SHA384_R W (i * 8 + j)]) W in
  let temp := map (λ j, W.[i * 8 + j]) (seqZ 0 8) in
  (W, for_loop 8 (λ j r, SHA384_P r temp.[j] constants.[i * 8 + j]) r).

Definition sha384_process (st : regs8) (data : list Z) : regs8 :=
  let W := map (λ i, SHA_GET_UINT64 data (8 * i)) (seqZ 0 16) in
  let '(_, r) := for_loop 10 sha384_group (W, st) in
  zip8 (λ s a, u64 (s + a)) st r.

(** ** The contexts *)
Definition sha256_padding : list Z := 0x80 :: replicate 63 0.
Definition sha384_padding : list Z := 0x80 :: replicate 127 0.

Definition sha256_iv : regs8 :=
  (0x6A09E667, 0xBB67AE85, 0x3C6EF372, 0xA54FF53A,
   0x510E527F, 0x9B05688C, 0x1F83D9AB, 0x5BE0CD19).
Definition sha384_iv : regs8 :=
  (0xCBBB9D5DC1059ED8, 0x629A292A367CD507, 0x9159015A3070DD17, 0x152FECD8F70E5939,
   0x67332667FFC00B31, 0x8EB44A8768581511, 0xDB0C2E0D64F98FA7, 0x47B5481DBEFA4FA4).
Definition sha512_iv : regs8 :=
  (0x6A09E667F3BCC908, 0xBB67AE8584CAA73B, 0x3C6EF372FE94F82B, 0xA54FF53A5F1D36F1,
   0x510E527FADE682D1, 0x9B05688C2B3E6C1F, 0x1F83D9ABFB41BD6B, 0x5BE0CD19137E2179).

Definition CRYPT_SHA256Start : CRYPT_sha2_context := Sha2Ctx 0 sha256_iv (replicate 128 0).
Definition CRYPT_SHA384Start : CRYPT_sha2_context := Sha2Ctx 0 sha384_iv (replicate 128 0).
Definition CRYPT_SHA512Start : CRYPT_sha2_context := Sha2Ctx 0 sha512_iv (replicate 128 0).

(** The two compression functions as block hashes. *)
Program Definition sha256_hash : BlockHash regs8 :=
  {| block_size := 64; process := sha256_process |}.
Next Obligation. lia. Qed.
Program Definition sha384_hash : BlockHash regs8 :=
  {| block_size := 128; process := sha384_process |}.
Next Obligation. lia. Qed.

(** The two [Update] functions differ in the block size and the compression. *)
Definition sha2_update (H : BlockHash regs8) (ctx : CRYPT_sha2_context) (data : list Z) :
    CRYPT_sha2_context :=
  if decide (data = []) then ctx
  else
    let left := sha2_total_bytes ctx .& (Z.of_nat block_size - 1) in
    let '(st, buf) := absorb (sha2_state ctx) (sha2_buffer ctx) (Z.to_nat left) data in
    Sha2Ctx (u64 (sha2_total_bytes ctx + zlen data)) st buf.

Definition CRYPT_SHA256Update := sha2_update sha256_hash.
Definition CRYPT_SHA384Update := sha2_update sha384_hash.
Definition CRYPT_SHA512Update := CRYPT_SHA384Update.

Definition sha2_words (put : Z → list Z) (r : regs8) : list Z :=
  let '(a, b, c, d, e, f, g, h) := r in
  put a ++ put b ++ put c ++ put d ++ put e ++ put f ++ put g ++ put h.

Definition CRYPT_SHA256Finish (ctx : CRYPT_sha2_context) : list Z :=
  let total_bits := u64 (8 * sha2_total_bytes ctx) in
  let msglen := SHA_PUT_UINT64 total_bits in
  let last := sha2_total_bytes ctx .& 0x3F in
  let padn := if last <? 56 then 56 - last else 120 - last in
  let ctx := CRYPT_SHA256Update ctx (take (Z.to_nat padn) sha256_padding) in
  let ctx := CRYPT_SHA256Update ctx msglen in
  sha2_words SHA_PUT_UINT32 (sha2_state ctx).

(** What [CRYPT_SHA384Finish] and [CRYPT_SHA512Finish] share. *)
Definition sha512_close (ctx : CRYPT_sha2_context) : list Z :=
  let total_bits := u64 (8 * sha2_total_bytes ctx) in
  let msglen := SHA_PUT_UINT64 0 ++ SHA_PUT_UINT64 total_bits in
  let last := sha2_total_bytes ctx .& 0x7F in
  let padn := if last <? 112 then 112 - last else 240 - last in
  let ctx := CRYPT_SHA384Update ctx (take (Z.to_nat padn) sha384_padding) in
  let ctx := CRYPT_SHA384Update ctx msglen in
  sha2_words SHA_PUT_UINT64 (sha2_state ctx).

Definition CRYPT_SHA384Finish (ctx : CRYPT_sha2_context) : list Z := take 48 (sha512_close ctx).
Definition CRYPT_SHA512Finish (ctx : CRYPT_sha2_context) : list Z := sha512_close ctx.

Definition CRYPT_SHA256Generate (data : list Z) : list Z :=
  CRYPT_SHA256Finish (CRYPT_SHA256Update CRYPT_SHA256Start data).
Definition CRYPT_SHA384Generate (data : list Z) : list Z :=
  CRYPT_SHA384Finish (CRYPT_SHA384Update CRYPT_SHA384Start data).
Definition CRYPT_SHA512Generate (data : list Z) : list Z :=
  CRYPT_SHA512Finish (CRYPT_SHA512Update CRYPT_SHA512Start data).

(** ** FIPS 180-4

    The compression function of the standard, for a word of [sw] bits: the
    message schedule is computed first, [Ch] and [Maj] are the standard's. *)
Record sha2_alg := Sha2Alg {
  sw : Z;
  sigma0 : Z → Z; sigma1 : Z → Z;
  Sigma0 : Z → Z; Sigma1 : Z → Z;
  sK : list Z;
  srounds : nat;
}.

Definition fips_rotr (w x n : Z) : Z := (x .>> n) .| ((x .<< (w - n)) mod 2 ^ w).
Definition fips_Ch (w x y z : Z) : Z := (x .& y) .^ ((x .^ (2 ^ w - 1)) .& z).
Definition fips_Maj (x y z : Z) : Z := (x .& y) .^ (x .& z) .^ (y .& z).

Definition fips_extend (A : sha2_alg) (j : Z) (W : list Z) : list Z :=
  W ++ [(sigma1 A W.[j + 14] + W.[j + 9] + sigma0 A W.[j + 1] + W.[j]) mod 2 ^ sw A].
Definition fips_schedule (A : sha2_alg) (n : nat) (M : list Z) : list Z :=
  for_loop n (fips_extend A) M.

Definition fips_round (A : sha2_alg) (W : list Z) (t : Z) (r : regs8) : regs8 :=
  let '(a, b, c, d, e, f, g, h) := r in
  let T1 := (h + Sigma1 A e + fips_Ch (sw A) e f g + (sK A).[t] + W.[t]) mod 2 ^ sw A in
  let T2 := (Sigma0 A a + fips_Maj a b c) mod 2 ^ sw A in
  ((T1 + T2) mod 2 ^ sw A, a, b, c, (d + T1) mod 2 ^ sw A, e, f, g).

Definition fips_compress (A : sha2_alg) (H : regs8) (M : list Z) : regs8 :=
  let W := fips_schedule A (srounds A - 16) M in
  zip8 (λ h a, (h + a) mod 2 ^ sw A) H (for_loop (srounds A) (fips_round A W) H).

Definition fips256 : sha2_alg := {|
  sw := 32;
  sigma0 x := fips_rotr 32 x 7 .^ fips_rotr 32 x 18 .^ (x .>> 3);
  sigma1 x := fips_rotr 32 x 17 .^ fips_rotr 32 x 19 .^ (x .>> 10);
  Sigma0 x := fips_rotr 32 x 2 .^ fips_rotr 32 x 13 .^ fips_rotr 32 x 22;
  Sigma1 x := fips_rotr 32 x 6 .^ fips_rotr 32 x 11 .^ fips_rotr 32 x 25;
  sK := sha256_K; srounds := 64 |}.

Definition fips512 : sha2_alg := {|
  sw := 64;
  sigma0 x := fips_rotr 64 x 1 .^ fips_rotr 64 x 8 .^ (x .>> 7);
  sigma1 x := fips_rotr 64 x 19 .^ fips_rotr 64 x 61 .^ (x .>> 6);
  Sigma0 x := fips_rotr 64 x 28 .^ fips_rotr 64 x 34 .^ fips_rotr 64 x 39;
  Sigma1 x := fips_rotr 64 x 14 .^ fips_rotr 64 x 18 .^ fips_rotr 64 x 41;
  sK := constants; srounds := 80 |}.

Opaque sha256_K constants.

(** *** The schedule *)
Lemma length_schedule A n M : length (fips_schedule A n M) = (length M + n)%nat.
Proof.
  unfold fips_schedule. induction n as [|n IH]; cbn [for_loop]; [lia|].
  unfold fips_extend at 1. rewrite length_app, IH. simpl. lia.
Qed.

(** A longer schedule agrees with a shorter one. *)
Lemma schedule_prefix A n m M t :
  (n <= m)%nat → 0 <= t < zlen M + Z.of_nat n →
  (fips_schedule A m M).[t] = (fips_schedule A n M).[t].
Proof.
  intros Hnm Ht. induction Hnm as [|m Hnm IH]; [done|].
  unfold fips_schedule in *. simpl. unfold fips_extend at 1.
  rewrite rd_app_l; [done|]. unfold zlen in *.
  pose proof (length_schedule A m M) as Hl. unfold fips_schedule in Hl. lia.
Qed.

Definition regs_fits (w : Z) (r : regs8) : Prop :=
  let '(a, b, c, d, e, f, g, h) := r in
  fits w a ∧ fits w b ∧ fits w c ∧ fits w d ∧ fits w e ∧ fits w f ∧ fits w g ∧ fits w h.

Lemma fips_round_fits A W t r :
  0 <= sw A → regs_fits (sw A) r → regs_fits (sw A) (fips_round A W t r).
Proof.
  intros Hw. destruct r as [[[[[[[a b] c] d] e] f] g] h]. simpl.
  intros (Ha & Hb & Hc & Hd & He & Hf & Hg & Hh). split_and!; auto with fx.
Qed.

Lemma fips_rounds_fits A W n r :
  0 <= sw A → regs_fits (sw A) r → regs_fits (sw A) (for_loop n (fips_round A W) r).
Proof. intros Hw Hr. induction n; simpl; [done|]. by apply fips_round_fits. Qed.

Lemma schedule_fits A n M :
  0 <= sw A → Forall (fits (sw A)) M → Forall (fits (sw A)) (fips_schedule A n M).
Proof.
  intros Hw HM. induction n as [|n IH]; [done|]. unfold fips_schedule in *. simpl.
  unfold fips_extend at 1. apply Forall_app. split; [done|]. repeat constructor.
  all: apply fits_mod; done.
Qed.

(** *** The macros are the standard's functions *)
Lemma testbit_notw w x i :
  0 <= i < w → Z.testbit (x .^ (2 ^ w - 1)) i = negb (Z.testbit x i).
Proof.
  intros Hi. rewrite Z.lxor_spec. replace (2 ^ w - 1) with (Z.ones w)
    by (rewrite Z.ones_equiv; lia).
  by rewrite Z.ones_spec_low, xorb_true_r by lia.
Qed.

Lemma notw_fits w x : 0 <= w → fits w x → fits w (x .^ (2 ^ w - 1)).
Proof. intros Hw Hx. apply fits_lxor; [done..|]. unfold fits. lia. Qed.

Lemma Ch_eq w x y z :
  0 <= w → fits w x → fits w y → fits w z → z .^ (x .& (y .^ z)) = fips_Ch w x y z.
Proof.
  intros Hw Hx Hy Hz. unfold fips_Ch. pose proof (notw_fits w x Hw Hx).
  apply (fits_bits_inj w); [lia|auto 10 with fx..|]. intros i Hi.
  rewrite !Z.lxor_spec, !Z.land_spec, testbit_notw, !Z.lxor_spec by done.
  by destruct (Z.testbit x i), (Z.testbit y i), (Z.testbit z i).
Qed.

Lemma Maj_eq x y z : (x .& y) .| (z .& (x .| y)) = fips_Maj x y z.
Proof.
  unfold fips_Maj. apply Z.bits_inj'. intros i Hi.
  rewrite Z.lor_spec, !Z.lxor_spec, !Z.land_spec, Z.lor_spec.
  by destruct (Z.testbit x i), (Z.testbit y i), (Z.testbit z i).
Qed.

Lemma sha_SHR_eq x n : fits 32 x → sha_SHR x n = x .>> n.
Proof.
  intros Hx. unfold sha_SHR. change 0xFFFFFFFF with (2 ^ 32 - 1).
  by rewrite land_ones_mod, fits_small.
Qed.

Lemma sha_ROTR_eq x n : fits 32 x → sha_ROTR x n = fips_rotr 32 x n.
Proof. intros Hx. unfold sha_ROTR, fips_rotr. by rewrite sha_SHR_eq. Qed.

Lemma sha_PS_eq W t r :
  regs_fits 32 r → sha_PS r W.[t] sha256_K.[t] = fips_round fips256 W t r.
Proof.
  destruct r as [[[[[[[a b] c] d] e] f] g] h]. intros (Ha & Hb & Hc & Hd & He & Hf & Hg & Hh).
  unfold sha_PS, fips_round, sha_S2, sha_S3, sha_F0, sha_F1. cbn [sw Sigma0 Sigma1 sK fips256].
  rewrite !sha_ROTR_eq, Maj_eq, (Ch_eq 32) by done. done.
Qed.

Lemma sha_R_eq n M :
  Forall (fits 32) M → length M = 16%nat →
  fips_schedule fips256 n M ++ [sha_R (fips_schedule fips256 n M) (16 + Z.of_nat n)] =
    fips_schedule fips256 (S n) M.
Proof.
  intros HM Hl. change (fips_schedule fips256 (S n) M)
    with (fips_extend fips256 (Z.of_nat n) (fips_schedule fips256 n M)).
  pose proof (schedule_fits fips256 n M ltac:(done) HM) as HW.
  set (W := fips_schedule fips256 n M) in *. unfold fips_extend, sha_R, sha_S0, sha_S1.
  assert (HWr : ∀ i, fits 32 W.[i]).
  { intros i. unfold rd. rewrite nth_lookup. destruct (W !! Z.to_nat i) eqn:E; simpl;
      [by eapply Forall_lookup_1|unfold fits; lia]. }
  rewrite !sha_ROTR_eq, !sha_SHR_eq by done. cbn [sigma0 sigma1 sw fips256].
  replace (16 + Z.of_nat n - 2) with (Z.of_nat n + 14) by lia.
  replace (16 + Z.of_nat n - 7) with (Z.of_nat n + 9) by lia.
  replace (16 + Z.of_nat n - 15) with (Z.of_nat n + 1) by lia.
  by replace (16 + Z.of_nat n - 16) with (Z.of_nat n) by lia.
Qed.

(** The unrolled body computes the schedule as it goes. *)
Lemma sha256_steps n M r :
  Forall (fits 32) M → length M = 16%nat → regs_fits 32 r → (n <= 64)%nat →
  for_loop n sha256_step (M, r) =
    (fips_schedule fips256 (n - 16) M,
     for_loop n (fips_round fips256 (fips_schedule fips256 48 M)) r).
Proof.
  intros HM Hl Hr. induction n as [|n IH]; intros Hn; [done|]. cbn [for_loop].
  rewrite IH by lia. unfold sha256_step.
  pose proof (fips_rounds_fits fips256 (fips_schedule fips256 48 M) n r ltac:(done) Hr) as Hrn.
  set (rn := for_loop n _ r) in *.
  assert (Hx : (fips_schedule fips256 (S n - 16) M).[Z.of_nat n] =
    (fips_schedule fips256 48 M).[Z.of_nat n]).
  { symmetry. apply schedule_prefix; unfold zlen; lia. }
  destruct (Z.ltb_spec (Z.of_nat n) 16).
  - replace (n - 16)%nat with 0%nat in * by lia.
    replace (S n - 16)%nat with 0%nat in * by lia. by rewrite Hx, sha_PS_eq by done.
  - replace (Z.of_nat n) with (16 + Z.of_nat (n - 16)) at 1 2 by lia.
    rewrite sha_R_eq by done. replace (S (n - 16)) with (S n - 16)%nat by lia.
    f_equal. rewrite <-sha_PS_eq by done. f_equal. rewrite <-Hx.
    replace (S n - 16)%nat with (S (n - 16)) by lia. rewrite <-sha_R_eq by done.
    replace (Z.of_nat n) with (zlen (fips_schedule fips256 (n - 16) M))
      by (unfold zlen; rewrite length_schedule; lia).
    by rewrite rd_snoc.
Qed.

Definition words256 (data : list Z) : list Z := map (λ i, SHA_GET_UINT32 data (4 * i)) (seqZ 0 16).
Definition words512 (data : list Z) : list Z := map (λ i, SHA_GET_UINT64 data (8 * i)) (seqZ 0 16).

Lemma words256_fits data : bytes data → Forall (fits 32) (words256 data).
Proof.
  intros Hb. unfold words256. apply Forall_map, Forall_true. intros i.
  unfold SHA_GET_UINT32. rewrite or4_sum' by auto with fx.
  pose proof (bytes_rd data (4 * i) Hb). pose proof (bytes_rd data (4 * i + 1) Hb).
  pose proof (bytes_rd data (4 * i + 2) Hb). pose proof (bytes_rd data (4 * i + 3) Hb).
  unfold fits in *. lia.
Qed.

Lemma words512_fits data : bytes data → Forall (fits 64) (words512 data).
Proof.
  intros Hb. unfold words512. apply Forall_map, Forall_true. intros i.
  unfold SHA_GET_UINT64.
  assert (H : ∀ j k, 0 <= k <= 56 → fits 64 (data.[j] .<< k)).
  { intros j k Hk. apply (fits_mono (8 + k)); [lia|]. apply fits_shiftl; [lia..|].
    by apply bytes_rd. }
  repeat apply fits_lor; try lia; try (apply H; lia).
  apply (fits_mono 8); [lia|]. by apply bytes_rd.
Qed.

Lemma zip8_u32 st r :
  map8 (λ x, u32 x) (zip8 (λ s a, u64 (s + a)) st r) =
    zip8 (λ s a, (s + a) mod 2 ^ 32) (map8 (λ x, u32 x) st) r.
Proof.
  destruct st as [[[[[[[? ?] ?] ?] ?] ?] ?] ?], r as [[[[[[[? ?] ?] ?] ?] ?] ?] ?]. cbn [map8 zip8].
  assert (H : ∀ x y, u32 (u64 (x + y)) = u32 (u32 x + y)).
  { intros x y. rewrite Zplus_mod_idemp_l. change (2 ^ 64) with (2 ^ 32 * 2 ^ 32).
    rewrite Z.rem_mul_r by lia. rewrite (Z.mul_comm (2 ^ 32)), Z.mod_add by lia.
    by rewrite Z.mod_mod by lia. }
  by rewrite !H.
Qed.

Lemma map8_fits w st : 0 <= w → regs_fits w (map8 (λ x, x mod 2 ^ w) st).
Proof.
  intros Hw. destruct st as [[[[[[[? ?] ?] ?] ?] ?] ?] ?]. simpl. split_and!; auto with fx.
Qed.

Lemma sha256_process_fips st data :
  bytes data →
  map8 (λ x, u32 x) (sha256_process st data) =
    fips_compress fips256 (map8 (λ x, u32 x) st) (words256 data).
Proof.
  intros Hb. unfold sha256_process, fips_compress. fold (words256 data).
  rewrite sha256_steps; [|by apply words256_fits|done|by apply (map8_fits 32)|done].
  apply zip8_u32.
Qed.

(** *** SHA-384 and SHA-512 *)
Lemma SHA384_P_eq W t r x :
  regs_fits 64 r → x = W.[t] → SHA384_P r x constants.[t] = fips_round fips512 W t r.
Proof.
  intros Hr ->. destruct r as [[[[[[[a b] c] d] e] f] g] h].
  destruct Hr as (Ha & Hb & Hc & Hd & He & Hf & Hg & Hh).
  unfold SHA384_P, fips_round, SHA384_S2, SHA384_S3, SHA384_F0, SHA384_F1.
  cbn [sw Sigma0 Sigma1 sK fips512]. rewrite Maj_eq, (Ch_eq 64) by done. done.
Qed.

Lemma SHA384_R_eq n t M :
  t = 16 + Z.of_nat n →
  fips_schedule fips512 n M ++ [SHA384_R (fips_schedule fips512 n M) t] =
    fips_schedule fips512 (S n) M.
Proof.
  intros ->. change (fips_schedule fips512 (S n) M)
    with (fips_extend fips512 (Z.of_nat n) (fips_schedule fips512 n M)).
  unfold fips_extend, SHA384_R, SHA384_S0, SHA384_S1, SHA384_ROTR, SHA384_SHR.
  cbn [sigma0 sigma1 sw fips512]. unfold fips_rotr.
  replace (16 + Z.of_nat n - 2) with (Z.of_nat n + 14) by lia.
  replace (16 + Z.of_nat n - 7) with (Z.of_nat n + 9) by lia.
  replace (16 + Z.of_nat n - 15) with (Z.of_nat n + 1) by lia.
  by replace (16 + Z.of_nat n - 16) with (Z.of_nat n) by lia.
Qed.

(** Eight words at a time. *)
Lemma sha384_extend k i M :
  (2 <= i)%nat →
  for_loop k (λ j W, W ++ [SHA384_R W (Z.of_nat i * 8 + j)]) (fips_schedule fips512 (8 * i - 16) M) =
    fips_schedule fips512 (8 * i - 16 + k) M.
Proof.
  intros Hi. induction k as [|k IH]; cbn [for_loop]; [by rewrite Nat.add_0_r|].
  rewrite IH, SHA384_R_eq by lia. f_equal. lia.
Qed.

Lemma for_loop_add {S} a b (f : Z → S → S) s :
  for_loop (a + b) f s = for_loop b (λ j, f (Z.of_nat a + j)) (for_loop a f s).
Proof.
  induction b as [|b IH]; cbn [for_loop]; [by rewrite Nat.add_0_r|].
  replace (a + Datatypes.S b)%nat with (Datatypes.S (a + b)) by lia. cbn [for_loop].
  by rewrite IH, Nat2Z.inj_add.
Qed.

Lemma sha384_rounds8 i k W r temp :
  regs_fits 64 r → (k <= 8)%nat →
  (∀ j, 0 <= j < 8 → temp.[j] = W.[Z.of_nat i * 8 + j]) →
  for_loop k (λ j r, SHA384_P r temp.[j] constants.[Z.of_nat i * 8 + j]) r =
    for_loop k (λ j, fips_round fips512 W (Z.of_nat (8 * i) + j)) r ∧
  regs_fits 64 (for_loop k (λ j, fips_round fips512 W (Z.of_nat (8 * i) + j)) r).
Proof.
  intros Hr Hk Ht. induction k as [|k IH]; cbn [for_loop]; [done|].
  destruct IH as [-> Hf]; [lia|]. split; [|by apply (fips_round_fits fips512)].
  replace (Z.of_nat (8 * i) + Z.of_nat k) with (Z.of_nat i * 8 + Z.of_nat k) in * by lia.
  apply SHA384_P_eq; [done|]. apply Ht. lia.
Qed.

Lemma sha384_groups n M r :
  length M = 16%nat → regs_fits 64 r → (n <= 10)%nat →
  for_loop n sha384_group (M, r) =
    (fips_schedule fips512 (8 * n - 16) M,
     for_loop (8 * n) (fips_round fips512 (fips_schedule fips512 64 M)) r).
Proof.
  intros Hl Hr. induction n as [|n IH]; intros Hn; [done|]. cbn [for_loop].
  rewrite IH by lia. unfold sha384_group. set (Wf := fips_schedule fips512 64 M).
  pose proof (fips_rounds_fits fips512 Wf (8 * n) r ltac:(done) Hr) as Hrn.
  assert (HW : (if Z.of_nat n <? 2 then fips_schedule fips512 (8 * n - 16) M
    else for_loop 8 (λ j W, W ++ [SHA384_R W (Z.of_nat n * 8 + j)])
           (fips_schedule fips512 (8 * n - 16) M)) = fips_schedule fips512 (8 * S n - 16) M).
  { destruct (Z.ltb_spec (Z.of_nat n) 2); [f_equal; lia|].
    rewrite sha384_extend by lia. f_equal. lia. }
  rewrite HW. f_equal.
  transitivity (for_loop (8 * n + 8) (fips_round fips512 Wf) r); [|f_equal; lia].
  rewrite for_loop_add. apply sha384_rounds8; [done|lia|]. intros j Hj.
  rewrite (rd_map_seqZ (λ j, (fips_schedule fips512 (8 * S n - 16) M).[Z.of_nat n * 8 + j])) by lia.
  symmetry. apply schedule_prefix; unfold zlen; lia.
Qed.

Lemma sha384_process_fips st data :
  regs_fits 64 st → sha384_process st data = fips_compress fips512 st (words512 data).
Proof.
  intros Hst. unfold sha384_process, fips_compress. fold (words512 data).
  by rewrite sha384_groups.
Qed.

Lemma sha384_process_fits st data : regs_fits 64 (sha384_process st data).
Proof.
  unfold sha384_process. destruct (for_loop _ _ _) as [W r].
  destruct st as [[[[[[[? ?] ?] ?] ?] ?] ?] ?], r as [[[[[[[? ?] ?] ?] ?] ?] ?] ?].
  cbn [zip8 regs_fits]. split_and!; auto with fx.
Qed.

(** ** The streaming contexts *)

Lemma sha2_padding_take (lw bs n : nat) :
  (0 < lw < bs)%nat →
  let last := Z.of_nat (n mod bs) in
  take (Z.to_nat (if last <? Z.of_nat bs - Z.of_nat lw
                  then Z.of_nat bs - Z.of_nat lw - last
                  else 2 * Z.of_nat bs - Z.of_nat lw - last)) (0x80 :: replicate (bs - 1) 0) =
    0x80 :: replicate (pad_zeros bs lw n) 0.
Proof.
  intros Hlw. unfold pad_zeros. set (l := (n mod bs)%nat). cbv zeta.
  assert (Hl : (l < bs)%nat) by (apply Nat.mod_upper_bound; lia).
  destruct (Z.ltb_spec (Z.of_nat l) (Z.of_nat bs - Z.of_nat lw)); case_decide; try lia.
  - replace (Z.to_nat (Z.of_nat bs - Z.of_nat lw - Z.of_nat l))
      with (S (bs - lw - l - 1)) by lia.
    rewrite firstn_cons, take_replicate. do 2 f_equal. lia.
  - replace (Z.to_nat (2 * Z.of_nat bs - Z.of_nat lw - Z.of_nat l))
      with (S (2 * bs - lw - l - 1)) by lia.
    rewrite firstn_cons, take_replicate. do 2 f_equal. lia.
Qed.

Section context.
Context (H : BlockHash regs8) (k : Z) (iv : regs8).
Hypothesis Hk : 0 <= k <= 64.
Hypothesis Hbs : Z.of_nat (@block_size _ H) = 2 ^ k.

Definition sha2_repr (m : list Z) (ctx : CRYPT_sha2_context) : Prop :=
  absorbed iv m (sha2_state ctx) (sha2_buffer ctx) ∧ sha2_total_bytes ctx = u64 (zlen m).

Lemma sha2_left (m : list Z) :
  u64 (zlen m) .& (2 ^ k - 1) = Z.of_nat (length m mod block_size).
Proof.
  rewrite land_ones_mod by lia. rewrite Nat2Z.inj_mod, Hbs. unfold zlen.
  replace (2 ^ 64) with (2 ^ k * 2 ^ (64 - k)) by (rewrite <-Z.pow_add_r by lia; f_equal; lia).
  rewrite Z.rem_mul_r, Z.mul_comm, Z.mod_add, Z.mod_mod by lia. done.
Qed.

Lemma sha2_update_repr m ctx data :
  sha2_repr m ctx → sha2_repr (m ++ data) (sha2_update H ctx data).
Proof.
  intros [Ha Ht]. unfold sha2_update.
  case_decide as Hd; [subst; by rewrite app_nil_r|].
  rewrite Ht, Hbs, sha2_left, Nat2Z.id.
  pose proof (absorb_absorbed _ _ _ _ data Ha) as Ha'.
  destruct (absorb _ _ _ data) as [st buf]. split; [done|]. cbn [sha2_total_bytes].
  rewrite Zplus_mod_idemp_l, zlen_app. done.
Qed.

Lemma sha2_updates_repr m ctx chunks :
  sha2_repr m ctx → sha2_repr (m ++ concat chunks) (fold_left (sha2_update H) chunks ctx).
Proof.
  revert m ctx. induction chunks as [|d chunks IH]; intros m ctx Hr; simpl.
  - by rewrite app_nil_r.
  - rewrite app_assoc. by apply IH, sha2_update_repr.
Qed.

(** What [Finish] appends: the marker, zeros, the length field. *)
Definition sha2_padded (lw : nat) (field m : list Z) : list Z :=
  m ++ (0x80 :: replicate (pad_zeros block_size lw (length m)) 0) ++ field.

Lemma sha2_close m ctx pad field lw :
  sha2_repr m ctx → pad = 0x80 :: replicate (pad_zeros block_size lw (length m)) 0 →
  sha2_state (sha2_update H (sha2_update H ctx pad) field) =
    hash_state iv (sha2_padded lw field m).
Proof.
  intros Hr ->. eapply sha2_update_repr in Hr. eapply sha2_update_repr in Hr.
  destruct Hr as [Ha _]. apply absorbed_state in Ha. rewrite Ha.
  unfold sha2_padded. by rewrite <-app_assoc.
Qed.
End context.

(** ** The hash functions of the standard *)
Program Definition fips256_hash : BlockHash regs8 :=
  {| block_size := 64; process st data := fips_compress fips256 st (words256 data) |}.
Next Obligation. lia. Qed.
Program Definition fips512_hash : BlockHash regs8 :=
  {| block_size := 128; process st data := fips_compress fips512 st (words512 data) |}.
Next Obligation. lia. Qed.

Definition sha256_spec (m : list Z) : list Z :=
  sha2_words SHA_PUT_UINT32 (@hash_state _ fips256_hash sha256_iv
    (@sha2_padded fips256_hash 8 (SHA_PUT_UINT64 (u64 (8 * zlen m))) m)).
Definition sha512_spec (iv : regs8) (m : list Z) : list Z :=
  sha2_words SHA_PUT_UINT64 (@hash_state _ fips512_hash iv
    (@sha2_padded fips512_hash 16 (SHA_PUT_UINT64 0 ++ SHA_PUT_UINT64 (u64 (8 * zlen m))) m)).

Opaque sha256_process sha384_process fips_compress.

Lemma sha256_blocks fuel st data :
  bytes data →
  map8 (λ x, u32 x) (@process_blocks _ sha256_hash fuel st data).1 =
    (@process_blocks _ fips256_hash fuel (map8 (λ x, u32 x) st) data).1.
Proof.
  revert st data. induction fuel as [|fuel IH]; intros st data Hb; [done|].
  cbn [process_blocks]. change (@block_size _ sha256_hash) with 64%nat.
  change (@block_size _ fips256_hash) with 64%nat. case_decide; [|done].
  rewrite IH by (by apply Forall_drop). f_equal. f_equal.
  by apply sha256_process_fips, Forall_take.
Qed.

Lemma sha512_blocks fuel st data :
  regs_fits 64 st →
  (@process_blocks _ sha384_hash fuel st data).1 = (@process_blocks _ fips512_hash fuel st data).1.
Proof.
  revert st data. induction fuel as [|fuel IH]; intros st data Hst; [done|].
  cbn [process_blocks]. change (@block_size _ sha384_hash) with 128%nat.
  change (@block_size _ fips512_hash) with 128%nat. case_decide; [|done].
  rewrite IH by apply sha384_process_fits.
  change (@process _ sha384_hash) with sha384_process. by rewrite sha384_process_fips.
Qed.

Lemma put_u32 x : SHA_PUT_UINT32 (u32 x) = SHA_PUT_UINT32 x.
Proof.
  unfold SHA_PUT_UINT32. rewrite !Z.shiftr_div_pow2 by lia.
  replace (u8 (u32 x / 2 ^ 24)) with (u8 (x / 2 ^ 24)) by (Z.div_mod_to_equations; lia).
  replace (u8 (u32 x / 2 ^ 16)) with (u8 (x / 2 ^ 16)) by (Z.div_mod_to_equations; lia).
  replace (u8 (u32 x / 2 ^ 8)) with (u8 (x / 2 ^ 8)) by (Z.div_mod_to_equations; lia).
  by replace (u8 (u32 x)) with (u8 x) by (Z.div_mod_to_equations; lia).
Qed.

Lemma sha2_words_u32 r : sha2_words SHA_PUT_UINT32 (map8 (λ x, u32 x) r) = sha2_words SHA_PUT_UINT32 r.
Proof. destruct r as [[[[[[[? ?] ?] ?] ?] ?] ?] ?]. cbn [map8 sha2_words]. by rewrite !put_u32. Qed.

Lemma bits_u64 n : u64 (8 * u64 n) = u64 (8 * n).
Proof. by rewrite Zmult_mod_idemp_r. Qed.

Lemma sha256_finish m ctx :
  bytes m → sha2_repr sha256_hash sha256_iv m ctx → CRYPT_SHA256Finish ctx = sha256_spec m.
Proof.
  intros Hb Hr. pose proof Hr as [_ Ht]. unfold CRYPT_SHA256Finish, CRYPT_SHA256Update.
  rewrite Ht, bits_u64.
  change 0x3F with (2 ^ 6 - 1). rewrite (sha2_left sha256_hash 6) by (lia || done).
  rewrite (sha2_close sha256_hash 6 sha256_iv ltac:(lia) eq_refl m ctx _ _ 8 Hr
    (sha2_padding_take 8 64 (length m) ltac:(lia))).
  rewrite <-sha2_words_u32. unfold sha256_spec, hash_state. f_equal.
  change (@sha2_padded fips256_hash) with (@sha2_padded sha256_hash).
  change sha256_iv with (map8 (λ x, u32 x) sha256_iv) at 2. apply sha256_blocks.
  unfold sha2_padded. apply Forall_app; split; [done|]. apply Forall_app; split; [|auto with fx].
  constructor; [unfold fits; lia|]. apply Forall_replicate. unfold fits. lia.
Qed.

Lemma sha512_close_spec iv m ctx :
  regs_fits 64 iv → sha2_repr sha384_hash iv m ctx → sha512_close ctx = sha512_spec iv m.
Proof.
  intros Hiv Hr. pose proof Hr as [_ Ht]. unfold sha512_close, CRYPT_SHA384Update.
  rewrite Ht, bits_u64.
  change 0x7F with (2 ^ 7 - 1). rewrite (sha2_left sha384_hash 7) by (lia || done).
  rewrite (sha2_close sha384_hash 7 iv ltac:(lia) eq_refl m ctx _ _ 16 Hr
    (sha2_padding_take 16 128 (length m) ltac:(lia))).
  unfold sha512_spec, hash_state. change (@sha2_padded fips512_hash) with (@sha2_padded sha384_hash).
  by rewrite sha512_blocks.
Qed.

Lemma sha2_start H iv : (block_size <= 128)%nat → sha2_repr H iv [] (Sha2Ctx 0 iv (replicate 128 0)).
Proof. intros Hbs. split; [|done]. apply absorbed_start. cbn [sha2_buffer]. by rewrite length_replicate. Qed.

(** *** The tables

    [frac_root k p w c] says that [c] is the first [w] bits of the fractional
    part of the [k]-th root of [p]. *)
Definition frac_root (k p w c : Z) : bool :=
  existsb (λ i, let x := i * 2 ^ w + c in (x ^ k <=? p * 2 ^ (w * k)) && (p * 2 ^ (w * k) <? (x + 1) ^ k))
    (seqZ 0 24).

Definition primes80 : list Z :=
  [2; 3; 5; 7; 11; 13; 17; 19; 23; 29; 31; 37; 41; 43; 47; 53; 59; 61; 67; 71;
   73; 79; 83; 89; 97; 101; 103; 107; 109; 113; 127; 131; 137; 139; 149; 151;
   157; 163; 167; 173; 179; 181; 191; 193; 197; 199; 211; 223; 227; 229; 233;
   239; 241; 251; 257; 263; 269; 271; 277; 281; 283; 293; 307; 311; 313; 317;
   331; 337; 347; 349; 353; 359; 367; 373; 379; 383; 389; 397; 401; 409].

Definition regs_list (r : regs8) : list Z := sha2_words (λ x, [x]) r.

(** C35: SHA-256: however the message is cut into [CRYPT_SHA256Update] calls, the
    digest is the one FIPS 180-4 defines: the standard's compression function
    (its own message schedule, [Ch] and [Maj], on 32-bit words, whereas the code
    keeps 64-bit words) folded over the blocks of the padded message. *)
Theorem sha256_correct chunks :
  Forall (Forall (fits 8)) chunks →
  CRYPT_SHA256Finish (fold_left CRYPT_SHA256Update chunks CRYPT_SHA256Start) =
    sha256_spec (concat chunks).
Proof.
  intros Hb. apply sha256_finish; [by apply Forall_concat|].
  apply (sha2_updates_repr sha256_hash 6 sha256_iv ltac:(lia) eq_refl []).
  apply sha2_start. cbn. lia.
Qed.

Lemma sha256_correct_witness :
  CRYPT_SHA256Finish (fold_left CRYPT_SHA256Update [[97]; []; [98; 99]] CRYPT_SHA256Start) =
    sha256_spec [97; 98; 99].
Proof. exact (sha256_correct [[97]; []; [98; 99]] ltac:(repeat apply List.Forall_cons; try apply List.Forall_nil; solve_bytes)). Defined.

(** SHA-384 and SHA-512 in the same way, for any cutting of any message. *)
Theorem sha512_correct chunks :
  CRYPT_SHA512Finish (fold_left CRYPT_SHA512Update chunks CRYPT_SHA512Start) =
    sha512_spec sha512_iv (concat chunks) ∧
  CRYPT_SHA384Finish (fold_left CRYPT_SHA384Update chunks CRYPT_SHA384Start) =
    take 48 (sha512_spec sha384_iv (concat chunks)).
Proof.
  split; [unfold CRYPT_SHA512Finish|unfold CRYPT_SHA384Finish; f_equal].
  - apply sha512_close_spec; [repeat split; done|].
    apply (sha2_updates_repr sha384_hash 7 sha512_iv ltac:(lia) eq_refl []).
    apply sha2_start. cbn. lia.
  - apply sha512_close_spec; [repeat split; done|].
    apply (sha2_updates_repr sha384_hash 7 sha384_iv ltac:(lia) eq_refl []).
    apply sha2_start. cbn. lia.
Qed.

Transparent sha256_K constants sha256_process sha384_process fips_compress.

(** The tables are the standard's: the round constants are the first 32 and
    64 bits of the fractional parts of the cube roots of the first primes, the
    initial values those of the square roots of the first sixteen. *)
Theorem sha2_tables :
  forallb (λ pc, frac_root 3 pc.1 64 pc.2) (zip primes80 constants) = true ∧
  forallb (λ pc, frac_root 3 pc.1 32 pc.2) (zip primes80 sha256_K) = true ∧
  forallb (λ pc, frac_root 2 pc.1 32 pc.2) (zip primes80 (regs_list sha256_iv)) = true ∧
  forallb (λ pc, frac_root 2 pc.1 64 pc.2) (zip primes80 (regs_list sha512_iv)) = true ∧
  forallb (λ pc, frac_root 2 pc.1 64 pc.2) (zip (drop 8 primes80) (regs_list sha384_iv)) = true ∧
  length constants = 80%nat ∧ length sha256_K = 64%nat.
Proof. vm_compute. repeat split. Qed.

Example sha256_abc :
  CRYPT_SHA256Generate [97; 98; 99] =
  [0xBA; 0x78; 0x16; 0xBF; 0x8F; 0x01; 0xCF; 0xEA; 0x41; 0x41; 0x40; 0xDE; 0x5D; 0xAE; 0x22; 0x23;
   0xB0; 0x03; 0x61; 0xA3; 0x96; 0x17; 0x7A; 0x9C; 0xB4; 0x10; 0xFF; 0x61; 0xF2; 0x00; 0x15; 0xAD].
Proof. vm_compute. reflexivity. Qed.
