(* ===== verification/Sha1.v ===== *)
(** * SHA-1

    The SHA-1 part of [core/fdrm/fx_crypt_sha.cpp]: [SHATransform] and the
    context, whose [Update] buffers differently from the other hashes: every
    block is copied through [context->block] and [blkused] counts the bytes
    kept. *)
From S2P Require Import Prelude Words BlockHash Sha2.

Definition regs5 : Type := Z * Z * Z * Z * Z.

Record CRYPT_sha1_context := Sha1Ctx {
  sha1_total_bytes : Z;
  sha1_blkused : nat;
  sha1_h : regs5;
  sha1_block : list Z;
}.

Definition SHA_Core_Init : regs5 :=
  (0x67452301, 0xEFCDAB89, 0x98BADCFE, 0x10325476, 0xC3D2E1F0).

Definition rol := rotl32.

(** The loop [for (t = 16; t < 80; t++)] on [w]. *)
Definition sha1_expand (block : list Z) : list Z :=
  for_loop 64 (λ j w, let t := 16 + j in
    w ++ [rol (w.[t - 3] .^ w.[t - 8] .^ w.[t - 14] .^ w.[t - 16]) 1]) block.

(** The body the four loops share, [f] being the word that depends on b, c, d. *)
Definition sha1_step (f : Z → Z → Z → Z) (K : Z) (w : list Z) (t : Z) (r : regs5) : regs5 :=
  let '(a, b, c, d, e) := r in
  let tmp := u32 (rol a 5 + f b c d + e + w.[t] + K) in
  (tmp, a, rol b 30, c, d).

Definition SHATransform (digest : regs5) (block : list Z) : regs5 :=
  let w := sha1_expand block in
  let r := for_loop 20 (λ j, sha1_step (λ b c d, (b .& c) .| (d .& not32 b)) 0x5A827999 w j) digest in
  let r := for_loop 20 (λ j, sha1_step (λ b c d, b .^ c .^ d) 0x6ED9EBA1 w (20 + j)) r in
  let r := for_loop 20 (λ j, sha1_step (λ b c d, (b .& c) .| (b .& d) .| (c .& d)) 0x8F1BBCDC w (40 + j)) r in
  let r := for_loop 20 (λ j, sha1_step (λ b c d, b .^ c .^ d) 0xCA62C1D6 w (60 + j)) r in
  let '(d0, d1, d2, d3, d4) := digest in
  let '(a, b, c, d, e) := r in
  (u32 (d0 + a), u32 (d1 + b), u32 (d2 + c), u32 (d3 + d), u32 (d4 + e)).

(** The sixteen words of [context->block]. *)
Definition wordblock (block : list Z) : list Z :=
  map (λ i, (block.[i * 4] .<< 24) .| (block.[i * 4 + 1] .<< 16) .|
            (block.[i * 4 + 2] .<< 8) .| block.[i * 4 + 3]) (seqZ 0 16).

(** [context->block] is not initialised by the code: it is an argument. *)
Definition CRYPT_SHA1Start (block : list Z) : CRYPT_sha1_context :=
  Sha1Ctx 0 0 SHA_Core_Init block.

(** The loop [while (size >= 64 - blkused)]: the chaining state, the block
    buffer and the bytes left.  [fuel] is at least the number of iterations
    when it exceeds the size of the data. *)
Fixpoint sha1_loop (fuel : nat) (h : regs5) (blkused : nat) (block data : list Z) :
    regs5 * nat * list Z * list Z :=
  match fuel with
  | O => (h, blkused, block, data)
  | S fuel' =>
      if decide (64 - blkused <= length data)%nat then
        let block := splice block blkused (take (64 - blkused) data) in
        sha1_loop fuel' (SHATransform h (wordblock block)) 0 block (drop (64 - blkused) data)
      else (h, blkused, block, data)
  end.

Definition CRYPT_SHA1Update (ctx : CRYPT_sha1_context) (data : list Z) : CRYPT_sha1_context :=
  let '(Sha1Ctx total used h block) := ctx in
  let total := u64 (total + zlen data) in
  if decide (used ≠ 0 ∧ length data < 64 - used)%nat
  then Sha1Ctx total (used + length data) h (splice block used data)
  else
    let '(h, _, block, data) := sha1_loop (S (length data)) h used block data in
    Sha1Ctx total (length data) h (splice block 0 data).

Definition sha1_output (h : regs5) : list Z :=
  let '(a, b, c, d, e) := h in
  flat_map (λ x, [(x .>> 24) .& 0xFF; (x .>> 16) .& 0xFF; (x .>> 8) .& 0xFF; x .& 0xFF])
    [a; b; c; d; e].

Definition CRYPT_SHA1Finish (ctx : CRYPT_sha1_context) : list Z :=
  let total_bits := u64 (8 * sha1_total_bytes ctx) in
  let pad := if decide (56 <= sha1_blkused ctx)%nat then (56 + 64 - sha1_blkused ctx)%nat
             else (56 - sha1_blkused ctx)%nat in
  let ctx := CRYPT_SHA1Update ctx (take pad (0x80 :: replicate (pad - 1) 0)) in
  let c := map (λ k, (total_bits .>> k) .& 0xFF) [56; 48; 40; 32; 24; 16; 8; 0] in
  sha1_output (sha1_h (CRYPT_SHA1Update ctx c)).

Definition CRYPT_SHA1Generate (block data : list Z) : list Z :=
  CRYPT_SHA1Finish (CRYPT_SHA1Update (CRYPT_SHA1Start block) data).

Example sha1_abc :
  CRYPT_SHA1Generate (replicate 64 0xCD) [97; 98; 99] =
  [0xA9; 0x99; 0x3E; 0x36; 0x47; 0x06; 0x81; 0x6A; 0xBA; 0x3E;
   0x25; 0x71; 0x78; 0x50; 0xC2; 0x6C; 0x9C; 0xD0; 0xD8; 0x9D].
Proof. vm_compute. reflexivity. Qed.

(** ** FIPS 180-4, section 6.1 *)
Definition fips1_f (t x y z : Z) : Z :=
  if t <? 20 then fips_Ch 32 x y z
  else if t <? 40 then x .^ y .^ z
  else if t <? 60 then fips_Maj x y z
  else x .^ y .^ z.
Definition fips1_K (t : Z) : Z :=
  if t <? 20 then 0x5A827999 else if t <? 40 then 0x6ED9EBA1
  else if t <? 60 then 0x8F1BBCDC else 0xCA62C1D6.

Definition fips1_round (W : list Z) (t : Z) (r : regs5) : regs5 :=
  let '(a, b, c, d, e) := r in
  let T := u32 (rotl32 a 5 + fips1_f t b c d + e + fips1_K t + W.[t]) in
  (T, a, rotl32 b 30, c, d).

Definition fips1_compress (H : regs5) (M : list Z) : regs5 :=
  let W := for_loop 64 (λ j W,
    W ++ [rotl32 (W.[j + 13] .^ W.[j + 8] .^ W.[j + 2] .^ W.[j]) 1]) M in
  let '(a, b, c, d, e) := for_loop 80 (fips1_round W) H in
  let '(h0, h1, h2, h3, h4) := H in
  (u32 (h0 + a), u32 (h1 + b), u32 (h2 + c), u32 (h3 + d), u32 (h4 + e)).

Definition regs5_fit (r : regs5) : Prop :=
  let '(a, b, c, d, e) := r in fits 32 a ∧ fits 32 b ∧ fits 32 c ∧ fits 32 d ∧ fits 32 e.

Lemma sha1_step_fit f K w t r : regs5_fit r → regs5_fit (sha1_step f K w t r).
Proof.
  destruct r as [[[[a b] c] d] e]. simpl. unfold rol. intros (Ha & Hb & Hc & Hd & He).
  split_and!; auto with fx.
Qed.

Lemma for_loop_ext_inv {S} (I : S → Prop) n (f g : Z → S → S) s :
  I s → (∀ k s', (k < n)%nat → I s' → f (Z.of_nat k) s' = g (Z.of_nat k) s') →
  (∀ k s', I s' → I (g k s')) →
  for_loop n f s = for_loop n g s ∧ I (for_loop n g s).
Proof.
  intros Hs Hfg Hg. induction n as [|n IH]; cbn [for_loop]; [done|].
  destruct IH as [-> HI]; [intros; apply Hfg; [lia|done]|].
  split; [apply Hfg; [lia|done]|]. by apply Hg.
Qed.

(** Twenty steps of the code are twenty rounds of the standard. *)
Lemma sha1_quarter f K W (u v : Z → Z) r :
  (∀ k b c d, (k < 20)%nat → fits 32 b → fits 32 c → fits 32 d →
     u (Z.of_nat k) = v (Z.of_nat k) ∧
     f b c d = fips1_f (v (Z.of_nat k)) b c d ∧ K = fips1_K (v (Z.of_nat k))) →
  regs5_fit r →
  for_loop 20 (λ j, sha1_step f K W (u j)) r = for_loop 20 (λ j, fips1_round W (v j)) r ∧
  regs5_fit (for_loop 20 (λ j, fips1_round W (v j)) r).
Proof.
  intros Hf Hr. apply for_loop_ext_inv; [done| |].
  - intros k [[[[a b] c] d] e] Hk (Ha & Hb & Hc & Hd & He).
    destruct (Hf k b c d Hk Hb Hc Hd) as (E0 & E1 & E2).
    unfold sha1_step, fips1_round, rol. rewrite E0, E1, <-E2.
    match goal with |- (u32 ?x, _, _, _, _) = (u32 ?y, _, _, _, _) => by replace x with y by lia end.
  - intros k [[[[a b] c] d] e] (Ha & Hb & Hc & Hd & He). simpl. split_and!; auto with fx.
Qed.

Lemma sha1_Ch x y z :
  fits 32 x → fits 32 y → fits 32 z → (x .& y) .| (z .& not32 x) = fips_Ch 32 x y z.
Proof.
  intros Hx Hy Hz. unfold fips_Ch. change (2 ^ 32 - 1) with 0xFFFFFFFF.
  fold (not32 x). bitwise32.
Qed.

Lemma sha1_Maj x y z : (x .& y) .| (x .& z) .| (y .& z) = fips_Maj x y z.
Proof.
  unfold fips_Maj. apply Z.bits_inj'. intros i Hi.
  rewrite !Z.lor_spec, !Z.lxor_spec, !Z.land_spec.
  by destruct (Z.testbit x i), (Z.testbit y i), (Z.testbit z i).
Qed.

Lemma sha1_expand_fips M :
  sha1_expand M = for_loop 64 (λ j W,
    W ++ [rotl32 (W.[j + 13] .^ W.[j + 8] .^ W.[j + 2] .^ W.[j]) 1]) M.
Proof.
  unfold sha1_expand. generalize 64%nat as n. induction n as [|n IH]; cbn [for_loop]; [done|].
  rewrite IH. set (W := for_loop n _ M). unfold rol.
  replace (16 + Z.of_nat n - 3) with (Z.of_nat n + 13) by lia.
  replace (16 + Z.of_nat n - 8) with (Z.of_nat n + 8) by lia.
  replace (16 + Z.of_nat n - 14) with (Z.of_nat n + 2) by lia.
  by replace (16 + Z.of_nat n - 16) with (Z.of_nat n) by lia.
Qed.

Ltac sha1_cases :=
  unfold fips1_f, fips1_K; cbv beta;
  repeat match goal with |- context [?a <? ?b] =>
    first [replace (a <? b) with true by lia | replace (a <? b) with false by lia] end;
  split_and!; [lia|reflexivity|reflexivity].

Lemma SHATransform_fips H M : regs5_fit H → SHATransform H M = fips1_compress H M.
Proof.
  intros HH. unfold SHATransform, fips1_compress. rewrite sha1_expand_fips.
  set (W := for_loop 64 _ M).
  change 80%nat with (20 + (20 + (20 + 20)))%nat. rewrite !for_loop_add.
  destruct (sha1_quarter (λ b c d, (b .& c) .| (d .& not32 b)) 0x5A827999 W (λ j, j) (λ j, j) H) as [-> H1];
    [|exact HH|].
  { intros k b c d Hk Hb Hc Hd. rewrite ?sha1_Ch, ?sha1_Maj by done. sha1_cases. }
  edestruct (sha1_quarter (λ b c d, b .^ c .^ d) 0x6ED9EBA1 W (λ j, 20 + j)
    (λ j, Z.of_nat 20 + j)) as [-> H2]; [|exact H1|].
  { intros k b c d Hk Hb Hc Hd. rewrite ?sha1_Ch, ?sha1_Maj by done. sha1_cases. }
  edestruct (sha1_quarter (λ b c d, (b .& c) .| (b .& d) .| (c .& d)) 0x8F1BBCDC W
    (λ j, 40 + j) (λ j, Z.of_nat 20 + (Z.of_nat 20 + j)))
    as [-> H3]; [|exact H2|].
  { intros k b c d Hk Hb Hc Hd. rewrite ?sha1_Ch, ?sha1_Maj by done. sha1_cases. }
  edestruct (sha1_quarter (λ b c d, b .^ c .^ d) 0xCA62C1D6 W (λ j, 60 + j)
    (λ j, Z.of_nat 20 + (Z.of_nat 20 + (Z.of_nat 20 + j)))) as [-> H4]; [|exact H3|].
  { intros k b c d Hk Hb Hc Hd. rewrite ?sha1_Ch, ?sha1_Maj by done. sha1_cases. }
  destruct (for_loop 20 _ _) as [[[[a b] c] d] e]. by destruct H as [[[[h0 h1] h2] h3] h4].
Qed.

Lemma fips1_compress_fit H M : regs5_fit (fips1_compress H M).
Proof.
  unfold fips1_compress. destruct (for_loop 80 _ _) as [[[[a b] c] d] e].
  destruct H as [[[[h0 h1] h2] h3] h4]. cbn [regs5_fit]. split_and!; auto with fx.
Qed.

(** ** The streaming context *)
Program Definition sha1_hash : BlockHash regs5 :=
  {| block_size := 64; process st data := SHATransform st (wordblock data) |}.
Next Obligation. lia. Qed.
Program Definition fips1_hash : BlockHash regs5 :=
  {| block_size := 64; process st data := fips1_compress st (words256 data) |}.
Next Obligation. lia. Qed.

Definition sha1_spec (m : list Z) : list Z :=
  sha1_output (@hash_state _ fips1_hash SHA_Core_Init
    (m ++ (0x80 :: replicate (pad_zeros 64 8 (length m)) 0) ++ SHA_PUT_UINT64 (u64 (8 * zlen m)))).

Opaque SHATransform fips1_compress.

Lemma sha1_words data : wordblock data = words256 data.
Proof.
  unfold wordblock, words256, SHA_GET_UINT32. apply map_ext. intros i.
  by rewrite (Z.mul_comm i 4).
Qed.

Lemma sha1_blocks fuel st data :
  regs5_fit st →
  (@process_blocks _ sha1_hash fuel st data).1 = (@process_blocks _ fips1_hash fuel st data).1.
Proof.
  revert st data. induction fuel as [|fuel IH]; intros st data Hst; [done|].
  cbn [process_blocks]. change (@block_size _ sha1_hash) with 64%nat.
  change (@block_size _ fips1_hash) with 64%nat. case_decide; [|done].
  cbn [process sha1_hash fips1_hash].
  rewrite SHATransform_fips, sha1_words by done. apply IH, fips1_compress_fit.
Qed.

Definition sha1_repr (m : list Z) (ctx : CRYPT_sha1_context) : Prop :=
  @absorbed _ sha1_hash SHA_Core_Init m (sha1_h ctx) (sha1_block ctx) ∧
  sha1_blkused ctx = (length m mod 64)%nat ∧ sha1_total_bytes ctx = u64 (zlen m) ∧
  length (sha1_block ctx) = 64%nat.

(** From an empty buffer the loop runs over the whole blocks of the data. *)
Lemma sha1_loop_blocks full tl fuel h block :
  Forall (λ b, length b = 64%nat) full → (length tl < 64)%nat → (length full < fuel)%nat →
  length block = 64%nat →
  ∃ block', sha1_loop fuel h 0 block (concat full ++ tl) =
    (fold_left (@process _ sha1_hash) full h, 0%nat, block', tl) ∧ length block' = 64%nat.
Proof.
  intros Hf Ht. revert fuel h block. induction Hf as [|b full Hb Hf IH]; intros fuel h block Hn Hbl;
    (destruct fuel as [|fuel]; [simpl in Hn; lia|]); cbn [sha1_loop concat app].
  - rewrite decide_False by lia. by exists block.
  - rewrite Nat.sub_0_r, decide_True by (rewrite !length_app; lia).
    rewrite <-app_assoc, take_app_length', drop_app_length' by done.
    destruct (IH fuel (SHATransform h (wordblock (splice block 0 b))) (splice block 0 b))
      as (block' & -> & Hl); [simpl in Hn; lia|rewrite length_splice; lia|].
    exists block'. split; [|done]. cbn [fold_left process sha1_hash]. do 5 f_equal.
    unfold splice. rewrite drop_ge by lia. rewrite app_nil_r. done.
Qed.

Lemma sha1_mod (full : list (list Z)) (tl : list Z) :
  Forall (λ b, length b = 64%nat) full → (length tl < 64)%nat →
  (length (concat full ++ tl) mod 64)%nat = length tl.
Proof. intros Hf Ht. by apply (@blocks_mod _ sha1_hash). Qed.

Lemma sha1_repr_intro m full tl total h block :
  m = concat full ++ tl → Forall (λ b, length b = 64%nat) full → (length tl < 64)%nat →
  h = fold_left (@process _ sha1_hash) full SHA_Core_Init → take (length tl) block = tl →
  total = u64 (zlen m) → length block = 64%nat →
  sha1_repr m (Sha1Ctx total (length tl) h block).
Proof.
  intros -> Hf Ht Hh Hb Htot Hbl. split_and!; cbn [sha1_h sha1_block sha1_blkused sha1_total_bytes];
    [|by rewrite sha1_mod|done|done].
  exists full, tl. change (@block_size _ sha1_hash) with 64%nat. split_and!; try done; lia.
Qed.

(** An incomplete block is completed first; the loop then runs on whole blocks. *)
Lemma sha1_update_repr m ctx data : sha1_repr m ctx → sha1_repr (m ++ data) (CRYPT_SHA1Update ctx data).
Proof.
  destruct ctx as [total used h block].
  intros ((full & tl & -> & Hf & Ht & Hst & Hb & Hbuf) & Hu & Htot & Hbl).
  cbn [sha1_h sha1_block sha1_blkused sha1_total_bytes] in *.
  change (@block_size _ sha1_hash) with 64%nat in *.
  rewrite (sha1_mod full tl Hf Ht) in Hu. subst used.
  assert (Htotal : u64 (total + zlen data) = u64 (zlen ((concat full ++ tl) ++ data)))
    by (rewrite Htot, Zplus_mod_idemp_l, (zlen_app _ data); done).
  cbn [CRYPT_SHA1Update]. case_decide as Hsmall.
  { destruct Hsmall as [Hnz Hlt]. rewrite <-length_app.
    apply (sha1_repr_intro _ full (tl ++ data)); try done.
    - by rewrite app_assoc.
    - rewrite length_app. lia.
    - rewrite length_app, take_splice by lia. by rewrite Hbuf.
    - rewrite length_splice; lia. }
  destruct (decide (64 - length tl <= length data)%nat) as [Hfill|Hfill].
  - set (fill := (64 - length tl)%nat) in *. set (blk := splice block (length tl) (take fill data)).
    assert (Hlf : length (take fill data) = fill) by (rewrite length_take; lia).
    assert (Hblk : length blk = 64%nat) by (unfold blk; rewrite length_splice; lia).
    assert (Eblk : blk = tl ++ take fill data).
    { unfold blk, splice. rewrite Hbuf, drop_ge by lia. by rewrite app_nil_r. }
    destruct (@split_blocks _ sha1_hash (drop fill data)) as (full' & tl' & E & Hf' & Ht').
    change (@block_size _ sha1_hash) with 64%nat in *.
    assert (Hlen : (length full' < length data)%nat).
    { pose proof (f_equal length E) as EL. rewrite length_app, (@length_blocks _ sha1_hash) in EL by done.
      change (@block_size _ sha1_hash) with 64%nat in EL. rewrite length_drop in EL. lia. }
    cbn [sha1_loop]. fold fill. rewrite decide_True by done. fold blk. rewrite E.
    destruct (sha1_loop_blocks full' tl' (length data) (SHATransform h (wordblock blk)) blk)
      as (block' & -> & Hl'); [done..|].
    apply (sha1_repr_intro _ (full ++ [blk] ++ full') tl'); try done.
    + rewrite !concat_app. cbn [concat]. rewrite app_nil_r, Eblk, <-!app_assoc, <-E.
      by rewrite take_drop.
    + apply Forall_app; split; [done|]. by constructor.
    + rewrite !fold_left_app, Hst. done.
    + change (length tl') with (0 + length tl')%nat. by rewrite take_splice by lia.
    + rewrite length_splice; lia.
  - assert (tl = []) as -> by (destruct tl; [done|exfalso; apply Hsmall; simpl in *; lia]).
    cbn [sha1_loop length]. rewrite decide_False by done.
    apply (sha1_repr_intro _ full data); try done.
    + by rewrite app_nil_r.
    + simpl in Hfill. lia.
    + simpl in Hfill. change (length data) with (0 + length data)%nat. by rewrite take_splice by lia.
    + simpl in Hfill. rewrite length_splice; lia.
Qed.

Lemma sha1_updates_repr m ctx chunks :
  sha1_repr m ctx → sha1_repr (m ++ concat chunks) (fold_left CRYPT_SHA1Update chunks ctx).
Proof.
  revert m ctx. induction chunks as [|d chunks IH]; intros m ctx Hr; simpl.
  - by rewrite app_nil_r.
  - rewrite app_assoc. by apply IH, sha1_update_repr.
Qed.

Lemma sha1_pad_take n :
  let used := (n mod 64)%nat in
  let pad := if decide (56 <= used)%nat then (56 + 64 - used)%nat else (56 - used)%nat in
  take pad (0x80 :: replicate (pad - 1) 0) = 0x80 :: replicate (pad_zeros 64 8 n) 0.
Proof.
  unfold pad_zeros. set (l := (n mod 64)%nat). cbv zeta.
  assert (Hl : (l < 64)%nat) by (apply Nat.mod_upper_bound; lia).
  repeat case_decide; try lia.
  - replace (56 + 64 - l)%nat with (S (2 * 64 - 8 - l - 1)) by lia.
    rewrite firstn_cons, take_replicate. do 2 f_equal. lia.
  - replace (56 - l)%nat with (S (64 - 8 - l - 1)) by lia.
    rewrite firstn_cons, take_replicate. do 2 f_equal. lia.
Qed.

Lemma put_be64_mask n :
  map (λ k, (n .>> k) .& 0xFF) [56; 48; 40; 32; 24; 16; 8; 0] = SHA_PUT_UINT64 n.
Proof.
  cbn [map]. unfold SHA_PUT_UINT64. rewrite Z.shiftr_0_r. change 0xFF with (2 ^ 8 - 1).
  by rewrite !land_ones_mod by lia.
Qed.

Lemma sha1_finish m ctx : sha1_repr m ctx → CRYPT_SHA1Finish ctx = sha1_spec m.
Proof.
  intros Hr. pose proof Hr as (_ & Hu & Ht & _). unfold CRYPT_SHA1Finish.
  rewrite Ht, Hu, bits_u64, put_be64_mask, sha1_pad_take.
  apply (sha1_update_repr _ _ (0x80 :: replicate (pad_zeros 64 8 (length m)) 0)) in Hr.
  apply (sha1_update_repr _ _ (SHA_PUT_UINT64 (u64 (8 * zlen m)))) in Hr.
  destruct Hr as [Ha _]. apply absorbed_state in Ha. rewrite Ha.
  unfold sha1_spec, hash_state. rewrite sha1_blocks by (repeat split; done).
  by rewrite <-app_assoc.
Qed.

Transparent SHATransform fips1_compress.

(** SHA-1: for any cutting of the message into [CRYPT_SHA1Update] calls and
    whatever the uninitialised block buffer holds, the digest is the one
    FIPS 180-4 defines. *)
Theorem sha1_correct block chunks :
  length block = 64%nat →
  CRYPT_SHA1Finish (fold_left CRYPT_SHA1Update chunks (CRYPT_SHA1Start block)) =
    sha1_spec (concat chunks).
Proof.
  intros Hb. apply sha1_finish, (sha1_updates_repr []).
  apply (sha1_repr_intro [] [] [] 0); try done; simpl; lia.
Qed.

Lemma sha1_correct_witness :
  CRYPT_SHA1Finish (fold_left CRYPT_SHA1Update [[97]; []; [98; 99]]
    (CRYPT_SHA1Start (replicate 64 7))) = sha1_spec [97; 98; 99].
Proof. exact (sha1_correct (replicate 64 7) [[97]; []; [98; 99]] eq_refl). Defined.
