(* ===== verification/Aes.v ===== *)
(** * AES-CBC ([core/fdrm/fx_crypt_aes.cpp])

    The table-driven cipher of the revision 5 and 6 security handlers:
    [aes_setup], the round functions [aes_encrypt_nb_4] and [aes_decrypt_nb_4],
    and the CBC loops behind [CRYPT_AESEncrypt] and [CRYPT_AESDecrypt].  A block
    is four 32-bit words, big endian. *)
From S2P Require Import Prelude Words AesTables.

(** [keysched] and [invkeysched] have 120 words, [iv] has 8; the first four
    words of [iv] are used. *)
Record CRYPT_aes_context := AesCtx {
  aes_Nb : Z; aes_Nr : Z;
  keysched : list Z; invkeysched : list Z; aes_iv : list Z
}.
Definition kSchedSize : nat := 120.

Definition mulby2 (x : Z) : Z :=
  ((x .& 0x7F) .<< 1) .^ (if x .& 0x80 =? 0 then 0 else 0x1B).

Definition byte3 (w : Z) : Z := (w .>> 24) .& 0xFF.
Definition byte2 (w : Z) : Z := (w .>> 16) .& 0xFF.
Definition byte1 (w : Z) : Z := (w .>> 8) .& 0xFF.
Definition byte0 (w : Z) : Z := w .& 0xFF.

(** [ADD_ROUND_KEY_4] with [keysched] pointing at word [p]. *)
Definition ADD_ROUND_KEY_4 (ks : list Z) (p : Z) (block : list Z) : list Z :=
  map (λ j, block.[j] .^ ks.[p + j]) [0; 1; 2; 3].

(** [FMAKEWORD(i)] and [LASTWORD(i)]; the tables and the column offsets
    [C1], [C2], [C3] are those of the direction. *)
Definition FMAKEWORD (T0 T1 T2 T3 : list Z) (C1 C2 C3 : Z) (block : list Z) (i : Z) : Z :=
  T0.[byte3 block.[i]] .^ T1.[byte2 block.[(i + C1) mod 4]] .^
  T2.[byte1 block.[(i + C2) mod 4]] .^ T3.[byte0 block.[(i + C3) mod 4]].

Definition LASTWORD (S : list Z) (C1 C2 C3 : Z) (block : list Z) (i : Z) : Z :=
  (S.[byte3 block.[i]] .<< 24) .| (S.[byte2 block.[(i + C1) mod 4]] .<< 16) .|
  (S.[byte1 block.[(i + C2) mod 4]] .<< 8) .| S.[byte0 block.[(i + C3) mod 4]].

Definition enc_round (block : list Z) : list Z :=
  map (FMAKEWORD E0 E1 E2 E3 1 2 3 block) [0; 1; 2; 3].
Definition enc_last (block : list Z) : list Z :=
  map (LASTWORD Sbox 1 2 3 block) [0; 1; 2; 3].
Definition dec_round (block : list Z) : list Z :=
  map (FMAKEWORD D0 D1 D2 D3 (4 - 1) (4 - 2) (4 - 3) block) [0; 1; 2; 3].
Definition dec_last (block : list Z) : list Z :=
  map (LASTWORD Sboxinv (4 - 1) (4 - 2) (4 - 3) block) [0; 1; 2; 3].

(** The shape both directions share: [Nr - 1] rounds, the last round, and the
    last round key. *)
Definition aes_rounds (round last : list Z → list Z) (Nr : Z) (ks block : list Z) :
    list Z :=
  let block := for_loop (Z.to_nat (Nr - 1))
    (λ i b, round (ADD_ROUND_KEY_4 ks (4 * i) b)) block in
  let block := last (ADD_ROUND_KEY_4 ks (4 * (Nr - 1)) block) in
  ADD_ROUND_KEY_4 ks (4 * Nr) block.

Definition aes_encrypt_nb_4 (ctx : CRYPT_aes_context) (block : list Z) : list Z :=
  aes_rounds enc_round enc_last (aes_Nr ctx) (keysched ctx) block.
Definition aes_decrypt_nb_4 (ctx : CRYPT_aes_context) (block : list Z) : list Z :=
  aes_rounds dec_round dec_last (aes_Nr ctx) (invkeysched ctx) block.

(** Four table bytes packed into a word: [temp = S[a] ^ r; temp = (temp << 8) |
    S[b]; ...]. *)
Definition pack_sbox (r a b c d : Z) : Z :=
  let temp := Sbox.[a] .^ r in
  let temp := u32 (temp .<< 8) .| Sbox.[b] in
  let temp := u32 (temp .<< 8) .| Sbox.[c] in
  u32 (temp .<< 8) .| Sbox.[d].

(** One iteration of the first loop of [aes_setup]. *)
Definition setup_word (key : list Z) (Nk i : Z) (s : list Z * Z) : list Z * Z :=
  let '(ks, rconst) := s in
  if i <? Nk then (wr ks i (GET_32BIT_MSB_FIRST key (4 * i)), rconst)
  else
    let temp := ks.[i - 1] in
    let '(temp, rconst) :=
      if i mod Nk =? 0 then
        (pack_sbox rconst (byte2 temp) (byte1 temp) (byte0 temp) (byte3 temp),
         mulby2 rconst)
      else if (i mod Nk =? 4) && (6 <? Nk) then
        (pack_sbox 0 (byte3 temp) (byte2 temp) (byte1 temp) (byte0 temp), rconst)
      else (temp, rconst) in
    (wr ks i (ks.[i - Nk] .^ temp), rconst).

(** The inverse MixColumns of a round key word, by the decryption tables. *)
Definition inv_mix_word (temp : Z) : Z :=
  D0.[Sbox.[byte3 temp]] .^ D1.[Sbox.[byte2 temp]] .^
  D2.[Sbox.[byte1 temp]] .^ D3.[Sbox.[byte0 temp]].

(** The word the second loop stores at [invkeysched[i * 4 + j]]. *)
Definition inv_word (Nr : Z) (ks : list Z) (i j : Z) : Z :=
  let temp := ks.[(Nr - i) * 4 + j] in
  if negb (i =? 0) && negb (i =? Nr) then inv_mix_word temp else temp.

Definition aes_setup (ctx : CRYPT_aes_context) (key : list Z) (keylen : Z) :
    CRYPT_aes_context :=
  let Nk := keylen / 4 in
  let Nb := 4 in
  let Nr := 6 + (if Nk <? Nb then Nb else Nk) in
  let '(ks, _) := for_loop (Z.to_nat ((Nr + 1) * Nb)) (setup_word key Nk)
    (keysched ctx, 1) in
  let inv := for_loop (Z.to_nat (Nr + 1))
    (λ i inv, for_loop 4 (λ j inv, wr inv (i * 4 + j) (inv_word Nr ks i j)) inv)
    (invkeysched ctx) in
  AesCtx Nb Nr ks inv (aes_iv ctx).

Definition CRYPT_AESSetKey := aes_setup.

Definition CRYPT_AESSetIV (ctx : CRYPT_aes_context) (iv : list Z) : CRYPT_aes_context :=
  AesCtx (aes_Nb ctx) (aes_Nr ctx) (keysched ctx) (invkeysched ctx)
    (for_loop (Z.to_nat (aes_Nb ctx))
       (λ i v, wr v i (GET_32BIT_MSB_FIRST iv (4 * i))) (aes_iv ctx)).

Definition read_block (src : list Z) : list Z :=
  map (λ i, GET_32BIT_MSB_FIRST src (4 * i)) [0; 1; 2; 3].
Definition write_block (b : list Z) : list Z :=
  PUT_32BIT_MSB_FIRST b.[0] ++ PUT_32BIT_MSB_FIRST b.[1] ++
  PUT_32BIT_MSB_FIRST b.[2] ++ PUT_32BIT_MSB_FIRST b.[3].
Definition xor_block (a b : list Z) : list Z :=
  map (λ i, a.[i] .^ b.[i]) [0; 1; 2; 3].

(** The CBC loops: [n] is the number of 16-byte blocks, [len / 16].  They return
    the last chaining block and the bytes written to [dest]. *)
Fixpoint aes_encrypt_cbc (ctx : CRYPT_aes_context) (n : nat) (iv src : list Z) :
    list Z * list Z :=
  match n with
  | O => (iv, [])
  | S n' =>
      let iv := aes_encrypt_nb_4 ctx (xor_block iv (read_block src)) in
      let '(iv', dest) := aes_encrypt_cbc ctx n' iv (drop 16 src) in
      (iv', write_block iv ++ dest)
  end.

Fixpoint aes_decrypt_cbc (ctx : CRYPT_aes_context) (n : nat) (iv src : list Z) :
    list Z * list Z :=
  match n with
  | O => (iv, [])
  | S n' =>
      let ct := read_block src in
      let x := aes_decrypt_nb_4 ctx ct in
      let '(iv', dest) := aes_decrypt_cbc ctx n' ct (drop 16 src) in
      (iv', write_block (xor_block iv x) ++ dest)
  end.

(** [memcpy(ctx->iv, iv, sizeof(iv))] replaces the first four words. *)
Definition set_iv4 (ctx : CRYPT_aes_context) (iv : list Z) : CRYPT_aes_context :=
  AesCtx (aes_Nb ctx) (aes_Nr ctx) (keysched ctx) (invkeysched ctx)
    (iv ++ drop 4 (aes_iv ctx)).

Definition CRYPT_AESEncrypt (ctx : CRYPT_aes_context) (src : list Z) :
    CRYPT_aes_context * list Z :=
  let '(iv, dest) := aes_encrypt_cbc ctx (length src / 16) (take 4 (aes_iv ctx)) src in
  (set_iv4 ctx iv, dest).

Definition CRYPT_AESDecrypt (ctx : CRYPT_aes_context) (src : list Z) :
    CRYPT_aes_context * list Z :=
  let '(iv, dest) := aes_decrypt_cbc ctx (length src / 16) (take 4 (aes_iv ctx)) src in
  (set_iv4 ctx iv, dest).

(** FIPS-197, appendix C.1, with a zero chaining block. *)
Definition blank_ctx : CRYPT_aes_context :=
  AesCtx 0 0 (replicate 120 0) (replicate 120 0) (replicate 8 0).
Example aes128_vector :
  snd (CRYPT_AESEncrypt (CRYPT_AESSetKey blank_ctx (seqZ 0 16) 16)
    [0x00; 0x11; 0x22; 0x33; 0x44; 0x55; 0x66; 0x77;
     0x88; 0x99; 0xaa; 0xbb; 0xcc; 0xdd; 0xee; 0xff]) =
  [0x69; 0xc4; 0xe0; 0xd8; 0x6a; 0x7b; 0x04; 0x30;
   0xd8; 0xcd; 0xb7; 0x80; 0x70; 0xb4; 0xc5; 0x5a].
Proof. vm_compute. reflexivity. Qed.

(** ** The tables *)
Lemma table_byte (T : list Z) :
  forallb (λ x, (0 <=? x) && (x <? 256)) T = true → ∀ x, byte T.[x].
Proof.
  intros H x. apply bytes_rd. apply List.Forall_forall. intros y Hy.
  rewrite List.forallb_forall in H. specialize (H y Hy). unfold fits. lia.
Qed.

Lemma table_word (T : list Z) :
  forallb (λ x, (0 <=? x) && (x <? 2 ^ 32)) T = true → ∀ x, fits 32 T.[x].
Proof.
  intros H x. unfold rd. rewrite nth_lookup.
  destruct (T !! Z.to_nat x) as [y|] eqn:E; simpl; [|unfold fits; lia].
  apply list_elem_of_lookup_2, list_elem_of_In in E.
  rewrite List.forallb_forall in H. specialize (H y E). unfold fits. lia.
Qed.

Lemma Sbox_byte x : byte Sbox.[x].
Proof. apply table_byte. vm_compute. reflexivity. Qed.
Lemma Sboxinv_byte x : byte Sboxinv.[x].
Proof. apply table_byte. vm_compute. reflexivity. Qed.
Lemma E0_word x : fits 32 E0.[x].
Proof. apply table_word. vm_compute. reflexivity. Qed.
Lemma E1_word x : fits 32 E1.[x].
Proof. apply table_word. vm_compute. reflexivity. Qed.
Lemma E2_word x : fits 32 E2.[x].
Proof. apply table_word. vm_compute. reflexivity. Qed.
Lemma E3_word x : fits 32 E3.[x].
Proof. apply table_word. vm_compute. reflexivity. Qed.
#[local] Hint Resolve Sbox_byte Sboxinv_byte E0_word E1_word E2_word E3_word : fx.

(** [Sboxinv] undoes [Sbox]. *)
Lemma Sboxinv_Sbox x : byte x → Sboxinv.[Sbox.[x]] = x.
Proof.
  intros Hx. apply Z.eqb_eq.
  apply (forall_byte (λ x, Sboxinv.[Sbox.[x]] =? x)); [vm_compute; reflexivity|done].
Qed.

(** The decryption tables composed with [Sbox] are linear. *)
Lemma D0_linear x y : byte x → byte y →
  D0.[Sbox.[x .^ y]] = D0.[Sbox.[x]] .^ D0.[Sbox.[y]].
Proof. apply (lin8_linear (λ x, D0.[Sbox.[x]])). vm_compute. reflexivity. Qed.
Lemma D1_linear x y : byte x → byte y →
  D1.[Sbox.[x .^ y]] = D1.[Sbox.[x]] .^ D1.[Sbox.[y]].
Proof. apply (lin8_linear (λ x, D1.[Sbox.[x]])). vm_compute. reflexivity. Qed.
Lemma D2_linear x y : byte x → byte y →
  D2.[Sbox.[x .^ y]] = D2.[Sbox.[x]] .^ D2.[Sbox.[y]].
Proof. apply (lin8_linear (λ x, D2.[Sbox.[x]])). vm_compute. reflexivity. Qed.
Lemma D3_linear x y : byte x → byte y →
  D3.[Sbox.[x .^ y]] = D3.[Sbox.[x]] .^ D3.[Sbox.[y]].
Proof. apply (lin8_linear (λ x, D3.[Sbox.[x]])). vm_compute. reflexivity. Qed.

(** InvMixColumns of a column of the encryption tables is the S-box byte. *)
Lemma inv_mix_E (T : list Z) (k : Z) :
  forallb (λ x, inv_mix_word T.[x] =? Sbox.[x] .<< k) (seqZ 0 256) = true →
  ∀ x, byte x → inv_mix_word T.[x] = Sbox.[x] .<< k.
Proof. intros H x Hx. apply Z.eqb_eq. by apply (forall_byte _ H). Qed.

Lemma inv_mix_E0 x : byte x → inv_mix_word E0.[x] = Sbox.[x] .<< 24.
Proof. apply inv_mix_E. vm_compute. reflexivity. Qed.
Lemma inv_mix_E1 x : byte x → inv_mix_word E1.[x] = Sbox.[x] .<< 16.
Proof. apply inv_mix_E. vm_compute. reflexivity. Qed.
Lemma inv_mix_E2 x : byte x → inv_mix_word E2.[x] = Sbox.[x] .<< 8.
Proof. apply inv_mix_E. vm_compute. reflexivity. Qed.
Lemma inv_mix_E3 x : byte x → inv_mix_word E3.[x] = Sbox.[x].
Proof.
  intros Hx. rewrite (inv_mix_E E3 0); [apply Z.shiftl_0_r|vm_compute; reflexivity|done].
Qed.

(** From here on the tables are known by these lemmas only. *)
#[local] Opaque Sbox Sboxinv E0 E1 E2 E3 D0 D1 D2 D3.

(** ** Bytes of a word *)
Lemma land_lxor_distr a b m : (a .^ b) .& m = (a .& m) .^ (b .& m).
Proof.
  apply Z.bits_inj'. intros i Hi. rewrite !Z.land_spec, !Z.lxor_spec, !Z.land_spec.
  by destruct (Z.testbit a i), (Z.testbit b i), (Z.testbit m i).
Qed.

Lemma byte3_lxor a b : byte3 (a .^ b) = byte3 a .^ byte3 b.
Proof. unfold byte3. by rewrite Z.shiftr_lxor, land_lxor_distr. Qed.
Lemma byte2_lxor a b : byte2 (a .^ b) = byte2 a .^ byte2 b.
Proof. unfold byte2. by rewrite Z.shiftr_lxor, land_lxor_distr. Qed.
Lemma byte1_lxor a b : byte1 (a .^ b) = byte1 a .^ byte1 b.
Proof. unfold byte1. by rewrite Z.shiftr_lxor, land_lxor_distr. Qed.
Lemma byte0_lxor a b : byte0 (a .^ b) = byte0 a .^ byte0 b.
Proof. unfold byte0. by rewrite land_lxor_distr. Qed.

Lemma byte3_byte w : byte (byte3 w). Proof. apply mask_byte. Qed.
Lemma byte2_byte w : byte (byte2 w). Proof. apply mask_byte. Qed.
Lemma byte1_byte w : byte (byte1 w). Proof. apply mask_byte. Qed.
Lemma byte0_byte w : byte (byte0 w). Proof. apply mask_byte. Qed.
#[local] Hint Resolve byte3_byte byte2_byte byte1_byte byte0_byte : fx.

(** Four bytes packed big endian, and taken apart. *)
Definition pack (a b c d : Z) : Z := (a .<< 24) .| (b .<< 16) .| (c .<< 8) .| d.

Lemma pack_fits a b c d : byte a → byte b → byte c → byte d → fits 32 (pack a b c d).
Proof. intros. unfold pack. rewrite or4_sum' by done. unfold fits in *. lia. Qed.
#[local] Hint Resolve pack_fits : fx.

Lemma bytes_pack a b c d :
  byte a → byte b → byte c → byte d →
  byte3 (pack a b c d) = a ∧ byte2 (pack a b c d) = b ∧
  byte1 (pack a b c d) = c ∧ byte0 (pack a b c d) = d.
Proof.
  intros. unfold pack, byte3, byte2, byte1, byte0. rewrite or4_sum' by done.
  rewrite !shr_byte by lia. change 0xFF with (2 ^ 8 - 1). rewrite land_ones_mod by lia.
  unfold fits in *. Z.div_mod_to_equations. lia.
Qed.

Lemma pack_bytes w : fits 32 w → pack (byte3 w) (byte2 w) (byte1 w) (byte0 w) = w.
Proof.
  intros Hw. unfold pack. rewrite or4_sum' by auto with fx.
  unfold byte3, byte2, byte1, byte0. rewrite !shr_byte by lia.
  change 0xFF with (2 ^ 8 - 1). rewrite land_ones_mod by lia.
  unfold fits in *. Z.div_mod_to_equations. lia.
Qed.

Lemma pack_lxor a b c d :
  byte a → byte b → byte c → byte d →
  (a .<< 24) .^ (b .<< 16) .^ (c .<< 8) .^ d = pack a b c d.
Proof.
  intros Ha Hb Hc Hd. unfold pack.
  assert (Hx : ∀ x y k, 0 <= k → fits k y → (x .<< k) .^ y = (x .<< k) .| y).
  { intros x y k Hk Hy. apply Z.lxor_lor. apply Z.bits_inj'. intros i Hi.
    rewrite Z.land_spec, Z.shiftl_spec, Z.bits_0 by done.
    apply fits_testbit in Hy as [_ Hy]; [|done].
    destruct (decide (i < k)); [by rewrite (Z.testbit_neg_r x) by lia|].
    by rewrite Hy, andb_false_r by lia. }
  assert (H1 : fits 16 ((c .<< 8) .^ d)).
  { apply fits_lxor; [lia|by apply (fits_shiftl 8 c 8)|by apply (fits_mono 8)]. }
  assert (H2 : fits 24 ((b .<< 16) .^ ((c .<< 8) .^ d))).
  { apply fits_lxor; [lia|by apply (fits_shiftl 8 b 16)|by apply (fits_mono 16)]. }
  rewrite !Z.lxor_assoc, (Hx a _ 24), (Hx b _ 16), (Hx c d 8) by (lia || done).
  by rewrite !Z.lor_assoc.
Qed.

(** InvMixColumns is linear. *)
Lemma inv_mix_lxor a b : inv_mix_word (a .^ b) = inv_mix_word a .^ inv_mix_word b.
Proof.
  unfold inv_mix_word. rewrite byte3_lxor, byte2_lxor, byte1_lxor, byte0_lxor.
  rewrite D0_linear, D1_linear, D2_linear, D3_linear by auto with fx.
  apply Z.bits_inj'. intros i Hi. rewrite !Z.lxor_spec.
  by repeat match goal with |- context [Z.testbit ?x i] => destruct (Z.testbit x i) end.
Qed.

(** ** Rounds: the decryption rounds undo the encryption rounds *)
Definition blk4 (l : list Z) : list Z := [l.[0]; l.[1]; l.[2]; l.[3]].

Lemma enc_last_eq l : enc_last l =
  [pack Sbox.[byte3 l.[0]] Sbox.[byte2 l.[1]] Sbox.[byte1 l.[2]] Sbox.[byte0 l.[3]];
   pack Sbox.[byte3 l.[1]] Sbox.[byte2 l.[2]] Sbox.[byte1 l.[3]] Sbox.[byte0 l.[0]];
   pack Sbox.[byte3 l.[2]] Sbox.[byte2 l.[3]] Sbox.[byte1 l.[0]] Sbox.[byte0 l.[1]];
   pack Sbox.[byte3 l.[3]] Sbox.[byte2 l.[0]] Sbox.[byte1 l.[1]] Sbox.[byte0 l.[2]]].
Proof. reflexivity. Qed.

Lemma enc_round_eq l : enc_round l =
  [E0.[byte3 l.[0]] .^ E1.[byte2 l.[1]] .^ E2.[byte1 l.[2]] .^ E3.[byte0 l.[3]];
   E0.[byte3 l.[1]] .^ E1.[byte2 l.[2]] .^ E2.[byte1 l.[3]] .^ E3.[byte0 l.[0]];
   E0.[byte3 l.[2]] .^ E1.[byte2 l.[3]] .^ E2.[byte1 l.[0]] .^ E3.[byte0 l.[1]];
   E0.[byte3 l.[3]] .^ E1.[byte2 l.[0]] .^ E2.[byte1 l.[1]] .^ E3.[byte0 l.[2]]].
Proof. reflexivity. Qed.

Lemma dec_round_eq a b c d : dec_round [a; b; c; d] =
  [D0.[byte3 a] .^ D1.[byte2 d] .^ D2.[byte1 c] .^ D3.[byte0 b];
   D0.[byte3 b] .^ D1.[byte2 a] .^ D2.[byte1 d] .^ D3.[byte0 c];
   D0.[byte3 c] .^ D1.[byte2 b] .^ D2.[byte1 a] .^ D3.[byte0 d];
   D0.[byte3 d] .^ D1.[byte2 c] .^ D2.[byte1 b] .^ D3.[byte0 a]].
Proof. reflexivity. Qed.

Lemma dec_last_eq a b c d : dec_last [a; b; c; d] =
  [pack Sboxinv.[byte3 a] Sboxinv.[byte2 d] Sboxinv.[byte1 c] Sboxinv.[byte0 b];
   pack Sboxinv.[byte3 b] Sboxinv.[byte2 a] Sboxinv.[byte1 d] Sboxinv.[byte0 c];
   pack Sboxinv.[byte3 c] Sboxinv.[byte2 b] Sboxinv.[byte1 a] Sboxinv.[byte0 d];
   pack Sboxinv.[byte3 d] Sboxinv.[byte2 c] Sboxinv.[byte1 b] Sboxinv.[byte0 a]].
Proof. reflexivity. Qed.

Lemma byte3_pack a b c d : byte a → byte b → byte c → byte d → byte3 (pack a b c d) = a.
Proof. intros. destruct (bytes_pack a b c d) as (?&?&?&?); assumption. Qed.
Lemma byte2_pack a b c d : byte a → byte b → byte c → byte d → byte2 (pack a b c d) = b.
Proof. intros. destruct (bytes_pack a b c d) as (?&?&?&?); assumption. Qed.
Lemma byte1_pack a b c d : byte a → byte b → byte c → byte d → byte1 (pack a b c d) = c.
Proof. intros. destruct (bytes_pack a b c d) as (?&?&?&?); assumption. Qed.
Lemma byte0_pack a b c d : byte a → byte b → byte c → byte d → byte0 (pack a b c d) = d.
Proof. intros. destruct (bytes_pack a b c d) as (?&?&?&?); assumption. Qed.

Lemma dec_round_enc_last l : dec_round (enc_last l) = map inv_mix_word (blk4 l).
Proof.
  rewrite enc_last_eq, dec_round_eq.
  rewrite !byte3_pack, !byte2_pack, !byte1_pack, !byte0_pack by auto with fx.
  reflexivity.
Qed.

Lemma dec_last_enc_last l :
  (∀ j, fits 32 l.[j]) → dec_last (enc_last l) = blk4 l.
Proof.
  intros Hl. rewrite enc_last_eq, dec_last_eq.
  rewrite !byte3_pack, !byte2_pack, !byte1_pack, !byte0_pack by auto with fx.
  rewrite !Sboxinv_Sbox by auto with fx. rewrite !pack_bytes by apply Hl. reflexivity.
Qed.

Lemma inv_mix_enc_round l : map inv_mix_word (enc_round l) = enc_last l.
Proof.
  rewrite enc_round_eq, enc_last_eq. cbn [map].
  rewrite !inv_mix_lxor, !inv_mix_E0, !inv_mix_E1, !inv_mix_E2, !inv_mix_E3
    by auto with fx.
  by rewrite !pack_lxor by auto with fx.
Qed.

Lemma enc_last_fits l : Forall (fits 32) (enc_last l).
Proof. rewrite enc_last_eq. solve_bytes; apply pack_fits; auto with fx. Qed.

Lemma add_key_eq ks p l : ADD_ROUND_KEY_4 ks p l =
  [l.[0] .^ ks.[p + 0]; l.[1] .^ ks.[p + 1]; l.[2] .^ ks.[p + 2]; l.[3] .^ ks.[p + 3]].
Proof. reflexivity. Qed.

(** [inv] is the inverse key schedule of [ks]. *)
Definition inv_keys (Nr : Z) (ks inv : list Z) : Prop :=
  ∀ i j, 0 <= i <= Nr → 0 <= j < 4 → inv.[i * 4 + j] = inv_word Nr ks i j.

Section inverse.
Context (Nr : Z) (ks inv pt : list Z).
Context (HNr : 1 <= Nr) (Hinv : inv_keys Nr ks inv).

Let X (n : nat) := for_loop n (λ i b, enc_round (ADD_ROUND_KEY_4 ks (4 * i) b)) pt.
Let Y (n : nat) := ADD_ROUND_KEY_4 ks (4 * Z.of_nat n) (X n).
Let ct := aes_rounds enc_round enc_last Nr ks pt.
Let W (n : nat) := for_loop n (λ i b, dec_round (ADD_ROUND_KEY_4 inv (4 * i) b)) ct.

(** The [n]-th state of the decryption is the state of the encryption after
    the substitution of round [Nr - 1 - n]. *)
Lemma dec_state n :
  Z.of_nat n <= Nr - 1 →
  ADD_ROUND_KEY_4 inv (4 * Z.of_nat n) (W n) = enc_last (Y (Z.to_nat (Nr - 1) - n)).
Proof.
  induction n as [|n IH]; intros Hn.
  - unfold W. simpl for_loop. unfold ct, aes_rounds. rewrite Nat.sub_0_r.
    fold (X (Z.to_nat (Nr - 1))).
    replace (4 * (Nr - 1)) with (4 * Z.of_nat (Z.to_nat (Nr - 1))) by lia.
    fold (Y (Z.to_nat (Nr - 1))). generalize (Y (Z.to_nat (Nr - 1))). intros y.
    rewrite !add_key_eq. change (4 * Z.of_nat 0) with (0 * 4).
    rewrite (Hinv 0 0), (Hinv 0 1), (Hinv 0 2), (Hinv 0 3) by lia.
    unfold inv_word. simpl negb. cbn [andb]. cbv [rd Z.to_nat nth Pos.to_nat Pos.iter_op Init.Nat.add].
    replace ((Nr - 0) * 4) with (4 * Nr) by lia.
    rewrite !lxor_cancel_r. reflexivity.
  - set (m := (Z.to_nat (Nr - 1) - n)%nat) in *.
    replace (Z.to_nat (Nr - 1) - S n)%nat with (pred m) by lia.
    unfold W. simpl for_loop. fold (W n). rewrite IH by lia.
    rewrite dec_round_enc_last, add_key_eq.
    unfold Y at 1 2 3 4. rewrite add_key_eq. cbn [map blk4].
    assert (Hx : X m = enc_round (Y (pred m))).
    { destruct m as [|m'] eqn:E; [lia|]. reflexivity. }
    pose proof (inv_mix_enc_round (Y (pred m))) as Hmix. rewrite <-Hx in Hmix.
    rewrite Hx, enc_round_eq in Hmix |- *. cbn [map] in Hmix. rewrite <-Hmix. clear Hmix.
    replace (4 * Z.of_nat (S n)) with (Z.of_nat (S n) * 4) by lia.
    rewrite (Hinv (Z.of_nat (S n)) 0), (Hinv (Z.of_nat (S n)) 1),
      (Hinv (Z.of_nat (S n)) 2), (Hinv (Z.of_nat (S n)) 3) by lia.
    unfold inv_word.
    replace (negb (Z.of_nat (S n) =? 0) && negb (Z.of_nat (S n) =? Nr)) with true by lia.
    replace ((Nr - Z.of_nat (S n)) * 4) with (4 * Z.of_nat m) by lia.
    cbv [rd Z.to_nat nth Pos.to_nat Pos.iter_op Init.Nat.add].
    repeat f_equal; rewrite inv_mix_lxor; apply lxor_cancel_r.
Qed.
End inverse.

Lemma length4_blk4 l : length l = 4%nat → blk4 l = l.
Proof. intros H. destruct l as [|a [|b [|c [|d [|]]]]]; simpl in H; try lia. done. Qed.

(** Decryption with the inverse key schedule undoes encryption of a block. *)
Lemma aes_rounds_inverse Nr ks inv pt :
  1 <= Nr → inv_keys Nr ks inv →
  (∀ j, 0 <= j < 4 → fits 32 ks.[j]) → Forall (fits 32) pt → length pt = 4%nat →
  aes_rounds dec_round dec_last Nr inv (aes_rounds enc_round enc_last Nr ks pt) = pt.
Proof.
  intros HNr Hinv Hks Hpt Hlen.
  pose proof (dec_state Nr ks inv pt HNr Hinv (Z.to_nat (Nr - 1)) ltac:(lia)) as H.
  unfold aes_rounds at 1.
  replace (4 * Z.of_nat (Z.to_nat (Nr - 1))) with (4 * (Nr - 1)) in H by lia.
  rewrite H, Nat.sub_diag. cbn [for_loop].
  assert (Hpj : ∀ j, fits 32 pt.[j]).
  { intros j. unfold rd. rewrite nth_lookup.
    destruct (pt !! Z.to_nat j) eqn:E; simpl; [by eapply Forall_lookup_1|unfold fits; lia]. }
  rewrite dec_last_enc_last.
  - rewrite !add_key_eq. replace (4 * Nr) with (Nr * 4) by lia.
    rewrite (Hinv Nr 0), (Hinv Nr 1), (Hinv Nr 2), (Hinv Nr 3) by lia.
    unfold inv_word. rewrite Z.eqb_refl, andb_false_r.
    replace ((Nr - Nr) * 4) with (4 * Z.of_nat 0) by lia.
    transitivity (blk4 pt); [|by apply length4_blk4].
    cbv [blk4 rd Z.to_nat nth Pos.to_nat Pos.iter_op Init.Nat.add].
    rewrite !lxor_cancel_r. done.
  - intros j. rewrite add_key_eq.
    assert (Hall : Forall (fits 32) [pt.[0] .^ ks.[4 * Z.of_nat 0 + 0];
      pt.[1] .^ ks.[4 * Z.of_nat 0 + 1]; pt.[2] .^ ks.[4 * Z.of_nat 0 + 2];
      pt.[3] .^ ks.[4 * Z.of_nat 0 + 3]]).
    { solve_bytes; apply fits_lxor; try lia; try apply Hpj; apply Hks; lia. }
    unfold rd at 1. rewrite nth_lookup. destruct (_ !! _) eqn:E; simpl;
      [by eapply Forall_lookup_1|unfold fits; lia].
Qed.

(** ** The key schedule *)
Lemma words_rd l i : Forall (fits 32) l → fits 32 l.[i].
Proof.
  intros Hl. unfold rd. rewrite nth_lookup.
  destruct (l !! Z.to_nat i) eqn:E; simpl; [by eapply Forall_lookup_1|unfold fits; lia].
Qed.

Lemma words_wr l i x : Forall (fits 32) l → fits 32 x → Forall (fits 32) (wr l i x).
Proof. intros. unfold wr. by apply Forall_insert. Qed.

Lemma shl8_fits w x y : 0 <= w <= 24 → fits w x → byte y → fits (w + 8) (u32 (x .<< 8) .| y).
Proof.
  intros Hw Hx Hy.
  rewrite Z.mod_small.
  - apply fits_lor; [lia| |apply (fits_mono 8); [lia|done]]. by apply fits_shiftl; try lia.
  - apply (fits_mono (w + 8)); [lia|]. by apply fits_shiftl; try lia.
Qed.

Lemma pack_sbox_fits r a b c d : byte r → fits 32 (pack_sbox r a b c d).
Proof.
  intros Hr. unfold pack_sbox.
  apply (shl8_fits 24); [lia| |auto with fx].
  apply (shl8_fits 16); [lia| |auto with fx].
  apply (shl8_fits 8); [lia| |auto with fx]. auto with fx.
Qed.

Lemma mulby2_byte x : byte x → byte (mulby2 x).
Proof.
  intros Hx. unfold mulby2. apply fits_lxor; [lia| |by case_match; unfold fits; lia].
  apply (fits_shiftl 7 _ 1); [lia..|]. change 0x7F with (2 ^ 7 - 1).
  rewrite land_ones_mod by lia. apply fits_mod. lia.
Qed.

Lemma setup_word_fits key Nk i ks rconst :
  bytes key → 0 <= i → 4 * Nk <= zlen key → Forall (fits 32) ks → byte rconst →
  Forall (fits 32) (fst (setup_word key Nk i (ks, rconst))) ∧
  byte (snd (setup_word key Nk i (ks, rconst))) ∧
  length (fst (setup_word key Nk i (ks, rconst))) = length ks.
Proof.
  intros Hkey Hi HNk Hks Hr. unfold setup_word.
  destruct (Z.ltb_spec i Nk).
  - simpl. split_and!; [|done|apply length_wr]. apply words_wr; [done|].
    apply get_be32_fits; [done|lia|lia].
  - repeat case_match; simplify_eq; simpl; split_and!; try apply length_wr;
      try done; try (by apply mulby2_byte); apply words_wr; try done;
      apply fits_lxor; try lia; try (by apply words_rd);
      apply pack_sbox_fits; [done|unfold fits; lia].
Qed.

(** The nested loop that fills [invkeysched]. *)
Lemma inv_loop Nr ks a n :
  4 * Z.of_nat n <= zlen a →
  let a' := for_loop n
    (λ i inv, for_loop 4 (λ j inv, wr inv (i * 4 + j) (inv_word Nr ks i j)) inv) a in
  length a' = length a ∧
  ∀ i j, 0 <= i < Z.of_nat n → 0 <= j < 4 → a'.[i * 4 + j] = inv_word Nr ks i j.
Proof.
  intros Hn. cbv zeta. set (row := λ (i : Z) (inv : list Z), _).
  induction n as [|n IH]; [split; [done|lia]|].
  change (for_loop (S n) row a) with (row (Z.of_nat n) (for_loop n row a)).
  destruct IH as [IH1 IH2]; [lia|]. set (b := for_loop n row a) in *.
  pose proof (fill_loop 4 (Z.of_nat n * 4) (inv_word Nr ks (Z.of_nat n)) b) as Hfill.
  change (row (Z.of_nat n) b) with (for_loop 4
    (λ j inv, wr inv (Z.of_nat n * 4 + j) (inv_word Nr ks (Z.of_nat n) j)) b).
  unfold zlen in *. split.
  - destruct (Hfill 0) as [_ HL]; [lia|rewrite IH1; lia|lia|]. by rewrite HL.
  - intros i j Hi Hj. destruct (Hfill (i * 4 + j)) as [HR _]; [lia|rewrite IH1; lia|lia|].
    rewrite HR. destruct (Z.eq_dec i (Z.of_nat n)) as [->|].
    + replace ((_ <=? _) && _) with true by lia. f_equal. lia.
    + replace ((_ <=? _) && _) with false by lia. apply IH2; lia.
Qed.

(** What [CRYPT_AESSetKey] establishes, whatever the context held. *)
Definition aes_ctx_wf (ctx : CRYPT_aes_context) : Prop :=
  length (keysched ctx) = kSchedSize ∧ length (invkeysched ctx) = kSchedSize ∧
  length (aes_iv ctx) = 8%nat ∧ Forall (fits 32) (keysched ctx) ∧
  Forall (fits 32) (aes_iv ctx).

Definition valid_keylen (n : Z) : Prop := n = 16 ∨ n = 24 ∨ n = 32.

Lemma aes_setup_ok ctx key :
  aes_ctx_wf ctx → valid_keylen (zlen key) → bytes key →
  let ctx' := CRYPT_AESSetKey ctx key (zlen key) in
  aes_Nb ctx' = 4 ∧ 10 <= aes_Nr ctx' <= 14 ∧
  Forall (fits 32) (keysched ctx') ∧
  inv_keys (aes_Nr ctx') (keysched ctx') (invkeysched ctx') ∧
  aes_iv ctx' = aes_iv ctx.
Proof.
  intros (Hl1 & Hl2 & Hl3 & Hks & Hiv) Hlen Hkey. cbv zeta.
  unfold CRYPT_AESSetKey, aes_setup.
  set (Nk := zlen key / 4). set (Nr := 6 + _).
  assert (HN : 10 <= Nr <= 14 ∧ 4 * Nk <= zlen key).
  { unfold Nr, Nk. destruct Hlen as [-> | [-> | ->]]; split_and!; by vm_compute. }
  destruct HN as [HNr HNk].
  pose proof (for_loop_ind
    (λ _ s, Forall (fits 32) (fst s) ∧ byte (snd s)) (Z.to_nat ((Nr + 1) * 4))
    (setup_word key Nk) (keysched ctx, 1)) as Hloop.
  destruct (for_loop (Z.to_nat ((Nr + 1) * 4)) _ _) as [ks rc].
  destruct Hloop as [Hf _]; [split; [done|unfold fits; simpl; lia]| |].
  { intros k [ks' rc'] Hk [H1 H2].
    destruct (setup_word_fits key Nk (Z.of_nat k) ks' rc') as (? & ? & _); try done. lia. }
  destruct (inv_loop Nr ks (invkeysched ctx) (Z.to_nat (Nr + 1))) as [_ Hinv].
  { unfold zlen. rewrite Hl2. unfold kSchedSize. lia. }
  cbn [aes_Nb aes_Nr keysched invkeysched aes_iv fst snd] in *.
  split_and!; try done; try lia. intros i j Hi Hj. apply Hinv; lia.
Qed.

(** ** Blocks of bytes *)
Lemma read_write_block a b c d l :
  fits 32 a → fits 32 b → fits 32 c → fits 32 d →
  read_block (write_block [a; b; c; d] ++ l) = [a; b; c; d].
Proof.
  intros. unfold read_block, write_block. cbn [map].
  change [a; b; c; d].[0] with a. change [a; b; c; d].[1] with b.
  change [a; b; c; d].[2] with c. change [a; b; c; d].[3] with d.
  rewrite <-!app_assoc.
  change (GET_32BIT_MSB_FIRST (PUT_32BIT_MSB_FIRST a ++ ?l) (4 * 1))
    with (GET_32BIT_MSB_FIRST l 0).
  change (GET_32BIT_MSB_FIRST (PUT_32BIT_MSB_FIRST a ++ PUT_32BIT_MSB_FIRST b ++ ?l) (4 * 2))
    with (GET_32BIT_MSB_FIRST l 0).
  change (GET_32BIT_MSB_FIRST (PUT_32BIT_MSB_FIRST a ++ PUT_32BIT_MSB_FIRST b ++
    PUT_32BIT_MSB_FIRST c ++ ?l) (4 * 3)) with (GET_32BIT_MSB_FIRST l 0).
  change (4 * 0) with 0. by rewrite !get_put_be32.
Qed.

Lemma write_read_block src :
  bytes src → (16 <= length src)%nat → write_block (read_block src) = take 16 src.
Proof.
  intros Hb Hl.
  do 16 (destruct src as [|? src]; [simpl in Hl; lia|]).
  repeat match goal with H : bytes (_ :: _) |- _ =>
    apply Forall_cons_1 in H; destruct H end.
  unfold write_block. unfold read_block at 1. cbn [map].
  change ([?a; ?b; ?c; ?d].[0]) with a.
  match goal with |- PUT_32BIT_MSB_FIRST ?w ++ _ = _ =>
    change w with (GET_32BIT_MSB_FIRST
      (z :: z0 :: z1 :: z2 :: z3 :: z4 :: z5 :: z6 :: z7 :: z8 :: z9 :: z10 :: z11 ::
       z12 :: z13 :: z14 :: src) 0) end.
  match goal with |- _ ++ PUT_32BIT_MSB_FIRST ?w ++ _ = _ =>
    change w with (GET_32BIT_MSB_FIRST
      (z3 :: z4 :: z5 :: z6 :: z7 :: z8 :: z9 :: z10 :: z11 :: z12 :: z13 :: z14 :: src) 0)
  end.
  match goal with |- _ ++ _ ++ PUT_32BIT_MSB_FIRST ?w ++ _ = _ =>
    change w with (GET_32BIT_MSB_FIRST
      (z7 :: z8 :: z9 :: z10 :: z11 :: z12 :: z13 :: z14 :: src) 0) end.
  match goal with |- _ ++ _ ++ _ ++ PUT_32BIT_MSB_FIRST ?w = _ =>
    change w with (GET_32BIT_MSB_FIRST (z11 :: z12 :: z13 :: z14 :: src) 0) end.
  by rewrite !put_get_be32.
Qed.

Lemma xor_block_twice a b :
  length b = 4%nat → xor_block a (xor_block a b) = b.
Proof.
  intros Hb. rewrite <-(length4_blk4 b) at 2 by done. unfold xor_block, blk4. cbn [map].
  cbv [rd Z.to_nat nth Pos.to_nat Pos.iter_op Init.Nat.add].
  by rewrite <-!Z.lxor_assoc, !Z.lxor_nilpotent, !Z.lxor_0_l.
Qed.

Lemma xor_block_fits a b :
  Forall (fits 32) a → Forall (fits 32) b → Forall (fits 32) (xor_block a b).
Proof.
  intros. unfold xor_block. cbn [map]. solve_bytes; apply fits_lxor; try lia;
    by apply words_rd.
Qed.

Lemma read_block_fits src :
  bytes src → (16 <= length src)%nat → Forall (fits 32) (read_block src).
Proof.
  intros. unfold read_block. cbn [map].
  solve_bytes; apply get_be32_fits; try done; unfold zlen; lia.
Qed.

Lemma aes_encrypt_fits ctx b :
  Forall (fits 32) (keysched ctx) → Forall (fits 32) (aes_encrypt_nb_4 ctx b).
Proof.
  intros Hks. unfold aes_encrypt_nb_4, aes_rounds. rewrite add_key_eq.
  solve_bytes; apply fits_lxor; try lia; try (by apply words_rd);
    apply words_rd, enc_last_fits.
Qed.

(** ** CBC *)
Lemma length_write_block b : length (write_block b) = 16%nat.
Proof. reflexivity. Qed.

Lemma write_block_bytes b : bytes (write_block b).
Proof. unfold write_block. rewrite !Forall_app. auto with fx. Qed.

Section cbc.
Context (ctx : CRYPT_aes_context).
Context (Hks : Forall (fits 32) (keysched ctx)) (HNr : 1 <= aes_Nr ctx).
Context (Hinv : inv_keys (aes_Nr ctx) (keysched ctx) (invkeysched ctx)).

Lemma aes_block_inverse b :
  Forall (fits 32) b → length b = 4%nat →
  aes_decrypt_nb_4 ctx (aes_encrypt_nb_4 ctx b) = b.
Proof.
  intros Hb Hl. unfold aes_decrypt_nb_4, aes_encrypt_nb_4.
  apply aes_rounds_inverse; try done. intros. by apply words_rd.
Qed.

Lemma cbc_inverse n iv src :
  Forall (fits 32) iv → bytes src → length src = (16 * n)%nat →
  aes_decrypt_cbc ctx n iv (snd (aes_encrypt_cbc ctx n iv src)) =
    (fst (aes_encrypt_cbc ctx n iv src), src).
Proof.
  revert iv src. induction n as [|n IH]; intros iv src Hiv Hsrc Hlen.
  - destruct src; [done|simpl in Hlen; lia].
  - cbn [aes_encrypt_cbc].
    set (v := aes_encrypt_nb_4 ctx (xor_block iv (read_block src))).
    assert (Hv : Forall (fits 32) v) by (apply aes_encrypt_fits; done).
    specialize (IH v (drop 16 src) Hv). destruct (aes_encrypt_cbc ctx n v _) as [iv' dest].
    cbn [fst snd] in *. cbn [aes_decrypt_cbc].
    assert (Hrb : read_block (write_block v ++ dest) = v).
    { unfold v, aes_encrypt_nb_4, aes_rounds in *. rewrite add_key_eq in *.
      repeat match goal with H : Forall _ (_ :: _) |- _ =>
        apply Forall_cons_1 in H; destruct H end.
      by apply read_write_block. }
    rewrite Hrb, (drop_app_length' (write_block v)) by done.
    rewrite IH; [|by apply Forall_drop|rewrite length_drop; lia].
    f_equal. unfold v. rewrite aes_block_inverse.
    + rewrite xor_block_twice by done.
      rewrite write_read_block by (done || lia). apply take_drop.
    + apply xor_block_fits; [done|]. apply read_block_fits; [done|lia].
    + done.
Qed.

Lemma length_encrypt_cbc n iv src :
  length (snd (aes_encrypt_cbc ctx n iv src)) = (16 * n)%nat ∧
  bytes (snd (aes_encrypt_cbc ctx n iv src)).
Proof.
  revert iv src. induction n as [|n IH]; intros iv src; [done|]. cbn [aes_encrypt_cbc].
  set (v := aes_encrypt_nb_4 _ _). destruct (IH v (drop 16 src)) as [H1 H2].
  destruct (aes_encrypt_cbc ctx n v _) as [iv' dest]. cbn [snd] in *.
  rewrite length_app, length_write_block, H1. split; [lia|].
  apply Forall_app; split; [apply write_block_bytes|done].
Qed.
End cbc.

Lemma set_iv_fits ctx iv :
  bytes iv → aes_Nb ctx = 4 → length iv = 16%nat → Forall (fits 32) (aes_iv ctx) →
  Forall (fits 32) (aes_iv (CRYPT_AESSetIV ctx iv)).
Proof.
  intros Hiv HNb Hlen Hc. unfold CRYPT_AESSetIV. cbn [aes_iv]. rewrite HNb.
  apply (for_loop_ind (λ _ v, Forall (fits 32) v)); [done|]. intros k v Hk Hv.
  apply words_wr; [done|]. apply get_be32_fits; [done|lia|unfold zlen; lia].
Qed.

(** ** Properties *)

(** C23: AES-CBC decryption inverts encryption.  For every 128-, 192- or 256-bit
    key, every 16-byte initialisation vector and every buffer of whole blocks,
    [CRYPT_AESDecrypt] of the output of [CRYPT_AESEncrypt] gives the buffer
    back, the cipher text has the length of the plain text, and both calls leave
    the same chaining block in the context, whatever the context held before
    [CRYPT_AESSetKey]. *)
Theorem aes_cbc_roundtrip ctx0 key iv data :
  aes_ctx_wf ctx0 → valid_keylen (zlen key) → bytes key →
  length iv = 16%nat → bytes iv → bytes data → (length data mod 16 = 0)%nat →
  let ctx := CRYPT_AESSetIV (CRYPT_AESSetKey ctx0 key (zlen key)) iv in
  let '(ctx_e, ct) := CRYPT_AESEncrypt ctx data in
  length ct = length data ∧ bytes ct ∧ CRYPT_AESDecrypt ctx ct = (ctx_e, data).
Proof.
  intros Hwf Hlen Hkey Hivl Hiv Hdata Hmod.
  destruct (aes_setup_ok ctx0 key Hwf Hlen Hkey) as (HNb & HNr & Hks & Hinv & Hiv0).
  set (ctx1 := CRYPT_AESSetKey ctx0 key (zlen key)) in *. cbv zeta.
  assert (Hciv : Forall (fits 32) (aes_iv (CRYPT_AESSetIV ctx1 iv))).
  { apply set_iv_fits; try done. rewrite Hiv0. apply Hwf. }
  set (ctx := CRYPT_AESSetIV ctx1 iv) in *.
  set (n := (length data / 16)%nat).
  assert (Hn : length data = (16 * n)%nat) by (pose proof (Nat.div_mod_eq (length data) 16); lia).
  assert (Hiv4 : Forall (fits 32) (take 4 (aes_iv ctx))) by by apply Forall_take.
  unfold CRYPT_AESEncrypt. fold n.
  destruct (length_encrypt_cbc ctx n (take 4 (aes_iv ctx)) data) as [HL HB].
  pose proof (cbc_inverse ctx Hks ltac:(change (aes_Nr ctx) with (aes_Nr ctx1); lia)
    Hinv n (take 4 (aes_iv ctx)) data Hiv4 Hdata Hn) as HR.
  destruct (aes_encrypt_cbc ctx n _ data) as [iv' ct]. cbn [fst snd] in *.
  split_and!; [lia|done|]. unfold CRYPT_AESDecrypt.
  rewrite HL, (Nat.mul_comm 16 n), Nat.div_mul by done. by rewrite HR.
Qed.

Lemma blank_ctx_wf : aes_ctx_wf blank_ctx.
Proof.
  split_and!; try done; apply Forall_replicate; unfold fits; lia.
Qed.

Lemma aes_cbc_roundtrip_witness :
  aes_ctx_wf blank_ctx ∧ valid_keylen (zlen (replicate 32 7)) ∧
  let ctx := CRYPT_AESSetIV (CRYPT_AESSetKey blank_ctx (replicate 32 7)
               (zlen (replicate 32 7))) (replicate 16 9) in
  let '(ctx_e, ct) := CRYPT_AESEncrypt ctx (replicate 16 1) in
  length ct = length (replicate 16 1) ∧ bytes ct ∧
  CRYPT_AESDecrypt ctx ct = (ctx_e, replicate 16 1).
Proof.
  assert (Hb : ∀ n x, fits 8 x → bytes (replicate n x)) by (intros; by apply Forall_replicate).
  assert (Hv : valid_keylen (zlen (replicate 32 7))) by (right; right; reflexivity).
  split; [exact blank_ctx_wf|]. split; [exact Hv|].
  exact (aes_cbc_roundtrip blank_ctx (replicate 32 7) (replicate 16 9) (replicate 16 1)
    blank_ctx_wf Hv (Hb _ 7 ltac:(unfold fits; lia)) eq_refl (Hb _ 9 ltac:(unfold fits; lia))
    (Hb _ 1 ltac:(unfold fits; lia)) eq_refl).
Defined.
