(* ===== verification/CharTypes.v ===== *)
(** * Characters of PDF syntax

    The character classes of [core/fpdfapi/parser/fpdf_parser_utility.cpp] and
    [.h], the digit conversions of [core/fxcrt/fx_extension.h] and [.cpp], and
    the name escape [PDF_NameEncode] / [PDF_NameDecode].  A [ByteString] is a
    list of bytes. *)
From S2P Require Import Prelude.

(** The letters of the table: whitespace, regular, numeric, delimiter. *)
Inductive char_type := W | R | N | D.

#[export] Instance char_type_eq_dec : EqDecision char_type.
Proof. solve_decision. Defined.

Definition PDF_CharType : list char_type :=
  [W; R; R; R; R; R; R; R; R; W; W; R; W; W; R; R;
   R; R; R; R; R; R; R; R; R; R; R; R; R; R; R; R;
   W; R; R; R; R; D; R; R; D; D; R; N; R; N; N; D;
   N; N; N; N; N; N; N; N; N; N; R; R; D; R; D; R;
   R; R; R; R; R; R; R; R; R; R; R; R; R; R; R; R;
   R; R; R; R; R; R; R; R; R; R; R; D; R; D; R; R;
   R; R; R; R; R; R; R; R; R; R; R; R; R; R; R; R;
   R; R; R; R; R; R; R; R; R; R; R; D; R; D; R; R;
   W; R; R; R; R; R; R; R; R; R; R; R; R; R; R; R;
   R; R; R; R; R; R; R; R; R; R; R; R; R; R; R; R;
   R; R; R; R; R; R; R; R; R; R; R; R; R; R; R; R;
   R; R; R; R; R; R; R; R; R; R; R; R; R; R; R; R;
   R; R; R; R; R; R; R; R; R; R; R; R; R; R; R; R;
   R; R; R; R; R; R; R; R; R; R; R; R; R; R; R; R;
   R; R; R; R; R; R; R; R; R; R; R; R; R; R; R; R;
   R; R; R; R; R; R; R; R; R; R; R; R; R; R; R; W].

(** [PDF_CharType[c]]; every byte is in range. *)
Definition char_type_of (c : Z) : char_type := nth (Z.to_nat c) PDF_CharType R.

Definition PDFCharIsWhitespace (c : Z) : bool := bool_decide (char_type_of c = W).
Definition PDFCharIsNumeric (c : Z) : bool := bool_decide (char_type_of c = N).
Definition PDFCharIsDelimiter (c : Z) : bool := bool_decide (char_type_of c = D).
Definition PDFCharIsOther (c : Z) : bool := bool_decide (char_type_of c = R).
Definition PDFCharIsLineEnding (c : Z) : bool := (c =? 13) || (c =? 10).

(** ** Digits *)
Definition FXSYS_IsLowerASCII (c : Z) : bool := (97 <=? c) && (c <=? 122).
Definition FXSYS_ToUpperASCII (c : Z) : Z :=
  if FXSYS_IsLowerASCII c then c + (65 - 97) else c.
Definition FXSYS_IsOctalDigit (c : Z) : bool := (48 <=? c) && (c <=? 55).

(** C's [isdigit] and [isxdigit] in the "C" locale. *)
Definition isdigit (c : Z) : bool := (48 <=? c) && (c <=? 57).
Definition isxdigit (c : Z) : bool :=
  isdigit c || ((65 <=? c) && (c <=? 70)) || ((97 <=? c) && (c <=? 102)).

Definition FXSYS_IsHexDigit (c : Z) : bool :=
  negb (negb (c .& 0x80 =? 0) || negb (isxdigit c)).
Definition FXSYS_HexCharToInt (c : Z) : Z :=
  if negb (FXSYS_IsHexDigit c) then 0
  else
    let upchar := FXSYS_ToUpperASCII c in
    if 57 <? upchar then upchar - 65 + 10 else upchar - 48.

Definition FXSYS_IsDecimalDigit (c : Z) : bool :=
  negb (negb (c .& 0x80 =? 0) || negb (isdigit c)).
Definition FXSYS_DecimalCharToInt (c : Z) : Z :=
  if FXSYS_IsDecimalDigit c then c - 48 else 0.

(** [FXSYS_IntToTwoHexChars(n, buf)]: the two characters written. *)
Definition kHex : list Z :=
  [48; 49; 50; 51; 52; 53; 54; 55; 56; 57; 65; 66; 67; 68; 69; 70].
Definition FXSYS_IntToTwoHexChars (n : Z) : list Z := [kHex.[n / 16]; kHex.[n mod 16]].

(** ** Names *)
Fixpoint PDF_NameDecode (orig : list Z) : list Z :=
  match orig with
  | [] => []
  | ch :: rest =>
      match rest with
      | h :: l :: rest' =>
          if ch =? 35
          then u8 (FXSYS_HexCharToInt h * 16 + FXSYS_HexCharToInt l) ::
                 PDF_NameDecode rest'
          else ch :: PDF_NameDecode rest
      | _ => ch :: PDF_NameDecode rest
      end
  end.

(** The characters [PDF_NameEncode] escapes. *)
Definition name_escaped (ch : Z) : bool :=
  (0x80 <=? ch) || PDFCharIsWhitespace ch || (ch =? 35) || PDFCharIsDelimiter ch.

(** The first loop computes the length of the result, the second the result. *)
Definition name_dest_len (orig : list Z) : Z :=
  fold_left (λ n ch, if name_escaped ch then n + 3 else n + 1) orig 0.
Definition PDF_NameEncode (orig : list Z) : list Z :=
  if name_dest_len orig =? zlen orig then orig
  else flat_map (λ ch, if name_escaped ch
                       then 35 :: FXSYS_IntToTwoHexChars ch else [ch]) orig.

(** ** Facts *)
Lemma hex_chars_back ch :
  byte ch →
  u8 (FXSYS_HexCharToInt kHex.[ch / 16] * 16 + FXSYS_HexCharToInt kHex.[ch mod 16]) = ch.
Proof.
  intros Hc. apply Z.eqb_eq.
  apply (forall_byte (λ ch, u8 (FXSYS_HexCharToInt kHex.[ch / 16] * 16 +
    FXSYS_HexCharToInt kHex.[ch mod 16]) =? ch)); [vm_compute; reflexivity|done].
Qed.

Definition name_escape (orig : list Z) : list Z :=
  flat_map (λ ch, if name_escaped ch
                  then 35 :: FXSYS_IntToTwoHexChars ch else [ch]) orig.

(** When no character is escaped the copy made by the second loop is the
    original, so the early return changes nothing. *)
Lemma name_dest_len_spec orig n :
  fold_left (λ n ch, if name_escaped ch then n + 3 else n + 1) orig n =
    n + zlen (name_escape orig).
Proof.
  revert n. induction orig as [|ch orig IH]; intros n; simpl; [unfold zlen; simpl; lia|].
  rewrite IH. unfold zlen. rewrite length_app. case_match; simpl length; lia.
Qed.

Lemma name_escape_len orig : zlen orig <= zlen (name_escape orig).
Proof.
  unfold zlen. induction orig as [|ch orig IH]; simpl; [lia|].
  rewrite length_app. case_match; simpl length; lia.
Qed.

Lemma PDF_NameEncode_eq orig : PDF_NameEncode orig = name_escape orig.
Proof.
  unfold PDF_NameEncode, name_dest_len. rewrite name_dest_len_spec, Z.add_0_l.
  destruct (Z.eqb_spec (zlen (name_escape orig)) (zlen orig)) as [H|H]; [|done].
  induction orig as [|ch orig IH]; simpl in *; [done|].
  pose proof (name_escape_len orig) as Hle. unfold zlen in *. rewrite length_app in H.
  destruct (name_escaped ch); simpl length in *; [lia|]. simpl. f_equal. apply IH. lia.
Qed.

Lemma name_escape_no_hash orig ch : ch ∈ name_escape orig → bytes orig →
  (* every character of an escaped name is regular or numeric *)
  PDFCharIsWhitespace ch = false ∧ PDFCharIsDelimiter ch = false.
Proof.
  intros Hin Hb. induction Hb as [|x orig Hx Hb IH]; simpl in Hin; [by apply not_elem_of_nil in Hin|].
  apply elem_of_app in Hin as [Hin|Hin]; [|by apply IH].
  assert (Hall : forallb (λ c, negb (PDFCharIsWhitespace c) && negb (PDFCharIsDelimiter c))
    (if name_escaped x then 35 :: FXSYS_IntToTwoHexChars x else [x]) = true).
  { apply (forall_byte (λ x, forallb (λ c, negb (PDFCharIsWhitespace c) &&
      negb (PDFCharIsDelimiter c))
      (if name_escaped x then 35 :: FXSYS_IntToTwoHexChars x else [x])));
      [vm_compute; reflexivity|done]. }
  rewrite List.forallb_forall in Hall. apply list_elem_of_In in Hin.
  specialize (Hall ch Hin). destruct (PDFCharIsWhitespace ch), (PDFCharIsDelimiter ch); done.
Qed.

Lemma name_decode_escape orig : bytes orig → PDF_NameDecode (name_escape orig) = orig.
Proof.
  induction 1 as [|ch orig Hch Hb IH]; simpl; [done|].
  destruct (name_escaped ch) eqn:E; simpl.
  - rewrite hex_chars_back by done. by rewrite IH.
  - assert (Hne : (ch =? 35) = false).
    { unfold name_escaped in E. destruct (ch =? 35); [|done].
      by rewrite orb_true_r in E. }
    rewrite Hne, IH. by destruct (name_escape orig) as [|? [|? ?]].
Qed.

(** Escaping a name and decoding it gives the name back, for every byte
    string, and the escaped form has no whitespace and no delimiter, so that it
    ends where the next token starts. *)
Theorem name_roundtrip orig :
  bytes orig →
  PDF_NameDecode (PDF_NameEncode orig) = orig ∧
  ∀ ch, ch ∈ PDF_NameEncode orig → PDFCharIsWhitespace ch = false ∧ PDFCharIsDelimiter ch = false.
Proof.
  intros Hb. rewrite PDF_NameEncode_eq. split; [by apply name_decode_escape|].
  intros ch Hch. by eapply name_escape_no_hash.
Qed.

Lemma name_roundtrip_witness :
  PDF_NameEncode [65; 35; 32; 200] = [65; 35; 50; 51; 35; 50; 48; 35; 67; 56] ∧
  (PDF_NameDecode (PDF_NameEncode [65; 35; 32; 200]) = [65; 35; 32; 200] ∧
   ∀ ch, ch ∈ PDF_NameEncode [65; 35; 32; 200] →
     PDFCharIsWhitespace ch = false ∧ PDFCharIsDelimiter ch = false).
Proof. split; [reflexivity|]. exact (name_roundtrip [65; 35; 32; 200] ltac:(solve_bytes)). Defined.
