(* ===== verification/Filters.v ===== *)
(** * Stream filters: decoders

    [A85Decode], [HexDecode] and [RunLengthDecode] of
    [core/fpdfapi/parser/fpdf_parser_decode.cpp].  A decoder takes the source
    span and returns the offset it stopped at and the bytes of [*dest_buf];
    [None] is [FX_INVALID_OFFSET]. *)
From S2P Require Import Prelude CharTypes.

(** The characters all three skip: line endings, space, tab. *)
Definition is_blank (ch : Z) : bool := PDFCharIsLineEnding ch || (ch =? 32) || (ch =? 9).

(** ** ASCII85 *)

(** The first loop: how many characters are legal, and how many are 'z'. *)
Fixpoint a85_count (src : list Z) (zcount pos : Z) : Z * Z :=
  match src with
  | [] => (zcount, pos)
  | ch :: rest =>
      if ch =? 122 then a85_count rest (zcount + 1) (pos + 1)
      else if ((ch <? 33) || (117 <? ch)) && negb (is_blank ch) then (zcount, pos)
      else a85_count rest zcount (pos + 1)
  end.

Definition GetA85Result (res i : Z) : Z := u8 (res .>> ((3 - i) * 8)).

Record a85_state := A85St { a85_pos : Z; a85_n : Z; a85_res : Z; a85_out : list Z }.

(** The decoding loop.  [a85_n] is the variable [state] of the code, the number
    of digits read in the current group. *)
Fixpoint a85_loop (src : list Z) (s : a85_state) : a85_state :=
  match src with
  | [] => s
  | ch :: rest =>
      let '(A85St pos n res out) := s in
      let pos := pos + 1 in
      if is_blank ch then a85_loop rest (A85St pos n res out)
      else if ch =? 122 then a85_loop rest (A85St pos 0 0 (out ++ [0; 0; 0; 0]))
      else if (ch <? 33) || (117 <? ch) then A85St pos n res out
      else
        let res := u32 (res * 85 + ch - 33) in
        if n <? 4 then a85_loop rest (A85St pos (n + 1) res out)
        else a85_loop rest
               (A85St pos 0 0 (out ++ map (GetA85Result res) [0; 1; 2; 3]))
  end.

(** The partial group: pad with the digit 84 and keep [state - 1] bytes. *)
Definition a85_partial (n res : Z) : list Z :=
  if n =? 0 then []
  else
    let res := for_loop (Z.to_nat (5 - n)) (λ _ r, u32 (r * 85 + 84)) res in
    map (GetA85Result res) (seqZ 0 (n - 1)).

Definition A85Decode (src : list Z) : option (Z * list Z) :=
  if decide (src = []) then Some (0, [])
  else
    let '(zcount, pos) := a85_count src 0 0 in
    if pos =? 0 then Some (0, [])
    else
      let space_for_non_zeroes := (pos - zcount) / 5 * 4 + 4 in
      if 2 ^ 32 <=? zcount * 4 + space_for_non_zeroes then None
      else
        let '(A85St pos n res out) := a85_loop src (A85St 0 0 0 []) in
        let out := out ++ a85_partial n res in
        Some ((if (pos <? zlen src) && (src.[pos] =? 62) then pos + 1 else pos), out).

(** What the buffer of [A85Decode] is allocated for. *)
Definition a85_alloc (src : list Z) : Z :=
  let '(zcount, pos) := a85_count src 0 0 in zcount * 4 + ((pos - zcount) / 5 * 4 + 4).

(** ** ASCIIHex *)
Record hex_state := HexSt { hex_pos : Z; hex_first : bool; hex_cur : Z; hex_out : list Z }.

(** [hex_cur] is [dest_buf_ptr[*dest_size]] while [bFirst] is false. *)
Fixpoint hex_loop (src : list Z) (s : hex_state) : hex_state :=
  match src with
  | [] => s
  | ch :: rest =>
      let '(HexSt pos bFirst cur out) := s in
      if is_blank ch then hex_loop rest (HexSt (pos + 1) bFirst cur out)
      else if ch =? 62 then HexSt (pos + 1) bFirst cur out
      else if negb (isxdigit ch) then hex_loop rest (HexSt (pos + 1) bFirst cur out)
      else
        let digit := FXSYS_HexCharToInt ch in
        if bFirst then hex_loop rest (HexSt (pos + 1) false (u8 (digit * 16)) out)
        else hex_loop rest (HexSt (pos + 1) true 0 (out ++ [u8 (cur + digit)]))
  end.

Definition HexDecode (src : list Z) : Z * list Z :=
  if decide (src = []) then (0, [])
  else
    let '(HexSt pos bFirst cur out) := hex_loop src (HexSt 0 true 0 []) in
    (pos, if bFirst then out else out ++ [cur]).

(** ** RunLength *)
Definition kMaxStreamSize : Z := 20 * 1024 * 1024.

(** The first pass: [*dest_size], or [None] when it wraps around.  [fuel] counts
    operators; every operator consumes at least one byte of [src]. *)
Fixpoint rl_size (fuel : nat) (src : list Z) (dest_size : Z) : option Z :=
  match fuel, src with
  | S fuel', op :: rest =>
      if op =? 128 then Some dest_size
      else if op <? 128 then
        let new := u32 (dest_size + (op + 1)) in
        if new <? dest_size then None
        else rl_size fuel' (drop (Z.to_nat (op + 1)) rest) new
      else
        let new := u32 (dest_size + (257 - op)) in
        if new <? dest_size then None else rl_size fuel' (drop 1 rest) new
  | _, _ => Some dest_size
  end.

(** The second pass: the bytes and the final offset [i]. *)
Fixpoint rl_copy (fuel : nat) (src : list Z) (i : Z) : Z * list Z :=
  match fuel, src with
  | S fuel', op :: rest =>
      if op =? 128 then (i, [])
      else if op <? 128 then
        let copy := take (Z.to_nat (op + 1)) rest in
        let delta := (Z.to_nat (op + 1) - length copy)%nat in
        let '(i', out) := rl_copy fuel' (drop (Z.to_nat (op + 1)) rest) (i + (op + 2)) in
        (i', copy ++ replicate delta 0 ++ out)
      else
        let fill := match rest with f :: _ => f | [] => 0 end in
        let '(i', out) := rl_copy fuel' (drop 1 rest) (i + 2) in
        (i', replicate (Z.to_nat (257 - op)) fill ++ out)
  | _, _ => (i, [])
  end.

Definition RunLengthDecode (src : list Z) : option (Z * list Z) :=
  match rl_size (length src) src 0 with
  | None => None
  | Some dest_size =>
      if kMaxStreamSize <=? dest_size then None
      else let '(i, out) := rl_copy (length src) src 0 in
           Some (Z.min (i + 1) (zlen src), out)
  end.

(** ** Memory safety

    Every write of a decoder is at the current end of its output, so the bytes
    stay inside the buffer as long as the final length does. *)
Lemma a85_count_bounds src z p :
  z <= (a85_count src z p).1 ∧
  (a85_count src z p).1 - z <= (a85_count src z p).2 - p <= zlen src.
Proof.
  revert z p. induction src as [|ch src IH]; intros z p; simpl; [unfold zlen; simpl; lia|].
  rewrite zlen_cons. pose proof (zlen_nonneg src).
  repeat case_match; simpl.
  - specialize (IH (z + 1) (p + 1)). lia.
  - lia.
  - specialize (IH z (p + 1)). lia.
Qed.

Lemma is_blank_z ch : is_blank ch = true → (ch =? 122) = false.
Proof. unfold is_blank, PDFCharIsLineEnding. lia. Qed.

(** Five digits pay for four bytes, a 'z' for four. *)
Lemma a85_loop_len src pos n res out z p :
  0 <= n <= 4 →
  let s := a85_loop src (A85St pos n res out) in
  let c := a85_count src z p in
  0 <= a85_n s <= 4 ∧
  5 * zlen (a85_out s) + 4 * a85_n s <=
    5 * zlen out + 4 * n + 20 * (c.1 - z) + 4 * ((c.2 - p) - (c.1 - z)) ∧
  a85_pos s <= pos + zlen src.
Proof.
  revert pos n res out z p. induction src as [|ch src IH]; intros pos n res out z p Hn.
  { unfold zlen; simpl; lia. }
  pose proof (a85_count_bounds src z (p + 1)). pose proof (zlen_nonneg src) as Hlen.
  cbn -[Z.mul Z.pow]. rewrite (zlen_cons ch src).
  destruct (is_blank ch) eqn:Eb.
  - rewrite (is_blank_z _ Eb), andb_false_r.
    specialize (IH (pos + 1) n res out z (p + 1) Hn). simpl in IH. lia.
  - rewrite andb_true_r. destruct (ch =? 122) eqn:Ez.
    + specialize (IH (pos + 1) 0 0 (out ++ [0; 0; 0; 0]) (z + 1) (p + 1) ltac:(lia)).
      simpl in IH. rewrite zlen_app in IH. change (zlen [0;0;0;0]) with 4 in IH. lia.
    + destruct ((ch <? 33) || (117 <? ch)) eqn:Eo; [simpl; lia|].
      destruct (n <? 4) eqn:E4.
      * specialize (IH (pos + 1) (n + 1) (u32 (res * 85 + ch - 33)) out z (p + 1) ltac:(lia)).
        cbn -[Z.mul Z.pow] in IH. lia.
      * match goal with |- context [A85St (pos + 1) 0 0 ?o] =>
          specialize (IH (pos + 1) 0 0 o z (p + 1) ltac:(lia)) end.
        cbn -[Z.mul Z.pow] in IH. rewrite zlen_app in IH.
        match type of IH with context [zlen (?a :: ?l)] => change (zlen (a :: l)) with 4 in IH end.
        lia.
Qed.

Lemma a85_loop_pos src pos n res out : pos <= a85_pos (a85_loop src (A85St pos n res out)).
Proof.
  revert pos n res out. induction src as [|ch src IH]; intros; simpl; [lia|].
  repeat case_match; simpl; try lia;
    match goal with |- context [a85_loop src (A85St ?p ?n ?r ?o)] =>
      specialize (IH p n r o); lia end.
Qed.

Lemma zlen_a85_partial n res : 0 <= n → zlen (a85_partial n res) = Z.max 0 (n - 1).
Proof.
  intros Hn. unfold a85_partial. destruct (n =? 0) eqn:E; [unfold zlen; simpl; lia|].
  unfold zlen. rewrite length_map, length_seqZ. lia.
Qed.

Lemma a85_decode_len src off out :
  A85Decode src = Some (off, out) → zlen out <= a85_alloc src ∧ 0 <= off <= zlen src.
Proof.
  unfold A85Decode, a85_alloc. intros H.
  pose proof (a85_count_bounds src 0 0) as HC. pose proof (zlen_nonneg src).
  pose proof (a85_loop_len src 0 0 0 [] 0 0 ltac:(lia)) as HL.
  pose proof (a85_loop_pos src 0 0 0 []) as HP.
  destruct (a85_count src 0 0) as [zc p]. cbn [fst snd] in HL, HC.
  destruct (decide (src = [])) as [->|_].
  { injection H as <- <-. rewrite zlen_nil in *. Z.div_mod_to_equations. lia. }
  destruct (p =? 0).
  { injection H as <- <-. rewrite zlen_nil in *. Z.div_mod_to_equations. lia. }
  destruct (2 ^ 32 <=? _); [done|].
  destruct (a85_loop _ _) as [pos n res o]. simpl in HL, HP.
  injection H as <- <-. rewrite zlen_app, zlen_a85_partial by lia.
  destruct HL as (Hn & HL & Hpos). rewrite ?(@zlen_nil Z) in HL. split.
  - Z.div_mod_to_equations. lia.
  - destruct (Z.ltb_spec pos (zlen src)); cbn [andb]; [case_match|]; lia.
Qed.

(** [HexDecode] allocates [i / 2 + 1] bytes, [i] being the offset of the first
    '>'. *)
Fixpoint hex_find_end (src : list Z) : Z :=
  match src with
  | [] => 0
  | ch :: rest => if ch =? 62 then 0 else 1 + hex_find_end rest
  end.
Definition hex_alloc (src : list Z) : Z := hex_find_end src / 2 + 1.

Lemma hex_find_end_nonneg src : 0 <= hex_find_end src.
Proof. induction src; simpl; [lia|]. case_match; lia. Qed.

Lemma hex_loop_len src pos first cur out :
  let s := hex_loop src (HexSt pos first cur out) in
  2 * zlen (hex_out s) + (if hex_first s then 0 else 1) <=
    2 * zlen out + (if first then 0 else 1) + hex_find_end src.
Proof.
  revert pos first cur out. induction src as [|ch src IH]; intros pos first cur out; simpl; [lia|].
  pose proof (hex_find_end_nonneg src) as Hn.
  destruct (is_blank ch) eqn:Eb.
  - replace (ch =? 62) with false by (unfold is_blank, PDFCharIsLineEnding in Eb; lia).
    specialize (IH (pos + 1) first cur out). simpl in IH. lia.
  - destruct (ch =? 62) eqn:E; [simpl; lia|].
    destruct (isxdigit ch); simpl.
    + destruct first.
      * specialize (IH (pos + 1) false (u8 (FXSYS_HexCharToInt ch * 16)) out).
        simpl in IH. lia.
      * specialize (IH (pos + 1) true 0 (out ++ [u8 (cur + FXSYS_HexCharToInt ch)])).
        simpl in IH. rewrite zlen_app in IH. change (zlen [u8 (cur + FXSYS_HexCharToInt ch)]) with 1 in IH.
        lia.
    + specialize (IH (pos + 1) first cur out). simpl in IH. lia.
Qed.

Lemma hex_decode_len src : src ≠ [] → zlen (HexDecode src).2 <= hex_alloc src.
Proof.
  intros Hne. unfold HexDecode, hex_alloc. rewrite decide_False by done.
  pose proof (hex_loop_len src 0 true 0 []) as HL.
  destruct (hex_loop _ _) as [pos fst cur out]. simpl in HL |- *.
  rewrite ?(@zlen_nil Z) in HL.
  destruct fst; [|rewrite zlen_app; change (zlen [cur]) with 1];
    Z.div_mod_to_equations; lia.
Qed.

(** The two passes of [RunLengthDecode] agree on the length as long as the
    first does not wrap around; a wrap is reported as an error. *)
Lemma rl_copy_len fuel src i d d' :
  bytes src → 0 <= d < 2 ^ 32 → rl_size fuel src d = Some d' →
  d' = d + zlen (rl_copy fuel src i).2.
Proof.
  intros Hb. revert src i d Hb.
  induction fuel as [|fuel IH]; intros src i d Hb Hd H; simpl in *.
  { injection H as <-. rewrite ?(@zlen_nil Z). lia. }
  destruct src as [|op rest]; [injection H as <-; cbn [snd]; rewrite (@zlen_nil Z); lia|].
  inversion Hb as [|? ? Hop Hrest]; subst. unfold fits in Hop.
  destruct (op =? 128) eqn:E1; [injection H as <-; cbn [snd]; rewrite (@zlen_nil Z); lia|].
  destruct (op <? 128) eqn:E2.
  - destruct (u32 (d + (op + 1)) <? d) eqn:E3; [done|].
    assert (u32 (d + (op + 1)) = d + (op + 1)) as Eq.
    { destruct (Z_lt_dec (d + (op + 1)) (2 ^ 32)) as [?|Hge]; [apply Z.mod_small; lia|].
      exfalso. revert E3. Z.div_mod_to_equations. lia. }
    rewrite Eq in H.
    assert (d + (op + 1) < 2 ^ 32) by (rewrite <-Eq; apply Z.mod_pos_bound; lia).
    specialize (IH (drop (Z.to_nat (op + 1)) rest) (i + (op + 2)) (d + (op + 1))
      (Forall_drop _ _ _ Hrest) ltac:(lia) H).
    destruct (rl_copy fuel _ _) as [i' out]. cbn [snd] in *.
    unfold zlen in *. rewrite !length_app, length_replicate, length_take. lia.
  - destruct (u32 (d + (257 - op)) <? d) eqn:E3; [done|].
    assert (u32 (d + (257 - op)) = d + (257 - op)) as Eq.
    { destruct (Z_lt_dec (d + (257 - op)) (2 ^ 32)) as [?|Hge]; [apply Z.mod_small; lia|].
      exfalso. revert E3. Z.div_mod_to_equations. lia. }
    rewrite Eq in H.
    assert (d + (257 - op) < 2 ^ 32) by (rewrite <-Eq; apply Z.mod_pos_bound; lia).
    specialize (IH (drop 1 rest) (i + 2) (d + (257 - op))
      (Forall_drop _ _ _ Hrest) ltac:(lia) H).
    destruct (rl_copy fuel _ _) as [i' out]. cbn [snd] in *.
    unfold zlen in *. rewrite length_app, length_replicate. lia.
Qed.

(** The decoders only move forward, and not beyond the end. *)
Lemma hex_loop_pos src : ∀ s, hex_pos s <= hex_pos (hex_loop src s) <= hex_pos s + zlen src.
Proof.
  induction src as [|ch src IH]; intros [pos first cur out]; cbn [hex_loop]; [unfold zlen; cbn; lia|]. rewrite zlen_cons. pose proof (zlen_nonneg src).
  destruct (is_blank ch); [specialize (IH (HexSt (pos + 1) first cur out)); cbn in *; lia|].
  destruct (ch =? 62); [cbn; lia|]. destruct (isxdigit ch); cbn [negb]; [destruct first|].
  - specialize (IH (HexSt (pos + 1) false (u8 (FXSYS_HexCharToInt ch * 16)) out)). cbn in *. lia.
  - specialize (IH (HexSt (pos + 1) true 0 (out ++ [u8 (cur + FXSYS_HexCharToInt ch)]))). cbn in *. lia.
  - specialize (IH (HexSt (pos + 1) first cur out)). cbn in *. lia.
Qed.

Lemma hex_decode_pos src : 0 <= (HexDecode src).1 <= zlen src.
Proof.
  unfold HexDecode. destruct (decide (src = [])) as [->|]; [done|]. pose proof (hex_loop_pos src (HexSt 0 true 0 [])) as H.
  destruct (hex_loop _ _). cbn in *. lia.
Qed.

Lemma rl_copy_pos fuel : ∀ src i, bytes src → i <= (rl_copy fuel src i).1.
Proof.
  induction fuel as [|fuel IH]; intros src i Hb; cbn [rl_copy]; [done|]. destruct src as [|op rest]; [done|]. inversion Hb as [|? ? Hop Hrest]; subst. unfold fits in Hop.
  destruct (op =? 128); [done|]. destruct (op <? 128).
  - specialize (IH (drop (Z.to_nat (op + 1)) rest) (i + (op + 2)) (Forall_drop _ _ _ Hrest)). destruct (rl_copy _ _ _). cbn in *. lia.
  - specialize (IH (drop 1 rest) (i + 2) (Forall_drop _ _ _ Hrest)). destruct (rl_copy _ _ _). cbn in *. lia.
Qed.

(** C30: the decoders never write outside the buffer they allocated, whatever the
    input: the bytes [A85Decode] and [HexDecode] produce fit the estimate made
    by their first loop ([HexDecode] allocates none for an empty source), the
    second pass of [RunLengthDecode] writes exactly the bytes the first pass
    counted, fewer than [kMaxStreamSize], and the offset that each of the three
    returns lies between 0 and the length of the source. *)
Theorem decode_bounds src :
  bytes src →
  (∀ off out, A85Decode src = Some (off, out) →
     zlen out <= a85_alloc src ∧ 0 <= off <= zlen src) ∧
  ((src ≠ [] → zlen (HexDecode src).2 <= hex_alloc src) ∧
   (src = [] → (HexDecode src).2 = []) ∧ 0 <= (HexDecode src).1 <= zlen src) ∧
  (∀ off out, RunLengthDecode src = Some (off, out) →
     rl_size (length src) src 0 = Some (zlen out) ∧ zlen out < kMaxStreamSize ∧
     0 <= off <= zlen src).
Proof.
  intros Hb. split_and!; [apply a85_decode_len|apply hex_decode_len|by intros ->|apply hex_decode_pos|apply hex_decode_pos|].
  intros off out H. unfold RunLengthDecode in H.
  destruct (rl_size (length src) src 0) as [d|] eqn:E; [|done].
  pose proof (rl_copy_len _ src 0 0 d Hb ltac:(lia) E) as Hd. pose proof (rl_copy_pos (length src) src 0 Hb) as Hp. pose proof (zlen_nonneg src).
  destruct (Z.leb_spec kMaxStreamSize d); [done|].
  destruct (rl_copy _ _ _) as [i o]. injection H as <- <-. cbn [fst snd] in *.
  split_and!; [f_equal; lia|lia|lia|lia].
Qed.

Lemma decode_bounds_witness :
  A85Decode [57; 106; 113; 111; 126; 62] = Some (6, [77; 97; 110]) ∧
  (∀ off out, A85Decode [57; 106; 113; 111; 126; 62] = Some (off, out) →
     zlen out <= a85_alloc [57; 106; 113; 111; 126; 62] ∧ 0 <= off <= 6).
Proof.
  split; [reflexivity|].
  exact (proj1 (decode_bounds [57; 106; 113; 111; 126; 62] ltac:(solve_bytes))).
Defined.

(** Hexadecimal digits of a byte string. *)
Lemma hex_digit_facts n :
  0 <= n < 16 → is_blank kHex.[n] = false ∧ (kHex.[n] =? 62) = false ∧
  isxdigit kHex.[n] = true ∧ FXSYS_HexCharToInt kHex.[n] = n.
Proof.
  intros Hn. assert (n ∈ seqZ 0 16) as Hin by (apply elem_of_seqZ; lia).
  vm_compute in Hin. repeat (apply elem_of_cons in Hin as [->|Hin]; [done|]).
  by apply not_elem_of_nil in Hin.
Qed.

Lemma hex_loop_pair ch tl pos out :
  byte ch →
  hex_loop (FXSYS_IntToTwoHexChars ch ++ tl) (HexSt pos true 0 out) =
    hex_loop tl (HexSt (pos + 2) true 0 (out ++ [ch])).
Proof.
  intros Hch. unfold FXSYS_IntToTwoHexChars. cbn [app]. unfold fits in Hch.
  destruct (hex_digit_facts (ch / 16)) as (B1 & E1 & X1 & V1); [Z.div_mod_to_equations; lia|].
  destruct (hex_digit_facts (ch mod 16)) as (B2 & E2 & X2 & V2); [Z.div_mod_to_equations; lia|].
  cbn [hex_loop]. rewrite B1, E1, X1, V1. cbn [negb hex_loop]. rewrite B2, E2, X2, V2.
  cbn [negb]. replace (pos + 1 + 1) with (pos + 2) by lia.
  do 4 f_equal. Z.div_mod_to_equations. lia.
Qed.
