(* ===== verification/BasicModule.v ===== *)
(** * Stream filters: encoders

    [BasicModule::RunLengthEncode] and [BasicModule::A85Encode] of
    [core/fxcodec/basic/basicmodule.cpp]: the bytes written to [*dest_buf], or
    [None] when the function returns false. *)
From S2P Require Import Prelude Words CharTypes Filters.

(** ** RunLength

    [x] is [src_span[run_start]] and [y] is [src_span[run_end]]. *)
Definition at_ (src : list Z) (i : nat) : Z := nth i src 0.

(** [while (x == y && (run_end - run_start < max_len - 1)) y = src[++run_end];]
    At most [max_len] iterations. *)
Fixpoint rle_match (fuel : nat) (src : list Z) (x y : Z) (run_start run_end max_len : nat) :
    Z * nat :=
  match fuel with
  | O => (y, run_end)
  | S fuel' =>
      if (x =? y) && (run_end - run_start <? max_len - 1)%nat
      then rle_match fuel' src x (at_ src (S run_end)) run_start (S run_end) max_len
      else (y, run_end)
  end.

(** The mismatched run: the bytes it writes after [out[0]], and the new
    [x], [y], [run_end]. *)
Fixpoint rle_literal (fuel : nat) (src : list Z) (x y : Z) (run_start run_end max_len : nat) :
    list Z * Z * Z * nat :=
  match fuel with
  | O => ([], x, y, run_end)
  | S fuel' =>
      if negb (x =? y) && (run_end <=? run_start + max_len)%nat then
        let w := x in
        let x := y in
        let run_end := S run_end in
        if (run_end =? length src)%nat then
          if (run_end <=? run_start + max_len)%nat then ([w; x], x, y, S run_end)
          else ([w], x, y, run_end)
        else
          let '(ws, x', y', e') :=
            rle_literal fuel' src x (at_ src run_end) run_start run_end max_len in
          (w :: ws, x', y', e')
      else ([], x, y, run_end)
  end.

(** The main loop and what follows it: the bytes emitted from here on. *)
Fixpoint rle_loop (fuel : nat) (src : list Z) (x y : Z) (run_start run_end : nat) : list Z :=
  match fuel with
  | O => []
  | S fuel' =>
      if (run_end <? length src)%nat then
        let max_len := Nat.min 128 (length src - run_start) in
        let '(y, run_end) := rle_match max_len src x y run_start run_end max_len in
        let '(y, run_end) :=
          if x =? y then
            let run_end := S run_end in
            ((if (run_end <? length src)%nat then at_ src run_end else y), run_end)
          else (y, run_end) in
        if (1 <? run_end - run_start)%nat then
          let n := (run_end - run_start)%nat in
          let run_start := run_end in
          let run_end := S run_end in
          let x' := y in
          let y' := if (run_end <? length src)%nat then at_ src run_end else y in
          u8 (257 - Z.of_nat n) :: x :: rle_loop fuel' src x' y' run_start run_end
        else
          let '(ws, x, y, run_end) :=
            rle_literal (S max_len) src x y run_start run_end max_len in
          u8 (Z.of_nat (run_end - run_start) - 2) :: ws ++
            rle_loop fuel' src x y (run_end - 1) run_end
      else
        (if (run_start <? length src)%nat then [0; x] else []) ++ [128]
  end.

Definition RunLengthEncode (src : list Z) : option (list Z) :=
  match src with
  | [] => None
  | [b] => Some [0; b; 128]
  | x :: y :: _ => Some (rle_loop (S (length src)) src x y 0 1)
  end.

(** [estimated_size], what [dest_buf] is allocated for. *)
Definition rle_alloc (n : Z) : Z := (n + 2) / 3 * 4 + 1.

(** ** ASCII85 *)

(** The five digits of [val], most significant first: the loop
    [out[i] = val % 85 + 33; val = val / 85] from [i = 4] down. *)
Definition a85_digits (val : Z) : list Z :=
  [val / 85 / 85 / 85 / 85 mod 85 + 33; val / 85 / 85 / 85 mod 85 + 33;
   val / 85 / 85 mod 85 + 33; val / 85 mod 85 + 33; val mod 85 + 33].

Definition FXSYS_UINT32_GET_MSBFIRST (p : list Z) : Z :=
  (p.[0] .<< 24) .| (p.[1] .<< 16) .| (p.[2] .<< 8) .| p.[3].

(** The leftover bytes: [val += src[pos] << (8 * (3 - count))]. *)
Definition a85_leftover (src : list Z) : list Z :=
  match src with
  | [] => []
  | _ =>
      let '(val, count) := fold_left
        (λ '(val, count) b, (u32 (val + (b .<< (8 * (3 - count)))), count + 1)) src (0, 0) in
      take (Z.to_nat (count + 1)) (a85_digits val)
  end.

Fixpoint a85_groups (src : list Z) (line_length : Z) : list Z :=
  match src with
  | a :: b :: c :: d :: rest =>
      let val := FXSYS_UINT32_GET_MSBFIRST [a; b; c; d] in
      let w := if val =? 0 then [122] else a85_digits val in
      let line_length := line_length + zlen w in
      if 75 <=? line_length then w ++ [13; 10] ++ a85_groups rest 0
      else w ++ a85_groups rest line_length
  | _ => a85_leftover src ++ [126; 62]
  end.

Definition A85Encode (src : list Z) : option (list Z) :=
  match src with
  | [] => None
  | _ => Some (a85_groups src 0)
  end.

Definition a85_enc_alloc (n : Z) : Z := n / 4 * 5 + 4 + n / 30 + 2.

(** ** ASCII85: the encoder's output is read back by [A85Decode] *)
Section a85_roundtrip.
Implicit Types src out : list Z.

Lemma a85_loop_digit d tl pos n res out :
  0 <= d < 85 →
  a85_loop (d + 33 :: tl) (A85St pos n res out) =
    let res := u32 (res * 85 + d) in
    if n <? 4 then a85_loop tl (A85St (pos + 1) (n + 1) res out)
    else a85_loop tl (A85St (pos + 1) 0 0 (out ++ map (GetA85Result res) [0; 1; 2; 3])).
Proof.
  intros Hd. cbn [a85_loop]. unfold is_blank, PDFCharIsLineEnding.
  replace ((d + 33 =? 13) || (d + 33 =? 10) || (d + 33 =? 32) || (d + 33 =? 9))
    with false by lia.
  replace (d + 33 =? 122) with false by lia.
  replace ((d + 33 <? 33) || (117 <? d + 33)) with false by lia.
  by replace (res * 85 + (d + 33) - 33) with (res * 85 + d) by lia.
Qed.

Ltac a85_digit :=
  rewrite a85_loop_digit by (Z.div_mod_to_equations; lia); cbv zeta;
  match goal with |- context [?x <? 4] =>
    let b := eval vm_compute in (x <? 4) in change (x <? 4) with b end; cbv iota.

(** The four bytes of [val]. *)
Lemma a85_result_bytes a b c d :
  byte a → byte b → byte c → byte d →
  map (GetA85Result (((a * 256 + b) * 256 + c) * 256 + d)) [0; 1; 2; 3] = [a; b; c; d].
Proof.
  unfold fits, GetA85Result. intros. cbn [map].
  rewrite !Z.shiftr_div_pow2 by lia.
  change ((3 - 0) * 8) with 24. change ((3 - 1) * 8) with 16.
  change ((3 - 2) * 8) with 8. change ((3 - 3) * 8) with 0.
  repeat f_equal; Z.div_mod_to_equations; lia.
Qed.

Lemma get_msbfirst a b c d :
  byte a → byte b → byte c → byte d →
  FXSYS_UINT32_GET_MSBFIRST [a; b; c; d] = ((a * 256 + b) * 256 + c) * 256 + d.
Proof.
  intros. unfold FXSYS_UINT32_GET_MSBFIRST.
  change ([a; b; c; d].[0]) with a. change ([a; b; c; d].[1]) with b.
  change ([a; b; c; d].[2]) with c. change ([a; b; c; d].[3]) with d.
  rewrite or4_sum' by done. lia.
Qed.

Lemma a85_horner q : fits 32 q → u32 (q / 85 * 85 + q mod 85) = q.
Proof.
  intros Hq. rewrite (Z.mul_comm (q / 85)), <-Z.div_mod by lia. by apply fits_small.
Qed.

Lemma a85_top q : 0 <= q < 85 → u32 (0 * 85 + q mod 85) = q.
Proof. intros Hq. rewrite (Z.mod_small q 85), Z.mod_small; lia. Qed.

Lemma a85_quot q : fits 32 q → fits 32 (q / 85).
Proof. unfold fits. intros. Z.div_mod_to_equations. lia. Qed.

Lemma a85_group val tl pos out :
  fits 32 val →
  a85_loop (a85_digits val ++ tl) (A85St pos 0 0 out) =
    a85_loop tl (A85St (pos + 5) 0 0 (out ++ map (GetA85Result val) [0; 1; 2; 3])).
Proof.
  intros Hv. unfold a85_digits. cbn [app].
  do 5 a85_digit.
  replace (pos + 1 + 1 + 1 + 1 + 1) with (pos + 5) by lia.
  rewrite a85_top by (unfold fits in *; Z.div_mod_to_equations; lia).
  by rewrite !a85_horner by auto using a85_quot.
Qed.

Lemma a85_pad_loop m r :
  0 <= r → fits 32 (r * 85 ^ Z.of_nat m + 85 ^ Z.of_nat m - 1) →
  for_loop m (λ _ r, u32 (r * 85 + 84)) r = r * 85 ^ Z.of_nat m + 85 ^ Z.of_nat m - 1.
Proof.
  intros Hr. induction m as [|m IH]; intros Hf; simpl for_loop.
  - change (85 ^ Z.of_nat 0) with 1. lia.
  - rewrite Nat2Z.inj_succ, Z.pow_succ_r in * by lia. unfold fits in *.
    assert (0 < 85 ^ Z.of_nat m) by lia.
    rewrite IH by nia. rewrite Z.mod_small by nia. lia.
Qed.

(** Padding the quotient of [val] by [85^m] with [m] digits 84 gives a
    number between [val] and [val + 85^m - 1]. *)
Lemma a85_pad_spec m val :
  fits 32 (val + 85 ^ Z.of_nat m - 1) → 0 <= val →
  ∃ e, 0 <= e < 85 ^ Z.of_nat m ∧
    for_loop m (λ _ r, u32 (r * 85 + 84)) (val / 85 ^ Z.of_nat m) = val + e.
Proof.
  unfold fits. intros Hv H0. assert (0 < 85 ^ Z.of_nat m) by lia.
  pose proof (Z.div_mod val (85 ^ Z.of_nat m) ltac:(lia)) as E.
  pose proof (Z.mod_pos_bound val (85 ^ Z.of_nat m) ltac:(lia)).
  exists (85 ^ Z.of_nat m - 1 - val mod 85 ^ Z.of_nat m). split; [lia|].
  rewrite a85_pad_loop; [lia|apply Z.div_pos; lia|unfold fits; lia].
Qed.

Definition a85_stop (src : list Z) (pos : Z) (out : list Z) (s : a85_state) : Prop :=
  a85_pos s = pos ∧ a85_out s ++ a85_partial (a85_n s) (a85_res s) = out ++ src.

Lemma a85_tilde pos n res out :
  a85_loop [126; 62] (A85St pos n res out) = A85St (pos + 1) n res out.
Proof. reflexivity. Qed.

Lemma a85_result_pad k m val e src :
  (m + k = 4)%nat → (0 < k)%nat → length src = k → bytes src →
  0 <= e < 85 ^ Z.of_nat m →
  map (GetA85Result val) (seqZ 0 (Z.of_nat k)) = src →
  val mod 256 ^ Z.of_nat m = 0 → 0 <= val →
  map (GetA85Result (val + e)) (seqZ 0 (Z.of_nat k)) = src.
Proof.
  intros Hk Hk0 Hl Hb He <- Hmod Hv. apply list_eq. intros i. rewrite !list_lookup_fmap.
  destruct (decide (i < k)%nat) as [Hi|Hi];
    [|rewrite !lookup_seqZ_ge by lia; done].
  rewrite lookup_seqZ_lt by lia. cbn [fmap option_fmap option_map]. f_equal.
  unfold GetA85Result. rewrite !Z.shiftr_div_pow2 by lia.
  f_equal. 
  assert (85 ^ Z.of_nat m <= 256 ^ Z.of_nat m) by (apply Z.pow_le_mono_l; lia).
  set (t := (3 - (0 + Z.of_nat i)) * 8).
  assert (2 ^ t = 256 ^ Z.of_nat m * 2 ^ (t - 8 * Z.of_nat m)) as ->.
  { change 256 with (2 ^ 8). rewrite <-Z.pow_mul_r, <-Z.pow_add_r by lia. f_equal. lia. }
  rewrite <-!Z.div_div by lia. f_equal.
  Z.div_mod_to_equations. nia.
Qed.

Lemma a85_take_stop (k : nat) val pos out src :
  (0 < k < 4)%nat → fits 32 val → val mod 256 ^ Z.of_nat (4 - k) = 0 →
  fits 32 (val + 85 ^ Z.of_nat (4 - k) - 1) →
  bytes src → length src = k → map (GetA85Result val) (seqZ 0 (Z.of_nat k)) = src →
  a85_loop (take (k + 1) (a85_digits val) ++ [126; 62]) (A85St pos 0 0 out) =
    A85St (pos + Z.of_nat (k + 1) + 1) (Z.of_nat (k + 1)) (val / 85 ^ Z.of_nat (4 - k)) out ∧
  a85_partial (Z.of_nat (k + 1)) (val / 85 ^ Z.of_nat (4 - k)) = src.
Proof.
  intros Hk Hv Hmod Hpad Hb Hl Hsrc. split.
  - destruct k as [|[|[|[|k]]]]; [lia| | | |lia]; unfold a85_digits; cbn [take app Nat.add].
    + do 2 a85_digit. rewrite a85_tilde.
      rewrite a85_top by (unfold fits in *; Z.div_mod_to_equations; lia).
      rewrite !a85_horner by auto using a85_quot. rewrite !Z.div_div by lia.
      by replace (pos + 1 + 1 + 1) with (pos + Z.of_nat 2 + 1) by lia.
    + do 3 a85_digit. rewrite a85_tilde.
      rewrite a85_top by (unfold fits in *; Z.div_mod_to_equations; lia).
      rewrite !a85_horner by auto using a85_quot. rewrite !Z.div_div by lia.
      by replace (pos + 1 + 1 + 1 + 1) with (pos + Z.of_nat 3 + 1) by lia.
    + do 4 a85_digit. rewrite a85_tilde.
      rewrite a85_top by (unfold fits in *; Z.div_mod_to_equations; lia).
      rewrite !a85_horner by auto using a85_quot. 
      by replace (pos + 1 + 1 + 1 + 1 + 1) with (pos + Z.of_nat 4 + 1) by lia.
  - unfold a85_partial. replace (Z.of_nat (k + 1) =? 0) with false by lia.
    replace (Z.to_nat (5 - Z.of_nat (k + 1))) with (4 - k)%nat by lia.
    destruct (a85_pad_spec (4 - k) val Hpad ltac:(by eapply fits_nonneg)) as (e & He & ->).
    replace (Z.of_nat (k + 1) - 1) with (Z.of_nat k) by lia.
    apply (a85_result_pad k (4 - k)); try done; try lia. by eapply fits_nonneg.
Qed.

Ltac a85_leftover_side :=
  first
    [ unfold a85_leftover; cbn [fold_left]; cbv beta iota;
      match goal with |- take _ (a85_digits ?x) = take _ (a85_digits ?y) =>
        replace x with y; [done|] end;
      change (8 * (3 - 0)) with 24; change (8 * (3 - (0 + 1))) with 16;
      change (8 * (3 - (0 + 1 + 1))) with 8;
      rewrite !Z.shiftl_mul_pow2 by lia; unfold fits in *;
      repeat match goal with |- context [?x mod 2 ^ 32] =>
        lazymatch x with context [_ mod _] => fail | _ => rewrite (Z.mod_small x) by lia end
      end; lia
    | unfold fits in *; simpl Z.pow in *; Z.div_mod_to_equations; lia ].

(** The digits of an incomplete group are padded back to its bytes. *)
Lemma a85_leftover_stop src pos out :
  bytes src → (length src < 4)%nat →
  a85_stop src (pos + zlen (a85_leftover src) + 1) out
    (a85_loop (a85_leftover src ++ [126; 62]) (A85St pos 0 0 out)).
Proof.
  intros Hb Hlen. unfold a85_stop.
  assert (Hgo : ∀ k val, (0 < k < 4)%nat → length src = k →
    a85_leftover src = take (k + 1) (a85_digits val) → fits 32 val →
    val mod 256 ^ Z.of_nat (4 - k) = 0 → fits 32 (val + 85 ^ Z.of_nat (4 - k) - 1) →
    map (GetA85Result val) (seqZ 0 (Z.of_nat k)) = src →
    a85_pos (a85_loop (a85_leftover src ++ [126; 62]) (A85St pos 0 0 out)) =
      pos + zlen (a85_leftover src) + 1 ∧
    let s := a85_loop (a85_leftover src ++ [126; 62]) (A85St pos 0 0 out) in
    a85_out s ++ a85_partial (a85_n s) (a85_res s) = out ++ src).
  { intros k val Hk Hl -> Hf Hm Hp Hsrc.
    destruct (a85_take_stop k val pos out src) as [-> E]; [done..|].
    cbn [a85_pos a85_out a85_n a85_res]. rewrite E. split; [|done].
    unfold zlen. rewrite length_take. change (length (a85_digits val)) with 5%nat. lia. }
  destruct src as [|a [|b [|c [|? ?]]]]; simpl length in Hlen; [| | | |lia].
  - cbn. rewrite app_nil_r. split; [unfold zlen; simpl; lia|done].
  - inversion Hb as [|? ? Ha _]; subst.
    apply (Hgo 1%nat (((a * 256 + 0) * 256 + 0) * 256 + 0)); try done; try a85_leftover_side.
    exact (f_equal (take 1%nat) (a85_result_bytes a 0 0 0 Ha ltac:(done) ltac:(done) ltac:(done))).
  - inversion Hb as [|? ? Ha Hb']; inversion Hb' as [|? ? Hb0 _]; subst.
    apply (Hgo 2%nat (((a * 256 + b) * 256 + 0) * 256 + 0)); try done; try a85_leftover_side.
    exact (f_equal (take 2%nat) (a85_result_bytes a b 0 0 Ha Hb0 ltac:(done) ltac:(done))).
  - inversion Hb as [|? ? Ha Hb']; inversion Hb' as [|? ? Hb0 Hc']; inversion Hc' as [|? ? Hc _];
      subst.
    apply (Hgo 3%nat (((a * 256 + b) * 256 + c) * 256 + 0)); try done; try a85_leftover_side.
    exact (f_equal (take 3%nat) (a85_result_bytes a b c 0 Ha Hb0 Hc ltac:(done))).
Qed.

Lemma a85_blank_loop ch tl pos n res out :
  is_blank ch = true →
  a85_loop (ch :: tl) (A85St pos n res out) = a85_loop tl (A85St (pos + 1) n res out).
Proof. intros H. cbn [a85_loop]. by rewrite H. Qed.

(** What one iteration over four bytes writes, CR LF excluded. *)
Definition a85_word (a b c d : Z) : list Z :=
  let val := FXSYS_UINT32_GET_MSBFIRST [a; b; c; d] in
  if val =? 0 then [122] else a85_digits val.

Lemma a85_word_dec a b c d tl pos out :
  byte a → byte b → byte c → byte d →
  a85_loop (a85_word a b c d ++ tl) (A85St pos 0 0 out) =
    a85_loop tl (A85St (pos + zlen (a85_word a b c d)) 0 0 (out ++ [a; b; c; d])).
Proof.
  intros Ha Hb Hc Hd. unfold a85_word. rewrite get_msbfirst by done.
  destruct (Z.eqb_spec (((a * 256 + b) * 256 + c) * 256 + d) 0) as [E|E].
  - unfold fits in *. by assert (a = 0 ∧ b = 0 ∧ c = 0 ∧ d = 0) as (-> & -> & -> & ->) by lia.
  - rewrite a85_group by (unfold fits in *; lia).
    by rewrite a85_result_bytes by done.
Qed.

Lemma a85_groups_step a b c d rest ll :
  a85_groups (a :: b :: c :: d :: rest) ll =
    let w := a85_word a b c d in
    if 75 <=? ll + zlen w then w ++ [13; 10] ++ a85_groups rest 0
    else w ++ a85_groups rest (ll + zlen w).
Proof. reflexivity. Qed.

(** Induction four bytes at a time. *)
Lemma ind4 (P : list Z → Prop) :
  (∀ l, (length l < 4)%nat → P l) →
  (∀ a b c d l, P l → P (a :: b :: c :: d :: l)) → ∀ l, P l.
Proof.
  intros Hs Hc l. induction l as [l IH] using (induction_ltof1 _ length); unfold ltof in IH.
  destruct l as [|a [|b [|c [|d l]]]]; [apply Hs; simpl; lia..|].
  apply Hc, IH. simpl. lia.
Qed.

Lemma a85_groups_last src ll :
  (length src < 4)%nat → a85_groups src ll = a85_leftover src ++ [126; 62].
Proof. intros H. destruct src as [|? [|? [|? [|? ?]]]]; simpl in H; [done..|lia]. Qed.

Lemma a85_groups_stop src : bytes src → ∀ ll pos out,
  a85_stop src (pos + zlen (a85_groups src ll) - 1) out
    (a85_loop (a85_groups src ll) (A85St pos 0 0 out)).
Proof.
  induction src as [src Hlt|a b c d src IH] using ind4; intros Hb ll pos out.
  - rewrite a85_groups_last by done. rewrite zlen_app. change (zlen [126; 62]) with 2.
    replace (pos + (zlen (a85_leftover src) + 2) - 1)
      with (pos + zlen (a85_leftover src) + 1) by lia.
    by apply a85_leftover_stop.
  - rewrite a85_groups_step. cbv zeta.
    inversion Hb as [|? ? ? Hb1]; inversion Hb1 as [|? ? ? Hb2];
      inversion Hb2 as [|? ? ? Hb3]; inversion Hb3 as [|? ? ? Hb4]; subst.
    destruct (75 <=? _); rewrite a85_word_dec by done.
    + cbn [app]. rewrite !a85_blank_loop by done. unfold a85_stop.
      destruct (IH Hb4 0 (pos + zlen (a85_word a b c d) + 1 + 1) (out ++ [a; b; c; d])) as [-> ->].
      rewrite zlen_app, !zlen_cons. rewrite <-app_assoc. split; [lia|done].
    + unfold a85_stop.
      destruct (IH Hb4 (ll + zlen (a85_word a b c d)) (pos + zlen (a85_word a b c d))
        (out ++ [a; b; c; d])) as [-> ->].
      rewrite zlen_app. rewrite <-app_assoc. split; [lia|done].
Qed.

(** The first loop of the decoder runs to the final tilde. *)
Definition a85_legal (ch : Z) : bool :=
  (ch =? 122) || negb ((ch <? 33) || (117 <? ch)) || is_blank ch.

Lemma a85_count_app l rest z p :
  Forall a85_legal l →
  ∃ z', a85_count (l ++ rest) z p = a85_count rest z' (p + zlen l) ∧ z <= z' <= z + zlen l.
Proof.
  intros Hl. revert z p. induction Hl as [|ch l Hch Hl IH]; intros z p; simpl.
  - exists z. rewrite zlen_nil. split; [f_equal; lia|lia].
  - rewrite zlen_cons. unfold a85_legal in Hch.
    destruct (ch =? 122) eqn:Ez.
    + destruct (IH (z + 1) (p + 1)) as (z' & -> & Hz). exists z'. split; [f_equal|]; lia.
    + replace (((ch <? 33) || (117 <? ch)) && negb (is_blank ch)) with false
        by (destruct (is_blank ch); [by rewrite andb_false_r|];
            destruct ((ch <? 33) || (117 <? ch)); done).
      destruct (IH z (p + 1)) as (z' & -> & Hz). exists z'. split; [f_equal|]; lia.
Qed.

Lemma a85_digits_legal val : Forall a85_legal (a85_digits val).
Proof.
  unfold a85_digits.
  repeat apply List.Forall_cons; try apply List.Forall_nil;
    unfold a85_legal; apply Is_true_true; Z.div_mod_to_equations; lia.
Qed.

Lemma a85_leftover_spec src :
  (length src < 4)%nat → Forall a85_legal (a85_leftover src) ∧ zlen (a85_leftover src) <= 4.
Proof.
  intros H. unfold a85_leftover. destruct src as [|x src]; [split; [constructor|done]|].
  match goal with |- context [fold_left ?f ?l ?a] => assert (∃ v, fold_left f l a = (v, zlen l)) as [v ->] end.
  { destruct src as [|? [|? [|? ?]]]; simpl in H; [eexists; reflexivity..|lia]. }
  split; [apply Forall_take, a85_digits_legal|].
  unfold zlen in *. rewrite length_take. simpl in *. lia.
Qed.

Lemma a85_groups_shape src : ∀ ll, 0 <= ll < 75 →
  ∃ l, a85_groups src ll = l ++ [126; 62] ∧ Forall a85_legal l ∧
    zlen l <= 5 * (zlen src / 4) + 4 + 2 * ((ll + 5 * (zlen src / 4)) / 75).
Proof.
  induction src as [src Hlt|a b c d src IH] using ind4; intros ll Hll.
  - destruct (a85_leftover_spec src Hlt). rewrite a85_groups_last by done.
    eexists. split_and!; [done..|]. pose proof (zlen_nonneg src).
    Z.div_mod_to_equations. lia.
  - rewrite a85_groups_step. cbv zeta. rewrite !zlen_cons. pose proof (zlen_nonneg src).
    assert (Hw : Forall a85_legal (a85_word a b c d) ∧ zlen (a85_word a b c d) <= 5).
    { unfold a85_word. case_match; [split; [repeat constructor|done]|].
      split; [apply a85_digits_legal|done]. }
    destruct Hw as [Hw Hw5]. pose proof (zlen_nonneg (a85_word a b c d)).
    destruct (Z.leb_spec 75 (ll + zlen (a85_word a b c d))) as [Hge|Hlt].
    + destruct (IH 0 ltac:(lia)) as (l & -> & Hl & Hlen).
      exists (a85_word a b c d ++ [13; 10] ++ l). rewrite <-!app_assoc. split_and!; [done|..].
      * apply Forall_app; split; [done|]. apply Forall_app; split; [repeat constructor|done].
      * rewrite !zlen_app. change (zlen [13; 10]) with 2.
        Z.div_mod_to_equations. lia.
    + destruct (IH (ll + zlen (a85_word a b c d)) ltac:(lia)) as (l & -> & Hl & Hlen).
      exists (a85_word a b c d ++ l). rewrite <-!app_assoc. split_and!; [done|..].
      * by apply Forall_app.
      * rewrite zlen_app. Z.div_mod_to_equations. lia.
Qed.
End a85_roundtrip.

Lemma a85_decode_encode src out :
  bytes src → zlen src < 2 ^ 28 → A85Encode src = Some out →
  A85Decode out = Some (zlen out, src) ∧ zlen out <= a85_enc_alloc (zlen src).
Proof.
  intros Hb Hn H.
  assert (Hne : src ≠ []) by (by intros ->).
  assert (out = a85_groups src 0) as -> by (destruct src; [done|by injection H as <-]). clear H.
  pose proof (a85_groups_stop src Hb 0 0 []) as Hstop.
  destruct (a85_groups_shape src 0 ltac:(lia)) as (l & E & Hl & Hlen).
  rewrite E in *. rewrite zlen_app in *. change (zlen [126; 62]) with 2 in *.
  pose proof (zlen_nonneg l). pose proof (zlen_nonneg src).
  destruct (a85_count_app l [126; 62] 0 0 Hl) as (z & Ez & Hz).
  split; [|unfold a85_enc_alloc; Z.div_mod_to_equations; lia].
  unfold A85Decode. rewrite decide_False by (by destruct l). rewrite Ez.
  change (a85_count [126; 62] z (0 + zlen l)) with (z, 0 + zlen l).
  destruct (Z.eqb_spec (0 + zlen l) 0) as [El|El].
  { destruct l; [|unfold zlen in El; simpl in El; lia].
    destruct Hstop as [_ Hs]. by rewrite a85_tilde in Hs. }
  replace (2 ^ 32 <=? _) with false by (Z.div_mod_to_equations; lia).
  destruct (a85_loop _ _) as [pos n res o]. destruct Hstop as [Hpos Hs]. cbn in Hpos, Hs.
  rewrite Hs, zlen_app. change (zlen [126; 62]) with 2.
  assert (pos = zlen l + 1) as -> by lia.
  replace ((l ++ [126; 62]).[zlen l + 1]) with 62.
  - replace (zlen l + 1 <? zlen l + 2) with true by lia. cbn [andb Z.eqb Pos.eqb].
    replace (0 + zlen l =? 0) with false by lia.
    by replace (zlen l + 1 + 1) with (zlen l + 2) by lia.
  - unfold rd, zlen. rewrite app_nth2 by lia.
    by replace (Z.to_nat (Z.of_nat (length l) + 1) - length l)%nat with 1%nat by lia.
Qed.

(** [A85Encode] followed by [A85Decode] is the identity: the decoder reads
    the encoder's whole output (the offset is its length) and the bytes are the
    original ones, for every non-empty buffer below 2^28 bytes; and the output
    fits the buffer [A85Encode] allocates. *)
Theorem a85_roundtrip src out :
  bytes src → zlen src < 2 ^ 28 → A85Encode src = Some out →
  A85Decode out = Some (zlen out, src) ∧ zlen out <= a85_enc_alloc (zlen src).
Proof. apply a85_decode_encode. Qed.

Lemma a85_roundtrip_witness :
  let src := [77; 97; 110; 32; 0; 0; 0; 0; 115; 117; 9] in
  let out := [57; 106; 113; 111; 94; 122; 70; 42; 46; 99; 126; 62] in
  A85Decode out = Some (12, src) ∧ 12 <= a85_enc_alloc 11.
Proof.
  intros src out.
  exact (a85_roundtrip src out ltac:(solve_bytes) ltac:(reflexivity) ltac:(reflexivity)).
Defined.

(** ** RunLength: the encoder's output is read back by [RunLengthDecode]

    The streams of the format, and the data each stands for. *)
Inductive rl_stream : list Z → list Z → Prop :=
  | rl_eod : rl_stream [128] []
  | rl_literal l o d :
      (0 < length l <= 128)%nat → rl_stream o d →
      rl_stream ((zlen l - 1) :: l ++ o) (l ++ d)
  | rl_run k x o d :
      (2 <= k <= 128)%nat → rl_stream o d →
      rl_stream ((257 - Z.of_nat k) :: x :: o) (replicate k x ++ d).

(** The decoder implements the format. *)
Lemma rl_stream_decode o d :
  rl_stream o d → ∀ fuel i n, (length o <= fuel)%nat → 0 <= n → n + zlen d < 2 ^ 32 →
  rl_size fuel o n = Some (n + zlen d) ∧ rl_copy fuel o i = (i + zlen o - 1, d).
Proof.
  induction 1 as [|l o d Hl Ho IH|k x o d Hk Ho IH]; intros fuel i n Hf Hn Hlt;
    (destruct fuel as [|fuel]; [simpl in Hf; lia|]).
  - simpl. rewrite zlen_nil. split; f_equal; unfold zlen; simpl; lia.
  - simpl in Hf. rewrite length_app in Hf. rewrite zlen_app in Hlt.
    pose proof (zlen_nonneg d). assert (Hz : zlen l = Z.of_nat (length l)) by done.
    cbn [rl_size rl_copy].
    replace (zlen l - 1 =? 128) with false by lia.
    replace (zlen l - 1 <? 128) with true by lia.
    replace (zlen l - 1 + 1) with (zlen l) by lia.
    replace (Z.to_nat (zlen l)) with (length l) by lia.
    rewrite drop_app_length, take_app_length.
    rewrite Z.mod_small by lia.
    replace (n + zlen l <? n) with false by lia.
    destruct (IH fuel (i + (zlen l - 1 + 2)) (n + zlen l)) as [-> ->]; [lia..|].
    rewrite Nat.sub_diag. cbn [replicate app].
    rewrite zlen_cons, !zlen_app. split; f_equal; lia.
  - simpl in Hf. rewrite zlen_app in Hlt. pose proof (zlen_nonneg d).
    assert (Hz : zlen (replicate k x) = Z.of_nat k) by (unfold zlen; by rewrite length_replicate).
    cbn [rl_size rl_copy].
    replace (257 - Z.of_nat k =? 128) with false by lia.
    replace (257 - Z.of_nat k <? 128) with false by lia.
    replace (257 - (257 - Z.of_nat k)) with (Z.of_nat k) by lia.
    rewrite Z.mod_small by lia. replace (n + Z.of_nat k <? n) with false by lia.
    cbn [drop]. rewrite !drop_0.
    destruct (IH fuel (i + 2) (n + Z.of_nat k)) as [-> ->]; [lia..|].
    rewrite Nat2Z.id, !zlen_cons, zlen_app.
    split; f_equal; lia.
Qed.

Section rle_encoder.
Context (src : list Z).
Implicit Types r e : nat.

Lemma drop_at r : (r < length src)%nat → drop r src = at_ src r :: drop (S r) src.
Proof.
  intros Hr. destruct (lookup_lt_is_Some_2 src r Hr) as [x Hx].
  rewrite (drop_S src x r Hx). f_equal. unfold at_. by rewrite nth_lookup, Hx.
Qed.

Lemma run_bytes r k :
  (r + k <= length src)%nat → (∀ j, (r <= j < r + k)%nat → at_ src j = at_ src r) →
  drop r src = replicate k (at_ src r) ++ drop (r + k) src.
Proof.
  induction k as [|k IH]; intros Hk Hx; simpl; [by rewrite Nat.add_0_r|].
  rewrite IH; [|lia|intros; apply Hx; lia]. rewrite drop_at by lia.
  rewrite (Hx (r + k)%nat) by lia. replace (r + S k)%nat with (S (r + k)) by lia.
  by rewrite cons_middle, app_assoc, <-replicate_cons_app.
Qed.

Lemma rle_match_spec fuel r e n :
  (r < e <= r + n - 1)%nat → (n <= fuel + (e - r))%nat →
  (∀ j, (r <= j < e)%nat → at_ src j = at_ src r) →
  ∃ e', rle_match fuel src (at_ src r) (at_ src e) r e n = (at_ src e', e') ∧
    (e <= e' <= r + n - 1)%nat ∧
    (∀ j, (r <= j < e')%nat → at_ src j = at_ src r) ∧
    (at_ src r ≠ at_ src e' ∨ e' = r + n - 1)%nat.
Proof.
  revert e. induction fuel as [|fuel IH]; intros e He Hf Hx; simpl.
  - exists e. split_and!; [done|lia|lia|done|]. right. lia.
  - destruct (Z.eqb_spec (at_ src r) (at_ src e)) as [E|E]; cbn [andb].
    + destruct (Nat.ltb_spec (e - r) (n - 1)) as [Hlt|Hge].
      * destruct (IH (S e)) as (e' & -> & He' & Hx' & Hex); [lia|lia| |].
        { intros j Hj. destruct (decide (j = e)) as [->|]; [done|apply Hx; lia]. }
        exists e'. split_and!; [done|lia|lia|done|done].
      * exists e. split_and!; [done|lia|lia|done|]. right. lia.
    + exists e. split_and!; [done|lia|lia|done|]. by left.
Qed.

(** The state of the literal loop is read off [run_end]. *)
Lemma rle_literal_spec fuel r e n y :
  (0 < e <= length src)%nat → (e <= r + n + 1)%nat → (r + n + 1 <= fuel + e)%nat →
  (e < length src → y = at_ src e)%nat → 
  (e = length src → r + n < e)%nat →
  ∃ ws x' y' e', rle_literal fuel src (at_ src (e - 1)) y r e n = (ws, x', y', e') ∧
    (e <= e' <= S (length src))%nat ∧ (e' <= r + n + 1)%nat ∧
    (at_ src (e - 1) ≠ y → e <= r + n → e < e')%nat ∧
    drop (e - 1) src = ws ++ drop (e' - 1) src ∧ (length ws = e' - e)%nat ∧
    (e' <= length src → x' = at_ src (e' - 1))%nat ∧ (e' < length src → y' = at_ src e')%nat ∧
    ((x' = y' ∧ e' < length src) ∨ e' = S (length src) ∨ e' = r + n + 1)%nat.
Proof.
  revert e y. induction fuel as [|fuel IH]; intros e y He Hn Hf Hy Hend; cbn [rle_literal].
  { assert (e = r + n + 1)%nat as -> by lia.
    exists [], (at_ src (r + n + 1 - 1)), y, (r + n + 1)%nat.
    split_and!; [done|lia|lia|lia|lia|done|simpl; lia|done|intros; apply Hy; lia|by right; right]. }
  destruct (Z.eqb_spec (at_ src (e - 1)) y) as [E|E]; cbn [negb andb].
  { exists [], (at_ src (e - 1)), y, e.
    split_and!; [done|lia|lia|lia|done|done|simpl; lia|done|done|].
    destruct (decide (e < length src)%nat); [by left|]. right. right. lia. }
  destruct (Nat.leb_spec e (r + n)) as [Hle|Hgt]; cycle 1.
  { exists [], (at_ src (e - 1)), y, e.
    split_and!; [done|lia|lia|lia|lia|done|simpl; lia|done|done|]. right. right. lia. }
  assert (Hlt : (e < length src)%nat) by lia. rewrite (Hy Hlt) in *.
  assert (Hd : drop (e - 1) src = at_ src (e - 1) :: drop e src).
  { rewrite drop_at by lia. by replace (S (e - 1)) with e by lia. }
  destruct (Nat.eqb_spec (S e) (length src)) as [El|El].
  - destruct (Nat.leb_spec (S e) (r + n)) as [Hle'|Hgt'].
    + exists [at_ src (e - 1); at_ src e], (at_ src e), (at_ src e), (S (S e)).
      split_and!; [done|lia|lia|lia|lia| |simpl; lia|lia|lia|right; left; lia].
      rewrite Hd, (drop_at e) by lia. by replace (S (S e) - 1)%nat with (S e) by lia.
    + exists [at_ src (e - 1)], (at_ src e), (at_ src e), (S e).
      split_and!; [done|lia|lia|lia|lia| |simpl; lia| |lia|right; right; lia].
      * rewrite Hd. by replace (S e - 1)%nat with e by lia.
      * intros _. by replace (S e - 1)%nat with e by lia.
  - destruct (IH (S e) (at_ src (S e))) as (ws & x' & y' & e' & Eq & He' & Hn' & Hp & Hd' & Hw & Hx' & Hy' & Hex);
      [lia|lia|lia|done|lia|].
    replace (S e - 1)%nat with e in * by lia. rewrite Eq.
    exists (at_ src (e - 1) :: ws), x', y', e'.
    split_and!; [done|lia|lia|lia|lia| |simpl; lia|done|done|done].
    by rewrite Hd, Hd'.
Qed.

(** The main loop emits a stream for what is left, and at most four bytes
    for three. *)
Lemma rle_loop_spec fuel r x y :
  (r <= length src)%nat → (length src < fuel + r)%nat →
  (r < length src → x = at_ src r)%nat → (S r < length src → y = at_ src (S r))%nat →
  let o := rle_loop fuel src x y r (S r) in
  rl_stream o (drop r src) ∧
  3 * (zlen o - 1) <= 4 * (zlen src - Z.of_nat r) +
    (if decide (S r < length src ∧ x = y)%nat then 0 else
     if decide (r = length src) then 0 else 2).
Proof.
  revert r x y. induction fuel as [|fuel IH]; intros r x y Hr Hf Hx Hy; [lia|].
  cbn [rle_loop]. destruct (Nat.ltb_spec (S r) (length src)) as [Hlt|Hge]; cycle 1.
  { rewrite decide_False by lia. destruct (Nat.ltb_spec r (length src)) as [Hr1|Hr1]; cbn [app].
    - rewrite decide_False by lia. rewrite drop_at, drop_ge, Hx by lia. split.
      + apply (rl_literal [at_ src r] [128] []); [simpl; lia|constructor].
      + unfold zlen. simpl length. lia.
    - rewrite decide_True by lia. rewrite drop_ge by lia. split; [constructor|].
      unfold zlen. simpl length. lia. }
  specialize (Hy Hlt). rewrite Hx by lia. subst y. clear Hx x.
  set (n := Nat.min 128 (length src - r)).
  assert (Hn : (2 <= n <= 128)%nat ∧ (r + n <= length src)%nat) by lia.
  destruct (rle_match_spec n r (S r) n) as (e & -> & He & Hrun & Hex);
    [lia|lia|intros j Hj; f_equal; lia|].
  assert (∃ y2 e2, (if at_ src r =? at_ src e
      then (if (S e <? length src)%nat then at_ src (S e) else at_ src e, S e)
      else (at_ src e, e)) = (y2, e2) ∧ (r < e2 <= r + n)%nat ∧
    (∀ j, (r <= j < e2)%nat → at_ src j = at_ src r) ∧
    (e2 < length src → y2 = at_ src e2)%nat ∧
    ((r + 2 <= e2)%nat ∨ e2 = S r ∧ at_ src r ≠ at_ src (S r)))
    as (y2 & e2 & -> & He2 & Hrun2 & Hy2 & Hk).
  { destruct (Z.eqb_spec (at_ src r) (at_ src e)) as [E|E]; do 2 eexists; split; try done.
    - split_and!; [lia|lia| | |left; lia].
      + intros j Hj. destruct (decide (j = e)) as [->|]; [done|apply Hrun; lia].
      + intros Hl. by destruct (Nat.ltb_spec (S e) (length src)); [|lia].
    - split_and!; [lia|lia|done|done|].
      destruct (decide (e = S r)) as [->|]; [by right|left; lia]. }
  clear e He Hrun Hex. destruct (Nat.ltb_spec 1 (e2 - r)) as [Hlong|Hshort].
  - set (y3 := if (S e2 <? length src)%nat then at_ src (S e2) else y2).
    destruct (IH e2 y2 y3) as [IHs IHb]; [lia|lia|done| |].
    { intros Hl. unfold y3. by destruct (Nat.ltb_spec (S e2) (length src)); [|lia]. }
    rewrite Z.mod_small by lia.
    rewrite (run_bytes r (e2 - r)) by (try lia; intros; apply Hrun2; lia).
    replace (r + (e2 - r))%nat with e2 by lia. split; [constructor; [lia|done]|].
    rewrite decide_True by (split; [done|]; symmetry; apply Hrun2; lia).
    rewrite !zlen_cons. unfold zlen in *. repeat case_decide; lia.
  - assert (e2 = S r ∧ at_ src r ≠ at_ src (S r)) as [-> Hne] by (destruct Hk; [lia|done]).
    rewrite (Hy2 Hlt) in *.
    destruct (rle_literal_spec (S n) r (S r) n (at_ src (S r)))
      as (ws & x' & y' & e' & Eq & He' & Hn' & Hp & Hd' & Hw & Hx' & Hy' & Hex);
      [lia|lia|lia|done|lia|].
    replace (S r - 1)%nat with r in * by lia. rewrite Eq.
    specialize (Hp Hne ltac:(lia)).
    destruct (IH (e' - 1)%nat x' y') as [IHs IHb]; [lia|lia|intros; apply Hx'; lia| |].
    { intros. replace (S (e' - 1))%nat with e' in * by lia. by apply Hy'. }
    replace (S (e' - 1))%nat with e' in * by lia.
    replace (u8 (Z.of_nat (e' - r) - 2)) with (zlen ws - 1)
      by (unfold zlen; rewrite Z.mod_small; lia).
    rewrite Hd'. split; [constructor; [lia|done]|].
    rewrite decide_False by (intros [_ ?]; done). rewrite decide_False by lia.
    rewrite zlen_cons, zlen_app. unfold zlen in *.
    destruct Hex as [[Hex1 Hex2]|[Hex|Hex]].
    + rewrite decide_True in IHb by done. lia.
    + rewrite decide_False in IHb by lia. rewrite decide_True in IHb by lia. lia.
    + repeat case_decide; lia.
Qed.
End rle_encoder.

Lemma rle_decode_encode src out :
  zlen src < kMaxStreamSize → RunLengthEncode src = Some out →
  RunLengthDecode out = Some (zlen out, src) ∧ rl_stream out src ∧
  zlen out <= rle_alloc (zlen src).
Proof.
  intros Hn H. unfold kMaxStreamSize in Hn.
  assert (Hs : rl_stream out src ∧ zlen out <= rle_alloc (zlen src)).
  { unfold RunLengthEncode, rle_alloc in *. destruct src as [|x [|y src']]; [done| |].
    - injection H as <-. split; [|done].
      apply (rl_literal [x] [128] []); [simpl; lia|constructor].
    - destruct (rle_loop_spec (x :: y :: src') (S (length (x :: y :: src'))) 0 x y)
        as [Hs Hb]; [lia|lia|done|done|].
      set (src := x :: y :: src') in *.
      assert (rle_loop (S (length src)) src x y 0 1 = out) as E by congruence.
      rewrite E in *. rewrite drop_0 in Hs. split; [done|].
      repeat case_decide; Z.div_mod_to_equations; lia. }
  destruct Hs as [Hs Hb]. split_and!; [|done..].
  destruct (rl_stream_decode out src Hs (length out) 0 0) as [E1 E2]; [lia..|].
  unfold RunLengthDecode. rewrite E1, E2.
  replace (kMaxStreamSize <=? 0 + zlen src) with false by (unfold kMaxStreamSize; lia).
  do 2 f_equal. lia.
Qed.

(** C29: [RunLengthEncode] writes a stream of the format that [RunLengthDecode]
    maps back to the source, reading the stream to its end, and never writes
    past the [estimated_size] bytes it allocated.  The source is shorter than
    [kMaxStreamSize], 20 MiB, since [RunLengthDecode] refuses longer results. *)
Theorem rle_roundtrip src out :
  zlen src < kMaxStreamSize → RunLengthEncode src = Some out →
  RunLengthDecode out = Some (zlen out, src) ∧ rl_stream out src ∧
  zlen out <= rle_alloc (zlen src).
Proof. apply rle_decode_encode. Qed.

Lemma rle_roundtrip_witness :
  RunLengthDecode [254; 7; 1; 8; 9; 254; 0; 128] =
    Some (8, [7; 7; 7; 8; 9; 0; 0; 0]) ∧
  rl_stream [254; 7; 1; 8; 9; 254; 0; 128] [7; 7; 7; 8; 9; 0; 0; 0] ∧ 8 <= rle_alloc 8.
Proof.
  exact (rle_roundtrip [7; 7; 7; 8; 9; 0; 0; 0] [254; 7; 1; 8; 9; 254; 0; 128]
    ltac:(reflexivity) ltac:(reflexivity)).
Defined.
