(* ===== verification/TextString.v ===== *)
(** * Text strings and string literals

    [PDF_DecodeText], [PDF_EncodeText], [PDF_EncodeString] and
    [PDF_HexEncodeString] of [core/fpdfapi/parser/fpdf_parser_decode.cpp].  A
    [WideString] is the list of its code units. *)
From S2P Require Import Prelude Words CharTypes Filters.

Definition kPDFDocEncoding : list Z :=
  [0x0000; 0x0001; 0x0002; 0x0003; 0x0004; 0x0005; 0x0006; 0x0007;
   0x0008; 0x0009; 0x000a; 0x000b; 0x000c; 0x000d; 0x000e; 0x000f;
   0x0010; 0x0011; 0x0012; 0x0013; 0x0014; 0x0015; 0x0016; 0x0017;
   0x02d8; 0x02c7; 0x02c6; 0x02d9; 0x02dd; 0x02db; 0x02da; 0x02dc;
   0x0020; 0x0021; 0x0022; 0x0023; 0x0024; 0x0025; 0x0026; 0x0027;
   0x0028; 0x0029; 0x002a; 0x002b; 0x002c; 0x002d; 0x002e; 0x002f;
   0x0030; 0x0031; 0x0032; 0x0033; 0x0034; 0x0035; 0x0036; 0x0037;
   0x0038; 0x0039; 0x003a; 0x003b; 0x003c; 0x003d; 0x003e; 0x003f;
   0x0040; 0x0041; 0x0042; 0x0043; 0x0044; 0x0045; 0x0046; 0x0047;
   0x0048; 0x0049; 0x004a; 0x004b; 0x004c; 0x004d; 0x004e; 0x004f;
   0x0050; 0x0051; 0x0052; 0x0053; 0x0054; 0x0055; 0x0056; 0x0057;
   0x0058; 0x0059; 0x005a; 0x005b; 0x005c; 0x005d; 0x005e; 0x005f;
   0x0060; 0x0061; 0x0062; 0x0063; 0x0064; 0x0065; 0x0066; 0x0067;
   0x0068; 0x0069; 0x006a; 0x006b; 0x006c; 0x006d; 0x006e; 0x006f;
   0x0070; 0x0071; 0x0072; 0x0073; 0x0074; 0x0075; 0x0076; 0x0077;
   0x0078; 0x0079; 0x007a; 0x007b; 0x007c; 0x007d; 0x007e; 0x0000;
   0x2022; 0x2020; 0x2021; 0x2026; 0x2014; 0x2013; 0x0192; 0x2044;
   0x2039; 0x203a; 0x2212; 0x2030; 0x201e; 0x201c; 0x201d; 0x2018;
   0x2019; 0x201a; 0x2122; 0xfb01; 0xfb02; 0x0141; 0x0152; 0x0160;
   0x0178; 0x017d; 0x0131; 0x0142; 0x0153; 0x0161; 0x017e; 0x0000;
   0x20ac; 0x00a1; 0x00a2; 0x00a3; 0x00a4; 0x00a5; 0x00a6; 0x00a7;
   0x00a8; 0x00a9; 0x00aa; 0x00ab; 0x00ac; 0x0000; 0x00ae; 0x00af;
   0x00b0; 0x00b1; 0x00b2; 0x00b3; 0x00b4; 0x00b5; 0x00b6; 0x00b7;
   0x00b8; 0x00b9; 0x00ba; 0x00bb; 0x00bc; 0x00bd; 0x00be; 0x00bf;
   0x00c0; 0x00c1; 0x00c2; 0x00c3; 0x00c4; 0x00c5; 0x00c6; 0x00c7;
   0x00c8; 0x00c9; 0x00ca; 0x00cb; 0x00cc; 0x00cd; 0x00ce; 0x00cf;
   0x00d0; 0x00d1; 0x00d2; 0x00d3; 0x00d4; 0x00d5; 0x00d6; 0x00d7;
   0x00d8; 0x00d9; 0x00da; 0x00db; 0x00dc; 0x00dd; 0x00de; 0x00df;
   0x00e0; 0x00e1; 0x00e2; 0x00e3; 0x00e4; 0x00e5; 0x00e6; 0x00e7;
   0x00e8; 0x00e9; 0x00ea; 0x00eb; 0x00ec; 0x00ed; 0x00ee; 0x00ef;
   0x00f0; 0x00f1; 0x00f2; 0x00f3; 0x00f4; 0x00f5; 0x00f6; 0x00f7;
   0x00f8; 0x00f9; 0x00fa; 0x00fb; 0x00fc; 0x00fd; 0x00fe; 0x00ff].

Definition GetUnicodeFromBigEndianBytes (a b : Z) : Z := (a .<< 8) .| b.
Definition GetUnicodeFromLittleEndianBytes (a b : Z) : Z := (b .<< 8) .| a.

(** The code units of a byte string, two bytes each; a last odd byte is not
    part of [max_chars]. *)
Fixpoint utf16_units (get : Z → Z → Z) (l : list Z) : list Z :=
  match l with
  | a :: b :: rest => get a b :: utf16_units get rest
  | _ => []
  end.

(** The loop over the code units; [in_lang] while the inner [for] skips the
    language metadata.  The unit after the closing 0x001B is written without
    being looked at. *)
Fixpoint decode_units (in_lang after_lang : bool) (us : list Z) : list Z :=
  match us with
  | [] => []
  | u :: rest =>
      if in_lang then decode_units (negb (u =? 0x001B)) (u =? 0x001B) rest
      else if after_lang then u :: decode_units false false rest
      else if u =? 0x001B then decode_units true false rest
      else u :: decode_units false false rest
  end.

Definition PDF_DecodeText (span : list Z) : list Z :=
  match span with
  | a :: b :: rest =>
      if ((a =? 0xfe) && (b =? 0xff)) || ((a =? 0xff) && (b =? 0xfe))
      then decode_units false false
             (utf16_units (if a =? 0xfe then GetUnicodeFromBigEndianBytes
                           else GetUnicodeFromLittleEndianBytes) rest)
      else map (rd kPDFDocEncoding) span
  | _ => map (rd kPDFDocEncoding) span
  end.

(** The first [code] with [kPDFDocEncoding[code] == ch]; 256 if there is none. *)
Fixpoint doc_code (table : list Z) (code : Z) (ch : Z) : Z :=
  match table with
  | [] => code
  | x :: table' => if x =? ch then code else doc_code table' (code + 1) ch
  end.

(** The first loop of [PDF_EncodeText]: the bytes up to the first character
    that is not in PDFDocEncoding. *)
Fixpoint encode_doc (str : list Z) : list Z :=
  match str with
  | [] => []
  | ch :: rest =>
      let code := doc_code kPDFDocEncoding 0 ch in
      if code =? 256 then [] else code :: encode_doc rest
  end.

Definition PDF_EncodeText (str : list Z) : list Z :=
  let result := encode_doc str in
  if zlen result =? zlen str then result
  else if (2 ^ 31 - 1) / 2 - 1 <? zlen str then []
  else 0xfe :: 0xff :: flat_map (λ ch, [u8 (ch .>> 8); u8 ch]) str.

(** ** String literals *)
Definition PDF_EncodeString (src : list Z) : list Z :=
  40 :: flat_map (λ ch,
    if ch =? 0x0a then [92; 110]
    else if ch =? 0x0d then [92; 114]
    else if (ch =? 41) || (ch =? 92) || (ch =? 40) then [92; ch]
    else [ch]) src ++ [41].

Definition PDF_HexEncodeString (src : list Z) : list Z :=
  60 :: flat_map (λ ch, FXSYS_IntToTwoHexChars ch) src ++ [62].

(** ** Facts *)
Lemma doc_code_spec table c ch :
  let k := doc_code table c ch in
  c <= k <= c + zlen table ∧
  (k < c + zlen table → table.[k - c] = ch).
Proof.
  revert c. induction table as [|x table IH]; intros c; cbn [doc_code].
  - rewrite zlen_nil. lia.
  - rewrite zlen_cons. pose proof (zlen_nonneg table).
    destruct (Z.eqb_spec x ch) as [->|Hne].
    + rewrite Z.sub_diag. split; [lia|done].
    + destruct (IH (c + 1)) as [H1 H2]. split; [lia|]. intros Hk.
      specialize (H2 ltac:(lia)). unfold rd in *.
      replace (Z.to_nat (doc_code table (c + 1) ch - c)) with
        (S (Z.to_nat (doc_code table (c + 1) ch - (c + 1)))) by lia. exact H2.
Qed.

Lemma encode_doc_spec str :
  zlen (encode_doc str) <= zlen str ∧ bytes (encode_doc str) ∧
  map (rd kPDFDocEncoding) (encode_doc str) = take (length (encode_doc str)) str.
Proof.
  induction str as [|ch str [IH1 [IH2 IH3]]]; [done|]. cbn [encode_doc].
  destruct (Z.eqb_spec (doc_code kPDFDocEncoding 0 ch) 256) as [E|E].
  { split_and!; [rewrite zlen_nil; apply zlen_nonneg|constructor|done]. }
  destruct (doc_code_spec kPDFDocEncoding 0 ch) as [H1 H2].
  change (zlen kPDFDocEncoding) with 256 in *.
  split_and!; [rewrite !zlen_cons; lia|constructor; [unfold fits; lia|done]|].
  cbn [map length take]. rewrite IH3. f_equal. specialize (H2 ltac:(lia)). by rewrite Z.sub_0_r in H2.
Qed.

Lemma encode_doc_full str :
  zlen (encode_doc str) = zlen str → map (rd kPDFDocEncoding) (encode_doc str) = str.
Proof.
  intros H. destruct (encode_doc_spec str) as (_ & _ & ->).
  apply take_ge. unfold zlen in H. lia.
Qed.

Lemma unit_back ch :
  fits 16 ch → GetUnicodeFromBigEndianBytes (u8 (ch .>> 8)) (u8 ch) = ch.
Proof.
  intros Hch. unfold GetUnicodeFromBigEndianBytes. rewrite Z.lor_comm.
  rewrite lor_shiftl_add by auto with fx. unfold fits in *.
  rewrite Z.shiftr_div_pow2 by lia. Z.div_mod_to_equations. lia.
Qed.

Lemma units_back str :
  Forall (fits 16) str →
  utf16_units GetUnicodeFromBigEndianBytes (flat_map (λ ch, [u8 (ch .>> 8); u8 ch]) str) = str.
Proof.
  induction 1 as [|ch str Hch _ IH]; [done|]. cbn [flat_map app utf16_units].
  by rewrite unit_back, IH.
Qed.

Lemma decode_units_plain us : 0x1B ∉ us → decode_units false false us = us.
Proof.
  induction us as [|u us IH]; [done|]. rewrite not_elem_of_cons. intros [Hne Hu].
  cbn [decode_units]. replace (u =? 0x001B) with false by lia. by rewrite IH.
Qed.

(** A byte-order mark at the start of a text: the one case PDFDocEncoding
    bytes are taken for UTF-16. *)
Definition starts_with_bom (str : list Z) : bool :=
  match str with
  | a :: b :: _ => ((a =? 0xfe) && (b =? 0xff)) || ((a =? 0xff) && (b =? 0xfe))
  | _ => false
  end.

Lemma doc_byte_back x b :
  byte x → kPDFDocEncoding.[x] = b → b = 0xfe ∨ b = 0xff → x = b.
Proof.
  intros Hx <- Hb. apply Z.eqb_eq.
  assert (Hall := forall_byte (λ x, negb ((kPDFDocEncoding.[x] =? 0xfe) ||
    (kPDFDocEncoding.[x] =? 0xff)) || (x =? kPDFDocEncoding.[x]))
    ltac:(vm_compute; reflexivity) x Hx).
  cbv beta in Hall. destruct Hb as [Hb|Hb]; rewrite Hb in *; cbn in Hall; lia.
Qed.

Lemma doc_fe_ff x : x = 0xfe ∨ x = 0xff → kPDFDocEncoding.[x] = x.
Proof. by intros [->| ->]. Qed.

Lemma bom_map bs :
  bytes bs → starts_with_bom (map (rd kPDFDocEncoding) bs) = starts_with_bom bs.
Proof.
  intros Hb. destruct bs as [|a [|b bs]]; [done..|].
  inversion Hb as [|? ? Ha Hb']; inversion Hb' as [|? ? Hb0 _]; subst.
  cbn [map starts_with_bom].
  assert (H : ∀ x c, byte x → c = 0xfe ∨ c = 0xff → (kPDFDocEncoding.[x] =? c) = (x =? c)).
  { intros x c Hx Hc. destruct (Z.eqb_spec x c) as [->|Hne].
    - rewrite doc_fe_ff by done. lia.
    - apply Z.eqb_neq. intros E. apply Hne. by apply doc_byte_back. }
  by rewrite !H by auto.
Qed.

(** A text of 16-bit code units that neither contains the language escape
    U+001B nor starts with a byte-order mark is read back unchanged: through
    PDFDocEncoding when every character is in it, through UTF-16BE with a byte
    order mark otherwise. *)
Theorem text_roundtrip str :
  Forall (fits 16) str → zlen str <= 2 ^ 30 - 2 → 0x1B ∉ str → starts_with_bom str = false →
  PDF_DecodeText (PDF_EncodeText str) = str ∧ bytes (PDF_EncodeText str).
Proof.
  intros Hs Hn He Hbom. unfold PDF_EncodeText.
  destruct (Z.eqb_spec (zlen (encode_doc str)) (zlen str)) as [E|E].
  - pose proof (encode_doc_full str E) as Hd. destruct (encode_doc_spec str) as (_ & Hb & _).
    split; [|done]. rewrite <-Hd, bom_map in Hbom by done.
    destruct (encode_doc str) as [|a [|b l]]; [done..|].
    cbn [PDF_DecodeText]. cbn [starts_with_bom] in Hbom. by rewrite Hbom.
  - replace ((2 ^ 31 - 1) / 2 - 1 <? zlen str) with false
      by (change ((2 ^ 31 - 1) / 2 - 1) with (2 ^ 30 - 2); lia).
    split.
    + cbn [PDF_DecodeText]. cbn -[utf16_units decode_units flat_map].
      rewrite units_back by done. by apply decode_units_plain.
    + repeat constructor; try done. clear. induction str as [|ch str IH]; [constructor|].
      cbn [flat_map app]. constructor; [auto with fx|]. constructor; [auto with fx|done].
Qed.

Lemma text_roundtrip_witness :
  PDF_EncodeText [72; 0x20ac] = [72; 160] ∧
  (PDF_DecodeText (PDF_EncodeText [72; 0x4e2d]) = [72; 0x4e2d] ∧
   bytes (PDF_EncodeText [72; 0x4e2d])).
Proof.
  split; [reflexivity|].
  exact (text_roundtrip [72; 0x4e2d] ltac:(solve_bytes) ltac:(vm_compute; discriminate)
    ltac:(rewrite !not_elem_of_cons; split_and!; [done..|apply not_elem_of_nil]) ltac:(reflexivity)).
Defined.

(** Both restrictions are needed: the text U+00FE U+00FF U+0041 comes back
    as the empty text, and U+001B in a text that needs UTF-16 swallows what
    follows it. *)
Theorem text_bom_lost :
  PDF_DecodeText (PDF_EncodeText [0xfe; 0xff; 0x41]) = [] ∧
  PDF_DecodeText (PDF_EncodeText [0x1b; 0x41; 0x42]) = [].
Proof. split; reflexivity. Qed.
