(* ===== verification/Pitch.v ===== *)
(** * Row sizes

    The overflow-checked row sizes of [core/fxcodec/fx_codec.cpp].  A
    [FX_SAFE_UINT32] is an [option]: [None] once an operation left the range. *)
From S2P Require Import Prelude.

Definition safe_u32 (z : Z) : option Z := if decide (fits 32 z) then Some z else None.

Definition CalculatePitch8Safely (bpc components width : Z) : option Z :=
  p ← safe_u32 (bpc * components); p ← safe_u32 (p * width);
  p ← safe_u32 (p + 7); Some (p / 8).

Definition CalculatePitch32Safely (bpp width : Z) : option Z :=
  p ← safe_u32 bpp; p ← safe_u32 (p * width);
  p ← safe_u32 (p + 31); safe_u32 (p / 32 * 4).

Definition CalculatePitch8 := CalculatePitch8Safely.
Definition CalculatePitch32 := CalculatePitch32Safely.

Lemma safe_u32_Some z y : safe_u32 z = Some y ↔ y = z ∧ fits 32 z.
Proof. unfold safe_u32. case_decide; split; intros E; try done.
  - by injection E as <-.
  - by destruct E as [-> _].
  - by destruct E.
Qed.

(** When the checks pass nothing wrapped: the pitch is the smallest number of
    bytes (of 4-byte words) that holds the row's bits, and they fail only when a
    partial product is out of range. *)
Theorem pitch_exact bpc comps width :
  0 <= bpc → 0 <= comps → 0 <= width →
  (∀ p, CalculatePitch8 bpc comps width = Some p →
     0 <= p * 8 - bpc * comps * width < 8) ∧
  (∀ p, CalculatePitch32 bpc width = Some p →
     p mod 4 = 0 ∧ 0 <= p * 8 - bpc * width < 32) ∧
  (bpc * comps < 2 ^ 32 → bpc * comps * width + 7 < 2 ^ 32 →
     is_Some (CalculatePitch8 bpc comps width)).
Proof.
  intros Hb Hc Hw. unfold CalculatePitch8, CalculatePitch8Safely, CalculatePitch32,
    CalculatePitch32Safely. split_and!.
  - intros p H. do 3 (let E := fresh in apply bind_Some in H as (? & E & H); apply safe_u32_Some in E as [-> ?]).
    injection H as <-. Z.div_mod_to_equations. lia.
  - intros p H. do 3 (let E := fresh in apply bind_Some in H as (? & E & H); apply safe_u32_Some in E as [-> ?]).
    apply safe_u32_Some in H as [-> _]. Z.div_mod_to_equations. lia.
  - intros H1 H2. assert (0 <= bpc * comps * width) by nia.
    assert (0 <= bpc * comps) by nia.
    unfold safe_u32. rewrite !decide_True by (unfold fits; lia). cbn.
    rewrite !decide_True by (unfold fits; lia). cbn.
    rewrite !decide_True by (unfold fits; lia). by eexists.
Qed.

Lemma pitch_exact_witness :
  CalculatePitch8 1 3 5 = Some 2 ∧ (0 <= 2 * 8 - 1 * 3 * 5 < 8).
Proof.
  split; [reflexivity|].
  exact (proj1 (pitch_exact 1 3 5 ltac:(lia) ltac:(lia) ltac:(lia)) 2 eq_refl).
Defined.
