(* ===== verification/Flate.v ===== *)
(** * Predictors of the Flate and LZW filters

    [PathPredictor], [PNG_PredictLine], [PNG_Predictor], [TIFF_PredictLine] and
    [TIFF_Predictor] of [core/fxcodec/flate/flatemodule.cpp], against the
    filters of the PNG specification and of TIFF predictor 2. *)
From S2P Require Import Prelude Words.

Definition PathPredictor (a b c : Z) : Z :=
  let p := a + b - c in
  let pa := Z.abs (p - a) in
  let pb := Z.abs (p - b) in
  let pc := Z.abs (p - c) in
  if (pa <=? pb) && (pa <=? pc) then u8 a
  else if pb <=? pc then u8 b
  else u8 c.

(** [switch (tag)]: the value added to the raw byte, from the three
    neighbours. *)
Definition png_predict (tag left_ up upper_left : Z) : Z :=
  if tag =? 1 then left_
  else if tag =? 2 then up
  else if tag =? 3 then (up + left_) / 2
  else if tag =? 4 then PathPredictor left_ up upper_left
  else 0.

(** A neighbour that does not exist counts as 0. *)
Definition neighbour (ok : bool) (l : list Z) (i : Z) : Z := if ok then l.[i] else 0.

(** [PNG_PredictLine]: the bytes written to [dest_span]; [last] is [None] when
    [last_span.data()] is null. *)
Definition PNG_PredictLine (src : list Z) (last : option (list Z)) (row_size BytesPerPixel : Z) :
    list Z :=
  let tag := src.[0] in
  if tag =? 0 then take (Z.to_nat row_size) (drop 1 src)
  else
    for_loop (Z.to_nat row_size) (λ byte dest,
      let raw_byte := src.[byte + 1] in
      let left_ := neighbour (BytesPerPixel <=? byte) dest (byte - BytesPerPixel) in
      let up := match last with Some l => l.[byte] | None => 0 end in
      let upper_left := match last with
        | Some l => neighbour (BytesPerPixel <=? byte) l (byte - BytesPerPixel)
        | None => 0 end in
      dest ++ [u8 (raw_byte + png_predict tag left_ up upper_left)]) [].

Record png_state := PngSt { png_src : Z; png_cnt : Z; png_dest : list Z }.

(** One row of [PNG_Predictor]: [png_src] is [pSrcData], [png_cnt] is
    [byte_cnt], and the end of [png_dest] is [pDestData]. *)
Definition png_row (data : list Z) (row_size BytesPerPixel last_row_size row : Z) (s : png_state) :
    png_state :=
  let data_size := zlen data in
  let '(PngSt src cnt dest) := s in
  let tag := data.[src] in
  let cnt := cnt + 1 in
  if tag =? 0 then
    let move_size := if data_size <? (row + 1) * (row_size + 1) then last_row_size - 1
                     else row_size in
    PngSt (src + move_size + 1) (cnt + move_size)
      (dest ++ subspan data (Z.to_nat (src + 1)) (Z.to_nat move_size))
  else
    let n := Z.max 0 (Z.min row_size (data_size - cnt)) in
    let base := zlen dest in
    PngSt (src + row_size + 1) (cnt + n)
      (for_loop (Z.to_nat n) (λ byte dest,
        let raw_byte := data.[src + (byte + 1)] in
        let left_ := neighbour (BytesPerPixel <=? byte) dest (base + byte - BytesPerPixel) in
        let up := neighbour (negb (row =? 0)) dest (base + byte - row_size) in
        let upper_left := neighbour ((BytesPerPixel <=? byte) && negb (row =? 0)) dest
                            (base + byte - row_size - BytesPerPixel) in
        dest ++ [u8 (raw_byte + png_predict tag left_ up upper_left)]) dest).

(** The new [*data_buf] and [*data_size]; [None] when it returns false.  The
    buffer is zeroed when allocated. *)
Definition PNG_Predictor (Colors BitsPerComponent Columns : Z) (data : list Z) : option (list Z) :=
  let data_size := zlen data in
  let BytesPerPixel := (Colors * BitsPerComponent + 7) / 8 in
  let row_size := (Colors * BitsPerComponent * Columns + 7) / 8 in
  if row_size <=? 0 then None
  else
    let row_count := (data_size + row_size) / (row_size + 1) in
    if row_count <=? 0 then None
    else
      let last_row_size := data_size mod (row_size + 1) in
      let s := for_loop (Z.to_nat row_count)
                 (png_row data row_size BytesPerPixel last_row_size) (PngSt 0 0 []) in
      let new_size := row_size * row_count -
        (if 0 <? last_row_size then row_size + 1 - last_row_size else 0) in
      Some (take (Z.to_nat new_size)
              (png_dest s ++ replicate (Z.to_nat (row_size * row_count)) 0)).

(** ** TIFF *)
Definition get_bit (l : list Z) (i : Z) : Z := (l.[i / 8] .>> (7 - i mod 8)) .& 1.

(** [dest_buf[index] |= 1 << (7 - col)] or [&= ~(1 << (7 - col))]. *)
Definition set_bit (l : list Z) (i : Z) (b : bool) : list Z :=
  let index := i / 8 in
  let mask := 1 .<< (7 - i mod 8) in
  wr l index (if b then l.[index] .| mask else l.[index] .& (0xFF .^ mask)).

(** The three loops of [TIFF_PredictLine]. *)
Definition tiff_bits (row_bits : Z) (buf : list Z) : list Z :=
  for_loop (Z.to_nat (row_bits - 1)) (λ j buf,
    let i := j + 1 in
    set_bit buf i (negb (get_bit buf i .^ get_bit buf (i - 1) =? 0))) buf.

Definition tiff_words (row_size BytesPerPixel : Z) (buf : list Z) : list Z :=
  for_loop (Z.to_nat ((row_size - BytesPerPixel) / 2)) (λ j buf,
    let i := BytesPerPixel + 2 * j in
    let pixel := (buf.[i - BytesPerPixel] .<< 8) .| buf.[i - BytesPerPixel + 1] in
    let pixel := u16 (pixel + ((buf.[i] .<< 8) .| buf.[i + 1])) in
    wr (wr buf i (pixel .>> 8)) (i + 1) (u8 pixel)) buf.

Definition tiff_bytes (row_size BytesPerPixel : Z) (buf : list Z) : list Z :=
  for_loop (Z.to_nat (row_size - BytesPerPixel)) (λ j buf,
    let i := BytesPerPixel + j in
    wr buf i (u8 (buf.[i] + buf.[i - BytesPerPixel]))) buf.

Definition TIFF_PredictLine (buf : list Z) (row_size BitsPerComponent Colors Columns : Z) : list Z :=
  if BitsPerComponent =? 1 then
    tiff_bits (Z.min (BitsPerComponent * Colors * Columns) (row_size * 8)) buf
  else
    let BytesPerPixel := BitsPerComponent * Colors / 8 in
    if BitsPerComponent =? 16 then tiff_words row_size BytesPerPixel buf
    else tiff_bytes row_size BytesPerPixel buf.

Definition TIFF_Predictor (Colors BitsPerComponent Columns : Z) (data : list Z) : option (list Z) :=
  let data_size := zlen data in
  let row_size := (Colors * BitsPerComponent * Columns + 7) / 8 in
  if row_size =? 0 then None
  else
    let row_count := (data_size + row_size - 1) / row_size in
    let last_row_size := data_size mod row_size in
    Some (for_loop (Z.to_nat row_count) (λ row data,
      let size := if data_size <? (row + 1) * row_size then last_row_size else row_size in
      let line := subspan data (Z.to_nat (row * row_size)) (Z.to_nat size) in
      take (Z.to_nat (row * row_size)) data ++
      TIFF_PredictLine line size BitsPerComponent Colors Columns ++
      drop (Z.to_nat (row * row_size + size)) data) data).

(** ** Which predictor *)
Inductive PredictorType := kNone | kFlate | kPng.
Definition GetPredictor (predictor : Z) : PredictorType :=
  if 10 <=? predictor then kPng else if predictor =? 2 then kFlate else kNone.

(** ** The filters of the PNG specification *)
Definition png_filter (tag bpp : Z) (prev cur : list Z) : list Z :=
  map (λ i, u8 (cur.[i] - png_predict tag (neighbour (bpp <=? i) cur (i - bpp)) prev.[i]
                            (neighbour (bpp <=? i) prev (i - bpp)))) (seqZ 0 (zlen cur)).

Lemma zlen_filter tag bpp prev cur : zlen (png_filter tag bpp prev cur) = zlen cur.
Proof. unfold png_filter. unfold zlen at 1. rewrite length_map, length_seqZ. unfold zlen. lia. Qed.

Lemma png_unfilter cur p i :
  bytes cur → u8 (u8 (cur.[i] - p) + p) = cur.[i].
Proof.
  intros Hb. rewrite Zplus_mod_idemp_l. replace (cur.[i] - p + p) with (cur.[i]) by lia.
  by apply fits_small, bytes_rd.
Qed.

Lemma png_filter_0 bpp prev cur : bytes cur → png_filter 0 bpp prev cur = cur.
Proof.
  intros Hb. apply list_eq. intros i. unfold png_filter. rewrite list_lookup_fmap.
  destruct (decide (i < length cur)%nat) as [Hi|Hi].
  - rewrite lookup_seqZ_lt by (unfold zlen; lia). cbn [fmap option_fmap option_map].
    unfold png_predict. cbn [Z.eqb]. rewrite Z.sub_0_r, Z.add_0_l.
    rewrite fits_small by auto with fx. rewrite <-(Nat2Z.id i) at 2.
    symmetry. apply rd_lookup_lt. unfold zlen. lia.
  - rewrite lookup_seqZ_ge by (unfold zlen; lia). simpl. symmetry. apply lookup_ge_None. lia.
Qed.

(** The inner loop rebuilds the row: [pre] is what the buffer held before it. *)
Lemma png_loop tag bpp prev cur pre (step : Z → list Z → list Z) :
  bytes cur → 0 < bpp →
  (∀ k dest, (k < length cur)%nat → dest = pre ++ take k cur →
     step (Z.of_nat k) dest = dest ++ [u8 ((png_filter tag bpp prev cur).[Z.of_nat k] +
       png_predict tag (neighbour (bpp <=? Z.of_nat k) (take k cur) (Z.of_nat k - bpp))
         prev.[Z.of_nat k] (neighbour (bpp <=? Z.of_nat k) prev (Z.of_nat k - bpp)))]) →
  for_loop (length cur) step pre = pre ++ cur.
Proof.
  intros Hb Hbpp Hstep.
  enough (H : for_loop (length cur) step pre = pre ++ take (length cur) cur)
    by (rewrite H, take_ge; done).
  apply (for_loop_ind (λ k dest, dest = pre ++ take k cur)); [by rewrite take_0, app_nil_r|].
  intros k dest Hk ->. rewrite (Hstep k) by done. rewrite <-app_assoc. f_equal.
  rewrite take_S_rd by done. f_equal. f_equal.
  unfold png_filter. rewrite rd_map_seqZ by (unfold zlen; lia).
  assert (Hn : neighbour (bpp <=? Z.of_nat k) (take k cur) (Z.of_nat k - bpp) =
               neighbour (bpp <=? Z.of_nat k) cur (Z.of_nat k - bpp)).
  { unfold neighbour. destruct (Z.leb_spec bpp (Z.of_nat k)); [|done]. by rewrite rd_take by lia. }
  rewrite Hn. by apply png_unfilter.
Qed.

Lemma png_line_unfilter tag bpp prev cur :
  bytes cur → 0 < bpp →
  PNG_PredictLine (tag :: png_filter tag bpp prev cur) (Some prev) (zlen cur) bpp = cur.
Proof.
  intros Hb Hbpp. unfold PNG_PredictLine. rewrite rd_cons_0. unfold zlen at 1 2.
  rewrite Nat2Z.id. destruct (Z.eqb_spec tag 0) as [->|Hne].
  - cbn [drop]. rewrite drop_0, png_filter_0 by done. by rewrite take_ge.
  - apply (png_loop tag bpp prev cur [] _ Hb Hbpp). intros k dest Hk ->. cbn [app].
    f_equal. f_equal. rewrite rd_cons by lia. done.
Qed.

(** ** [PNG_Predictor] on a filtered image *)
Section image.
Context (row_size bpp : Z).
Hypothesis Hrs : 0 < row_size.
Hypothesis Hbpp : 0 < bpp.

(** An image is a list of filter types and rows. *)
Fixpoint png_encode (prev : list Z) (rows : list (Z * list Z)) : list Z :=
  match rows with
  | [] => []
  | (tag, cur) :: rest => tag :: png_filter tag bpp prev cur ++ png_encode cur rest
  end.

Definition zero_row : list Z := replicate (Z.to_nat row_size) 0.

(** What precedes row [k] in the output: nothing, or rows that end with
    [prev]. *)
Definition above (k : Z) (dest prev : list Z) : Prop :=
  zlen prev = row_size ∧
  ((k = 0 ∧ dest = [] ∧ prev = zero_row) ∨ (0 < k ∧ ∃ d, dest = d ++ prev)).

Lemma above_up k dest prev i m cur :
  above k dest prev → 0 <= i < row_size →
  neighbour (negb (k =? 0)) (dest ++ take m cur) (zlen dest + i - row_size) = prev.[i].
Proof.
  intros [Hp [(-> & -> & ->)|(Hk & d & ->)]] Hi.
  - unfold zero_row. by rewrite rd_replicate.
  - unfold neighbour. replace (k =? 0) with false by lia. cbn [negb].
    rewrite zlen_app, Hp. replace (zlen d + row_size + i - row_size) with (zlen d + i) by lia.
    rewrite <-app_assoc, rd_app_r by lia. apply rd_app_l. lia.
Qed.

Lemma above_upper_left k dest prev i m cur :
  above k dest prev → 0 <= i < row_size →
  neighbour ((bpp <=? i) && negb (k =? 0)) (dest ++ take m cur)
    (zlen dest + i - row_size - bpp) = neighbour (bpp <=? i) prev (i - bpp).
Proof.
  intros Ha Hi. destruct (Z.leb_spec bpp i); [|done]. cbn [andb].
  replace (zlen dest + i - row_size - bpp) with (zlen dest + (i - bpp) - row_size) by lia.
  by apply above_up; [|lia].
Qed.

(** One row of the decoder; only the last may be shorter. *)
Lemma png_row_unfilter A B tag cur prev dest k last :
  bytes cur → 0 <= k → zlen A = k * (row_size + 1) → above k dest prev →
  zlen cur <= row_size → (zlen cur < row_size → B = [] ∧ last = zlen cur + 1) →
  let data := A ++ (tag :: png_filter tag bpp prev cur) ++ B in
  png_row data row_size bpp last k (PngSt (zlen A) (zlen A) dest) =
    PngSt (zlen A + (if tag =? 0 then zlen cur else row_size) + 1) (zlen A + zlen cur + 1)
      (dest ++ cur).
Proof.
  intros Hb Hk HA Hab Hle Hlast data. unfold png_row.
  assert (Hlen : zlen data = zlen A + 1 + zlen cur + zlen B).
  { unfold data. rewrite !zlen_app, zlen_cons, zlen_filter. lia. }
  pose proof (zlen_nonneg B). pose proof (zlen_nonneg cur).
  assert (Htag : data.[zlen A] = tag).
  { unfold data. rewrite <-(Z.add_0_r (zlen A)), rd_app_r by lia. done. }
  rewrite Htag. destruct (Z.eqb_spec tag 0) as [->|Hne].
  - assert (Hm : (if zlen data <? (k + 1) * (row_size + 1) then last - 1 else row_size) = zlen cur).
    { destruct (Z.ltb_spec (zlen data) ((k + 1) * (row_size + 1))).
      - assert (Hc : zlen cur < row_size) by lia. destruct (Hlast Hc) as [_ ->]. lia.
      - destruct (decide (zlen cur < row_size)) as [Hc|Hc]; [|lia].
        destruct (Hlast Hc) as [-> _]. rewrite zlen_nil in *. lia. }
    rewrite Hm. cbn [Z.eqb]. f_equal; [lia|]. f_equal.
    unfold subspan, data. rewrite png_filter_0 by done.
    replace (Z.to_nat (zlen A + 1)) with (length A + 1)%nat by (unfold zlen; lia).
    rewrite drop_app_add. cbn [drop app]. unfold zlen. rewrite Nat2Z.id, drop_0.
    by rewrite take_app_length.
  - assert (Hn : Z.max 0 (Z.min row_size (zlen data - (zlen A + 1))) = zlen cur).
    { destruct (decide (zlen cur < row_size)) as [Hc|Hc]; [|lia].
      destruct (Hlast Hc) as [-> _]. rewrite zlen_nil in *. lia. }
    rewrite Hn. f_equal; [lia|]. unfold zlen at 1. rewrite Nat2Z.id.
    apply (png_loop tag bpp prev); [done|done|]. intros j d Hj ->. f_equal. f_equal.
    assert (Hjr : 0 <= Z.of_nat j < row_size) by (unfold zlen in *; lia).
    rewrite (above_up k dest prev), (above_upper_left k dest prev) by done.
    replace (data.[zlen A + (Z.of_nat j + 1)])
      with (png_filter tag bpp prev cur).[Z.of_nat j].
    + do 3 f_equal. unfold neighbour. destruct (Z.leb_spec bpp (Z.of_nat j)); [|done].
      replace (zlen dest + Z.of_nat j - bpp) with (zlen dest + (Z.of_nat j - bpp)) by lia.
      by rewrite rd_app_r by lia.
    + unfold data. rewrite rd_app_r by lia. rewrite rd_app_l.
      * by rewrite rd_cons by lia.
      * rewrite zlen_cons, zlen_filter. unfold zlen. lia.
Qed.

Lemma png_rows_unfilter rows last : ∀ A D prev tag cur k s0,
  Forall (λ r, bytes r.2 ∧ zlen r.2 = row_size) rows → bytes cur → zlen cur <= row_size →
  (zlen cur < row_size → last = zlen cur + 1) →
  zlen A = Z.of_nat k * (row_size + 1) → above (Z.of_nat k) D prev →
  let data := A ++ png_encode prev (rows ++ [(tag, cur)]) in
  for_loop k (png_row data row_size bpp last) s0 = PngSt (zlen A) (zlen A) D →
  png_dest (for_loop (k + S (length rows)) (png_row data row_size bpp last) s0) =
    D ++ concat (map snd rows) ++ cur.
Proof.
  induction rows as [|[t r] rows IH]; intros A D prev tag cur k s0 Hrows Hcur Hle Hlast HA Hab data Hk.
  - cbn [app map concat length]. rewrite Nat.add_1_r. cbn [for_loop]. rewrite Hk.
    unfold data. cbn [app png_encode]. rewrite app_comm_cons.
    rewrite (png_row_unfilter A [] tag cur prev D (Z.of_nat k) last); try done; [lia|].
    intros; split; [done|by apply Hlast].
  - inversion Hrows as [|? ? [Hr Hrl] Hrows']; subst. cbn [snd] in *. cbn [app map concat length].
    replace (k + S (S (length rows)))%nat with (S k + S (length rows))%nat by lia.
    assert (Hd : data = (A ++ t :: png_filter t bpp prev r) ++ png_encode r (rows ++ [(tag, cur)])).
    { unfold data. cbn [app png_encode]. by rewrite <-app_assoc. }
    rewrite Hd, <-(app_assoc r), (app_assoc D). apply (IH _ (D ++ r) r); try done.
    + rewrite zlen_app, zlen_cons, zlen_filter. lia.
    + split; [done|]. right. split; [lia|]. by exists D.
    + cbn [for_loop]. rewrite <-Hd, Hk. unfold data. cbn [app png_encode].
      rewrite app_comm_cons.
      rewrite (png_row_unfilter A (png_encode r (rows ++ [(tag, cur)])) t r prev D (Z.of_nat k) last);
        try done; try lia.
      rewrite zlen_app, zlen_cons, zlen_filter. f_equal; [case_match; lia|lia].
Qed.
End image.

Lemma zlen_encode rs bpp prev rows tag cur :
  Forall (λ r, bytes r.2 ∧ zlen r.2 = rs) rows →
  zlen (png_encode bpp prev (rows ++ [(tag, cur)])) = zlen rows * (rs + 1) + zlen cur + 1.
Proof.
  revert prev. induction rows as [|[t r] rows IH]; intros prev Hr; cbn [app png_encode].
  - rewrite zlen_cons, zlen_app, zlen_filter, (@zlen_nil Z), (@zlen_nil (Z * list Z)). lia.
  - inversion Hr as [|? ? [_ Hl] Hr']; subst. cbn [snd] in *.
    rewrite !zlen_cons, zlen_app, zlen_filter, IH by done. lia.
Qed.

(** The PNG predictors undo the filters of the PNG specification.  A single
    line, with the previous one given; and a whole image, the last row of which
    may be cut short: the rows come back concatenated, whatever filter type
    each of them has. *)
Theorem png_unfilter_image Colors bpc Columns rows tag cur :
  let rs := (Colors * bpc * Columns + 7) / 8 in
  let bpp := (Colors * bpc + 7) / 8 in
  0 < rs → 0 < bpp →
  Forall (λ r, bytes r.2 ∧ zlen r.2 = rs) rows → bytes cur → zlen cur <= rs →
  PNG_Predictor Colors bpc Columns (png_encode bpp (zero_row rs) (rows ++ [(tag, cur)])) =
    Some (concat (map snd rows) ++ cur) ∧
  ∀ prev, PNG_PredictLine (tag :: png_filter tag bpp prev cur) (Some prev) (zlen cur) bpp = cur.
Proof.
  intros rs bpp Hrs Hbpp Hrows Hcur Hle. split; [|intros; by apply png_line_unfilter].
  unfold PNG_Predictor. fold rs bpp. replace (rs <=? 0) with false by lia.
  set (data := png_encode bpp (zero_row rs) (rows ++ [(tag, cur)])).
  assert (Hlen : zlen data = zlen rows * (rs + 1) + zlen cur + 1) by (by apply zlen_encode).
  pose proof (zlen_nonneg rows). pose proof (zlen_nonneg cur).
  assert (Hcount : (zlen data + rs) / (rs + 1) = zlen rows + 1).
  { rewrite Hlen. symmetry. apply (Z.div_unique _ _ _ (zlen cur)); lia. }
  rewrite Hcount. replace (zlen rows + 1 <=? 0) with false by lia.
  assert (Hmod : zlen data mod (rs + 1) = if zlen cur <? rs then zlen cur + 1 else 0).
  { rewrite Hlen. destruct (Z.ltb_spec (zlen cur) rs).
    - symmetry. apply (Z.mod_unique _ _ (zlen rows)); lia.
    - symmetry. apply (Z.mod_unique _ _ (zlen rows + 1)); lia. }
  rewrite Hmod. replace (Z.to_nat (zlen rows + 1)) with (0 + S (length rows))%nat
    by (unfold zlen; lia).
  rewrite (png_rows_unfilter rs bpp Hrs Hbpp rows _ [] [] (zero_row rs) tag cur 0); try done.
  - cbn [app]. f_equal.
    assert (Hc : zlen (concat (map snd rows)) = zlen rows * rs).
    { clear -Hrows. induction Hrows as [|[t r] rows [_ Hr] _ IH]; [done|]. cbn [map concat snd] in *.
      rewrite zlen_app, zlen_cons, IH. lia. }
    apply take_app_length'. apply Nat2Z.inj. unfold zlen in *. rewrite length_app, Z2Nat.id.
    + destruct (Z.ltb_spec (Z.of_nat (length cur)) rs); case_match; lia.
    + destruct (Z.ltb_spec (Z.of_nat (length cur)) rs); case_match; nia.
  - intros Hlt. replace (zlen cur <? rs) with true by lia. done.
  - split; [unfold zlen, zero_row; rewrite length_replicate; lia|]. by left.
Qed.

Lemma png_unfilter_image_witness :
  PNG_Predictor 1 8 3 [4; 10; 246; 20; 2; 1; 1] = Some [10; 0; 20; 11; 1] ∧ True.
Proof.
  split; [|done].
  exact (proj1 (png_unfilter_image 1 8 3 [(4, [10; 0; 20])] 2 [11; 1]
    ltac:(reflexivity) ltac:(reflexivity)
    ltac:(apply List.Forall_cons; [split; [solve_bytes|reflexivity]|apply List.Forall_nil])
    ltac:(solve_bytes) ltac:(vm_compute; discriminate))).
Defined.

(** ** TIFF predictor 2 *)
Lemma rd_ext (l k : list Z) :
  length l = length k → (∀ i, 0 <= i < zlen l → l.[i] = k.[i]) → l = k.
Proof.
  intros Hl H. apply list_eq. intros i. destruct (decide (i < length l)%nat) as [Hi|Hi].
  - rewrite <-(Nat2Z.id i), !rd_lookup_lt by (unfold zlen; lia).
    rewrite H by (unfold zlen; lia). done.
  - rewrite !lookup_ge_None_2 by lia. done.
Qed.

(** Horizontal differencing of bytes. *)
Definition tiff_diff8 (bpp : Z) (cur : list Z) : list Z :=
  map (λ i, if i <? bpp then cur.[i] else u8 (cur.[i] - cur.[i - bpp])) (seqZ 0 (zlen cur)).

Lemma tiff_bytes_undo bpp cur :
  bytes cur → 0 < bpp → tiff_bytes (zlen cur) bpp (tiff_diff8 bpp cur) = cur.
Proof.
  intros Hb Hbpp. unfold tiff_bytes. set (d := tiff_diff8 bpp cur).
  assert (Hdl : length d = length cur)
    by (unfold d, tiff_diff8, zlen; rewrite length_map, length_seqZ; lia).
  assert (Hd : ∀ i, 0 <= i < zlen cur →
    d.[i] = if i <? bpp then cur.[i] else u8 (cur.[i] - cur.[i - bpp])).
  { intros i Hi. unfold d, tiff_diff8. by rewrite rd_map_seqZ. }
  set (n := Z.to_nat (zlen cur - bpp)).
  match goal with |- for_loop _ ?f _ = _ => set (step := f) end.
  assert (H : ∀ m, (m <= n)%nat → let buf := for_loop m step d in
    length buf = length cur ∧
    ∀ i, 0 <= i < zlen cur → buf.[i] = if i <? bpp + Z.of_nat m then cur.[i] else d.[i]).
  { induction m as [|m IH]; intros Hm; cbn [for_loop].
    - split; [done|]. intros i Hi. rewrite Hd by done. by destruct (i <? bpp + Z.of_nat 0) eqn:E;
        [replace (i <? bpp) with true by lia|].
    - destruct IH as [Hl Hr]; [lia|]. set (buf := for_loop m step d) in *. unfold step.
      cbv zeta. rewrite length_wr. split; [done|]. intros i Hi.
      assert (Hzl : zlen buf = zlen cur) by (unfold zlen; by rewrite Hl).
      destruct (Z.eq_dec i (bpp + Z.of_nat m)) as [->|Hne].
      + rewrite rd_wr_eq by lia.
        replace (bpp + Z.of_nat m <? bpp + Z.of_nat (S m)) with true by lia.
        rewrite !Hr by lia.
        replace (bpp + Z.of_nat m <? bpp + Z.of_nat m) with false by lia.
        replace (bpp + Z.of_nat m - bpp <? bpp + Z.of_nat m) with true by lia.
        rewrite Hd by lia. replace (bpp + Z.of_nat m <? bpp) with false by lia.
        by apply png_unfilter.
      + rewrite rd_wr_ne, Hr by lia.
        by replace (i <? bpp + Z.of_nat (S m)) with (i <? bpp + Z.of_nat m) by lia. }
  destruct (H n (le_n n)) as [Hl Hr]. apply rd_ext; [done|]. intros i Hi.
  unfold zlen in Hi. rewrite Hl in Hi. rewrite Hr by done.
  replace (i <? bpp + Z.of_nat n) with true by (unfold n, zlen in *; lia). done.
Qed.

(** Sixteen-bit components, most significant byte first. *)
Definition w16 (l : list Z) (i : Z) : Z := (l.[i] .<< 8) .| l.[i + 1].
Definition half (w k : Z) : Z := if k =? 0 then w .>> 8 else u8 w.
Definition tiff_diff16 (bpp : Z) (cur : list Z) : list Z :=
  map (λ i, if i <? bpp then cur.[i]
            else let j := i - i mod 2 in half (u16 (w16 cur j - w16 cur (j - bpp))) (i mod 2))
    (seqZ 0 (zlen cur)).

Lemma w16_sum l i : bytes l → w16 l i = l.[i] * 256 + l.[i + 1].
Proof.
  intros Hb. unfold w16. rewrite Z.lor_comm, lor_shiftl_add by auto with fx. lia.
Qed.

Lemma half_sum w : fits 16 w → half w 0 * 256 + half w 1 = w.
Proof.
  unfold half, fits. cbn [Z.eqb]. intros. rewrite Z.shiftr_div_pow2 by lia.
  Z.div_mod_to_equations. lia.
Qed.

Lemma half_byte w k : fits 16 w → byte (half w k).
Proof.
  unfold half, fits. intros. case_match; [|Z.div_mod_to_equations; lia].
  rewrite Z.shiftr_div_pow2 by lia. Z.div_mod_to_equations. lia.
Qed.

Lemma half_of a b : byte a → byte b → half (a * 256 + b) 0 = a ∧ half (a * 256 + b) 1 = b.
Proof.
  unfold half, fits. cbn [Z.eqb]. intros. rewrite Z.shiftr_div_pow2 by lia.
  Z.div_mod_to_equations. lia.
Qed.

Lemma tiff_words_undo bpp cur :
  bytes cur → 0 < bpp → bpp mod 2 = 0 → zlen cur mod 2 = 0 →
  tiff_words (zlen cur) bpp (tiff_diff16 bpp cur) = cur.
Proof.
  intros Hb Hbpp Hb2 Hc2. unfold tiff_words. set (d := tiff_diff16 bpp cur).
  assert (Hdl : length d = length cur)
    by (unfold d, tiff_diff16, zlen; rewrite length_map, length_seqZ; lia).
  assert (Hd : ∀ i, 0 <= i < zlen cur → d.[i] = if i <? bpp then cur.[i]
    else half (u16 (w16 cur (i - i mod 2) - w16 cur (i - i mod 2 - bpp))) (i mod 2)).
  { intros i Hi. unfold d, tiff_diff16. by rewrite rd_map_seqZ. }
  set (n := Z.to_nat ((zlen cur - bpp) / 2)).
  match goal with |- for_loop _ ?f _ = _ => set (step := f) end.
  assert (H : ∀ m, (m <= n)%nat → let buf := for_loop m step d in
    length buf = length cur ∧
    ∀ i, 0 <= i < zlen cur → buf.[i] = if i <? bpp + 2 * Z.of_nat m then cur.[i] else d.[i]).
  { induction m as [|m IH]; intros Hm; cbn [for_loop].
    - split; [done|]. intros i Hi. rewrite Hd by done. by destruct (i <? bpp + 2 * Z.of_nat 0) eqn:E;
        [replace (i <? bpp) with true by lia|].
    - destruct IH as [Hl Hr]; [lia|]. set (buf := for_loop m step d) in *. unfold step. cbv zeta.
      set (i0 := bpp + 2 * Z.of_nat m) in *.
      assert (Hm2 : i0 + 1 < zlen cur).
      { unfold n in Hm. assert (Z.of_nat m < (zlen cur - bpp) / 2) by lia.
        unfold i0. Z.div_mod_to_equations. lia. }
      assert (Hzl : zlen buf = zlen cur) by (unfold zlen; by rewrite Hl).
      assert (Hpix : u16 (((buf.[i0 - bpp] .<< 8) .| buf.[i0 - bpp + 1]) +
                ((buf.[i0] .<< 8) .| buf.[i0 + 1])) = cur.[i0] * 256 + cur.[i0 + 1]).
      { rewrite !Hr by lia.
        replace (i0 - bpp <? i0) with true by lia. replace (i0 - bpp + 1 <? i0) with true
          by (unfold i0; Z.div_mod_to_equations; lia).
        replace (i0 <? i0) with false by lia. replace (i0 + 1 <? i0) with false by lia.
        rewrite !Hd by lia. replace (i0 <? bpp) with false by lia.
        replace (i0 + 1 <? bpp) with false by lia.
        assert (E0 : i0 mod 2 = 0) by (unfold i0; Z.div_mod_to_equations; lia).
        assert (E1 : (i0 + 1) mod 2 = 1) by (unfold i0; Z.div_mod_to_equations; lia).
        rewrite E0, E1, Z.sub_0_r. replace (i0 + 1 - 1) with i0 by lia.
        set (w := u16 (w16 cur i0 - w16 cur (i0 - bpp))).
        assert (Hw : fits 16 w) by (apply fits_mod; lia).
        fold (w16 cur (i0 - bpp)).
        rewrite (Z.lor_comm (half w 0 .<< 8)), lor_shiftl_add by (try lia; by apply half_byte).
        change (2 ^ 8) with 256. rewrite (Z.add_comm (half w 1)), half_sum by done.
        unfold w. rewrite Zplus_mod_idemp_r.
        replace (w16 cur (i0 - bpp) + (w16 cur i0 - w16 cur (i0 - bpp))) with (w16 cur i0) by lia.
        rewrite w16_sum by done. apply Z.mod_small.
        pose proof (bytes_rd cur i0 Hb). pose proof (bytes_rd cur (i0 + 1) Hb). unfold fits in *. lia. }
      rewrite Hpix. destruct (half_of cur.[i0] cur.[i0 + 1] ltac:(auto with fx) ltac:(auto with fx))
        as [Eh El]. unfold half in Eh, El. cbn [Z.eqb] in Eh, El. rewrite Eh, El.
      rewrite !length_wr. split; [done|]. intros i Hi.
      assert (Hlt : (i <? bpp + 2 * Z.of_nat (S m)) = (i <? i0) || (i =? i0) || (i =? i0 + 1))
        by (unfold i0; lia). rewrite Hlt.
      destruct (Z.eq_dec i (i0 + 1)) as [->|Hne1].
      + rewrite rd_wr_eq by (unfold zlen in *; rewrite length_wr; lia).
        by replace (_ || _) with true by lia.
      + rewrite rd_wr_ne by lia. destruct (Z.eq_dec i i0) as [->|Hne0].
        * rewrite rd_wr_eq by lia. by replace (_ || _) with true by lia.
        * rewrite rd_wr_ne, Hr by lia. by replace ((i <? i0) || _ || _) with (i <? i0) by lia. }
  destruct (H n (le_n n)) as [Hl Hr]. apply rd_ext; [done|]. intros i Hi.
  unfold zlen in Hi. rewrite Hl in Hi. rewrite Hr by done.
  replace (i <? bpp + 2 * Z.of_nat n) with true; [done|].
  unfold n, zlen in *. symmetry. apply Z.ltb_lt. Z.div_mod_to_equations. lia.
Qed.

(** With eight or sixteen bits per component [TIFF_PredictLine] undoes the
    horizontal differencing of the TIFF specification.  With two or four bits and
    less than a byte per pixel it does not: [BytesPerPixel] is 0 and every byte
    is added to itself. *)
Theorem tiff_unpredict cur Colors Columns :
  bytes cur → 0 < Colors →
  TIFF_PredictLine (tiff_diff8 Colors cur) (zlen cur) 8 Colors Columns = cur ∧
  (zlen cur mod 2 = 0 →
   TIFF_PredictLine (tiff_diff16 (2 * Colors) cur) (zlen cur) 16 Colors Columns = cur) ∧
  TIFF_PredictLine [0x12; 0x34] 2 4 1 4 = [0x24; 0x68].
Proof.
  intros Hb Hc. unfold TIFF_PredictLine. split_and!.
  - cbn [Z.eqb Pos.eqb]. rewrite (Z.mul_comm 8), Z.div_mul by lia. by apply tiff_bytes_undo.
  - intros H2. cbn [Z.eqb Pos.eqb]. replace (16 * Colors / 8) with (2 * Colors)
      by (Z.div_mod_to_equations; lia).
    apply tiff_words_undo; [done|lia| |done]. rewrite Z.mul_comm. apply Z.mod_mul. lia.
  - reflexivity.
Qed.

Lemma tiff_unpredict_witness :
  TIFF_PredictLine [10; 20; 1; 255] 4 8 2 2 = [10; 20; 11; 19] ∧ True.
Proof.
  split; [|done].
  exact (proj1 (tiff_unpredict [10; 20; 11; 19] 2 2 ltac:(solve_bytes) ltac:(lia))).
Defined.
