(* ===== verification/Lzw.v ===== *)
(** * LZW

    [CLZWDecoder] of [core/fxcodec/flate/flatemodule.cpp]: the bit reader, the
    code table with its parent links, the bounded decode stack and the growing
    output buffer, against a dictionary of strings. *)
From S2P Require Import Prelude Words.

(** The members.  [lzw_codes] is [codes_[0 .. current_code_)] and [lzw_dest] is
    [dest_buf_[0 .. dest_byte_pos_)]; [lzw_old] and [lzw_last] are the local
    variables [old_code] and [last_char] of [Decode]. *)
Record lzw := Lzw {
  lzw_bit_pos : Z;
  lzw_code_len : Z;
  lzw_codes : list Z;
  lzw_dest : list Z;
  lzw_buf_size : Z;
  lzw_old : Z;
  lzw_last : Z;
}.

Definition kNoCode : Z := 0xFFFFFFFF.
Definition kStackSize : nat := 4000.

(** ** Operations *)

(** The next [code_len] bits; [bit_pos] is [src_bit_pos_]. *)
Definition read_code (src : list Z) (src_bit_pos code_len : Z) : Z :=
  let byte_pos := src_bit_pos / 8 in
  let bit_pos := src_bit_pos mod 8 in
  let '(byte_pos, bit_left, code) :=
    if negb (bit_pos =? 0) then
      let bit_left := code_len - (8 - bit_pos) in
      (byte_pos + 1, bit_left,
       (src.[byte_pos] .& ((1 .<< (8 - bit_pos)) - 1)) .<< bit_left)
    else (byte_pos, code_len, 0) in
  if bit_left <? 8 then code .| (src.[byte_pos] .>> (8 - bit_left))
  else
    let bit_left := bit_left - 8 in
    let code := code .| (src.[byte_pos] .<< bit_left) in
    let byte_pos := byte_pos + 1 in
    if negb (bit_left =? 0) then code .| (src.[byte_pos] .>> (8 - bit_left)) else code.

Definition AddCode (early : Z) (codes : list Z) (code_len prefix append_char : Z) :
    list Z * Z :=
  if zlen codes + early =? 4094 then (codes, code_len)
  else
    let codes := codes ++ [u32 (prefix .<< 16) .| append_char] in
    let n := zlen codes + early in
    (codes, if n =? 512 - 258 then 10 else if n =? 1024 - 258 then 11
            else if n =? 2048 - 258 then 12 else code_len).

(** [decode_stack_], the top first, so that it reads as the string. *)
Fixpoint DecodeString (fuel : nat) (codes : list Z) (code : Z) (stack : list Z) : list Z :=
  match fuel with
  | O => stack
  | S fuel' =>
      let index := code - 258 in
      if (index <? 0) || (zlen codes <=? index) then
        if (kStackSize <=? length stack)%nat then stack else u8 code :: stack
      else
        let data := codes.[index] in
        if (kStackSize <=? length stack)%nat then stack
        else DecodeString fuel' codes (data .>> 16) (u8 data :: stack)
  end.

(** [None] when the size overflows and the buffer is dropped. *)
Definition ExpandDestBuf (size additional : Z) : option Z :=
  let new := Z.max (size / 2) additional + size in
  if new <? 2 ^ 32 then Some new else None.

Inductive lzw_result := LzwMore (s : lzw) | LzwEnd (s : lzw) | LzwFail.

(** A code below 256. *)
Definition lzw_literal (early code : Z) (s : lzw) : lzw_result :=
  let pos := zlen (lzw_dest s) in
  match (if lzw_buf_size s <=? pos then ExpandDestBuf (lzw_buf_size s) (pos - lzw_buf_size s + 1)
         else Some (lzw_buf_size s)) with
  | None => LzwFail
  | Some size =>
      let '(codes, len) :=
        if negb (lzw_old s =? kNoCode)
        then AddCode early (lzw_codes s) (lzw_code_len s) (lzw_old s) (u8 code)
        else (lzw_codes s, lzw_code_len s) in
      LzwMore (Lzw (lzw_bit_pos s) len codes (lzw_dest s ++ [u8 code]) size code (u8 code))
  end.

(** A code of 258 or more. *)
Definition lzw_string (early code : Z) (s : lzw) : lzw_result :=
  if lzw_old s =? kNoCode then LzwFail
  else
    let stack :=
      if zlen (lzw_codes s) <=? code - 258
      then DecodeString (S kStackSize) (lzw_codes s) (lzw_old s) [lzw_last s]
      else DecodeString (S kStackSize) (lzw_codes s) code [] in
    let required := zlen (lzw_dest s) + zlen stack in
    if 2 ^ 32 <=? required then LzwFail
    else
      match (if lzw_buf_size s <? required
             then ExpandDestBuf (lzw_buf_size s) (required - lzw_buf_size s)
             else Some (lzw_buf_size s)) with
      | None => LzwFail
      | Some size =>
          let dest := lzw_dest s ++ stack in
          let last := stack.[0] in
          if (258 <=? lzw_old s) && (zlen (lzw_codes s) <=? lzw_old s - 258)
          then LzwEnd (Lzw (lzw_bit_pos s) (lzw_code_len s) (lzw_codes s) dest size
                         (lzw_old s) last)
          else
            let '(codes, len) := AddCode early (lzw_codes s) (lzw_code_len s) (lzw_old s) last in
            LzwMore (Lzw (lzw_bit_pos s) len codes dest size code last)
      end.

(** One iteration of the loop of [Decode]. *)
Definition lzw_step (src : list Z) (early : Z) (s : lzw) : lzw_result :=
  if zlen src * 8 <? u32 (lzw_bit_pos s + lzw_code_len s) then LzwEnd s
  else
    let code := read_code src (lzw_bit_pos s) (lzw_code_len s) in
    let s := Lzw (u32 (lzw_bit_pos s + lzw_code_len s)) (lzw_code_len s) (lzw_codes s)
               (lzw_dest s) (lzw_buf_size s) (lzw_old s) (lzw_last s) in
    if code <? 256 then lzw_literal early code s
    else if code =? 256 then
      LzwMore (Lzw (lzw_bit_pos s) 9 [] (lzw_dest s) (lzw_buf_size s) kNoCode (lzw_last s))
    else if code =? 257 then LzwEnd s
    else lzw_string early code s.

(** The loop; [None] when the fuel runs out. *)
Fixpoint lzw_loop (fuel : nat) (src : list Z) (early : Z) (s : lzw) : option (option lzw) :=
  match fuel with
  | O => None
  | S fuel' =>
      match lzw_step src early s with
      | LzwMore s' => lzw_loop fuel' src early s'
      | LzwEnd s' => Some (Some s')
      | LzwFail => Some None
      end
  end.

Definition lzw_start : lzw := Lzw 0 9 [] [] 512 kNoCode 0.

(** [Decode], [GetSrcSize] and the destination; [Some None] is [false]. *)
Definition Decode (fuel : nat) (src : list Z) (early_change : bool) :
    option (option (Z * list Z)) :=
  match lzw_loop fuel src (Z.b2z early_change) lzw_start with
  | None => None
  | Some None => Some None
  | Some (Some s) =>
      Some (if zlen (lzw_dest s) =? 0 then None
            else Some ((lzw_bit_pos s + 7) / 8, lzw_dest s))
  end.

Definition lzw_fuel (src : list Z) : nat := S (8 * length src).

Example lzw_pdf_spec :
  (* the example of the PDF reference: 45 45 45 45 45 65 45 45 45 66 *)
  Decode 100 [0x80; 0x0B; 0x60; 0x50; 0x22; 0x0C; 0x0C; 0x85; 0x01] true =
    Some (Some (9, [45; 45; 45; 45; 45; 65; 45; 45; 45; 66])).
Proof. vm_compute. reflexivity. Qed.

(** ** The bit reader *)

(** Bit [j] of the source, most significant bit of each byte first. *)
Definition src_bit (src : list Z) (j : Z) : bool := Z.testbit src.[j / 8] (7 - j mod 8).

Lemma byte_high_bit l i k : bytes l → 8 <= k → Z.testbit l.[i] k = false.
Proof.
  intros Hb Hk. pose proof (bytes_rd l i Hb) as H. apply fits_testbit in H as [_ H]; [|lia].
  by apply H.
Qed.

Lemma testbit_mask x n k : 0 <= n → 0 <= k →
  Z.testbit (x .& ((1 .<< n) - 1)) k = Z.testbit x k && (k <? n).
Proof.
  intros Hn Hk. rewrite Z.shiftl_1_l. replace (2 ^ n - 1) with (Z.ones n) by (rewrite Z.ones_equiv; lia).
  rewrite Z.land_spec, Z.testbit_ones_nonneg by lia. done.
Qed.

Lemma bit_shl x s k : 0 <= s → 0 <= k →
  Z.testbit (x .<< s) k = (s <=? k) && Z.testbit x (k - s).
Proof.
  intros Hs Hk. rewrite Z.shiftl_spec by done. destruct (Z.leb_spec s k); [done|].
  by rewrite Z.testbit_neg_r by lia.
Qed.

Lemma bit_shl_mask x n s k : 0 <= n → 0 <= s → 0 <= k →
  Z.testbit ((x .& ((1 .<< n) - 1)) .<< s) k = (s <=? k) && (k - s <? n) && Z.testbit x (k - s).
Proof.
  intros Hn Hs Hk. rewrite bit_shl by done. destruct (Z.leb_spec s k); [|done].
  rewrite testbit_mask by lia. cbn [andb]. apply andb_comm.
Qed.

Lemma bit_shr_byte l i s k : bytes l → 0 <= s → 0 <= k →
  Z.testbit (l.[i] .>> s) k = (k + s <? 8) && Z.testbit l.[i] (k + s).
Proof.
  intros Hb Hs Hk. rewrite Z.shiftr_spec by done. destruct (Z.ltb_spec (k + s) 8); [done|].
  by rewrite byte_high_bit by (done || lia).
Qed.

Lemma bit_shl_byte l i s k : bytes l → 0 <= s → 0 <= k →
  Z.testbit (l.[i] .<< s) k = (s <=? k) && (k - s <? 8) && Z.testbit l.[i] (k - s).
Proof.
  intros Hb Hs Hk. rewrite bit_shl by done. destruct (Z.ltb_spec (k - s) 8); [by rewrite andb_true_r|].
  rewrite byte_high_bit by (done || lia). by rewrite !andb_false_r.
Qed.

(** Decides the range tests of the pieces and compares the one bit left. *)
Ltac code_bits Hb :=
  rewrite ?Z.lor_spec, ?bit_shl_mask, ?bit_shl_byte, ?bit_shr_byte, ?Z.bits_0 by (done || lia);
  repeat match goal with
  | |- context [?a <=? ?b] => first [replace (a <=? b) with true by lia | replace (a <=? b) with false by lia]
  | |- context [?a <? ?b] => first [replace (a <? b) with true by lia | replace (a <? b) with false by lia]
  end;
  cbn [andb orb]; rewrite ?orb_false_r; do 2 (f_equal; try lia).

Lemma src_bit_at src q p i :
  0 <= p < 8 → 0 <= i → 0 <= q →
  src_bit src (8 * q + p + i) = Z.testbit src.[q + (p + i) / 8] (7 - (p + i) mod 8).
Proof.
  intros Hp Hi Hq. unfold src_bit.
  replace ((8 * q + p + i) / 8) with (q + (p + i) / 8) by (Z.div_mod_to_equations; lia).
  by replace ((8 * q + p + i) mod 8) with ((p + i) mod 8) by (Z.div_mod_to_equations; lia).
Qed.

Lemma read_code_bit src pos len i :
  bytes src → 0 <= pos → 9 <= len <= 12 → 0 <= i < len →
  Z.testbit (read_code src pos len) (len - 1 - i) = src_bit src (pos + i).
Proof.
  intros Hb Hpos Hlen Hi. unfold read_code.
  pose proof (Z.div_mod pos 8 ltac:(lia)) as E. pose proof (Z.mod_pos_bound pos 8 ltac:(lia)) as Hp.
  set (q := pos / 8) in *. set (p := pos mod 8) in *. assert (Hq : 0 <= q) by lia.
  rewrite E, src_bit_at by lia. set (k := len - 1 - i).
  assert (Hk : 0 <= k) by lia. clearbody q p. clear E pos Hpos.
  (* where bit [i] lies *)
  assert (Hcase : p + i < 8 ∧ (p + i) / 8 = 0 ∧ (p + i) mod 8 = p + i ∨
    8 <= p + i < 16 ∧ (p + i) / 8 = 1 ∧ (p + i) mod 8 = p + i - 8 ∨
    16 <= p + i < 24 ∧ (p + i) / 8 = 2 ∧ (p + i) mod 8 = p + i - 16)
    by (Z.div_mod_to_equations; lia).
  destruct (Z.eqb_spec p 0) as [Hp0|Hp0]; cbn [negb].
  - destruct (Z.ltb_spec len 8); [lia|]. destruct (Z.eqb_spec (len - 8) 0); [lia|]. cbn [negb].
    destruct Hcase as [(Hc & -> & ->)|[(Hc & -> & ->)|(Hc & -> & ->)]]; unfold k; code_bits Hb.
  - destruct (Z.ltb_spec (len - (8 - p)) 8).
    + destruct Hcase as [(Hc & -> & ->)|[(Hc & -> & ->)|(Hc & -> & ->)]]; unfold k; code_bits Hb.
    + destruct (Z.eqb_spec (len - (8 - p) - 8) 0); cbn [negb];
      destruct Hcase as [(Hc & -> & ->)|[(Hc & -> & ->)|(Hc & -> & ->)]]; unfold k; code_bits Hb.
Qed.

Lemma read_code_fits src pos len :
  bytes src → 0 <= pos → 9 <= len <= 12 → fits len (read_code src pos len).
Proof.
  intros Hb Hpos Hlen. unfold read_code.
  pose proof (Z.mod_pos_bound pos 8 ltac:(lia)) as Hp.
  set (q := pos / 8) in *. set (p := pos mod 8) in *. clearbody q p.
  assert (Hr : ∀ i, 0 <= src.[i]) by (intros i; eapply fits_nonneg; by apply bytes_rd).
  assert (Hm : 0 <= (1 .<< (8 - p)) - 1) by (rewrite Z.shiftl_1_l; lia).
  apply fits_testbit; [lia|]. destruct (Z.eqb_spec p 0) as [Hp0|Hp0]; cbn [negb].
  - destruct (Z.ltb_spec len 8); [lia|]. destruct (Z.eqb_spec (len - 8) 0); [lia|]. cbn [negb].
    split; [rewrite !Z.lor_nonneg, Z.shiftl_nonneg, Z.shiftr_nonneg; auto with lia|].
    intros k Hk. code_bits Hb.
  - destruct (Z.ltb_spec (len - (8 - p)) 8).
    + split; [rewrite !Z.lor_nonneg, Z.shiftl_nonneg, Z.shiftr_nonneg, Z.land_nonneg; auto with lia|].
      intros k Hk. code_bits Hb.
    + destruct (Z.eqb_spec (len - (8 - p) - 8) 0); cbn [negb]; (split;
        [rewrite !Z.lor_nonneg, !Z.shiftl_nonneg, ?Z.shiftr_nonneg, Z.land_nonneg; auto with lia|]);
      intros k Hk; code_bits Hb.
Qed.

(** ** Safety and termination

    [e] is [early_change_]. *)
Section safety.
Context (src : list Z) (e : Z).
Hypothesis Hb : bytes src.
Hypothesis Hsz : zlen src < 2 ^ 28.
Hypothesis He : e = 0 ∨ e = 1.

Record lzw_ok (s : lzw) : Prop := {
  ok_pos : 0 <= lzw_bit_pos s <= zlen src * 8;
  ok_len : 9 <= lzw_code_len s <= 12;
  ok_table : zlen (lzw_codes s) + e <= 4094;
  ok_codes : Forall (fits 32) (lzw_codes s);
  ok_dest : zlen (lzw_dest s) <= lzw_buf_size s < 2 ^ 32;
  ok_bytes : bytes (lzw_dest s);
  ok_old : lzw_old s = kNoCode ∨ 0 <= lzw_old s < 4096;
  ok_last : byte (lzw_last s);
}.

Lemma AddCode_ok codes len prefix ch :
  zlen codes + e <= 4094 → Forall (fits 32) codes → 9 <= len <= 12 → byte ch →
  let '(codes', len') := AddCode e codes len prefix ch in
  zlen codes' + e <= 4094 ∧ Forall (fits 32) codes' ∧ 9 <= len' <= 12.
Proof.
  intros Hn Hc Hl Hch. unfold AddCode. destruct (Z.eqb_spec (zlen codes + e) 4094); [done|].
  rewrite zlen_app. change (zlen [_]) with 1. split_and!; [lia| |repeat case_match; lia..].
  apply Forall_app; split; [done|]. constructor; [|constructor].
  apply fits_lor; [lia|auto with fx|]. eapply fits_mono; [|done]. lia.
Qed.

(** The stack never grows past its array, and something is always pushed on a
    stack that is not full. *)
Lemma DecodeString_stack fuel codes code stack :
  Forall (fits 32) codes → bytes stack → (length stack <= kStackSize)%nat →
  (kStackSize < fuel + length stack)%nat →
  let st := DecodeString fuel codes code stack in
  bytes st ∧ (length st <= kStackSize)%nat ∧ (1 <= length st)%nat.
Proof.
  intros Hc. revert code stack. induction fuel as [|fuel IH]; intros code stack Hs Hl Hf; [lia|].
  cbn [DecodeString]. destruct ((code - 258 <? 0) || (zlen codes <=? code - 258)).
  - destruct (Nat.leb_spec kStackSize (length stack)).
    + split_and!; [done|lia|unfold kStackSize in *; lia].
    + split_and!; [constructor; [auto with fx|done]|simpl; lia|simpl; lia].
  - destruct (Nat.leb_spec kStackSize (length stack)).
    + split_and!; [done|lia|unfold kStackSize in *; lia].
    + apply IH; [constructor; [auto with fx|done]|simpl; lia|simpl; lia].
Qed.

Lemma ExpandDestBuf_spec size extra size' :
  0 <= size → 0 <= extra → ExpandDestBuf size extra = Some size' →
  size + extra <= size' < 2 ^ 32.
Proof.
  unfold ExpandDestBuf. intros H0 H1. destruct (Z.ltb_spec (Z.max (size / 2) extra + size) (2 ^ 32));
    [|done]. intros E. injection E as <-. lia.
Qed.

Definition result_ok (pos : Z) (r : lzw_result) : Prop :=
  match r with
  | LzwMore s => lzw_ok s ∧ pos < lzw_bit_pos s
  | LzwEnd s => lzw_ok s
  | LzwFail => True
  end.

Lemma lzw_literal_ok code s :
  lzw_ok s → 0 <= code < 256 → ∀ pos, pos < lzw_bit_pos s → result_ok pos (lzw_literal e code s).
Proof.
  intros Hs Hcode pos Hpos. destruct Hs. unfold lzw_literal. pose proof (zlen_nonneg (lzw_dest s)).
  destruct (if lzw_buf_size s <=? _ then _ else _) as [size|] eqn:Es; [|done].
  assert (Hsize : zlen (lzw_dest s) + 1 <= size < 2 ^ 32).
  { destruct (Z.leb_spec (lzw_buf_size s) (zlen (lzw_dest s))).
    - apply ExpandDestBuf_spec in Es; lia.
    - injection Es as <-. lia. }
  assert (Hadd : let '(codes, len) :=
    if negb (lzw_old s =? kNoCode)
    then AddCode e (lzw_codes s) (lzw_code_len s) (lzw_old s) (u8 code)
    else (lzw_codes s, lzw_code_len s) in
    zlen codes + e <= 4094 ∧ Forall (fits 32) codes ∧ 9 <= len <= 12).
  { destruct (negb _); [|done]. apply AddCode_ok; auto with fx. }
  destruct (if negb _ then _ else _) as [codes len]. destruct Hadd as (H1 & H2 & H3).
  split; [|done]. split; cbn; try done; try lia.
  - rewrite zlen_app. change (zlen [_]) with 1. lia.
  - apply Forall_app; split; [done|]. solve_bytes.
  - apply fits_mod. lia.
Qed.

Lemma lzw_string_ok code s :
  lzw_ok s → 258 <= code < 4096 → ∀ pos, pos < lzw_bit_pos s → result_ok pos (lzw_string e code s).
Proof.
  intros Hs Hcode pos Hpos. destruct Hs. unfold lzw_string.
  destruct (Z.eqb_spec (lzw_old s) kNoCode); [done|].
  destruct ok_old0 as [?|Hold]; [done|].
  set (stack := if zlen (lzw_codes s) <=? code - 258 then _ else _).
  assert (Hst : bytes stack ∧ (length stack <= kStackSize)%nat ∧ (1 <= length stack)%nat).
  { unfold stack. case_match; apply DecodeString_stack; try done;
      unfold kStackSize; simpl length; try lia; solve_bytes. }
  destruct Hst as (Hb1 & Hb2 & Hb3). pose proof (zlen_nonneg (lzw_dest s)).
  destruct (Z.leb_spec (2 ^ 32) (zlen (lzw_dest s) + zlen stack)); [done|].
  destruct (if lzw_buf_size s <? _ then _ else _) as [size|] eqn:Es; [|done].
  assert (Hsize : zlen (lzw_dest s) + zlen stack <= size < 2 ^ 32).
  { destruct (Z.ltb_spec (lzw_buf_size s) (zlen (lzw_dest s) + zlen stack)).
    - apply ExpandDestBuf_spec in Es; lia.
    - injection Es as <-. lia. }
  assert (Hlast : byte stack.[0]) by auto with fx.
  assert (Hdest : bytes (lzw_dest s ++ stack)) by (by apply Forall_app).
  destruct ((258 <=? lzw_old s) && _).
  - split; cbn; try done; try lia. rewrite zlen_app. lia.
  - pose proof (AddCode_ok (lzw_codes s) (lzw_code_len s) (lzw_old s) stack.[0]
      ltac:(done) ltac:(done) ltac:(done) Hlast) as Hadd.
    destruct (AddCode _ _ _ _ _) as [codes len]. destruct Hadd as (H1 & H2 & H3).
    split; [|done]. split; cbn; try done; try lia. rewrite zlen_app. lia.
Qed.

Lemma lzw_step_ok s : lzw_ok s → result_ok (lzw_bit_pos s) (lzw_step src e s).
Proof.
  intros Hs. pose proof Hs as []. unfold lzw_step.
  rewrite Z.mod_small by lia.
  destruct (Z.ltb_spec (zlen src * 8) (lzw_bit_pos s + lzw_code_len s)); [done|].
  pose proof (read_code_fits src (lzw_bit_pos s) (lzw_code_len s) Hb ltac:(lia) ltac:(lia)) as Hcode.
  set (code := read_code _ _ _) in *.
  set (s' := Lzw _ _ _ _ _ _ _).
  assert (Hs' : lzw_ok s') by (split; cbn; try done; lia).
  assert (Hlt : lzw_bit_pos s < lzw_bit_pos s') by (cbn; lia).
  assert (Hc : 0 <= code < 4096).
  { unfold fits in Hcode. assert (2 ^ lzw_code_len s <= 2 ^ 12) by (apply Z.pow_le_mono_r; lia). lia. }
  destruct (Z.ltb_spec code 256); [apply lzw_literal_ok; [done|lia|done]|].
  destruct (Z.eqb_spec code 256).
  { split; [|done]. split; cbn; try done; rewrite ?(@zlen_nil Z); lia. }
  destruct (Z.eqb_spec code 257); [done|]. apply lzw_string_ok; [done|lia|done].
Qed.

(** Every iteration consumes bits, so the loop ends. *)
Lemma lzw_loop_ends fuel s :
  lzw_ok s → zlen src * 8 - lzw_bit_pos s < Z.of_nat fuel →
  ∃ r, lzw_loop fuel src e s = Some r ∧ ∀ s', r = Some s' → lzw_ok s'.
Proof.
  revert s. induction fuel as [|fuel IH]; intros s Hs Hf; [destruct Hs; lia|].
  cbn [lzw_loop]. pose proof (lzw_step_ok s Hs) as Hst. destruct (lzw_step src e s) as [s'|s'|].
  - destruct Hst as [Hs' Hlt]. apply IH; [done|lia].
  - eexists. split; [done|]. by intros ? [= <-].
  - eexists. split; [done|]. done.
Qed.

Lemma lzw_start_ok : lzw_ok lzw_start.
Proof.
  pose proof (zlen_nonneg src). split; cbn; try done; try lia; rewrite ?(@zlen_nil Z); try lia; unfold fits; lia.
Qed.
End safety.

(** ** The dictionary

    LZW as it is specified: the codes from 258 on name strings; after every code
    but the first since a clear, the previous string extended by the first byte
    of the new one is entered.  [None] is a stream that uses a code before it is
    defined. *)
Definition bits_from (src : list Z) (pos len : Z) : Z :=
  for_loop (Z.to_nat len) (λ i acc, 2 * acc + Z.b2z (src_bit src (pos + i))) 0.

(** The code length for a table of [n] strings. *)
Definition lzw_width (e n : Z) : Z :=
  if n + e <? 512 - 258 then 9 else if n + e <? 1024 - 258 then 10
  else if n + e <? 2048 - 258 then 11 else 12.

Definition dict_add (e : Z) (table : list (list Z)) (s : list Z) : list (list Z) :=
  if zlen table + e =? 4094 then table else table ++ [s].

Definition dict_str (table : list (list Z)) (code : Z) : list Z :=
  if code <? 258 then [code] else nth (Z.to_nat (code - 258)) table [].

Fixpoint lzw_dict_loop (fuel : nat) (src : list Z) (e pos : Z) (table : list (list Z))
    (prev : option (list Z)) (out : list Z) : option (Z * list Z) :=
  match fuel with
  | O => None
  | S fuel' =>
      let len := lzw_width e (zlen table) in
      if zlen src * 8 <? pos + len then Some (pos, out)
      else
        let code := bits_from src pos len in
        let pos := pos + len in
        if code =? 256 then lzw_dict_loop fuel' src e pos [] None out
        else if code =? 257 then Some (pos, out)
        else
          match prev with
          | None => if code <? 256 then lzw_dict_loop fuel' src e pos table (Some [code]) (out ++ [code])
                    else None
          | Some p =>
              let s := if code - 258 =? zlen table then Some (p ++ take 1 p)
                       else if code - 258 <? zlen table then Some (dict_str table code)
                       else None in
              match s with
              | None => None
              | Some s =>
                  lzw_dict_loop fuel' src e pos (dict_add e table (p ++ take 1 s)) (Some s) (out ++ s)
              end
          end
  end.

Definition lzw_dict (src : list Z) (early_change : bool) : option (Z * list Z) :=
  lzw_dict_loop (lzw_fuel src) src (Z.b2z early_change) 0 [] None [].

Lemma bits_from_spec src pos n :
  fits (Z.of_nat n) (for_loop n (λ i acc, 2 * acc + Z.b2z (src_bit src (pos + i))) 0) ∧
  ∀ i, 0 <= i < Z.of_nat n →
    Z.testbit (for_loop n (λ i acc, 2 * acc + Z.b2z (src_bit src (pos + i))) 0) (Z.of_nat n - 1 - i) =
      src_bit src (pos + i).
Proof.
  induction n as [|n [IHf IH]]; cbn [for_loop].
  - split; [unfold fits; simpl; lia|lia].
  - set (acc := for_loop n _ 0) in *. set (b := src_bit src (pos + Z.of_nat n)).
    split.
    + unfold fits in *. rewrite Nat2Z.inj_succ, Z.pow_succ_r by lia. destruct b; simpl Z.b2z; lia.
    + intros i Hi. destruct (Z.eq_dec i (Z.of_nat n)) as [->|Hne].
      * replace (Z.of_nat (S n) - 1 - Z.of_nat n) with 0 by lia.
        rewrite Z.testbit_0_r. done.
      * replace (Z.of_nat (S n) - 1 - i) with (Z.succ (Z.of_nat n - 1 - i)) by lia.
        rewrite Z.testbit_succ_r by lia. apply IH. lia.
Qed.

Lemma read_code_value src pos len :
  bytes src → 0 <= pos → 9 <= len <= 12 → read_code src pos len = bits_from src pos len.
Proof.
  intros Hb Hp Hl. destruct (bits_from_spec src pos (Z.to_nat len)) as [Hf Hbit].
  fold (bits_from src pos len) in Hf, Hbit. rewrite Z2Nat.id in * by lia.
  apply (fits_bits_inj len); [lia|by apply read_code_fits|done|]. intros i Hi.
  replace i with (len - 1 - (len - 1 - i)) by lia.
  rewrite read_code_bit, Hbit by (done || lia). done.
Qed.

Section refinement.
Context (e : Z).
Hypothesis He : e = 0 ∨ e = 1.

Definition valid_code (n c : Z) : Prop := 0 <= c < 256 ∨ 258 <= c < 258 + n.

(** The parent links represent the strings. *)
Record table_ok (codes : list Z) (table : list (list Z)) : Prop := {
  t_len : length codes = length table;
  t_entry : ∀ i, 0 <= i < zlen codes → ∃ pc ch,
    codes.[i] = pc * 65536 + ch ∧ byte ch ∧ valid_code i pc ∧
    dict_str table (258 + i) = dict_str table pc ++ [ch];
  t_short : ∀ i, 0 <= i < zlen codes → zlen (dict_str table (258 + i)) <= i + 2;
}.

Lemma dict_str_app table s c : valid_code (zlen table) c → dict_str (table ++ [s]) c = dict_str table c.
Proof.
  intros Hc. unfold dict_str. destruct (Z.ltb_spec c 258); [done|]. unfold valid_code, zlen in Hc.
  rewrite app_nth1 by lia. done.
Qed.

Lemma dict_str_last table s : dict_str (table ++ [s]) (258 + zlen table) = s.
Proof.
  unfold dict_str, zlen. destruct (Z.ltb_spec (258 + Z.of_nat (length table)) 258); [lia|].
  rewrite app_nth2 by lia.
  by replace (Z.to_nat (258 + Z.of_nat (length table) - 258) - length table)%nat with 0%nat by lia.
Qed.

Lemma dict_str_len codes table c :
  table_ok codes table → valid_code (zlen codes) c → 1 <= zlen (dict_str table c) ∧
  (c < 258 → zlen (dict_str table c) = 1) ∧ (258 <= c → zlen (dict_str table c) <= c - 256).
Proof.
  intros Ht [Hc|Hc].
  - unfold dict_str. replace (c <? 258) with true by lia. change (zlen [c]) with 1. lia.
  - destruct (t_entry _ _ Ht (c - 258) ltac:(lia)) as (pc & ch & _ & _ & _ & E).
    pose proof (t_short _ _ Ht (c - 258) ltac:(lia)) as Hs.
    replace (258 + (c - 258)) with c in * by lia.
    rewrite E, zlen_app in *. pose proof (zlen_nonneg (dict_str table pc)).
    change (zlen [ch]) with 1 in *. lia.
Qed.

Lemma dict_str_bytes codes table c :
  table_ok codes table → valid_code (zlen codes) c → bytes (dict_str table c).
Proof.
  intros Ht. remember (Z.to_nat c) as n eqn:En. revert c En.
  induction n as [n IH] using lt_wf_ind. intros c -> [Hc|Hc].
  - unfold dict_str. replace (c <? 258) with true by lia. solve_bytes.
  - destruct (t_entry _ _ Ht (c - 258) ltac:(lia)) as (pc & ch & _ & Hch & Hpc & E).
    replace (258 + (c - 258)) with c in E by lia. rewrite E. apply Forall_app. split; [|solve_bytes].
    apply (IH (Z.to_nat pc)); [destruct Hpc; lia|done|].
    destruct Hpc as [?|?]; [by left|right; lia].
Qed.

Lemma DecodeString_dict codes table fuel c stack :
  table_ok codes table → valid_code (zlen codes) c → bytes stack →
  zlen (dict_str table c) + zlen stack <= Z.of_nat kStackSize →
  zlen (dict_str table c) <= Z.of_nat fuel →
  DecodeString fuel codes c stack = dict_str table c ++ stack.
Proof.
  intros Ht. revert c stack. induction fuel as [|fuel IH]; intros c stack Hc Hst Hlen Hfuel.
  { destruct (dict_str_len _ _ _ Ht Hc). lia. }
  cbn [DecodeString]. unfold zlen in Hlen at 2. destruct Hc as [Hc|Hc].
  - replace (c - 258 <? 0) with true by lia. cbn [orb].
    assert (Es : dict_str table c = [c]) by (unfold dict_str; by replace (c <? 258) with true by lia).
    rewrite Es in *. change (zlen [c]) with 1 in *.
    destruct (Nat.leb_spec kStackSize (length stack)); [lia|].
    by rewrite Z.mod_small by lia.
  - replace ((c - 258 <? 0) || (zlen codes <=? c - 258)) with false by lia.
    destruct (t_entry _ _ Ht (c - 258) ltac:(lia)) as (pc & ch & -> & Hch & Hpc & E).
    replace (258 + (c - 258)) with c in E by lia. rewrite E, zlen_app in *.
    change (zlen [ch]) with 1 in *.
    pose proof (zlen_nonneg (dict_str table pc)).
    destruct (Nat.leb_spec kStackSize (length stack)); [lia|].
    unfold fits in Hch. rewrite Z.shiftr_div_pow2 by lia.
    replace ((pc * 65536 + ch) / 2 ^ 16) with pc by (Z.div_mod_to_equations; lia).
    replace (u8 (pc * 65536 + ch)) with ch by (Z.div_mod_to_equations; lia).
    rewrite IH; [by rewrite <-app_assoc| |by constructor| |lia].
    + destruct Hpc as [?|?]; [by left|right; lia].
    + rewrite zlen_cons. unfold zlen at 2. lia.
Qed.

Lemma packed prefix ch : 0 <= prefix < 4096 → byte ch →
  u32 (prefix .<< 16) .| ch = prefix * 65536 + ch.
Proof.
  intros Hp Hch. rewrite Z.lor_comm, Z.shiftl_mul_pow2, Z.mod_small by lia.
  rewrite <-Z.shiftl_mul_pow2, lor_shiftl_add by first [lia | eapply fits_mono; [|exact Hch]; lia]. lia.
Qed.

Lemma AddCode_dict codes table len prefix ch :
  table_ok codes table → valid_code (zlen codes) prefix → 0 <= prefix < 4096 → byte ch →
  len = lzw_width e (zlen codes) → zlen codes + e <= 4094 →
  let '(codes', len') := AddCode e codes len prefix ch in
  table_ok codes' (dict_add e table (dict_str table prefix ++ [ch])) ∧
  len' = lzw_width e (zlen codes') ∧ (zlen codes + e < 4094 → zlen codes' = zlen codes + 1) ∧
  zlen codes <= zlen codes' ∧ zlen codes' + e <= 4094.
Proof.
  intros Ht Hv Hp Hch Hl Hn. unfold AddCode, dict_add.
  assert (Hzl : zlen table = zlen codes) by (unfold zlen; by rewrite (t_len _ _ Ht)). rewrite Hzl.
  destruct (Z.eqb_spec (zlen codes + e) 4094) as [Hf|Hf]; [split_and!; [done|done|lia|lia|lia]|].
  rewrite packed by done. rewrite !zlen_app. change (zlen [_]) with 1.
  split_and!; [|subst len; unfold lzw_width; repeat case_match; lia|lia|lia|lia].
  split.
  - rewrite !length_app, (t_len _ _ Ht). done.
  - intros i Hi. rewrite zlen_app in Hi. change (zlen [_]) with 1 in Hi.
    destruct (Z.eq_dec i (zlen codes)) as [->|Hne].
    + exists prefix, ch. rewrite rd_snoc. split_and!; [done|done|done|].
      rewrite <-Hzl, dict_str_last, dict_str_app by (by rewrite Hzl). done.
    + destruct (t_entry _ _ Ht i ltac:(lia)) as (pc & c & E1 & E2 & E3 & E4). exists pc, c.
      rewrite rd_app_l by lia. split_and!; [done|done|done|].
      rewrite !dict_str_app; [done| |].
      * rewrite Hzl. destruct E3 as [?|?]; [by left|right; lia].
      * right. lia.
  - intros i Hi. rewrite zlen_app in Hi. change (zlen [_]) with 1 in Hi.
    destruct (Z.eq_dec i (zlen codes)) as [->|Hne].
    + rewrite <-Hzl, dict_str_last, zlen_app, Hzl. change (zlen [_]) with 1.
      destruct (dict_str_len _ _ _ Ht Hv) as (_ & H1 & H2). destruct Hv as [Hv|Hv]; lia.
    + rewrite dict_str_app by (right; lia). by apply (t_short _ _ Ht); lia.
Qed.

Context (src : list Z).
Hypothesis Hb : bytes src.
Hypothesis Hsz : zlen src < 2 ^ 28.

Record sim (pos : Z) (table : list (list Z)) (prev : option (list Z)) (out : list Z) (s : lzw) :
    Prop := {
  sim_pos : lzw_bit_pos s = pos ∧ 0 <= pos <= zlen src * 8;
  sim_len : lzw_code_len s = lzw_width e (zlen (lzw_codes s));
  sim_table : table_ok (lzw_codes s) table;
  sim_full : zlen (lzw_codes s) + e <= 4094;
  sim_dest : lzw_dest s = out;
  sim_size : zlen out <= lzw_buf_size s ∧ 2 * lzw_buf_size s <= Z.max 1024 (3 * zlen out);
  sim_prev : match prev with
    | None => lzw_old s = kNoCode
    | Some p => valid_code (zlen (lzw_codes s)) (lzw_old s) ∧ lzw_old s < 4096 ∧
                dict_str table (lzw_old s) = p ∧ lzw_last s = p.[0] ∧ bytes p
    end;
}.

Lemma width_range n : 9 <= lzw_width e n <= 12.
Proof. unfold lzw_width. repeat case_match; lia. Qed.

Lemma expand_ok size required :
  size < required → 0 <= size → required < 2 ^ 31 → 2 * size <= Z.max 1024 (3 * required) →
  ∃ size', ExpandDestBuf size (required - size) = Some size' ∧
    required <= size' ∧ 2 * size' <= Z.max 1024 (3 * required).
Proof.
  intros H1 H2 H3 H4. unfold ExpandDestBuf.
  set (n := Z.max (size / 2) (required - size) + size).
  assert (Hn : required <= n ∧ 2 * n <= 3 * required) by (unfold n; Z.div_mod_to_equations; lia).
  replace (n <? 2 ^ 32) with true by lia. exists n. split; [done|lia].
Qed.

(** Entering a string keeps the relation. *)
Lemma sim_add s pos table p out code str size last :
  sim pos table (Some p) out s → 0 <= code < 4096 → bytes str → str ≠ [] →
  last = str.[0] →
  (valid_code (zlen (lzw_codes s)) code ∧ dict_str table code = str ∨
   code = 258 + zlen (lzw_codes s) ∧ str = p ++ take 1 p) →
  zlen (out ++ str) <= size ∧ 2 * size <= Z.max 1024 (3 * zlen (out ++ str)) →
  let '(codes, len) := AddCode e (lzw_codes s) (lzw_code_len s) (lzw_old s) last in
  sim pos (dict_add e table (p ++ take 1 str)) (Some str) (out ++ str)
    (Lzw (lzw_bit_pos s) len codes (lzw_dest s ++ str) size code last).
Proof.
  intros [] Hcode Hbs Hne Hlast Hstr Hsize.
  destruct sim_prev0 as (Hv & Hlt & Hp & Hl & Hbp).
  assert (Hbl : byte last) by (subst last; by apply bytes_rd).
  pose proof (AddCode_dict (lzw_codes s) table (lzw_code_len s) (lzw_old s) last sim_table0 Hv
    ltac:(destruct Hv; lia) Hbl sim_len0 sim_full0) as Hadd.
  destruct (AddCode _ _ _ _ _) as [codes len]. destruct Hadd as (H1 & H2 & H3 & H4 & H5).
  assert (Et : dict_str table (lzw_old s) ++ [last] = p ++ take 1 str).
  { rewrite Hp. f_equal. subst last. destruct str as [|x str]; [done|]. by rewrite firstn_cons, take_0. }
  rewrite Et in H1. split; cbn; try done.
  - by rewrite sim_dest0.
  - assert (Hzl : zlen table = zlen (lzw_codes s)) by (unfold zlen; by rewrite (t_len _ _ sim_table0)).
    split_and!; try done; [| lia|].
    + destruct Hstr as [[[Hc|Hc] _]|[Hc _]]; [by left|right; lia|right].
      pose proof (zlen_nonneg (lzw_codes s)). rewrite H3 by lia. lia.
    + destruct Hstr as [[Hc <-]|[Hc Hs]].
      * unfold dict_add. case_match; [done|]. apply dict_str_app. by rewrite Hzl.
      * unfold dict_add. rewrite Hzl. replace (zlen (lzw_codes s) + e =? 4094) with false by lia.
        rewrite Hc, <-Hzl, dict_str_last, Hs. f_equal.
        destruct p as [|x p]; [by rewrite Hs in Hne|done].
Qed.

Lemma dict_loop_grows fuel pos table prev out pos' out' :
  lzw_dict_loop fuel src e pos table prev out = Some (pos', out') → zlen out <= zlen out'.
Proof.
  revert pos table prev out. induction fuel as [|fuel IH]; intros pos table prev out H; [done|].
  assert (Happ : ∀ p t v l, lzw_dict_loop fuel src e p t v (out ++ l) = Some (pos', out') →
    zlen out <= zlen out').
  { intros p t v l Hl. apply IH in Hl. rewrite zlen_app in Hl. pose proof (zlen_nonneg l). lia. }
  cbn [lzw_dict_loop] in H.
  repeat case_match; try done; try (injection H as <- <-; lia); eauto.
Qed.

Lemma sim_literal s pos table prev out code :
  sim pos table prev out s → 0 <= code < 256 → zlen (out ++ [code]) < 2 ^ 31 →
  ∃ s', lzw_literal e code s = LzwMore s' ∧
    sim pos (match prev with None => table | Some p => dict_add e table (p ++ [code]) end)
      (Some [code]) (out ++ [code]) s'.
Proof.
  intros Hs Hcode Hout. pose proof Hs as []. unfold lzw_literal. rewrite sim_dest0.
  pose proof (zlen_nonneg out) as Hn. rewrite zlen_app in *. change (zlen [code]) with 1 in *.
  assert (∃ size, (if lzw_buf_size s <=? zlen out
      then ExpandDestBuf (lzw_buf_size s) (zlen out - lzw_buf_size s + 1)
      else Some (lzw_buf_size s)) = Some size ∧ zlen (out ++ [code]) <= size ∧
      2 * size <= Z.max 1024 (3 * zlen (out ++ [code]))) as (size & -> & Hs1 & Hs2).
  { rewrite zlen_app. change (zlen [code]) with 1.
    destruct (Z.leb_spec (lzw_buf_size s) (zlen out)).
    - replace (zlen out - lzw_buf_size s + 1) with (zlen out + 1 - lzw_buf_size s) by lia.
      apply expand_ok; lia.
    - eexists. split; [done|]. lia. }
  rewrite !(Z.mod_small code) by lia.
  assert (Hvc : ∀ n, valid_code n code) by (intros; by left).
  assert (Hds : ∀ t, dict_str t code = [code])
    by (intros; unfold dict_str; by replace (code <? 258) with true by lia).
  destruct prev as [p|].
  - destruct sim_prev0 as (Hv & Hlt & Hp & Hl & Hbp).
    replace (lzw_old s =? kNoCode) with false by (unfold kNoCode; destruct Hv; lia). cbn [negb].
    pose proof (sim_add s pos table p out code [code] size code Hs ltac:(lia)
      ltac:(solve_bytes) ltac:(done) eq_refl (or_introl (conj (Hvc _) (Hds _))) (conj Hs1 Hs2)) as Ha.
    cbn [take] in Ha. destruct (AddCode _ _ _ _ _) as [codes len]. eexists. split; [done|].
    by rewrite sim_dest0 in Ha.
  - rewrite sim_prev0. cbn [negb Z.eqb Pos.eqb]. eexists. split; [done|].
    replace (kNoCode =? kNoCode) with true by done. cbn [negb].
    split; cbn; try done. split_and!; try done; [lia|solve_bytes].
Qed.

Lemma sim_string s pos table p out code str :
  sim pos table (Some p) out s → 258 <= code < 4096 → zlen (out ++ str) < 2 ^ 31 →
  (valid_code (zlen table) code ∧ dict_str table code = str ∨
   code = 258 + zlen table ∧ str = p ++ take 1 p) →
  ∃ s', lzw_string e code s = LzwMore s' ∧
    sim pos (dict_add e table (p ++ take 1 str)) (Some str) (out ++ str) s'.
Proof.
  intros Hs Hcode Hout Hstr. pose proof Hs as [].
  destruct sim_prev0 as (Hv & Hlt & Hp & Hl & Hbp).
  assert (Hzl : zlen table = zlen (lzw_codes s)) by (unfold zlen; by rewrite (t_len _ _ sim_table0)).
  rewrite Hzl in Hstr. unfold lzw_string. rewrite sim_dest0.
  replace (lzw_old s =? kNoCode) with false by (unfold kNoCode; destruct Hv; lia).
  destruct (dict_str_len _ _ _ sim_table0 Hv) as (Hp1 & Hp2 & Hp3). rewrite Hp in *.
  assert (Hplen : zlen p <= 3840) by (destruct Hv; lia).
  assert (Hstack : (if zlen (lzw_codes s) <=? code - 258
    then DecodeString (S kStackSize) (lzw_codes s) (lzw_old s) [lzw_last s]
    else DecodeString (S kStackSize) (lzw_codes s) code []) = str ∧ bytes str ∧ 1 <= zlen str).
  { destruct Hstr as [[Hc Hd]|[Hc ->]].
    - replace (zlen (lzw_codes s) <=? code - 258) with false by (destruct Hc; lia).
      destruct (dict_str_len _ _ _ sim_table0 Hc) as (Hs1 & _ & Hs3).
      rewrite (DecodeString_dict _ _ _ _ _ sim_table0 Hc);
        [|constructor|rewrite zlen_nil; unfold kStackSize; lia|unfold kStackSize; lia].
      rewrite app_nil_r, Hd in *. split_and!; [done| |done]. subst str.
      by eapply dict_str_bytes.
    - replace (zlen (lzw_codes s) <=? code - 258) with true by lia.
      rewrite (DecodeString_dict _ _ _ _ _ sim_table0 Hv); rewrite ?Hp;
        [|rewrite Hl; solve_bytes|change (zlen [_]) with 1; unfold kStackSize; lia|unfold kStackSize; lia].
      destruct p as [|x p]; [rewrite zlen_nil in *; lia|].
      rewrite Hl. split_and!; [done| |].
      + apply Forall_app; split; [done|]. by apply Forall_take.
      + rewrite zlen_app. pose proof (zlen_nonneg (take 1 (x :: p))). lia. }
  destruct Hstack as (-> & Hbs & Hsl). pose proof (zlen_nonneg out).
  rewrite zlen_app in Hout. replace (2 ^ 32 <=? zlen out + zlen str) with false by lia.
  assert (∃ size, (if lzw_buf_size s <? zlen out + zlen str
      then ExpandDestBuf (lzw_buf_size s) (zlen out + zlen str - lzw_buf_size s)
      else Some (lzw_buf_size s)) = Some size ∧ zlen (out ++ str) <= size ∧
      2 * size <= Z.max 1024 (3 * zlen (out ++ str))) as (size & -> & Hs1 & Hs2).
  { rewrite zlen_app. destruct (Z.ltb_spec (lzw_buf_size s) (zlen out + zlen str)).
    - apply expand_ok; lia.
    - eexists. split; [done|]. lia. }
  replace ((258 <=? lzw_old s) && (zlen (lzw_codes s) <=? lzw_old s - 258)) with false
    by (destruct Hv; lia).
  pose proof (sim_add s pos table p out code str size str.[0] Hs ltac:(lia) Hbs
    ltac:(intros ->; rewrite zlen_nil in *; lia) eq_refl Hstr (conj Hs1 Hs2)) as Ha.
  destruct (AddCode _ _ _ _ _) as [codes len]. eexists. split; [done|]. by rewrite sim_dest0 in Ha.
Qed.

Lemma sim_loop fuel s pos table prev out pos' out' :
  sim pos table prev out s → lzw_dict_loop fuel src e pos table prev out = Some (pos', out') →
  zlen out' < 2 ^ 31 →
  ∃ s', lzw_loop fuel src e s = Some (Some s') ∧ lzw_bit_pos s' = pos' ∧ lzw_dest s' = out'.
Proof.
  revert s pos table prev out. induction fuel as [|fuel IH]; intros s pos table prev out Hs Hd Hout;
    [done|].
  cbn [lzw_dict_loop lzw_loop] in *. pose proof Hs as []. destruct sim_pos0 as [Hpos Hrange].
  assert (Hzl : zlen table = zlen (lzw_codes s)) by (unfold zlen; by rewrite (t_len _ _ sim_table0)).
  pose proof (width_range (zlen table)) as Hw.
  unfold lzw_step. rewrite Hpos, sim_len0, <-Hzl. rewrite Z.mod_small by lia.
  destruct (Z.ltb_spec (zlen src * 8) (pos + lzw_width e (zlen table))) as [Hend|Hmore].
  { injection Hd as <- <-. eauto. }
  rewrite read_code_value by (done || lia).
  pose proof (read_code_fits src pos _ Hb ltac:(lia) Hw) as Hcode.
  rewrite read_code_value in Hcode by (done || lia).
  set (code := bits_from _ _ _) in *.
  assert (Hc : 0 <= code < 4096).
  { unfold fits in Hcode. assert (2 ^ lzw_width e (zlen table) <= 2 ^ 12) by (apply Z.pow_le_mono_r; lia). lia. }
  set (s1 := Lzw _ _ _ _ _ _ _).
  assert (Hs1 : sim (pos + lzw_width e (zlen table)) table prev out s1).
  { split; cbn; try done; [split; [done|lia]|by rewrite Hzl]. }
  clearbody s1. destruct (Z.eqb_spec code 256) as [Eclear|Hclear].
  { rewrite Eclear. cbn [Z.ltb Z.compare Pos.compare Pos.compare_cont].
    eapply IH; [|exact Hd|done]. pose proof Hs1 as [].
    split; cbn [lzw_bit_pos lzw_code_len lzw_codes lzw_dest lzw_buf_size lzw_old lzw_last]; try done.
    - by destruct He as [->| ->].
    - split; [done| |]; intros i Hi; unfold zlen in Hi; simpl in Hi; lia.
    - unfold zlen. simpl. lia. }
  destruct (Z.eqb_spec code 257) as [Eeod|Heod].
  { rewrite Eeod. cbn [Z.ltb Z.compare Pos.compare Pos.compare_cont].
    injection Hd as <- <-. pose proof Hs1 as [[? ?]]. eauto. }
  destruct (Z.ltb_spec code 256) as [Hlit|Hstr].
  - assert (Hd' : lzw_dict_loop fuel src e (pos + lzw_width e (zlen table))
      (match prev with None => table | Some p => dict_add e table (p ++ [code]) end)
      (Some [code]) (out ++ [code]) = Some (pos', out')).
    { destruct prev as [p|]; [|done].
      replace (code - 258 =? zlen table) with false in Hd by (unfold zlen; lia).
      replace (code - 258 <? zlen table) with true in Hd by (unfold zlen; lia).
      unfold dict_str in Hd. replace (code <? 258) with true in Hd by lia. done. }
    pose proof (dict_loop_grows _ _ _ _ _ _ _ Hd') as Hg.
    destruct (sim_literal _ _ _ _ _ code Hs1 ltac:(lia) ltac:(lia)) as (s' & -> & Hs').
    by eapply IH.
  - destruct prev as [p|]; [|done]. cbv zeta in Hd.
    assert (∃ str, (if code - 258 =? zlen table then Some (p ++ take 1 p)
        else if code - 258 <? zlen table then Some (dict_str table code) else None) = Some str ∧
      (valid_code (zlen table) code ∧ dict_str table code = str ∨
       code = 258 + zlen table ∧ str = p ++ take 1 p)) as (str & Es & Hstr').
    { destruct (Z.eqb_spec (code - 258) (zlen table)); [eexists; split; [done|]; right; split; [lia|done]|].
      destruct (Z.ltb_spec (code - 258) (zlen table)); [|done].
      eexists. split; [done|]. left. split; [right; lia|done]. }
    rewrite Es in Hd. pose proof (dict_loop_grows _ _ _ _ _ _ _ Hd) as Hg.
    destruct (sim_string _ _ _ _ _ code str Hs1 ltac:(lia) ltac:(lia) Hstr') as (s' & -> & Hs').
    by eapply IH.
Qed.
End refinement.

(** On a source below 2^28 bytes [CLZWDecoder::Decode] ends, whatever the
    source: every iteration consumes bits, and [DecodeString] is stopped by the
    size of its stack even when corrupt data has made the parent links cyclic.
    At the end the code table, the stack and the output are inside their
    arrays. *)
Theorem lzw_safe src early_change :
  bytes src → zlen src < 2 ^ 28 →
  ∃ r, lzw_loop (lzw_fuel src) src (Z.b2z early_change) lzw_start = Some r ∧
    Decode (lzw_fuel src) src early_change ≠ None ∧
    ∀ s, r = Some s →
      zlen (lzw_codes s) < 5021 ∧ zlen (lzw_dest s) <= lzw_buf_size s < 2 ^ 32 ∧
      0 <= (lzw_bit_pos s + 7) / 8 <= zlen src ∧ bytes (lzw_dest s).
Proof.
  intros Hb Hn. assert (He : Z.b2z early_change = 0 ∨ Z.b2z early_change = 1)
    by (destruct early_change; auto).
  destruct (lzw_loop_ends src _ Hb Hn He (lzw_fuel src) lzw_start) as (r & Hr & Hok).
  - by apply lzw_start_ok.
  - unfold lzw_fuel, zlen. simpl lzw_bit_pos. lia.
  - exists r. split; [done|]. unfold Decode. rewrite Hr. split; [by destruct r|].
    intros s Hs. destruct (Hok s Hs). split_and!; try done; try lia; Z.div_mod_to_equations; lia.
Qed.

Lemma lzw_safe_witness :
  ∃ r, lzw_loop (lzw_fuel [0x80; 0x0B; 0x60]) [0x80; 0x0B; 0x60] (Z.b2z true) lzw_start = Some r ∧
    Decode (lzw_fuel [0x80; 0x0B; 0x60]) [0x80; 0x0B; 0x60] true ≠ None ∧
    ∀ s, r = Some s →
      zlen (lzw_codes s) < 5021 ∧ zlen (lzw_dest s) <= lzw_buf_size s < 2 ^ 32 ∧
      0 <= (lzw_bit_pos s + 7) / 8 <= 3 ∧ bytes (lzw_dest s).
Proof. exact (lzw_safe [0x80; 0x0B; 0x60] true ltac:(solve_bytes) ltac:(reflexivity)). Defined.

(** C36: on every source that is a valid LZW stream, the decoder produces what the
    dictionary of strings gives and stops at the same bit; in particular its
    4000-byte stack never truncates a string of a valid stream. *)
Theorem lzw_refines_dictionary src early_change pos out :
  bytes src → zlen src < 2 ^ 28 →
  lzw_dict src early_change = Some (pos, out) → out ≠ [] → zlen out < 2 ^ 31 →
  Decode (lzw_fuel src) src early_change = Some (Some ((pos + 7) / 8, out)).
Proof.
  intros Hb Hn Hd Hne Hout. assert (He : Z.b2z early_change = 0 ∨ Z.b2z early_change = 1)
    by (destruct early_change; auto).
  unfold lzw_dict in Hd.
  assert (Hs : sim (Z.b2z early_change) src 0 [] None [] lzw_start).
  { pose proof (zlen_nonneg src). split; cbn; try done.
    - split; [done|lia].
    - by destruct early_change.
    - split; [done| |]; intros i Hi; unfold zlen in Hi; simpl in Hi; lia.
    - unfold zlen. simpl. lia. }
  destruct (sim_loop _ He src Hb Hn _ _ _ _ _ _ _ _ Hs Hd Hout) as (s' & Hl & Hp & Ho).
  unfold Decode. rewrite Hl, Hp, Ho.
  replace (zlen out =? 0) with false; [done|].
  destruct out; [done|]. rewrite zlen_cons. pose proof (zlen_nonneg out). lia.
Qed.

Lemma lzw_refines_dictionary_witness :
  Decode 73 [0x80; 0x0B; 0x60; 0x50; 0x22; 0x0C; 0x0C; 0x85; 0x01] true =
    Some (Some (9, [45; 45; 45; 45; 45; 65; 45; 45; 45; 66])).
Proof.
  exact (lzw_refines_dictionary [0x80; 0x0B; 0x60; 0x50; 0x22; 0x0C; 0x0C; 0x85; 0x01] true 72
    [45; 45; 45; 45; 45; 65; 45; 45; 45; 66] ltac:(solve_bytes) ltac:(reflexivity)
    ltac:(vm_compute; reflexivity) ltac:(done) ltac:(reflexivity)).
Defined.
