(* ===== verification/Scanline.v ===== *)
(** * Scanline decoders: the base class

    [ScanlineDecoder::GetScanline] and [SkipToScanline] of
    [core/fxcodec/scanlinedecoder.cpp] on top of the two virtual functions a
    decoder provides.  The class [ScanlineSource] is the virtual interface,
    [ScanlineSourceOk] what a decoder must promise for random access to work. *)
From S2P Require Import Prelude.

Class ScanlineSource (St : Type) := {
  Rewind : St → option St;
  GetNextLine : St → list Z * St;
}.

(** [m_NextLine], [m_pLastScanline] and the members of the subclass. *)
Record scanline (St : Type) := Scanline {
  m_NextLine : Z;
  m_pLastScanline : list Z;
  m_sub : St;
}.
Arguments Scanline {_}. Arguments m_NextLine {_}. Arguments m_pLastScanline {_}.
Arguments m_sub {_}.

Section base.
Context {St : Type} `{!ScanlineSource St}.

Definition scanline_new (sub : St) : scanline St := Scanline (-1) [] sub.

(** [while (m_NextLine < line) { GetNextLine(); m_NextLine++; }] *)
Fixpoint skip_lines (n : nat) (sub : St) : St :=
  match n with
  | O => sub
  | S n' => skip_lines n' (GetNextLine sub).2
  end.

Definition GetScanline (line : Z) (s : scanline St) : list Z * scanline St :=
  let '(Scanline next last sub) := s in
  if next =? line + 1 then (last, s)
  else
    match (if (next <? 0) || (line <? next)
           then match Rewind sub with Some sub' => Some (0, sub') | None => None end
           else Some (next, sub)) with
    | None => ([], s)
    | Some (next, sub) =>
        let sub := skip_lines (Z.to_nat (line - next)) sub in
        let next := Z.max next line in
        let '(last, sub) := GetNextLine sub in
        (last, Scanline (next + 1) last sub)
    end.

(** The loop of [SkipToScanline]: [pause k] is what [NeedToPauseNow] answers
    the [k]-th time it is asked. *)
Fixpoint skip_pause (n : nat) (k : nat) (pause : nat → bool) (s : scanline St) :
    bool * scanline St :=
  match n with
  | O => (false, s)
  | S n' =>
      let '(last, sub) := GetNextLine (m_sub s) in
      let s := Scanline (m_NextLine s + 1) last sub in
      if pause k then (true, s) else skip_pause n' (S k) pause s
  end.

(** A failed [Rewind] is ignored here: the subclass keeps its state. *)
Definition SkipToScanline (line : Z) (pause : nat → bool) (s : scanline St) :
    bool * scanline St :=
  let '(Scanline next last sub) := s in
  if (next =? line) || (next =? line + 1) then (false, s)
  else
    let '(next, sub) :=
      if (next <? 0) || (line <? next)
      then (0, match Rewind sub with Some sub' => sub' | None => sub end)
      else (next, sub) in
    skip_pause (Z.to_nat (line - next)) 0 pause (Scanline next [] sub).
End base.

(** [sub_at sub n]: since the last rewind the decoder returned [n] lines.  The
    [k]-th line depends only on [k], up to the [height] of the image. *)
Class ScanlineSourceOk (St : Type) `{!ScanlineSource St} := {
  height : nat;
  line_at : nat → list Z;
  sub_at : St → nat → Prop;
  rewind_ok sub n : sub_at sub n → ∃ sub', Rewind sub = Some sub' ∧ sub_at sub' 0;
  next_ok sub n : sub_at sub n → (n < height)%nat →
    ∃ sub', GetNextLine sub = (line_at n, sub') ∧ sub_at sub' (S n);
}.

Section random_access.
Context {St : Type} `{ScanlineSourceOk St}.

(** The base class agrees with the subclass on the position, and holds the
    last line unless it was just rewound. *)
Definition scanline_ok (s : scanline St) : Prop :=
  (∃ n, (n <= height)%nat ∧ sub_at (m_sub s) n ∧
    (m_NextLine s = -1 ∨ m_NextLine s = Z.of_nat n ∧
      ((0 < n)%nat → m_pLastScanline s = line_at (n - 1)))).

Lemma skip_lines_ok n k sub :
  sub_at sub k → (k + n <= height)%nat → sub_at (skip_lines n sub) (k + n).
Proof.
  revert k sub. induction n as [|n IH]; intros k sub Hs Hk; simpl; [by rewrite Nat.add_0_r|].
  destruct (next_ok sub k Hs) as (sub' & -> & Hs'); [lia|]. cbn [snd].
  replace (k + S n)%nat with (S k + n)%nat by lia. apply IH; [done|lia].
Qed.

Lemma GetScanline_ok line s :
  scanline_ok s → 0 <= line < Z.of_nat height →
  (GetScanline line s).1 = line_at (Z.to_nat line) ∧ scanline_ok (GetScanline line s).2.
Proof.
  intros (n & Hn & Hs & Hnext) Hline. destruct s as [next last sub]. cbn in *.
  destruct (Z.eqb_spec next (line + 1)) as [->|Hne].
  { destruct Hnext as [?|[E Hl]]; [lia|]. cbn. split.
    - rewrite Hl by lia. f_equal. lia.
    - exists n. split_and!; [done|done|]. by right. }
  assert (Hgo : ∃ next' sub' k, (if (next <? 0) || (line <? next)
      then match Rewind sub with Some sub' => Some (0, sub') | None => None end
      else Some (next, sub)) = Some (next', sub') ∧ next' = Z.of_nat k ∧
      sub_at sub' k ∧ next' <= line).
  { destruct ((next <? 0) || (line <? next)) eqn:E.
    - destruct (rewind_ok sub n Hs) as (sub' & -> & Hs'). by exists 0, sub', 0%nat; split_and!; [..|lia].
    - destruct Hnext as [->|[-> _]]; [done|]. exists (Z.of_nat n), sub, n. split_and!; try done. lia. }
  destruct Hgo as (next' & sub' & k & -> & -> & Hs' & Hle).
  pose proof (skip_lines_ok (Z.to_nat (line - Z.of_nat k)) k sub' Hs' ltac:(lia)) as Hsk.
  replace (k + Z.to_nat (line - Z.of_nat k))%nat with (Z.to_nat line) in Hsk by lia.
  destruct (next_ok _ _ Hsk) as (sub2 & -> & Hs2); [lia|]. cbn. split; [done|].
  exists (S (Z.to_nat line)). split_and!; [lia|done|]. right. split; [cbn; lia|].
  intros _. cbn. f_equal. lia.
Qed.

Lemma skip_pause_ok n k pause s j :
  sub_at (m_sub s) j → (j + n <= height)%nat → m_NextLine s = Z.of_nat j →
  ((0 < j)%nat → n = 0%nat → m_pLastScanline s = line_at (j - 1)) →
  scanline_ok (skip_pause n k pause s).2.
Proof.
  revert k s j. induction n as [|n IH]; intros k s j Hs Hj Hn Hl; cbn [skip_pause snd].
  - exists j. split_and!; [lia|done|]. right. split; [done|]. intros. by apply Hl.
  - destruct (next_ok _ _ Hs) as (sub' & -> & Hs'); [lia|]. case_match; cbn [snd].
    + exists (S j). split_and!; [lia|done|]. right. split; [cbn; lia|]. intros _. cbn. f_equal. lia.
    + apply (IH _ _ (S j)); cbn; [done|lia|lia|]. intros _ _. f_equal. lia.
Qed.

Lemma SkipToScanline_ok line pause s :
  scanline_ok s → 0 <= line <= Z.of_nat height → scanline_ok (SkipToScanline line pause s).2.
Proof.
  intros Hs Hline. pose proof Hs as (n & Hn & Hsub & Hnext). destruct s as [next last sub].
  cbn in Hsub, Hnext. cbn [SkipToScanline].
  destruct ((next =? line) || (next =? line + 1)) eqn:E; [done|].
  destruct ((next <? 0) || (line <? next)) eqn:E2.
  - destruct (rewind_ok sub n Hsub) as (sub' & -> & Hs').
    apply (skip_pause_ok _ _ _ _ 0); cbn; [done|lia|done|lia].
  - destruct Hnext as [->|[-> _]]; [done|].
    apply (skip_pause_ok _ _ _ _ n); cbn; [done|lia|done|lia].
Qed.

(** One call of the interface. *)
Inductive scan_op := GetOp (line : Z) | SkipOp (line : Z) (pause : nat → bool).
Definition scan_op_ok (o : scan_op) : Prop :=
  match o with GetOp l => 0 <= l < Z.of_nat height | SkipOp l _ => 0 <= l <= Z.of_nat height end.
Definition scan_run (s : scanline St) (o : scan_op) : scanline St :=
  match o with GetOp l => (GetScanline l s).2 | SkipOp l p => (SkipToScanline l p s).2 end.

Lemma scan_run_line sub ops line :
  sub_at sub 0 → Forall scan_op_ok ops → 0 <= line < Z.of_nat height →
  (GetScanline line (fold_left scan_run ops (scanline_new sub))).1 = line_at (Z.to_nat line).
Proof.
  intros Hsub Hops Hline.
  apply GetScanline_ok; [|done].
  assert (H0 : scanline_ok (scanline_new sub)).
  { exists 0%nat. split_and!; [lia|done|]. by left. }
  revert H0. generalize (scanline_new sub). induction Hops as [|o ops Ho _ IH]; intros s Hs; [done|].
  cbn [fold_left]. apply IH. destruct o; cbn in *; [by apply GetScanline_ok|by apply SkipToScanline_ok].
Qed.
End random_access.
