(* ===== verification/RlScanline.v ===== *)
(** * The RunLength scanline decoder

    [RLScanlineDecoder] of [core/fxcodec/basic/basicmodule.cpp]: the run-length
    stream is cut into lines while it is decoded, an operator being used up
    across line ends. *)
From S2P Require Import Prelude Pitch Filters BasicModule Scanline.

(** The members; [m_Scanline] is rewritten by every call of [GetNextLine]. *)
Record RLScanlineDecoder := RlDec {
  rl_SrcBuf : list Z;
  rl_Pitch : Z;
  rl_dwLineBytes : Z;
  rl_SrcOffset : Z;
  rl_bEOD : bool;
  rl_Operator : Z;
}.

(** [CheckDestSize]: the sizes are counted as in [RunLengthDecode]; [need] is
    the left side of the final comparison. *)
Definition CheckDestSize (src : list Z) (width height nComps bpc : Z) : bool :=
  match rl_size (length src) src 0 with
  | None => false
  | Some dest_size =>
      let need := u32 (u32 (u32 (u32 (width * nComps) * bpc) * height) + 7) / 8 in
      negb (dest_size <? need)
  end.

(** [Create]; [None] is false. *)
Definition rl_Create (src : list Z) (width height nComps bpc : Z) : option RLScanlineDecoder :=
  pitch ← safe_u32 width; pitch ← safe_u32 (pitch * nComps); pitch ← safe_u32 (pitch * bpc);
  pitch ← safe_u32 (pitch + 31); pitch ← safe_u32 (pitch / 32 * 4);
  let line_bytes := u32 (u32 (u32 (width * nComps) * bpc) + 7) / 8 in
  if CheckDestSize src width height nComps bpc
  then Some (RlDec src pitch line_bytes 0 false 0) else None.

Definition GetNextOperator (d : RLScanlineDecoder) : RLScanlineDecoder :=
  let '(RlDec src pitch lb off eod op) := d in
  if zlen src <=? off then RlDec src pitch lb off eod 128
  else RlDec src pitch lb (off + 1) eod src.[off].

Definition UpdateOperator (used_bytes : Z) (d : RLScanlineDecoder) : RLScanlineDecoder :=
  let '(RlDec src pitch lb off eod op) := d in
  if used_bytes =? 0 then d
  else if op <? 128 then
    if used_bytes =? op + 1 then GetNextOperator (RlDec src pitch lb (off + used_bytes) eod op)
    else
      let op := u8 (op - used_bytes) in
      let off := off + used_bytes in
      RlDec src pitch lb off eod (if zlen src <=? off then 128 else op)
  else
    let count := u8 (257 - op) in
    if used_bytes =? count then GetNextOperator (RlDec src pitch lb (off + 1) eod op)
    else RlDec src pitch lb off eod (u8 (257 - u8 (count - used_bytes))).

(** The loop of [GetNextLine]: [line] is what was written to [m_Scanline]. *)
Fixpoint rl_line (fuel : nat) (line : list Z) (d : RLScanlineDecoder) : list Z * RLScanlineDecoder :=
  match fuel with
  | O => (line, d)
  | S fuel' =>
      let '(RlDec src pitch lb off eod op) := d in
      let col_pos := zlen line in
      if off <? zlen src then
        if op <? 128 then
          let copy_len := op + 1 in
          let '(copy_len, eol) :=
            if lb <=? col_pos + copy_len then (lb - col_pos, true) else (copy_len, false) in
          let '(copy_len, eod) :=
            if zlen src - off <=? copy_len then (zlen src - off, true) else (copy_len, eod) in
          let line := line ++ subspan src (Z.to_nat off) (Z.to_nat copy_len) in
          let d := UpdateOperator (u8 copy_len) (RlDec src pitch lb off eod op) in
          if eol then (line, d) else rl_line fuel' line d
        else if 128 <? op then
          let fill := if off - 1 <? zlen src - 1 then src.[off] else 0 in
          let duplicate_len := 257 - op in
          let '(duplicate_len, eol) :=
            if lb <=? col_pos + duplicate_len then (lb - col_pos, true)
            else (duplicate_len, false) in
          let line := line ++ replicate (Z.to_nat duplicate_len) fill in
          let d := UpdateOperator (u8 duplicate_len) (RlDec src pitch lb off eod op) in
          if eol then (line, d) else rl_line fuel' line d
        else (line, RlDec src pitch lb off true op)
      else (line, d)
  end.

Definition rl_Rewind (d : RLScanlineDecoder) : option RLScanlineDecoder :=
  Some (RlDec (rl_SrcBuf d) (rl_Pitch d) (rl_dwLineBytes d) 0 false 0).

(** The span returned: the whole of [m_Scanline], cleared before the loop, or
    an empty span.  Every iteration but the last advances the column, so
    [m_dwLineBytes + 1] iterations are enough. *)
Definition rl_GetNextLine (d : RLScanlineDecoder) : list Z * RLScanlineDecoder :=
  let go d :=
    let '(line, d) := rl_line (S (Z.to_nat (rl_dwLineBytes d))) [] d in
    (take (Z.to_nat (rl_Pitch d)) (line ++ replicate (Z.to_nat (rl_Pitch d)) 0), d) in
  if rl_SrcOffset d =? 0 then go (GetNextOperator d)
  else if rl_bEOD d then ([], d)
  else go d.

#[export] Instance rl_source : ScanlineSource RLScanlineDecoder :=
  {| Rewind := rl_Rewind; GetNextLine := rl_GetNextLine |}.

(** ** The data ahead

    [rl_ahead op rest data]: with operator [op] read and [rest] the source from
    [m_SrcOffset] on, what remains to be decoded is [data].  When one byte of a
    run is left, [UpdateOperator] stores [257 - 1] in a byte, that is 0: the last
    byte of the run is then copied as a literal of length one. *)
Inductive rl_ahead : Z → list Z → list Z → Prop :=
  | ahead_eod rest : rl_ahead 128 rest []
  | ahead_literal l o d :
      (0 < length l <= 128)%nat → rl_stream o d → rl_ahead (zlen l - 1) (l ++ o) (l ++ d)
  | ahead_run k x o d :
      (2 <= k <= 128)%nat → rl_stream o d → rl_ahead (257 - Z.of_nat k) (x :: o) (replicate k x ++ d).

(** The decoder stands before [data]. *)
Definition rl_before (src : list Z) (pitch lb : Z) (data : list Z) (d : RLScanlineDecoder) : Prop :=
  ∃ pre rest op, d = RlDec src pitch lb (zlen pre) false op ∧ src = pre ++ rest ∧ pre ≠ [] ∧
    rl_ahead op rest data.

Lemma rl_stream_cons o d : rl_stream o d → ∃ op rest, o = op :: rest ∧ rl_ahead op rest d.
Proof.
  intros H. destruct H as [|l o d Hl Ho|k x o d Hk Ho]; do 2 eexists; (split; [reflexivity|]).
  - constructor.
  - by constructor.
  - constructor; [lia|done].
Qed.

Lemma GetNextOperator_before src pitch lb pre o d op :
  src = pre ++ o → rl_stream o d →
  rl_before src pitch lb d (GetNextOperator (RlDec src pitch lb (zlen pre) false op)).
Proof.
  intros -> Ho. destruct (rl_stream_cons o d Ho) as (op' & rest & -> & Ha). cbn [GetNextOperator].
  replace (zlen (pre ++ op' :: rest) <=? zlen pre) with false
    by (rewrite zlen_app, zlen_cons; pose proof (zlen_nonneg rest); lia).
  exists (pre ++ [op']), rest, op'. split_and!; [|by rewrite <-app_assoc|by destruct pre|done].
  rewrite zlen_app. change (zlen [op']) with 1. f_equal.
  rewrite <-(Z.add_0_r (zlen pre)), rd_app_r by lia. done.
Qed.

Lemma rl_stream_nonempty o d : rl_stream o d → 0 < zlen o.
Proof.
  intros H. destruct (rl_stream_cons o d H) as (op & rest & -> & _).
  rewrite zlen_cons. pose proof (zlen_nonneg rest). lia.
Qed.

Lemma rl_before_intro src pitch lb pre rest op data :
  src = pre ++ rest → pre ≠ [] → rl_ahead op rest data →
  rl_before src pitch lb data (RlDec src pitch lb (zlen pre) false op).
Proof. intros. by exists pre, rest, op. Qed.

(** [UpdateOperator] after [n] bytes of a literal, or of a run. *)
Lemma update_literal src pitch lb pre l o d n :
  src = pre ++ l ++ o → pre ≠ [] → (0 < n <= length l)%nat → (length l <= 128)%nat → rl_stream o d →
  rl_before src pitch lb (drop n (l ++ d))
    (UpdateOperator (Z.of_nat n) (RlDec src pitch lb (zlen pre) false (zlen l - 1))).
Proof.
  intros Hsrc Hpre Hn Hl Ho. cbn [UpdateOperator].
  assert (Hz : zlen l = Z.of_nat (length l)) by done. rewrite Hz.
  replace (Z.of_nat n =? 0) with false by lia.
  replace (Z.of_nat (length l) - 1 <? 128) with true by lia.
  replace (Z.of_nat (length l) - 1 + 1) with (Z.of_nat (length l)) by lia.
  rewrite drop_app_le by lia.
  replace (zlen pre + Z.of_nat n) with (zlen (pre ++ take n l))
    by (rewrite zlen_app; unfold zlen; rewrite length_take; lia).
  destruct (Z.eqb_spec (Z.of_nat n) (Z.of_nat (length l))) as [E|E].
  - rewrite drop_ge, take_ge by lia. apply (GetNextOperator_before _ _ _ _ o); [|done].
    by rewrite Hsrc, app_assoc.
  - assert (Hlen : zlen src = zlen pre + zlen l + zlen o) by (rewrite Hsrc, !zlen_app; lia).
    pose proof (rl_stream_nonempty o d Ho).
    assert (zlen (pre ++ take n l) < zlen src)
      by (rewrite zlen_app, Hlen; unfold zlen; rewrite length_take; lia).
    replace (zlen src <=? zlen (pre ++ take n l)) with false by lia.
    rewrite Z.mod_small by lia.
    replace (Z.of_nat (length l) - 1 - Z.of_nat n) with (zlen (drop n l) - 1)
      by (unfold zlen; rewrite length_drop; lia).
    apply (rl_before_intro _ _ _ _ (drop n l ++ o)).
    + by rewrite <-app_assoc, (app_assoc (take n l)), take_drop.
    + by destruct pre.
    + constructor; [rewrite length_drop; lia|done].
Qed.

Lemma update_run src pitch lb pre x o d k n :
  src = pre ++ x :: o → pre ≠ [] → (0 < n <= k)%nat → (2 <= k <= 128)%nat → rl_stream o d →
  rl_before src pitch lb (drop n (replicate k x ++ d))
    (UpdateOperator (Z.of_nat n) (RlDec src pitch lb (zlen pre) false (257 - Z.of_nat k))).
Proof.
  intros Hsrc Hpre Hn Hk Ho. cbn [UpdateOperator].
  replace (Z.of_nat n =? 0) with false by lia.
  replace (257 - Z.of_nat k <? 128) with false by lia.
  replace (257 - (257 - Z.of_nat k)) with (Z.of_nat k) by lia. rewrite (Z.mod_small (Z.of_nat k)) by lia.
  rewrite drop_app_le by (rewrite length_replicate; lia). rewrite drop_replicate.
  destruct (Z.eqb_spec (Z.of_nat n) (Z.of_nat k)) as [E|E].
  - replace (k - n)%nat with 0%nat by lia. cbn [replicate app].
    replace (zlen pre + 1) with (zlen (pre ++ [x])) by (by rewrite zlen_app).
    apply (GetNextOperator_before _ _ _ _ o); [|done]. by rewrite Hsrc, <-app_assoc.
  - rewrite (Z.mod_small (Z.of_nat k - Z.of_nat n)) by lia.
    destruct (decide (k - n = 1)%nat) as [E1|E1].
    + replace (257 - (Z.of_nat k - Z.of_nat n)) with 256 by lia. rewrite E1.
      apply (rl_before_intro _ _ _ _ (x :: o)); [done..|]. cbn [replicate].
      apply (ahead_literal [x] o d); [simpl; lia|done].
    + rewrite Z.mod_small by lia.
      replace (Z.of_nat k - Z.of_nat n) with (Z.of_nat (k - n)) by lia.
      apply (rl_before_intro _ _ _ _ (x :: o)); [done..|]. constructor; [lia|done].
Qed.

(** One iteration of the loop: a positive number of bytes of the data ahead, up
    to the end of the line. *)
Lemma rl_line_step src pitch lb data d fuel line :
  rl_before src pitch lb data d → zlen line < lb → lb - zlen line <= zlen data →
  ∃ n d', (0 < n <= length data)%nat ∧ zlen line + Z.of_nat n <= lb ∧
    rl_before src pitch lb (drop n data) d' ∧
    rl_line (S fuel) line d =
      if zlen line + Z.of_nat n =? lb then (line ++ take n data, d')
      else rl_line fuel (line ++ take n data) d'.
Proof.
  intros (pre & rest & op & -> & Hsrc & Hpre & Ha) Hline Hdata. cbn [rl_line].
  destruct Ha as [rest|l o d0 Hl Ho|k x o d0 Hk Ho]; [rewrite zlen_nil in Hdata; lia| |].
  - pose proof (rl_stream_nonempty o d0 Ho).
    assert (Hlen : zlen src = zlen pre + zlen l + zlen o) by (rewrite Hsrc, !zlen_app; lia).
    assert (Hzl : zlen l = Z.of_nat (length l)) by done. rewrite Hlen.
    replace (zlen pre <? zlen pre + zlen l + zlen o) with true by lia.
    replace (zlen l - 1 <? 128) with true by lia.
    replace (zlen l - 1 + 1) with (zlen l) by lia.
    assert (Hsub : ∀ n, (n <= length l)%nat →
      subspan src (Z.to_nat (zlen pre)) n = take n (l ++ d0)).
    { intros n Hn. unfold subspan. rewrite Hsrc. unfold zlen.
      rewrite Nat2Z.id, drop_app_length, !take_app_le by lia. done. }
    destruct (Z.leb_spec lb (zlen line + zlen l)) as [Heol|Heol].
    + set (n := Z.to_nat (lb - zlen line)). assert (Hn : (0 < n <= length l)%nat) by lia.
      replace (zlen pre + zlen l + zlen o - zlen pre <=? lb - zlen line) with false by lia.
      eexists n, _. split_and!; [lia|rewrite length_app; lia|lia|
        apply (update_literal src pitch lb pre l o d0 n); [done|done|done|lia|done]|].
      replace (zlen line + Z.of_nat n =? lb) with true by lia.
      replace (lb - zlen line) with (Z.of_nat n) by lia. rewrite Nat2Z.id, Hsub by lia.
      by rewrite Z.mod_small by lia.
    + replace (zlen pre + zlen l + zlen o - zlen pre <=? zlen l) with false by lia.
      eexists (length l), _. split_and!; [lia|rewrite length_app; lia|lia|
        apply (update_literal src pitch lb pre l o d0 (length l)); [done..|lia|lia|done]|].
      replace (zlen line + Z.of_nat (length l) =? lb) with false by lia.
      replace (Z.to_nat (zlen l)) with (length l) by lia. rewrite Hsub by lia.
      by rewrite Hzl, Z.mod_small by lia.
  - assert (Hlen : zlen src = zlen pre + 1 + zlen o) by (rewrite Hsrc, zlen_app, zlen_cons; lia).
    pose proof (zlen_nonneg o). rewrite Hlen.
    replace (zlen pre <? zlen pre + 1 + zlen o) with true by lia.
    replace (257 - Z.of_nat k <? 128) with false by lia.
    replace (128 <? 257 - Z.of_nat k) with true by lia.
    replace (zlen pre - 1 <? zlen pre + 1 + zlen o - 1) with true by lia.
    replace (257 - (257 - Z.of_nat k)) with (Z.of_nat k) by lia.
    assert (Hx : src.[zlen pre] = x)
      by (rewrite Hsrc, <-(Z.add_0_r (zlen pre)), rd_app_r by lia; done).
    rewrite Hx.
    assert (Htake : ∀ n, (n <= k)%nat → replicate n x = take n (replicate k x ++ d0)).
    { intros n Hn. rewrite take_app_le by (rewrite length_replicate; lia).
      rewrite take_replicate. f_equal. lia. }
    destruct (Z.leb_spec lb (zlen line + Z.of_nat k)) as [Heol|Heol].
    + set (n := Z.to_nat (lb - zlen line)). assert (Hn : (0 < n <= k)%nat) by lia.
      eexists n, _. split_and!; [lia|rewrite length_app, length_replicate; lia|lia|
        by apply (update_run src pitch lb pre x o d0 k n)|].
      replace (zlen line + Z.of_nat n =? lb) with true by lia.
      replace (lb - zlen line) with (Z.of_nat n) by lia. rewrite ?Nat2Z.id, <-Htake by lia.
      by rewrite Z.mod_small by lia.
    + eexists k, _. split_and!; [lia|rewrite length_app, length_replicate; lia|lia|
        apply (update_run src pitch lb pre x o d0 k k); [done..|lia|lia|done]|].
      replace (zlen line + Z.of_nat k =? lb) with false by lia.
      rewrite Nat2Z.id, <-Htake by lia. by rewrite Z.mod_small by lia.
Qed.

(** A whole line. *)
Lemma rl_line_full src pitch lb fuel : ∀ line data d,
  rl_before src pitch lb data d → zlen line < lb → lb - zlen line <= zlen data →
  lb - zlen line <= Z.of_nat fuel →
  ∃ d', rl_line fuel line d = (line ++ take (Z.to_nat (lb - zlen line)) data, d') ∧
    rl_before src pitch lb (drop (Z.to_nat (lb - zlen line)) data) d'.
Proof.
  induction fuel as [|fuel IH]; intros line data d Hd Hl Hdata Hf; [lia|].
  destruct (rl_line_step src pitch lb data d fuel line Hd Hl Hdata) as (n & d' & Hn & Hle & Hd' & ->).
  destruct (Z.eqb_spec (zlen line + Z.of_nat n) lb) as [E|E].
  - replace (Z.to_nat (lb - zlen line)) with n by lia. by exists d'.
  - assert (Hz : zlen (line ++ take n data) = zlen line + Z.of_nat n)
      by (rewrite zlen_app; unfold zlen; rewrite length_take; lia).
    destruct (IH (line ++ take n data) (drop n data) d' Hd') as (d2 & -> & Hd2);
      [lia|unfold zlen in *; rewrite length_drop; lia|lia|].
    rewrite Hz in *. exists d2.
    replace (Z.to_nat (lb - (zlen line + Z.of_nat n))) with (Z.to_nat (lb - zlen line) - n)%nat in * by lia.
    split.
    + f_equal. rewrite <-app_assoc. f_equal.
      replace (Z.to_nat (lb - zlen line)) with (n + (Z.to_nat (lb - zlen line) - n))%nat at 2 by lia.
      apply take_take_drop.
    + rewrite drop_drop in Hd2.
      by replace (n + (Z.to_nat (lb - zlen line) - n))%nat with (Z.to_nat (lb - zlen line)) in Hd2 by lia.
Qed.

(** ** The decoder keeps the promise of the base class *)
Section source_ok.
Context (src data : list Z) (pitch lb : Z) (h : nat).
Hypothesis Hstream : rl_stream src data.
Hypothesis Hlb : 0 < lb <= pitch.
Hypothesis Hh : Z.of_nat h * lb <= zlen data.

Definition rl_line_at (n : nat) : list Z :=
  subspan data (n * Z.to_nat lb) (Z.to_nat lb) ++ replicate (Z.to_nat (pitch - lb)) 0.

Definition rl_at (d : RLScanlineDecoder) (n : nat) : Prop :=
  (n = 0%nat ∧ ∃ op, d = RlDec src pitch lb 0 false op) ∨
  (0 < n)%nat ∧ rl_before src pitch lb (drop (n * Z.to_nat lb) data) d.

Lemma rl_rewind_ok d n : rl_at d n → ∃ d', rl_Rewind d = Some d' ∧ rl_at d' 0.
Proof.
  intros Hd. eexists. split; [reflexivity|]. left. split; [done|].
  destruct Hd as [(_ & op & ->)|(_ & pre & rest & op & -> & _)]; by eexists.
Qed.

(** A line read from a decoder that stands before [data]. *)
Lemma rl_go_ok n d :
  rl_before src pitch lb (drop (n * Z.to_nat lb) data) d → (n < h)%nat →
  ∃ d', (let '(line, d) := rl_line (S (Z.to_nat (rl_dwLineBytes d))) [] d in
    (take (Z.to_nat (rl_Pitch d)) (line ++ replicate (Z.to_nat (rl_Pitch d)) 0), d)) =
    (rl_line_at n, d') ∧ rl_at d' (S n).
Proof.
  intros Hd Hn. assert (Hlen : lb <= zlen (drop (n * Z.to_nat lb) data)).
  { unfold zlen in *. rewrite length_drop. nia. }
  assert (Elb : rl_dwLineBytes d = lb) by (by destruct Hd as (? & ? & ? & -> & _)).
  destruct (rl_line_full src pitch lb (S (Z.to_nat (rl_dwLineBytes d))) [] _ d Hd)
    as (d' & -> & Hd'); rewrite ?(@zlen_nil Z); [lia|lia|lia|].
  rewrite (@zlen_nil Z) in *. rewrite Z.sub_0_r in *. cbn [app].
  assert (Ep : rl_Pitch d' = pitch) by (by destruct Hd' as (? & ? & ? & -> & _)).
  rewrite Ep. exists d'. split.
  - f_equal. unfold rl_line_at, subspan. rewrite take_app, take_ge.
    + f_equal. rewrite take_replicate. f_equal. rewrite length_take. unfold zlen in *. lia.
    + rewrite length_take. lia.
  - right. split; [lia|]. rewrite drop_drop in Hd'.
    by replace (S n * Z.to_nat lb)%nat with (n * Z.to_nat lb + Z.to_nat lb)%nat by lia.
Qed.

Lemma rl_next_ok d n :
  rl_at d n → (n < h)%nat → ∃ d', rl_GetNextLine d = (rl_line_at n, d') ∧ rl_at d' (S n).
Proof.
  intros [(-> & op & ->)|(Hpos & Hd)] Hn; unfold rl_GetNextLine.
  - cbn [rl_SrcOffset Z.eqb].
    apply (rl_go_ok 0); [|done]. rewrite drop_0.
    by apply (GetNextOperator_before src pitch lb [] src data op).
  - pose proof Hd as (pre & rest & op & Ed & _ & Hpre & _).
    replace (rl_SrcOffset d =? 0) with false.
    + replace (rl_bEOD d) with false by (by rewrite Ed). by apply rl_go_ok.
    + rewrite Ed. cbn. destruct pre; [done|]. rewrite zlen_cons. pose proof (zlen_nonneg pre). lia.
Qed.

#[export] Instance rl_source_ok : ScanlineSourceOk RLScanlineDecoder :=
  {| height := h; line_at := rl_line_at; sub_at := rl_at;
     rewind_ok := rl_rewind_ok; next_ok := rl_next_ok |}.
End source_ok.

(** What [Create] computes when it succeeds. *)
Lemma rl_Create_spec src width height nComps bpc d :
  0 <= width → 0 <= height → 0 <= nComps → 0 <= bpc →
  rl_Create src width height nComps bpc = Some d →
  let lb := (width * nComps * bpc + 7) / 8 in
  ∃ pitch, d = RlDec src pitch lb 0 false 0 ∧ lb <= pitch.
Proof.
  intros Hw Hh Hc Hb H lb. unfold rl_Create in H.
  do 5 (let E := fresh "E" in apply bind_Some in H as (? & E & H); apply safe_u32_Some in E as [-> ?]).
  destruct (CheckDestSize _ _ _ _ _); [|done]. injection H as <-.
  unfold fits in *. exists ((width * nComps * bpc + 31) / 32 * 4). split.
  - f_equal. unfold lb. rewrite (Z.mod_small (width * nComps)), (Z.mod_small (width * nComps * bpc)) by lia.
    rewrite Z.mod_small by lia. done.
  - unfold lb. Z.div_mod_to_equations. lia.
Qed.

(** the scanline decoder and the one-shot decoder agree: on a run-length
    stream of the format, line [n] of the image is the [n]-th piece of
    [m_dwLineBytes] bytes of what [RunLengthDecode] returns, zero-padded to the
    pitch, whatever lines were asked for before, in any order. *)
Lemma rl_scanlines src data width (height : Z) nComps bpc d ops line :
  0 <= width → 0 <= height → 0 <= nComps → 0 <= bpc →
  rl_Create src width height nComps bpc = Some d →
  rl_stream src data → zlen data < kMaxStreamSize →
  let lb := (width * nComps * bpc + 7) / 8 in
  0 < lb → height * lb <= zlen data →
  Forall (λ o, match o with GetOp l => 0 <= l < height | SkipOp l _ => 0 <= l <= height end) ops →
  0 <= line < height →
  RunLengthDecode src = Some (zlen src, data) ∧
  (GetScanline line (fold_left scan_run ops (scanline_new d))).1 =
    subspan data (Z.to_nat (line * lb)) (Z.to_nat lb) ++
    replicate (Z.to_nat (rl_Pitch d - lb)) 0.
Proof.
  intros Hw Hh Hc Hb Hd Hs Hn lb Hlb Hdata Hops Hline.
  destruct (rl_Create_spec _ _ _ _ _ _ Hw Hh Hc Hb Hd) as (pitch & -> & Hp). fold lb in Hp |- *.
  split.
  - unfold kMaxStreamSize in Hn.
    destruct (rl_stream_decode src data Hs (length src) 0 0) as [E1 E2]; [lia..|].
    unfold RunLengthDecode. rewrite E1, E2.
    replace (kMaxStreamSize <=? 0 + zlen data) with false by (unfold kMaxStreamSize; lia).
    do 2 f_equal. lia.
  - set (h := Z.to_nat height). assert (Hh' : Z.of_nat h = height) by lia.
    assert (Hdata' : Z.of_nat h * lb <= zlen data) by (by rewrite Hh').
    pose (I := rl_source_ok src data pitch lb h Hs (conj Hlb Hp) Hdata').
    rewrite (scan_run_line (H := I)).
    + change (line_at (ScanlineSourceOk := I) (Z.to_nat line)) with (rl_line_at data pitch lb (Z.to_nat line)).
      unfold rl_line_at. cbn [rl_Pitch]. do 2 f_equal. lia.
    + left. split; [done|]. by eexists.
    + eapply Forall_impl; [exact Hops|]. intros [l|l q] Hl; cbn; lia.
    + cbn. lia.
Qed.

Lemma rl_scanlines_witness :
  let src := [254; 7; 1; 8; 9; 254; 0; 128] in
  ∃ d, rl_Create src 4 2 1 8 = Some d ∧
    (GetScanline 0 (fold_left scan_run [GetOp 1; GetOp 0; SkipOp 1 (λ _, false)] (scanline_new d))).1 =
      [7; 7; 7; 8].
Proof.
  eexists. split; [reflexivity|].
  exact (proj2 (rl_scanlines [254; 7; 1; 8; 9; 254; 0; 128] [7; 7; 7; 8; 9; 0; 0; 0] 4 2 1 8 _
    [GetOp 1; GetOp 0; SkipOp 1 (λ _, false)] 0 ltac:(lia) ltac:(lia) ltac:(lia) ltac:(lia) eq_refl
    (rl_run 3 7 _ _ ltac:(lia) (rl_literal [8; 9] _ _ ltac:(simpl; lia) (rl_run 3 0 _ _ ltac:(lia) rl_eod)))
    ltac:(reflexivity) ltac:(reflexivity) ltac:(vm_compute; discriminate)
    ltac:(repeat apply List.Forall_cons; try apply List.Forall_nil; lia) ltac:(lia))).
Defined.
