(* ===== verification/FlateScan.v ===== *)
(** * The Flate scanline decoders

    [FlateScanlineDecoder] and [FlatePredictorScanlineDecoder] of
    [core/fxcodec/flate/flatemodule.cpp].  What zlib inflates the source to is
    the parameter [inflated]; [FlateOutput] hands it out piece by piece. *)
From S2P Require Import Prelude Words Pitch Flate Scanline.

(** The members that do not change after construction. *)
Record flate_params := FlateParams {
  m_Predictor : PredictorType;
  m_Pitch : Z;  m_bpc : Z;  m_nComps : Z;  m_OutputWidth : Z;
  m_PredictPitch : Z;  m_BitsPerComponent : Z;  m_Colors : Z;  m_Columns : Z;
}.

(** The stream position and the members that do.  [m_PredictBuffer] is the last
    predicted line. *)
Record flate_state := FlateSt {
  z_pos : nat;
  m_LeftOver : Z;
  m_LastLine : list Z;
  m_PredictBuffer : list Z;
}.

Section decoder.
Context (inflated : list Z) (p : flate_params).

(** The next [n] bytes; what zlib has no data for is zeroed. *)
Definition FlateOutput (pos n : nat) : list Z * nat :=
  (take n (drop pos inflated ++ replicate n 0), (pos + n)%nat).

Definition BytesPerPixel : Z := (m_BitsPerComponent p * m_Colors p + 7) / 8.

(** The [switch] on the predictor in [GetNextLineWithoutPredictedPitch]: the
    new contents of [m_PredictBuffer]. *)
Definition predict_line (s : flate_state) : list Z * flate_state :=
  match m_Predictor p with
  | kPng =>
      let '(raw, pos) := FlateOutput (z_pos s) (Z.to_nat (m_PredictPitch p + 1)) in
      let line := PNG_PredictLine raw (Some (m_LastLine s)) (m_PredictPitch p) BytesPerPixel in
      (line, FlateSt pos (m_LeftOver s) line line)
  | kFlate =>
      let '(raw, pos) := FlateOutput (z_pos s) (Z.to_nat (m_PredictPitch p)) in
      let line := TIFF_PredictLine raw (m_PredictPitch p) (m_BitsPerComponent p) (m_Colors p)
                    (m_Columns p) in
      (line, FlateSt pos (m_LeftOver s) (m_LastLine s) line)
  | kNone => ([], s)
  end.

(** [GetNextLineWithPredictedPitch].  The TIFF case takes the image's own
    parameters. *)
Definition GetNextLineWithPredictedPitch (s : flate_state) : list Z * flate_state :=
  match m_Predictor p with
  | kPng =>
      let '(raw, pos) := FlateOutput (z_pos s) (Z.to_nat (m_PredictPitch p + 1)) in
      let line := PNG_PredictLine raw (Some (m_LastLine s)) (m_PredictPitch p) BytesPerPixel in
      (line, FlateSt pos (m_LeftOver s) line (m_PredictBuffer s))
  | kFlate =>
      let '(raw, pos) := FlateOutput (z_pos s) (Z.to_nat (m_Pitch p)) in
      (TIFF_PredictLine raw (m_PredictPitch p) (m_bpc p) (m_nComps p) (m_OutputWidth p),
       FlateSt pos (m_LeftOver s) (m_LastLine s) (m_PredictBuffer s))
  | kNone => ([], s)
  end.

(** The loop [while (bytes_to_go)].  Every iteration copies at least one byte
    when [m_PredictPitch] is positive. *)
Fixpoint fill_scanline (fuel : nat) (line : list Z) (s : flate_state) : list Z * flate_state :=
  match fuel with
  | O => (line, s)
  | S fuel' =>
      let bytes_to_go := m_Pitch p - zlen line in
      if bytes_to_go =? 0 then (line, s)
      else
        let '(buf, s) := predict_line s in
        let read_bytes := if bytes_to_go <? m_PredictPitch p then bytes_to_go else m_PredictPitch p in
        fill_scanline fuel' (line ++ take (Z.to_nat read_bytes) buf)
          (FlateSt (z_pos s) (m_LeftOver s + (m_PredictPitch p - read_bytes)) (m_LastLine s)
             (m_PredictBuffer s))
  end.

Definition GetNextLineWithoutPredictedPitch (s : flate_state) : list Z * flate_state :=
  let read_leftover := if m_Pitch p <? m_LeftOver s then m_Pitch p else m_LeftOver s in
  let line := subspan (m_PredictBuffer s) (Z.to_nat (m_PredictPitch p - m_LeftOver s))
                (Z.to_nat read_leftover) in
  fill_scanline (S (Z.to_nat (m_Pitch p))) line
    (FlateSt (z_pos s) (m_LeftOver s - read_leftover) (m_LastLine s) (m_PredictBuffer s)).

(** [GetNextLine] of the class that [CreateDecoder] makes. *)
Definition flate_GetNextLine (s : flate_state) : list Z * flate_state :=
  match m_Predictor p with
  | kNone =>
      let '(line, pos) := FlateOutput (z_pos s) (Z.to_nat (m_Pitch p)) in
      (line, FlateSt pos (m_LeftOver s) (m_LastLine s) (m_PredictBuffer s))
  | _ =>
      if m_Pitch p =? m_PredictPitch p then GetNextLineWithPredictedPitch s
      else GetNextLineWithoutPredictedPitch s
  end.

(** [Rewind]: a new zlib stream and no left-over; [m_LastLine] is kept. *)
Definition flate_Rewind (s : flate_state) : option flate_state :=
  Some (FlateSt 0 0 (m_LastLine s) (m_PredictBuffer s)).

Definition flate_source : ScanlineSource flate_state :=
  {| Rewind := flate_Rewind; GetNextLine := flate_GetNextLine |}.

Definition flate_new : flate_state :=
  FlateSt 0 0 (replicate (Z.to_nat (m_PredictPitch p)) 0) (replicate (Z.to_nat (m_PredictPitch p)) 0).
End decoder.

(** The constructor and [CreateDecoder]: a zero product of the predictor
    parameters selects the image's own; [None] is [OrDie]. *)
Definition flate_make (predictor width nComps bpc Colors BitsPerComponent Columns : Z) :
    option flate_params :=
  pitch ← CalculatePitch8 bpc nComps width;
  match GetPredictor predictor with
  | kNone => Some (FlateParams kNone pitch bpc nComps width 0 0 0 0)
  | kind =>
      let '(b, c, w) := if BitsPerComponent * Colors * Columns =? 0 then (bpc, nComps, width)
                        else (BitsPerComponent, Colors, Columns) in
      pp ← CalculatePitch8 b c w;
      Some (FlateParams kind pitch bpc nComps width pp b c w)
  end.

(** ** Reassembly

    The predicted lines form one stream of bytes, of which the scanlines are the
    consecutive pieces of [m_Pitch] bytes. *)
Section reassembly.
Context (inflated : list Z) (p : flate_params).
Hypothesis Hpp : 0 < m_PredictPitch p.
Hypothesis Hpitch : 0 < m_Pitch p.

(** The [k]-th predicted line, and the state after [k] of them, from [s]. *)
Fixpoint after_lines (k : nat) (s : flate_state) : flate_state :=
  match k with O => s | S k' => (predict_line inflated p (after_lines k' s)).2 end.
Definition predicted (s : flate_state) (k : nat) : list Z :=
  (predict_line inflated p (after_lines k s)).1.
Definition predicted_bytes (s : flate_state) (k : nat) : list Z :=
  concat (map (predicted s) (seq 0 k)).

Context (s0 : flate_state).
Hypothesis Hlines : ∀ k, zlen (predicted s0 k) = m_PredictPitch p.
Hypothesis Hkind : m_Predictor p ≠ kNone.

Lemma predicted_bytes_S k : predicted_bytes s0 (S k) = predicted_bytes s0 k ++ predicted s0 k.
Proof.
  unfold predicted_bytes. rewrite seq_S, map_app, concat_app. cbn [map concat plus].
  by rewrite app_nil_r.
Qed.

Lemma zlen_predicted_bytes k : zlen (predicted_bytes s0 k) = Z.of_nat k * m_PredictPitch p.
Proof.
  induction k as [|k IH]; [done|]. rewrite predicted_bytes_S, zlen_app, IH, Hlines. lia.
Qed.

Lemma predicted_bytes_prefix j k :
  (j <= k)%nat → ∃ l, predicted_bytes s0 k = predicted_bytes s0 j ++ l.
Proof.
  induction 1 as [|k _ [l IH]]; [exists []; by rewrite app_nil_r|].
  exists (l ++ predicted s0 k). by rewrite predicted_bytes_S, IH, <-app_assoc.
Qed.

(** The members the prediction depends on. *)
Definition same_stream (s t : flate_state) : Prop := z_pos s = z_pos t ∧ m_LastLine s = m_LastLine t.

Lemma predict_same s t :
  same_stream s t →
  (predict_line inflated p s).1 = (predict_line inflated p t).1 ∧
  same_stream (predict_line inflated p s).2 (predict_line inflated p t).2 ∧
  m_PredictBuffer (predict_line inflated p s).2 = (predict_line inflated p s).1 ∧
  m_LeftOver (predict_line inflated p s).2 = m_LeftOver s.
Proof.
  intros [E1 E2]. unfold predict_line. rewrite E1, E2.
  destruct (m_Predictor p); [done| |]; destruct (FlateOutput _ _ _) as [raw pos]; done.
Qed.

(** Between two scanlines: [j] lines were predicted, and the [m_LeftOver] last
    bytes of the last one are still to be handed out. *)
Definition between (n : nat) (s : flate_state) : Prop :=
  ∃ j, same_stream s (after_lines j s0) ∧ 0 <= m_LeftOver s < m_PredictPitch p ∧
    Z.of_nat j * m_PredictPitch p = Z.of_nat n * m_Pitch p + m_LeftOver s ∧
    (0 < m_LeftOver s → ∃ j', j = S j' ∧ m_PredictBuffer s = predicted s0 j').

Lemma take_snoc_piece (l k : list Z) n m :
  (m <= n)%nat → length l = m → take n (l ++ k) = l ++ take (n - m) k.
Proof. intros Hm <-. by rewrite take_app, take_ge by lia. Qed.

(** The loop, from a point where nothing is left over. *)
Lemma fill_spec fuel : ∀ line s j n,
  same_stream s (after_lines j s0) → m_LeftOver s = 0 → zlen line <= m_Pitch p →
  Z.of_nat j * m_PredictPitch p = Z.of_nat n * m_Pitch p + zlen line →
  line = drop (n * Z.to_nat (m_Pitch p)) (predicted_bytes s0 j) →
  m_Pitch p - zlen line < Z.of_nat fuel →
  ∃ s' j', fill_scanline inflated p fuel line s =
    (subspan (predicted_bytes s0 j') (n * Z.to_nat (m_Pitch p)) (Z.to_nat (m_Pitch p)), s') ∧
    between (S n) s' ∧ Z.of_nat (S n) * m_Pitch p <= Z.of_nat j' * m_PredictPitch p.
Proof.
  induction fuel as [|fuel IH]; intros line s j n Hs Hlo Hle Hj Hline Hf; [lia|].
  cbn [fill_scanline]. destruct (Z.eqb_spec (m_Pitch p - zlen line) 0) as [E|E].
  - exists s, j. split_and!; [|exists j; split_and!; try done; lia|lia].
    f_equal. unfold subspan. rewrite <-Hline. symmetry. apply take_ge. unfold zlen in *. lia.
  - pose proof (predict_same s (after_lines j s0) Hs) as (E1 & E2 & E3 & E4).
    destruct (predict_line inflated p s) as [buf s1] eqn:Ep. cbn [fst snd] in *.
    fold (predicted s0 j) in E1.
    set (read := if m_Pitch p - zlen line <? m_PredictPitch p then m_Pitch p - zlen line
                 else m_PredictPitch p).
    assert (Hread : 0 < read <= m_PredictPitch p ∧ read <= m_Pitch p - zlen line ∧
      (read = m_PredictPitch p ∨ read = m_Pitch p - zlen line)).
    { unfold read. destruct (Z.ltb_spec (m_Pitch p - zlen line) (m_PredictPitch p)); lia. }
    assert (Hbuf : zlen buf = m_PredictPitch p) by (rewrite E1; apply Hlines).
    assert (Hdrop : drop (n * Z.to_nat (m_Pitch p)) (predicted_bytes s0 (S j)) = line ++ buf).
    { rewrite predicted_bytes_S, <-E1, Hline. apply drop_app_le.
      pose proof (zlen_predicted_bytes j). unfold zlen in *. lia. }
    destruct (decide (read = m_PredictPitch p)) as [Er|Er].
    + replace (take (Z.to_nat read) buf) with buf
        by (rewrite take_ge; [done|unfold zlen in *; lia]).
      apply (IH _ _ (S j) n); cbn; [done|lia|rewrite zlen_app; lia|rewrite zlen_app; lia|done|].
      rewrite zlen_app. lia.
    + assert (Er' : read = m_Pitch p - zlen line) by lia.
      assert (Hl2 : zlen (line ++ take (Z.to_nat read) buf) = m_Pitch p).
      { rewrite zlen_app. unfold zlen in *. rewrite length_take. lia. }
      destruct fuel as [|fuel]; [lia|]. cbn [fill_scanline]. rewrite Hl2, Z.sub_diag. cbn [Z.eqb].
      eexists _, (S j). split_and!; [f_equal|exists (S j); split_and!; cbn|].
      * unfold subspan. rewrite Hdrop. symmetry.
        rewrite (take_snoc_piece _ _ _ (length line)) by (unfold zlen in *; lia).
        do 2 f_equal. unfold zlen in *. lia.
      * done.
      * lia.
      * lia.
      * lia.
      * intros _. exists j. split; [done|]. by rewrite E3, E1.
      * lia.
Qed.
Lemma piece_indep j k off n :
  (off + n <= j * Z.to_nat (m_PredictPitch p))%nat → (j <= k)%nat →
  subspan (predicted_bytes s0 k) off n = subspan (predicted_bytes s0 j) off n.
Proof.
  intros Hj Hk. destruct (predicted_bytes_prefix j k Hk) as [l ->].
  pose proof (zlen_predicted_bytes j) as Hl. unfold subspan, zlen in *.
  rewrite drop_app_le by nia. rewrite take_app_le; [done|]. rewrite length_drop. nia.
Qed.

(** The [n]-th scanline: the predicted lines that surely cover it. *)
Definition piece (n : nat) : list Z :=
  subspan (predicted_bytes s0 (S n * Z.to_nat (m_Pitch p))) (n * Z.to_nat (m_Pitch p))
    (Z.to_nat (m_Pitch p)).

Lemma piece_eq n j :
  Z.of_nat (S n) * m_Pitch p <= Z.of_nat j * m_PredictPitch p →
  subspan (predicted_bytes s0 j) (n * Z.to_nat (m_Pitch p)) (Z.to_nat (m_Pitch p)) = piece n.
Proof.
  intros Hj. unfold piece. set (P := Z.to_nat (m_Pitch p)).
  assert (HP : Z.of_nat P = m_Pitch p) by lia.
  destruct (Nat.le_ge_cases j (S n * P)).
  - symmetry. apply piece_indep; [|done]. nia.
  - apply piece_indep; [|done]. nia.
Qed.

(** A scanline whose pitch is not the predictor's. *)
Lemma without_pitch_spec n s :
  between n s → ∃ s', GetNextLineWithoutPredictedPitch inflated p s = (piece n, s') ∧
    between (S n) s'.
Proof.
  intros (j & Hs & Hlo & Hj & Hbuf). unfold GetNextLineWithoutPredictedPitch.
  set (P := Z.to_nat (m_Pitch p)). assert (HP : Z.of_nat P = m_Pitch p) by lia.
  set (line := subspan (m_PredictBuffer s) _ _).
  assert (Hcov : Z.of_nat (length (predicted_bytes s0 j)) = Z.of_nat n * m_Pitch p + m_LeftOver s)
    by (pose proof (zlen_predicted_bytes j); unfold zlen in *; lia).
  assert (Hline : line = subspan (predicted_bytes s0 j) (n * P)
    (Z.to_nat (if m_Pitch p <? m_LeftOver s then m_Pitch p else m_LeftOver s)) ∧
    zlen line = if m_Pitch p <? m_LeftOver s then m_Pitch p else m_LeftOver s).
  { destruct (decide (0 < m_LeftOver s)) as [Hl|Hl].
    - destruct (Hbuf Hl) as (j' & -> & Hb). unfold line. rewrite Hb.
      rewrite predicted_bytes_S in *. rewrite length_app in Hcov.
      pose proof (Hlines j') as Hlj. unfold zlen in Hlj.
      assert (E : drop (Z.to_nat (m_PredictPitch p - m_LeftOver s)) (predicted s0 j') =
                  drop (n * P) (predicted_bytes s0 j' ++ predicted s0 j')).
      { rewrite drop_app_ge by nia. f_equal. nia. }
      split; [unfold subspan; by rewrite E|].
      unfold zlen, subspan. rewrite length_take, length_drop. case_match; lia.
    - assert (m_LeftOver s = 0) as E by lia. unfold line. rewrite E.
      replace (m_Pitch p <? 0) with false by lia. cbn [Z.to_nat]. unfold subspan. by rewrite !take_0. }
  destruct Hline as [Hline Hlen]. destruct (Z.ltb_spec (m_Pitch p) (m_LeftOver s)) as [Hlt|Hge].
  - cbn [fill_scanline]. rewrite Hlen, Z.sub_diag. cbn [Z.eqb].
    eexists. split; [f_equal; rewrite Hline; apply piece_eq; lia|].
    exists j. split_and!; [exact Hs| | | |]; cbn [m_LeftOver m_PredictBuffer]; try lia.
    intros; apply Hbuf; lia.
  - destruct (fill_spec (S P) line
      (FlateSt (z_pos s) (m_LeftOver s - m_LeftOver s) (m_LastLine s) (m_PredictBuffer s)) j n)
      as (s' & j' & -> & Hb' & Hj'); cbn; try done; try lia.
    + rewrite Hline. fold P. unfold subspan. apply take_ge. rewrite length_drop. lia.
    + exists s'. split; [|done]. f_equal. by apply piece_eq.
Qed.

(** Both cases.  [at_line n] : [n] scanlines were returned. *)
Hypothesis Hsame : m_Pitch p = m_PredictPitch p →
  m_Predictor p = kPng ∨
  m_bpc p = m_BitsPerComponent p ∧ m_nComps p = m_Colors p ∧ m_OutputWidth p = m_Columns p.

Definition at_line (n : nat) (s : flate_state) : Prop :=
  if m_Pitch p =? m_PredictPitch p then same_stream s (after_lines n s0) else between n s.

Lemma with_pitch_predict s :
  m_Pitch p = m_PredictPitch p →
  (GetNextLineWithPredictedPitch inflated p s).1 = (predict_line inflated p s).1 ∧
  same_stream (GetNextLineWithPredictedPitch inflated p s).2 (predict_line inflated p s).2.
Proof.
  intros Ep. unfold GetNextLineWithPredictedPitch, predict_line.
  destruct (m_Predictor p) eqn:Ek; [done| |].
  - destruct (Hsame Ep) as [?|(-> & -> & ->)]; [done|]. rewrite Ep.
    by destruct (FlateOutput _ _ _) as [raw pos].
  - by destruct (FlateOutput _ _ _) as [raw pos].
Qed.

Lemma flate_next n s :
  at_line n s → ∃ s', flate_GetNextLine inflated p s = (piece n, s') ∧ at_line (S n) s'.
Proof.
  unfold at_line. intros Hat.
  assert (E : flate_GetNextLine inflated p s =
    if m_Pitch p =? m_PredictPitch p then GetNextLineWithPredictedPitch inflated p s
    else GetNextLineWithoutPredictedPitch inflated p s)
    by (unfold flate_GetNextLine; destruct (m_Predictor p); done).
  rewrite E. destruct (Z.eqb_spec (m_Pitch p) (m_PredictPitch p)) as [Ep|Ep];
    [|by apply without_pitch_spec].
  destruct (with_pitch_predict s Ep) as [E1 E2].
  destruct (predict_same s _ Hat) as (E3 & E4 & _).
  destruct (GetNextLineWithPredictedPitch inflated p s) as [line s']. cbn [fst snd] in *.
  exists s'. split.
  - f_equal. rewrite E1, E3. fold (predicted s0 n). rewrite <-(piece_eq n (S n)) by lia.
    pose proof (zlen_predicted_bytes n) as Hn. pose proof (Hlines n) as Hl. unfold zlen in *.
    unfold subspan. rewrite predicted_bytes_S, drop_app_ge by nia.
    replace (_ * _ - _)%nat with 0%nat by nia. rewrite drop_0. symmetry. apply take_ge. lia.
  - split; [rewrite (proj1 E2)|rewrite (proj2 E2)]; apply E4.
Qed.

Lemma at_line_0 s : same_stream s s0 → m_LeftOver s = 0 → at_line 0 s.
Proof.
  intros Hs Hl. unfold at_line. case_match; [done|]. exists 0%nat. split_and!; try done; lia.
Qed.
End reassembly.

Lemma same_stream_refl s : same_stream s s.
Proof. done. Qed.

Lemma length_FlateOutput inflated pos n : length (FlateOutput inflated pos n).1 = n.
Proof. unfold FlateOutput. cbn. rewrite length_take, length_app, length_replicate. lia. Qed.

Lemma zlen_png_line raw last rs bpp :
  0 <= rs → zlen raw = rs + 1 → zlen (PNG_PredictLine raw (Some last) rs bpp) = rs.
Proof.
  intros Hrs Hraw. unfold PNG_PredictLine. case_match.
  - unfold zlen in *. rewrite length_take, length_drop. lia.
  - match goal with |- zlen (for_loop _ ?f _) = _ => set (step := f) end.
    replace rs with (Z.of_nat (Z.to_nat rs)) at 2 by lia.
    apply (for_loop_ind (λ k dest, zlen dest = Z.of_nat k)); [done|]. intros k dest _ Hd.
    unfold step. rewrite zlen_app, Hd. change (zlen [_]) with 1. lia.
Qed.

(** [n] scanlines one after the other. *)
Fixpoint seq_lines (inflated : list Z) (p : flate_params) (n : nat) (s : flate_state) : list (list Z) :=
  match n with
  | O => []
  | S n' => let '(line, s) := flate_GetNextLine inflated p s in line :: seq_lines inflated p n' s
  end.

(** ** PNG, read from top to bottom *)
Section png.
Context (p : flate_params) (rows : list (Z * list Z)) (tail : list Z).
Let PP := m_PredictPitch p.
Let bpp := BytesPerPixel p.
Let inflated := png_encode bpp (zero_row PP) rows ++ tail.
Hypothesis Hkind : m_Predictor p = kPng.
Hypothesis Hpp : 0 < PP.
Hypothesis Hpitch : 0 < m_Pitch p.
Hypothesis Hbpp : 0 < bpp.
Hypothesis Hrows : Forall (λ r, bytes r.2 ∧ zlen r.2 = PP) rows.

Lemma png_lines_len k : zlen (predicted inflated p (flate_new p) k) = m_PredictPitch p.
Proof.
  unfold predicted, predict_line. rewrite Hkind.
  pose proof (length_FlateOutput inflated (z_pos (after_lines inflated p k (flate_new p)))
    (Z.to_nat (m_PredictPitch p + 1))) as Hl.
  destruct (FlateOutput _ _ _) as [raw pos]. cbn [fst] in *.
  apply zlen_png_line; unfold PP in *; unfold zlen; lia.
Qed.

(** The state [s] stands before row [k]. *)
Definition before_row (k : nat) (s : flate_state) : Prop :=
  drop (z_pos s) inflated = png_encode bpp (m_LastLine s) (drop k rows) ++ tail.

Lemma png_step k s t cur :
  before_row k s → rows !! k = Some (t, cur) →
  (predict_line inflated p s).1 = cur ∧ before_row (S k) (predict_line inflated p s).2.
Proof.
  unfold before_row. intros Hdrop Hl. rewrite (drop_S rows (t, cur) k Hl) in Hdrop.
  destruct (Forall_lookup_1 _ _ _ _ Hrows Hl : bytes cur ∧ zlen cur = PP) as [Hb Hcl].
  pose proof (zlen_filter t bpp (m_LastLine s) cur) as Hf.
  assert (Hraw : FlateOutput inflated (z_pos s) (Z.to_nat (m_PredictPitch p + 1)) =
    (t :: png_filter t bpp (m_LastLine s) cur, (z_pos s + (1 + length cur))%nat)).
  { unfold FlateOutput. rewrite Hdrop. cbn [png_encode app]. rewrite <-!app_assoc, app_comm_cons.
    unfold PP, zlen in *. f_equal; [apply take_app_length'; cbn [length]; lia|lia]. }
  unfold predict_line. rewrite Hkind, Hraw. fold bpp PP.
  rewrite <-Hcl, png_line_unfilter by done. split; [done|]. cbn [snd z_pos m_LastLine].
  rewrite <-drop_drop, Hdrop. cbn [png_encode app plus drop]. rewrite <-app_assoc.
  apply drop_app_length'. unfold zlen in Hf. lia.
Qed.

Lemma png_before k :
  (k <= length rows)%nat → before_row k (after_lines inflated p k (flate_new p)).
Proof.
  induction k as [|k IH]; intros Hk; [done|].
  destruct (lookup_lt_is_Some_2 rows k) as [[t cur] Hl]; [lia|].
  by apply (png_step k _ t cur); [apply IH; lia|].
Qed.

Lemma png_predicted_bytes k :
  (k <= length rows)%nat →
  predicted_bytes inflated p (flate_new p) k = concat (map snd (take k rows)).
Proof.
  induction k as [|k IH]; intros Hk; [done|].
  destruct (lookup_lt_is_Some_2 rows k) as [[t cur] Hl]; [lia|].
  rewrite predicted_bytes_S, IH, (take_S_r _ _ _ Hl), map_app, concat_app by lia.
  unfold predicted. rewrite (proj1 (png_step k _ t cur (png_before k ltac:(lia)) Hl)). cbn [map concat].
  by rewrite app_nil_r.
Qed.

Lemma png_seq_lines m : ∀ n s,
  at_line inflated p (flate_new p) n s →
  (Z.of_nat n + Z.of_nat m) * m_Pitch p <= zlen rows * PP →
  seq_lines inflated p m s =
    map (λ i, subspan (concat (map snd rows)) (i * Z.to_nat (m_Pitch p)) (Z.to_nat (m_Pitch p)))
      (seq n m).
Proof.
  induction m as [|m IH]; intros n s Hat Hn; [done|]. cbn [seq_lines seq map].
  destruct (flate_next inflated p Hpp Hpitch (flate_new p) png_lines_len) with n s
    as (s' & -> & Hat'); [by rewrite Hkind|by left|done|].
  rewrite (IH (S n) s') by (try done; nia). f_equal.
  rewrite <-(piece_eq inflated p Hpp Hpitch (flate_new p) png_lines_len n (length rows)).
  - by rewrite png_predicted_bytes, take_ge by lia.
  - unfold zlen, PP in *. nia.
Qed.
End png.

(** Reading the scanlines of a PNG-predicted image from top to bottom gives
    the consecutive pieces of [m_Pitch] bytes of the unfiltered rows, whether or
    not the predictor's rows are as long as the image's. *)
Theorem png_scanlines p rows tail n :
  m_Predictor p = kPng → 0 < m_PredictPitch p → 0 < m_Pitch p → 0 < BytesPerPixel p →
  Forall (λ r, bytes r.2 ∧ zlen r.2 = m_PredictPitch p) rows →
  Z.of_nat n * m_Pitch p <= zlen rows * m_PredictPitch p →
  seq_lines (png_encode (BytesPerPixel p) (zero_row (m_PredictPitch p)) rows ++ tail) p n (flate_new p) =
  map (λ i, subspan (concat (map snd rows)) (i * Z.to_nat (m_Pitch p)) (Z.to_nat (m_Pitch p))) (seq 0 n).
Proof.
  intros Hk Hpp Hp Hb Hr Hn. apply (png_seq_lines p rows tail); try done.
  by apply at_line_0.
Qed.

Definition png_example : flate_params := FlateParams kPng 2 8 2 1 3 8 1 3.
Lemma png_scanlines_witness :
  seq_lines [1; 10; 1; 1; 2; 1; 1; 1] png_example 3 (flate_new png_example) =
    [[10; 11]; [12; 11]; [12; 13]] ∧ True.
Proof.
  split; [|done].
  exact (png_scanlines png_example [(1, [10; 11; 12]); (2, [11; 12; 13])] [] 3
    eq_refl ltac:(reflexivity) ltac:(reflexivity) ltac:(reflexivity)
    ltac:(apply List.Forall_cons; [split; [solve_bytes|reflexivity]|];
          apply List.Forall_cons; [split; [solve_bytes|reflexivity]|apply List.Forall_nil])
    ltac:(vm_compute; discriminate)).
Defined.

(** ** TIFF and plain data, in any order

    No line depends on another here, so the decoder keeps the promise of
    [ScanlineSourceOk]. *)
Lemma length_for_loop_wr n (f : Z → list Z → list Z) l :
  (∀ i k, length (f i k) = length k) → length (for_loop n f l) = length l.
Proof.
  intros Hf. apply (for_loop_ind (λ _ k, length k = length l)); [done|].
  intros k s _ <-. apply Hf.
Qed.

Lemma zlen_tiff_line buf rs b c w : zlen (TIFF_PredictLine buf rs b c w) = zlen buf.
Proof.
  unfold zlen, TIFF_PredictLine, tiff_bits, tiff_words, tiff_bytes, set_bit.
  repeat case_match; f_equal; apply length_for_loop_wr; intros; by rewrite ?length_wr.
Qed.

Section tiff.
Context (inflated : list Z) (p : flate_params) (h : nat).
Hypothesis Hkind : m_Predictor p = kFlate.
Hypothesis Hpp : 0 < m_PredictPitch p.
Hypothesis Hpitch : 0 < m_Pitch p.
Hypothesis Hsame : m_Pitch p = m_PredictPitch p →
  m_bpc p = m_BitsPerComponent p ∧ m_nComps p = m_Colors p ∧ m_OutputWidth p = m_Columns p.

Lemma tiff_lines_len s k : zlen (predicted inflated p s k) = m_PredictPitch p.
Proof.
  unfold predicted, predict_line. rewrite Hkind.
  pose proof (length_FlateOutput inflated (z_pos (after_lines inflated p k s))
    (Z.to_nat (m_PredictPitch p))) as Hl.
  destruct (FlateOutput _ _ _) as [raw pos]. cbn [fst] in *. rewrite zlen_tiff_line.
  unfold zlen. lia.
Qed.

Lemma tiff_last_line k s : m_LastLine (after_lines inflated p k s) = m_LastLine s.
Proof.
  induction k as [|k IH]; [done|]. cbn [after_lines]. unfold predict_line. by rewrite Hkind.
Qed.

Lemma at_line_last s0 n s : at_line inflated p s0 n s → m_LastLine s = m_LastLine s0.
Proof.
  unfold at_line, between, same_stream. case_match.
  - intros [_ ->]. apply tiff_last_line.
  - intros (j & [_ ->] & _). apply tiff_last_line.
Qed.

Let new := flate_new p.

#[local] Instance tiff_source : ScanlineSource flate_state := flate_source inflated p.
#[local] Program Instance tiff_source_ok : ScanlineSourceOk flate_state := {|
  height := h;
  line_at := piece inflated p new;
  sub_at s n := at_line inflated p new n s |}.
Next Obligation.
  intros sub n Hat. eexists. split; [reflexivity|]. apply at_line_0; try done.
  split; [done|]. cbn. by rewrite (at_line_last _ _ _ Hat).
Qed.
Next Obligation.
  intros sub n Hat _. apply flate_next; try done; [apply tiff_lines_len|by rewrite Hkind|].
  intros E. right. by apply Hsame.
Qed.

Lemma tiff_scan_run ops line :
  Forall scan_op_ok ops → 0 <= line < Z.of_nat h →
  (GetScanline line (fold_left scan_run ops (scanline_new new))).1 = piece inflated p new (Z.to_nat line).
Proof.
  intros Hops Hl. change (piece inflated p new) with (line_at (ScanlineSourceOk := tiff_source_ok)).
  by apply scan_run_line; [apply at_line_0| |].
Qed.

Lemma tiff_predicted k :
  predicted inflated p new k =
    TIFF_PredictLine
      (FlateOutput inflated (k * Z.to_nat (m_PredictPitch p)) (Z.to_nat (m_PredictPitch p))).1
      (m_PredictPitch p) (m_BitsPerComponent p) (m_Colors p) (m_Columns p).
Proof.
  assert (E : z_pos (after_lines inflated p k new) = (k * Z.to_nat (m_PredictPitch p))%nat).
  { induction k as [|k IH]; [done|]. cbn [after_lines]. unfold predict_line at 1. rewrite Hkind.
    cbn [snd z_pos FlateOutput]. unfold FlateOutput. cbn [z_pos]. rewrite IH. lia. }
  unfold predicted, predict_line. by rewrite Hkind, E.
Qed.
End tiff.

(** The whole image of a TIFF-predicted stream: its lines of [m_PredictPitch]
    bytes, each predicted by itself. *)
Definition tiff_image (inflated : list Z) (p : flate_params) (k : nat) : list Z :=
  let P := Z.to_nat (m_PredictPitch p) in
  concat (map (λ i, TIFF_PredictLine (FlateOutput inflated (i * P) P).1 (m_PredictPitch p)
                      (m_BitsPerComponent p) (m_Colors p) (m_Columns p)) (seq 0 k)).

(** With the TIFF predictor [GetScanline(line)] is the [line]-th piece of the
    image after any sequence of calls of the public interface, provided that the
    image's own parameters are the predictor's when the two pitches agree. *)
Theorem tiff_scanlines inflated p k ops line :
  m_Predictor p = kFlate → 0 < m_PredictPitch p → 0 < m_Pitch p →
  (m_Pitch p = m_PredictPitch p →
    m_bpc p = m_BitsPerComponent p ∧ m_nComps p = m_Colors p ∧ m_OutputWidth p = m_Columns p) →
  Forall (λ o, match o with GetOp l | SkipOp l _ => 0 <= l end) ops → 0 <= line →
  (line + 1) * m_Pitch p <= Z.of_nat k * m_PredictPitch p →
  let _ := flate_source inflated p in
  (GetScanline line (fold_left scan_run ops (scanline_new (flate_new p)))).1 =
  subspan (tiff_image inflated p k) (Z.to_nat line * Z.to_nat (m_Pitch p)) (Z.to_nat (m_Pitch p)).
Proof.
  intros Hk Hpp Hp Hs Hops Hl Hc src.
  set (hmax := S (foldr (λ o n, Nat.max n (match o with GetOp l | SkipOp l _ => Z.to_nat l end))
                    (Z.to_nat line) ops)).
  assert (Hmax : (Z.to_nat line < hmax)%nat ∧ Forall (λ o, match o with
    GetOp l => 0 <= l < Z.of_nat hmax | SkipOp l _ => 0 <= l <= Z.of_nat hmax end) ops).
  { unfold hmax. clear -Hops. induction Hops as [|o ops Ho _ [IH1 IH2]]; cbn [foldr].
    - split; [lia|constructor].
    - split; [lia|]. constructor; [destruct o; lia|].
      eapply Forall_impl; [exact IH2|]. intros []; lia. }
  destruct Hmax as [Hline Hops'].
  assert (E : ∀ j, predicted_bytes inflated p (flate_new p) j = tiff_image inflated p j).
  { intros j. unfold predicted_bytes, tiff_image. f_equal. apply map_ext. intros i.
    by apply tiff_predicted. }
  rewrite <-E, piece_eq; [|done|done|by intros; apply tiff_lines_len|].
  - apply (tiff_scan_run inflated p hmax Hk Hpp Hp Hs); [exact Hops'|lia].
  - rewrite Nat2Z.inj_succ, Z2Nat.id by lia. lia.
Qed.

Definition tiff_example : flate_params := FlateParams kFlate 2 8 1 2 3 8 1 3.
Lemma tiff_scanlines_witness :
  let _ := flate_source [1; 1; 1; 5; 5; 5] tiff_example in
  (GetScanline 1 (fold_left scan_run [GetOp 2; GetOp 0] (scanline_new (flate_new tiff_example)))).1 =
    [3; 5] ∧ True.
Proof.
  split; [|done].
  refine (tiff_scanlines [1; 1; 1; 5; 5; 5] tiff_example 2 [GetOp 2; GetOp 0] 1 eq_refl
    ltac:(reflexivity) ltac:(reflexivity) _ _ _ _); [|by repeat constructor|done|done].
  intros E. vm_compute in E. discriminate E.
Defined.

(** Two departures.  [Rewind] keeps [m_LastLine], so going back to a PNG line
    unfilters it against the line read last: the two rows [5] and [12] are read
    as [5], [12] and then, on returning to line 0, [17].  And with equal pitches
    the TIFF case takes the image's colours: a stream predicted byte by byte
    comes out of [TIFF_Predictor] and of the scanline decoder differently. *)
Theorem flate_scanlines_deviate :
  (let p := FlateParams kPng 1 8 1 1 1 8 1 1 in
   let _ := flate_source (png_encode 1 [0] [(2, [5]); (2, [12])]) p in
   let '(l0, s) := GetScanline 0 (scanline_new (flate_new p)) in
   let '(l1, s) := GetScanline 1 s in
   (l0, l1, (GetScanline 0 s).1) = ([5], [12], [17])) ∧
  (let p := FlateParams kFlate 4 8 2 2 4 8 1 4 in
   let _ := flate_source [1; 1; 1; 1] p in
   (GetScanline 0 (scanline_new (flate_new p))).1 = [1; 1; 2; 2] ∧
   TIFF_Predictor 1 8 4 [1; 1; 1; 1] = Some [1; 2; 3; 4]).
Proof. repeat split; reflexivity. Qed.
