(* ===== verification/BitStream.v ===== *)
(** * Streams of bits

    [CFX_BitStream] ([core/fxcrt/cfx_bitstream.cpp]): bits are read from bytes, the
    most significant first, against the value of a list of bits. *)
From S2P Require Import Prelude Words.

Record CFX_BitStream := BitStream { m_pData : list Z; m_BitPos : Z }.
Definition m_BitSize (s : CFX_BitStream) : Z := u32 (zlen (m_pData s) * 8).

Definition bits_of (data : list Z) : CFX_BitStream := BitStream data 0.
Definition at_bit (pos : Z) (s : CFX_BitStream) : CFX_BitStream := BitStream (m_pData s) (u32 pos).

Definition IsEOF (s : CFX_BitStream) : bool := m_BitSize s <=? m_BitPos s.
Definition SkipBits (nBits : Z) (s : CFX_BitStream) : CFX_BitStream := at_bit (m_BitPos s + nBits) s.
Definition ByteAlign (s : CFX_BitStream) : CFX_BitStream := at_bit (u32 (m_BitPos s + 7) .& 0xFFFFFFF8) s.
Definition Rewind (s : CFX_BitStream) : CFX_BitStream := at_bit 0 s.
Definition BitsRemaining (s : CFX_BitStream) : Z := if m_BitPos s <=? m_BitSize s then m_BitSize s - m_BitPos s else 0.

(** The loop over whole bytes. *)
Fixpoint whole_bytes (rounds : nat) (data : list Z) (byte_pos bit_left result : Z) : Z * Z * Z :=
  match rounds with
  | O => (byte_pos, bit_left, result)
  | S rounds' =>
      let bit_left := bit_left - 8 in
      whole_bytes rounds' data (byte_pos + 1) bit_left (result .| u32 (data.[byte_pos] .<< bit_left))
  end.

Definition GetBits (nBits : Z) (s : CFX_BitStream) : Z * CFX_BitStream :=
  if (m_BitSize s <? nBits) || (m_BitSize s - nBits <? m_BitPos s) then (0, s)
  else
    let bit_pos := m_BitPos s mod 8 in
    let byte_pos := m_BitPos s / 8 in
    let data := m_pData s in
    let current_byte := data.[byte_pos] in
    let after := SkipBits nBits s in
    if nBits =? 1 then (if current_byte .& (1 .<< (7 - bit_pos)) =? 0 then 0 else 1, after)
    else
      let bits_readable := 8 - bit_pos in
      if negb (bit_pos =? 0) && (nBits <=? bits_readable) then
        ((current_byte .& (0xFF .>> bit_pos)) .>> (bits_readable - nBits), after)
      else
        let '(byte_pos, bit_left, result) :=
          if bit_pos =? 0 then (byte_pos, nBits, 0)
          else
            let bit_left := nBits - bits_readable in
            (byte_pos + 1, bit_left, u32 ((current_byte .& ((1 .<< bits_readable) - 1)) .<< bit_left)) in
        let '(byte_pos, bit_left, result) := whole_bytes (Z.to_nat (bit_left / 8)) data byte_pos bit_left result in
        (if bit_left =? 0 then result else result .| (data.[byte_pos] .>> (8 - bit_left)), after).

(** ** The value of bits *)
Definition bits_value (l : list bool) : Z := fold_left (λ v b, 2 * v + Z.b2z b) l 0.
Fixpoint put_bits (n : nat) (v : Z) : list bool :=
  match n with O => [] | S n' => Z.testbit v (Z.of_nat n') :: put_bits n' v end.
Definition stream_bits (data : list Z) : list bool := flat_map (put_bits 8) data.

Lemma bits_value_app a b : bits_value (a ++ b) = bits_value a * 2 ^ zlen b + bits_value b.
Proof.
  unfold bits_value. rewrite fold_left_app. generalize (fold_left (λ v b, 2 * v + Z.b2z b) a 0). intros v.
  assert (Hv : ∀ l v, fold_left (λ v b, 2 * v + Z.b2z b) l v = v * 2 ^ zlen l + fold_left (λ v b, 2 * v + Z.b2z b) l 0).
  { clear. induction l as [|x l IH]; intros v; cbn [fold_left]; [rewrite zlen_nil; lia|].
    rewrite IH, (IH (2 * 0 + Z.b2z x)), zlen_cons, Z.pow_add_r by (pose proof (zlen_nonneg l); lia). lia. }
  apply Hv.
Qed.

Lemma bits_value_cons b l : bits_value (b :: l) = Z.b2z b * 2 ^ zlen l + bits_value l.
Proof. change (b :: l) with ([b] ++ l). rewrite bits_value_app. by destruct b. Qed.

Lemma bits_value_range l : 0 <= bits_value l < 2 ^ zlen l.
Proof.
  induction l as [|b l IH]; [done|]. rewrite bits_value_cons, zlen_cons, Z.pow_add_r by (pose proof (zlen_nonneg l); lia).
  destruct b; cbn [Z.b2z]; lia.
Qed.

Lemma length_put_bits n v : length (put_bits n v) = n.
Proof. induction n; cbn; lia. Qed.

Lemma put_bits_value n v : bits_value (put_bits n v) = v mod 2 ^ Z.of_nat n.
Proof.
  induction n as [|n IH]; [by rewrite Z.mod_1_r|]. cbn [put_bits]. rewrite bits_value_cons, IH. unfold zlen. rewrite length_put_bits.
  rewrite Nat2Z.inj_succ, <-Z.add_1_r, Z.pow_add_r, Z.rem_mul_r by lia. rewrite Z.testbit_spec' by lia. change (2 ^ 1) with 2. lia.
Qed.

Lemma put_bits_app a b v : put_bits (a + b) v = put_bits a (v .>> Z.of_nat b) ++ put_bits b v.
Proof.
  induction a as [|a IH]; [done|]. cbn [Nat.add put_bits app]. rewrite IH, Z.shiftr_spec by lia. do 2 f_equal. lia.
Qed.

Lemma take_drop_put_bits p n m l v : l = (p + (n + m))%nat → take n (drop p (put_bits l v)) = put_bits n (v .>> Z.of_nat m).
Proof.
  intros ->. rewrite (put_bits_app p (n + m)), (put_bits_app n m), drop_app_ge by (rewrite length_put_bits; lia).
  rewrite length_put_bits, Nat.sub_diag, drop_0, take_app_le by (rewrite length_put_bits; lia).
  apply take_ge. rewrite length_put_bits. lia.
Qed.

(** The [n] bits of [data] at [pos]. *)
Definition chunk (data : list Z) (pos n : Z) : Z := bits_value (take (Z.to_nat n) (drop (Z.to_nat pos) (stream_bits data))).

Lemma length_stream_bits data : length (stream_bits data) = (8 * length data)%nat.
Proof. induction data as [|b l IH]; [done|]. cbn [stream_bits flat_map]. rewrite length_app, length_put_bits. cbn [length]. unfold stream_bits in IH. lia. Qed.

Lemma chunk_split data pos a b : 0 <= pos → 0 <= a → 0 <= b → pos + a + b <= 8 * zlen data →
  chunk data pos (a + b) = chunk data pos a * 2 ^ b + chunk data (pos + a) b.
Proof.
  intros Hp Ha Hb Hle. unfold chunk. rewrite Z2Nat.inj_add by done. rewrite <-take_take_drop, bits_value_app, drop_drop.
  rewrite Z2Nat.inj_add by done. f_equal. f_equal. unfold zlen. rewrite length_take, length_drop, length_stream_bits. unfold zlen in Hle. f_equal. lia.
Qed.

Lemma chunk_in_byte data q p n : 0 <= q < zlen data → 0 <= p → 0 <= n → p + n <= 8 →
  chunk data (8 * q + p) n = (data.[q] .>> (8 - p - n)) mod 2 ^ n.
Proof.
  intros Hq Hp Hn Hle. unfold chunk.
  assert (E : drop (Z.to_nat (8 * q + p)) (stream_bits data) = drop (Z.to_nat p) (put_bits 8 data.[q]) ++ stream_bits (drop (S (Z.to_nat q)) data)).
  { pose proof (rd_lookup_lt data q Hq) as Hl. rewrite <-(take_drop_middle data (Z.to_nat q) _ Hl) at 1. unfold stream_bits.
    rewrite flat_map_app. cbn [flat_map]. assert (Hlen : length (flat_map (put_bits 8) (take (Z.to_nat q) data)) = (8 * Z.to_nat q)%nat).
    { change (flat_map (put_bits 8)) with stream_bits. rewrite length_stream_bits, length_take. unfold zlen in Hq. lia. }
    rewrite drop_app_ge by lia. rewrite Hlen. replace (Z.to_nat (8 * q + p) - 8 * Z.to_nat q)%nat with (Z.to_nat p) by lia.
    rewrite drop_app_le by (rewrite length_put_bits; lia). done. }
  rewrite E, take_app_le by (rewrite length_drop, length_put_bits; lia).
  rewrite (take_drop_put_bits (Z.to_nat p) (Z.to_nat n) (8 - Z.to_nat p - Z.to_nat n)) by lia.
  rewrite put_bits_value, Z2Nat.id by done. do 2 f_equal. lia.
Qed.

Lemma chunk_byte data q : bytes data → 0 <= q < zlen data → chunk data (8 * q) 8 = data.[q].
Proof.
  intros Hb Hq. replace (8 * q) with (8 * q + 0) by lia. rewrite chunk_in_byte by lia. rewrite Z.shiftr_0_r. apply Z.mod_small.
  by apply bytes_rd.
Qed.

Lemma chunk_range data pos n : 0 <= n → 0 <= chunk data pos n < 2 ^ n.
Proof.
  intros Hn. unfold chunk. pose proof (bits_value_range (take (Z.to_nat n) (drop (Z.to_nat pos) (stream_bits data)))) as Hr.
  assert (2 ^ zlen (take (Z.to_nat n) (drop (Z.to_nat pos) (stream_bits data))) <= 2 ^ n); [|lia].
  apply Z.pow_le_mono_r; [lia|]. unfold zlen. rewrite length_take. lia.
Qed.

(** ** [GetBits] *)
Lemma or_low a b k : 0 <= k → 0 <= a → 0 <= b < 2 ^ k → (a * 2 ^ k) .| b = a * 2 ^ k + b.
Proof.
  intros Hk Ha Hb. rewrite <-Z.shiftl_mul_pow2, Z.lor_comm by done. rewrite lor_shiftl_add by done. rewrite Z.shiftl_mul_pow2 by done. lia.
Qed.

(** One more byte behind [v]. *)
Lemma or_byte v b left : 0 <= v < 2 ^ (32 - left) → fits 8 b → 8 <= left <= 32 →
  (v * 2 ^ left) .| u32 (b .<< (left - 8)) = (v * 2 ^ 8 + b) * 2 ^ (left - 8).
Proof.
  intros Hv Hb Hl. set (k := left - 8). assert (El : 2 ^ left = 2 ^ 8 * 2 ^ k) by (unfold k; rewrite <-Z.pow_add_r by lia; f_equal; lia).
  rewrite Z.shiftl_mul_pow2 by lia. pose proof (Z.pow_pos_nonneg 2 k ltac:(lia) ltac:(lia)) as Hk. unfold fits in Hb.
  assert (E32 : 2 ^ 32 = 2 ^ 8 * 2 ^ (24 - k) * 2 ^ k) by (unfold k; rewrite <-!Z.pow_add_r by lia; f_equal; lia).
  pose proof (Z.pow_pos_nonneg 2 (24 - k) ltac:(lia) ltac:(lia)) as Hk2.
  assert (Es : u32 (b * 2 ^ k) = b * 2 ^ k) by (apply Z.mod_small; rewrite E32; nia). rewrite Es, or_low; [|lia..|rewrite El; nia]. rewrite El. lia.
Qed.

Lemma whole_bytes_spec data rounds : bytes data → ∀ q left v,
  0 <= q → 0 <= v < 2 ^ (32 - left) → 8 * Z.of_nat rounds <= left <= 32 → 8 * q + left <= 8 * zlen data →
  let done_ := 8 * Z.of_nat rounds in
  whole_bytes rounds data q left (v * 2 ^ left) =
    (q + Z.of_nat rounds, left - done_, (v * 2 ^ done_ + chunk data (8 * q) done_) * 2 ^ (left - done_)).
Proof.
  intros Hb. induction rounds as [|r IH]; intros q left v Hq Hv Hl Hle; cbv zeta; cbn [whole_bytes].
  { rewrite Z.add_0_r, Z.mul_0_r, Z.sub_0_r. f_equal. change (chunk data (8 * q) 0) with 0. f_equal. lia. }
  assert (Hq8 : 0 <= q < zlen data) by lia. pose proof (bytes_rd data q Hb) as Hby. rewrite or_byte by (done || lia). cbv zeta in IH.
  assert (Hv8 : 0 <= v * 2 ^ 8 + data.[q] < 2 ^ (32 - (left - 8))).
  { unfold fits in Hby. replace (32 - (left - 8)) with (32 - left + 8) by lia. rewrite Z.pow_add_r by lia. lia. }
  rewrite IH; [|lia|done|lia|lia].
  replace (8 * Z.of_nat (S r)) with (8 + 8 * Z.of_nat r) by lia. rewrite (chunk_split data (8 * q) 8) by lia. rewrite chunk_byte by done.
  replace (8 * (q + 1)) with (8 * q + 8) by lia. f_equal; [f_equal; lia|].
  replace (left - 8 - 8 * Z.of_nat r) with (left - (8 + 8 * Z.of_nat r)) by lia. f_equal. rewrite (Z.pow_add_r 2 8) by lia. lia.
Qed.

(** The bits that are left behind the whole bytes. *)
Lemma last_bits data q left v : bytes data → 0 <= q → 0 <= left < 8 → 0 <= v → 8 * q + left <= 8 * zlen data →
  (if left =? 0 then v * 2 ^ left else (v * 2 ^ left) .| (data.[q] .>> (8 - left))) = v * 2 ^ left + chunk data (8 * q) left.
Proof.
  intros Hb Hq Hl Hv Hle. destruct (Z.eqb_spec left 0) as [->|Hne].
  { change (chunk data (8 * q) 0) with 0. lia. }
  pose proof (bytes_rd data q Hb) as Hby. unfold fits in Hby.
  assert (Hs : 0 <= data.[q] .>> (8 - left) < 2 ^ left).
  { rewrite Z.shiftr_div_pow2 by lia. pose proof (Z.pow_pos_nonneg 2 (8 - left)). split; [apply Z.div_pos; lia|].
    apply Z.div_lt_upper_bound; [lia|]. rewrite <-Z.pow_add_r by lia. replace (8 - left + left) with 8 by lia. lia. }
  rewrite or_low by (done || lia). f_equal. replace (8 * q) with (8 * q + 0) by lia. rewrite chunk_in_byte by lia.
  rewrite Z.sub_0_r. symmetry. by apply Z.mod_small.
Qed.

(** Bits within a byte, as the code cuts them out. *)
Lemma cut_bits b p n : 0 <= p → 0 <= n → p + n <= 8 →
  (b .& (0xFF .>> p)) .>> (8 - p - n) = (b .>> (8 - p - n)) mod 2 ^ n.
Proof.
  intros Hp Hn Hle. rewrite Z.shiftr_land, Z.shiftr_shiftr by lia. rewrite <-(Z.land_ones _ n) by done. f_equal.
  change 0xFF with (Z.ones 8). rewrite Z.shiftr_div_pow2, Z.ones_div_pow2 by lia. f_equal. lia.
Qed.

Lemma high_bits b p : 0 <= p <= 8 → b .& ((1 .<< (8 - p)) - 1) = (b .>> 0) mod 2 ^ (8 - p).
Proof. intros Hp. rewrite Z.shiftl_1_l, Z.shiftr_0_r. apply land_ones_mod. lia. Qed.

Lemma one_bit b k : 0 <= k → (if b .& (1 .<< k) =? 0 then 0 else 1) = (b .>> k) mod 2 ^ 1.
Proof.
  intros Hk. rewrite Z.shiftr_div_pow2 by done. change (2 ^ 1) with 2. rewrite <-Z.testbit_spec' by done.
  assert (E : b .& (1 .<< k) = Z.b2z (Z.testbit b k) * 2 ^ k).
  { rewrite Z.shiftl_1_l. apply Z.bits_inj'. intros i Hi. rewrite Z.land_spec, Z.pow2_bits_eqb by done.
    destruct (Z.eqb_spec k i) as [<-|Hne]; cbn [andb].
    - rewrite andb_true_r. destruct (Z.testbit b k); cbn [Z.b2z]; [|by rewrite Z.bits_0]. by rewrite Z.mul_1_l, Z.pow2_bits_true.
    - rewrite andb_false_r. destruct (Z.testbit b k); cbn [Z.b2z]; [|by rewrite Z.bits_0]. by rewrite Z.mul_1_l, Z.pow2_bits_false. }
  rewrite E. destruct (Z.testbit b k); cbn [Z.b2z]; [|done]. destruct (Z.eqb_spec (1 * 2 ^ k) 0); [|done].
  pose proof (Z.pow_pos_nonneg 2 k). lia.
Qed.

Definition stream_ok (s : CFX_BitStream) : Prop := bytes (m_pData s) ∧ 8 * zlen (m_pData s) < 2 ^ 32 ∧ 0 <= m_BitPos s.

Lemma size_bits s : stream_ok s → m_BitSize s = 8 * zlen (m_pData s).
Proof. intros (_ & Hl & _). unfold m_BitSize. rewrite Z.mul_comm. apply Z.mod_small. pose proof (zlen_nonneg (m_pData s)). lia. Qed.

Lemma GetBits_chunk n s : stream_ok s → 1 <= n <= 32 → m_BitPos s + n <= 8 * zlen (m_pData s) →
  GetBits n s = (chunk (m_pData s) (m_BitPos s) n, SkipBits n s).
Proof.
  intros Hs Hn Hle. pose proof (size_bits s Hs) as Esz. destruct Hs as (Hb & Hl & Hp). unfold GetBits. rewrite Esz.
  replace (_ || _) with false by (pose proof (zlen_nonneg (m_pData s)); lia). cbv zeta.
  pose proof (Z.div_mod (m_BitPos s) 8 ltac:(lia)) as E. pose proof (Z.mod_pos_bound (m_BitPos s) 8 ltac:(lia)) as Hr.
  set (q := m_BitPos s / 8) in *. set (r := m_BitPos s mod 8) in *. assert (Hq : 0 <= q < zlen (m_pData s)) by lia.
  assert (Ec : chunk (m_pData s) (m_BitPos s) = chunk (m_pData s) (8 * q + r)) by (by rewrite E). rewrite Ec. clearbody q r. clear Ec.
  destruct (Z.eqb_spec n 1) as [->|Hn1].
  { f_equal. rewrite one_bit, chunk_in_byte by lia. do 2 f_equal. lia. }
  destruct (Z.eqb_spec r 0) as [->|Hr0]; cbn [negb andb].
  - pose proof (whole_bytes_spec (m_pData s) (Z.to_nat (n / 8)) Hb q n 0) as Hw. cbv zeta in Hw.
    rewrite Z2Nat.id in Hw by (apply Z.div_pos; lia). change (0 * 2 ^ n) with 0 in Hw.
    pose proof (Z.div_mod n 8 ltac:(lia)) as En. pose proof (Z.mod_pos_bound n 8 ltac:(lia)) as Hm.
    rewrite Hw; [|lia|pose proof (Z.pow_pos_nonneg 2 (32 - n)); lia|lia|lia]. f_equal.
    set (k := n / 8) in *. assert (Hk : 0 <= k) by (apply Z.div_pos; lia). pose proof (chunk_range (m_pData s) (8 * q) (8 * k) ltac:(lia)).
    rewrite last_bits; [|done|lia..]. rewrite Z.add_0_r. change (0 * 2 ^ (8 * k)) with 0. rewrite Z.add_0_l.
    replace (8 * (q + k)) with (8 * q + 8 * k) by lia. rewrite <-chunk_split by lia. f_equal. lia.
  - destruct (Z.leb_spec n (8 - r)) as [Hsmall|Hbig].
    { f_equal. rewrite cut_bits, chunk_in_byte by lia. done. }
    set (left := n - (8 - r)). rewrite high_bits by lia. replace 0 with (8 - r - (8 - r)) at 1 by lia.
    rewrite <-chunk_in_byte by lia. set (v := chunk _ _ (8 - r)). pose proof (chunk_range (m_pData s) (8 * q + r) (8 - r) ltac:(lia)) as Hv. fold v in Hv.
    assert (Hv32 : 0 <= v < 2 ^ (32 - left)).
    { split; [lia|]. eapply Z.lt_le_trans; [apply Hv|]. apply Z.pow_le_mono_r; unfold left; lia. }
    assert (Ev : u32 (v .<< left) = v * 2 ^ left).
    { rewrite Z.shiftl_mul_pow2 by (unfold left; lia). apply Z.mod_small. split; [unfold left in *; pose proof (Z.pow_pos_nonneg 2 left); unfold left in *; nia|].
      replace 32 with (32 - left + left) by lia. rewrite Z.pow_add_r by (unfold left; lia). pose proof (Z.pow_pos_nonneg 2 left ltac:(lia) ltac:(unfold left; lia)). nia. }
    rewrite Ev. pose proof (whole_bytes_spec (m_pData s) (Z.to_nat (left / 8)) Hb (q + 1) left v) as Hw. cbv zeta in Hw.
    assert (Hleft : 0 <= left <= 32) by (unfold left; lia).
    rewrite Z2Nat.id in Hw by (apply Z.div_pos; lia).
    pose proof (Z.div_mod left 8 ltac:(lia)) as En. pose proof (Z.mod_pos_bound left 8 ltac:(lia)) as Hm.
    rewrite Hw; [|lia|done|lia|unfold left in *; lia]. f_equal.
    set (k := left / 8) in *. assert (Hk : 0 <= k) by (apply Z.div_pos; lia). pose proof (chunk_range (m_pData s) (8 * (q + 1)) (8 * k) ltac:(lia)).
    rewrite last_bits; [|done|lia|lia|pose proof (Z.pow_pos_nonneg 2 (8 * k)); nia|unfold left in *; lia].
    replace n with (8 - r + (8 * k + (left - 8 * k))) at 1 by (unfold left; lia).
    rewrite (chunk_split (m_pData s) (8 * q + r) (8 - r)), (chunk_split (m_pData s) _ (8 * k)) by (unfold left in *; lia). fold v.
    replace (8 * q + r + (8 - r)) with (8 * (q + 1)) by lia. replace (8 * (q + 1) + 8 * k) with (8 * (q + 1 + k)) by lia.
    rewrite (Z.pow_add_r 2 (8 * k)) by lia. lia.
Qed.

Lemma skip_pos n s : stream_ok s → 0 <= n → m_BitPos s + n < 2 ^ 32 → m_BitPos (SkipBits n s) = m_BitPos s + n.
Proof. intros (_ & _ & Hp) Hn Hle. cbn. apply Z.mod_small. lia. Qed.

Lemma skip_ok n s : stream_ok s → stream_ok (SkipBits n s).
Proof. intros (Hb & Hl & Hp). split_and!; [done|done|]. apply Z.mod_pos_bound. lia. Qed.

Lemma bit_shl' x k i : 0 <= k → 0 <= i → Z.testbit (x .<< k) i = (k <=? i) && Z.testbit x (i - k).
Proof. intros Hk Hi. rewrite Z.shiftl_spec by done. destruct (Z.leb_spec k i); [done|]. by rewrite Z.testbit_neg_r by lia. Qed.

Lemma land_align x : fits 32 x → x .& 0xFFFFFFF8 = 8 * (x / 8).
Proof.
  intros Hx. apply fits_testbit in Hx as [H0 Hx]; [|lia]. 
  replace (8 * (x / 8)) with ((x .>> 3) .<< 3) by (rewrite Z.shiftr_div_pow2, Z.shiftl_mul_pow2 by lia; change (2 ^ 3) with 8; lia).
  apply Z.bits_inj'. intros i Hi. change 0xFFFFFFF8 with (Z.ones 29 .<< 3). rewrite Z.land_spec, !bit_shl' by lia.
  destruct (Z.leb_spec 3 i); cbn [andb]; [|by rewrite andb_false_r].
  rewrite Z.shiftr_spec by lia. replace (i - 3 + 3) with i by lia. rewrite Z.testbit_ones_nonneg by lia.
  destruct (Z.ltb_spec (i - 3) 29); [by rewrite andb_true_r|]. by rewrite Hx by lia.
Qed.

Lemma align_pos s : stream_ok s → m_BitPos s + 7 < 2 ^ 32 → m_BitPos (ByteAlign s) = 8 * ((m_BitPos s + 7) / 8).
Proof.
  intros (_ & _ & Hp) Hle. unfold ByteAlign. cbn [m_BitPos at_bit].
  assert (E : u32 (m_BitPos s + 7) = m_BitPos s + 7) by (apply Z.mod_small; lia). rewrite E, land_align by (unfold fits; lia).
  apply Z.mod_small. clear E. Z.div_mod_to_equations. lia.
Qed.

Lemma align_ok s : stream_ok s → stream_ok (ByteAlign s).
Proof. intros (Hb & Hl & Hp). split_and!; [done|done|]. apply Z.mod_pos_bound. lia. Qed.

(** What is ahead of the position. *)
Definition ahead (s : CFX_BitStream) : list bool := drop (Z.to_nat (m_BitPos s)) (stream_bits (m_pData s)).

Lemma ahead_skip n s rest b : stream_ok s → ahead s = b ++ rest → zlen b = n → m_BitPos s + n <= 8 * zlen (m_pData s) → ahead (SkipBits n s) = rest.
Proof.
  intros Hs Ha Hb Hle. pose proof Hs as (_ & Hl & Hp). pose proof (zlen_nonneg b). unfold ahead. rewrite skip_pos by (done || lia). cbn [m_pData SkipBits at_bit].
  rewrite Z2Nat.inj_add by lia. unfold ahead in Ha. rewrite <-drop_drop, Ha. unfold zlen in Hb. rewrite <-Hb, Nat2Z.id. by rewrite drop_app_length.
Qed.

Lemma ahead_length s : stream_ok s → zlen (ahead s) = Z.max 0 (8 * zlen (m_pData s) - m_BitPos s).
Proof. intros (_ & _ & Hp). unfold ahead, zlen. rewrite length_drop, length_stream_bits. lia. Qed.

Lemma GetBits_put n v s rest : stream_ok s → (1 <= n <= 32)%nat → ahead s = put_bits n v ++ rest →
  ∃ s', GetBits (Z.of_nat n) s = (v mod 2 ^ Z.of_nat n, s') ∧ s' = SkipBits (Z.of_nat n) s ∧ ahead s' = rest ∧ stream_ok s' ∧
    m_BitPos s' = m_BitPos s + Z.of_nat n.
Proof.
  intros Hs Hn Ha. pose proof (ahead_length s Hs) as Hlen. rewrite Ha, zlen_app in Hlen. pose proof (zlen_nonneg rest).
  assert (Hput : zlen (put_bits n v) = Z.of_nat n) by (unfold zlen; by rewrite length_put_bits). pose proof Hs as (_ & Hl & Hp).
  exists (SkipBits (Z.of_nat n) s). rewrite GetBits_chunk by (done || lia). split_and!; [|done| |by apply skip_ok|].
  - f_equal. unfold chunk. fold (ahead s). rewrite Ha, Nat2Z.id, take_app_le by (rewrite length_put_bits; lia).
    rewrite take_ge by (rewrite length_put_bits; lia). apply put_bits_value.
  - by apply (ahead_skip _ _ _ (put_bits n v)); [..|lia].
  - apply skip_pos; [done|lia..].
Qed.

(** C37: [GetBits(n)] is the value of the next [n] bits, the most significant bit
    of each byte first, at whatever position of a byte they begin and end, and
    moves behind them; if fewer are left it is 0 and does not move. *)
Theorem bit_stream_reads n s : stream_ok s → 1 <= n <= 32 →
  GetBits n s =
    if m_BitPos s + n <=? 8 * zlen (m_pData s)
    then (bits_value (take (Z.to_nat n) (drop (Z.to_nat (m_BitPos s)) (stream_bits (m_pData s)))), BitStream (m_pData s) (m_BitPos s + n))
    else (0, s).
Proof.
  intros Hs Hn. destruct (Z.leb_spec (m_BitPos s + n) (8 * zlen (m_pData s))) as [Hle|Hgt].
  - rewrite GetBits_chunk by done. f_equal. pose proof Hs as (_ & Hl & _). unfold SkipBits, at_bit. f_equal. apply (skip_pos n s Hs); lia.
  - unfold GetBits. rewrite size_bits by done. by replace (_ || _) with true by lia.
Qed.

Lemma bit_stream_reads_witness :
  GetBits 20 (BitStream [0xA5; 0x3C; 0xFF; 0x01] 3) = (0x29E7F, BitStream [0xA5; 0x3C; 0xFF; 0x01] 23) ∧
  GetBits 9 (BitStream [0xA5; 0x3C] 8) = (0, BitStream [0xA5; 0x3C] 8).
Proof.
  split.
  - rewrite (bit_stream_reads 20 (BitStream [0xA5; 0x3C; 0xFF; 0x01] 3)); [reflexivity| |lia]. split_and!; [cbn; solve_bytes|done|cbn; lia].
  - rewrite (bit_stream_reads 9 (BitStream [0xA5; 0x3C] 8)); [reflexivity| |lia]. split_and!; [cbn; solve_bytes|done|cbn; lia].
Defined.
