(* ===== verification/FaxTables.v ===== *)
(** * Tables of the fax codec

    The tables of [core/fxcodec/fax/faxmodule.cpp]: the first one bit of a byte, the
    codes of runs for the decoder, and those for the encoder as pairs of a code and
    its length. *)
From S2P Require Import Prelude.

(** [OneLeadPos] *)
Definition OneLeadPos : list Z :=
  [8; 7; 6; 6; 5; 5; 5; 5; 4; 4; 4; 4; 4; 4; 4; 4; 3; 3; 3; 3; 3; 3; 3; 3; 3; 3; 3; 3; 3; 3; 3; 3;
   2; 2; 2; 2; 2; 2; 2; 2; 2; 2; 2; 2; 2; 2; 2; 2; 2; 2; 2; 2; 2; 2; 2; 2; 2; 2; 2; 2; 2; 2; 2; 2;
   1; 1; 1; 1; 1; 1; 1; 1; 1; 1; 1; 1; 1; 1; 1; 1; 1; 1; 1; 1; 1; 1; 1; 1; 1; 1; 1; 1; 1; 1; 1; 1;
   1; 1; 1; 1; 1; 1; 1; 1; 1; 1; 1; 1; 1; 1; 1; 1; 1; 1; 1; 1; 1; 1; 1; 1; 1; 1; 1; 1; 1; 1; 1; 1;
   0; 0; 0; 0; 0; 0; 0; 0; 0; 0; 0; 0; 0; 0; 0; 0; 0; 0; 0; 0; 0; 0; 0; 0; 0; 0; 0; 0; 0; 0; 0; 0;
   0; 0; 0; 0; 0; 0; 0; 0; 0; 0; 0; 0; 0; 0; 0; 0; 0; 0; 0; 0; 0; 0; 0; 0; 0; 0; 0; 0; 0; 0; 0; 0;
   0; 0; 0; 0; 0; 0; 0; 0; 0; 0; 0; 0; 0; 0; 0; 0; 0; 0; 0; 0; 0; 0; 0; 0; 0; 0; 0; 0; 0; 0; 0; 0;
   0; 0; 0; 0; 0; 0; 0; 0; 0; 0; 0; 0; 0; 0; 0; 0; 0; 0; 0; 0; 0; 0; 0; 0; 0; 0; 0; 0; 0; 0; 0; 0].

(** For each length of a code, from one bit on: how many codes of this length there
    are, and for each of them the code and its run, low byte first; 255 ends. *)
Definition FaxBlackRunIns : list Z :=
  [0; 2; 2; 3; 0; 3; 2; 0; 2; 2; 1; 0; 3; 4; 0; 2; 2; 6; 0; 3; 5; 0; 1; 3; 7; 0; 2; 4; 9; 0; 5; 8;
   0; 3; 4; 10; 0; 5; 11; 0; 7; 12; 0; 2; 4; 13; 0; 7; 14; 0; 1; 24; 15; 0; 5; 8; 18; 0; 15; 64; 0;
   23; 16; 0; 24; 17; 0; 55; 0; 0; 10; 8; 0; 7; 12; 64; 7; 13; 128; 7; 23; 24; 0; 24; 25; 0; 40;
   23; 0; 55; 22; 0; 103; 19; 0; 104; 20; 0; 108; 21; 0; 54; 18; 192; 7; 19; 0; 8; 20; 64; 8; 21;
   128; 8; 22; 192; 8; 23; 0; 9; 28; 64; 9; 29; 128; 9; 30; 192; 9; 31; 0; 10; 36; 52; 0; 39; 55;
   0; 40; 56; 0; 43; 59; 0; 44; 60; 0; 51; 64; 1; 52; 128; 1; 53; 192; 1; 55; 53; 0; 56; 54; 0; 82;
   50; 0; 83; 51; 0; 84; 44; 0; 85; 45; 0; 86; 46; 0; 87; 47; 0; 88; 57; 0; 89; 58; 0; 90; 61; 0;
   91; 0; 1; 100; 48; 0; 101; 49; 0; 102; 62; 0; 103; 63; 0; 104; 30; 0; 105; 31; 0; 106; 32; 0;
   107; 33; 0; 108; 40; 0; 109; 41; 0; 200; 128; 0; 201; 192; 0; 202; 26; 0; 203; 27; 0; 204; 28;
   0; 205; 29; 0; 210; 34; 0; 211; 35; 0; 212; 36; 0; 213; 37; 0; 214; 38; 0; 215; 39; 0; 218; 42;
   0; 219; 43; 0; 20; 74; 128; 2; 75; 192; 2; 76; 0; 3; 77; 64; 3; 82; 0; 5; 83; 64; 5; 84; 128; 5;
   85; 192; 5; 90; 0; 6; 91; 64; 6; 100; 128; 6; 101; 192; 6; 108; 0; 2; 109; 64; 2; 114; 128; 3;
   115; 192; 3; 116; 0; 4; 117; 64; 4; 118; 128; 4; 119; 192; 4; 255].
Definition FaxWhiteRunIns : list Z :=
  [0; 0; 0; 6; 7; 2; 0; 8; 3; 0; 11; 4; 0; 12; 5; 0; 14; 6; 0; 15; 7; 0; 6; 7; 10; 0; 8; 11; 0; 18;
   128; 0; 19; 8; 0; 20; 9; 0; 27; 64; 0; 9; 3; 13; 0; 7; 1; 0; 8; 12; 0; 23; 192; 0; 24; 128; 6;
   42; 16; 0; 43; 17; 0; 52; 14; 0; 53; 15; 0; 12; 3; 22; 0; 4; 23; 0; 8; 20; 0; 12; 19; 0; 19; 26;
   0; 23; 21; 0; 24; 28; 0; 36; 27; 0; 39; 18; 0; 40; 24; 0; 43; 25; 0; 55; 0; 1; 42; 2; 29; 0; 3;
   30; 0; 4; 45; 0; 5; 46; 0; 10; 47; 0; 11; 48; 0; 18; 33; 0; 19; 34; 0; 20; 35; 0; 21; 36; 0; 22;
   37; 0; 23; 38; 0; 26; 31; 0; 27; 32; 0; 36; 53; 0; 37; 54; 0; 40; 39; 0; 41; 40; 0; 42; 41; 0;
   43; 42; 0; 44; 43; 0; 45; 44; 0; 50; 61; 0; 51; 62; 0; 52; 63; 0; 53; 0; 0; 54; 64; 1; 55; 128;
   1; 74; 59; 0; 75; 60; 0; 82; 49; 0; 83; 50; 0; 84; 51; 0; 85; 52; 0; 88; 55; 0; 89; 56; 0; 90;
   57; 0; 91; 58; 0; 100; 192; 1; 101; 0; 2; 103; 128; 2; 104; 64; 2; 16; 152; 192; 5; 153; 0; 6;
   154; 64; 6; 155; 192; 6; 204; 192; 2; 205; 0; 3; 210; 64; 3; 211; 128; 3; 212; 192; 3; 213; 0;
   4; 214; 64; 4; 215; 128; 4; 216; 192; 4; 217; 0; 5; 218; 64; 5; 219; 128; 5; 0; 3; 8; 0; 7; 12;
   64; 7; 13; 128; 7; 10; 18; 192; 7; 19; 0; 8; 20; 64; 8; 21; 128; 8; 22; 192; 8; 23; 0; 9; 28;
   64; 9; 29; 128; 9; 30; 192; 9; 31; 0; 10; 255].

(** Runs 0 to 63, then 64, 128 and so on. *)
Definition BlackRunTerminator : list Z :=
  [55; 10; 2; 3; 3; 2; 2; 2; 3; 3; 3; 4; 2; 4; 3; 5; 5; 6; 4; 6; 4; 7; 5; 7; 7; 7; 4; 8; 7; 8; 24;
   9; 23; 10; 24; 10; 8; 10; 103; 11; 104; 11; 108; 11; 55; 11; 40; 11; 23; 11; 24; 11; 202; 12;
   203; 12; 204; 12; 205; 12; 104; 12; 105; 12; 106; 12; 107; 12; 210; 12; 211; 12; 212; 12; 213;
   12; 214; 12; 215; 12; 108; 12; 109; 12; 218; 12; 219; 12; 84; 12; 85; 12; 86; 12; 87; 12; 100;
   12; 101; 12; 82; 12; 83; 12; 36; 12; 55; 12; 56; 12; 39; 12; 40; 12; 88; 12; 89; 12; 43; 12; 44;
   12; 90; 12; 102; 12; 103; 12].
Definition BlackRunMarkup : list Z :=
  [15; 10; 200; 12; 201; 12; 91; 12; 51; 12; 52; 12; 53; 12; 108; 13; 109; 13; 74; 13; 75; 13; 76;
   13; 77; 13; 114; 13; 115; 13; 116; 13; 117; 13; 118; 13; 119; 13; 82; 13; 83; 13; 84; 13; 85;
   13; 90; 13; 91; 13; 100; 13; 101; 13; 8; 11; 12; 11; 13; 11; 18; 12; 19; 12; 20; 12; 21; 12; 22;
   12; 23; 12; 28; 12; 29; 12; 30; 12; 31; 12].
Definition WhiteRunTerminator : list Z :=
  [53; 8; 7; 6; 7; 4; 8; 4; 11; 4; 12; 4; 14; 4; 15; 4; 19; 5; 20; 5; 7; 5; 8; 5; 8; 6; 3; 6; 52;
   6; 53; 6; 42; 6; 43; 6; 39; 7; 12; 7; 8; 7; 23; 7; 3; 7; 4; 7; 40; 7; 43; 7; 19; 7; 36; 7; 24;
   7; 2; 8; 3; 8; 26; 8; 27; 8; 18; 8; 19; 8; 20; 8; 21; 8; 22; 8; 23; 8; 40; 8; 41; 8; 42; 8; 43;
   8; 44; 8; 45; 8; 4; 8; 5; 8; 10; 8; 11; 8; 82; 8; 83; 8; 84; 8; 85; 8; 36; 8; 37; 8; 88; 8; 89;
   8; 90; 8; 91; 8; 74; 8; 75; 8; 50; 8; 51; 8; 52; 8].
Definition WhiteRunMarkup : list Z :=
  [27; 5; 18; 5; 23; 6; 55; 7; 54; 8; 55; 8; 100; 8; 101; 8; 104; 8; 103; 8; 204; 9; 205; 9; 210;
   9; 211; 9; 212; 9; 213; 9; 214; 9; 215; 9; 216; 9; 217; 9; 218; 9; 219; 9; 152; 9; 153; 9; 154;
   9; 24; 6; 155; 9; 8; 11; 12; 11; 13; 11; 18; 12; 19; 12; 20; 12; 21; 12; 22; 12; 23; 12; 28; 12;
   29; 12; 30; 12; 31; 12].
