(* ===== verification/Fax.v ===== *)
(** * The fax codec

    [core/fxcodec/fax/faxmodule.cpp]: the decoder of CCITT group 3 and group 4 images
    and the encoder of group 4.  An image is its lines of [pitch] bytes, a white
    pixel is a one bit; positions in a line or in the encoded data are counted in
    bits, from the most significant one of the first byte. *)
From S2P Require Import Prelude Pitch FaxTables.

(** The signed 32-bit results of sums; [None] is an overflow, which is undefined. *)
Definition safe_int (z : Z) : option Z := if (- 2 ^ 31 <=? z) && (z <? 2 ^ 31) then Some z else None.

(** [buf[pos / 8] & (1 << (7 - pos % 8))] *)
Definition bit_at (buf : list Z) (pos : Z) : bool := negb (buf.[pos / 8] .& (1 .<< (7 - pos mod 8)) =? 0).

(** [memset(buf + off, v, n)] *)
Definition set_bytes (buf : list Z) (off n v : Z) : list Z :=
  take (Z.to_nat off) buf ++ replicate (Z.to_nat n) v ++ drop (Z.to_nat (off + n)) buf.

(** ** Search of bits *)
Fixpoint skip_blocks (fuel : nat) (data_buf : list Z) (limit skip byte_pos : Z) : Z :=
  match fuel with
  | O => byte_pos
  | S fuel' =>
      if (byte_pos <? limit) && bool_decide (subspan data_buf (Z.to_nat byte_pos) 8 = replicate 8 skip)
      then skip_blocks fuel' data_buf limit skip (byte_pos + 8) else byte_pos
  end.

Fixpoint find_byte (n : nat) (data_buf : list Z) (max_pos bit_xor byte_pos : Z) : Z :=
  match n with
  | O => max_pos
  | S n' =>
      let data := data_buf.[byte_pos] .^ bit_xor in
      if negb (data =? 0) then Z.min (byte_pos * 8 + OneLeadPos.[data]) max_pos
      else find_byte n' data_buf max_pos bit_xor (byte_pos + 1)
  end.

Definition FindBit (data_buf : list Z) (max_pos start_pos : Z) (bit : bool) : Z :=
  if max_pos <=? start_pos then max_pos
  else
    let bit_xor := if bit then 0 else 0xFF in
    let bit_offset := start_pos mod 8 in
    let data := (data_buf.[start_pos / 8] .^ bit_xor) .& (0xFF .>> bit_offset) in
    if negb (bit_offset =? 0) && negb (data =? 0) then start_pos / 8 * 8 + OneLeadPos.[data]
    else
      let start_pos := if bit_offset =? 0 then start_pos else start_pos + 7 in
      let max_byte := (max_pos + 7) / 8 in
      let byte_pos := start_pos / 8 in
      let byte_pos :=
        if (8 <=? max_byte) && (byte_pos <? max_byte - 8)
        then skip_blocks (Z.to_nat max_byte) data_buf (max_byte - 8) (if bit then 0 else 0xFF) byte_pos else byte_pos in
      find_byte (Z.to_nat (max_byte - byte_pos)) data_buf max_pos bit_xor byte_pos.

Definition FaxG4FindB1B2 (ref_buf : list Z) (columns a0 : Z) (a0color : bool) : Z * Z :=
  let first_bit := (a0 <? 0) || bit_at ref_buf a0 in
  let b1 := FindBit ref_buf columns (a0 + 1) (negb first_bit) in
  if columns <=? b1 then (columns, columns)
  else
    let '(b1, first_bit) :=
      if Bool.eqb first_bit (negb a0color) then (FindBit ref_buf columns (b1 + 1) first_bit, negb first_bit) else (b1, first_bit) in
    if columns <=? b1 then (columns, columns)
    else (b1, FindBit ref_buf columns (b1 + 1) first_bit).

(** ** Black pixels *)
Fixpoint clear_bits (n : nat) (i byte : Z) (dest_buf : list Z) : list Z :=
  match n with
  | O => dest_buf
  | S n' => clear_bits n' (i + 1) byte (wr dest_buf byte (u8 (dest_buf.[byte] - (1 .<< (7 - i)))))
  end.

Definition FaxFillBits (dest_buf : list Z) (columns startpos endpos : Z) : list Z :=
  let startpos := Z.max startpos 0 in
  let endpos := Z.max 0 (Z.min endpos columns) in
  if endpos <=? startpos then dest_buf
  else
    let first_byte := startpos / 8 in
    let last_byte := (endpos - 1) / 8 in
    if first_byte =? last_byte
    then clear_bits (Z.to_nat ((endpos - 1) mod 8 + 1 - startpos mod 8)) (startpos mod 8) first_byte dest_buf
    else
      let dest_buf := clear_bits (Z.to_nat (8 - startpos mod 8)) (startpos mod 8) first_byte dest_buf in
      let dest_buf := clear_bits (Z.to_nat ((endpos - 1) mod 8 + 1)) 0 last_byte dest_buf in
      if first_byte + 1 <? last_byte then set_bytes dest_buf (first_byte + 1) (last_byte - first_byte - 1) 0 else dest_buf.

(** ** Runs *)
Fixpoint find_code (n : nat) (ins_array : list Z) (ins_off code : Z) : option Z :=
  match n with
  | O => None
  | S n' =>
      if ins_array.[ins_off] =? code then Some (ins_array.[ins_off + 1] + ins_array.[ins_off + 2] * 256)
      else find_code n' ins_array (ins_off + 3) code
  end.

(** The run, or -1, and the position behind its code. *)
Fixpoint get_run (fuel : nat) (ins_array src_buf : list Z) (bitsize code ins_off bitpos : Z) : Z * Z :=
  match fuel with
  | O => (-1, bitpos)
  | S fuel' =>
      let ins := ins_array.[ins_off] in
      if ins =? 0xFF then (-1, bitpos)
      else if bitsize <=? bitpos then (-1, bitpos)
      else
        let code := u32 (u32 (code .<< 1) + Z.b2z (bit_at src_buf bitpos)) in
        match find_code (Z.to_nat ins) ins_array (ins_off + 1) code with
        | Some run => (run, bitpos + 1)
        | None => get_run fuel' ins_array src_buf bitsize code (ins_off + 1 + ins * 3) (bitpos + 1)
        end
  end.

Definition FaxGetRun (ins_array src_buf : list Z) (bitpos bitsize : Z) : Z * Z :=
  get_run (length ins_array) ins_array src_buf bitsize 0 0 bitpos.

Definition run_ins (white : bool) : list Z := if white then FaxWhiteRunIns else FaxBlackRunIns.

(** The codes of one run; [None] is an overflow. *)
Fixpoint run_length (fuel : nat) (white : bool) (src_buf : list Z) (bitsize run_len bitpos : Z) : option (Z * Z) :=
  match fuel with
  | O => None
  | S fuel' =>
      let '(run, bitpos) := FaxGetRun (run_ins white) src_buf bitpos bitsize in
      run_len ← safe_int (run_len + run);
      if run <? 64 then Some (run_len, bitpos) else run_length fuel' white src_buf bitsize run_len bitpos
  end.

(** ** A line in two dimensions *)
Section decode.
Context (src_buf : list Z) (bitsize : Z).

(** The code of a mode; [ReadEnd] where the data or the line end. *)
Inductive g4_mode := Vertical (v_delta : Z) | Horizontal | Pass | Skipped | ReadEnd.

Definition ReadMode (bitpos : Z) : g4_mode * Z :=
  if bit_at src_buf bitpos then (Vertical 0, bitpos + 1)
  else if bitsize <=? bitpos + 1 then (ReadEnd, bitpos + 1)
  else
    let bit1 := bit_at src_buf (bitpos + 1) in
    if bitsize <=? bitpos + 2 then (ReadEnd, bitpos + 2)
    else
      let bit2 := bit_at src_buf (bitpos + 2) in
      let bitpos := bitpos + 3 in
      if bit1 then (Vertical (if bit2 then 1 else -1), bitpos)
      else if bit2 then (Horizontal, bitpos)
      else if bitsize <=? bitpos then (ReadEnd, bitpos)
      else if bit_at src_buf bitpos then (Pass, bitpos + 1)
      else if bitsize <=? bitpos + 1 then (ReadEnd, bitpos + 1)
      else
        let next_bit1 := bit_at src_buf (bitpos + 1) in
        if bitsize <=? bitpos + 2 then (ReadEnd, bitpos + 2)
        else
          let next_bit2 := bit_at src_buf (bitpos + 2) in
          let bitpos := bitpos + 3 in
          if next_bit1 then (Vertical (if next_bit2 then 2 else -2), bitpos)
          else if next_bit2 then
            if bitsize <=? bitpos then (ReadEnd, bitpos) else (Vertical (if bit_at src_buf bitpos then 3 else -3), bitpos + 1)
          else if bitsize <=? bitpos then (ReadEnd, bitpos)
          else if bit_at src_buf bitpos then (Skipped, bitpos + 4) else (ReadEnd, bitpos + 6).

Context (columns : Z).

Definition fill_if (black : bool) (dest_buf : list Z) (startpos endpos : Z) : list Z :=
  if black then FaxFillBits dest_buf columns startpos endpos else dest_buf.

(** The position and the line; [None] is an overflow. *)
Fixpoint g4_row (fuel : nat) (ref_buf : list Z) (bitpos a0 : Z) (a0color : bool) (dest_buf : list Z) : option (Z * list Z) :=
  match fuel with
  | O => None
  | S fuel' =>
      if bitsize <=? bitpos then Some (bitpos, dest_buf)
      else
        let '(b1, b2) := FaxG4FindB1B2 ref_buf columns a0 a0color in
        let '(mode, bitpos) := ReadMode bitpos in
        match mode with
        | ReadEnd => Some (bitpos, dest_buf)
        | Skipped => g4_row fuel' ref_buf bitpos a0 a0color dest_buf
        | Pass =>
            let dest_buf := fill_if (negb a0color) dest_buf a0 b2 in
            if columns <=? b2 then Some (bitpos, dest_buf) else g4_row fuel' ref_buf bitpos b2 a0color dest_buf
        | Horizontal =>
            '(run_len1, bitpos) ← run_length (S (Z.to_nat (bitsize - bitpos))) a0color src_buf bitsize 0 bitpos;
            run_len1 ← (if a0 <? 0 then safe_int (run_len1 + 1) else Some run_len1);
            if run_len1 <? 0 then Some (bitpos, dest_buf)
            else
              a1 ← safe_int (a0 + run_len1);
              let dest_buf := fill_if (negb a0color) dest_buf a0 a1 in
              '(run_len2, bitpos) ← run_length (S (Z.to_nat (bitsize - bitpos))) (negb a0color) src_buf bitsize 0 bitpos;
              if run_len2 <? 0 then Some (bitpos, dest_buf)
              else
                a2 ← safe_int (a1 + run_len2);
                let dest_buf := fill_if a0color dest_buf a1 a2 in
                if a2 <? columns then g4_row fuel' ref_buf bitpos a2 a0color dest_buf else Some (bitpos, dest_buf)
        | Vertical v_delta =>
            let a1 := b1 + v_delta in
            let dest_buf := fill_if (negb a0color) dest_buf a0 a1 in
            if columns <=? a1 then Some (bitpos, dest_buf)
            else if a1 <=? a0 then Some (bitpos, dest_buf)
            else g4_row fuel' ref_buf bitpos a1 (negb a0color) dest_buf
        end
  end.

(** Every round reads a bit. *)
Definition FaxG4GetRow (ref_buf : list Z) (bitpos : Z) (dest_buf : list Z) : option (Z * list Z) :=
  g4_row (S (Z.to_nat (bitsize - bitpos))) ref_buf bitpos (-1) true dest_buf.

(** ** Ends of lines and lines in one dimension *)
Fixpoint skip_zeros (fuel : nat) (startbit bitpos : Z) : Z :=
  match fuel with
  | O => bitpos
  | S fuel' =>
      if bitsize <=? bitpos then bitpos
      else if negb (bit_at src_buf bitpos) then skip_zeros fuel' startbit (bitpos + 1)
      else if bitpos + 1 - startbit <=? 11 then startbit else bitpos + 1
  end.
Definition FaxSkipEOL (bitpos : Z) : Z := skip_zeros (Z.to_nat (bitsize - bitpos)) bitpos bitpos.

(** Behind the next one bit. *)
Fixpoint skip_to_one (fuel : nat) (bitpos : Z) : Z :=
  match fuel with
  | O => bitpos
  | S fuel' => if bitsize <=? bitpos then bitpos else if bit_at src_buf bitpos then bitpos + 1 else skip_to_one fuel' (bitpos + 1)
  end.

(** The codes of one run; [inr] is a code that is not valid. *)
Fixpoint line_run (fuel : nat) (white : bool) (run_len bitpos : Z) : option (Z * Z + Z) :=
  match fuel with
  | O => None
  | S fuel' =>
      let '(run, bitpos) := FaxGetRun (run_ins white) src_buf bitpos bitsize in
      if run <? 0 then Some (inr (skip_to_one (Z.to_nat (bitsize - bitpos)) bitpos))
      else
        run_len ← safe_int (run_len + run);
        if run <? 64 then Some (inl (run_len, bitpos)) else line_run fuel' white run_len bitpos
  end.

Fixpoint line_1d (fuel : nat) (color : bool) (startpos bitpos : Z) (dest_buf : list Z) : option (Z * list Z) :=
  match fuel with
  | O => None
  | S fuel' =>
      if bitsize <=? bitpos then Some (bitpos, dest_buf)
      else
        r ← line_run (S (Z.to_nat (bitsize - bitpos))) color 0 bitpos;
        match r with
        | inr bitpos => Some (bitpos, dest_buf)
        | inl (run_len, bitpos) =>
            endpos ← safe_int (startpos + run_len);
            let dest_buf := fill_if (negb color) dest_buf startpos endpos in
            if columns <=? endpos then Some (bitpos, dest_buf) else line_1d fuel' (negb color) endpos bitpos dest_buf
        end
  end.

Definition FaxGet1DLine (bitpos : Z) (dest_buf : list Z) : option (Z * list Z) :=
  line_1d (S (Z.to_nat (bitsize - bitpos))) true 0 bitpos dest_buf.
End decode.

(** ** The decoder *)
Definition int32 (z : Z) : Z := (z + 2 ^ 31) mod 2 ^ 32 - 2 ^ 31.

Definition kFaxMaxImageDimension : Z := 65535.
Definition kFaxBpc : Z := 1.
Definition kFaxComps : Z := 1.

Record FaxDecoder := FaxDec {
  fd_Encoding : Z;
  fd_bitpos : Z;
  fd_bByteAlign : bool;
  fd_bEndOfLine : bool;
  fd_bBlack : bool;
  fd_SrcSpan : list Z;
  fd_OrigWidth : Z;
  fd_ScanlineBuf : list Z;
  fd_RefBuf : list Z;
}.

Definition fd_at (bitpos : Z) (d : FaxDecoder) : FaxDecoder :=
  FaxDec (fd_Encoding d) bitpos (fd_bByteAlign d) (fd_bEndOfLine d) (fd_bBlack d) (fd_SrcSpan d) (fd_OrigWidth d) (fd_ScanlineBuf d) (fd_RefBuf d).
Definition fd_lines (line ref_buf : list Z) (d : FaxDecoder) : FaxDecoder :=
  FaxDec (fd_Encoding d) (fd_bitpos d) (fd_bByteAlign d) (fd_bEndOfLine d) (fd_bBlack d) (fd_SrcSpan d) (fd_OrigWidth d) line ref_buf.
Definition fd_align (b : bool) (d : FaxDecoder) : FaxDecoder :=
  FaxDec (fd_Encoding d) (fd_bitpos d) b (fd_bEndOfLine d) (fd_bBlack d) (fd_SrcSpan d) (fd_OrigWidth d) (fd_ScanlineBuf d) (fd_RefBuf d).

Definition fax_Rewind (d : FaxDecoder) : FaxDecoder :=
  fd_at 0 (fd_lines (fd_ScanlineBuf d) (replicate (length (fd_RefBuf d)) 0xFF) d).

(** The bits from [bitpos0] to [bitpos1] are zeros. *)
Fixpoint zeros_to (n : nat) (src_buf : list Z) (bitpos0 : Z) : bool :=
  match n with O => true | S n' => if bit_at src_buf bitpos0 then false else zeros_to n' src_buf (bitpos0 + 1) end.

Definition InvertBuffer (buf : list Z) : list Z :=
  let n := (length buf / 4 * 4)%nat in map (λ b, b .^ 0xFF) (take n buf) ++ drop n buf.

Definition fax_GetNextLine (d : FaxDecoder) : option (list Z * FaxDecoder) :=
  let src := fd_SrcSpan d in
  let bitsize := int32 (zlen src * 8) in
  let bitpos := FaxSkipEOL src bitsize (fd_bitpos d) in
  if bitsize <=? bitpos then Some ([], fd_at bitpos d)
  else
    let line := replicate (length (fd_ScanlineBuf d)) 0xFF in
    let columns := fd_OrigWidth d in
    '(bitpos, line) ←
      (if fd_Encoding d <? 0 then FaxG4GetRow src bitsize columns (fd_RefBuf d) bitpos line
       else if fd_Encoding d =? 0 then FaxGet1DLine src bitsize columns bitpos line
       else if bit_at src bitpos then FaxGet1DLine src bitsize columns (bitpos + 1) line
       else FaxG4GetRow src bitsize columns (fd_RefBuf d) (bitpos + 1) line);
    let ref_buf := if fd_Encoding d =? 0 then fd_RefBuf d else line in
    let bitpos := if fd_bEndOfLine d then FaxSkipEOL src bitsize bitpos else bitpos in
    let '(bitpos, align) :=
      if fd_bByteAlign d && (bitpos <? bitsize) then
        let bitpos1 := (bitpos + 7) / 8 * 8 in
        if zeros_to (Z.to_nat (bitpos1 - bitpos)) src bitpos then (bitpos1, true) else (bitpos, false)
      else (bitpos, fd_bByteAlign d) in
    let line := if fd_bBlack d then InvertBuffer line else line in
    Some (line, fd_at bitpos (fd_align align (fd_lines line ref_buf d))).

Definition fax_GetSrcOffset (d : FaxDecoder) : Z := Z.min ((fd_bitpos d + 7) / 8) (zlen (fd_SrcSpan d)).

(** [FaxModule::CreateDecoder]; the pitch is a multiple of 32 bits. *)
Definition CreateFaxDecoder (src_span : list Z) (width height K : Z) (EndOfLine EncodedByteAlign BlackIs1 : bool) (Columns Rows : Z) :
    option FaxDecoder :=
  let actual_width := if Columns =? 0 then width else Columns in
  let actual_height := if Rows =? 0 then height else Rows in
  if (actual_width <=? 0) || (actual_height <=? 0) then None
  else if (kFaxMaxImageDimension <? actual_width) || (kFaxMaxImageDimension <? actual_height) then None
  else
    pitch ← CalculatePitch32 (kFaxBpc * kFaxComps) actual_width;
    let buf := replicate (Z.to_nat pitch) 0 in
    Some (FaxDec K 0 EncodedByteAlign EndOfLine BlackIs1 src_span actual_width buf buf).

(** [FaxModule::FaxG4Decode]: the position behind the data and the lines. *)
Fixpoint g4_rows (n : nat) (src_buf : list Z) (bitsize width pitch bitpos : Z) (ref_buf : list Z) : option (Z * list Z) :=
  match n with
  | O => Some (bitpos, [])
  | S n' =>
      '(bitpos, line) ← FaxG4GetRow src_buf bitsize width ref_buf bitpos (replicate (Z.to_nat pitch) 0xFF);
      '(bitpos, rest) ← g4_rows n' src_buf bitsize width pitch bitpos line;
      Some (bitpos, line ++ rest)
  end.

Definition FaxG4Decode (src_buf : list Z) (starting_bitpos width height pitch : Z) : option (Z * list Z) :=
  g4_rows (Z.to_nat height) src_buf (int32 (u32 (u32 (zlen src_buf) .<< 3))) width pitch starting_bitpos (replicate (Z.to_nat pitch) 0xFF).

(** ** The encoder

    [None] is a write behind the line buffer or a read before a table. *)
Record FaxEncoder := FaxEnc { m_DestBitpos : Z; m_LineBuf : list Z }.

(** [m_LineBuf[m_DestBitpos / 8] |= 1 << (7 - m_DestBitpos % 8)] *)
Definition put_bit (e : FaxEncoder) : option FaxEncoder :=
  let pos := m_DestBitpos e in
  if pos <? 8 * zlen (m_LineBuf e)
  then Some (FaxEnc pos (wr (m_LineBuf e) (pos / 8) ((m_LineBuf e).[pos / 8] .| (1 .<< (7 - pos mod 8))))) else None.
Definition advance (n : Z) (e : FaxEncoder) : FaxEncoder := FaxEnc (m_DestBitpos e + n) (m_LineBuf e).

(** The bits of [data] from [i - 1] on. *)
Fixpoint AddBitStream (data : Z) (i : nat) (e : FaxEncoder) : option FaxEncoder :=
  match i with
  | O => Some e
  | S i' =>
      e ← (if negb (data .& (1 .<< Z.of_nat i') =? 0) then put_bit e else Some e);
      AddBitStream data i' (advance 1 e)
  end.

Fixpoint long_runs (fuel : nat) (run : Z) (e : FaxEncoder) : option (Z * FaxEncoder) :=
  match fuel with
  | O => None
  | S fuel' => if run <? 2560 then Some (run, e) else e ← AddBitStream 0x1f 12 e; long_runs fuel' (run - 2560) e
  end.

Definition FaxEncodeRun (run : Z) (bWhite : bool) (e : FaxEncoder) : option FaxEncoder :=
  '(run, e) ← long_runs (S (Z.to_nat run)) run e;
  e ← (if 64 <=? run then
         let p := (run / 64 - 1) * 2 in
         let t := if bWhite then WhiteRunMarkup else BlackRunMarkup in
         AddBitStream t.[p] (Z.to_nat t.[p + 1]) e
       else Some e);
  let run := Z.rem run 64 in
  if run <? 0 then None
  else
    let p := run * 2 in
    let t := if bWhite then WhiteRunTerminator else BlackRunTerminator in
    AddBitStream t.[p] (Z.to_nat t.[p + 1]) e.

(** The code of a vertical mode. *)
Definition encode_vertical (delta : Z) (e : FaxEncoder) : option FaxEncoder :=
  if delta =? 0 then e ← put_bit e; Some (advance 1 e)
  else if 0 <? delta then
    e ← put_bit (advance (if delta =? 1 then 1 else delta + 2) e);
    e ← put_bit (advance 1 e); Some (advance 1 e)
  else
    e ← put_bit (advance (if delta =? -1 then 1 else - delta + 2) e); Some (advance 1 (advance 1 e)).

Fixpoint encode_2d (fuel : nat) (columns : Z) (ref_line src_buf : list Z) (a0 : Z) (a0color : bool) (e : FaxEncoder) : option FaxEncoder :=
  match fuel with
  | O => None
  | S fuel' =>
      let a1 := FindBit src_buf columns (a0 + 1) (negb a0color) in
      let '(b1, b2) := FaxG4FindB1B2 ref_line columns a0 a0color in
      '(a0, a0color, e) ←
        (if b2 <? a1 then e ← put_bit (advance 3 e); Some (b2, a0color, advance 1 e)
         else if (a1 - b1 <=? 3) && (b1 - a1 <=? 3) then e ← encode_vertical (a1 - b1) e; Some (a1, negb a0color, e)
         else
           let a2 := FindBit src_buf columns (a1 + 1) a0color in
           e ← put_bit (advance 2 e);
           let e := advance 1 e in
           let a0 := if a0 <? 0 then 0 else a0 in
           e ← FaxEncodeRun (a1 - a0) a0color e;
           e ← FaxEncodeRun (a2 - a1) (negb a0color) e;
           Some (a2, a0color, e));
      if columns <=? a0 then Some e else encode_2d fuel' columns ref_line src_buf a0 a0color e
  end.

(** Every round moves to the right. *)
Definition FaxEncode2DLine (columns : Z) (ref_line src_buf : list Z) (e : FaxEncoder) : option FaxEncoder :=
  encode_2d (S (S (Z.to_nat columns))) columns ref_line src_buf (-1) true e.

(** The lines from line [i] on; the bytes that are complete, and the rest. *)
Fixpoint encode_rows (n : nat) (i m_Cols m_Pitch : Z) (m_pSrcBuf m_RefLine : list Z) (last_byte bitpos : Z) : option (list Z) :=
  match n with
  | O => Some (if bitpos =? 0 then [] else [last_byte])
  | S n' =>
      let scan_line := subspan m_pSrcBuf (Z.to_nat (i * m_Pitch)) (Z.to_nat m_Pitch) in
      e ← FaxEncode2DLine m_Cols m_RefLine scan_line (FaxEnc bitpos (wr (replicate (Z.to_nat (8 * m_Pitch)) 0) 0 last_byte));
      let pos := m_DestBitpos e in
      last_byte ← m_LineBuf e !! Z.to_nat (pos / 8);
      rest ← encode_rows n' (i + 1) m_Cols m_Pitch m_pSrcBuf scan_line last_byte (pos mod 8);
      Some (take (Z.to_nat (pos / 8)) (m_LineBuf e) ++ rest)
  end.

(** [FaxModule::FaxEncode] *)
Definition FaxEncode (src_buf : list Z) (width height pitch : Z) : option (list Z) :=
  encode_rows (Z.to_nat height) 0 width pitch src_buf (replicate (Z.to_nat pitch) 0xFF) 0 0.
