(* ===== verification/FaxBits.v ===== *)
(** * Bits of lines

    What the bit operations of the fax codec do to single bits: the search of the
    first bit of a colour, black pixels, and the bits that the encoder appends. *)
From S2P Require Import Prelude FaxTables Fax.

Lemma bit_at_testbit buf pos : 0 <= pos → bit_at buf pos = Z.testbit buf.[pos / 8] (7 - pos mod 8).
Proof.
  intros Hp. unfold bit_at. pose proof (Z.mod_pos_bound pos 8 ltac:(lia)). set (k := 7 - pos mod 8). assert (Hk : 0 <= k) by (unfold k; lia).
  generalize (buf.[pos / 8]). intros x. rewrite Z.shiftl_1_l. destruct (Z.testbit x k) eqn:E.
  - destruct (Z.eqb_spec (x .& 2 ^ k) 0) as [H0|]; [|done]. exfalso. pose proof (Z.land_spec x (2 ^ k) k) as Hl.
    rewrite H0, Z.bits_0, E, Z.pow2_bits_true in Hl by done. done.
  - destruct (Z.eqb_spec (x .& 2 ^ k) 0) as [|Hne]; [done|]. exfalso. apply Hne, Z.bits_inj'. intros i Hi.
    rewrite Z.land_spec, Z.bits_0, Z.pow2_bits_eqb by done. destruct (Z.eqb_spec k i) as [<-|]; [by rewrite E|by rewrite andb_false_r].
Qed.

Lemma bit_at_byte buf q j : 0 <= q → 0 <= j < 8 → bit_at buf (8 * q + j) = Z.testbit buf.[q] (7 - j).
Proof.
  intros Hq Hj. rewrite bit_at_testbit by lia. replace ((8 * q + j) / 8) with q by (Z.div_mod_to_equations; lia).
  by replace ((8 * q + j) mod 8) with j by (Z.div_mod_to_equations; lia).
Qed.

Lemma bit_at_split pos : 0 <= pos → ∃ q j, pos = 8 * q + j ∧ 0 <= q ∧ 0 <= j < 8 ∧ pos / 8 = q ∧ pos mod 8 = j.
Proof. intros Hp. exists (pos / 8), (pos mod 8). split_and!; [|..]; Z.div_mod_to_equations; lia. Qed.

(** ** The first bit of a colour *)
Lemma OneLeadPos_spec x : byte x → x ≠ 0 →
  0 <= OneLeadPos.[x] < 8 ∧ Z.testbit x (7 - OneLeadPos.[x]) = true ∧ ∀ j, 0 <= j < OneLeadPos.[x] → Z.testbit x (7 - j) = false.
Proof.
  intros Hx Hne.
  pose proof (forall_byte (λ x, (x =? 0) || ((0 <=? OneLeadPos.[x]) && (OneLeadPos.[x] <? 8) && Z.testbit x (7 - OneLeadPos.[x]) &&
    forallb (λ j, (OneLeadPos.[x] <=? j) || negb (Z.testbit x (7 - j))) [0; 1; 2; 3; 4; 5; 6; 7])) eq_refl x Hx) as H.
  cbv beta in H. apply orb_true_iff in H as [H|H]; [lia|]. rewrite !andb_true_iff in H. destruct H as [[[H1 H2] H3] H4].
  split; [lia|]. split; [done|]. intros j Hj. rewrite List.forallb_forall in H4. specialize (H4 j).
  assert (Hin : In j [0; 1; 2; 3; 4; 5; 6; 7]) by (cbn; lia). apply H4, orb_true_iff in Hin as [?|Hin]; [lia|]. by apply negb_true_iff.
Qed.

(** [r] is the first position from [start] on with [bit], or [max_pos]. *)
Definition first_from (buf : list Z) (max_pos start : Z) (bit : bool) (r : Z) : Prop :=
  start <= r <= max_pos ∧ (∀ i, start <= i < r → bit_at buf i = negb bit) ∧ (r < max_pos → bit_at buf r = bit).

Lemma first_from_same a b max_pos start bit r r' : (∀ i, 0 <= i < max_pos → bit_at a i = bit_at b i) → 0 <= start →
  first_from a max_pos start bit r → first_from b max_pos start bit r' → r = r'.
Proof.
  intros Hab Hs (H1 & H2 & H3) (H1' & H2' & H3'). destruct (Z.lt_trichotomy r r') as [Hlt|[E|Hgt]]; [|done|]; exfalso.
  - specialize (H2' r ltac:(lia)). rewrite <-Hab, (H3 ltac:(lia)) in H2' by lia. by destruct bit.
  - specialize (H2 r' ltac:(lia)). rewrite Hab, (H3' ltac:(lia)) in H2 by lia. by destruct bit.
Qed.

(** The bits behind the last pixel, in its byte, are the same. *)
Definition uniform_padding (buf : list Z) (columns : Z) : Prop :=
  ∀ i j, columns <= i < 8 * ((columns + 7) / 8) → columns <= j < 8 * ((columns + 7) / 8) → bit_at buf i = bit_at buf j.

Definition mask (bit : bool) : Z := if bit then 0 else 0xFF.

Lemma mask_bit x bit j : byte x → 0 <= j < 8 → Z.testbit (x .^ mask bit) (7 - j) = Bool.eqb (Z.testbit x (7 - j)) bit.
Proof.
  intros Hx Hj. rewrite Z.lxor_spec. destruct bit; cbn [mask].
  - rewrite Z.bits_0. by destruct (Z.testbit x _).
  - assert (E : Z.testbit 255 (7 - j) = true) by (change 255 with (Z.ones 8); apply Z.ones_spec_low; lia). rewrite E. by destruct (Z.testbit x _).
Qed.

Lemma mask_byte' bit : byte (mask bit).
Proof. by destruct bit. Qed.

Section find.
Context (buf : list Z) (max_pos : Z) (bit : bool) (start : Z).
Hypothesis Hbuf : bytes buf.
Hypothesis Hstart : 0 <= start <= max_pos.

Definition passed (byte_pos : Z) : Prop := 0 <= byte_pos ∧ start <= 8 * byte_pos ∧ ∀ i, start <= i < 8 * byte_pos → bit_at buf i = negb bit.

Lemma no_match x j : byte x → 0 <= j < 8 → Z.testbit (x .^ mask bit) (7 - j) = false → Z.testbit x (7 - j) = negb bit.
Proof. intros Hx Hj. rewrite mask_bit by done. destruct (Z.testbit x _), bit; done. Qed.

Lemma find_byte_spec n : ∀ byte_pos, passed byte_pos → max_pos <= 8 * (byte_pos + Z.of_nat n) →
  first_from buf max_pos start bit (find_byte n buf max_pos (mask bit) byte_pos).
Proof.
  induction n as [|n IH]; intros q (Hq & Hs & Hp) Hle; cbn [find_byte].
  { split; [lia|]. split; [|lia]. intros i Hi. apply Hp. lia. }
  pose proof (bytes_rd buf q Hbuf) as Hx. assert (Hd : byte (buf.[q] .^ mask bit)) by (apply fits_lxor; [lia|done|apply mask_byte']).
  destruct (Z.eqb_spec (buf.[q] .^ mask bit) 0) as [E|Hne]; cbn [negb].
  - apply IH; [|lia]. split; [lia|]. split; [lia|]. intros i Hi. destruct (decide (i < 8 * q)); [apply Hp; lia|].
    replace i with (8 * q + (i - 8 * q)) by lia. rewrite bit_at_byte by lia. apply no_match; [done|lia|]. by rewrite E, Z.bits_0.
  - destruct (OneLeadPos_spec _ Hd Hne) as (H1 & H2 & H3). set (k := OneLeadPos.[_]) in *. rewrite (Z.mul_comm q). split; [lia|]. split.
    + intros i Hi. destruct (decide (i < 8 * q)); [apply Hp; lia|]. replace i with (8 * q + (i - 8 * q)) by lia.
      rewrite bit_at_byte by lia. apply no_match; [done|lia|]. apply H3. lia.
    + intros Hr. replace (Z.min (8 * q + k) max_pos) with (8 * q + k) by lia. rewrite bit_at_byte by lia.
      rewrite mask_bit in H2 by (done || lia). by apply Bool.eqb_prop in H2.
Qed.

Lemma skip_blocks_spec fuel limit : ∀ byte_pos, passed byte_pos → limit + 8 <= zlen buf →
  passed (skip_blocks fuel buf limit (mask bit) byte_pos).
Proof.
  induction fuel as [|fuel IH]; intros q Hp Hl; cbn [skip_blocks]; [done|]. destruct (Z.ltb_spec q limit) as [Hlt|]; cbn [andb]; [|done].
  case_bool_decide as E; [|done]. apply IH; [|done]. destruct Hp as (Hq & Hs & Hp). split; [lia|]. split; [lia|]. intros i Hi.
  destruct (decide (i < 8 * q)); [apply Hp; lia|]. destruct (bit_at_split i ltac:(lia)) as (p & j & -> & Hp0 & Hj & _ & _).
  rewrite bit_at_byte by lia. assert (Ex : buf.[p] = mask bit).
  { apply rd_lookup. replace (Z.to_nat p) with (Z.to_nat q + Z.to_nat (p - q))%nat by lia. rewrite <-lookup_drop.
    assert (Hin : subspan buf (Z.to_nat q) 8 !! Z.to_nat (p - q) = Some (mask bit)) by (rewrite E; apply lookup_replicate_2; lia).
    unfold subspan in Hin. rewrite lookup_take_lt in Hin by lia. done. }
  rewrite Ex. apply no_match; [apply mask_byte'|done|]. by rewrite Z.lxor_nilpotent, Z.bits_0.
Qed.

(** From a byte on. *)
Lemma find_from_byte byte_pos : passed byte_pos → max_pos <= 8 * zlen buf →
  let max_byte := (max_pos + 7) / 8 in
  let byte_pos := if (8 <=? max_byte) && (byte_pos <? max_byte - 8) then skip_blocks (Z.to_nat max_byte) buf (max_byte - 8) (mask bit) byte_pos else byte_pos in
  first_from buf max_pos start bit (find_byte (Z.to_nat (max_byte - byte_pos)) buf max_pos (mask bit) byte_pos).
Proof.
  intros Hp Hlen max_byte p. assert (Hmax : max_byte <= zlen buf ∧ max_pos <= 8 * max_byte) by (unfold max_byte; Z.div_mod_to_equations; lia).
  assert (Hp' : passed p).
  { unfold p. destruct (_ && _) eqn:Eb; [|done]. apply skip_blocks_spec; [done|lia]. }
  destruct Hp' as (P1 & P2 & P3). apply find_byte_spec; [done|]. lia.
Qed.
End find.

Lemma byte_masked x k : byte x → 0 <= k < 8 → byte (x .& (0xFF .>> k)).
Proof. intros Hx Hk. apply fits_land; [lia|done|]. apply Z.shiftr_nonneg. lia. Qed.

Lemma masked_bit x k j : 0 <= k < 8 → 0 <= j < 8 → Z.testbit (x .& (0xFF .>> k)) (7 - j) = (k <=? j) && Z.testbit x (7 - j).
Proof.
  intros Hk Hj. rewrite Z.land_spec, Z.shiftr_spec by lia. change 0xFF with (Z.ones 8). rewrite Z.testbit_ones_nonneg by lia.
  rewrite andb_comm. f_equal. destruct (Z.leb_spec k j); [apply Z.ltb_lt|apply Z.ltb_ge]; lia.
Qed.

Lemma FindBit_spec buf max_pos start bit : bytes buf → 0 <= start <= max_pos → max_pos <= 8 * zlen buf → uniform_padding buf max_pos →
  first_from buf max_pos start bit (FindBit buf max_pos start bit).
Proof.
  intros Hbuf Hs Hlen Hpad. unfold FindBit. destruct (Z.leb_spec max_pos start) as [Hle|Hlt].
  { split; [lia|]. split; lia. }
  destruct (bit_at_split start ltac:(lia)) as (q & k & E & Hq & Hk & -> & ->). change (if bit then 0 else 255) with (mask bit).
  pose proof (bytes_rd buf q Hbuf) as Hx. assert (Hd : byte (buf.[q] .^ mask bit)) by (apply fits_lxor; [lia|done|apply mask_byte']).
  pose proof (byte_masked _ k Hd Hk) as Hm. set (data := (buf.[q] .^ mask bit) .& (0xFF .>> k)) in *.
  assert (Hmax : (max_pos + 7) / 8 <= zlen buf) by (Z.div_mod_to_equations; lia).
  assert (Hbits : ∀ j, 0 <= j < 8 → Z.testbit data (7 - j) = (k <=? j) && Bool.eqb (bit_at buf (8 * q + j)) bit).
  { intros j Hj. unfold data. rewrite masked_bit, mask_bit, bit_at_byte by (done || lia). done. }
  destruct (Z.eqb_spec data 0) as [E0|Hne]; rewrite ?andb_false_r, ?andb_true_r.
  2: destruct (Z.eqb_spec k 0) as [Ek|Hk0]; cbn [negb].
  - (* the rest of the first byte has no such bit *)
    assert (Hpass : passed buf bit start (((if k =? 0 then start else start + 7)) / 8)).
    { destruct (Z.eqb_spec k 0) as [Ek|Hk0].
      - replace (start / 8) with q by (Z.div_mod_to_equations; lia). split; [lia|]. split; [lia|]. intros i Hi. lia.
      - replace ((start + 7) / 8) with (q + 1) by (Z.div_mod_to_equations; lia). split; [lia|]. split; [lia|]. intros i Hi.
        specialize (Hbits (i - 8 * q) ltac:(lia)). rewrite E0, Z.bits_0 in Hbits. replace (k <=? i - 8 * q) with true in Hbits by lia.
        replace (8 * q + (i - 8 * q)) with i in Hbits by lia. cbn [andb] in Hbits. destruct (bit_at buf i), bit; done. }
    by apply find_from_byte.
  - replace (start / 8) with q by (Z.div_mod_to_equations; lia). subst k.
    assert (Hpass : passed buf bit start q) by (split; [lia|]; split; [lia|]; intros i Hi; lia).
    by apply find_from_byte.
  - destruct (OneLeadPos_spec _ Hm Hne) as (H1 & H2 & H3). set (m := OneLeadPos.[_]) in *. rewrite (Z.mul_comm q).
    rewrite Hbits in H2 by done. apply andb_true_iff in H2 as [H2a H2b]. apply Bool.eqb_prop in H2b.
    assert (Hno : ∀ i, start <= i < 8 * q + m → bit_at buf i = negb bit).
    { intros i Hi. specialize (Hbits (i - 8 * q) ltac:(lia)). rewrite (H3 (i - 8 * q)) in Hbits by lia.
      replace (k <=? i - 8 * q) with true in Hbits by lia. replace (8 * q + (i - 8 * q)) with i in Hbits by lia.
      cbn [andb] in Hbits. destruct (bit_at buf i), bit; done. }
    assert (Hcap : 8 * q + m <= max_pos).
    { destruct (decide (8 * q + m <= max_pos)) as [|Hgt]; [done|exfalso].
      assert (Hu : bit_at buf max_pos = bit_at buf (8 * q + m)) by (apply Hpad; Z.div_mod_to_equations; lia).
      rewrite Hno, H2b in Hu by lia. by destruct bit. }
    split; [lia|]. split; [done|]. by intros _.
Qed.

(** Only the pixels count. *)
Definition same_pixels (columns : Z) (a b : list Z) : Prop := ∀ i, 0 <= i < columns → bit_at a i = bit_at b i.

Definition line_ok (columns : Z) (buf : list Z) : Prop := bytes buf ∧ columns <= 8 * zlen buf ∧ uniform_padding buf columns.

Lemma FindBit_pixels columns a b start bit : line_ok columns a → line_ok columns b → same_pixels columns a b → 0 <= start →
  FindBit a columns start bit = FindBit b columns start bit.
Proof.
  intros (A1 & A2 & A3) (B1 & B2 & B3) Hab Hs. destruct (decide (start <= columns)) as [Hle|Hgt].
  - apply (first_from_same a b columns start bit); [done|done|by apply FindBit_spec..].
  - unfold FindBit. by replace (columns <=? start) with true by lia.
Qed.

Lemma FindB1B2_pixels columns a b a0 color : line_ok columns a → line_ok columns b → same_pixels columns a b → -1 <= a0 < columns →
  FaxG4FindB1B2 a columns a0 color = FaxG4FindB1B2 b columns a0 color.
Proof.
  intros Ha Hb Hab H0. unfold FaxG4FindB1B2. assert (E : (a0 <? 0) || bit_at a a0 = (a0 <? 0) || bit_at b a0).
  { destruct (Z.ltb_spec a0 0); [done|]. cbn [orb]. apply Hab. lia. }
  rewrite E. rewrite (FindBit_pixels columns a b) by (done || lia). set (b1 := FindBit b columns (a0 + 1) _).
  assert (Hb1 : 0 <= b1).
  { destruct Hb as (B1 & B2 & B3). pose proof (FindBit_spec b columns (a0 + 1) (negb ((a0 <? 0) || bit_at b a0)) B1 ltac:(lia) B2 B3) as [Hf _].
    unfold b1. lia. }
  destruct (Z.leb_spec columns b1); [done|]. destruct (Bool.eqb _ _).
  - rewrite (FindBit_pixels columns a b) by (done || lia). set (b2 := FindBit b columns (b1 + 1) _).
    destruct (Z.leb_spec columns b2); [done|]. f_equal. apply FindBit_pixels; [done..|].
    destruct Hb as (B1 & B2 & B3). pose proof (FindBit_spec b columns (b1 + 1) ((a0 <? 0) || bit_at b a0) B1 ltac:(lia) B2 B3) as [Hf _]. unfold b2. lia.
  - destruct (Z.leb_spec columns b1); [done|]. f_equal. apply FindBit_pixels; [done..|lia].
Qed.

Lemma FindB1B2_range columns b a0 color : line_ok columns b → -1 <= a0 < columns →
  let '(b1, b2) := FaxG4FindB1B2 b columns a0 color in a0 < b1 <= columns ∧ b1 <= b2 <= columns.
Proof.
  intros (B1 & B2 & B3) H0. unfold FaxG4FindB1B2. set (f := (a0 <? 0) || bit_at b a0).
  pose proof (FindBit_spec b columns (a0 + 1) (negb f) B1 ltac:(lia) B2 B3) as [F1 _]. set (b1 := FindBit b columns (a0 + 1) _) in *.
  destruct (Z.leb_spec columns b1); [lia|]. destruct (Bool.eqb _ _).
  - pose proof (FindBit_spec b columns (b1 + 1) f B1 ltac:(lia) B2 B3) as [F2 _]. set (b2 := FindBit b columns (b1 + 1) f) in *.
    destruct (Z.leb_spec columns b2); [lia|]. pose proof (FindBit_spec b columns (b2 + 1) (negb f) B1 ltac:(lia) B2 B3) as [F3 _]. lia.
  - destruct (Z.leb_spec columns b1); [lia|]. pose proof (FindBit_spec b columns (b1 + 1) f B1 ltac:(lia) B2 B3) as [F2 _]. 
    pose proof (FindBit_spec b columns (b1 + 1) (negb f) B1 ltac:(lia) B2 B3) as [F3 _]. lia.
Qed.

(** ** Black pixels *)
Lemma bit_at_wr buf q v i : 0 <= q < zlen buf → 0 <= i →
  bit_at (wr buf q v) i = if i / 8 =? q then Z.testbit v (7 - i mod 8) else bit_at buf i.
Proof.
  intros Hq Hi. rewrite !bit_at_testbit by done. destruct (Z.eqb_spec (i / 8) q) as [->|Hne]; [by rewrite rd_wr_eq|].
  rewrite rd_wr_ne by (done || Z.div_mod_to_equations; lia). done.
Qed.

Lemma bytes_wr buf q v : bytes buf → byte v → bytes (wr buf q v).
Proof. intros Hb Hv. by apply Forall_insert. Qed.

Lemma zlen_wr {A} (l : list A) q v : zlen (wr l q v) = zlen l.
Proof. unfold zlen. by rewrite length_wr. Qed.

Lemma clear_bit x k j : byte x → 0 <= k < 8 → 0 <= j < 8 → Z.testbit x (7 - k) = true →
  byte (u8 (x - (1 .<< (7 - k)))) ∧ Z.testbit (u8 (x - (1 .<< (7 - k)))) (7 - j) = if j =? k then false else Z.testbit x (7 - j).
Proof.
  intros Hx Hk Hj Hbit. split; [apply fits_mod; lia|]. rewrite Z.mod_pow2_bits_low by lia. rewrite Z.shiftl_1_l.
  assert (E : Z.ldiff (2 ^ (7 - k)) x = 0).
  { apply Z.bits_inj'. intros i Hi. rewrite Z.ldiff_spec, Z.bits_0, Z.pow2_bits_eqb by lia. destruct (Z.eqb_spec (7 - k) i) as [<-|]; [by rewrite Hbit|done]. }
  rewrite Z.sub_nocarry_ldiff by done. rewrite Z.ldiff_spec, Z.pow2_bits_eqb by lia. destruct (Z.eqb_spec j k) as [->|Hne].
  - by rewrite Z.eqb_refl, andb_false_r.
  - replace (7 - k =? 7 - j) with false by lia. by rewrite andb_true_r.
Qed.

Lemma clear_bits_spec n q : ∀ k buf, bytes buf → 0 <= q < zlen buf → 0 <= k → k + Z.of_nat n <= 8 →
  (∀ i, 8 * q + k <= i < 8 * q + k + Z.of_nat n → bit_at buf i = true) →
  let buf' := clear_bits n k q buf in
  bytes buf' ∧ zlen buf' = zlen buf ∧
  ∀ i, 0 <= i → bit_at buf' i = if (8 * q + k <=? i) && (i <? 8 * q + k + Z.of_nat n) then false else bit_at buf i.
Proof.
  induction n as [|n IH]; intros k buf Hb Hq Hk Hn Hset; cbn [clear_bits]; cbv zeta.
  { split; [done|]. split; [done|]. intros i Hi. by replace (_ && _) with false by lia. }
  assert (Hbit : Z.testbit buf.[q] (7 - k) = true) by (rewrite <-bit_at_byte by lia; apply Hset; lia).
  pose proof (bytes_rd buf q Hb) as Hx. set (v := u8 _). set (buf1 := wr buf q v).
  assert (Hbit1 : ∀ i, 0 <= i → bit_at buf1 i = if i =? 8 * q + k then false else bit_at buf i).
  { intros i Hi. unfold buf1. rewrite bit_at_wr by lia. destruct (Z.eqb_spec (i / 8) q) as [E|Hne].
    - destruct (bit_at_split i Hi) as (q' & j & -> & Hq' & Hj & E1 & E2). rewrite E1 in E. subst q'. rewrite E2.
      destruct (clear_bit buf.[q] k j Hx ltac:(lia) Hj Hbit) as [_ E3]. unfold v. rewrite E3, bit_at_byte by lia.
      replace (8 * q + j =? 8 * q + k) with (j =? k) by lia. done.
    - destruct (Z.eqb_spec i (8 * q + k)) as [->|]; [|done]. exfalso. apply Hne. Z.div_mod_to_equations. lia. }
  destruct (IH (k + 1) buf1) as (H1 & H2 & H3).
  - apply bytes_wr; [done|]. apply (clear_bit buf.[q] k 0 Hx ltac:(lia) ltac:(lia) Hbit).
  - unfold buf1. by rewrite zlen_wr.
  - lia.
  - lia.
  - intros i Hi. rewrite Hbit1 by lia. replace (i =? 8 * q + k) with false by lia. apply Hset. lia.
  - split; [done|]. split; [unfold buf1 in H2; by rewrite zlen_wr in H2|]. intros i Hi. rewrite H3, Hbit1 by done.
    destruct (Z.eqb_spec i (8 * q + k)) as [->|Hne].
    + transitivity false; [by destruct (_ && _)|]. by replace (_ && _) with true by lia.
    + replace ((8 * q + k <=? i) && (i <? 8 * q + k + Z.of_nat (S n))) with ((8 * q + (k + 1) <=? i) && (i <? 8 * q + (k + 1) + Z.of_nat n)) by lia. done.
Qed.

Lemma set_bytes_rd buf off n v i : 0 <= off → 0 <= n → off + n <= zlen buf → 0 <= i →
  (set_bytes buf off n v).[i] = if (off <=? i) && (i <? off + n) then v else buf.[i].
Proof.
  intros Ho Hn Hle Hi. unfold set_bytes, rd. rewrite !nth_lookup. unfold zlen in Hle.
  destruct (Z.leb_spec off i); cbn [andb].
  - rewrite lookup_app_r by (rewrite length_take; lia). rewrite length_take.
    destruct (Z.ltb_spec i (off + n)).
    + rewrite lookup_app_l by (rewrite length_replicate; lia). rewrite lookup_replicate_2 by lia. done.
    + rewrite lookup_app_r by (rewrite length_replicate; lia). rewrite length_replicate, lookup_drop. do 2 f_equal. lia.
  - rewrite lookup_app_l by (rewrite length_take; lia). rewrite lookup_take_lt by lia. done.
Qed.

Lemma set_bytes_ok buf off n v : bytes buf → byte v → 0 <= off → 0 <= n → off + n <= zlen buf → bytes (set_bytes buf off n v) ∧ zlen (set_bytes buf off n v) = zlen buf.
Proof.
  intros Hb Hv Ho Hn Hle. unfold set_bytes, zlen in *. split.
  - apply Forall_app. split; [by apply Forall_take|]. apply Forall_app. split; [by apply Forall_replicate|by apply Forall_drop].
  - rewrite !length_app, length_take, length_replicate, length_drop. lia.
Qed.

(** The pixels from [startpos] on become black. *)
Lemma FaxFillBits_spec buf columns startpos endpos : bytes buf → columns <= 8 * zlen buf →
  (∀ i, Z.max startpos 0 <= i < Z.min endpos columns → bit_at buf i = true) →
  let buf' := FaxFillBits buf columns startpos endpos in
  bytes buf' ∧ zlen buf' = zlen buf ∧
  ∀ i, 0 <= i → bit_at buf' i = if (Z.max startpos 0 <=? i) && (i <? Z.min endpos columns) then false else bit_at buf i.
Proof.
  intros Hb Hlen Hset. unfold FaxFillBits. set (s := Z.max startpos 0) in *. set (e := Z.max 0 (Z.min endpos columns)) in *.
  assert (He : ∀ i, 0 <= i → (i <? Z.min endpos columns) = (i <? e)) by (intros; lia). cbv zeta.
  destruct (Z.leb_spec e s) as [Hle|Hlt].
  { split; [done|]. split; [done|]. intros i Hi. rewrite He by done. by replace (_ && _) with false by lia. }
  destruct (bit_at_split s ltac:(lia)) as (q & k & Es & Hq & Hk & -> & ->). destruct (bit_at_split (e - 1) ltac:(lia)) as (q' & k' & Ee & Hq' & Hk' & -> & ->).
  assert (Hq'' : q' < zlen buf) by lia. destruct (Z.eqb_spec q q') as [->|Hne].
  - destruct (clear_bits_spec (Z.to_nat (k' + 1 - k)) q' k buf) as (H1 & H2 & H3); [done|lia..| |].
    { intros i Hi. apply Hset. lia. }
    split; [done|]. split; [done|]. intros i Hi. rewrite H3, He by done. match goal with |- (if ?a then _ else _) = (if ?b then _ else _) => replace a with b by lia end. done.
  - destruct (clear_bits_spec (Z.to_nat (8 - k)) q k buf) as (H1 & H2 & H3); [done|lia..| |].
    { intros i Hi. apply Hset. lia. }
    set (b1 := clear_bits _ k q buf) in *.
    destruct (clear_bits_spec (Z.to_nat (k' + 1)) q' 0 b1) as (G1 & G2 & G3); [done|lia..| |].
    { intros i Hi. rewrite H3 by lia. replace (_ && _) with false by lia. apply Hset. lia. }
    set (b2 := clear_bits _ 0 q' b1) in *.
    assert (H12 : ∀ i, 0 <= i → (i < 8 * (q + 1) ∨ 8 * q' <= i) → bit_at b2 i = if (s <=? i) && (i <? e) then false else bit_at buf i).
    { intros i Hi Hout. rewrite G3, H3 by done. destruct ((s <=? i) && (i <? e)) eqn:E.
      - assert (Hin : (8 * q' + 0 <=? i) && (i <? 8 * q' + 0 + Z.of_nat (Z.to_nat (k' + 1))) = true ∨ (8 * q + k <=? i) && (i <? 8 * q + k + Z.of_nat (Z.to_nat (8 - k))) = true) by lia.
        destruct Hin as [-> | ->]; [done|]. match goal with |- (if ?b then _ else _) = _ => destruct b; reflexivity end.
      - assert (Hout1 : (8 * q' + 0 <=? i) && (i <? 8 * q' + 0 + Z.of_nat (Z.to_nat (k' + 1))) = false) by lia.
        assert (Hout2 : (8 * q + k <=? i) && (i <? 8 * q + k + Z.of_nat (Z.to_nat (8 - k))) = false) by lia. by rewrite Hout1, Hout2. }
    destruct (Z.ltb_spec (q + 1) q').
    + destruct (set_bytes_ok b2 (q + 1) (q' - q - 1) 0) as [K1 K2]; [done|done|lia..|]. split; [done|]. split; [lia|]. intros i Hi. rewrite He by done.
      rewrite bit_at_testbit, set_bytes_rd by (Z.div_mod_to_equations; lia). destruct ((q + 1 <=? i / 8) && _) eqn:E.
      * rewrite Z.bits_0. replace (_ && _) with true; [done|]. clear -E Es Ee Hk Hk' Hi. Z.div_mod_to_equations. lia.
      * rewrite <-bit_at_testbit by done. apply H12; [done|]. clear -E Hi. Z.div_mod_to_equations. lia.
    + split; [done|]. split; [lia|]. intros i Hi. rewrite He by done. apply H12; [done|]. lia.
Qed.
