(* ===== verification/FaxCodes.v ===== *)
(** * Codes of runs

    The codes that the fax encoder writes for runs are read back by the decoder, and
    how long they are. *)
From S2P Require Import Prelude Words BitStream FaxTables Fax FaxBits.

(** ** Bits that are written *)

(** The bits [l] have been written to a line buffer of [N] bytes. *)
Record written (N : Z) (e : FaxEncoder) (l : list bool) : Prop := {
  wr_size : zlen (m_LineBuf e) = N;
  wr_bytes : bytes (m_LineBuf e);
  wr_pos : m_DestBitpos e = zlen l;
  wr_bits : ∀ i, 0 <= i → bit_at (m_LineBuf e) i = default false (l !! Z.to_nat i);
}.

Definition zeros (n : Z) : list bool := replicate (Z.to_nat n) false.

Lemma default_false_app l n i : default false ((l ++ replicate n false) !! i) = default false (l !! i).
Proof.
  destruct (decide (i < length l)%nat); [by rewrite lookup_app_l|]. rewrite lookup_app_r by lia. rewrite (lookup_ge_None_2 l) by lia.
  destruct (replicate n false !! _) eqn:E; [|done]. by apply lookup_replicate in E as [-> _].
Qed.

Lemma written_skip N n e l : 0 <= n → written N e l → written N (advance n e) (l ++ zeros n).
Proof.
  intros Hn [H1 H2 H3 H4]. constructor; cbn [m_LineBuf m_DestBitpos advance]; [done|done| |].
  - rewrite zlen_app, H3. unfold zeros, zlen. rewrite length_replicate. lia.
  - intros i Hi. rewrite H4 by done. symmetry. apply default_false_app.
Qed.

Lemma set_bit_testbit x k j : 0 <= k < 8 → 0 <= j < 8 → Z.testbit (x .| (1 .<< (7 - k))) (7 - j) = (j =? k) || Z.testbit x (7 - j).
Proof.
  intros Hk Hj. rewrite Z.shiftl_1_l, Z.lor_spec, Z.pow2_bits_eqb by lia. rewrite orb_comm. f_equal. destruct (Z.eqb_spec j k); lia.
Qed.

Lemma written_one N e l : written N e l → zlen l < 8 * N →
  ∃ e', put_bit e = Some e' ∧ written N (advance 1 e') (l ++ [true]).
Proof.
  intros [H1 H2 H3 H4] Hlen. unfold put_bit. rewrite H1, H3. replace (zlen l <? 8 * N) with true by lia. eexists. split; [done|].
  pose proof (zlen_nonneg l) as Hl. destruct (bit_at_split (zlen l) Hl) as (q & k & E & Hq & Hk & -> & ->).
  constructor; cbn [m_LineBuf m_DestBitpos advance].
  - by rewrite zlen_wr.
  - apply bytes_wr; [done|]. apply fits_lor; [lia|by apply bytes_rd|]. rewrite Z.shiftl_1_l. split; [lia|]. apply Z.pow_lt_mono_r; lia.
  - by rewrite zlen_app.
  - intros i Hi. rewrite bit_at_wr by lia. destruct (bit_at_split i Hi) as (q' & j & Ei & Hq' & Hj & -> & ->).
    destruct (decide (i = zlen l)) as [->|Hne].
    + replace (q' =? q) with true by lia. rewrite set_bit_testbit by lia. replace (j =? k) with true by lia.
      unfold zlen. by rewrite Nat2Z.id, lookup_app_r, Nat.sub_diag by lia.
    + assert (E2 : default false ((l ++ [true]) !! Z.to_nat i) = bit_at (m_LineBuf e) i).
      { rewrite H4 by done. destruct (decide (i < zlen l)); [by rewrite lookup_app_l by (unfold zlen in *; lia)|].
        rewrite !lookup_ge_None_2; [done|unfold zlen in *; lia|rewrite length_app; unfold zlen in *; cbn; lia]. }
      rewrite E2. destruct (Z.eqb_spec q' q) as [->|]; [|done]. rewrite set_bit_testbit by lia. replace (j =? k) with false by lia.
      cbn [orb]. by rewrite Ei, bit_at_byte by lia.
Qed.

Lemma AddBitStream_spec N v n : ∀ e l, zlen l + Z.of_nat n <= 8 * N → written N e l →
  ∃ e', AddBitStream v n e = Some e' ∧ written N e' (l ++ put_bits n v).
Proof.
  induction n as [|n IH]; intros e l Hlen He; cbn [AddBitStream put_bits]; [exists e; by rewrite app_nil_r|].
  assert (Hb : negb (v .& (1 .<< Z.of_nat n) =? 0) = Z.testbit v (Z.of_nat n)).
  { pose proof (bit_at_testbit [v] (7 - Z.of_nat n)) as Hx. destruct (Z.testbit v (Z.of_nat n)) eqn:Et.
    - destruct (Z.eqb_spec (v .& (1 .<< Z.of_nat n)) 0) as [H0|]; [|done]. exfalso. rewrite Z.shiftl_1_l in H0.
      pose proof (Z.land_spec v (2 ^ Z.of_nat n) (Z.of_nat n)) as Hl. rewrite H0, Z.bits_0, Et, Z.pow2_bits_true in Hl by lia. done.
    - rewrite Z.shiftl_1_l. destruct (Z.eqb_spec (v .& 2 ^ Z.of_nat n) 0) as [|Hne]; [done|]. exfalso. apply Hne, Z.bits_inj'. intros i Hi.
      rewrite Z.land_spec, Z.bits_0, Z.pow2_bits_eqb by lia. destruct (Z.eqb_spec (Z.of_nat n) i) as [<-|]; [by rewrite Et|by rewrite andb_false_r]. }
  rewrite Hb. change (?b :: ?r) with ([b] ++ r). rewrite app_assoc. destruct (Z.testbit v (Z.of_nat n)).
  - destruct (written_one N e l) as (e1 & -> & H1); [done|lia|]. cbn [mbind option_bind]. apply IH; [|done]. rewrite zlen_app. change (zlen [true]) with 1. lia.
  - cbn [mbind option_bind]. apply IH; [|by apply written_skip]. rewrite zlen_app. change (zlen [false]) with 1. lia.
Qed.

(** ** Bits that are read *)
Definition reads (buf : list Z) (pos : Z) (l : list bool) : Prop := ∀ i b, l !! i = Some b → bit_at buf (pos + Z.of_nat i) = b.

Lemma reads_cons buf pos b l : reads buf pos (b :: l) ↔ bit_at buf pos = b ∧ reads buf (pos + 1) l.
Proof.
  split.
  - intros H. split; [rewrite <-(Z.add_0_r pos); by apply (H 0%nat)|]. intros i c Hi. specialize (H (S i) c Hi).
    by replace (pos + 1 + Z.of_nat i) with (pos + Z.of_nat (S i)) by lia.
  - intros [H1 H2] [|i] c Hi; [injection Hi as <-; by rewrite Z.add_0_r|]. specialize (H2 i c Hi).
    by replace (pos + Z.of_nat (S i)) with (pos + 1 + Z.of_nat i) by lia.
Qed.

Lemma reads_app buf pos a b : reads buf pos (a ++ b) ↔ reads buf pos a ∧ reads buf (pos + zlen a) b.
Proof.
  revert pos. induction a as [|x a IH]; intros pos; cbn [app].
  - rewrite zlen_nil, Z.add_0_r. split; [intros H; split; [by intros i c Hi|done]|by intros [_ ?]].
  - rewrite !reads_cons, IH, zlen_cons. rewrite Z.add_assoc. tauto.
Qed.

Lemma reads_nil buf pos : reads buf pos [].
Proof. by intros i b Hi. Qed.

(** ** Codes of runs *)

(** The run whose code is [l]. *)
Fixpoint code_run (fuel : nat) (ins_array : list Z) (code ins_off : Z) (l : list bool) : option Z :=
  match fuel, l with
  | S fuel', b :: l' =>
      let ins := ins_array.[ins_off] in
      if ins =? 0xFF then None
      else
        let code := u32 (u32 (code .<< 1) + Z.b2z b) in
        match find_code (Z.to_nat ins) ins_array (ins_off + 1) code with
        | Some run => match l' with [] => Some run | _ => None end
        | None => code_run fuel' ins_array code (ins_off + 1 + ins * 3) l'
        end
  | _, _ => None
  end.

Lemma get_run_code buf bitsize ins run fuel : ∀ code off l pos, code_run fuel ins code off l = Some run → reads buf pos l → pos + zlen l <= bitsize →
  get_run fuel ins buf bitsize code off pos = (run, pos + zlen l).
Proof.
  induction fuel as [|fuel IH]; intros code off [|b l] pos E Hr Hlen; cbn [code_run] in E; [done..|]. cbn [get_run].
  destruct (ins.[off] =? 255); [done|]. apply reads_cons in Hr as [-> Hr]. rewrite zlen_cons in *. pose proof (zlen_nonneg l).
  replace (bitsize <=? pos) with false by lia. destruct (find_code _ _ _ _).
  - destruct l; [|done]. injection E as ->. done.
  - rewrite (IH _ _ _ _ E Hr) by lia. f_equal. lia.
Qed.

(** The code of a run below 64, of a multiple of 64, of any run. *)
Definition terminator (white : bool) (n : Z) : list bool :=
  let t := if white then WhiteRunTerminator else BlackRunTerminator in put_bits (Z.to_nat t.[n * 2 + 1]) t.[n * 2].
Definition markup (white : bool) (n : Z) : list bool :=
  let t := if white then WhiteRunMarkup else BlackRunMarkup in put_bits (Z.to_nat t.[(n - 1) * 2 + 1]) t.[(n - 1) * 2].
Definition longest : list bool := put_bits 12 0x1f.

Definition run_code (white : bool) (n : Z) : list bool :=
  let m := n mod 2560 in
  concat (replicate (Z.to_nat (n / 2560)) longest) ++ (if 64 <=? m then markup white (m / 64) else []) ++ terminator white (m mod 64).

Definition code_ok (white : bool) (l : list bool) (run : Z) : Prop := code_run (length (run_ins white)) (run_ins white) 0 0 l = Some run.

Lemma terminator_ok white n : 0 <= n < 64 → code_ok white (terminator white n) n.
Proof.
  intros Hn. unfold code_ok. assert (H : forallb (λ n, bool_decide (code_run (length (run_ins white)) (run_ins white) 0 0 (terminator white n) = Some n)) (seqZ 0 64) = true)
    by (destruct white; vm_compute; reflexivity).
  rewrite List.forallb_forall in H. specialize (H n). rewrite <-list_elem_of_In, elem_of_seqZ in H. specialize (H ltac:(lia)). by apply bool_decide_eq_true in H.
Qed.

Lemma markup_ok white n : 1 <= n <= 40 → code_ok white (markup white n) (64 * n).
Proof.
  intros Hn. unfold code_ok. assert (H : forallb (λ n, bool_decide (code_run (length (run_ins white)) (run_ins white) 0 0 (markup white n) = Some (64 * n))) (seqZ 1 40) = true)
    by (destruct white; vm_compute; reflexivity).
  rewrite List.forallb_forall in H. specialize (H n). rewrite <-list_elem_of_In, elem_of_seqZ in H. specialize (H ltac:(lia)). by apply bool_decide_eq_true in H.
Qed.

Lemma longest_markup white : longest = markup white 40.
Proof. by destruct white. Qed.

(** ** Runs that are written *)
Lemma long_runs_spec N fuel : ∀ n r e l, 0 <= r < 2560 → (n < fuel)%nat → zlen l + 12 * Z.of_nat n <= 8 * N → written N e l →
  ∃ e', long_runs fuel (2560 * Z.of_nat n + r) e = Some (r, e') ∧ written N e' (l ++ concat (replicate n longest)).
Proof.
  induction fuel as [|fuel IH]; intros n r e l Hr Hn Hlen He; [lia|]. cbn [long_runs]. destruct n as [|n].
  - replace (2560 * Z.of_nat 0 + r <? 2560) with true by lia. exists e. rewrite app_nil_r. split; [do 2 f_equal; lia|done].
  - replace (2560 * Z.of_nat (S n) + r <? 2560) with false by lia.
    destruct (AddBitStream_spec N 0x1f 12 e l) as (e1 & -> & H1); [lia|done|]. cbn [mbind option_bind].
    replace (2560 * Z.of_nat (S n) + r - 2560) with (2560 * Z.of_nat n + r) by lia.
    destruct (IH n r e1 (l ++ longest)) as (e2 & E2 & H2); [done|lia| |done|].
    { rewrite zlen_app. change (zlen longest) with 12. lia. }
    exists e2. split; [done|]. cbn [replicate concat]. by rewrite app_assoc.
Qed.

Lemma concat_longest n : zlen (concat (replicate n longest)) = 12 * Z.of_nat n.
Proof. induction n as [|n IH]; [done|]. cbn [replicate concat]. rewrite zlen_app, IH. change (zlen longest) with 12. lia. Qed.

Lemma markup_length white n : zlen (markup white n) = Z.of_nat (Z.to_nat (if white then WhiteRunMarkup else BlackRunMarkup).[(n - 1) * 2 + 1]).
Proof. unfold markup, zlen. by rewrite length_put_bits. Qed.

Lemma terminator_length white n : zlen (terminator white n) = Z.of_nat (Z.to_nat (if white then WhiteRunTerminator else BlackRunTerminator).[n * 2 + 1]).
Proof. unfold terminator, zlen. by rewrite length_put_bits. Qed.

Lemma FaxEncodeRun_spec N white n e l : 0 <= n → zlen l + zlen (run_code white n) <= 8 * N → written N e l →
  ∃ e', FaxEncodeRun n white e = Some e' ∧ written N e' (l ++ run_code white n).
Proof.
  intros Hn Hlen He. unfold FaxEncodeRun, run_code in *. set (m := n mod 2560) in *. rewrite !zlen_app, concat_longest in Hlen.
  assert (Em : n = 2560 * Z.of_nat (Z.to_nat (n / 2560)) + m) by (unfold m; Z.div_mod_to_equations; lia).
  assert (Hm : 0 <= m < 2560) by (apply Z.mod_pos_bound; lia). pose proof (zlen_nonneg (if 64 <=? m then markup white (m / 64) else [])).
  pose proof (zlen_nonneg (terminator white (m mod 64))).
  destruct (long_runs_spec N (S (Z.to_nat n)) (Z.to_nat (n / 2560)) m e l) as (e1 & E1 & H1); [done|Z.div_mod_to_equations; lia|lia|done|].
  rewrite <-Em in E1. rewrite E1. cbn [mbind option_bind]. clear E1.
  assert (H2 : ∃ e2, (if 64 <=? m then AddBitStream (if white then WhiteRunMarkup else BlackRunMarkup).[(m / 64 - 1) * 2]
      (Z.to_nat (if white then WhiteRunMarkup else BlackRunMarkup).[(m / 64 - 1) * 2 + 1]) e1 else Some e1) = Some e2 ∧
      written N e2 ((l ++ concat (replicate (Z.to_nat (n / 2560)) longest)) ++ (if 64 <=? m then markup white (m / 64) else []))).
  { destruct (Z.leb_spec 64 m); [|exists e1; by rewrite app_nil_r]. apply AddBitStream_spec; [|done]. rewrite zlen_app, concat_longest, <-markup_length. lia. }
  destruct H2 as (e2 & -> & H2). cbn [mbind option_bind]. rewrite Z.rem_mod_nonneg by lia.
  assert (Hr : 0 <= m mod 64 < 64) by (apply Z.mod_pos_bound; lia). replace (m mod 64 <? 0) with false by lia.
  rewrite !app_assoc in *. apply AddBitStream_spec; [|done]. rewrite !zlen_app, concat_longest, <-terminator_length. lia.
Qed.

(** ** Runs that are read *)
Lemma FaxGetRun_ok buf bitsize white l run pos : code_ok white l run → reads buf pos l → pos + zlen l <= bitsize →
  FaxGetRun (run_ins white) buf pos bitsize = (run, pos + zlen l).
Proof. intros Hc Hr Hlen. by apply get_run_code. Qed.

Lemma terminator_reads buf bitsize white n acc fuel pos : 0 <= n < 64 → 0 <= acc → acc + n < 2 ^ 31 → (0 < fuel)%nat →
  reads buf pos (terminator white n) → pos + zlen (terminator white n) <= bitsize →
  run_length fuel white buf bitsize acc pos = Some (acc + n, pos + zlen (terminator white n)).
Proof.
  intros Hn Hacc Hmax Hf Hr Hlen. destruct fuel as [|fuel]; [lia|]. cbn [run_length].
  rewrite (FaxGetRun_ok _ _ _ _ n) by (done || by apply terminator_ok). unfold safe_int. replace (_ && _) with true by lia.
  cbn [mbind option_bind]. by replace (n <? 64) with true by lia.
Qed.

(** One code of 64 or more. *)
Lemma markup_reads buf bitsize white n acc fuel pos rest : 1 <= n <= 40 → 0 <= acc → acc + 64 * n < 2 ^ 31 →
  reads buf pos (markup white n ++ rest) → pos + zlen (markup white n ++ rest) <= bitsize →
  run_length (S fuel) white buf bitsize acc pos = run_length fuel white buf bitsize (acc + 64 * n) (pos + zlen (markup white n)).
Proof.
  intros Hn Hacc Hmax Hr Hlen. apply reads_app in Hr as [Hr _]. rewrite zlen_app in Hlen. pose proof (zlen_nonneg rest). cbn [run_length].
  rewrite (FaxGetRun_ok _ _ _ _ (64 * n)) by (by apply markup_ok || done || lia). unfold safe_int. replace (_ && _) with true by lia.
  cbn [mbind option_bind]. by replace (64 * n <? 64) with false by lia.
Qed.

Lemma short_run_reads buf bitsize white m acc fuel pos : 0 <= m < 2560 → 0 <= acc → acc + m < 2 ^ 31 → (2 <= fuel)%nat →
  let l := (if 64 <=? m then markup white (m / 64) else []) ++ terminator white (m mod 64) in
  reads buf pos l → pos + zlen l <= bitsize → run_length fuel white buf bitsize acc pos = Some (acc + m, pos + zlen l).
Proof.
  intros Hm Hacc Hmax Hf l Hr Hlen. unfold l in *. assert (Hr64 : 0 <= m mod 64 < 64) by (apply Z.mod_pos_bound; lia).
  destruct (Z.leb_spec 64 m) as [H64|Hlt].
  - destruct fuel as [|fuel]; [lia|]. rewrite (markup_reads buf bitsize white (m / 64) acc fuel pos _ ltac:(Z.div_mod_to_equations; lia) Hacc ltac:(Z.div_mod_to_equations; lia) Hr Hlen).
    apply reads_app in Hr as [_ Hr]. rewrite zlen_app in *. rewrite (terminator_reads _ _ _ (m mod 64)); [|done|Z.div_mod_to_equations; lia|Z.div_mod_to_equations; lia|lia|done|lia].
    f_equal. f_equal; Z.div_mod_to_equations; lia.
  - cbn [app] in *. rewrite (Z.mod_small m) in * by lia. rewrite (terminator_reads _ _ _ m); [done|lia..|done|lia].
Qed.

Lemma long_run_reads buf bitsize white m k : 0 <= m < 2560 → ∀ acc fuel pos, 0 <= acc → acc + 2560 * Z.of_nat k + m < 2 ^ 31 → (k + 2 <= fuel)%nat →
  let l := concat (replicate k longest) ++ (if 64 <=? m then markup white (m / 64) else []) ++ terminator white (m mod 64) in
  reads buf pos l → pos + zlen l <= bitsize → run_length fuel white buf bitsize acc pos = Some (acc + 2560 * Z.of_nat k + m, pos + zlen l).
Proof.
  intros Hm. induction k as [|k IH]; intros acc fuel pos Hacc Hmax Hf l Hr Hlen; unfold l in *; cbn [replicate concat] in *.
  - cbn [app] in *. rewrite (short_run_reads _ _ _ m) by (done || lia). do 2 f_equal. lia.
  - rewrite <-!app_assoc in *. destruct fuel as [|fuel]; [lia|].
    match type of Hr with reads _ _ (longest ++ ?r) => pose proof (markup_reads buf bitsize white 40 acc fuel pos r) as Hm40 end.
    rewrite <-(longest_markup white) in Hm40. rewrite Hm40 by (done || lia). apply reads_app in Hr as [_ Hr]. rewrite zlen_app in Hlen.
    rewrite IH; [|lia|lia|lia|done|lia]. rewrite (zlen_app longest). do 2 f_equal; lia.
Qed.

Lemma run_length_spec buf bitsize white n pos fuel : 0 <= n < 2 ^ 30 → reads buf pos (run_code white n) → pos + zlen (run_code white n) <= bitsize →
  n / 2560 + 2 <= Z.of_nat fuel →
  run_length fuel white buf bitsize 0 pos = Some (n, pos + zlen (run_code white n)).
Proof.
  intros Hn Hr Hlen Hf. assert (Hm : 0 <= n mod 2560 < 2560) by (apply Z.mod_pos_bound; lia).
  assert (Hk : Z.of_nat (Z.to_nat (n / 2560)) = n / 2560) by (Z.div_mod_to_equations; lia).
  rewrite (long_run_reads buf bitsize white (n mod 2560) (Z.to_nat (n / 2560)) Hm 0 fuel pos); [|done|Z.div_mod_to_equations; lia|lia|done|done].
  f_equal. f_equal. Z.div_mod_to_equations. lia.
Qed.

(** ** Lengths *)
Lemma terminator_short white n : 0 <= n < 64 →
  2 <= zlen (terminator white n) <= 12 ∧ (1 <= n → zlen (terminator white n) <= 7 * n - (if white then 1 else 4)) ∧ (4 <= n → zlen (terminator white n) <= 7 * n - 17).
Proof.
  intros Hn. assert (H : forallb (λ n, let len := zlen (terminator white n) in
      (2 <=? len) && (len <=? 12) && ((n <? 1) || (len <=? 7 * n - (if white then 1 else 4))) && ((n <? 4) || (len <=? 7 * n - 17))) (seqZ 0 64) = true)
    by (destruct white; vm_compute; reflexivity).
  rewrite List.forallb_forall in H. specialize (H n). rewrite <-list_elem_of_In, elem_of_seqZ in H. specialize (H ltac:(lia)). cbv zeta in H. lia.
Qed.

Lemma markup_short white n : 1 <= n <= 40 → zlen (markup white n) <= 13.
Proof.
  intros Hn. assert (H : forallb (λ n, zlen (markup white n) <=? 13) (seqZ 1 40) = true) by (destruct white; vm_compute; reflexivity).
  rewrite List.forallb_forall in H. specialize (H n). rewrite <-list_elem_of_In, elem_of_seqZ in H. specialize (H ltac:(lia)). lia.
Qed.

Lemma run_code_short white n : 0 <= n →
  2 <= zlen (run_code white n) ∧ (1 <= n → zlen (run_code white n) <= 7 * n - (if white then 1 else 4)) ∧ (4 <= n → zlen (run_code white n) <= 7 * n - 17) ∧
  n / 2560 + 2 <= 1 + zlen (run_code white n).
Proof.
  intros Hn. unfold run_code. rewrite !zlen_app, concat_longest. set (m := n mod 2560) in *. assert (Hm : 0 <= m < 2560) by (apply Z.mod_pos_bound; lia).
  pose proof (terminator_short white (m mod 64) ltac:(apply Z.mod_pos_bound; lia)) as (T1 & T2 & T3).
  assert (Em : n = 2560 * (n / 2560) + m) by (unfold m; Z.div_mod_to_equations; lia). assert (Hk : 0 <= n / 2560) by (apply Z.div_pos; lia).
  rewrite Z2Nat.id by lia. destruct (Z.leb_spec 64 m).
  - pose proof (markup_short white (m / 64) ltac:(Z.div_mod_to_equations; lia)). pose proof (zlen_nonneg (markup white (m / 64))). destruct white; lia.
  - rewrite (Z.mod_small m) in * by lia. rewrite zlen_nil. destruct (decide (n / 2560 = 0)); [destruct white; lia|]. destruct white; lia.
Qed.

Lemma run_code_zero white : zlen (run_code white 0) <= 10 ∧ zlen (run_code true 0) = 8.
Proof. by destruct white. Qed.
