(* ===== verification/FaxText.v ===== *)
(** * Images in group 4

    An image that is encoded is decoded to the same pixels: the encoder and the
    decoder go through a line together, and agree on where the colours change. *)
From S2P Require Import Prelude Words BitStream FaxTables Fax FaxBits FaxCodes.

(** ** Modes *)
Definition vertical_code (d : Z) : list bool :=
  if d =? 0 then [true]
  else if 0 <? d then zeros (if d =? 1 then 1 else d + 2) ++ [true; true]
  else zeros (if d =? -1 then 1 else - d + 2) ++ [true; false].

Lemma encode_vertical_spec N d e l : -3 <= d <= 3 → zlen l + 7 <= 8 * N → written N e l →
  ∃ e', encode_vertical d e = Some e' ∧ written N e' (l ++ vertical_code d).
Proof.
  intros Hd Hlen He. unfold encode_vertical, vertical_code. destruct (Z.eqb_spec d 0) as [_|Hne].
  { destruct (written_one N e l) as (e1 & -> & H1); [done|lia|]. by eexists. }
  assert (Hz : ∀ n, 0 <= n → zlen (zeros n) = n) by (intros n Hn; unfold zeros, zlen; rewrite length_replicate; lia).
  destruct (Z.ltb_spec 0 d).
  - set (n := if d =? 1 then 1 else d + 2). assert (Hn : 0 <= n <= 5) by (unfold n; destruct (Z.eqb_spec d 1); lia).
    apply (written_skip N n) in He; [|lia]. destruct (written_one N _ _ He ltac:(rewrite zlen_app, Hz by lia; lia)) as (e1 & -> & H1). cbn [mbind option_bind].
    destruct (written_one N _ _ H1 ltac:(rewrite !zlen_app, Hz by lia; change (zlen [true]) with 1; lia)) as (e2 & -> & H2). cbn [mbind option_bind].
    eexists. split; [done|]. rewrite <-!app_assoc in H2. exact H2.
  - set (n := if d =? -1 then 1 else - d + 2). assert (Hn : 0 <= n <= 5) by (unfold n; destruct (Z.eqb_spec d (-1)); lia).
    apply (written_skip N n) in He; [|lia]. destruct (written_one N _ _ He ltac:(rewrite zlen_app, Hz by lia; lia)) as (e1 & -> & H1). cbn [mbind option_bind].
    eexists. split; [done|]. apply (written_skip N 1) in H1; [|lia]. rewrite <-!app_assoc in H1. exact H1.
Qed.

Lemma vertical_code_length d : -3 <= d <= 3 → 1 <= zlen (vertical_code d) <= 7.
Proof.
  intros Hd. unfold vertical_code. destruct (_ =? 0); [done|].
  destruct (Z.ltb_spec 0 d); [destruct (Z.eqb_spec d 1)|destruct (Z.eqb_spec d (-1))]; rewrite zlen_app; unfold zeros, zlen; rewrite length_replicate; cbn [length]; lia.
Qed.

Section modes.
Context (buf : list Z) (bitsize pos : Z).
Notation bit k := (bit_at buf (pos + k)).
Notation ends k := (bitsize <=? pos + k).

(** The decisions of [ReadMode], from the first bit on. *)
Lemma ReadMode_bits : ReadMode buf bitsize pos =
  if bit_at buf pos then (Vertical 0, pos + 1)
  else if ends 1 then (ReadEnd, pos + 1) else if ends 2 then (ReadEnd, pos + 2)
  else if bit 1 then (Vertical (if bit 2 then 1 else -1), pos + 3)
  else if bit 2 then (Horizontal, pos + 3)
  else if ends 3 then (ReadEnd, pos + 3) else if bit 3 then (Pass, pos + 4)
  else if ends 4 then (ReadEnd, pos + 4) else if ends 5 then (ReadEnd, pos + 5)
  else if bit 4 then (Vertical (if bit 5 then 2 else -2), pos + 6)
  else if bit 5 then (if ends 6 then (ReadEnd, pos + 6) else (Vertical (if bit 6 then 3 else -3), pos + 7))
  else if ends 6 then (ReadEnd, pos + 6) else if bit 6 then (Skipped, pos + 10) else (ReadEnd, pos + 12).
Proof. unfold ReadMode. rewrite <-!Z.add_assoc. reflexivity. Qed.

(** The mode that is written as [w]. *)
Definition mode_code (w : list bool) (m : g4_mode) : Prop := reads buf pos w → pos + zlen w <= bitsize → ReadMode buf bitsize pos = (m, pos + zlen w).

Ltac read_mode := intros H Hlen; rewrite ReadMode_bits; unfold zlen in Hlen |- *; cbn [length Z.of_nat Pos.of_succ_nat Pos.succ] in Hlen |- *;
  pose proof (H 0%nat _ eq_refl) as H0; rewrite Z.add_0_r in H0; rewrite ?H0;
  repeat match goal with
  | |- context [bit_at buf (pos + ?k)] => rewrite (H (Z.to_nat k) _ eq_refl : bit_at buf (pos + k) = _)
  | |- context [bitsize <=? pos + ?k] => replace (bitsize <=? pos + k) with false by lia
  end; reflexivity.

Lemma pass_code : mode_code [false; false; false; true] Pass.
Proof. read_mode. Qed.
Lemma horizontal_code : mode_code [false; false; true] Horizontal.
Proof. read_mode. Qed.
Lemma vertical_mode d : -3 <= d <= 3 → mode_code (vertical_code d) (Vertical d).
Proof.
  intros Hd. assert (Hc : d = -3 ∨ d = -2 ∨ d = -1 ∨ d = 0 ∨ d = 1 ∨ d = 2 ∨ d = 3) by lia.
  destruct Hc as [->|[->|[->|[->|[->|[->| ->]]]]]]; change (vertical_code ?d) with ltac:(let x := eval vm_compute in (vertical_code d) in exact x); read_mode.
Qed.
End modes.

(** The two runs of a horizontal mode take at most seven bits for each pixel, but at
    the start of a line that is black there. *)
Lemma pair_length color m n : 0 <= m → 0 <= n →
  let code := [false; false; true] ++ run_code color m ++ run_code (negb color) n in
  (1 <= m ∧ 1 <= n ∨ 4 <= m ∧ n = 0 → zlen code <= 7 * (m + n)) ∧
  (color = true → m = 0 → 1 <= n → zlen code <= 7 + 7 * n).
Proof.
  intros Hm Hn code. unfold code. rewrite !zlen_app. change (zlen [false; false; true]) with 3.
  destruct (run_code_short color m Hm) as (_ & R1 & R2 & _). destruct (run_code_short (negb color) n Hn) as (_ & S1 & S2 & _).
  destruct (run_code_zero (negb color)) as [Z1 Z2]. split.
  - intros [[H1 H2]|[H1 ->]]; [|specialize (R2 H1); lia]. specialize (R1 H1). specialize (S1 H2). destruct color; cbn [negb] in *; lia.
  - intros -> -> H2. specialize (S1 H2). cbn [negb] in *. lia.
Qed.

(** ** A line *)
Section row.
Context (columns N : Z) (src ref_e ref_d : list Z).
Hypothesis Hcolumns : 0 < columns < 2 ^ 16.
Hypothesis HN : 14 + 7 * columns <= 8 * N.
Hypothesis Hsrc : line_ok columns src.
Hypothesis Hrefe : line_ok columns ref_e.
Hypothesis Hrefd : line_ok columns ref_d.
Hypothesis Hsame : same_pixels columns ref_e ref_d.

(** The pixel at [a0] has the colour that the line goes on with. *)
Definition at_color (a0 : Z) (color : bool) : Prop := a0 = -1 ∧ color = true ∨ 0 <= a0 < columns ∧ bit_at src a0 = color.

(** The pixels before [a] are drawn, the others are white. *)
Record drawn (pitch a : Z) (dest : list Z) : Prop := {
  dr_bytes : bytes dest;
  dr_size : zlen dest = pitch;
  dr_bits : ∀ i, 0 <= i < 8 * pitch → bit_at dest i = if i <? a then bit_at src i else true;
}.

Lemma drawn_fill pitch a b color dest : columns <= 8 * pitch → drawn pitch a dest → a <= b <= columns → (color = false → 0 <= a) →
  (∀ i, Z.max a 0 <= i < b → bit_at src i = color) → drawn pitch b (fill_if columns (negb color) dest a b).
Proof.
  intros Hp [H1 H2 H3] Hab Ha Hc. destruct color; cbn [negb fill_if].
  - constructor; [done|done|]. intros i Hi. rewrite H3 by done. destruct (Z.ltb_spec i a); [by replace (i <? b) with true by lia|].
    destruct (Z.ltb_spec i b); [|done]. symmetry. apply Hc. lia.
  - specialize (Ha eq_refl). destruct (FaxFillBits_spec dest columns a b) as (F1 & F2 & F3); [done|lia| |].
    { intros i Hi. rewrite H3 by lia. by replace (i <? a) with false by lia. }
    constructor; [done|lia|]. intros i Hi. rewrite F3, H3 by lia. replace (Z.max a 0) with a by lia. replace (Z.min b columns) with b by lia.
    destruct (Z.ltb_spec i b).
    + rewrite andb_true_r. destruct (Z.leb_spec a i); [symmetry; apply Hc; lia|]. by replace (i <? a) with true by lia.
    + rewrite andb_false_r. by replace (i <? a) with false by lia.
Qed.

(** How many bits have been written for the pixels up to [a0], at most. *)
Definition budget (a0 : Z) : Z := if a0 <? 0 then 7 else 14 + 7 * a0.

(** One round of both loops, from [a0] to [a0'], with the bits [w]. *)
Definition line_round (a0 : Z) (color : bool) (e : FaxEncoder) (l : list bool) : Prop := ∃ a0' color' e' w,
  (∀ fuel, encode_2d (S fuel) columns ref_e src a0 color e = if columns <=? a0' then Some e' else encode_2d fuel columns ref_e src a0' color' e') ∧
  written N e' (l ++ w) ∧ zlen (l ++ w) <= budget a0' ∧ 1 <= zlen w ∧ a0 < a0' <= columns ∧ 0 <= a0' ∧ (a0' < columns → at_color a0' color') ∧
  ∀ buf bitsize pos pitch dest fuel, reads buf pos w → pos + zlen w <= bitsize → columns <= 8 * pitch → drawn pitch a0 dest →
    ∃ dest', drawn pitch a0' dest' ∧ g4_row buf bitsize columns (S fuel) ref_d pos a0 color dest =
      if columns <=? a0' then Some (pos + zlen w, dest') else g4_row buf bitsize columns fuel ref_d (pos + zlen w) a0' color' dest'.

Context (a0 : Z) (color : bool) (e : FaxEncoder) (l : list bool).
Hypothesis Hcolor : at_color a0 color.
Hypothesis Hwritten : written N e l.
Hypothesis Hbudget : zlen l <= budget a0.
Notation a1 := (FindBit src columns (a0 + 1) (negb color)).
Notation b12 := (FaxG4FindB1B2 ref_e columns a0 color).

Lemma a0_range : -1 <= a0 < columns.
Proof. destruct Hcolor as [[-> _]|[H _]]; lia. Qed.

Lemma a1_spec : a0 < a1 <= columns ∧ (∀ i, Z.max a0 0 <= i < a1 → bit_at src i = color) ∧ (a1 < columns → bit_at src a1 = negb color).
Proof.
  pose proof a0_range as Ha. destruct Hsrc as (S1 & S2 & S3). destruct (FindBit_spec src columns (a0 + 1) (negb color) S1 ltac:(lia) S2 S3) as (H1 & H2 & H3).
  split; [lia|]. split; [|done]. intros i Hi. destruct (decide (i = a0)) as [->|Hne].
  - destruct Hcolor as [[E _]|[_ E]]; [lia|done].
  - rewrite H2 by lia. apply negb_involutive.
Qed.

Lemma decoder_b12 : FaxG4FindB1B2 ref_d columns a0 color = b12.
Proof. symmetry. apply FindB1B2_pixels; [done..|]. apply a0_range. Qed.

Lemma black_start : color = false → 0 <= a0.
Proof. intros E. destruct Hcolor as [[_ ?]|[? _]]; [congruence|lia]. Qed.

Lemma pass_round : b12.2 < a1 → line_round a0 color e l.
Proof.
  intros Hpass. pose proof a0_range as Ha0. destruct a1_spec as (A1 & A2 & A3). pose proof (FindB1B2_range columns ref_e a0 color Hrefe Ha0) as Hb.
  pose proof decoder_b12 as Hdec. destruct b12 as [b1 b2] eqn:Eb. cbn [snd] in *.
  assert (Hz : zlen l <= 14 + 7 * a0 ∨ a0 = -1 ∧ zlen l <= 7) by (unfold budget in Hbudget; destruct (Z.ltb_spec a0 0); lia).
  pose proof (written_skip N 3 e l ltac:(lia) Hwritten) as H1.
  destruct (written_one N _ _ H1) as (e2 & E2 & H2); [rewrite zlen_app; change (zlen (zeros 3)) with 3; lia|].
  exists b2, color, (advance 1 e2), [false; false; false; true]. split_and!.
  - intros fuel. cbn [encode_2d]. rewrite Eb. replace (b2 <? a1) with true by lia. rewrite E2. cbn [mbind option_bind]. done.
  - by rewrite <-app_assoc in H2.
  - rewrite zlen_app. change (zlen [false; false; false; true]) with 4. unfold budget. replace (b2 <? 0) with false by lia. lia.
  - done.
  - lia.
  - lia.
  - lia.
  - intros _. right. split; [lia|]. apply A2. lia.
  - intros buf bitsize pos pitch dest fuel Hr Hlen Hp Hd. exists (fill_if columns (negb color) dest a0 b2). split.
    + apply drawn_fill; [done|done|lia|apply black_start|]. intros i Hi. apply A2. lia.
    + cbn [g4_row]. rewrite Hdec, (pass_code _ _ _ Hr Hlen). unfold zlen in Hlen. cbn in Hlen. by replace (bitsize <=? pos) with false by lia.
Qed.

Lemma budget_split : 0 <= a0 ∧ zlen l <= 14 + 7 * a0 ∨ a0 = -1 ∧ zlen l <= 7.
Proof. unfold budget in Hbudget. pose proof a0_range. destruct (Z.ltb_spec a0 0); lia. Qed.

Lemma budget_to a : 0 <= a → budget a = 14 + 7 * a.
Proof. intros Ha. unfold budget. by replace (a <? 0) with false by lia. Qed.

Lemma vertical_round : a1 <= b12.2 → -3 <= a1 - b12.1 <= 3 → line_round a0 color e l.
Proof.
  intros Hnot Hd. pose proof a0_range as Ha0. destruct a1_spec as (A1 & A2 & A3). pose proof decoder_b12 as Hdec. pose proof budget_split as Hz.
  destruct b12 as [b1 b2] eqn:Eb. cbn [fst snd] in *. pose proof (vertical_code_length _ Hd) as Hlen1.
  destruct (encode_vertical_spec N (a1 - b1) e l Hd) as (e2 & E2 & H2); [lia|done|].
  exists a1, (negb color), e2, (vertical_code (a1 - b1)). split_and!; [| |rewrite zlen_app, budget_to by lia; lia|lia|lia|lia|lia|..].
  - intros fuel. cbn [encode_2d]. rewrite Eb. replace (b2 <? a1) with false by lia. replace ((a1 - b1 <=? 3) && (b1 - a1 <=? 3)) with true by lia.
    rewrite E2. done.
  - done.
  - intros Hlt. right. split; [lia|by apply A3].
  - intros buf bitsize pos pitch dest fuel Hr Hlen Hp Hdr. exists (fill_if columns (negb color) dest a0 a1). split.
    + apply drawn_fill; [done|done|lia|apply black_start|done].
    + cbn [g4_row]. rewrite Hdec, (vertical_mode _ _ _ _ Hd Hr Hlen). replace (b1 + (a1 - b1)) with a1 by lia.
      replace (bitsize <=? pos) with false by lia. destruct (Z.leb_spec columns a1); [done|]. by replace (a1 <=? a0) with false by lia.
Qed.

Notation a2 := (FindBit src columns (a1 + 1) color).

Lemma a2_spec : a1 <= a2 <= columns ∧ (∀ i, a1 <= i < a2 → bit_at src i = negb color) ∧ (a2 < columns → bit_at src a2 = color) ∧
  (a1 < columns → a1 < a2).
Proof.
  destruct a1_spec as (A1 & A2 & A3). pose proof a0_range. destruct (decide (a1 = columns)) as [E|Hne].
  - assert (E2 : a2 = columns) by (unfold FindBit at 1; rewrite E; by replace (columns <=? columns + 1) with true by lia). rewrite E2. split; [lia|]. split; [lia|]. lia.
  - destruct Hsrc as (S1 & S2 & S3). destruct (FindBit_spec src columns (a1 + 1) color S1 ltac:(lia) S2 S3) as (H1 & H2 & H3).
    split; [lia|]. split; [|split; [done|lia]]. intros i Hi. destruct (decide (i = a1)) as [->|]; [apply A3; lia|]. apply H2. lia.
Qed.

(** The two runs of a horizontal mode. *)
Notation run1 := (a1 - Z.max a0 0).
Notation run2 := (a2 - a1).
Notation code := ([false; false; true] ++ run_code color run1 ++ run_code (negb color) run2).

Lemma horizontal_length : ¬ (-3 <= a1 - b12.1 <= 3) → zlen (l ++ code) <= 14 + 7 * a2.
Proof.
  intros Hd. pose proof a0_range as Ha0. destruct a1_spec as (A1 & A2 & A3). destruct a2_spec as (B1 & B2 & B3 & B4).
  pose proof (FindB1B2_range columns ref_e a0 color Hrefe Ha0) as Hb. destruct b12 as [b1 b2]. cbn [fst snd] in *.
  rewrite zlen_app. pose proof (pair_length color run1 run2 ltac:(lia) ltac:(lia)) as [P1 P2]. fold code in P1, P2.
  destruct budget_split as [[H0 Hl]|[E Hl]].
  - assert (H12 : 1 <= run1 ∧ 1 <= run2 ∨ 4 <= run1 ∧ run2 = 0) by (destruct (decide (a1 = columns)); lia). specialize (P1 H12). lia.
  - assert (Ec : color = true) by (destruct Hcolor as [[_ ?]|[? _]]; [done|lia]).
    destruct (decide (run1 = 0)) as [E1|Hne].
    + specialize (P2 Ec E1 ltac:(lia)). lia.
    + assert (H12 : 1 <= run1 ∧ 1 <= run2 ∨ 4 <= run1 ∧ run2 = 0) by (destruct (decide (a1 = columns)); lia). specialize (P1 H12). lia.
Qed.

Lemma safe_int_in z : - 2 ^ 31 <= z < 2 ^ 31 → safe_int z = Some z.
Proof. intros Hz. unfold safe_int. by replace (_ && _) with true by lia. Qed.

(** The decoder reads the two runs and draws them. *)
Lemma horizontal_decode buf bitsize pos pitch dest fuel : reads buf pos code → pos + zlen code <= bitsize → columns <= 8 * pitch → drawn pitch a0 dest →
  ∃ dest', drawn pitch a2 dest' ∧ g4_row buf bitsize columns (S fuel) ref_d pos a0 color dest =
    if columns <=? a2 then Some (pos + zlen code, dest') else g4_row buf bitsize columns fuel ref_d (pos + zlen code) a2 color dest'.
Proof.
  intros Hr Hlen Hp Hd. pose proof a0_range as Ha0. destruct a1_spec as (A1 & A2 & A3). destruct a2_spec as (B1 & B2 & B3 & B4).
  exists (fill_if columns color (fill_if columns (negb color) dest a0 a1) a1 a2). split.
  - pose proof (drawn_fill pitch a1 a2 (negb color) (fill_if columns (negb color) dest a0 a1)) as Hd2. rewrite negb_involutive in Hd2.
    apply Hd2; [done| |lia|lia|].
    + apply drawn_fill; [done|done|lia|apply black_start|done].
    + intros i Hi. apply B2. lia.
  - apply reads_app in Hr as [Hr0 Hr]. apply reads_app in Hr as [Hr1 Hr2]. rewrite !zlen_app in *. change (zlen [false; false; true]) with 3 in *.
    pose proof (zlen_nonneg (run_code color run1)). pose proof (zlen_nonneg (run_code (negb color) run2)).
    destruct (run_code_short color run1 ltac:(lia)) as (_ & _ & _ & F1). destruct (run_code_short (negb color) run2 ltac:(lia)) as (_ & _ & _ & F2).
    cbn [g4_row]. replace (bitsize <=? pos) with false by lia. rewrite (horizontal_code _ _ _ Hr0) by (change (zlen [false; false; true]) with 3; lia).
    change (zlen [false; false; true]) with 3. destruct (FaxG4FindB1B2 ref_d columns a0 color) as [b1 b2].
    rewrite (run_length_spec _ _ _ run1) by (done || lia). cbn [mbind option_bind].
    assert (E1 : (if a0 <? 0 then safe_int (run1 + 1) else Some run1) = Some (a1 - a0)).
    { destruct (Z.ltb_spec a0 0); [rewrite safe_int_in by lia|]; f_equal; lia. }
    rewrite E1. cbn [mbind option_bind]. replace (a1 - a0 <? 0) with false by lia. rewrite safe_int_in by lia. cbn [mbind option_bind].
    replace (a0 + (a1 - a0)) with a1 by lia. rewrite (run_length_spec _ _ _ run2) by (done || lia). cbn [mbind option_bind].
    replace (run2 <? 0) with false by lia. replace (a1 + run2) with a2 by lia. rewrite safe_int_in by lia. cbn [mbind option_bind].
    rewrite !Z.add_assoc. destruct (Z.leb_spec columns a2); [by replace (a2 <? columns) with false by lia|by replace (a2 <? columns) with true by lia].
Qed.

Lemma horizontal_round : a1 <= b12.2 → ¬ (-3 <= a1 - b12.1 <= 3) → line_round a0 color e l.
Proof.
  intros Hnot Hd. pose proof a0_range as Ha0. destruct a1_spec as (A1 & A2 & A3). destruct a2_spec as (B1 & B2 & B3 & B4).
  pose proof (horizontal_length Hd) as Hcap.
  assert (Hw : ∃ e1 e2 e3, put_bit (advance 2 e) = Some e1 ∧ FaxEncodeRun run1 color (advance 1 e1) = Some e2 ∧
    FaxEncodeRun run2 (negb color) e2 = Some e3 ∧ written N e3 (l ++ code)).
  { rewrite !zlen_app in Hcap. change (zlen [false; false; true]) with 3 in Hcap.
    pose proof (zlen_nonneg (run_code color run1)). pose proof (zlen_nonneg (run_code (negb color) run2)).
    pose proof (written_skip N 2 e l ltac:(lia) Hwritten) as H1.
    destruct (written_one N _ _ H1) as (e1 & E1 & H2); [rewrite zlen_app; change (zlen (zeros 2)) with 2; lia|].
    rewrite <-app_assoc in H2. change (zeros 2 ++ [true]) with [false; false; true] in H2.
    destruct (FaxEncodeRun_spec N color run1 (advance 1 e1) (l ++ [false; false; true]) ltac:(lia) ltac:(rewrite zlen_app; change (zlen [false; false; true]) with 3; lia) H2) as (e2 & E2 & H3).
    destruct (FaxEncodeRun_spec N (negb color) run2 e2 ((l ++ [false; false; true]) ++ run_code color run1) ltac:(lia) ltac:(rewrite !zlen_app; change (zlen [false; false; true]) with 3; lia) H3) as (e3 & E3 & H4).
    exists e1, e2, e3. split_and!; [done..|]. by rewrite <-!app_assoc in H4. }
  destruct Hw as (e1 & e2 & e3 & E1 & E2 & E3 & H4). destruct b12 as [b1 b2] eqn:Eb. cbn [fst snd] in *.
  exists a2, color, e3, code. split_and!; [|done|rewrite budget_to by lia; exact Hcap| |lia|lia|lia| |].
  - intros fuel. cbn [encode_2d]. rewrite Eb. replace (b2 <? a1) with false by lia.
    replace ((a1 - b1 <=? 3) && (b1 - a1 <=? 3)) with false by lia. rewrite E1. cbn [mbind option_bind].
    replace (if a0 <? 0 then 0 else a0) with (Z.max a0 0) by (destruct (Z.ltb_spec a0 0); lia). rewrite E2. cbn [mbind option_bind]. rewrite E3. done.
  - rewrite zlen_app. change (zlen [false; false; true]) with 3. pose proof (zlen_nonneg (run_code color run1 ++ run_code (negb color) run2)). lia.
  - intros Hlt. right. split; [lia|by apply B3].
  - intros. by apply horizontal_decode.
Qed.

Lemma round_ok : line_round a0 color e l.
Proof.
  destruct (decide (b12.2 < a1)); [by apply pass_round|]. destruct (decide (-3 <= a1 - b12.1 <= 3)); [apply vertical_round|apply horizontal_round]; lia || done.
Qed.
End row.

Section line.
Context (columns N : Z) (src ref_e ref_d : list Z).
Hypothesis Hcolumns : 0 < columns < 2 ^ 16.
Hypothesis HN : 14 + 7 * columns <= 8 * N.
Hypothesis Hsrc : line_ok columns src.
Hypothesis Hrefe : line_ok columns ref_e.
Hypothesis Hrefd : line_ok columns ref_d.
Hypothesis Hsame : same_pixels columns ref_e ref_d.

Lemma rounds_ok n : ∀ a0 color e l, columns - a0 <= Z.of_nat n → at_color columns src a0 color → written N e l → zlen l <= budget a0 →
  ∃ e' w, encode_2d n columns ref_e src a0 color e = Some e' ∧ written N e' (l ++ w) ∧ zlen (l ++ w) <= 14 + 7 * columns ∧
    ∀ buf bitsize pos pitch dest fuel, reads buf pos w → pos + zlen w <= bitsize → columns <= 8 * pitch → drawn src pitch a0 dest → zlen w <= Z.of_nat fuel →
      ∃ dest', drawn src pitch columns dest' ∧ g4_row buf bitsize columns fuel ref_d pos a0 color dest = Some (pos + zlen w, dest').
Proof.
  induction n as [|n IH]; intros a0 color e l Hn Hc Hw Hl; [destruct Hc as [[-> _]|[? _]]; lia|].
  destruct (round_ok columns N src ref_e ref_d Hcolumns HN Hsrc Hrefe Hrefd Hsame a0 color e l Hc Hw Hl)
    as (a1 & color1 & e1 & w1 & E1 & H1 & L1 & Hw1 & Ha1 & Ha0 & Hc1 & D1).
  rewrite E1. destruct (Z.leb_spec columns a1) as [Hge|Hlt].
  - assert (Ea : a1 = columns) by lia. exists e1, w1. split; [done|]. split; [done|]. split; [rewrite Ea, budget_to in L1; lia|].
    intros buf bitsize pos pitch dest fuel Hr Hlen Hp Hd Hf. destruct fuel as [|fuel]; [lia|].
    destruct (D1 buf bitsize pos pitch dest fuel Hr Hlen Hp Hd) as (dest' & Hd' & ->). exists dest'. by rewrite <-Ea.
  - destruct (IH a1 color1 e1 (l ++ w1)) as (e2 & w2 & E2 & H2 & L2 & D2); [lia|by apply Hc1|done|done|].
    exists e2, (w1 ++ w2). rewrite app_assoc. split; [done|]. split; [done|]. split; [done|].
    intros buf bitsize pos pitch dest fuel Hr Hlen Hp Hd Hf. rewrite zlen_app in *. pose proof (zlen_nonneg w2). destruct fuel as [|fuel]; [lia|].
    apply reads_app in Hr as [Hr1 Hr2]. destruct (D1 buf bitsize pos pitch dest fuel Hr1 ltac:(lia) Hp Hd) as (dest1 & Hd1 & ->).
    destruct (D2 buf bitsize _ pitch dest1 fuel Hr2 ltac:(lia) Hp Hd1 ltac:(lia)) as (dest2 & Hd2 & ->). exists dest2. by rewrite Z.add_assoc.
Qed.

Lemma white_line pitch : drawn src pitch (-1) (replicate (Z.to_nat pitch) 0xFF) ∨ pitch < 0.
Proof.
  destruct (decide (0 <= pitch)); [left|right; lia]. constructor.
  - apply Forall_replicate. done.
  - unfold zlen. rewrite length_replicate. lia.
  - intros i Hi. replace (i <? -1) with false by lia. destruct (bit_at_split i ltac:(lia)) as (q & k & -> & Hq & Hk & _ & _). rewrite bit_at_byte by lia.
    rewrite (rd_lookup _ _ 255) by (apply lookup_replicate_2; lia). change 255 with (Z.ones 8). apply Z.ones_spec_low. lia.
Qed.

(** A line is written with at most [7 * columns + 14] bits and read back. *)
Lemma line_roundtrip e l : written N e l → zlen l <= 7 →
  ∃ e' w, FaxEncode2DLine columns ref_e src e = Some e' ∧ written N e' (l ++ w) ∧ zlen (l ++ w) <= 14 + 7 * columns ∧
    ∀ buf bitsize pos pitch, reads buf pos w → 0 <= pos → pos + zlen w <= bitsize → columns <= 8 * pitch →
      ∃ dest, drawn src pitch columns dest ∧ FaxG4GetRow buf bitsize columns ref_d pos (replicate (Z.to_nat pitch) 0xFF) = Some (pos + zlen w, dest).
Proof.
  intros Hw Hl. destruct (rounds_ok (S (S (Z.to_nat columns))) (-1) true e l ltac:(lia) ltac:(by left) Hw Hl) as (e' & w & E & H1 & H2 & H3).
  exists e', w. split; [done|]. split; [done|]. split; [done|]. intros buf bitsize pos pitch Hr Hpos Hlen Hp.
  destruct (white_line pitch) as [Hd|?]; [|lia]. pose proof (zlen_nonneg w).
  destruct (H3 buf bitsize pos pitch _ (S (Z.to_nat (bitsize - pos))) Hr Hlen Hp Hd ltac:(lia)) as (dest & Hd' & E2). by exists dest.
Qed.
End line.

Lemma written_inj N e l l' : written N e l → written N e l' → l = l'.
Proof.
  intros [_ _ H3 H4] [_ _ G3 G4]. assert (El : length l = length l') by (unfold zlen in *; lia). apply list_eq_same_length with (length l); [done|done|].
  intros i x y Hi Hx Hy. specialize (H4 (Z.of_nat i) ltac:(lia)). specialize (G4 (Z.of_nat i) ltac:(lia)). rewrite Nat2Z.id in H4, G4. rewrite Hx in H4. rewrite Hy in G4.
  cbn in *. congruence.
Qed.

(** What is written does not depend on the decoder's copy of the line before. *)
Lemma line_read_back columns N src ref_e e l : 0 < columns < 2 ^ 16 → 14 + 7 * columns <= 8 * N → line_ok columns src → line_ok columns ref_e →
  written N e l → zlen l <= 7 →
  ∃ e' w, FaxEncode2DLine columns ref_e src e = Some e' ∧ written N e' (l ++ w) ∧ zlen (l ++ w) <= 14 + 7 * columns ∧
    ∀ ref_d buf bitsize pos pitch, line_ok columns ref_d → same_pixels columns ref_e ref_d →
      reads buf pos w → 0 <= pos → pos + zlen w <= bitsize → columns <= 8 * pitch →
      ∃ dest, drawn src pitch columns dest ∧ FaxG4GetRow buf bitsize columns ref_d pos (replicate (Z.to_nat pitch) 0xFF) = Some (pos + zlen w, dest).
Proof.
  intros Hc HN Hsrc He Hw Hl. destruct (line_roundtrip columns N src ref_e ref_e Hc HN Hsrc He He ltac:(done) e l Hw Hl) as (e' & w & E & H1 & H2 & _).
  exists e', w. split; [done|]. split; [done|]. split; [done|]. intros ref_d buf bitsize pos pitch Hd Hsame.
  destruct (line_roundtrip columns N src ref_e ref_d Hc HN Hsrc He Hd Hsame e l Hw Hl) as (e2 & w2 & E2 & G1 & _ & G3).
  rewrite E in E2. injection E2 as <-. pose proof (written_inj _ _ _ _ H1 G1) as Ew. apply app_inv_head in Ew as ->. by apply G3.
Qed.

(** ** All lines *)
Lemma bit_at_app_l a b i : 0 <= i < 8 * zlen a → bit_at (a ++ b) i = bit_at a i.
Proof. intros Hi. rewrite !bit_at_testbit, rd_app_l by (Z.div_mod_to_equations; lia). done. Qed.

Lemma bit_at_app_r a b i : 0 <= i → bit_at (a ++ b) (8 * zlen a + i) = bit_at b i.
Proof.
  intros Hi. pose proof (zlen_nonneg a). rewrite !bit_at_testbit by lia. replace ((8 * zlen a + i) / 8) with (zlen a + i / 8) by (Z.div_mod_to_equations; lia).
  rewrite rd_app_r by (Z.div_mod_to_equations; lia). do 2 f_equal. Z.div_mod_to_equations. lia.
Qed.

Lemma bit_at_take buf q i : 0 <= i < 8 * q → bit_at (take (Z.to_nat q) buf) i = bit_at buf i.
Proof. intros Hi. rewrite !bit_at_testbit, rd_take by (Z.div_mod_to_equations; lia). done. Qed.

Lemma written_reads N e l q : written N e l → 0 <= q → 8 * q <= zlen l → reads (take (Z.to_nat q) (m_LineBuf e)) 0 (take (Z.to_nat (8 * q)) l).
Proof.
  intros [H1 H2 H3 H4] Hq Hle i b Hi. apply lookup_take_Some in Hi as [Hi Hlt]. rewrite bit_at_take by lia. rewrite H4 by lia.
  replace (Z.to_nat (0 + Z.of_nat i)) with i by lia. by rewrite Hi.
Qed.

Lemma reads_shift a b pos l : reads b pos l → 0 <= pos → reads (a ++ b) (8 * zlen a + pos) l.
Proof. intros H Hp i x Hi. rewrite <-Z.add_assoc, bit_at_app_r by lia. by apply H. Qed.

Lemma reads_prefix a b l : reads a 0 l → zlen l <= 8 * zlen a → reads (a ++ b) 0 l.
Proof. intros H Hl i x Hi. pose proof (lookup_lt_Some _ _ _ Hi). rewrite bit_at_app_l by (unfold zlen in *; lia). by apply H. Qed.

(** The byte that is not complete holds the bits [l]. *)
Definition left_over (b : Z) (l : list bool) : Prop := byte b ∧ zlen l < 8 ∧ ∀ j, 0 <= j < 8 → Z.testbit b (7 - j) = default false (l !! Z.to_nat j).

Lemma left_over_written N b l : 0 < N → left_over b l → written N (FaxEnc (zlen l) (wr (replicate (Z.to_nat N) 0) 0 b)) l.
Proof.
  intros HN (Hb & Hl & Hbits). assert (Hz : zlen (replicate (Z.to_nat N) 0) = N) by (unfold zlen; rewrite length_replicate; lia).
  constructor; cbn [m_LineBuf m_DestBitpos]; [by rewrite zlen_wr|apply bytes_wr; [apply Forall_replicate|]; done|done|].
  intros i Hi. rewrite bit_at_wr by lia. destruct (bit_at_split i Hi) as (q & k & E & Hq & Hk & -> & ->). destruct (Z.eqb_spec q 0) as [->|Hne].
  - rewrite Hbits by done. by replace i with k by lia.
  - rewrite lookup_ge_None_2 by (unfold zlen in Hl; lia). rewrite bit_at_testbit by done. by rewrite rd_replicate, Z.bits_0.
Qed.

Lemma left_over_next N e l : written N e l → zlen l < 8 * N →
  ∃ b, m_LineBuf e !! Z.to_nat (zlen l / 8) = Some b ∧ left_over b (drop (Z.to_nat (8 * (zlen l / 8))) l) ∧
    zlen (drop (Z.to_nat (8 * (zlen l / 8))) l) = zlen l mod 8.
Proof.
  intros [H1 H2 H3 H4] Hlen. pose proof (zlen_nonneg l). set (q := zlen l / 8). assert (Hq : 0 <= q < N) by (unfold q; Z.div_mod_to_equations; lia).
  exists ((m_LineBuf e).[q]). split; [apply rd_lookup_lt; lia|].
  assert (E : zlen (drop (Z.to_nat (8 * q)) l) = zlen l mod 8) by (unfold zlen at 1; rewrite length_drop; fold (zlen l); unfold q, zlen in *; Z.div_mod_to_equations; lia).
  split; [|done]. split; [by apply bytes_rd|]. split; [rewrite E; apply Z.mod_pos_bound; lia|]. intros j Hj.
  rewrite <-bit_at_byte, H4 by lia. rewrite lookup_drop. do 2 f_equal. lia.
Qed.

Definition line (pitch : Z) (img : list Z) (y : Z) : list Z := subspan img (Z.to_nat (y * pitch)) (Z.to_nat pitch).

Section image.
Context (width pitch : Z) (img : list Z).
Hypothesis Hwidth : 0 < width < 2 ^ 16.
Hypothesis Hpitch : 2 <= pitch ∧ width <= 8 * pitch.

Lemma buffer_fits : 14 + 7 * width < 8 * (8 * pitch).
Proof. lia. Qed.

(** The pixels are drawn, and what is behind them is white. *)
Definition shown (i n : Z) (dest : list Z) : Prop :=
  bytes dest ∧ zlen dest = n * pitch ∧
  ∀ y x, 0 <= y < n → 0 <= x < 8 * pitch → bit_at dest (8 * pitch * y + x) = if x <? width then bit_at (line pitch img (i + y)) x else true.

Lemma shown_cons i n d rest : 0 <= n → drawn (line pitch img i) pitch width d → shown (i + 1) n rest → shown i (n + 1) (d ++ rest).
Proof.
  intros Hn [D1 D2 D3] (R1 & R2 & R3). split; [by apply Forall_app|]. split; [rewrite zlen_app; lia|]. intros y x Hy Hx.
  destruct (decide (y = 0)) as [->|Hne].
  - rewrite Z.mul_0_r, !Z.add_0_r, Z.add_0_l, bit_at_app_l by lia. apply D3. lia.
  - replace (8 * pitch * y + x) with (8 * zlen d + (8 * pitch * (y - 1) + x)) by lia. rewrite bit_at_app_r by nia. rewrite R3 by lia.
    by replace (i + 1 + (y - 1)) with (i + y) by lia.
Qed.

Lemma rows_end i ref_e last_byte l0 : left_over last_byte l0 →
  ∃ data ws, encode_rows 0 i width pitch img ref_e last_byte (zlen l0) = Some data ∧ bytes data ∧ reads data 0 (l0 ++ ws) ∧
    zlen (l0 ++ ws) <= 8 * zlen data < zlen (l0 ++ ws) + 8 ∧ zlen ws <= Z.of_nat 0 * (14 + 7 * width) ∧
    ∀ ref_d buf bitsize pos, line_ok width ref_d → same_pixels width ref_e ref_d → reads buf pos ws → 0 <= pos → pos + zlen ws <= bitsize →
      ∃ dest, g4_rows 0 buf bitsize width pitch pos ref_d = Some (pos + zlen ws, dest) ∧ shown i (Z.of_nat 0) dest.
Proof.
  intros (Hb & Hl & Hbits). pose proof (zlen_nonneg l0). exists (if zlen l0 =? 0 then [] else [last_byte]), []. rewrite app_nil_r. split; [done|].
  split; [by destruct (_ =? 0); [constructor|constructor; [|constructor]]|]. split; [|split; [|split; [done|]]].
  - intros j b Hj. pose proof (lookup_lt_Some _ _ _ Hj). destruct (Z.eqb_spec (zlen l0) 0); [unfold zlen in *; lia|].
    pose proof (bit_at_byte [last_byte] 0 (0 + Z.of_nat j) ltac:(lia) ltac:(unfold zlen in *; lia)) as E. cbn [Z.mul] in E. rewrite (Z.add_0_l (0 + _)) in E.
    rewrite E. change ([last_byte].[0]) with last_byte.
    rewrite Hbits by (unfold zlen in *; lia). replace (Z.to_nat (0 + Z.of_nat j)) with j by lia. by rewrite Hj.
  - destruct (Z.eqb_spec (zlen l0) 0); [change (zlen (@nil Z)) with 0|change (zlen [last_byte]) with 1]; lia.
  - intros ref_d buf bitsize pos _ _ _ _ _. exists []. cbn [g4_rows]. rewrite zlen_nil, Z.add_0_r. split; [done|]. split; [constructor|]. split; [done|]. lia.
Qed.

(** The line that was decoded serves as the one before the next. *)
Lemma drawn_line_ok y d : line_ok width (line pitch img y) → drawn (line pitch img y) pitch width d → line_ok width d ∧ same_pixels width (line pitch img y) d.
Proof.
  intros _ [D1 D2 D3]. split.
  - split; [done|]. split; [lia|]. intros a b Ha Hb. rewrite !D3 by (Z.div_mod_to_equations; lia). by replace (a <? width) with false by lia; replace (b <? width) with false by lia.
  - intros a Ha. rewrite D3 by lia. by replace (a <? width) with true by lia.
Qed.

Lemma rows_roundtrip n : ∀ i ref_e last_byte l0, (∀ y, i <= y < i + Z.of_nat n → line_ok width (line pitch img y)) →
  line_ok width ref_e → left_over last_byte l0 →
  ∃ data ws, encode_rows n i width pitch img ref_e last_byte (zlen l0) = Some data ∧ bytes data ∧ reads data 0 (l0 ++ ws) ∧
    zlen (l0 ++ ws) <= 8 * zlen data < zlen (l0 ++ ws) + 8 ∧ zlen ws <= Z.of_nat n * (14 + 7 * width) ∧
    ∀ ref_d buf bitsize pos, line_ok width ref_d → same_pixels width ref_e ref_d → reads buf pos ws → 0 <= pos → pos + zlen ws <= bitsize →
      ∃ dest, g4_rows n buf bitsize width pitch pos ref_d = Some (pos + zlen ws, dest) ∧ shown i (Z.of_nat n) dest.
Proof.
  induction n as [|n IH]; intros i ref_e last_byte l0 Hlines He Hleft; cbn [encode_rows].
  { by apply rows_end. }
  pose proof buffer_fits as Hfit. pose proof (left_over_written (8 * pitch) last_byte l0 ltac:(lia) Hleft) as Hw. destruct Hleft as (Hb & Hl & Hbits).
  fold (line pitch img i). pose proof (Hlines i ltac:(lia)) as Hline.
  destruct (line_read_back width (8 * pitch) (line pitch img i) ref_e _ l0 Hwidth ltac:(lia) Hline He Hw ltac:(lia)) as (e' & w & -> & Hw' & Hlen & Hdec).
  cbn [mbind option_bind]. rewrite (wr_pos _ _ _ Hw'). set (t := l0 ++ w) in *. set (q := zlen t / 8) in *.
  assert (Hq : 0 <= q ∧ 8 * q <= zlen t) by (pose proof (zlen_nonneg t); unfold q; Z.div_mod_to_equations; lia).
  destruct (left_over_next _ _ _ Hw' ltac:(lia)) as (b & Eb & Hb' & El). fold q in Eb, Hb', El. rewrite Eb. cbn [mbind option_bind]. rewrite <-El.
  set (l1 := drop (Z.to_nat (8 * q)) t) in *. assert (Et : t = take (Z.to_nat (8 * q)) t ++ l1) by (unfold l1; by rewrite take_drop).
  destruct (IH (i + 1) (line pitch img i) b l1) as (data & ws & E & Hbytes & Hreads & Hsize & Hws & Hrows); [intros y Hy; apply Hlines; lia|done|done|].
  rewrite E. cbn [mbind option_bind]. exists (take (Z.to_nat q) (m_LineBuf e') ++ data), (w ++ ws).
  assert (Hz : zlen (take (Z.to_nat q) (m_LineBuf e')) = q).
  { pose proof (wr_size _ _ _ Hw') as Hs. unfold zlen in *. rewrite length_take. lia. }
  assert (Hzt : zlen (take (Z.to_nat (8 * q)) t) = 8 * q) by (unfold zlen in *; rewrite length_take; lia).
  split; [done|]. split; [apply Forall_app; split; [apply Forall_take, (wr_bytes _ _ _ Hw')|done]|]. rewrite app_assoc. fold t.
  assert (Etot : t ++ ws = take (Z.to_nat (8 * q)) t ++ (l1 ++ ws)) by (rewrite Et at 1; by rewrite <-app_assoc).
  split; [|split; [|split]].
  - rewrite Etot. apply reads_app. split; [apply reads_prefix; [apply (written_reads (8 * pitch)); [exact Hw'|lia|lia]|lia]|].
    rewrite Hzt, Z.add_0_l. pose proof (reads_shift (take (Z.to_nat q) (m_LineBuf e')) data 0 (l1 ++ ws) Hreads ltac:(lia)) as Hs.
    by rewrite Hz, Z.add_0_r in Hs.
  - rewrite Etot, (zlen_app (take _ t)), (zlen_app (take _ (m_LineBuf e'))). lia.
  - rewrite zlen_app. unfold t in Hlen. rewrite zlen_app in Hlen. pose proof (zlen_nonneg l0). lia.
  - intros ref_d buf bitsize pos Hd Hsame Hr Hpos Hbits'. rewrite zlen_app in *. apply reads_app in Hr as [Hr1 Hr2]. cbn [g4_rows].
    pose proof (zlen_nonneg w). pose proof (zlen_nonneg ws).
    destruct (Hdec ref_d buf bitsize pos pitch Hd Hsame Hr1 Hpos ltac:(lia) ltac:(lia)) as (d & Hdr & ->). cbn [mbind option_bind].
    destruct (drawn_line_ok i d Hline Hdr) as [Hdok Hdsame].
    destruct (Hrows d buf bitsize (pos + zlen w) Hdok Hdsame Hr2 ltac:(lia) ltac:(lia)) as (rest & -> & Hshown). cbn [mbind option_bind].
    exists (d ++ rest). split; [by rewrite Z.add_assoc|]. replace (Z.of_nat (S n)) with (Z.of_nat n + 1) by lia. apply shown_cons; [lia|done|done].
Qed.
End image.

(** C5: an image encoded in group 4 by [FaxEncode] is decoded by [FaxG4Decode] to
    the same pixels, whatever the width and the content of the lines, from the first
    bit to within the last byte of the data; the encoder never writes behind its
    line buffer.  The bits of a line behind its last pixel, in the same byte, must be
    equal; those that are decoded are white. *)
Theorem fax_g4_roundtrip img width height pitch : 0 < width < 2 ^ 16 → 0 <= height → 2 <= pitch → width <= 8 * pitch →
  bytes img → zlen img = height * pitch → (∀ y, 0 <= y < height → uniform_padding (line pitch img y) width) →
  height * (14 + 7 * width) < 2 ^ 31 - 8 →
  ∃ data pos dest, FaxEncode img width height pitch = Some data ∧ bytes data ∧
    FaxG4Decode data 0 width height pitch = Some (pos, dest) ∧ 8 * zlen data - 8 < pos <= 8 * zlen data ∧
    bytes dest ∧ zlen dest = height * pitch ∧
    ∀ y x, 0 <= y < height → 0 <= x < 8 * pitch →
      bit_at dest (8 * pitch * y + x) = if x <? width then bit_at img (8 * pitch * y + x) else true.
Proof.
  intros Hw Hh Hp Hwp Himg Hlen Hpad Hsize. unfold FaxEncode, FaxG4Decode.
  assert (Hz : ∀ y, 0 <= y < height → zlen (line pitch img y) = pitch).
  { intros y Hy. unfold line, subspan, zlen in *. rewrite length_take, length_drop. nia. }
  assert (Hline : ∀ y, 0 <= y < height → line_ok width (line pitch img y)).
  { intros y Hy. split; [by apply Forall_take, Forall_drop|]. split; [rewrite Hz by done; lia|by apply Hpad]. }
  destruct (white_line img pitch) as [Hwhite|?]; [|lia]. pose proof Hwhite as [W1 W2 W3].
  assert (Hwok : line_ok width (replicate (Z.to_nat pitch) 0xFF)).
  { split; [done|]. split; [lia|]. intros a b Ha Hb. rewrite !W3 by (Z.div_mod_to_equations; lia). by replace (a <? -1) with false by lia; replace (b <? -1) with false by lia. }
  destruct (rows_roundtrip width pitch img Hw ltac:(lia) (Z.to_nat height) 0 (replicate (Z.to_nat pitch) 0xFF) 0 [])
    as (data & ws & E & Hdata & Hreads & Hdl & Hws & Hrows); [intros y Hy; apply Hline; lia|done| |].
  { split; [done|]. split; [done|]. intros j Hj. by rewrite Z.bits_0. }
  change (zlen (@nil bool)) with 0 in E. cbn [app] in Hreads, Hdl. rewrite Z2Nat.id in Hws by done. pose proof (zlen_nonneg data).
  assert (Es : int32 (u32 (u32 (zlen data) .<< 3)) = 8 * zlen data).
  { rewrite Z.shiftl_mul_pow2 by lia. unfold int32. rewrite (Z.mod_small (zlen data)) by lia. change (2 ^ 3) with 8.
    rewrite (Z.mod_small (zlen data * 8)), Z.mod_small by lia. lia. }
  destruct (Hrows (replicate (Z.to_nat pitch) 0xFF) data (8 * zlen data) 0) as (dest & Ed & Hs1 & Hs2 & Hs3); [done|done|done|lia|lia|].
  rewrite Z2Nat.id in Hs2, Hs3 by done. exists data, (0 + zlen ws), dest. rewrite Es. split; [exact E|]. split; [done|]. split; [exact Ed|]. split; [lia|]. split; [done|]. split; [done|].
  intros y x Hy Hx. rewrite Hs3 by done. destruct (Z.ltb_spec x width); [|done]. rewrite Z.add_0_l.
  unfold line, subspan. pose proof (bit_at_take (drop (Z.to_nat (y * pitch)) img) pitch x ltac:(lia)) as Et. rewrite Et.
  rewrite <-(take_drop (Z.to_nat (y * pitch)) img) at 2. replace (8 * pitch * y + x) with (8 * zlen (take (Z.to_nat (y * pitch)) img) + x).
  - by rewrite bit_at_app_r by lia.
  - unfold zlen in *. rewrite length_take. nia.
Qed.

Lemma fax_g4_roundtrip_witness :
  let img := [0xF0; 0xFF; 0x0F; 0x3F;   0xE7; 0x11; 0x7F; 0x3F;   0; 0; 0; 0x3F;   255; 255; 255; 0x3F] in
  FaxEncode img 26 4 4 = Some [54; 204; 216; 84; 8; 196; 71; 160; 176; 66; 34; 50; 163] ∧
  ∃ data pos dest, FaxEncode img 26 4 4 = Some data ∧ FaxG4Decode data 0 26 4 4 = Some (pos, dest) ∧ bit_at dest 60 = true ∧ bit_at dest 64 = false.
Proof.
  intros img. split; [vm_compute; reflexivity|].
  destruct (fax_g4_roundtrip img 26 4 4) as (data & pos & dest & E & _ & Ed & _ & _ & _ & H); [done..|solve_bytes|done| |done|].
  - intros y Hy i j Hi Hj. assert (Hc : y = 0 ∨ y = 1 ∨ y = 2 ∨ y = 3) by lia.
    assert (Hi' : i = 26 ∨ i = 27 ∨ i = 28 ∨ i = 29 ∨ i = 30 ∨ i = 31) by (change (8 * ((26 + 7) / 8)) with 32 in Hi; lia).
    assert (Hj' : j = 26 ∨ j = 27 ∨ j = 28 ∨ j = 29 ∨ j = 30 ∨ j = 31) by (change (8 * ((26 + 7) / 8)) with 32 in Hj; lia).
    transitivity (bit_at (line 4 img y) 26); [|symmetry]; destruct Hc as [->|[->|[->| ->]]].
    all: revert Hi' Hj'; clear; intros Hi' Hj'.
    all: first [destruct Hi' as [->|[->|[->|[->|[->| ->]]]]]; reflexivity | destruct Hj' as [->|[->|[->|[->|[->| ->]]]]]; reflexivity].
  - exists data, pos, dest. split; [done|]. split; [done|]. split; [apply (H 1 28); lia|apply (H 2 0); lia].
Defined.

(** Bits behind the last pixel that are not equal: [FindBit] does not bound what it
    finds in the first byte, the second run of a horizontal mode is negative, and
    its code is read before the table. *)
Lemma mixed_padding_undefined : FaxEncode [0xFF; 0xC1; 0; 0xFC] 12 2 2 = None ∧ is_Some (FaxEncode [0xFF; 0xC1; 0; 0xFC] 16 2 2).
Proof. split; [vm_compute; reflexivity|]. vm_compute. by eexists. Qed.
