(* ===== verification/FaxTotal.v ===== *)
(** * Fax data of any content

    The decoder returns whatever the data are: every round reads a bit, and the sums
    of runs stay within an [int] as long as the data are below 900 kilobytes. *)
From S2P Require Import Prelude FaxTables Fax.

(** A code of [n] bits stands for at most [280 * n] pixels. *)
Fixpoint entries_ok (n : nat) (ins_array : list Z) (ins_off limit : Z) : bool :=
  match n with
  | O => true
  | S n' =>
      let run := ins_array.[ins_off + 1] + ins_array.[ins_off + 2] * 256 in
      (0 <=? run) && (run <=? limit) && entries_ok n' ins_array (ins_off + 3) limit
  end.

Fixpoint codes_ok (fuel : nat) (ins_array : list Z) (ins_off len : Z) : bool :=
  match fuel with
  | O => false
  | S fuel' =>
      let ins := ins_array.[ins_off] in
      (ins =? 0xFF) || entries_ok (Z.to_nat ins) ins_array (ins_off + 1) (280 * (len + 1)) && codes_ok fuel' ins_array (ins_off + 1 + ins * 3) (len + 1)
  end.

Lemma tables_ok_runs white : codes_ok 20 (run_ins white) 0 0 = true.
Proof. destruct white; vm_compute; reflexivity. Qed.

Lemma find_code_ok n ins limit : ∀ off code run, entries_ok n ins off limit = true → find_code n ins off code = Some run → 0 <= run <= limit.
Proof.
  induction n as [|n IH]; intros off code run Ht E; cbn [entries_ok find_code] in *; [done|]. rewrite !andb_true_iff in Ht.
  destruct (_ =? code); [|by apply (IH _ _ _ (proj2 Ht) E)]. injection E as <-. lia.
Qed.

Lemma get_run_ok buf bitsize ins tfuel : ∀ fuel code off len pos run pos', codes_ok tfuel ins off len = true →
  get_run fuel ins buf bitsize code off pos = (run, pos') → 0 <= len →
  pos <= pos' ∧ -1 <= run <= 280 * (len + (pos' - pos)) ∧ (0 <= run → pos < pos') ∧ pos' <= Z.max bitsize pos.
Proof.
  induction tfuel as [|tfuel IH]; intros fuel code off len pos run pos' Ht E Hlen; [done|]. cbn [codes_ok] in Ht.
  destruct fuel as [|fuel]; cbn [get_run] in E; [injection E as <- <-; lia|]. destruct (_ =? 255); [injection E as <- <-; lia|].
  cbn [orb] in Ht. apply andb_true_iff in Ht as [He Ht]. destruct (Z.leb_spec bitsize pos); [injection E as <- <-; lia|].
  destruct (find_code _ _ _ _) as [r|] eqn:Ef.
  - injection E as <- <-. apply (find_code_ok _ _ _ _ _ _ He) in Ef. lia.
  - apply (IH _ _ _ _ _ _ _ Ht) in E; [|lia]. lia.
Qed.

Lemma FaxGetRun_range white buf bitsize pos run pos' : FaxGetRun (run_ins white) buf pos bitsize = (run, pos') →
  pos <= pos' ∧ -1 <= run <= 280 * (pos' - pos) ∧ (0 <= run → pos < pos') ∧ pos' <= Z.max bitsize pos.
Proof. intros E. pose proof (get_run_ok _ _ _ 20 _ _ _ 0 _ _ _ (tables_ok_runs white) E ltac:(lia)). lia. Qed.

Lemma safe_int_some z : - 2 ^ 31 <= z < 2 ^ 31 → safe_int z = Some z.
Proof. intros Hz. unfold safe_int. by replace (_ && _) with true by lia. Qed.

Section total.
Context (buf : list Z) (bitsize columns : Z).
Hypothesis Hbits : 280 * bitsize + 2 ^ 17 < 2 ^ 31.
Hypothesis Hcolumns : 0 < columns < 2 ^ 16.

Lemma run_length_total white fuel : ∀ acc pos, 0 <= pos <= bitsize → bitsize - pos < Z.of_nat fuel → 0 <= acc <= 280 * pos →
  ∃ run pos', run_length fuel white buf bitsize acc pos = Some (run, pos') ∧ pos <= pos' <= bitsize ∧ -1 <= run <= acc + 280 * (pos' - pos).
Proof.
  induction fuel as [|fuel IH]; intros acc pos Hp Hf Hacc; [lia|]. cbn [run_length].
  destruct (FaxGetRun _ buf pos bitsize) as [run pos'] eqn:E. apply FaxGetRun_range in E as (H1 & H2 & H3 & H4).
  rewrite safe_int_some by lia. cbn [mbind option_bind]. destruct (Z.ltb_spec run 64).
  - exists (acc + run), pos'. split; [done|]. lia.
  - destruct (IH (acc + run) pos') as (r & p & E & Hp' & Hr); [lia..|]. exists r, p. split; [done|]. lia.
Qed.

Lemma ReadMode_range pos m pos' : ReadMode buf bitsize pos = (m, pos') → 0 <= pos < bitsize →
  pos < pos' ∧ match m with Vertical d => -3 <= d <= 3 | Horizontal => pos' <= bitsize | _ => True end.
Proof.
  unfold ReadMode. intros E Hp.
  repeat match type of E with (if ?b then _ else _) = _ => destruct b eqn:? end; injection E as <- <-; split; try lia; try done.
  all: repeat match goal with |- context [if ?b then _ else _] => destruct b end; lia.
Qed.

Lemma rd_nonneg l i : Forall (λ x, 0 <= x) l → 0 <= l.[i].
Proof. intros Hl. unfold rd. rewrite nth_lookup. destruct (l !! _) eqn:E; [|done]. by apply (Forall_lookup_1 _ _ _ _ Hl E). Qed.

Lemma OneLeadPos_nonneg i : 0 <= OneLeadPos.[i].
Proof. apply rd_nonneg. unfold OneLeadPos. repeat (apply List.Forall_cons; [done|]). constructor. Qed.

Lemma FindBit_nonneg l start bit : 0 <= start → 0 <= FindBit l columns start bit.
Proof.
  intros Hs. unfold FindBit. destruct (_ <=? start); [lia|]. pose proof (Z.div_pos start 8). pose proof (Z.div_pos (start + 7) 8).
  destruct (_ && _).
  - match goal with |- context [OneLeadPos.[?i]] => pose proof (OneLeadPos_nonneg i) end. lia.
  - set (q := (if start mod 8 =? 0 then start else start + 7) / 8). assert (Hq : 0 <= q) by (unfold q; destruct (_ =? 0); lia).
    assert (Hskip : ∀ fuel limit skip p, 0 <= p → 0 <= skip_blocks fuel l limit skip p).
    { intros fuel limit skip. induction fuel as [|fuel IH]; intros p Hp; cbn [skip_blocks]; [done|]. destruct (_ && _); [apply IH; lia|done]. }
    assert (Hfind : ∀ n mask p, 0 <= p → 0 <= find_byte n l columns mask p).
    { intros n mask. induction n as [|n IH]; intros p Hp; cbn [find_byte]; [lia|]. destruct (negb _); [|apply IH; lia].
      match goal with |- context [OneLeadPos.[?i]] => pose proof (OneLeadPos_nonneg i) end. lia. }
    apply Hfind. destruct (_ && _); [by apply Hskip|done].
Qed.

Lemma FindB1B2_nonneg l a0 color : -1 <= a0 → 0 <= (FaxG4FindB1B2 l columns a0 color).1 <= columns ∧ 0 <= (FaxG4FindB1B2 l columns a0 color).2.
Proof.
  intros Ha. unfold FaxG4FindB1B2. set (f := (a0 <? 0) || _). pose proof (FindBit_nonneg l (a0 + 1) (negb f) ltac:(lia)). set (b1 := FindBit l columns (a0 + 1) _) in *.
  destruct (Z.leb_spec columns b1); [cbn; lia|]. pose proof (FindBit_nonneg l (b1 + 1) f ltac:(lia)). pose proof (FindBit_nonneg l (b1 + 1) (negb f) ltac:(lia)).
  destruct (Bool.eqb _ _); cbn [fst snd].
  - set (b2 := FindBit l columns (b1 + 1) f) in *. destruct (Z.leb_spec columns b2); cbn [fst snd]; [lia|].
    pose proof (FindBit_nonneg l (b2 + 1) (negb f) ltac:(lia)). lia.
  - destruct (Z.leb_spec columns b1); cbn [fst snd]; lia.
Qed.

Lemma g4_row_total ref_buf fuel : ∀ pos a0 color dest, 0 <= pos → 0 < Z.of_nat fuel → bitsize - pos < Z.of_nat fuel → -1 <= a0 < columns →
  is_Some (g4_row buf bitsize columns fuel ref_buf pos a0 color dest).
Proof.
  induction fuel as [|fuel IH]; intros pos a0 color dest Hp Hf0 Hf Ha; [lia|]. cbn [g4_row].
  destruct (Z.leb_spec bitsize pos); [done|]. pose proof (FindB1B2_nonneg ref_buf a0 color ltac:(lia)) as [Hb1 Hb2].
  destruct (FaxG4FindB1B2 _ _ _ _) as [b1 b2]. cbn [fst snd] in *. destruct (ReadMode _ _ _) as [m pos1] eqn:Em. apply ReadMode_range in Em as [Hpos Hm]; [|lia].
  destruct m as [d| | | |]; [| | |apply IH; lia|done].
  - destruct (Z.leb_spec columns (b1 + d)); [done|]. destruct (Z.leb_spec (b1 + d) a0); [done|]. apply IH; lia.
  - destruct (run_length_total color (S (Z.to_nat (bitsize - pos1))) 0 pos1) as (r1 & p1 & -> & Hp1 & Hr1); [lia..|]. cbn [mbind option_bind].
    assert (E1 : (if a0 <? 0 then safe_int (r1 + 1) else Some r1) = Some (if a0 <? 0 then r1 + 1 else r1)) by (destruct (a0 <? 0); [by rewrite safe_int_some by lia|done]).
    rewrite E1. cbn [mbind option_bind]. set (r1' := if a0 <? 0 then _ else _). assert (Hr1' : -1 <= r1' <= r1 + 1) by (unfold r1'; destruct (a0 <? 0); lia).
    destruct (Z.ltb_spec r1' 0); [done|]. rewrite safe_int_some by lia. cbn [mbind option_bind].
    destruct (run_length_total (negb color) (S (Z.to_nat (bitsize - p1))) 0 p1) as (r2 & p2 & -> & Hp2 & Hr2); [lia..|]. cbn [mbind option_bind].
    destruct (Z.ltb_spec r2 0); [done|]. rewrite safe_int_some by lia. cbn [mbind option_bind]. destruct (Z.ltb_spec (a0 + r1' + r2) columns); [apply IH; lia|done].
  - destruct (Z.leb_spec columns b2); [done|]. apply IH; lia.
Qed.

Lemma skip_to_one_range fuel : ∀ pos, 0 <= pos → pos <= skip_to_one buf bitsize fuel pos.
Proof.
  induction fuel as [|fuel IH]; intros pos Hp; cbn [skip_to_one]; [done|]. destruct (_ <=? pos); [done|]. destruct (bit_at buf pos); [lia|].
  specialize (IH (pos + 1)). lia.
Qed.

Lemma line_run_total white fuel : ∀ acc pos, 0 <= pos <= bitsize → bitsize - pos < Z.of_nat fuel → 0 <= acc <= 280 * pos →
  ∃ r, line_run buf bitsize fuel white acc pos = Some r ∧
    match r with inl (run, pos') => pos < pos' <= bitsize ∧ 0 <= run <= acc + 280 * (pos' - pos) | inr _ => True end.
Proof.
  induction fuel as [|fuel IH]; intros acc pos Hp Hf Hacc; [lia|]. cbn [line_run].
  destruct (FaxGetRun _ buf pos bitsize) as [run pos'] eqn:E. apply FaxGetRun_range in E as (H1 & H2 & H3 & H4).
  destruct (Z.ltb_spec run 0); [by eexists|]. rewrite safe_int_some by lia. cbn [mbind option_bind]. destruct (Z.ltb_spec run 64).
  - exists (inl (acc + run, pos')). split; [done|]. cbn. lia.
  - destruct (IH (acc + run) pos') as (r & E & Hr); [lia..|]. exists r. split; [done|]. destruct r as [[r p]|]; [|done]. lia.
Qed.

Lemma line_1d_total fuel : ∀ color startpos pos dest, 0 <= pos → 0 < Z.of_nat fuel → bitsize - pos < Z.of_nat fuel → 0 <= startpos < columns →
  is_Some (line_1d buf bitsize columns fuel color startpos pos dest).
Proof.
  induction fuel as [|fuel IH]; intros color startpos pos dest Hp Hf0 Hf Hs; [lia|]. cbn [line_1d]. destruct (Z.leb_spec bitsize pos); [done|].
  destruct (line_run_total color (S (Z.to_nat (bitsize - pos))) 0 pos) as (r & -> & Hr); [lia..|]. cbn [mbind option_bind].
  destruct r as [[run p]|]; [|done]. destruct Hr as [Hp' Hrun]. rewrite safe_int_some by lia. cbn [mbind option_bind].
  destruct (Z.leb_spec columns (startpos + run)); [done|]. apply IH; lia.
Qed.
End total.

(** C39: on data of less than 900 kilobytes, whatever they are, the decoder of lines
    in one and in two dimensions ends, and no sum of runs overflows. *)
Theorem fax_terminates src columns ref_buf bitpos dest : 0 < columns < 2 ^ 16 → 8 * zlen src <= 8 * 900 * 1024 → 0 <= bitpos →
  is_Some (FaxG4GetRow src (8 * zlen src) columns ref_buf bitpos dest) ∧ is_Some (FaxGet1DLine src (8 * zlen src) columns bitpos dest).
Proof.
  intros Hc Hl Hb. split; [apply g4_row_total|apply line_1d_total]; lia.
Qed.

(** A byte of zeros and nothing else. *)
Lemma fax_terminates_witness :
  FaxG4GetRow [0] 8 100 [255] 0 [255] = Some (12, [255]) ∧ is_Some (FaxG4GetRow (replicate 20 0x5A) (8 * 20) 100 (replicate 13 255) 0 (replicate 13 255)).
Proof.
  split; [vm_compute; reflexivity|]. apply (fax_terminates (replicate 20 0x5A) 100 (replicate 13 255) 0 (replicate 13 255)); [lia|by vm_compute|lia].
Defined.
