(* ===== verification/FxNumber.v ===== *)
(** * Numbers and their text

    [FXSYS_atoui], [FXSYS_atoi] ([core/fxcrt/fx_system.cpp]), [FX_Number]
    ([core/fxcrt/fx_number.cpp]), [StringToFloat] and [FloatToString]
    ([core/fxcrt/fx_string.cpp]).  A [float] is a [spec_float] of precision 24
    and exponent bound 128, with the Standard Library's IEEE operations; [%d] and
    [isdigit] are the C library's. *)
From Stdlib Require Import SpecFloat.
From S2P Require Import Prelude Words CharTypes.

(** ** [FXSYS_StrToInt] *)
(** The loop over the digits; [None] when [num] would exceed [max]. *)
Fixpoint str_digits (max : Z) (str : list Z) (num : Z) : option Z :=
  match str with
  | [] => Some num
  | c :: rest =>
      if FXSYS_IsDecimalDigit c then
        let val := FXSYS_DecimalCharToInt c in
        if (max - val) / 10 <? num then None else str_digits max rest (num * 10 + val)
      else Some num
  end.

Definition str_sign (str : list Z) : bool * list Z :=
  match str with
  | c :: rest => if (c =? 45) || (c =? 43) then (c =? 45, rest) else (false, str)
  | [] => (false, [])
  end.

Definition UINT_MAX : Z := 2 ^ 32 - 1.
Definition INT_MAX : Z := 2 ^ 31 - 1.
Definition INT_MIN : Z := - 2 ^ 31.

Definition FXSYS_atoui (str : list Z) : Z :=
  let '(neg, rest) := str_sign str in
  match str_digits UINT_MAX rest 0 with
  | None => UINT_MAX
  | Some num => if neg then u32 (- num) else num
  end.

Definition FXSYS_atoi (str : list Z) : Z :=
  let '(neg, rest) := str_sign str in
  match str_digits INT_MAX rest 0 with
  | None => if neg then INT_MIN else INT_MAX
  | Some num => if neg then - num else num
  end.

(** ** Floats *)
Definition f32 := spec_float.
Definition f32_add : f32 → f32 → f32 := SFadd 24 128.
Definition f32_mul : f32 → f32 → f32 := SFmul 24 128.
Definition f32_of_Z (z : Z) : f32 := binary_normalize 24 128 z 0 false.
(** The float nearest to [1 / 10 ^ k]. *)
Definition f32_tenth (k : nat) : f32 :=
  SFdiv 24 128 (S754_finite false 1 0) (S754_finite false (Z.to_pos (10 ^ Z.of_nat k)) 0).

Definition kFractionScalesFloat : list f32 := map f32_tenth (seq 1 11).

(** The integer part: [value = value * 10 + digit] up to the point. *)
Fixpoint float_int (str : list Z) (value : f32) : f32 * list Z :=
  match str with
  | [] => (value, [])
  | c :: rest =>
      if c =? 46 then (value, str)
      else float_int rest (f32_add (f32_mul value (f32_of_Z 10)) (f32_of_Z (FXSYS_DecimalCharToInt c)))
  end.

(** The digits after the point, one scale each; the rest is dropped. *)
Fixpoint float_frac (scales : list f32) (str : list Z) (value : f32) : f32 :=
  match scales, str with
  | scale :: scales', c :: rest =>
      float_frac scales' rest (f32_add value (f32_mul scale (f32_of_Z (FXSYS_DecimalCharToInt c))))
  | _, _ => value
  end.

Fixpoint skip_signs (str : list Z) : list Z :=
  match str with
  | c :: rest => if (c =? 43) || (c =? 45) then skip_signs rest else str
  | [] => []
  end.

Definition StringToFloat (strc : list Z) : f32 :=
  match strc with
  | [] => S754_zero false
  | c :: _ =>
      let bNegative := c =? 45 in
      let '(value, rest) := float_int (skip_signs strc) (S754_zero false) in
      let value := match rest with _ :: digits => float_frac kFractionScalesFloat digits value
                                 | [] => value end in
      if bNegative then SFopp value else value
  end.

(** Conversion to [int]: towards zero, and [round], which rounds halves away
    from zero.  A value that is not finite or not in range is undefined in C++;
    here it is 0 or out of range. *)
Definition f32_trunc (f : f32) : Z :=
  match f with
  | S754_finite s m e =>
      let a := if 0 <=? e then Z.pos m * 2 ^ e else Z.pos m / 2 ^ (- e) in
      if s then - a else a
  | _ => 0
  end.
Definition f32_round (f : f32) : Z :=
  match f with
  | S754_finite s m e =>
      let a := if 0 <=? e then Z.pos m * 2 ^ e else (2 * Z.pos m + 2 ^ (- e)) / (2 * 2 ^ (- e)) in
      if s then - a else a
  | _ => 0
  end.

Definition FXSYS_roundf (f : f32) : Z :=
  match f with
  | S754_nan => 0
  | _ =>
      if SFltb f (f32_of_Z INT_MIN) then INT_MIN
      else if SFleb (f32_of_Z INT_MAX) f then INT_MAX
      else f32_round f
  end.

(** ** Printing *)
(** The decimal digits of [n], at most [fuel] of them. *)
Fixpoint dec_digits (fuel : nat) (n : Z) : list Z :=
  match fuel with
  | O => []
  | S fuel' => (if n <? 10 then [] else dec_digits fuel' (n / 10)) ++ [48 + n mod 10]
  end.

Definition FormatInteger (i : Z) : list Z :=
  if i <? 0 then 45 :: dec_digits 10 (- i) else dec_digits 10 i.

(** [while (scaled < 100000)]: six rounds at most. *)
Fixpoint float_scale (fuel : nat) (value : f32) (scale scaled : Z) : Z * Z :=
  match fuel with
  | O => (scale, scaled)
  | S fuel' =>
      if (scaled <? 100000) && negb (scale =? 1000000)
      then float_scale fuel' value (scale * 10) (FXSYS_roundf (f32_mul value (f32_of_Z (scale * 10))))
      else (scale, scaled)
  end.

(** [while (fraction)]: a digit of the fraction per round. *)
Fixpoint float_digits (fuel : nat) (fraction scale : Z) : list Z :=
  match fuel with
  | O => []
  | S fuel' =>
      if fraction =? 0 then []
      else (48 + fraction / scale) :: float_digits fuel' (fraction mod scale) (scale / 10)
  end.

Definition FloatToString (value : f32) : list Z :=
  if SFeqb value (S754_zero false) then [48]
  else
    let bNegative := SFltb value (S754_zero false) in
    let value := if bNegative then SFopp value else value in
    let '(scale, scaled) := float_scale 7 value 1 (FXSYS_roundf value) in
    if scaled =? 0 then [48]
    else
      let fraction := scaled mod scale in
      (if bNegative then [45] else []) ++ FormatInteger (scaled / scale) ++
      (if fraction =? 0 then [] else 46 :: float_digits 7 fraction (scale / 10)).

(** ** [FX_Number] *)
Inductive FX_Number :=
  | FxUnsigned (m_UnsignedValue : Z)
  | FxSigned (m_SignedValue : Z)
  | FxFloat (m_FloatValue : f32).

(** [unsigned_val * 10 + digit] as a [FX_SAFE_UINT32]. *)
Fixpoint number_digits (strc : list Z) (unsigned_val : option Z) : option Z :=
  match strc with
  | [] => unsigned_val
  | c :: rest =>
      if isdigit c
      then number_digits rest
             (v ← unsigned_val;
              if decide (fits 32 (v * 10)) then
                if decide (fits 32 (v * 10 + (c - 48))) then Some (v * 10 + (c - 48)) else None
              else None)
      else unsigned_val
  end.

Definition FX_Number_of (strc : list Z) : FX_Number :=
  if bool_decide (46 ∈ strc) then FxFloat (StringToFloat strc)
  else
    match strc with
    | [] => FxUnsigned 0
    | c :: rest =>
        let m_bIsSigned := (c =? 43) || (c =? 45) in
        let bNegative := c =? 45 in
        let uValue := default 0 (number_digits (if m_bIsSigned then rest else strc) (Some 0)) in
        if m_bIsSigned then
          let uValue := if (if bNegative then INT_MAX + 1 else INT_MAX) <? uValue then 0 else uValue in
          FxSigned (if bNegative then - uValue else uValue)
        else FxUnsigned uValue
    end.

Definition IsInteger (n : FX_Number) : bool := match n with FxFloat _ => false | _ => true end.

Definition s32 (z : Z) : Z := if 2 ^ 31 <=? z then z - 2 ^ 32 else z.

(** The union is read as an [int32_t] whichever integer was stored. *)
Definition GetSigned (n : FX_Number) : Z :=
  match n with
  | FxUnsigned v => s32 v
  | FxSigned v => v
  | FxFloat f => f32_trunc f
  end.

Definition GetFloat (n : FX_Number) : f32 :=
  match n with
  | FxUnsigned v | FxSigned v => f32_of_Z v
  | FxFloat f => f
  end.

(** [CPDF_Number::GetString]. *)
Definition NumberGetString (n : FX_Number) : list Z :=
  if IsInteger n then FormatInteger (GetSigned n) else FloatToString (GetFloat n).

Example number_examples :
  FX_Number_of [45; 49; 50] = FxSigned (-12) ∧
  NumberGetString (FX_Number_of [49; 46; 53]) = [49; 46; 53] ∧
  NumberGetString (FX_Number_of [45; 48; 46; 49; 50; 53]) = [45; 48; 46; 49; 50; 53].
Proof. repeat split; reflexivity. Qed.

(** ** Digit strings *)
Definition digits (l : list Z) : Prop := Forall (λ c, 48 <= c <= 57) l.
Definition dec_value (l : list Z) (acc : Z) : Z := fold_left (λ a c, a * 10 + (c - 48)) l acc.

Lemma s32_small n : 0 <= n < 2 ^ 31 → s32 (u32 n) = n.
Proof. intros Hn. unfold s32. rewrite Z.mod_small by lia. by replace (_ <=? n) with false by lia. Qed.

Lemma dec_value_ge l : ∀ acc, digits l → 0 <= acc → acc <= dec_value l acc.
Proof.
  induction l as [|c l IH]; intros acc Hl Hacc; [done|].
  inversion Hl as [|? ? Hc Hl']; subst. cbn [dec_value fold_left].
  transitivity (acc * 10 + (c - 48)); [lia|]. apply IH; [done|lia].
Qed.

Lemma dec_value_app l k acc : dec_value (l ++ k) acc = dec_value k (dec_value l acc).
Proof. apply fold_left_app. Qed.

Lemma digit_facts c :
  48 <= c <= 57 → FXSYS_IsDecimalDigit c = true ∧ isdigit c = true ∧ FXSYS_DecimalCharToInt c = c - 48 ∧
    (c =? 46) = false ∧ (c =? 43) = false ∧ (c =? 45) = false.
Proof.
  intros Hc. assert (H : c ∈ seqZ 48 10) by (apply elem_of_seqZ; lia). vm_compute in H.
  repeat (apply elem_of_cons in H as [->|H]; [done|]). by apply not_elem_of_nil in H.
Qed.

Lemma str_digits_spec max l : ∀ num,
  digits l → 0 <= num <= max →
  str_digits max l num = if dec_value l num <=? max then Some (dec_value l num) else None.
Proof.
  induction l as [|c l IH]; intros num Hl Hnum; cbn [str_digits].
  - cbn. by replace (num <=? max) with true by lia.
  - inversion Hl as [|? ? Hc Hl']; subst. destruct (digit_facts c Hc) as (-> & _ & -> & _).
    cbn [dec_value fold_left]. fold (dec_value l (num * 10 + (c - 48))).
    destruct (Z.ltb_spec ((max - (c - 48)) / 10) num) as [Hlt|Hge].
    + pose proof (dec_value_ge l (num * 10 + (c - 48)) Hl' ltac:(lia)).
      replace (_ <=? max) with false; [done|]. symmetry. Z.div_mod_to_equations. lia.
    + apply IH; [done|]. Z.div_mod_to_equations. lia.
Qed.

Lemma number_digits_none l : number_digits l None = None.
Proof. induction l as [|c l IH]; [done|]. cbn. by destruct (isdigit c). Qed.

Lemma number_digits_spec l : ∀ num,
  digits l → fits 32 num →
  number_digits l (Some num) = if dec_value l num <=? UINT_MAX then Some (dec_value l num) else None.
Proof.
  unfold UINT_MAX. induction l as [|c l IH]; intros num Hl Hnum; unfold fits in Hnum; cbn [number_digits].
  - cbn [dec_value fold_left]. by replace (num <=? 2 ^ 32 - 1) with true by lia.
  - inversion Hl as [|? ? Hc Hl']; subst. destruct (digit_facts c Hc) as (_ & -> & _).
    cbn [dec_value fold_left]. fold (dec_value l (num * 10 + (c - 48))). cbn [mbind option_bind].
    pose proof (dec_value_ge l (num * 10 + (c - 48)) Hl' ltac:(lia)) as Hge.
    unfold fits. case_decide as H1; [case_decide as H2; [apply IH; [done|unfold fits; lia]|]|].
    all: rewrite number_digits_none; replace (_ <=? 2 ^ 32 - 1) with false; [done|lia].
Qed.

Lemma digits_not_in l c : digits l → ¬ 48 <= c <= 57 → c ∉ l.
Proof. intros Hl Hc Hin. apply Hc. by apply (proj1 (Forall_forall _ _) Hl). Qed.

Lemma dec_digits_spec fuel : ∀ n,
  0 <= n < 10 ^ Z.of_nat fuel → fuel ≠ 0%nat →
  digits (dec_digits fuel n) ∧ dec_value (dec_digits fuel n) 0 = n ∧ dec_digits fuel n ≠ [].
Proof.
  induction fuel as [|fuel IH]; intros n Hn Hf; [done|]. cbn [dec_digits].
  assert (Hm : 48 <= 48 + n mod 10 <= 57) by (Z.div_mod_to_equations; lia).
  destruct (Z.ltb_spec n 10) as [Hlt|Hge].
  - split_and!; [by apply Forall_singleton| |done]. cbn. Z.div_mod_to_equations. lia.
  - rewrite Nat2Z.inj_succ, Z.pow_succ_r in Hn by lia.
    destruct fuel as [|fuel]; [cbn in Hn; lia|].
    destruct (IH (n / 10)) as (Hd & Hv & _); [Z.div_mod_to_equations; lia|done|].
    split_and!; [apply Forall_app; split; [done|by apply Forall_singleton]| |by destruct (dec_digits (S fuel) (n / 10))].
    rewrite dec_value_app, Hv. cbn. Z.div_mod_to_equations. lia.
Qed.

Lemma FormatInteger_spec i :
  INT_MIN <= i <= UINT_MAX →
  ∃ l, digits l ∧ l ≠ [] ∧ dec_value l 0 = Z.abs i ∧
    FormatInteger i = (if i <? 0 then [45] else []) ++ l.
Proof.
  unfold INT_MIN, UINT_MAX, FormatInteger. intros Hi.
  destruct (dec_digits_spec 10 (Z.abs i)) as (Hd & Hv & Hne); [lia|done|].
  exists (dec_digits 10 (Z.abs i)). split_and!; [done..|].
  destruct (Z.ltb_spec i 0); cbn [app]; do 2 f_equal; lia.
Qed.

(** Reading a number without a point. *)
Lemma number_of_digits l :
  digits l → l ≠ [] →
  FX_Number_of l = FxUnsigned (if dec_value l 0 <=? UINT_MAX then dec_value l 0 else 0) ∧
  FX_Number_of (45 :: l) = FxSigned (if dec_value l 0 <=? INT_MAX + 1 then - dec_value l 0 else 0) ∧
  FX_Number_of (43 :: l) = FxSigned (if dec_value l 0 <=? INT_MAX then dec_value l 0 else 0).
Proof.
  intros Hl Hne. unfold FX_Number_of.
  assert (Hp : ∀ s, s ≠ 46 → bool_decide (46 ∈ s :: l) = false).
  { intros s Hs. apply bool_decide_eq_false_2. rewrite elem_of_cons. intros [E|E]; [lia|].
    by apply (digits_not_in l 46 Hl); [lia|]. }
  rewrite (bool_decide_eq_false_2 (46 ∈ l)) by (by apply digits_not_in; [|lia]).
  rewrite !Hp by lia. cbn [Z.eqb Pos.eqb orb].
  rewrite !number_digits_spec by (try done; unfold fits; lia).
  pose proof (dec_value_ge l 0 Hl ltac:(lia)) as Hnn.
  change (INT_MAX + 1) with (2 ^ 31). unfold UINT_MAX, INT_MAX. split; [|split].
  - destruct l as [|c l']; [done|]. inversion Hl as [|? ? Hc _]; subst.
    destruct (digit_facts c Hc) as (_ & _ & _ & _ & -> & ->). cbn [orb].
    rewrite number_digits_spec by (try done; unfold fits; lia). unfold UINT_MAX.
    by destruct (Z.leb_spec (dec_value (c :: l') 0) (2 ^ 32 - 1)).
  - set (d := dec_value l 0) in *. f_equal.
    destruct (Z.leb_spec d (2 ^ 32 - 1)); cbn [default from_option]; destruct (Z.leb_spec d (2 ^ 31));
      case_match; unfold id in *; lia.
  - set (d := dec_value l 0) in *. f_equal.
    destruct (Z.leb_spec d (2 ^ 32 - 1)); cbn [default from_option]; destruct (Z.leb_spec d (2 ^ 31 - 1));
      case_match; unfold id in *; lia.
Qed.

Lemma FX_Number_Format i :
  INT_MIN <= i <= UINT_MAX →
  FX_Number_of (FormatInteger i) = if i <? 0 then FxSigned i else FxUnsigned i.
Proof.
  intros Hi. destruct (FormatInteger_spec i Hi) as (l & Hl & Hne & Hv & ->).
  destruct (number_of_digits l Hl Hne) as (H1 & H2 & _). unfold INT_MIN, UINT_MAX, INT_MAX in *.
  destruct (Z.ltb_spec i 0); cbn [app].
  - rewrite H2, Hv. replace (Z.abs i <=? _) with true by lia. f_equal. lia.
  - rewrite H1, Hv. replace (Z.abs i <=? _) with true by lia. f_equal. lia.
Qed.

Lemma atoui_Format i : 0 <= i <= UINT_MAX → FXSYS_atoui (FormatInteger i) = i.
Proof.
  intros Hi. destruct (FormatInteger_spec i) as (l & Hl & Hne & Hv & ->); [unfold INT_MIN; lia|].
  replace (i <? 0) with false by lia. cbn [app]. unfold FXSYS_atoui, str_sign.
  destruct l as [|c l']; [done|]. inversion Hl as [|? ? Hc _]; subst.
  destruct (digit_facts c Hc) as (_ & _ & _ & _ & -> & ->). cbn [orb].
  rewrite str_digits_spec by (try done; unfold UINT_MAX; lia). rewrite Hv.
  replace (Z.abs i <=? UINT_MAX) with true by lia. lia.
Qed.

Lemma s32_range v : fits 32 v → INT_MIN <= s32 v <= INT_MAX ∧ u32 (s32 v) = v.
Proof.
  unfold fits, s32, INT_MIN, INT_MAX. intros. destruct (Z.leb_spec (2 ^ 31) v).
  - split; [lia|]. symmetry. apply (Z.mod_unique _ _ (-1)); lia.
  - split; [lia|]. apply Z.mod_small. lia.
Qed.

(** A number is read as its digits say, and out of range as 0; the number
    functions of the C library saturate instead; what an integer prints as has
    the same [GetSigned] when read again. *)
Theorem number_text :
  (∀ l, digits l → l ≠ [] →
     FX_Number_of l = FxUnsigned (if dec_value l 0 <=? UINT_MAX then dec_value l 0 else 0) ∧
     FX_Number_of (45 :: l) = FxSigned (if dec_value l 0 <=? INT_MAX + 1 then - dec_value l 0 else 0) ∧
     FXSYS_atoui l = Z.min (dec_value l 0) UINT_MAX ∧
     FXSYS_atoi (45 :: l) = Z.max (- dec_value l 0) INT_MIN) ∧
  (∀ v, INT_MIN <= v <= INT_MAX → GetSigned (FX_Number_of (NumberGetString (FxSigned v))) = v) ∧
  (∀ v, fits 32 v → GetSigned (FX_Number_of (NumberGetString (FxUnsigned v))) = GetSigned (FxUnsigned v)).
Proof.
  assert (Hback : ∀ i, INT_MIN <= i <= INT_MAX → GetSigned (FX_Number_of (FormatInteger i)) = i).
  { intros i Hi. rewrite FX_Number_Format by (unfold UINT_MAX, INT_MAX in *; lia).
    destruct (Z.ltb_spec i 0); cbn [GetSigned]; [done|]. unfold s32, INT_MAX in *.
    by replace (2 ^ 31 <=? i) with false by lia. }
  split_and!.
  - intros l Hl Hne. destruct (number_of_digits l Hl Hne) as (H1 & H2 & _).
    pose proof (dec_value_ge l 0 Hl ltac:(lia)) as Hnn. split_and!; [done..| |].
    + unfold FXSYS_atoui, str_sign. destruct l as [|c l']; [done|]. inversion Hl as [|? ? Hc _]; subst.
      destruct (digit_facts c Hc) as (_ & _ & _ & _ & -> & ->). cbn [orb].
      rewrite str_digits_spec by (try done; unfold UINT_MAX; lia).
      destruct (Z.leb_spec (dec_value (c :: l') 0) UINT_MAX); lia.
    + unfold FXSYS_atoi, str_sign. cbn [Z.eqb Pos.eqb orb].
      rewrite str_digits_spec by (try done; unfold INT_MAX; lia).
      unfold INT_MIN, INT_MAX. destruct (Z.leb_spec (dec_value l 0) (2 ^ 31 - 1)); lia.
  - intros v Hv. apply Hback. done.
  - intros v Hv. cbn [NumberGetString IsInteger GetSigned]. unfold NumberGetString. cbn [IsInteger GetSigned].
    apply Hback. by apply s32_range.
Qed.

Lemma number_text_witness :
  digits [49; 50] ∧ FX_Number_of [49; 50] = FxUnsigned 12 ∧ FXSYS_atoui [49; 50] = 12.
Proof.
  split; [repeat constructor; lia|].
  destruct (proj1 number_text [49; 50] ltac:(repeat constructor; lia) ltac:(discriminate)) as (H & _ & H' & _).
  exact (conj H H').
Defined.
