(* ===== verification/Reader.v ===== *)
(** * The parser's buffered reader

    [ReadBlockAt], [GetNextChar], [GetCharAt], [GetCharAtBackward],
    [IsPositionRead], [ReadBlock] and [SetPos] of [CPDF_SyntaxParser]
    ([core/fpdfapi/parser/cpdf_syntax_parser.cpp]) over a seekable stream, the
    virtual function [ReadBlockAtOffset] of [IFX_SeekableReadStream]. *)
From S2P Require Import Prelude.

(** The stream: [file] is what it holds; a read may fail, and one that succeeds
    returns the bytes of the file. *)
Class ReadStream := {
  file : list Z;
  ReadBlockAtOffset : Z → Z → option (list Z);
  read_ok off n l : ReadBlockAtOffset off n = Some l →
    0 <= off ∧ l = subspan file (Z.to_nat off) (Z.to_nat n) ∧ zlen l = n;
}.

(** Every read inside the file succeeds. *)
Class CompleteStream `{ReadStream} :=
  read_complete off n : 0 <= off → 0 <= n → off + n <= zlen file → is_Some (ReadBlockAtOffset off n).

Record reader := Reader {
  m_Pos : Z;
  m_pFileBuf : list Z;
  m_BufOffset : Z;
}.

Definition kFileBufSize : Z := 512.

Section reader.
Context `{ReadStream} (m_HeaderOffset m_ReadBufferSize : Z).

Definition m_FileLen : Z := zlen file.

Definition IsPositionRead (pos : Z) (r : reader) : bool :=
  (m_BufOffset r <=? pos) && (pos <? m_BufOffset r + zlen (m_pFileBuf r)).

Definition ReadBlockAt (read_pos : Z) (r : reader) : bool * reader :=
  if m_FileLen <=? read_pos then (false, r)
  else
    let read_size := if m_FileLen <? read_pos + m_ReadBufferSize then m_FileLen - read_pos
                     else m_ReadBufferSize in
    match ReadBlockAtOffset read_pos read_size with
    | None => (false, Reader (m_Pos r) [] (m_BufOffset r))
    | Some l => (true, Reader (m_Pos r) l read_pos)
    end.

Definition GetNextChar (r : reader) : option Z * reader :=
  let pos := m_Pos r + m_HeaderOffset in
  if m_FileLen <=? pos then (None, r)
  else
    let '(ok, r) := if IsPositionRead pos r then (true, r) else ReadBlockAt pos r in
    if ok then (Some (m_pFileBuf r).[pos - m_BufOffset r],
                Reader (m_Pos r + 1) (m_pFileBuf r) (m_BufOffset r))
    else (None, r).

(** [AutoRestorer] puts [m_Pos] back. *)
Definition GetCharAt (pos : Z) (r : reader) : option Z * reader :=
  let '(ch, r') := GetNextChar (Reader pos (m_pFileBuf r) (m_BufOffset r)) in
  (ch, Reader (m_Pos r) (m_pFileBuf r') (m_BufOffset r')).

Definition GetCharAtBackward (pos : Z) (r : reader) : option Z * reader :=
  let pos := pos + m_HeaderOffset in
  if m_FileLen <=? pos then (None, r)
  else
    let '(ok, r) :=
      if IsPositionRead pos r then (true, r)
      else
        let block_start := if kFileBufSize <=? pos then pos - kFileBufSize + 1 else 0 in
        let '(ok, r) := ReadBlockAt block_start r in
        (ok && IsPositionRead pos r, r) in
    if ok then (Some (m_pFileBuf r).[pos - m_BufOffset r], r) else (None, r).

Definition ReadBlock (size : Z) (r : reader) : option (list Z) * reader :=
  match ReadBlockAtOffset (m_Pos r + m_HeaderOffset) size with
  | None => (None, r)
  | Some l => (Some l, Reader (m_Pos r + size) (m_pFileBuf r) (m_BufOffset r))
  end.

Definition SetPos (pos : Z) (r : reader) : reader :=
  Reader (Z.min pos m_FileLen) (m_pFileBuf r) (m_BufOffset r).

Definition reader_new : reader := Reader 0 [] 0.

(** ** The document without a buffer *)
Definition char_at (pos : Z) : option Z :=
  let pos := pos + m_HeaderOffset in
  if (0 <=? pos) && (pos <? m_FileLen) then Some file.[pos] else None.

(** The buffer holds a piece of the file. *)
Definition buf_ok (r : reader) : Prop :=
  0 <= m_BufOffset r ∧
  m_pFileBuf r = subspan file (Z.to_nat (m_BufOffset r)) (length (m_pFileBuf r)).

Hypothesis Hsize : 0 < m_ReadBufferSize.

Lemma buf_rd r pos :
  buf_ok r → IsPositionRead pos r = true →
  (m_pFileBuf r).[pos - m_BufOffset r] = file.[pos] ∧ 0 <= pos < m_FileLen.
Proof.
  unfold IsPositionRead, m_FileLen. intros [H0 Hb] Hp.
  assert (Hlen : zlen (m_pFileBuf r) <= zlen file - m_BufOffset r ∨ m_pFileBuf r = []).
  { destruct (m_pFileBuf r) as [|x l] eqn:E; [by right|left].
    assert (Hl := f_equal (@length Z) Hb). unfold subspan in Hl. rewrite length_take, length_drop in Hl.
    unfold zlen. cbn [length] in *. lia. }
  destruct Hlen as [Hlen|Hnil]; [|rewrite Hnil, zlen_nil in Hp; lia].
  split; [|lia]. rewrite Hb. unfold rd, subspan. rewrite !nth_lookup, lookup_take_lt, lookup_drop.
  - do 2 f_equal. lia.
  - unfold zlen in Hp. lia.
Qed.

Lemma ReadBlockAt_ok pos r :
  buf_ok r → buf_ok (ReadBlockAt pos r).2 ∧ m_Pos (ReadBlockAt pos r).2 = m_Pos r ∧
  ((ReadBlockAt pos r).1 = true → 0 <= pos < m_FileLen ∧ m_BufOffset (ReadBlockAt pos r).2 = pos ∧
    zlen (m_pFileBuf (ReadBlockAt pos r).2) = Z.min m_ReadBufferSize (m_FileLen - pos)).
Proof.
  intros [H0 Hb]. unfold ReadBlockAt. destruct (Z.leb_spec m_FileLen pos) as [Hlt|Hlt]; [done|].
  set (n := if m_FileLen <? pos + m_ReadBufferSize then m_FileLen - pos else m_ReadBufferSize).
  assert (Hn : n = Z.min m_ReadBufferSize (m_FileLen - pos)).
  { unfold n. destruct (Z.ltb_spec m_FileLen (pos + m_ReadBufferSize)); lia. }
  destruct (ReadBlockAtOffset pos n) as [l|] eqn:E; cbn.
  - destruct (read_ok _ _ _ E) as (Hp & -> & Hl). split_and!; try done; try lia.
    split; cbn; [done|]. unfold zlen in Hl.
    by replace (length _) with (Z.to_nat n) by lia.
  - split_and!; [split; [done|]|done|done]. cbn. unfold subspan. by rewrite take_0.
Qed.

(** One character: the file's, wherever the buffer is. *)
Lemma GetNextChar_ok r :
  buf_ok r → let '(ch, r') := GetNextChar r in
  buf_ok r' ∧ match ch with
  | Some c => char_at (m_Pos r) = Some c ∧ m_Pos r' = m_Pos r + 1
  | None => m_Pos r' = m_Pos r
  end.
Proof.
  intros Hb. unfold GetNextChar, char_at. set (pos := m_Pos r + m_HeaderOffset).
  destruct (Z.leb_spec m_FileLen pos) as [Hlt|Hlt]; [done|].
  assert (Hr : let '(ok, r') := if IsPositionRead pos r then (true, r) else ReadBlockAt pos r in
    buf_ok r' ∧ m_Pos r' = m_Pos r ∧ (ok = true → IsPositionRead pos r' = true)).
  { destruct (IsPositionRead pos r) eqn:E; [done|].
    destruct (ReadBlockAt_ok pos r Hb) as (H1 & H2 & H3).
    destruct (ReadBlockAt pos r) as [ok r']. cbn in *. split_and!; [done..|].
    intros Hok. destruct (H3 Hok) as (H4 & H5 & H6). unfold IsPositionRead. lia. }
  destruct (if IsPositionRead pos r then _ else _) as [ok r']. destruct Hr as (H1 & H2 & H3).
  destruct ok; [|done]. destruct (buf_rd r' pos H1 (H3 eq_refl)) as [-> Hp].
  split; [done|]. replace ((0 <=? pos) && (pos <? m_FileLen)) with true by lia. cbn. by rewrite H2.
Qed.

Lemma GetCharAtBackward_ok pos r :
  buf_ok r → let '(ch, r') := GetCharAtBackward pos r in
  buf_ok r' ∧ m_Pos r' = m_Pos r ∧ ∀ c, ch = Some c → char_at pos = Some c.
Proof.
  intros Hb. unfold GetCharAtBackward, char_at. set (p := pos + m_HeaderOffset).
  destruct (Z.leb_spec m_FileLen p) as [Hlt|Hlt]; [done|].
  set (start := if kFileBufSize <=? p then _ else 0).
  destruct (IsPositionRead p r) eqn:E.
  - destruct (buf_rd r p Hb E) as [-> Hp]. split_and!; [done..|].
    by replace ((0 <=? p) && (p <? m_FileLen)) with true by lia.
  - destruct (ReadBlockAt_ok start r Hb) as (H1 & H2 & _).
    destruct (ReadBlockAt start r) as [ok r']. cbn in H1, H2.
    destruct (ok && IsPositionRead p r') eqn:E2; [|done].
    apply andb_prop in E2 as [_ E2]. destruct (buf_rd r' p H1 E2) as [-> Hp].
    split_and!; [done..|]. by replace ((0 <=? p) && (p <? m_FileLen)) with true by lia.
Qed.

(** With a complete stream no character of the file is missed. *)
Section complete.
Context `{!CompleteStream}.

Lemma ReadBlockAt_complete pos r : 0 <= pos < m_FileLen → (ReadBlockAt pos r).1 = true.
Proof.
  intros Hp. unfold ReadBlockAt. replace (m_FileLen <=? pos) with false by lia.
  set (n := if m_FileLen <? pos + m_ReadBufferSize then _ else _).
  destruct (read_complete pos n) as [l ->]; [lia|..|done]; unfold n, m_FileLen in *; case_match; lia.
Qed.

Lemma GetNextChar_complete r : buf_ok r → (GetNextChar r).1 = char_at (m_Pos r).
Proof.
  intros Hb. pose proof (GetNextChar_ok r Hb) as Hok. destruct (GetNextChar r) as [[c|] r'] eqn:E.
  - cbn. by destruct Hok as (_ & -> & _).
  - cbn. unfold char_at. unfold GetNextChar in E. set (pos := m_Pos r + m_HeaderOffset) in *.
    destruct (Z.leb_spec m_FileLen pos); [by replace (pos <? m_FileLen) with false by lia; rewrite andb_false_r|].
    destruct (Z.leb_spec 0 pos); [|done].
    destruct (IsPositionRead pos r); [done|].
    pose proof (ReadBlockAt_complete pos r ltac:(lia)) as Hc.
    destruct (ReadBlockAt pos r) as [ok r2]. cbn in Hc. by rewrite Hc in E.
Qed.

Lemma GetCharAtBackward_complete pos r :
  buf_ok r → kFileBufSize <= m_ReadBufferSize → (GetCharAtBackward pos r).1 = char_at pos.
Proof.
  intros Hb Hs. pose proof (GetCharAtBackward_ok pos r Hb) as Hok.
  destruct (GetCharAtBackward pos r) as [[c|] r'] eqn:E.
  - cbn. destruct Hok as (_ & _ & Hok). by rewrite (Hok c).
  - cbn. unfold char_at. unfold GetCharAtBackward in E. set (p := pos + m_HeaderOffset) in *.
    destruct (Z.leb_spec m_FileLen p); [by replace (p <? m_FileLen) with false by lia; rewrite andb_false_r|].
    destruct (Z.leb_spec 0 p); [|done].
    destruct (IsPositionRead p r); [done|].
    set (start := if kFileBufSize <=? p then _ else 0) in *.
    assert (Hst : 0 <= start <= p ∧ p - start < kFileBufSize).
    { unfold start, kFileBufSize in *. destruct (Z.leb_spec 512 p); lia. }
    pose proof (ReadBlockAt_complete start r ltac:(lia)) as Hc.
    destruct (ReadBlockAt_ok start r Hb) as (_ & _ & H3). specialize (H3 Hc) as (_ & H4 & H5).
    destruct (ReadBlockAt start r) as [ok r2]. cbn in *. subst ok.
    replace (IsPositionRead p r2) with true in E; [done|]. unfold IsPositionRead. lia.
Qed.
End complete.

(** ** Any sequence of operations *)
Inductive read_op := OpNext | OpAt (pos : Z) | OpBack (pos : Z) | OpSetPos (pos : Z) | OpUnread.

Definition run_op (r : reader) (o : read_op) : option Z * reader :=
  match o with
  | OpNext => GetNextChar r
  | OpAt pos => GetCharAt pos r
  | OpBack pos => GetCharAtBackward pos r
  | OpSetPos pos => (None, SetPos pos r)
  | OpUnread => (None, Reader (m_Pos r - 1) (m_pFileBuf r) (m_BufOffset r))
  end.

(** The same on the position alone. *)
Definition pure_op (pos : Z) (o : read_op) : option Z * Z :=
  match o with
  | OpNext => (char_at pos, match char_at pos with Some _ => pos + 1 | None => pos end)
  | OpAt p | OpBack p => (char_at p, pos)
  | OpSetPos p => (None, Z.min p m_FileLen)
  | OpUnread => (None, pos - 1)
  end.

Fixpoint run_ops (r : reader) (ops : list read_op) : list (option Z) * reader :=
  match ops with
  | [] => ([], r)
  | o :: ops => let '(ch, r) := run_op r o in let '(cs, r) := run_ops r ops in (ch :: cs, r)
  end.
Fixpoint pure_ops (pos : Z) (ops : list read_op) : list (option Z) * Z :=
  match ops with
  | [] => ([], pos)
  | o :: ops => let '(ch, pos) := pure_op pos o in let '(cs, pos) := pure_ops pos ops in (ch :: cs, pos)
  end.

Lemma run_op_pure `{!CompleteStream} r o :
  buf_ok r → kFileBufSize <= m_ReadBufferSize →
  (run_op r o).1 = (pure_op (m_Pos r) o).1 ∧ m_Pos (run_op r o).2 = (pure_op (m_Pos r) o).2 ∧
  buf_ok (run_op r o).2.
Proof.
  intros Hb Hs. destruct o as [|pos|pos|pos|]; cbn [run_op pure_op].
  - pose proof (GetNextChar_ok r Hb) as Hok. pose proof (GetNextChar_complete r Hb) as Hc.
    destruct (GetNextChar r) as [[c|] r']; cbn in *; rewrite <-Hc; naive_solver.
  - unfold GetCharAt. set (r0 := Reader pos _ _). assert (Hb0 : buf_ok r0) by done.
    pose proof (GetNextChar_ok r0 Hb0) as Hok. pose proof (GetNextChar_complete r0 Hb0) as Hc.
    destruct (GetNextChar r0) as [ch r']. cbn in *. split_and!; [done..|apply Hok].
  - pose proof (GetCharAtBackward_ok pos r Hb) as Hok. rewrite GetCharAtBackward_complete by done.
    destruct (GetCharAtBackward pos r) as [ch r']. cbn in *. naive_solver.
  - done.
  - done.
Qed.

Lemma run_ops_pure `{!CompleteStream} ops : ∀ r,
  buf_ok r → kFileBufSize <= m_ReadBufferSize →
  (run_ops r ops).1 = (pure_ops (m_Pos r) ops).1 ∧ m_Pos (run_ops r ops).2 = (pure_ops (m_Pos r) ops).2.
Proof.
  induction ops as [|o ops IH]; intros r Hb Hs; [done|]. cbn [run_ops pure_ops].
  destruct (run_op_pure r o Hb Hs) as (H1 & H2 & H3).
  destruct (run_op r o) as [ch r']. destruct (pure_op (m_Pos r) o) as [ch' p']. cbn in *. subst.
  specialize (IH r' H3 Hs). destruct (run_ops r' ops), (pure_ops (m_Pos r') ops). cbn in *. naive_solver.
Qed.
End reader.

(** C25: the buffer is transparent: whatever the operations and wherever blocks
    were read, a reader over a complete stream returns the characters, and has
    the position, of one that looks every character up in the file.  The buffer
    must be at least as long as the block [GetCharAtBackward] reads. *)
Theorem reader_transparent `{CompleteStream} hdr bufsize ops :
  kFileBufSize <= bufsize →
  (run_ops hdr bufsize reader_new ops).1 = (pure_ops hdr 0 ops).1 ∧
  m_Pos (run_ops hdr bufsize reader_new ops).2 = (pure_ops hdr 0 ops).2.
Proof.
  intros Hs. apply (run_ops_pure hdr bufsize ltac:(unfold kFileBufSize in *; lia) ops reader_new); [|done].
  split; [done|]. cbn. unfold subspan. by rewrite take_0.
Qed.

(** A file in memory. *)
Program Definition memory_stream (l : list Z) : ReadStream := {|
  file := l;
  ReadBlockAtOffset off n :=
    if (0 <=? off) && (0 <=? n) && (off + n <=? zlen l)
    then Some (subspan l (Z.to_nat off) (Z.to_nat n)) else None |}.
Next Obligation.
  intros l off n k. cbv beta. destruct ((0 <=? off) && (0 <=? n) && (off + n <=? zlen l)) eqn:E; [|done].
  intros [= <-]. split_and!; [lia|done|]. unfold zlen, subspan in *.
  rewrite length_take, length_drop. lia.
Qed.

Lemma memory_complete l : @CompleteStream (memory_stream l).
Proof.
  intros off n H1 H2 H3. cbn in *. replace ((0 <=? off) && (0 <=? n) && (off + n <=? zlen l)) with true by lia.
  by eexists.
Qed.

Lemma reader_transparent_witness :
  let _ := memory_stream [37; 80; 68; 70] in
  (pure_ops 1 0 [OpNext; OpBack 2; OpNext; OpUnread; OpNext]).1 =
    [Some 80; Some 70; Some 68; None; Some 68] ∧
  (run_ops 1 512 reader_new [OpNext; OpBack 2; OpNext; OpUnread; OpNext]).1 =
    (pure_ops 1 0 [OpNext; OpBack 2; OpNext; OpUnread; OpNext]).1.
Proof.
  split; [reflexivity|].
  exact (proj1 (@reader_transparent (memory_stream [37; 80; 68; 70]) (memory_complete _) 1 512
    [OpNext; OpBack 2; OpNext; OpUnread; OpNext] ltac:(vm_compute; discriminate))).
Defined.
