(* ===== verification/Syntax.v ===== *)
(** * The lexer of the PDF parser

    The word, string and search functions of [CPDF_SyntaxParser]
    ([core/fpdfapi/parser/cpdf_syntax_parser.cpp]) over a file that is there as a
    whole: [GetNextChar] looks the character up, which is what the buffered
    reader does by [Reader.reader_transparent].  A loop of [GetNextChar] calls is
    a recursion on the bytes from the position on. *)
From S2P Require Import Prelude Words CharTypes Filters TextString.

(** [m_WordBuffer] has 257 bytes; the word is the first [m_WordSize]. *)
Record syntax := Syntax {
  m_Pos : Z;
  m_WordBuffer : list Z;
  m_WordSize : Z;
}.

Definition syntax_new : syntax := Syntax 0 (replicate 257 0) 0.
Definition at_pos (pos : Z) (s : syntax) : syntax := Syntax pos (m_WordBuffer s) (m_WordSize s).
Definition word_of (s : syntax) : list Z := take (Z.to_nat (m_WordSize s)) (m_WordBuffer s).

(** ** Loops over characters

    Each takes the bytes after position [pos] and returns the position reached. *)

(** [ToNextWord]; [comment] inside the loop that skips a comment. *)
Fixpoint to_next_word (comment : bool) (rest : list Z) (pos : Z) : Z :=
  match rest with
  | [] => pos
  | ch :: rest =>
      if comment then to_next_word (negb (PDFCharIsLineEnding ch)) rest (pos + 1)
      else if PDFCharIsWhitespace ch then to_next_word false rest (pos + 1)
      else if ch =? 37 then to_next_word true rest (pos + 1)
      else pos
  end.

Inductive EofState := kInitial | kNonPercent | kPercent | kE | kO | kF | kInvalid.

(** The [switch] of [RecordingToNextWord]. *)
Definition eof_next (st : EofState) (ch : Z) : EofState :=
  match st with
  | kInitial => if PDFCharIsWhitespace ch then kInitial else if ch =? 37 then kPercent else kNonPercent
  | kNonPercent => kNonPercent
  | kPercent => if ch =? 69 then kE else if ch =? 37 then kPercent else kInvalid
  | kE => if ch =? 79 then kO else kInvalid
  | kO => if ch =? 70 then kF else kInvalid
  | kF | kInvalid => kInvalid
  end.

Definition is_kF (st : EofState) : bool := match st with kF => true | _ => false end.

(** [RecordingToNextWord]: the position and what is added to [m_TrailerEnds]. *)
Fixpoint recording_to_next_word (st : EofState) (rest : list Z) (pos : Z) : Z * list Z :=
  match rest with
  | [] => (pos, [])
  | ch :: rest1 =>
      let step := fun _ : unit =>
        match (if PDFCharIsLineEnding ch then kInitial else eof_next st ch) with
        | kNonPercent => (pos, [])
        | st => recording_to_next_word st rest1 (pos + 1)
        end in
      if is_kF st && PDFCharIsLineEnding ch then
        match rest1 with
        | c :: rest2 =>
            if (ch =? 13) && (c =? 10)
            then let '(p, ends) := recording_to_next_word kInitial rest2 (pos + 2) in (p, u32 (pos + 2) :: ends)
            else let '(p, ends) := step tt in (p, u32 (pos + 1) :: ends)
        | [] => let '(p, ends) := step tt in (p, u32 (pos + 1) :: ends)
        end
      else step tt
  end.

(** [if (m_WordSize < sizeof(m_WordBuffer) - 1) m_WordBuffer[m_WordSize++] = ch] *)
Definition push (ch : Z) (w : list Z * Z) : list Z * Z :=
  let '(buf, size) := w in if size <? 256 then (wr buf size ch, size + 1) else w.

Fixpoint name_chars (rest : list Z) (pos : Z) (w : list Z * Z) : Z * (list Z * Z) :=
  match rest with
  | [] => (pos, w)
  | ch :: rest =>
      if negb (PDFCharIsOther ch) && negb (PDFCharIsNumeric ch) then (pos, w)
      else name_chars rest (pos + 1) (push ch w)
  end.

(** The last loop of [GetNextWordInternal], entered with [ch] read. *)
Fixpoint word_chars (ch : Z) (rest : list Z) (pos : Z) (w : list Z * Z) (number : bool) :
    Z * (list Z * Z) * bool :=
  let w := push ch w in
  let number := number && PDFCharIsNumeric ch in
  match rest with
  | [] => (pos, w, number)
  | c :: rest =>
      if PDFCharIsDelimiter c || PDFCharIsWhitespace c then (pos, w, number)
      else word_chars c rest (pos + 1) w number
  end.

(** ** Strings *)
Inductive ReadStatus := kNormal | kBackslash | kOctal | kFinishOctal | kCarriageReturn.

Inductive str_step :=
  | StrDone
  | StrNext (status : ReadStatus) (parlevel iEscCode : Z) (buf : list Z).

Definition string_normal (ch parlevel iEscCode : Z) (buf : list Z) : str_step :=
  if (ch =? 41) && (parlevel =? 0) then StrDone
  else
    let parlevel := if ch =? 41 then parlevel - 1 else if ch =? 40 then parlevel + 1 else parlevel in
    if ch =? 92 then StrNext kBackslash parlevel iEscCode buf
    else StrNext kNormal parlevel iEscCode (buf ++ [ch]).

(** One character; a [continue] of the code looks at the same character again
    in status [kNormal]. *)
Definition string_step (status : ReadStatus) (ch parlevel iEscCode : Z) (buf : list Z) : str_step :=
  match status with
  | kNormal => string_normal ch parlevel iEscCode buf
  | kBackslash =>
      if FXSYS_IsOctalDigit ch then StrNext kOctal parlevel (FXSYS_DecimalCharToInt ch) buf
      else if ch =? 13 then StrNext kCarriageReturn parlevel iEscCode buf
      else StrNext kNormal parlevel iEscCode
        (if ch =? 110 then buf ++ [10] else if ch =? 114 then buf ++ [13]
         else if ch =? 116 then buf ++ [9] else if ch =? 98 then buf ++ [8]
         else if ch =? 102 then buf ++ [12] else if ch =? 10 then buf else buf ++ [ch])
  | kOctal =>
      if FXSYS_IsOctalDigit ch
      then StrNext kFinishOctal parlevel (iEscCode * 8 + FXSYS_DecimalCharToInt ch) buf
      else string_normal ch parlevel iEscCode (buf ++ [u8 iEscCode])
  | kFinishOctal =>
      if FXSYS_IsOctalDigit ch then
        let iEscCode := iEscCode * 8 + FXSYS_DecimalCharToInt ch in
        StrNext kNormal parlevel iEscCode (buf ++ [u8 iEscCode])
      else string_normal ch parlevel iEscCode (buf ++ [u8 iEscCode])
  | kCarriageReturn =>
      if ch =? 10 then StrNext kNormal parlevel iEscCode buf
      else string_normal ch parlevel iEscCode buf
  end.

Fixpoint read_string (rest : list Z) (pos : Z) (status : ReadStatus) (parlevel iEscCode : Z)
    (buf : list Z) : list Z * Z :=
  match rest with
  | [] => (buf, pos)
  | ch :: rest =>
      match string_step status ch parlevel iEscCode buf with
      | StrDone => (buf, pos + 1)
      | StrNext status parlevel iEscCode buf => read_string rest (pos + 1) status parlevel iEscCode buf
      end
  end.

Fixpoint read_hex_string (rest : list Z) (pos : Z) (bFirst : bool) (code : Z) (buf : list Z) :
    list Z * Z :=
  let finish := if bFirst then buf else buf ++ [code] in
  match rest with
  | [] => (finish, pos)
  | ch :: rest =>
      if ch =? 62 then (finish, pos + 1)
      else if isxdigit ch then
        let val := FXSYS_HexCharToInt ch in
        if bFirst then read_hex_string rest (pos + 1) false (u8 (val * 16)) buf
        else read_hex_string rest (pos + 1) true (u8 (code + val)) (buf ++ [u8 (code + val)])
      else read_hex_string rest (pos + 1) bFirst code buf
  end.

(** [ToNextLine].  A carriage return at the end of the file is put back. *)
Fixpoint to_next_line (rest : list Z) (pos : Z) : Z :=
  match rest with
  | [] => pos
  | ch :: rest =>
      if ch =? 10 then pos + 1
      else if ch =? 13 then
        match rest with
        | [] => pos
        | c :: _ => if c =? 10 then pos + 2 else pos + 1
        end
      else to_next_line rest (pos + 1)
  end.

(** [FindTag]: the position after the tag. *)
Fixpoint find_tag (tag : list Z) (rest : list Z) (pos : Z) (match_ : Z) : option Z :=
  match rest with
  | [] => None
  | ch :: rest =>
      if ch =? tag.[match_] then
        if match_ + 1 =? zlen tag then Some (pos + 1) else find_tag tag rest (pos + 1) (match_ + 1)
      else find_tag tag rest (pos + 1) (if ch =? tag.[0] then 1 else 0)
  end.

(** ** The parser's operations *)
Section parser.
Context (file : list Z) (m_HeaderOffset : Z).

Definition m_FileLen : Z := zlen file.

(** The characters [GetNextChar] returns from [pos] on. *)
Definition suffix (pos : Z) : list Z :=
  if 0 <=? pos + m_HeaderOffset then drop (Z.to_nat (pos + m_HeaderOffset)) file else [].

Definition GetCharAt (pos : Z) : option Z :=
  match suffix pos with ch :: _ => Some ch | [] => None end.

Definition SetPos (pos : Z) (s : syntax) : syntax := at_pos (Z.min pos m_FileLen) s.

Definition ToNextWord (s : syntax) : syntax := at_pos (to_next_word false (suffix (m_Pos s)) (m_Pos s)) s.
Definition ToNextLine (s : syntax) : syntax := at_pos (to_next_line (suffix (m_Pos s)) (m_Pos s)) s.

(** Whether the word is a number, and the word in the buffer. *)
Definition GetNextWordInternal (s : syntax) : bool * syntax :=
  let s := ToNextWord s in
  let pos := m_Pos s in
  match suffix pos with
  | [] => (true, Syntax pos (m_WordBuffer s) 0)
  | ch :: rest =>
      if PDFCharIsDelimiter ch then
        let w := push ch (m_WordBuffer s, 0) in
        if ch =? 47 then
          let '(pos, w) := name_chars rest (pos + 1) w in (false, Syntax pos w.1 w.2)
        else
          match rest with
          | c :: _ =>
              if ((ch =? 60) && (c =? 60)) || ((ch =? 62) && (c =? 62))
              then let w := push c w in (false, Syntax (pos + 2) w.1 w.2)
              else (false, Syntax (pos + 1) w.1 w.2)
          | [] => (false, Syntax (pos + 1) w.1 w.2)
          end
      else
        let '(pos, w, number) := word_chars ch rest (pos + 1) (m_WordBuffer s, 0) true in
        (number, Syntax pos w.1 w.2)
  end.

(** [GetNextWord]: the word, [is_number] and the new state. *)
Definition GetNextWord (s : syntax) : list Z * bool * syntax :=
  let '(number, s) := GetNextWordInternal s in (word_of s, number, s).

Definition GetKeyword (s : syntax) : list Z * syntax :=
  let '(word, _, s) := GetNextWord s in (word, s).

Definition ReadString (s : syntax) : list Z * syntax :=
  let '(str, pos) := read_string (suffix (m_Pos s)) (m_Pos s) kNormal 0 0 [] in (str, at_pos pos s).

Definition ReadHexString (s : syntax) : list Z * syntax :=
  let '(str, pos) := read_hex_string (suffix (m_Pos s)) (m_Pos s) true 0 [] in (str, at_pos pos s).

Definition ReadEOLMarkers (pos : Z) : Z :=
  let byte1 := default 0 (GetCharAt pos) in
  let byte2 := default 0 (GetCharAt (pos + 1)) in
  if (byte1 =? 13) && (byte2 =? 10) then 2
  else if (byte1 =? 13) || (byte1 =? 10) then 1 else 0.

Definition IsWholeWord (startpos limit : Z) (tag : list Z) (checkKeyword : bool) : bool :=
  let taglen := zlen tag in
  let inner c := negb (PDFCharIsDelimiter c) && negb (PDFCharIsWhitespace c) in
  let bCheckLeft := inner tag.[0] in
  let bCheckRight := inner tag.[taglen - 1] in
  let bad c := PDFCharIsNumeric c || PDFCharIsOther c || (checkKeyword && PDFCharIsDelimiter c) in
  if bCheckRight && (startpos + taglen <=? limit) &&
     match GetCharAt (startpos + taglen) with Some ch => bad ch | None => false end then false
  else if bCheckLeft && (0 <? startpos) &&
     match GetCharAt (startpos - 1) with Some ch => bad ch | None => false end then false
  else true.

(** [FindWordPos] from [pos]: every round starts behind the last match. *)
Fixpoint find_word (fuel : nat) (word : list Z) (pos : Z) : Z :=
  match fuel with
  | O => -1
  | S fuel' =>
      match find_tag word (suffix pos) pos 0 with
      | None => -1
      | Some pos => if IsWholeWord (pos - zlen word) m_FileLen word true then pos - zlen word
                    else find_word fuel' word pos
      end
  end.
Definition FindWordPos (word : list Z) (s : syntax) : Z := find_word (S (length file)) word (m_Pos s).

Definition kEndStreamStr : list Z := [101; 110; 100; 115; 116; 114; 101; 97; 109].
Definition kEndObjStr : list Z := [101; 110; 100; 111; 98; 106].

Definition FindStreamEndPos (s : syntax) : Z :=
  let endStreamWordOffset := FindWordPos kEndStreamStr s in
  let endObjWordOffset := FindWordPos kEndObjStr s in
  if (endStreamWordOffset <? 0) && (endObjWordOffset <? 0) then -1
  else
    let offset := if endStreamWordOffset <? 0 then endObjWordOffset
                  else if endObjWordOffset <? 0 then endStreamWordOffset
                  else Z.min endStreamWordOffset endObjWordOffset in
    let offset := if ReadEOLMarkers (offset - 2) =? 2 then offset - 2
                  else if ReadEOLMarkers (offset - 1) =? 1 then offset - 1 else offset in
    if offset <? m_Pos s then -1 else offset.

(** [BackwardsSearchToWord]: the loop from [pos] down. *)
Fixpoint backwards_search (fuel : nat) (word : list Z) (limit start pos offset : Z) : option Z :=
  match fuel with
  | O => None
  | S fuel' =>
      if negb (limit =? 0) && (pos <=? start - limit) then None
      else
        match GetCharAt pos with
        | None => None
        | Some byte =>
            let again := fun _ : unit =>
              let offset := if byte =? word.[zlen word - 1] then zlen word - 2 else zlen word - 1 in
              if pos - 1 <? 0 then None else backwards_search fuel' word limit start (pos - 1) offset in
            if byte =? word.[offset] then
              if 0 <=? offset - 1 then backwards_search fuel' word limit start (pos - 1) (offset - 1)
              else if IsWholeWord pos limit word false then Some pos else again tt
            else again tt
        end
  end.
Definition BackwardsSearchToWord (word : list Z) (limit : Z) (s : syntax) : bool * syntax :=
  if zlen word =? 0 then (false, s)
  else
    match backwards_search (S (Z.to_nat (m_Pos s + m_HeaderOffset))) word limit (m_Pos s) (m_Pos s)
            (zlen word - 1) with
    | Some pos => (true, at_pos pos s)
    | None => (false, s)
    end.
End parser.

(** ** The lexer on lists

    What [GetNextWord] does depends only on the bytes from the position on. *)
Definition strip (l : list Z) : list Z := drop (Z.to_nat (to_next_word false l 0)) l.

Fixpoint span (stop : Z → bool) (l : list Z) : list Z * list Z :=
  match l with
  | [] => ([], [])
  | ch :: rest => if stop ch then ([], l) else let '(w, r) := span stop rest in (ch :: w, r)
  end.

Definition name_stop (ch : Z) : bool := negb (PDFCharIsOther ch) && negb (PDFCharIsNumeric ch).
Definition word_stop (ch : Z) : bool := PDFCharIsDelimiter ch || PDFCharIsWhitespace ch.

(** The word, whether it is a number, and the bytes after it. *)
Definition lex (l : list Z) : list Z * bool * list Z :=
  match strip l with
  | [] => ([], true, [])
  | ch :: rest =>
      if PDFCharIsDelimiter ch then
        if ch =? 47 then let '(w, r) := span name_stop rest in (take 256 (ch :: w), false, r)
        else
          match rest with
          | c :: rest' =>
              if ((ch =? 60) && (c =? 60)) || ((ch =? 62) && (c =? 62))
              then ([ch; c], false, rest') else ([ch], false, rest)
          | [] => ([ch], false, [])
          end
      else let '(w, r) := span word_stop rest in (take 256 (ch :: w), forallb PDFCharIsNumeric (ch :: w), r)
  end.

Lemma to_next_word_spec l : ∀ comment pos,
  ∃ n, to_next_word comment l pos = pos + Z.of_nat n ∧ (n <= length l)%nat.
Proof.
  induction l as [|ch l IH]; intros comment pos; cbn [to_next_word]; [exists 0%nat; cbn; lia|].
  assert (Hgo : ∀ b, ∃ n, to_next_word b l (pos + 1) = pos + Z.of_nat n ∧ (n <= length (ch :: l))%nat).
  { intros b. destruct (IH b (pos + 1)) as (n & -> & Hn). exists (S n). cbn [length]. split; lia. }
  repeat case_match; try apply Hgo. exists 0%nat. cbn; lia.
Qed.

Lemma to_next_word_shift l : ∀ comment pos,
  to_next_word comment l pos = pos + to_next_word comment l 0.
Proof.
  induction l as [|ch l IH]; intros comment pos; cbn [to_next_word]; [lia|].
  repeat case_match; try lia; rewrite IH, (IH _ (0 + 1)); lia.
Qed.

Lemma strip_app l : ∃ a, l = a ++ strip l ∧ to_next_word false l 0 = zlen a.
Proof.
  destruct (to_next_word_spec l false 0) as (n & E & Hn).
  exists (take n l). unfold strip. rewrite E. replace (Z.to_nat (0 + Z.of_nat n)) with n by lia.
  split; [by rewrite take_drop|]. unfold zlen. rewrite length_take. lia.
Qed.

Lemma span_app stop l : (span stop l).1 ++ (span stop l).2 = l.
Proof.
  induction l as [|ch l IH]; [done|]. cbn [span]. destruct (stop ch); [done|].
  destruct (span stop l) as [w r]. cbn in *. by rewrite IH.
Qed.

Lemma span_full stop w r :
  Forall (λ c, stop c = false) w → match r with c :: _ => stop c = true | [] => True end →
  span stop (w ++ r) = (w, r).
Proof.
  intros Hw Hr. induction Hw as [|c w Hc _ IH]; cbn [app span].
  - destruct r as [|c r]; [done|]. cbn [span]. by rewrite Hr.
  - by rewrite Hc, IH.
Qed.

(** [strip] skips white space and stops at the start of a word. *)
Lemma strip_white c l : PDFCharIsWhitespace c = true → strip (c :: l) = strip l.
Proof.
  intros Hc. unfold strip at 1. cbn [to_next_word]. rewrite Hc.
  rewrite to_next_word_shift. unfold strip.
  destruct (to_next_word_spec l false 0) as (n & -> & _).
  replace (Z.to_nat (0 + 1 + (0 + Z.of_nat n))) with (S n) by lia.
  by replace (Z.to_nat (0 + Z.of_nat n)) with n by lia.
Qed.
Lemma strip_space l : strip (32 :: l) = strip l.
Proof. by apply strip_white. Qed.

Lemma strip_word ch l : PDFCharIsWhitespace ch = false → (ch =? 37) = false → strip (ch :: l) = ch :: l.
Proof. intros H1 H2. unfold strip. cbn [to_next_word]. by rewrite H1, H2. Qed.

Lemma lex_length l :
  zlen (lex l).2 <= zlen l ∧ ((lex l).1.1 ≠ [] → zlen (lex l).2 < zlen l) ∧ zlen (lex l).1.1 <= 256.
Proof.
  destruct (strip_app l) as (a & E & _). pose proof (zlen_nonneg a) as Ha. unfold lex.
  assert (Hl : zlen l = zlen a + zlen (strip l)) by (rewrite E at 1; apply zlen_app).
  assert (H256 : ∀ w, zlen (take 256 w : list Z) <= 256) by (intros w; unfold zlen; rewrite length_take; lia).
  destruct (strip l) as [|ch rest]; [rewrite (@zlen_nil Z) in *; cbn; pose proof (zlen_nonneg l); unfold zlen; cbn; split_and!; try lia; done|].
  rewrite zlen_cons in Hl. repeat case_match; cbn [fst snd]; rewrite ?zlen_cons, ?(@zlen_nil Z) in *.
  all: try (match goal with H : span ?s ?x = (?w, ?r) |- _ =>
    pose proof (span_app s x) as Hs; rewrite H in Hs; cbn in Hs; apply (f_equal zlen) in Hs;
    rewrite zlen_app in Hs; pose proof (zlen_nonneg w) end).
  all: split_and!; try apply H256; intros; try lia.
Qed.

(** ** [GetNextWord] is [lex] *)
Section lexer.
Context (file : list Z) (hdr : Z).

(** [s] stands before the bytes [l]. *)
Definition At (s : syntax) (l : list Z) : Prop :=
  suffix file hdr (m_Pos s) = l ∧ 0 <= m_Pos s + hdr ∧ length (m_WordBuffer s) = 257%nat.

Lemma suffix_app pos a l :
  suffix file hdr pos = a ++ l → 0 <= pos + hdr → suffix file hdr (pos + zlen a) = l.
Proof.
  unfold suffix. intros E Hp. pose proof (zlen_nonneg a).
  replace (0 <=? pos + hdr) with true in E by lia.
  replace (0 <=? pos + zlen a + hdr) with true by lia.
  replace (Z.to_nat (pos + zlen a + hdr)) with (Z.to_nat (pos + hdr) + length a)%nat by (unfold zlen; lia).
  by rewrite <-drop_drop, E, drop_app_length.
Qed.

Lemma At_move s a l : At s (a ++ l) → At (at_pos (m_Pos s + zlen a) s) l.
Proof.
  intros (E & Hp & Hb). pose proof (zlen_nonneg a). split; [|done || (split; cbn; [lia|done])].
  cbn. by apply suffix_app.
Qed.

(** What [push] leaves in the buffer. *)
Definition content (w : list Z * Z) (l : list Z) : Prop :=
  length w.1 = 257%nat ∧ 0 <= w.2 <= 256 ∧ take (Z.to_nat w.2) w.1 = l.

Lemma push_content ch w l : content w l → content (push ch w) (take 256 (l ++ [ch])).
Proof.
  destruct w as [buf size]. intros (Hb & Hs & <-). cbn in *. unfold push.
  destruct (Z.ltb_spec size 256).
  - split_and!; cbn; [by rewrite length_wr|lia|lia|].
    replace (Z.to_nat (size + 1)) with (S (Z.to_nat size)) by lia. unfold wr.
    rewrite (take_S_r _ _ ch) by (apply list_lookup_insert_eq; lia).
    rewrite take_insert_ge by lia. symmetry. apply take_ge.
    rewrite length_app, length_take. cbn. lia.
  - assert (size = 256) as -> by lia. split_and!; cbn [fst snd]; [done|lia|lia|].
    change (Z.to_nat 256) with 256%nat. rewrite take_app_le by (rewrite length_take; lia).
    by rewrite take_take.
Qed.

Lemma take_take_app (l k : list Z) : take 256 (take 256 l ++ k) = take 256 (l ++ k).
Proof.
  destruct (Nat.le_gt_cases (length l) 256); [by rewrite (take_ge l)|].
  rewrite !take_app_le by (rewrite ?length_take; lia). by rewrite take_take.
Qed.

Lemma name_chars_spec rest : ∀ pos w l,
  content w l →
  let '(n, r) := span name_stop rest in
  ∃ w', name_chars rest pos w = (pos + zlen n, w') ∧ content w' (take 256 (l ++ n)).
Proof.
  assert (Hle : ∀ w l, content w l → take 256 l = l).
  { intros w l (Hb & Hs & <-). apply take_ge. rewrite length_take. lia. }
  induction rest as [|ch rest IH]; intros pos w l Hw; cbn [span name_chars].
  - exists w. rewrite (@zlen_nil Z), app_nil_r, (Hle _ _ Hw). by rewrite Z.add_0_r.
  - fold (name_stop ch). destruct (name_stop ch).
    + exists w. rewrite (@zlen_nil Z), app_nil_r, (Hle _ _ Hw). by rewrite Z.add_0_r.
    + specialize (IH (pos + 1) _ _ (push_content ch w l Hw)). destruct (span name_stop rest) as [n r].
      destruct IH as (w' & -> & Hw'). exists w'. rewrite zlen_cons. split; [f_equal; lia|].
      by rewrite take_take_app, <-app_assoc in Hw'.
Qed.

Lemma word_chars_spec rest : ∀ ch pos w l num,
  content w l →
  let '(n, r) := span word_stop rest in
  ∃ w', word_chars ch rest pos w num = (pos + zlen n, w', num && forallb PDFCharIsNumeric (ch :: n)) ∧
    content w' (take 256 (l ++ ch :: n)).
Proof.
  induction rest as [|c rest IH]; intros ch pos w l num Hw; cbn [span word_chars].
  - exists (push ch w). rewrite (@zlen_nil Z), Z.add_0_r. cbn [forallb]. rewrite andb_true_r.
    split; [done|]. by apply push_content.
  - fold (word_stop c). destruct (word_stop c).
    + exists (push ch w). rewrite (@zlen_nil Z), Z.add_0_r. cbn [forallb]. rewrite andb_true_r.
      split; [done|]. by apply push_content.
    + specialize (IH c (pos + 1) _ _ (num && PDFCharIsNumeric ch) (push_content ch w l Hw)).
      destruct (span word_stop rest) as [n r]. destruct IH as (w' & -> & Hw'). exists w'.
      rewrite zlen_cons. split; [f_equal; [f_equal; lia|cbn [forallb]; by rewrite <-andb_assoc]|].
      by rewrite take_take_app, <-app_assoc in Hw'.
Qed.

Lemma content_nil buf : length buf = 257%nat → content (buf, 0) [].
Proof. intros Hb. split_and!; cbn; [done|lia|lia|done]. Qed.

(** The first byte of the buffer, which the parser looks at after an array. *)
Lemma content_first w c l : content w (c :: l) → w.1.[0] = c.
Proof.
  destruct w as [buf size]. intros (Hb & Hs & E). cbn in *.
  destruct buf as [|x buf]; [done|]. destruct (Z.to_nat size); [done|]. cbn in E. by injection E as ->.
Qed.

Lemma GetNextWord_lex s l :
  At s l → let '(w, num, r) := lex l in
  ∃ s', GetNextWord file hdr s = (w, num, s') ∧ At s' r ∧ m_Pos s' = m_Pos s + (zlen l - zlen r) ∧
    m_WordSize s' = zlen w ∧
    match w with c :: _ => content (m_WordBuffer s', m_WordSize s') w | [] => m_WordBuffer s' = m_WordBuffer s end.
Proof.
  intros (E & Hp & Hb). destruct (strip_app l) as (a & El & Hn). unfold lex.
  unfold GetNextWord, GetNextWordInternal, ToNextWord. cbn [m_Pos at_pos m_WordBuffer].
  rewrite E, to_next_word_shift, Hn. set (pos := m_Pos s + zlen a).
  assert (Hs : suffix file hdr pos = strip l) by (apply suffix_app; [by rewrite E, El at 1|done]).
  rewrite Hs. pose proof (zlen_nonneg a) as Ha. assert (Hpos : pos = m_Pos s + zlen a) by done.
  assert (Hl : zlen l = zlen a + zlen (strip l)) by (rewrite El at 1; apply zlen_app).
  (* the end, for whatever word was read *)
  assert (Hend : ∀ n r w word (num : bool), strip l = n ++ r → content w word → word ≠ [] →
    ∃ s', (word_of (Syntax (pos + zlen n) w.1 w.2), num, Syntax (pos + zlen n) w.1 w.2) = (word, num, s') ∧
      At s' r ∧ m_Pos s' = m_Pos s + (zlen l - zlen r) ∧ m_WordSize s' = zlen word ∧
      match word with c :: _ => content (m_WordBuffer s', m_WordSize s') word | [] => m_WordBuffer s' = m_WordBuffer s end).
  { intros n r w word num Er Hw Hne. exists (Syntax (pos + zlen n) w.1 w.2). unfold word_of.
    cbn [m_Pos m_WordBuffer m_WordSize]. pose proof Hw as (Hw1 & Hw2 & Hw3). rewrite Hw3.
    split_and!; [done|..].
    - split; [apply suffix_app; [by rewrite Hs|lia]|]. pose proof (zlen_nonneg n). split; [cbn; lia|done].
    - rewrite Hl, Er, zlen_app. lia.
    - rewrite <-Hw3. unfold zlen. rewrite length_take. lia.
    - destruct word; [done|]. by destruct w. }
  destruct (strip l) as [|ch rest] eqn:Est.
  { exists (Syntax pos (m_WordBuffer s) 0). unfold word_of. cbn [m_Pos m_WordBuffer m_WordSize].
    split_and!; [done| |rewrite Hl, (@zlen_nil Z); lia|done|done].
    split; [done|]. split; [cbn; lia|done]. }
  assert (Hpush : content (push ch (m_WordBuffer s, 0)) [ch]) by exact (push_content ch _ _ (content_nil _ Hb)).
  destruct (PDFCharIsDelimiter ch).
  - destruct (Z.eqb_spec ch 47) as [->|Hne].
    + pose proof (name_chars_spec rest (pos + 1) _ _ Hpush) as Hnm.
      pose proof (span_app name_stop rest) as Hsp. destruct (span name_stop rest) as [n r].
      destruct Hnm as (w' & -> & Hw'). cbn in Hsp.
      replace (pos + 1 + zlen n) with (pos + zlen (47 :: n)) by (rewrite zlen_cons; lia).
      apply Hend; [by rewrite <-Hsp|done|done].
    + destruct rest as [|c rest].
      * apply (Hend [ch] [] _ [ch] false); done.
      * destruct ((ch =? 60) && (c =? 60) || (ch =? 62) && (c =? 62)).
        -- apply (Hend [ch; c] rest _ [ch; c] false); [done| |done].
           by apply (push_content c _ _ Hpush).
        -- apply (Hend [ch] (c :: rest) _ [ch] false); done.
  - pose proof (word_chars_spec rest ch (pos + 1) _ _ true (content_nil _ Hb)) as Hwd.
    pose proof (span_app word_stop rest) as Hsp. destruct (span word_stop rest) as [n r].
    destruct Hwd as (w' & -> & Hw'). cbn in Hsp.
    replace (pos + 1 + zlen n) with (pos + zlen (ch :: n)) by (rewrite zlen_cons; lia).
    apply Hend; [by rewrite <-Hsp|done|done].
Qed.
End lexer.

(** ** String literals *)
Lemma read_string_escape src rest : ∀ pos buf,
  read_string (flat_map (λ ch,
    if ch =? 0x0a then [92; 110] else if ch =? 0x0d then [92; 114]
    else if (ch =? 41) || (ch =? 92) || (ch =? 40) then [92; ch] else [ch]) src ++ 41 :: rest)
    pos kNormal 0 0 buf =
  (buf ++ src, pos + zlen (PDF_EncodeString src) - 1).
Proof.
  induction src as [|ch src IH]; intros pos buf; cbn [flat_map app].
  - cbn. rewrite app_nil_r. f_equal. unfold zlen. cbn. lia.
  - assert (Hlen : ∀ k, zlen (PDF_EncodeString (ch :: src)) =
      zlen (if ch =? 10 then [92; 110] else if ch =? 13 then [92; 114]
            else if (ch =? 41) || (ch =? 92) || (ch =? 40) then [92; ch] else [ch]) +
      zlen (PDF_EncodeString src) + (k - k)).
    { intros k. unfold PDF_EncodeString. cbn [flat_map]. rewrite !zlen_cons, !zlen_app. lia. }
    rewrite (Hlen 0). clear Hlen.
    destruct (Z.eqb_spec ch 10) as [->|H1].
    { cbn [app read_string string_step string_normal Z.eqb Pos.eqb andb orb FXSYS_IsOctalDigit Z.leb Z.compare
        Pos.compare Pos.compare_cont].
      rewrite IH, <-app_assoc. cbn [app]. f_equal. change (zlen [92; 110]) with 2. lia. }
    destruct (Z.eqb_spec ch 13) as [->|H2].
    { cbn [app read_string string_step string_normal Z.eqb Pos.eqb andb orb FXSYS_IsOctalDigit Z.leb Z.compare
        Pos.compare Pos.compare_cont].
      rewrite IH, <-app_assoc. cbn [app]. f_equal. change (zlen [92; 114]) with 2. lia. }
    destruct ((ch =? 41) || (ch =? 92) || (ch =? 40)) eqn:E.
    { assert (ch = 41 ∨ ch = 92 ∨ ch = 40) as [->|[->| ->]] by lia.
      all: cbn [app read_string string_step string_normal Z.eqb Pos.eqb andb orb FXSYS_IsOctalDigit Z.leb Z.compare
        Pos.compare Pos.compare_cont]; rewrite IH, <-app_assoc; cbn [app]; f_equal;
        unfold zlen; cbn [length]; lia. }
    cbn [app read_string string_step]. unfold string_normal.
    replace (ch =? 41) with false by lia. replace (ch =? 40) with false by lia.
    replace (ch =? 92) with false by lia. cbn [andb]. rewrite IH, <-app_assoc. cbn [app]. f_equal.
    change (zlen [ch]) with 1. lia.
Qed.

Lemma read_hex_bytes src rest : ∀ pos code buf,
  bytes src →
  read_hex_string (flat_map (λ ch, FXSYS_IntToTwoHexChars ch) src ++ 62 :: rest) pos true code buf =
  (buf ++ src, pos + 2 * zlen src + 1).
Proof.
  induction src as [|ch src IH]; intros pos code buf Hb; cbn [flat_map app].
  - cbn. rewrite app_nil_r. f_equal. unfold zlen. cbn. lia.
  - inversion Hb as [|? ? Hc Hb']; subst. unfold fits in Hc.
    destruct (hex_digit_facts (ch / 16)) as (_ & E1 & X1 & V1); [Z.div_mod_to_equations; lia|].
    destruct (hex_digit_facts (ch mod 16)) as (_ & E2 & X2 & V2); [Z.div_mod_to_equations; lia|].
    unfold FXSYS_IntToTwoHexChars. cbn [app read_hex_string]. rewrite E1, X1, E2, X2, V1, V2.
    rewrite (Z.mod_small (ch / 16 * 16)) by (Z.div_mod_to_equations; lia).
    replace (ch / 16 * 16 + ch mod 16) with ch by (Z.div_mod_to_equations; lia).
    rewrite (Z.mod_small ch) by lia. rewrite IH, <-app_assoc by done. cbn [app].
    f_equal. rewrite zlen_cons. lia.
Qed.

Section strings.
Context (file : list Z) (hdr : Z).

Lemma ReadString_spec s src rest :
  At file hdr s (drop 1 (PDF_EncodeString src) ++ rest) →
  ∃ s', ReadString file hdr s = (src, s') ∧ At file hdr s' rest ∧
    m_Pos s' = m_Pos s + zlen (PDF_EncodeString src) - 1.
Proof.
  intros Hs. pose proof Hs as (E & Hp & Hb). unfold ReadString. rewrite E.
  assert (El : zlen (PDF_EncodeString src) - 1 = zlen (drop 1 (PDF_EncodeString src))).
  { unfold PDF_EncodeString. cbn [drop]. rewrite drop_0, zlen_cons. lia. }
  apply At_move in Hs. unfold PDF_EncodeString. cbn [drop]. rewrite drop_0, <-app_assoc. cbn [app].
  rewrite read_string_escape. eexists. split; [done|]. cbn [m_Pos at_pos].
  fold (PDF_EncodeString src). split; [|lia].
  replace (m_Pos s + _ - 1) with (m_Pos s + zlen (drop 1 (PDF_EncodeString src))) by lia. done.
Qed.

Lemma ReadHexString_spec s src rest :
  bytes src → At file hdr s (drop 1 (PDF_HexEncodeString src) ++ rest) →
  ∃ s', ReadHexString file hdr s = (src, s') ∧ At file hdr s' rest ∧
    m_Pos s' = m_Pos s + zlen (PDF_HexEncodeString src) - 1.
Proof.
  intros Hb Hs. pose proof Hs as (E & Hp & Hbuf). unfold ReadHexString. rewrite E.
  assert (El : zlen (PDF_HexEncodeString src) = 2 * zlen src + 2 ∧
               zlen (drop 1 (PDF_HexEncodeString src)) = 2 * zlen src + 1).
  { unfold PDF_HexEncodeString. cbn [drop]. rewrite drop_0, zlen_cons, zlen_app.
    assert (H : zlen (flat_map (λ ch, FXSYS_IntToTwoHexChars ch) src) = 2 * zlen src).
    { clear. induction src as [|c src IH]; [done|]. cbn [flat_map]. rewrite zlen_app, IH, zlen_cons.
      change (zlen (FXSYS_IntToTwoHexChars c)) with 2. lia. }
    rewrite H. change (zlen [62]) with 1. lia. }
  destruct El as [El1 El2]. apply At_move in Hs. rewrite El1. rewrite El2 in Hs.
  unfold PDF_HexEncodeString. cbn [drop]. rewrite drop_0, <-app_assoc. cbn [app].
  rewrite read_hex_bytes by done. eexists. split; [done|]. cbn [m_Pos at_pos]. split; [|lia].
  by rewrite <-Z.add_assoc.
Qed.
End strings.

(** C26: both kinds of string literal are read back as the bytes that were
    written, whatever bytes those are, up to the closing delimiter. *)
Theorem string_literals_roundtrip file hdr s src rest :
  bytes src →
  (At file hdr s (drop 1 (PDF_EncodeString src) ++ rest) →
   ∃ s', ReadString file hdr s = (src, s') ∧ At file hdr s' rest) ∧
  (At file hdr s (drop 1 (PDF_HexEncodeString src) ++ rest) →
   ∃ s', ReadHexString file hdr s = (src, s') ∧ At file hdr s' rest).
Proof.
  intros Hb. split; intros Hs.
  - destruct (ReadString_spec file hdr s src rest Hs) as (s' & E & Hs' & _). by exists s'.
  - destruct (ReadHexString_spec file hdr s src rest Hb Hs) as (s' & E & Hs' & _). by exists s'.
Qed.

Lemma string_literals_roundtrip_witness :
  PDF_EncodeString [40; 10; 92] = [40; 92; 40; 92; 110; 92; 92; 41] ∧
  ∃ s', ReadString (PDF_EncodeString [40; 10; 92]) 0 (at_pos 1 syntax_new) = ([40; 10; 92], s') ∧
        At (PDF_EncodeString [40; 10; 92]) 0 s' [].
Proof.
  split; [reflexivity|].
  apply (proj1 (string_literals_roundtrip (PDF_EncodeString [40; 10; 92]) 0 (at_pos 1 syntax_new)
    [40; 10; 92] [] ltac:(solve_bytes))).
  split; [reflexivity|]. split; [vm_compute; discriminate|reflexivity].
Defined.
