(* ===== verification/Objects.v ===== *)
(** * PDF objects: data, text and parser

    The object classes of [core/fpdfapi/parser/cpdf_*.h], their text
    ([operator<<] of [fpdf_parser_utility.cpp]) and the parser:
    [GetObjectBodyInternal], [ReadStream] and [GetIndirectObject] of
    [cpdf_syntax_parser.cpp]. *)
From S2P Require Import Prelude Words CharTypes TextString FxNumber Syntax.

(** A child that is not inline, that is one with an object number of its own, is
    [CPDF_Indirect]. *)
Inductive CPDF_Object :=
  | CPDF_Null
  | CPDF_Boolean (m_bValue : bool)
  | CPDF_Number (m_Number : FX_Number)
  | CPDF_String (m_String : list Z) (m_bHex : bool)
  | CPDF_Name (m_Name : list Z)
  | CPDF_Reference (m_RefObjNum : Z)
  | CPDF_Array (m_Objects : list CPDF_Object)
  | CPDF_Dictionary (m_Map : list (list Z * CPDF_Object))
  | CPDF_Stream (m_pDict : list (list Z * CPDF_Object)) (data : list Z)
  | CPDF_Indirect (objnum : Z).

Definition dict := list (list Z * CPDF_Object).

(** [ByteString::operator<]: [memcmp], and a proper prefix comes first. *)
Fixpoint bytes_lt (a b : list Z) : bool :=
  match a, b with
  | _, [] => false
  | [], _ :: _ => true
  | x :: a', y :: b' => (x <? y) || ((x =? y) && bytes_lt a' b')
  end.

(** The [std::map] of a dictionary, in its order. *)
Fixpoint SetFor (key : list Z) (obj : CPDF_Object) (m : dict) : dict :=
  match m with
  | [] => [(key, obj)]
  | (k, o) :: m' =>
      if bytes_lt key k then (key, obj) :: m
      else if bytes_lt k key then (k, o) :: SetFor key obj m'
      else (k, obj) :: m'
  end.

Fixpoint GetObjectFor (key : list Z) (m : dict) : option CPDF_Object :=
  match m with
  | [] => None
  | (k, o) :: m' => if bool_decide (k = key) then Some o else GetObjectFor key m'
  end.

(** ** Text *)
Definition str_null : list Z := [110; 117; 108; 108].
Definition str_true : list Z := [116; 114; 117; 101].
Definition str_false : list Z := [102; 97; 108; 115; 101].
Definition str_stream : list Z := [115; 116; 114; 101; 97; 109].
Definition str_R : list Z := [82].

(** [" <objnum> 0 R"] *)
Definition print_ref (objnum : Z) : list Z := 32 :: dec_digits 10 objnum ++ [32; 48; 32; 82].

Fixpoint print (o : CPDF_Object) : list Z :=
  match o with
  | CPDF_Null => 32 :: str_null
  | CPDF_Boolean b => 32 :: (if b then str_true else str_false)
  | CPDF_Number n => 32 :: NumberGetString n
  | CPDF_String str hex => if hex then PDF_HexEncodeString str else PDF_EncodeString str
  | CPDF_Name str => 47 :: PDF_NameEncode str
  | CPDF_Reference n | CPDF_Indirect n => print_ref n ++ [32]
  | CPDF_Array l =>
      91 :: flat_map (λ o, match o with CPDF_Indirect n => print_ref n | _ => print o end) l ++ [93]
  | CPDF_Dictionary m =>
      [60; 60] ++ flat_map (λ '(k, v), 47 :: PDF_NameEncode k ++ print v) m ++ [62; 62]
  | CPDF_Stream m data =>
      [60; 60] ++ flat_map (λ '(k, v), 47 :: PDF_NameEncode k ++ print v) m ++ [62; 62] ++
      str_stream ++ [13; 10] ++ data ++ [13; 10] ++ kEndStreamStr
  end.

(** ** The parser *)
Inductive ParseType := kStrict | kLoose.
Definition is_loose (t : ParseType) : bool := match t with kLoose => true | kStrict => false end.

Definition kParserMaxRecursionDepth : nat := 64.
Definition kInvalidObjNum : Z := 2 ^ 32 - 1.

Section parser.
Context (file : list Z) (m_HeaderOffset : Z).

(** [GetOrParseIndirectObject] of the object holder. *)
Context (holder : Z → option CPDF_Object).

Notation GetNextWord := (GetNextWord file m_HeaderOffset).
Notation GetNextWordInternal := (GetNextWordInternal file m_HeaderOffset).
Notation SetPos := (SetPos file).

Definition GetDirect (o : CPDF_Object) : option CPDF_Object :=
  match o with
  | CPDF_Reference n | CPDF_Indirect n => holder n
  | _ => Some o
  end.

(** The integer of [ToNumber(pDict->GetDirectObjectFor("Length"))], -1 if there
    is no such number. *)
Definition str_Length : list Z := [76; 101; 110; 103; 116; 104].
Definition stream_length (m : dict) : Z :=
  match GetObjectFor str_Length m with
  | Some o => match GetDirect o with Some (CPDF_Number n) => GetSigned n | _ => -1 end
  | None => -1
  end.

(** [memset(m_WordBuffer, 0, n)] *)
Definition clear_buffer (n : nat) (s : syntax) : syntax :=
  Syntax (m_Pos s) (replicate n 0 ++ drop n (m_WordBuffer s)) (m_WordSize s).

(** [memcmp(m_WordBuffer, str, len)] *)
Definition buffer_starts (str : list Z) (s : syntax) : bool :=
  bool_decide (take (length str) (m_WordBuffer s) = str).

(** The part of [ReadStream] that tries the length of the dictionary: the data
    it points to, or -1 for the length. *)
Definition stream_by_length (len : Z) (s : syntax) : Z * list Z * syntax :=
  let streamStartPos := m_Pos s in
  let len := if (0 <? len) && (m_FileLen file <=? m_Pos s + len) then -1 else len in
  if len <? 0 then (-1, [], s)
  else
    let data := take (Z.to_nat len) (suffix file m_HeaderOffset (m_Pos s)) in
    let s := if 0 <? len then SetPos (m_Pos s + len) s else s in
    let s := at_pos (m_Pos s + ReadEOLMarkers file m_HeaderOffset (m_Pos s)) s in
    let s := (GetNextWordInternal (clear_buffer 10 s)).2 in
    if buffer_starts kEndStreamStr s then (len, data, s)
    else (-1, [], SetPos streamStartPos s).

(** [while (GetNextChar(ch))] behind the last word of a stream: the position
    after the loop. *)
Fixpoint skip_blanks (rest : list Z) (pos : Z) : Z :=
  match rest with
  | [] => pos
  | ch :: rest =>
      if negb (PDFCharIsWhitespace ch) || PDFCharIsLineEnding ch then pos + 1
      else skip_blanks rest (pos + 1)
  end.

Definition stream_end (s : syntax) : syntax :=
  let end_stream_offset := m_Pos s in
  let s := (GetNextWordInternal (clear_buffer 7 s)).2 in
  let pos := skip_blanks (suffix file m_HeaderOffset (m_Pos s)) (m_Pos s) in
  let s := SetPos (pos - 1) s in
  if (m_WordSize s =? zlen kEndObjStr) && negb (ReadEOLMarkers file m_HeaderOffset (m_Pos s) =? 0) &&
     buffer_starts kEndObjStr s
  then SetPos end_stream_offset s else s.

Definition ReadStream (m : dict) (s : syntax) : option CPDF_Object * syntax :=
  let s := ToNextLine file m_HeaderOffset s in
  let streamStartPos := m_Pos s in
  let '(len, data, s) := stream_by_length (stream_length m) s in
  let r :=
    if len <? 0 then
      let streamEndPos := FindStreamEndPos file m_HeaderOffset s in
      if streamEndPos <? 0 then (None, s)
      else
        let len := streamEndPos - streamStartPos in
        if 0 <? len then
          let s := SetPos streamStartPos s in
          (Some (len, take (Z.to_nat len) (suffix file m_HeaderOffset (m_Pos s))), SetPos (m_Pos s + len) s)
        else (Some (len, []), s)
    else (Some (len, data), s) in
  match r with
  | (None, s) => (None, s)
  | (Some (len, data), s) =>
      (Some (CPDF_Stream (SetFor str_Length (CPDF_Number (FxSigned len)) m) data), stream_end s)
  end.

(** A word that is a number: the number itself, or the reference it starts. *)
Definition number_or_reference (word : list Z) (s : syntax) : option CPDF_Object * syntax :=
  let saved := m_Pos s in
  let number := Some (CPDF_Number (FX_Number_of word)) in
  let '(_, is_number, s) := GetNextWord s in
  if negb is_number then (number, at_pos saved s)
  else
    let '(word2, _, s) := GetNextWord s in
    if bool_decide (word2 = str_R) then
      let refnum := FXSYS_atoui word in
      (if refnum =? kInvalidObjNum then None else Some (CPDF_Reference refnum), s)
    else (number, at_pos saved s).

(** [GetObjectBodyInternal]: [depth] recursive calls are left.  The loops over
    the elements of an array and the entries of a dictionary end after at most
    [loop] rounds, or the result is [None]. *)
Section body.
Context (loop : nat).

(** The loops, with the recursive call [get]. *)
Fixpoint array_loop (get : syntax → option (option CPDF_Object * syntax)) (n : nat)
    (l : list CPDF_Object) (s : syntax) : option (list CPDF_Object * syntax) :=
  match n with
  | O => None
  | S n' =>
      r ← get s;
      match r with
      | (Some o, s) => array_loop get n' (l ++ [o]) s
      | (None, s) => Some (l, s)
      end
  end.

(** The dictionary's entries; the inner result is [None] where the code returns
    [nullptr]. *)
Fixpoint dict_loop (get : syntax → option (option CPDF_Object * syntax)) (parse_type : ParseType)
    (n : nat) (m : dict) (s : syntax) : option (option dict * syntax) :=
  match n with
  | O => None
  | S n' =>
      let '(inner_word, _, s) := GetNextWord s in
      match inner_word with
      | [] => Some (None, s)
      | c :: _ =>
          let SavedPos := m_Pos s - zlen inner_word in
          if bool_decide (inner_word = [62; 62]) then Some (Some m, s)
          else if bool_decide (inner_word = kEndObjStr) then Some (Some m, at_pos SavedPos s)
          else if negb (c =? 47) then dict_loop get parse_type n' m s
          else
            let key := PDF_NameDecode inner_word in
            if (zlen key =? 0) && is_loose parse_type then dict_loop get parse_type n' m s
            else
              r ← get s;
              match r with
              | (None, s) =>
                  if is_loose parse_type then dict_loop get parse_type n' m s
                  else Some (None, ToNextLine file m_HeaderOffset s)
              | (Some o, s) =>
                  dict_loop get parse_type n' (if 1 <? zlen key then SetFor (drop 1 key) o m else m) s
              end
      end
  end.

Fixpoint get_object (depth : nat) (parse_type : ParseType) (s : syntax) :
    option (option CPDF_Object * syntax) :=
  match depth with
  | O => Some (None, s)
  | S depth' =>
      let SavedObjPos := m_Pos s in
      let '(word, is_number, s) := GetNextWord s in
      match word with
      | [] => Some (None, s)
      | c :: _ =>
          if is_number then Some (number_or_reference word s)
          else if bool_decide (word = str_true) || bool_decide (word = str_false)
          then Some (Some (CPDF_Boolean (bool_decide (word = str_true))), s)
          else if bool_decide (word = str_null) then Some (Some CPDF_Null, s)
          else if bool_decide (word = [40]) then
            let '(str, s) := ReadString file m_HeaderOffset s in Some (Some (CPDF_String str false), s)
          else if bool_decide (word = [60]) then
            let '(str, s) := ReadHexString file m_HeaderOffset s in Some (Some (CPDF_String str true), s)
          else if bool_decide (word = [91]) then
            r ← array_loop (get_object depth' kLoose) loop [] s;
            let '(l, s) := r in
            Some (if is_loose parse_type || ((m_WordBuffer s).[0] =? 93) then Some (CPDF_Array l) else None, s)
          else if c =? 47 then
            Some (Some (CPDF_Name (PDF_NameDecode (subspan (m_WordBuffer s) 1 (Z.to_nat (m_WordSize s - 1))))), s)
          else if bool_decide (word = [60; 60]) then
            r ← dict_loop (get_object depth' kLoose) parse_type loop [] s;
            match r with
            | (None, s) => Some (None, s)
            | (Some m, s) =>
                let '(word, _, s') := GetNextWord s in
                if bool_decide (word = str_stream) then Some (ReadStream m s')
                else Some (Some (CPDF_Dictionary m), at_pos (m_Pos s) s')
            end
          else if bool_decide (word = [62; 62]) then Some (None, at_pos SavedObjPos s)
          else Some (None, s)
      end
  end.
End body.

Definition GetObjectBodyInternal (parse_type : ParseType) (s : syntax) :
    option (option CPDF_Object * syntax) :=
  get_object (S (length file)) kParserMaxRecursionDepth parse_type s.

Definition GetObjectBody (s : syntax) : option (option CPDF_Object * syntax) :=
  GetObjectBodyInternal kLoose s.

(** [GetIndirectObject]: object number, generation number and object. *)
Definition str_obj : list Z := [111; 98; 106].
Definition GetIndirectObject (parse_type : ParseType) (s : syntax) :
    option (option (Z * Z * CPDF_Object) * syntax) :=
  let saved_pos := m_Pos s in
  let '(w1, n1, s) := GetNextWord s in
  if negb n1 || (zlen w1 =? 0) then Some (None, SetPos saved_pos s)
  else
    let '(w2, n2, s) := GetNextWord s in
    if negb n2 || (zlen w2 =? 0) then Some (None, SetPos saved_pos s)
    else
      let '(w3, s) := GetKeyword file m_HeaderOffset s in
      if negb (bool_decide (w3 = str_obj)) then Some (None, SetPos saved_pos s)
      else
        r ← GetObjectBodyInternal parse_type s;
        match r with
        | (Some o, s) => Some (Some (FXSYS_atoui w1, FXSYS_atoui w2, o), s)
        | (None, s) => Some (None, s)
        end.

Definition GetDirectNum (s : syntax) : Z * syntax :=
  let '(number, s) := GetNextWordInternal s in
  (if number then FXSYS_atoui (word_of s) else 0, s).
End parser.
