(* ===== verification/ObjectText.v ===== *)
(** * The parser reads what is printed

    [operator<<] and [GetObjectBodyInternal] against each other: every object,
    however nested up to the recursion limit, is read back. *)
From Stdlib Require Import SpecFloat Sorted.
From S2P Require Import Prelude Words CharTypes Filters TextString FxNumber Syntax Objects.

(** ** Tokens *)
Lemma name_stop_word ch : name_stop ch = word_stop ch.
Proof.
  unfold name_stop, word_stop, PDFCharIsOther, PDFCharIsNumeric, PDFCharIsDelimiter, PDFCharIsWhitespace.
  by destruct (char_type_of ch).
Qed.

(** A token ends here. *)
Definition boundary (l : list Z) : Prop := match l with c :: _ => word_stop c = true | [] => True end.
Lemma boundary_space l : boundary (32 :: l).
Proof. reflexivity. Qed.
#[local] Hint Resolve boundary_space : core.
Definition regular (w : list Z) : Prop := Forall (λ c, word_stop c = false) w.

Lemma strip_regular c l : word_stop c = false → strip (c :: l) = c :: l.
Proof.
  intros Hc. apply strip_word.
  - unfold word_stop in Hc. by apply orb_false_elim in Hc as [_ Hc].
  - destruct (Z.eqb_spec c 37) as [->|]; [vm_compute in Hc; discriminate Hc|done].
Qed.

Lemma take_small {A} (l : list A) n : (length l <= n)%nat → take n l = l.
Proof. apply take_ge. Qed.

Lemma lex_space l : lex (32 :: l) = lex l.
Proof. unfold lex. by rewrite strip_space. Qed.

Lemma lex_word w r :
  regular w → w ≠ [] → zlen w <= 256 → boundary r → lex (w ++ r) = (w, forallb PDFCharIsNumeric w, r).
Proof.
  intros Hw Hne Hlen Hr. destruct w as [|c w]; [done|]. inversion Hw as [|? ? Hc Hw']; subst.
  unfold lex. cbn [app]. rewrite strip_regular by done.
  pose proof Hc as Hc'. unfold word_stop in Hc'. apply orb_false_elim in Hc' as [-> _].
  rewrite (span_full _ w r) by done. rewrite take_small by (unfold zlen in Hlen; lia). done.
Qed.

Lemma lex_name n r :
  regular n → zlen n <= 255 → boundary r → lex (47 :: n ++ r) = (47 :: n, false, r).
Proof.
  intros Hn Hlen Hr. unfold lex. rewrite strip_word by done.
  change (PDFCharIsDelimiter 47) with true. cbn [Z.eqb Pos.eqb].
  rewrite (span_full _ n r).
  - rewrite take_small by (unfold zlen in Hlen; cbn [length]; lia). done.
  - eapply Forall_impl; [exact Hn|]. intros c Hc. by rewrite name_stop_word.
  - destruct r; [done|]. by rewrite name_stop_word.
Qed.

Lemma lex_slash l : ∃ w, (lex (47 :: l)).1 = (47 :: w, false).
Proof.
  unfold lex. rewrite strip_word by done. change (PDFCharIsDelimiter 47) with true. cbn [Z.eqb Pos.eqb].
  destruct (span name_stop l) as [w r]. by exists (take 255 w).
Qed.

Lemma lex_delim c l : c = 40 ∨ c = 91 ∨ c = 93 → lex (c :: l) = ([c], false, l).
Proof. intros [->|[->| ->]]; unfold lex; rewrite strip_word by done; by destruct l. Qed.

Lemma lex_angle c d l :
  c = 60 ∨ c = 62 → lex (c :: d :: l) = if c =? d then ([c; d], false, l) else ([c], false, d :: l).
Proof.
  intros [->| ->]; unfold lex; rewrite strip_word by done.
  - change (PDFCharIsDelimiter 60) with true. destruct (Z.eqb_spec 60 d) as [<-|Hne]; [done|].
    cbn [Z.eqb Pos.eqb andb orb]. by replace (d =? 60) with false by lia.
  - change (PDFCharIsDelimiter 62) with true. destruct (Z.eqb_spec 62 d) as [<-|Hne]; [done|].
    cbn [Z.eqb Pos.eqb andb orb]. by replace (d =? 62) with false by lia.
Qed.

(** The next two words do not continue what was just read. *)
Definition safe (l : list Z) : Prop :=
  boundary l ∧ (lex l).1.1 ≠ str_stream ∧ (lex l).1.1 ≠ str_R ∧
  ((lex l).1.2 = true → (lex (lex l).2).1.1 ≠ str_R).

Lemma safe_nil : safe [].
Proof. by split_and!. Qed.
Lemma safe_array_end l : safe (93 :: l).
Proof. unfold safe. rewrite lex_delim by auto. by split_and!. Qed.
Lemma safe_dict_end l : safe (62 :: 62 :: l).
Proof. unfold safe. rewrite lex_angle by auto. by split_and!. Qed.
Lemma safe_slash l : safe (47 :: l).
Proof.
  unfold safe. destruct (lex_slash l) as [w E]. destruct (lex (47 :: l)) as [[word num] r].
  cbn in *. injection E as -> ->. by split_and!.
Qed.

(** ** Numbers *)
Definition numeric_text (w : list Z) : Prop :=
  w ≠ [] ∧ Forall (λ c, PDFCharIsNumeric c = true) w ∧ zlen w <= 20.

Lemma numeric_digit d : 0 <= d < 10 → PDFCharIsNumeric (48 + d) = true.
Proof.
  intros Hd. assert (H : d ∈ seqZ 0 10) by (apply elem_of_seqZ; lia). vm_compute in H.
  repeat (apply elem_of_cons in H as [->|H]; [done|]). by apply not_elem_of_nil in H.
Qed.

Lemma numeric_dec fuel : ∀ n,
  Forall (λ c, PDFCharIsNumeric c = true) (dec_digits fuel n) ∧ (length (dec_digits fuel n) <= fuel)%nat.
Proof.
  induction fuel as [|fuel IH]; intros n; cbn [dec_digits]; [by split; [constructor|]|].
  rewrite length_app. cbn [length]. destruct (IH (n / 10)) as [H1 H2].
  split; [|case_match; cbn [length]; lia].
  apply Forall_app; split; [by case_match|]. apply Forall_singleton, numeric_digit, Z.mod_pos_bound. lia.
Qed.

Lemma numeric_Format i : FormatInteger i ≠ [] ∧ Forall (λ c, PDFCharIsNumeric c = true) (FormatInteger i) ∧
  (length (FormatInteger i) <= 11)%nat.
Proof.
  unfold FormatInteger. destruct (numeric_dec 10 (- i)) as [H1 H2], (numeric_dec 10 i) as [H3 H4].
  destruct (i <? 0).
  - split_and!; [done|by constructor|cbn [length]; lia].
  - split_and!; [|done|lia]. cbn [dec_digits]. destruct (i <? 10); [done|].
    intros E. apply app_eq_nil in E as [_ E]. done.
Qed.

Lemma numeric_frac fuel : ∀ fraction k,
  0 <= fraction < 10 ^ (Z.of_nat k + 1) →
  Forall (λ c, PDFCharIsNumeric c = true) (float_digits fuel fraction (10 ^ Z.of_nat k)) ∧
  (length (float_digits fuel fraction (10 ^ Z.of_nat k)) <= fuel)%nat.
Proof.
  induction fuel as [|fuel IH]; intros fraction k Hf; cbn [float_digits]; [by split; [constructor|]|].
  destruct (fraction =? 0); [cbn; split; [constructor|lia]|].
  rewrite Z.pow_add_r in Hf by lia.
  assert (Hd : 0 <= fraction / 10 ^ Z.of_nat k < 10).
  { split; [apply Z.div_pos; lia|apply Z.div_lt_upper_bound; lia]. }
  destruct k as [|k].
  - change (10 ^ Z.of_nat 0) with 1 in *. rewrite Z.mod_1_r. destruct fuel; cbn [float_digits Z.eqb length];
      (split; [apply Forall_singleton, numeric_digit, Hd|lia]).
  - replace (10 ^ Z.of_nat (S k) / 10) with (10 ^ Z.of_nat k).
    + destruct (IH (fraction mod 10 ^ Z.of_nat (S k)) k) as [H1 H2].
      { replace (Z.of_nat k + 1) with (Z.of_nat (S k)) by lia. apply Z.mod_pos_bound. lia. }
      cbn [length]. split; [constructor; [apply numeric_digit, Hd|done]|lia].
    + rewrite Nat2Z.inj_succ, Z.pow_succ_r, Z.mul_comm, Z.div_mul by lia. done.
Qed.

Lemma float_scale_pow fuel value : ∀ k scaled, (k <= 6)%nat →
  ∃ k', (float_scale fuel value (10 ^ Z.of_nat k) scaled).1 = 10 ^ Z.of_nat k' ∧ (k' <= 6)%nat.
Proof.
  induction fuel as [|fuel IH]; intros k scaled Hk; cbn [float_scale]; [by exists k|].
  destruct (Z.eqb_spec (10 ^ Z.of_nat k) 1000000) as [E|E]; rewrite ?andb_false_r; [by exists k|].
  destruct ((scaled <? 100000) && _); [|by exists k].
  replace (10 ^ Z.of_nat k * 10) with (10 ^ Z.of_nat (S k))
    by (rewrite Nat2Z.inj_succ, Z.pow_succ_r by lia; lia).
  apply IH. assert (k ≠ 6%nat) by (intros ->; done). lia.
Qed.

Lemma numeric_Float f : numeric_text (FloatToString f).
Proof.
  assert (H0 : numeric_text [48]) by (split_and!; [done|by apply Forall_singleton|done]).
  unfold FloatToString. destruct (SFeqb f _); [done|].
  set (v := if SFltb f (S754_zero false) then SFopp f else f).
  destruct (float_scale_pow 7 v 0 (FXSYS_roundf v) ltac:(lia)) as (k & Hk & _). change (10 ^ Z.of_nat 0) with 1 in Hk.
  destruct (float_scale 7 v 1 (FXSYS_roundf v)) as [scale scaled]. cbn in Hk. subst scale.
  destruct (scaled =? 0); [done|]. set (fraction := scaled mod _).
  assert (Hf : 0 <= fraction < 10 ^ Z.of_nat k) by (apply Z.mod_pos_bound; lia).
  destruct (numeric_Format (scaled / 10 ^ Z.of_nat k)) as (N1 & N2 & N3).
  assert (Hfr : Forall (λ c, PDFCharIsNumeric c = true)
      (if fraction =? 0 then [] else 46 :: float_digits 7 fraction (10 ^ Z.of_nat k / 10)) ∧
    zlen (if fraction =? 0 then [] else 46 :: float_digits 7 fraction (10 ^ Z.of_nat k / 10)) <= 8).
  { destruct (Z.eqb_spec fraction 0) as [E|E]; [by split; [constructor|]|].
    destruct k as [|k]; [change (10 ^ Z.of_nat 0) with 1 in Hf; lia|].
    replace (10 ^ Z.of_nat (S k) / 10) with (10 ^ Z.of_nat k)
      by (rewrite Nat2Z.inj_succ, Z.pow_succ_r, Z.mul_comm, Z.div_mul by lia; done).
    destruct (numeric_frac 7 fraction k) as [F1 F2].
    { by replace (Z.of_nat k + 1) with (Z.of_nat (S k)) by lia. }
    split; [by constructor|unfold zlen; cbn [length]; lia]. }
  destruct Hfr as [F1 F2]. split_and!.
  - intros E. apply app_eq_nil in E as [_ E]. apply app_eq_nil in E as [E _]. done.
  - apply Forall_app; split; [destruct (SFltb f (S754_zero false)); by repeat constructor|]. by apply Forall_app.
  - rewrite !zlen_app. unfold zlen in *. destruct (SFltb _ _); cbn [length]; lia.
Qed.

Lemma numeric_GetString n : numeric_text (NumberGetString n).
Proof.
  unfold NumberGetString. case_match; [|apply numeric_Float].
  destruct (numeric_Format (GetSigned n)) as (N1 & N2 & N3). split_and!; [done..|unfold zlen; lia].
Qed.

Lemma numeric_regular w : Forall (λ c, PDFCharIsNumeric c = true) w → regular w.
Proof.
  intros Hw. eapply Forall_impl; [exact Hw|]. intros c. cbv beta.
  unfold PDFCharIsNumeric, word_stop, PDFCharIsDelimiter, PDFCharIsWhitespace.
  by destruct (char_type_of c).
Qed.

Lemma numeric_forallb w : Forall (λ c, PDFCharIsNumeric c = true) w → forallb PDFCharIsNumeric w = true.
Proof. induction 1 as [|c w Hc _ IH]; [done|]. cbn. by rewrite Hc, IH. Qed.

Lemma lex_number w r : numeric_text w → boundary r → lex (w ++ r) = (w, true, r).
Proof.
  intros (Hne & Hw & Hlen) Hr. rewrite lex_word by (try apply numeric_regular; done || lia).
  by rewrite numeric_forallb.
Qed.

Lemma numeric_not w : numeric_text w → w ≠ str_stream ∧ w ≠ str_R.
Proof. intros (_ & Hw & _). split; intros ->; inversion Hw; done. Qed.

(** ** Objects that can be written

    [obj_ok d o]: with [d] recursive calls left, [o] is read back.  The keys of a
    dictionary are in the order of its map. *)
Definition name_ok (n : list Z) : Prop := bytes n ∧ zlen (PDF_NameEncode n) <= 255.
Definition key_lt (a b : list Z * CPDF_Object) : Prop := bytes_lt a.1 b.1 = true.
Definition ref_ok (n : Z) : Prop := 0 <= n < kInvalidObjNum.

Fixpoint obj_ok (d : nat) (o : CPDF_Object) : Prop :=
  match d with
  | O => False
  | S d' =>
      match o with
      | CPDF_Null | CPDF_Boolean _ | CPDF_Number _ => True
      | CPDF_String str hex => bytes str
      | CPDF_Name n => name_ok n
      | CPDF_Reference n | CPDF_Indirect n => ref_ok n
      | CPDF_Array l => d' ≠ 0%nat ∧ Forall (obj_ok d') l
      | CPDF_Dictionary m =>
          StronglySorted key_lt m ∧ Forall (λ kv, kv.1 ≠ [] ∧ name_ok kv.1 ∧ obj_ok d' kv.2) m
      | CPDF_Stream _ _ => False
      end
  end.

Lemma obj_ok_mono d : ∀ d' o, (d <= d')%nat → obj_ok d o → obj_ok d' o.
Proof.
  induction d as [|d IH]; intros [|d'] o Hd Hok; [done..|lia|].
  destruct o; cbn [obj_ok] in *; try done.
  - destruct Hok as [Hne Hok]. split; [lia|]. eapply Forall_impl; [exact Hok|].
    intros x Hx. apply IH; [lia|done].
  - destruct Hok as [Hsort Hok]. split; [done|]. eapply Forall_impl; [exact Hok|].
    intros x (H1 & H2 & H3). split_and!; [done..|]. apply IH; [lia|done].
Qed.

(** What is read: a number as its text says, and a reference for a child that is
    not inline. *)
Fixpoint as_read (o : CPDF_Object) : CPDF_Object :=
  match o with
  | CPDF_Number n => CPDF_Number (FX_Number_of (NumberGetString n))
  | CPDF_Indirect n => CPDF_Reference n
  | CPDF_Array l => CPDF_Array (map as_read l)
  | CPDF_Dictionary m => CPDF_Dictionary (map (λ '(k, v), (k, as_read v)) m)
  | o => o
  end.

(** An element of an array is printed without the last space of a reference. *)
Definition print_elem (o : CPDF_Object) : list Z :=
  match o with CPDF_Indirect n => print_ref n | _ => print o end.
Definition print_entry (kv : list Z * CPDF_Object) : list Z := 47 :: PDF_NameEncode kv.1 ++ print kv.2.

Lemma print_array l : print (CPDF_Array l) = 91 :: flat_map print_elem l ++ [93].
Proof. done. Qed.
Lemma print_dict m : print (CPDF_Dictionary m) = 60 :: 60 :: flat_map print_entry m ++ [62; 62].
Proof.
  cbn [print app]. do 2 f_equal. f_equal. apply flat_map_ext. by intros [k v].
Qed.

Lemma numeric_ref n : ref_ok n → numeric_text (dec_digits 10 n) ∧ FXSYS_atoui (dec_digits 10 n) = n.
Proof.
  unfold ref_ok, kInvalidObjNum. intros Hn.
  assert (E : FormatInteger n = dec_digits 10 n) by (unfold FormatInteger; by replace (n <? 0) with false by lia).
  rewrite <-E. split; [|apply atoui_Format; unfold UINT_MAX; lia].
  destruct (numeric_Format n) as (N1 & N2 & N3). split_and!; [done..|unfold zlen; lia].
Qed.

Lemma print_ref_app n r : print_ref n ++ r = 32 :: dec_digits 10 n ++ 32 :: 48 :: 32 :: 82 :: r.
Proof. unfold print_ref. cbn [app]. by rewrite <-app_assoc. Qed.

Lemma lex_zero r : lex (32 :: 48 :: 32 :: r) = ([48], true, 32 :: r).
Proof. rewrite lex_space. apply (lex_number [48] (32 :: r)); [|done].
  split_and!; [done|by repeat constructor|done].
Qed.

Lemma lex_R r : boundary r → lex (32 :: 82 :: r) = (str_R, false, r).
Proof. intros Hr. rewrite lex_space. by apply (lex_word [82] r); [repeat constructor| | |]. Qed.

Lemma safe_ref n r : ref_ok n → safe (print_ref n ++ r).
Proof.
  intros Hn. destruct (numeric_ref n Hn) as [Hw _]. destruct (numeric_not _ Hw) as [H1 H2].
  rewrite print_ref_app. unfold safe. rewrite lex_space, lex_number by done. cbn [fst snd].
  rewrite lex_zero. by split_and!.
Qed.

Lemma safe_number n r : safe r → safe (32 :: NumberGetString n ++ r).
Proof.
  intros (H1 & H2 & H3 & H4). pose proof (numeric_GetString n) as Hw.
  destruct (numeric_not _ Hw) as [N1 N2].
  unfold safe. rewrite lex_space, lex_number by done. by split_and!.
Qed.

Lemma safe_token w r :
  regular w → w ≠ [] → zlen w <= 256 → boundary r → w ≠ str_stream → w ≠ str_R →
  forallb PDFCharIsNumeric w = false → safe (32 :: w ++ r).
Proof. intros. unfold safe. rewrite lex_space, lex_word by done. cbn. by rewrite H5. Qed.

Lemma regular_true : regular str_true ∧ regular str_false ∧ regular str_null.
Proof. split_and!; by repeat constructor. Qed.

(** A hexadecimal string does not look like the start of a dictionary. *)
Lemma hex_text_first str r :
  bytes str → ∃ c k, flat_map (λ ch, FXSYS_IntToTwoHexChars ch) str ++ [62] ++ r = c :: k ∧ c ≠ 60.
Proof.
  intros Hb. destruct str as [|x str]; [by exists 62, r|]. cbn [flat_map FXSYS_IntToTwoHexChars app].
  eexists _, _. split; [done|]. inversion Hb as [|? ? Hx _]; subst. intros E. unfold fits in Hx.
  destruct (hex_digit_facts (x / 16)) as (_ & _ & X & _); [Z.div_mod_to_equations; lia|].
  by rewrite E in X.
Qed.

(** The text of an object can follow anything. *)
Lemma safe_print d o r : obj_ok d o → safe r → safe (print o ++ r) ∧ safe (print_elem o ++ r).
Proof.
  intros Hok Hr. destruct d as [|d]; [done|]. pose proof Hr as [Hb _].
  destruct regular_true as (R1 & R2 & R3).
  assert (H : safe (print o ++ r)); [|split; [done|]; destruct o; try done; by apply safe_ref].
  destruct o as [|b|n|str hex|n|n|l|m|m data|n]; cbn [obj_ok] in Hok; cbn [print]; try contradiction.
  - by apply safe_token.
  - destruct b; by apply safe_token.
  - by apply safe_number.
  - destruct hex; unfold PDF_HexEncodeString, PDF_EncodeString; cbn [app].
    + rewrite <-app_assoc. destruct (hex_text_first str r Hok) as (c & k & -> & Hc).
      unfold safe. rewrite lex_angle by auto.
      replace (60 =? c) with false by lia. by split_and!.
    + rewrite <-app_assoc. unfold safe. rewrite lex_delim by auto. by split_and!.
  - apply safe_slash.
  - rewrite <-app_assoc. by apply safe_ref.
  - unfold safe. cbn [app]. rewrite lex_delim by auto. by split_and!.
  - unfold safe. rewrite <-!app_assoc. cbn [app]. rewrite lex_angle by auto. by split_and!.
  - rewrite <-app_assoc. by apply safe_ref.
Qed.

Lemma safe_elems d l r : Forall (obj_ok d) l → safe r → safe (flat_map print_elem l ++ r).
Proof.
  intros Hl Hr. induction Hl as [|o l Ho _ IH]; [done|]. cbn [flat_map]. rewrite <-app_assoc.
  by apply (safe_print d).
Qed.

Lemma safe_entries m r : safe r → safe (flat_map print_entry m ++ r).
Proof. intros Hr. destruct m as [|kv m]; [done|]. apply safe_slash. Qed.

Lemma key_lt_asym a b : bytes_lt a b = true → bytes_lt b a = false.
Proof.
  revert b. induction a as [|x a IH]; intros [|y b]; cbn; [done..|].
  intros H. apply orb_prop in H as [H|H].
  - apply Z.ltb_lt in H. replace (y <? x) with false by lia. by replace (y =? x) with false by lia.
  - apply andb_prop in H as [E H]. apply Z.eqb_eq in E as ->. rewrite Z.ltb_irrefl, Z.eqb_refl.
    cbn. by apply IH.
Qed.

Lemma SetFor_last m k v : Forall (λ kv, bytes_lt kv.1 k = true) m → SetFor k v m = m ++ [(k, v)].
Proof.
  induction 1 as [|[k' o] m Hk _ IH]; [done|]. cbn [SetFor app]. cbn in Hk.
  by rewrite (key_lt_asym _ _ Hk), Hk, IH.
Qed.

(** ** Reading back *)
Section roundtrip.
Context (file : list Z) (hdr : Z) (holder : Z → option CPDF_Object) (loop : nat).
Notation get := (get_object file hdr holder loop).

(** Before [l], or one space before it. *)
Definition Near (s : syntax) (l : list Z) : Prop := At file hdr s l ∨ At file hdr s (32 :: l).

(** One word from there. *)
Lemma Near_word s l w num r :
  Near s l → lex l = (w, num, r) →
  ∃ s', GetNextWord file hdr s = (w, num, s') ∧ At file hdr s' r ∧
    match w with c :: _ => content (m_WordBuffer s', m_WordSize s') w | [] => True end.
Proof.
  intros Hs El. assert (H : ∃ l', At file hdr s l' ∧ lex l' = (w, num, r)).
  { destruct Hs; [by exists l|]. exists (32 :: l). by rewrite lex_space. }
  destruct H as (l' & Hs' & El'). pose proof (GetNextWord_lex file hdr s l' Hs') as H. rewrite El' in H.
  destruct H as (s' & E & Ha & _ & _ & Hc). exists s'. split_and!; [done..|]. by destruct w.
Qed.

(** The lookahead puts the position back but not the buffer. *)
Lemma At_back s s' l : At file hdr s l → length (m_WordBuffer s') = 257%nat → At file hdr (at_pos (m_Pos s) s') l.
Proof. intros (H1 & H2 & _) Hb. by split_and!. Qed.

Lemma At_buffer s l : At file hdr s l → length (m_WordBuffer s) = 257%nat.
Proof. by intros (_ & _ & H). Qed.

Lemma number_spec w s r :
  At file hdr s r → safe r →
  ∃ s', number_or_reference file hdr w s = (Some (CPDF_Number (FX_Number_of w)), s') ∧ At file hdr s' r.
Proof.
  intros Hs (_ & _ & _ & Hsafe). unfold number_or_reference.
  destruct (lex r) as [[w1 n1] r1] eqn:E1. cbn in Hsafe.
  destruct (Near_word s r w1 n1 r1) as (s1 & -> & Hs1 & _); [by left|done|].
  destruct n1; cbn [negb]; [|eexists; split; [done|]; apply At_back; [done|by eapply At_buffer]].
  destruct (lex r1) as [[w2 n2] r2] eqn:E2. cbn in Hsafe.
  destruct (Near_word s1 r1 w2 n2 r2) as (s2 & -> & Hs2 & _); [by left|done|].
  rewrite bool_decide_eq_false_2 by auto. eexists. split; [done|].
  apply At_back; [done|by eapply At_buffer].
Qed.

Lemma reference_spec n s r :
  ref_ok n → boundary r → At file hdr s (32 :: 48 :: 32 :: 82 :: r) →
  ∃ s', number_or_reference file hdr (dec_digits 10 n) s = (Some (CPDF_Reference n), s') ∧ At file hdr s' r.
Proof.
  intros Hn Hr Hs. unfold number_or_reference.
  destruct (Near_word s _ _ _ _ (or_introl Hs) (lex_zero _)) as (s1 & -> & Hs1 & _). cbn [negb].
  destruct (Near_word s1 _ _ _ _ (or_introl Hs1) (lex_R r Hr)) as (s2 & -> & Hs2 & _).
  rewrite bool_decide_eq_true_2 by done. destruct (numeric_ref n Hn) as [_ ->].
  unfold ref_ok in Hn. replace (n =? kInvalidObjNum) with false by lia. by exists s2.
Qed.

(** What [get_object] does, given the first word. *)
Lemma get_word d t s l w num r s' :
  Near s l → lex l = (w, num, r) → w ≠ [] → GetNextWord file hdr s = (w, num, s') →
  num = true → get (S d) t s = Some (number_or_reference file hdr w s').
Proof. intros _ _ Hne E ->. cbn [get_object]. rewrite E. by destruct w. Qed.

Definition reads (d : nat) (t : ParseType) (text : list Z) (o : CPDF_Object) : Prop :=
  ∀ s r, safe r → Near s (text ++ r) → ∃ s', get d t s = Some (Some o, s') ∧ Near s' r.

Lemma reads_number d t n : reads (S d) t (32 :: NumberGetString n) (CPDF_Number (FX_Number_of (NumberGetString n))).
Proof.
  intros s r Hr Hs. pose proof (numeric_GetString n) as Hw.
  assert (El : lex ((32 :: NumberGetString n) ++ r) = (NumberGetString n, true, r)).
  { cbn [app]. rewrite lex_space. apply lex_number; [done|apply Hr]. }
  destruct (Near_word s _ _ _ _ Hs El) as (s1 & E1 & Hs1 & _).
  rewrite (get_word d t s _ _ _ _ s1 Hs El (proj1 Hw) E1 eq_refl).
  destruct (number_spec (NumberGetString n) s1 r Hs1 Hr) as (s2 & -> & Hs2).
  exists s2. split; [done|by left].
Qed.

Lemma reads_ref d t n s r :
  ref_ok n → boundary r → Near s (print_ref n ++ r) →
  ∃ s', get (S d) t s = Some (Some (CPDF_Reference n), s') ∧ At file hdr s' r.
Proof.
  intros Hn Hr Hs. destruct (numeric_ref n Hn) as [Hw _]. rewrite print_ref_app in Hs.
  assert (El : lex (32 :: dec_digits 10 n ++ 32 :: 48 :: 32 :: 82 :: r) =
    (dec_digits 10 n, true, 32 :: 48 :: 32 :: 82 :: r)) by (rewrite lex_space; by apply lex_number).
  destruct (Near_word s _ _ _ _ Hs El) as (s1 & E1 & Hs1 & _).
  rewrite (get_word d t s _ _ _ _ s1 Hs El (proj1 Hw) E1 eq_refl).
  destruct (reference_spec n s1 r Hn Hr Hs1) as (s2 & -> & Hs2). by exists s2.
Qed.

Lemma reads_keyword d t w o :
  regular w → zlen w <= 256 → forallb PDFCharIsNumeric w = false →
  (∀ s s1, GetNextWord file hdr s = (w, false, s1) → get (S d) t s = Some (Some o, s1)) →
  w ≠ [] → reads (S d) t (32 :: w) o.
Proof.
  intros Hw Hlen Hn Hget Hne s r Hr Hs.
  assert (El : lex ((32 :: w) ++ r) = (w, false, r)).
  { cbn [app]. rewrite lex_space, lex_word, Hn; [done..|apply Hr]. }
  destruct (Near_word s _ _ _ _ Hs El) as (s1 & E1 & Hs1 & _).
  exists s1. rewrite (Hget s s1 E1). by split; [|left].
Qed.

Lemma reads_name d t n : name_ok n → reads (S d) t (47 :: PDF_NameEncode n) (CPDF_Name n).
Proof.
  intros [Hb Hlen] s r Hr Hs. rewrite PDF_NameEncode_eq in *.
  assert (Hreg : regular (name_escape n)).
  { apply Forall_forall. intros c Hc. destruct (name_escape_no_hash n c Hc Hb) as [H1 H2].
    unfold word_stop. by rewrite H1, H2. }
  assert (El : lex ((47 :: name_escape n) ++ r) = (47 :: name_escape n, false, r)).
  { cbn [app]. apply lex_name; [done..|apply Hr]. }
  destruct (Near_word s _ _ _ _ Hs El) as (s1 & E1 & Hs1 & Hc).
  exists s1. split; [|by left]. cbn [get_object]. rewrite E1. cbn [Z.eqb Pos.eqb].
  rewrite !bool_decide_eq_false_2 by done. do 3 f_equal.
  pose proof Hc as (Hc1 & Hc2 & Hc3). cbn [fst snd] in *.
  assert (E : subspan (m_WordBuffer s1) 1 (Z.to_nat (m_WordSize s1 - 1)) = name_escape n).
  { unfold subspan. destruct (m_WordBuffer s1) as [|x buf]; [done|].
    replace (Z.to_nat (m_WordSize s1)) with (S (Z.to_nat (m_WordSize s1 - 1))) in Hc3.
    - cbn [take drop] in *. rewrite drop_0. by injection Hc3 as _ ->.
    - destruct (decide (m_WordSize s1 = 0)) as [E|E]; [by rewrite E in Hc3|lia]. }
  rewrite E, name_decode_escape by done. done.
Qed.

Lemma reads_string d t str hex :
  bytes str → reads (S d) t (print (CPDF_String str hex)) (CPDF_String str hex).
Proof.
  intros Hb s r Hr Hs. cbn [print] in Hs. destruct hex.
  - assert (El : lex (PDF_HexEncodeString str ++ r) = ([60], false, drop 1 (PDF_HexEncodeString str) ++ r)).
    { unfold PDF_HexEncodeString. cbn [app drop]. rewrite drop_0, <-app_assoc.
      destruct (hex_text_first str r Hb) as (c & k & -> & Hc). rewrite lex_angle by auto. by replace (60 =? c) with false by lia. }
    destruct (Near_word s _ _ _ _ Hs El) as (s1 & E1 & Hs1 & _).
    destruct (ReadHexString_spec file hdr s1 str r Hb Hs1) as (s2 & E2 & Hs2 & _).
    exists s2. split; [|by left]. cbn [get_object]. rewrite E1.
    rewrite !(bool_decide_eq_false_2 (_ = str_true)), !(bool_decide_eq_false_2 (_ = str_false)),
      !(bool_decide_eq_false_2 (_ = str_null)), (bool_decide_eq_false_2 ([60] = [40])) by done.
    cbn [orb]. rewrite bool_decide_eq_true_2 by done. by rewrite E2.
  - assert (El : lex (PDF_EncodeString str ++ r) = ([40], false, drop 1 (PDF_EncodeString str) ++ r)).
    { unfold PDF_EncodeString. cbn [app drop]. rewrite drop_0. by apply lex_delim; auto. }
    destruct (Near_word s _ _ _ _ Hs El) as (s1 & E1 & Hs1 & _).
    destruct (ReadString_spec file hdr s1 str r Hs1) as (s2 & E2 & Hs2 & _).
    exists s2. split; [|by left]. cbn [get_object]. rewrite E1.
    rewrite !(bool_decide_eq_false_2 (_ = str_true)), !(bool_decide_eq_false_2 (_ = str_false)),
      !(bool_decide_eq_false_2 (_ = str_null)) by done.
    cbn [orb]. rewrite bool_decide_eq_true_2 by done. by rewrite E2.
Qed.

Lemma reads_elem d t o :
  (∀ o' t', obj_ok (S d) o' → reads (S d) t' (print o') (as_read o')) →
  obj_ok (S d) o → reads (S d) t (print_elem o) (as_read o).
Proof.
  intros IH Ho. destruct o; try by apply IH. intros s r Hr Hs. cbn [obj_ok] in Ho.
  destruct (reads_ref d t objnum s r Ho (proj1 Hr) Hs) as (s' & E & Hs'). exists s'. split; [done|by left].
Qed.

(** The closing bracket ends the loop, and is the first byte of the buffer. *)
Lemma get_bracket d t s r :
  Near s (93 :: r) → ∃ s', get (S d) t s = Some (None, s') ∧ At file hdr s' r ∧ (m_WordBuffer s').[0] = 93.
Proof.
  intros Hs. destruct (Near_word s _ [93] false r Hs) as (s' & E & Hs' & Hc); [by apply lex_delim; auto|].
  exists s'. cbn [get_object]. rewrite E. split_and!; [done|done|]. by apply (content_first _ 93 []) in Hc.
Qed.

Lemma array_spec d l : ∀ n acc s r,
  (∀ o, o ∈ l → reads (S d) kLoose (print_elem o) (as_read o)) → Forall (obj_ok (S d)) l →
  (length l < n)%nat → Near s (flat_map print_elem l ++ 93 :: r) →
  ∃ s', array_loop (get (S d) kLoose) n acc s = Some (acc ++ map as_read l, s') ∧
    At file hdr s' r ∧ (m_WordBuffer s').[0] = 93.
Proof.
  induction l as [|o l IH]; intros n acc s r Hread Hok Hn Hs; (destruct n as [|n]; [cbn in Hn; lia|]).
  - destruct (get_bracket d kLoose s r Hs) as (s' & E & Hs' & Hb). exists s'.
    cbn [array_loop map]. rewrite E, app_nil_r. done.
  - inversion Hok as [|? ? Ho Hok']; subst. cbn [flat_map] in Hs. rewrite <-app_assoc in Hs.
    assert (Hrest : safe (flat_map print_elem l ++ 93 :: r))
      by (apply (safe_elems (S d)); [done|apply safe_array_end]).
    destruct (Hread o ltac:(left) s _ Hrest Hs) as (s1 & E & Hs1).
    destruct (IH n (acc ++ [as_read o]) s1 r) as (s2 & E2 & Hs2 & Hb); try done.
    { intros o' Ho'. apply Hread. by right. }
    { cbn [length] in Hn. lia. }
    exists s2. cbn [array_loop map]. rewrite E. cbn [mbind option_bind]. rewrite E2.
    by rewrite <-app_assoc.
Qed.

Lemma dict_spec d t m : ∀ n acc s r,
  (∀ kv, kv ∈ m → reads d kLoose (print kv.2) (as_read kv.2)) →
  Forall (λ kv, kv.1 ≠ [] ∧ name_ok kv.1 ∧ obj_ok d kv.2) m →
  StronglySorted key_lt m → (∀ kv k, kv ∈ acc → k ∈ m → bytes_lt kv.1 k.1 = true) →
  (length m < n)%nat → Near s (flat_map print_entry m ++ 62 :: 62 :: r) →
  ∃ s', dict_loop file hdr (get d kLoose) t n acc s =
      Some (Some (acc ++ map (λ '(k, v), (k, as_read v)) m), s') ∧ At file hdr s' r.
Proof.
  induction m as [|[k v] m IH]; intros n acc s r Hread Hok Hsort Hacc Hn Hs;
    (destruct n as [|n]; [cbn in Hn; lia|]).
  - destruct (Near_word s _ [62; 62] false r Hs) as (s' & E & Hs' & _); [by apply lex_angle; auto|].
    exists s'. cbn [dict_loop map]. rewrite E, app_nil_r. by rewrite bool_decide_eq_true_2.
  - inversion Hok as [|? ? (Hk & [Hkb Hkl] & Hv) Hok']; subst. inversion Hsort as [|? ? Hsort' Hlt]; subst.
    cbn [fst snd] in *. cbn [flat_map] in Hs. unfold print_entry in Hs at 1. cbn [fst snd app] in Hs.
    rewrite <-!app_assoc in Hs. cbn [app] in Hs. rewrite PDF_NameEncode_eq in *.
    set (rest := flat_map print_entry m ++ 62 :: 62 :: r) in *.
    assert (Hrest : safe rest) by (apply safe_entries, safe_dict_end).
    assert (Hvs : safe (print v ++ rest)) by (by apply (safe_print d)).
    assert (Hreg : regular (name_escape k)).
    { apply Forall_forall. intros c Hc. destruct (name_escape_no_hash k c Hc Hkb) as [H1 H2].
      unfold word_stop. by rewrite H1, H2. }
    assert (El : lex (47 :: name_escape k ++ print v ++ rest) = (47 :: name_escape k, false, print v ++ rest))
      by (apply lex_name; [done..|apply Hvs]).
    destruct (Near_word s _ _ _ _ Hs El) as (s1 & E1 & Hs1 & _).
    destruct (Hread (k, v) ltac:(left) s1 rest Hrest (or_introl Hs1)) as (s2 & E2 & Hs2).
    assert (Ekey : PDF_NameDecode (47 :: name_escape k) = 47 :: k).
    { cbn [PDF_NameDecode]. rewrite name_decode_escape by done. by destruct (name_escape k) as [|? [|? ?]]. }
    destruct (IH n (acc ++ [(k, as_read v)]) s2 r) as (s3 & E3 & Hs3); try done.
    + intros kv Hkv. apply Hread. by right.
    + intros kv k' Hkv Hk'. apply elem_of_app in Hkv as [Hkv|Hkv%list_elem_of_singleton].
      * apply Hacc; [done|by right].
      * subst kv. by apply (proj1 (Forall_forall _ _) Hlt k').
    + cbn [length] in Hn. lia.
    + exists s3. split; [|done]. cbn [dict_loop]. rewrite E1.
      rewrite !bool_decide_eq_false_2 by done. cbn [Z.eqb Pos.eqb negb]. rewrite Ekey.
      pose proof (zlen_nonneg k). destruct k as [|c k']; [done|]. rewrite !zlen_cons.
      pose proof (zlen_nonneg k'). replace (1 + (1 + zlen k') =? 0) with false by lia. cbn [andb].
      cbn [snd] in E2. rewrite E2. cbn [mbind option_bind].
      replace (1 <? 1 + (1 + zlen k')) with true by lia. cbn [drop]. rewrite SetFor_last.
      * rewrite E3, <-app_assoc. done.
      * apply Forall_forall. intros kv Hkv. apply (Hacc kv (c :: k', v)); [done|left].
Qed.
End roundtrip.

(** ** Every object *)
Lemma print_nonempty o : print o ≠ [] ∧ print_elem o ≠ [].
Proof. destruct o as [|[]|n|s []|n|n|l|m|m data|n]; by split. Qed.

Lemma length_elems l : (length l <= length (flat_map print_elem l))%nat.
Proof.
  induction l as [|o l IH]; [done|]. cbn [length flat_map]. rewrite length_app.
  destruct (print_nonempty o) as [_ H]. destruct (print_elem o); [done|cbn; lia].
Qed.

Lemma length_entries m : (length m <= length (flat_map print_entry m))%nat.
Proof.
  induction m as [|kv m IH]; [done|]. cbn [length flat_map]. rewrite length_app. cbn [print_entry length]. lia.
Qed.

Lemma At_length file hdr s l : At file hdr s l → (length l <= length file)%nat.
Proof. intros (<- & _ & _). unfold suffix. case_match; [rewrite length_drop; lia|cbn; lia]. Qed.

Lemma Near_length file hdr s l : Near file hdr s l → (length l <= length file)%nat.
Proof. intros [H|H]; apply At_length in H; cbn [length] in H; lia. Qed.

Lemma reads_all file hdr holder d : ∀ o t,
  obj_ok d o → reads file hdr holder (S (length file)) d t (print o) (as_read o).
Proof.
  induction d as [|d IH]; intros o t Hok; [done|].
  destruct regular_true as (R1 & R2 & R3).
  destruct o as [|b|n|str hex|n|n|l|m|m data|n]; cbn [as_read].
  - apply reads_keyword; try done. intros s s1 E. cbn [get_object]. by rewrite E.
  - destruct b; (apply reads_keyword; try done; intros s s1 E; cbn [get_object]; by rewrite E).
  - apply reads_number.
  - by apply reads_string.
  - by apply reads_name.
  - intros s r Hr Hs. cbn [print] in Hs. rewrite <-app_assoc in Hs.
    destruct (reads_ref file hdr holder (S (length file)) d t n s ([32] ++ r) Hok (boundary_space r) Hs)
      as (s' & E & Hs'). exists s'. split; [done|by right].
  - destruct Hok as [Hd Hok]. destruct d as [|d]; [done|]. intros s r Hr Hs.
    rewrite print_array in Hs. cbn [app] in Hs. rewrite <-app_assoc in Hs. cbn [app] in Hs.
    destruct (Near_word file hdr s _ _ _ _ Hs (lex_delim 91 _ ltac:(auto))) as (s1 & E1 & Hs1 & _).
    destruct (array_spec file hdr holder (S (length file)) d l (S (length file)) [] s1 r)
      as (s2 & E2 & Hs2 & Hb); try done; [..|by left|].
    + intros o Ho. apply reads_elem; [intros; by apply IH|].
      by apply (proj1 (Forall_forall _ _) Hok).
    + apply At_length in Hs1. rewrite length_app in Hs1. pose proof (length_elems l). lia.
    + exists s2. split; [|by left]. cbn [get_object]. rewrite E1.
      rewrite !bool_decide_eq_false_2 by done. cbn [orb]. rewrite bool_decide_eq_true_2 by done.
      cbn [get_object] in E2. rewrite E2. cbn [mbind option_bind app]. by rewrite Hb, orb_true_r.
  - destruct Hok as [Hsort Hok]. intros s r Hr Hs.
    rewrite print_dict in Hs. cbn [app] in Hs. rewrite <-app_assoc in Hs. cbn [app] in Hs.
    assert (El : lex (60 :: 60 :: flat_map print_entry m ++ 62 :: 62 :: r) =
      ([60; 60], false, flat_map print_entry m ++ 62 :: 62 :: r)) by (by rewrite lex_angle by auto).
    destruct (Near_word file hdr s _ _ _ _ Hs El) as (s1 & E1 & Hs1 & _).
    destruct (dict_spec file hdr holder (S (length file)) d t m (S (length file)) [] s1 r)
      as (s2 & E2 & Hs2); try done; [..|by left|].
    + intros kv Hkv. apply IH. by apply (proj1 (Forall_forall _ _) Hok kv).
    + intros kv k Hkv. by apply not_elem_of_nil in Hkv.
    + apply At_length in Hs1. rewrite length_app in Hs1. pose proof (length_entries m). lia.
    + destruct (lex r) as [[w num] r'] eqn:Er.
      destruct (Near_word file hdr s2 r w num r' (or_introl Hs2) Er) as (s3 & E3 & Hs3 & _).
      exists (at_pos (m_Pos s2) s3). split; [|left; apply At_back; [done|by eapply At_buffer]].
      cbn [get_object]. rewrite E1. rewrite !bool_decide_eq_false_2 by done. cbn [orb Z.eqb Pos.eqb].
      rewrite bool_decide_eq_true_2 by done. rewrite E2. cbn [mbind option_bind app]. rewrite E3.
      rewrite bool_decide_eq_false_2; [done|]. destruct Hr as (_ & Hw & _). by rewrite Er in Hw.
  - done.
  - intros s r Hr Hs. cbn [print] in Hs. rewrite <-app_assoc in Hs.
    destruct (reads_ref file hdr holder (S (length file)) d t n s ([32] ++ r) Hok (boundary_space r) Hs)
      as (s' & E & Hs'). exists s'. split; [done|by right].
Qed.

(** C12: every object without a stream, nested at most as deep as the parser
    goes, is read back from its text, in the middle of any file, and the parser
    stops behind it, up to the space that ends a reference.  What follows must
    not be a word that continues it. *)
Theorem parse_print file hdr holder t o s rest :
  obj_ok kParserMaxRecursionDepth o → safe rest → At file hdr s (print o ++ rest) →
  ∃ s', GetObjectBodyInternal file hdr holder t s = Some (Some (as_read o), s') ∧
    (At file hdr s' rest ∨ At file hdr s' (32 :: rest)).
Proof. intros Ho Hr Hs. apply reads_all; [done|done|by left]. Qed.

Definition object_example : CPDF_Object :=
  CPDF_Dictionary [([65; 32], CPDF_Array [CPDF_Number (FxSigned (-5)); CPDF_Indirect 9; CPDF_Name [66]]);
                   ([66], CPDF_String [40; 41; 0] false)].

Lemma parse_print_witness :
  print object_example =
    [60; 60; 47; 65; 35; 50; 48; 91; 32; 45; 53; 32; 57; 32; 48; 32; 82; 47; 66; 93; 47; 66; 40; 92; 40; 92; 41; 0; 41; 62; 62] ∧
  ∃ s', GetObjectBodyInternal (print object_example) 0 (λ _, None) kLoose syntax_new =
      Some (Some (CPDF_Dictionary
        [([65; 32], CPDF_Array [CPDF_Number (FxSigned (-5)); CPDF_Reference 9; CPDF_Name [66]]);
         ([66], CPDF_String [40; 41; 0] false)]), s') ∧
    (At (print object_example) 0 s' [] ∨ At (print object_example) 0 s' [32]).
Proof.
  split; [reflexivity|].
  refine (parse_print (print object_example) 0 (λ _, None) kLoose object_example syntax_new [] _ safe_nil _).
  - apply (obj_ok_mono 3); [unfold kParserMaxRecursionDepth; lia|]. cbn [obj_ok object_example].
    split; [repeat constructor|].
    apply List.Forall_cons; [|apply List.Forall_cons; [|apply List.Forall_nil]].
    + split; [discriminate|]. split; [split; [solve_bytes|vm_compute; discriminate]|].
      split; [discriminate|]. apply List.Forall_cons; [exact I|]. apply List.Forall_cons.
      * split; [discriminate|reflexivity].
      * apply List.Forall_cons; [|apply List.Forall_nil]. split; [solve_bytes|vm_compute; discriminate].
    + split; [discriminate|]. split; [split; [solve_bytes|vm_compute; discriminate]|].
      change (bytes [40; 41; 0]). solve_bytes.
  - split; [reflexivity|]. split; [discriminate|reflexivity].
Defined.
