(* ===== verification/ObjectTotal.v ===== *)
(** * The object parser terminates

    On any bytes and from any position, [GetObjectBodyInternal] ends within its
    recursion limit and as many rounds of a loop as the file has bytes, and an
    object that is found was read from at least one byte. *)
From S2P Require Import Prelude Words CharTypes Filters TextString FxNumber Syntax Objects.

Section total.
Context (file : list Z) (hdr : Z) (holder : Z → option CPDF_Object).
Hypothesis Hhdr : 0 <= hdr.

Definition state_ok (s : syntax) : Prop := length (m_WordBuffer s) = 257%nat.

(** How far in the file the position is, which may have been set before the start
    or behind the end. *)
Definition clip (s : syntax) : Z := Z.max 0 (Z.min (m_Pos s + hdr) (m_FileLen file)).

Lemma clip_nonneg s : 0 <= clip s <= m_FileLen file.
Proof. unfold clip, m_FileLen, zlen. lia. Qed.

Lemma lex_consumes l : zlen (lex l).1.1 <= zlen l - zlen (lex l).2.
Proof.
  destruct (strip_app l) as (a & E & _). pose proof (zlen_nonneg a) as Ha. unfold lex.
  assert (Hl : zlen l = zlen a + zlen (strip l)) by (rewrite E at 1; apply zlen_app).
  assert (Ht : ∀ w, zlen (take 256 w : list Z) <= zlen w) by (intros w; unfold zlen; rewrite length_take; lia).
  destruct (strip l) as [|ch rest]; [rewrite (@zlen_nil Z) in *; cbn [fst snd]; pose proof (zlen_nonneg l); unfold zlen in *; cbn [length] in *; lia|].
  rewrite zlen_cons in Hl. repeat case_match; cbn [fst snd]; rewrite ?zlen_cons, ?(@zlen_nil Z) in *.
  all: try (match goal with H : span ?s ?x = (?w, ?r) |- _ =>
    pose proof (span_app s x) as Hs; rewrite H in Hs; cbn in Hs; apply (f_equal zlen) in Hs;
    rewrite zlen_app in Hs; pose proof (zlen_nonneg w) end).
  all: try (match goal with |- zlen (take 256 ?w) <= _ => pose proof (Ht w) as H256; rewrite zlen_cons in H256 end).
  all: lia.
Qed.

Lemma suffix_length pos : zlen (suffix file hdr pos) = if 0 <=? pos + hdr then Z.max 0 (m_FileLen file - hdr - pos) else 0.
Proof.
  unfold suffix. destruct (Z.leb_spec 0 (pos + hdr)); [|done].
  unfold m_FileLen, zlen. rewrite length_drop. lia.
Qed.

Lemma word_total s :
  state_ok s → ∃ w num s', GetNextWord file hdr s = (w, num, s') ∧ state_ok s' ∧ clip s + zlen w <= clip s' ∧
    m_Pos s + zlen w <= m_Pos s' ∧ (w ≠ [] → 0 <= m_Pos s + hdr ∧ m_Pos s' + hdr <= m_FileLen file).
Proof.
  intros Hb. destruct (Z.ltb_spec (m_Pos s + hdr) 0) as [Hneg|Hp].
  { assert (E : suffix file hdr (m_Pos s) = []) by (unfold suffix; by replace (0 <=? _) with false by lia).
    unfold GetNextWord, GetNextWordInternal, ToNextWord. rewrite E. cbn [to_next_word m_Pos at_pos]. rewrite E.
    exists [], true. eexists. split_and!; [done|done| | |done]; unfold clip; cbn; change (zlen (@nil Z)) with 0; lia. }
  assert (Hat : At file hdr s (suffix file hdr (m_Pos s))) by (split_and!; [done|lia|done]).
  pose proof (GetNextWord_lex file hdr s _ Hat) as H. pose proof (lex_consumes (suffix file hdr (m_Pos s))) as Hc.
  pose proof (suffix_length (m_Pos s)) as Hl. replace (0 <=? m_Pos s + hdr) with true in Hl by lia.
  destruct (lex (suffix file hdr (m_Pos s))) as [[w num] r]. destruct H as (s' & E & (_ & _ & Hb') & Hpos & Hsz & _).
  cbn [fst snd] in Hc. pose proof (zlen_nonneg w). pose proof (zlen_nonneg r).
  exists w, num, s'. unfold clip. split_and!; [done|done|lia|lia|].
  intros Hne. assert (1 <= zlen w) by (destruct w; [done|unfold zlen; cbn [length]; lia]). lia.
Qed.

(** The other loops only move forward. *)
Lemma read_string_pos rest : ∀ pos st par esc buf,
  pos <= (read_string rest pos st par esc buf).2 <= pos + zlen rest.
Proof.
  induction rest as [|ch rest IH]; intros pos st par esc buf; cbn [read_string]; rewrite ?zlen_cons.
  - rewrite (@zlen_nil Z). cbn. lia.
  - pose proof (zlen_nonneg rest). destruct (string_step st ch par esc buf); [cbn; lia|].
    pose proof (IH (pos + 1) status parlevel iEscCode buf0). lia.
Qed.

Lemma read_hex_pos rest : ∀ pos first code buf,
  pos <= (read_hex_string rest pos first code buf).2 <= pos + zlen rest.
Proof.
  induction rest as [|ch rest IH]; intros pos first code buf; cbn [read_hex_string]; rewrite ?zlen_cons.
  - rewrite (@zlen_nil Z). cbn. lia.
  - pose proof (zlen_nonneg rest).
    assert (H1 : ∀ f c b, pos <= (read_hex_string rest (pos + 1) f c b).2 <= pos + (1 + zlen rest))
      by (intros f c b; pose proof (IH (pos + 1) f c b); lia).
    repeat case_match; cbn [snd]; try apply H1. all: lia.
Qed.

Lemma to_next_line_pos rest : ∀ pos, pos <= to_next_line rest pos <= pos + zlen rest.
Proof.
  induction rest as [|ch rest IH]; intros pos; cbn [to_next_line]; rewrite ?zlen_cons.
  - rewrite (@zlen_nil Z). lia.
  - pose proof (zlen_nonneg rest). pose proof (IH (pos + 1)).
    repeat case_match; rewrite ?zlen_cons, ?(@zlen_nil Z) in *; try lia.
    all: match goal with |- context [zlen ?l] => pose proof (zlen_nonneg l) end; lia.
Qed.

Lemma skip_blanks_pos rest : ∀ pos, pos <= skip_blanks rest pos <= pos + zlen rest.
Proof.
  induction rest as [|ch rest IH]; intros pos; cbn [skip_blanks]; rewrite ?zlen_cons.
  - rewrite (@zlen_nil Z). lia.
  - pose proof (zlen_nonneg rest). pose proof (IH (pos + 1)). case_match; lia.
Qed.

(** A position that is not behind the end when the old one was not. *)
Lemma move_total s pos :
  state_ok s → m_Pos s <= pos → state_ok (at_pos pos s) ∧ clip s <= clip (at_pos pos s).
Proof. intros Hb Hle. unfold state_ok, clip. cbn. split_and!; lia || done. Qed.

Lemma SetPos_total s pos :
  state_ok s → state_ok (SetPos file pos s) ∧ clip (SetPos file pos s) = Z.max 0 (Z.min (pos + hdr) (m_FileLen file)).
Proof. intros Hb. unfold state_ok, clip, SetPos. cbn. unfold m_FileLen, zlen. split_and!; lia || done. Qed.

Lemma number_total w s :
  state_ok s → state_ok (number_or_reference file hdr w s).2 ∧ clip s <= clip (number_or_reference file hdr w s).2.
Proof.
  intros Hs. unfold number_or_reference.
  destruct (word_total s Hs) as (w1 & n1 & s1 & -> & Hs1 & Hc1 & _). pose proof (zlen_nonneg w1).
  assert (Hback : ∀ s', state_ok s' → state_ok (at_pos (m_Pos s) s') ∧ clip s <= clip (at_pos (m_Pos s) s')).
  { intros s' Hb. unfold clip. cbn. split; [done|lia]. }
  destruct n1; cbn [negb]; [|by apply Hback].
  destruct (word_total s1 Hs1) as (w2 & n2 & s2 & -> & Hs2 & Hc2 & _). pose proof (zlen_nonneg w2).
  case_bool_decide; [cbn; split; [done|lia]|by apply Hback].
Qed.

Lemma clear_total n s : state_ok s → (n <= 257)%nat → state_ok (clear_buffer n s).
Proof.
  intros Hb Hn. unfold state_ok in *. cbn. rewrite length_app, length_replicate, length_drop. lia.
Qed.

Lemma word_internal_total s :
  state_ok s → state_ok (GetNextWordInternal file hdr s).2 ∧ clip s <= clip (GetNextWordInternal file hdr s).2 ∧
    m_Pos s <= m_Pos (GetNextWordInternal file hdr s).2.
Proof.
  intros Hs. destruct (word_total s Hs) as (w & num & s' & E & Hs' & Hc & Hp & _).
  unfold GetNextWord in E. destruct (GetNextWordInternal file hdr s) as [n s0]. injection E as <- <- ->.
  pose proof (zlen_nonneg (word_of s')). cbn. split_and!; [done|lia|lia].
Qed.

(** A stream: at most the last character before is given back. *)
Lemma stream_end_total s :
  state_ok s → 1 <= m_Pos s + hdr → state_ok (stream_end file hdr s) ∧ clip s - 1 <= clip (stream_end file hdr s).
Proof.
  intros Hs Hp1. unfold stream_end. set (s1 := (GetNextWordInternal file hdr (clear_buffer 7 s)).2).
  destruct (word_internal_total (clear_buffer 7 s)) as (Hs1 & Hc1 & Hp); [by apply clear_total; [|lia]|].
  fold s1 in Hs1, Hc1, Hp. cbn [m_Pos clear_buffer] in Hp.
  pose proof (skip_blanks_pos (suffix file hdr (m_Pos s1)) (m_Pos s1)) as Hsk.
  set (pos := skip_blanks _ _) in *.
  destruct (SetPos_total s1 (pos - 1) Hs1) as [H1 H2].
  assert (Hgo : clip s - 1 <= clip (SetPos file (pos - 1) s1)).
  { rewrite H2. unfold clip. unfold m_FileLen in *. lia. }
  case_match; [|by split].
  destruct (SetPos_total (SetPos file (pos - 1) s1) (m_Pos s) H1) as [H3 H4].
  split; [done|]. rewrite H4. unfold clip. lia.
Qed.

Lemma eol_nonneg pos : 0 <= ReadEOLMarkers file hdr pos <= 2.
Proof. unfold ReadEOLMarkers. repeat case_match; lia. Qed.

Lemma by_length_total len s :
  state_ok s → state_ok (stream_by_length file hdr len s).2 ∧ clip s <= clip (stream_by_length file hdr len s).2 ∧
    Z.min (m_Pos s) (m_FileLen file - hdr) <= m_Pos (stream_by_length file hdr len s).2.
Proof.
  intros Hs. unfold stream_by_length. set (len' := if _ && _ then -1 else len).
  destruct (Z.ltb_spec len' 0) as [Hl|Hl]; [unfold clip; cbn [snd]; split_and!; [done|lia|lia]|].
  set (s1 := if 0 <? len' then _ else s).
  assert (H1 : state_ok s1 ∧ clip s <= clip s1 ∧ Z.min (m_Pos s) (m_FileLen file - hdr) <= m_Pos s1).
  { unfold s1. destruct (Z.ltb_spec 0 len').
    - destruct (SetPos_total s (m_Pos s + len') Hs) as [H1 H2]. split; [done|].
      rewrite H2. unfold clip in *. cbn in *. lia.
    - unfold clip. split_and!; [done|lia|lia]. }
  destruct H1 as (Hs1 & Hc1 & Hp1). pose proof (eol_nonneg (m_Pos s1)).
  set (s2 := at_pos _ s1). assert (H2 : state_ok s2 ∧ clip s1 <= clip s2) by (apply move_total; [done|lia]).
  destruct H2 as [Hs2 Hc2].
  destruct (word_internal_total (clear_buffer 10 s2)) as (Hs3 & Hc3 & Hp3); [by apply clear_total; [|lia]|].
  set (s3 := (GetNextWordInternal file hdr (clear_buffer 10 s2)).2) in *.
  assert (Hclr : clip (clear_buffer 10 s2) = clip s2) by done.
  assert (Hp3' : Z.min (m_Pos s) (m_FileLen file - hdr) <= m_Pos s3). { unfold clip in *. cbn in *. lia. }
  case_match; cbn [snd]; [split_and!; [done|lia|done]|].
  destruct (SetPos_total s3 (m_Pos s) Hs3) as [H4 H5]. rewrite H5. unfold clip. cbn. split_and!; [done|lia|lia].
Qed.

Lemma stream_total m s :
  state_ok s → 1 <= m_Pos s + hdr <= m_FileLen file →
  state_ok (ReadStream file hdr holder m s).2 ∧ clip s - 1 <= clip (ReadStream file hdr holder m s).2.
Proof.
  intros Hs Hp. unfold ReadStream. set (s1 := ToNextLine file hdr s).
  assert (H1 : state_ok s1 ∧ clip s <= clip s1 ∧ 1 <= m_Pos s1 + hdr).
  { pose proof (to_next_line_pos (suffix file hdr (m_Pos s)) (m_Pos s)).
    destruct (move_total s (to_next_line (suffix file hdr (m_Pos s)) (m_Pos s)) Hs ltac:(lia)) as [H1 H2].
    split_and!; [done|done|]. unfold s1, ToNextLine. cbn. lia. }
  destruct H1 as (Hs1 & Hc1 & Hp1).
  pose proof (by_length_total (stream_length holder m) s1 Hs1) as (Hs2 & Hc2 & Hp2).
  destruct (stream_by_length file hdr (stream_length holder m) s1) as [[len data] s2]. cbn [snd] in *.
  assert (Hclip1 : 1 <= clip s1) by (unfold clip in *; lia).
  assert (Hp2' : 1 <= m_Pos s2 + hdr) by (unfold clip in *; lia).
  assert (Hend : ∀ s', state_ok s' → clip s1 <= clip s' → 1 <= m_Pos s' + hdr →
    state_ok (stream_end file hdr s') ∧ clip s - 1 <= clip (stream_end file hdr s')).
  { intros s' Hs' Hc' Hp'. destruct (stream_end_total s' Hs' Hp') as [H1 H2]. split; [done|lia]. }
  destruct (len <? 0); [|cbn [snd]; by apply Hend].
  destruct (FindStreamEndPos file hdr s2 <? 0); [cbn [snd]; split; [done|lia]|].
  destruct (Z.ltb_spec 0 (FindStreamEndPos file hdr s2 - m_Pos s1)) as [Hl|Hl]; [|cbn [snd]; by apply Hend].
  cbn [snd]. set (n := FindStreamEndPos file hdr s2 - m_Pos s1) in *.
  destruct (SetPos_total s2 (m_Pos s1) Hs2) as [H3 H4].
  set (s3 := SetPos file (m_Pos s1) s2) in *.
  assert (Hp3 : clip s3 = clip s1) by (rewrite H4; unfold clip; lia).
  destruct (SetPos_total s3 (m_Pos s3 + n) H3) as [H5 H6].
  apply Hend; [done| |].
  - rewrite H6. unfold clip in *. lia.
  - change (1 <= Z.min (m_Pos s3 + n) (m_FileLen file) + hdr). unfold clip in *. lia.
Qed.

(** ** The parser *)
Definition total_at (get : syntax → option (option CPDF_Object * syntax)) : Prop :=
  ∀ s, state_ok s → ∃ r s', get s = Some (r, s') ∧ state_ok s' ∧ clip s <= clip s' ∧
    (is_Some r → clip s + 1 <= clip s').

Lemma array_loop_total get n : ∀ l s,
  total_at get → state_ok s → m_FileLen file - clip s < Z.of_nat n →
  ∃ l' s', array_loop get n l s = Some (l', s') ∧ state_ok s' ∧ clip s <= clip s'.
Proof.
  induction n as [|n IH]; intros l s Hget Hs Hn.
  { pose proof (clip_nonneg s). lia. }
  cbn [array_loop]. destruct (Hget s Hs) as (r & s1 & -> & Hs1 & Hc & Hr). cbn [mbind option_bind].
  destruct r as [o|]; [|by exists l, s1].
  specialize (Hr (ex_intro _ o eq_refl)).
  destruct (IH (l ++ [o]) s1 Hget Hs1 ltac:(lia)) as (l' & s2 & E & Hs2 & Hc2).
  exists l', s2. split_and!; [done..|lia].
Qed.

Lemma dict_loop_total get t n : ∀ m s,
  total_at get → state_ok s → m_FileLen file - clip s < Z.of_nat n →
  ∃ m' s', dict_loop file hdr get t n m s = Some (m', s') ∧ state_ok s' ∧ clip s <= clip s'.
Proof.
  induction n as [|n IH]; intros m s Hget Hs Hn.
  { pose proof (clip_nonneg s). lia. }
  cbn [dict_loop]. destruct (word_total s Hs) as (w & num & s1 & -> & Hs1 & Hc1 & Hp1 & Hp4).
  destruct w as [|c w]; [exists None, s1; rewrite (@zlen_nil Z) in Hc1; split_and!; [done..|lia]|].
  rewrite zlen_cons in *. pose proof (zlen_nonneg w).
  assert (Hnext : ∀ m s', state_ok s' → clip s1 <= clip s' →
    ∃ m' s'', dict_loop file hdr get t n m s' = Some (m', s'') ∧ state_ok s'' ∧ clip s <= clip s'').
  { intros m' s' Hs' Hc'. destruct (IH m' s' Hget Hs' ltac:(lia)) as (m2 & s2 & E & Hs2 & Hc2).
    exists m2, s2. split_and!; [done..|lia]. }
  case_bool_decide; [exists (Some m), s1; split_and!; [done..|lia]|].
  case_bool_decide.
  { exists (Some m), (at_pos (m_Pos s1 - (1 + zlen w)) s1). destruct (Hp4 ltac:(done)) as [Hq1 Hq2].
    unfold state_ok, clip in *. cbn [m_Pos at_pos m_WordBuffer]. split_and!; done || lia. }
  destruct (negb (c =? 47)); [by apply Hnext|].
  destruct ((zlen (PDF_NameDecode (c :: w)) =? 0) && is_loose t); [by apply Hnext|].
  destruct (Hget s1 Hs1) as (r & s2 & -> & Hs2 & Hc2 & _). cbn [mbind option_bind].
  destruct r as [o|]; [by apply Hnext|]. destruct (is_loose t); [by apply Hnext|].
  exists None, (ToNextLine file hdr s2).
  pose proof (to_next_line_pos (suffix file hdr (m_Pos s2)) (m_Pos s2)).
  destruct (move_total s2 (to_next_line (suffix file hdr (m_Pos s2)) (m_Pos s2)) Hs2 ltac:(lia)) as [H4 H5].
  unfold ToNextLine. split_and!; [done..|lia].
Qed.

Lemma get_total d : ∀ t, total_at (get_object file hdr holder (S (length file)) d t).
Proof.
  induction d as [|d IH]; intros t s Hs; cbn [get_object].
  { exists None, s. split_and!; [done|done|lia|]. intros [? ?]; done. }
  destruct (word_total s Hs) as (w & num & s1 & -> & Hs1 & Hc1 & Hp1 & _).
  pose proof (clip_nonneg s) as Hcs. pose proof (clip_nonneg s1) as Hcs1.
  assert (Hnone : ∀ s', state_ok s' → clip s <= clip s' → ∃ (r : option CPDF_Object) s'',
    Some (None, s') = Some (r, s'') ∧ state_ok s'' ∧ clip s <= clip s'' ∧ (is_Some r → clip s + 1 <= clip s'')).
  { intros s' Hs' Hc'. exists None, s'. split_and!; [done..|]. intros [? ?]; done. }
  destruct w as [|c w]; [apply Hnone; [done|rewrite (@zlen_nil Z) in Hc1; lia]|].
  rewrite zlen_cons in *. pose proof (zlen_nonneg w) as Hw.
  assert (Hany : ∀ (r : option CPDF_Object) s', state_ok s' → clip s + 1 <= clip s' → ∃ r' s'',
    Some (r, s') = Some (r', s'') ∧ state_ok s'' ∧ clip s <= clip s'' ∧ (is_Some r' → clip s + 1 <= clip s'')).
  { intros r s' Hs' Hc'. exists r, s'. split_and!; [done..|lia|done]. }
  destruct num.
  { destruct (number_total (c :: w) s1 Hs1) as [H1 H2].
    destruct (number_or_reference file hdr (c :: w) s1) as [r s2]. apply Hany; [done|cbn in H2; lia]. }
  destruct (bool_decide _ || bool_decide _); [apply Hany; [done|lia]|].
  destruct (bool_decide (_ = str_null)); [apply Hany; [done|lia]|].
  destruct (bool_decide (_ = [40])).
  { unfold ReadString. pose proof (read_string_pos (suffix file hdr (m_Pos s1)) (m_Pos s1) kNormal 0 0 []) as Hr.
    destruct (read_string _ _ _ _ _ _) as [str pos]. cbn in Hr.
    destruct (move_total s1 pos Hs1 ltac:(lia)). apply Hany; [done|lia]. }
  destruct (bool_decide (_ = [60])).
  { unfold ReadHexString. pose proof (read_hex_pos (suffix file hdr (m_Pos s1)) (m_Pos s1) true 0 []) as Hr.
    destruct (read_hex_string _ _ _ _ _) as [str pos]. cbn in Hr.
    destruct (move_total s1 pos Hs1 ltac:(lia)). apply Hany; [done|lia]. }
  assert (Hfuel : m_FileLen file - clip s1 < Z.of_nat (S (length file))) by (unfold m_FileLen, zlen in *; lia).
  destruct (bool_decide (_ = [91])).
  { destruct (array_loop_total _ (S (length file)) [] s1 (IH kLoose) Hs1 Hfuel) as (l & s2 & -> & Hs2 & Hc2).
    apply Hany; [done|lia]. }
  destruct (c =? 47); [apply Hany; [done|lia]|].
  destruct (bool_decide (_ = [60; 60])); [|destruct (bool_decide (_ = [62; 62])); [|apply Hnone; [done|lia]]].
  - destruct (dict_loop_total _ t (S (length file)) [] s1 (IH kLoose) Hs1 Hfuel) as (m & s2 & -> & Hs2 & Hc2).
    cbn [mbind option_bind]. destruct m as [m|]; [|apply Hnone; [done|lia]].
    destruct (word_total s2 Hs2) as (w2 & n2 & s3 & -> & Hs3 & Hc3 & Hp3 & Hp4).
    case_bool_decide as Ew.
    + subst w2. change (zlen str_stream) with 6 in *.
      pose proof (clip_nonneg s2). pose proof (clip_nonneg s3). destruct (Hp4 ltac:(done)) as [Hq1 Hq2].
      destruct (stream_total m s3 Hs3) as [H1 H2]; [lia|].
      destruct (ReadStream file hdr holder m s3) as [r s4]. cbn [snd] in *. apply Hany; [done|lia].
    + apply Hany; [done|unfold clip in *; cbn [m_Pos at_pos]; lia].
  - apply Hnone; [done|unfold clip; cbn [m_Pos at_pos]; lia].
Qed.
End total.

(** C19: the parser is total: from any position of any file [GetObjectBodyInternal]
    returns, it does not go back, and an object it found was read from at least
    one byte, so that the callers' loops over objects end as well. *)
Theorem parser_terminates file hdr holder t s :
  0 <= hdr → length (m_WordBuffer s) = 257%nat →
  ∃ r s', GetObjectBodyInternal file hdr holder t s = Some (r, s') ∧
    clip file hdr s <= clip file hdr s' ∧ (is_Some r → clip file hdr s < clip file hdr s').
Proof.
  intros Hhdr Hb.
  destruct (get_total file hdr holder Hhdr kParserMaxRecursionDepth t s Hb) as (r & s' & E & _ & Hc & Hr).
  exists r, s'. split_and!; [done..|]. intros H. specialize (Hr H). lia.
Qed.

Lemma parser_terminates_witness :
  (* an array that is never closed *)
  GetObjectBodyInternal [91; 91; 47] 0 (λ _, None) kLoose syntax_new ≠ None ∧
  ∃ r s', GetObjectBodyInternal [91; 91; 47] 0 (λ _, None) kLoose syntax_new = Some (r, s') ∧
    clip [91; 91; 47] 0 syntax_new <= clip [91; 91; 47] 0 s' ∧
    (is_Some r → clip [91; 91; 47] 0 syntax_new < clip [91; 91; 47] 0 s').
Proof.
  split; [vm_compute; discriminate|].
  exact (parser_terminates [91; 91; 47] 0 (λ _, None) kLoose syntax_new ltac:(lia) eq_refl).
Defined.
