(* ===== verification/StreamText.v ===== *)
(** * Stream objects are read back

    [ReadStream] on the text that [operator<<] writes for a stream, as it stands
    in a file before [endobj]. *)
From Stdlib Require Import Sorted.
From S2P Require Import Prelude Words CharTypes Filters TextString FxNumber Syntax Objects ObjectText.

Section stream.
Context (file : list Z) (hdr : Z) (holder : Z → option CPDF_Object).
Hypothesis Hhdr : 0 <= hdr.

Lemma At_clear n s l : (n <= 257)%nat → At file hdr s l → At file hdr (clear_buffer n s) l.
Proof.
  intros Hn (E & Hp & Hb). split; [done|]. split; [done|]. cbn.
  rewrite length_app, length_replicate, length_drop. lia.
Qed.

(** [SetPos] inside the file does not clamp. *)
Lemma At_in_file s a l : l ≠ [] → At file hdr s (a ++ l) → m_Pos s + zlen a <= m_FileLen file.
Proof.
  intros Hne (E & Hp & _). assert (1 <= length l)%nat by (destruct l; [done|cbn; lia]). unfold suffix in E. replace (0 <=? m_Pos s + hdr) with true in E by lia.
  apply (f_equal length) in E. rewrite length_drop, length_app in E. unfold m_FileLen, zlen. lia.
Qed.

(** What is left tells the position. *)
Lemma At_pos_diff s s' a l : l ≠ [] → At file hdr s (a ++ l) → At file hdr s' l → m_Pos s' = m_Pos s + zlen a.
Proof.
  intros Hne (E & Hp & _) (E' & Hp' & _). assert (1 <= length l)%nat by (destruct l; [done|cbn; lia]).
  unfold suffix in E, E'. replace (0 <=? m_Pos s + hdr) with true in E by lia.
  replace (0 <=? m_Pos s' + hdr) with true in E' by lia.
  apply (f_equal length) in E. apply (f_equal length) in E'.
  rewrite length_drop, length_app in E. rewrite length_drop in E'. unfold zlen. lia.
Qed.

Lemma At_SetPos s a l :
  l ≠ [] → At file hdr s (a ++ l) → At file hdr (SetPos file (m_Pos s + zlen a) s) l.
Proof.
  intros Hne Hs. pose proof (At_in_file s a l Hne Hs) as Hf. apply At_move in Hs. unfold SetPos. by rewrite Z.min_l by done.
Qed.

Lemma At_eol s c l :
  At file hdr s (c :: l) → ReadEOLMarkers file hdr (m_Pos s) =
    match l with d :: _ => if (c =? 13) && (d =? 10) then 2 else if (c =? 13) || (c =? 10) then 1 else 0
               | [] => if (c =? 13) && (0 =? 10) then 2 else if (c =? 13) || (c =? 10) then 1 else 0 end.
Proof.
  intros (E & Hp & _). unfold ReadEOLMarkers, GetCharAt.
  pose proof (suffix_app file hdr (m_Pos s) [c] l E Hp) as E2. change (zlen [c]) with 1 in E2.
  rewrite E, E2. by destruct l.
Qed.

(** One word in a cleared buffer. *)
Lemma clear_word s l w num r n :
  (n <= 257)%nat → At file hdr s l → lex l = (w, num, r) → w ≠ [] →
  let s' := (GetNextWordInternal file hdr (clear_buffer n s)).2 in
  At file hdr s' r ∧ buffer_starts w s' = true ∧ m_WordSize s' = zlen w.
Proof.
  intros Hn Hs El Hne. pose proof (GetNextWord_lex file hdr _ l (At_clear n s l Hn Hs)) as H. rewrite El in H.
  destruct H as (s' & E & Hs' & _ & Hsz & Hc). unfold GetNextWord in E.
  destruct (GetNextWordInternal file hdr (clear_buffer n s)) as [num' s0]. injection E as _ _ ->.
  cbn [snd]. split_and!; [done| |done]. apply bool_decide_eq_true_2.
  destruct w as [|c w]; [done|]. destruct Hc as (_ & _ & Hc). cbn [fst snd] in Hc.
  rewrite Hsz in Hc. unfold zlen in Hc. by rewrite Nat2Z.id in Hc.
Qed.

Lemma by_length_spec s data r :
  At file hdr s (data ++ 13 :: 10 :: kEndStreamStr ++ r) → boundary r →
  ∃ s', stream_by_length file hdr (zlen data) s = (zlen data, data, s') ∧ At file hdr s' r.
Proof.
  intros Hs Hr. pose proof (At_in_file s data (13 :: 10 :: kEndStreamStr ++ r) ltac:(done) Hs) as Hf. pose proof (zlen_nonneg data) as Hd.
  pose proof (At_in_file s (data ++ [13]) (10 :: kEndStreamStr ++ r) ltac:(done)) as Hf2.
  rewrite <-app_assoc in Hf2. specialize (Hf2 Hs). rewrite zlen_app in Hf2. change (zlen [13]) with 1 in Hf2.
  unfold stream_by_length. replace (m_FileLen file <=? m_Pos s + zlen data) with false by lia.
  rewrite andb_false_r. replace (zlen data <? 0) with false by lia.
  pose proof Hs as (E & Hp & Hb). rewrite E.
  assert (Ed : take (Z.to_nat (zlen data)) (data ++ 13 :: 10 :: kEndStreamStr ++ r) = data)
    by (unfold zlen; rewrite Nat2Z.id; apply take_app_length).
  rewrite Ed. set (s1 := if 0 <? zlen data then _ else s).
  assert (Hs1 : At file hdr s1 (13 :: 10 :: kEndStreamStr ++ r)).
  { unfold s1. destruct (Z.ltb_spec 0 (zlen data)) as [Hlt|Hge]; [by apply At_SetPos|].
    assert (data = []) as -> by (apply length_zero_iff_nil; unfold zlen in *; lia). done. }
  rewrite (At_eol s1 13 _ Hs1). cbn [Z.eqb Pos.eqb andb].
  pose proof (At_move file hdr s1 [13; 10] _ Hs1) as Hs2. change (zlen [13; 10]) with 2 in Hs2.
  assert (El : lex (kEndStreamStr ++ r) = (kEndStreamStr, false, r))
    by (apply (lex_word kEndStreamStr r); [by repeat constructor|done|done|done]).
  destruct (clear_word _ _ _ _ _ 10 ltac:(lia) Hs2 El ltac:(done)) as (Hs3 & Hb3 & _).
  rewrite Hb3. by eexists.
Qed.

Lemma stream_end_spec s r :
  0 <= m_Pos s → At file hdr s (13 :: 10 :: kEndObjStr ++ r) → boundary r →
  match r with c :: _ => c = 13 ∨ c = 10 | [] => False end →
  At file hdr (stream_end file hdr s) (13 :: 10 :: kEndObjStr ++ r).
Proof.
  intros Hpos Hs Hr Heol. unfold stream_end.
  assert (El : lex (13 :: 10 :: kEndObjStr ++ r) = (kEndObjStr, false, r)).
  { assert (Est : strip (13 :: 10 :: kEndObjStr ++ r) = kEndObjStr ++ r).
    { unfold strip. cbn [to_next_word kEndObjStr app]. reflexivity. }
    assert (E : lex (13 :: 10 :: kEndObjStr ++ r) = lex (kEndObjStr ++ r)).
    { unfold lex. rewrite Est. cbn [kEndObjStr app]. by rewrite (strip_regular 101). }
    rewrite E. apply (lex_word kEndObjStr r); [by repeat constructor|done|done|done]. }
  destruct (clear_word _ _ _ _ _ 7 ltac:(lia) Hs El ltac:(done)) as (Hs1 & Hb1 & Hsz).
  set (s1 := (GetNextWordInternal file hdr (clear_buffer 7 s)).2) in *.
  destruct r as [|c r]; [done|]. pose proof Hs1 as (E & Hp & Hb). rewrite E.
  assert (Hle : PDFCharIsLineEnding c = true) by (destruct Heol as [->| ->]; done).
  cbn [skip_blanks]. rewrite Hle, orb_true_r.
  replace (m_Pos s1 + 1 - 1) with (m_Pos s1 + zlen (@nil Z)) by (rewrite (@zlen_nil Z); lia).
  pose proof (At_SetPos s1 [] (c :: r) ltac:(done) Hs1) as Hs2. set (s2 := SetPos file _ s1) in *.
  assert (Hsz2 : m_WordSize s2 = zlen kEndObjStr) by done. rewrite Hsz2, Z.eqb_refl.
  assert (Hb2 : buffer_starts kEndObjStr s2 = true) by done. rewrite Hb2.
  rewrite (At_eol s2 c r Hs2).
  assert (Hne : (match r with d :: _ => if (c =? 13) && (d =? 10) then 2 else if (c =? 13) || (c =? 10) then 1 else 0
    | [] => if (c =? 13) && (0 =? 10) then 2 else if (c =? 13) || (c =? 10) then 1 else 0 end =? 0) = false)
    by (destruct Heol as [->| ->]; destruct r; cbn; repeat case_match; done).
  rewrite Hne. cbn [negb andb].
  pose proof (At_in_file s [] (13 :: 10 :: kEndObjStr ++ c :: r) ltac:(done) Hs) as Hf. rewrite (@zlen_nil Z), Z.add_0_r in Hf.
  unfold SetPos. rewrite Z.min_l by done. split; [|split].
  - cbn. by destruct Hs.
  - cbn. lia.
  - by destruct Hs2 as (_ & _ & ?).
Qed.

Lemma ReadStream_spec m s data r :
  0 <= m_Pos s → stream_length holder m = zlen data →
  At file hdr s (13 :: 10 :: data ++ 13 :: 10 :: kEndStreamStr ++ 13 :: 10 :: kEndObjStr ++ r) → boundary r →
  match r with c :: _ => c = 13 ∨ c = 10 | [] => False end →
  ∃ s', ReadStream file hdr holder m s =
      (Some (CPDF_Stream (SetFor str_Length (CPDF_Number (FxSigned (zlen data))) m) data), s') ∧
    At file hdr s' (13 :: 10 :: kEndObjStr ++ r).
Proof.
  intros Hpos Hlen Hs Hr Heol. unfold ReadStream. pose proof (zlen_nonneg data).
  pose proof Hs as (E & Hp & Hb). unfold ToNextLine. rewrite E. cbn [to_next_line Z.eqb Pos.eqb].
  pose proof (At_move file hdr s [13; 10] _ Hs) as Hs1. change (zlen [13; 10]) with 2 in Hs1.
  rewrite Hlen. destruct (by_length_spec _ data (13 :: 10 :: kEndObjStr ++ r) Hs1) as (s2 & -> & Hs2); [done|].
  replace (zlen data <? 0) with false by lia. eexists. split; [done|].
  apply stream_end_spec; [|done|done|done].
  set (a := data ++ 13 :: 10 :: kEndStreamStr). assert (Hs1' : At file hdr (at_pos (m_Pos s + 2) s)
    (a ++ 13 :: 10 :: kEndObjStr ++ r)) by (unfold a; rewrite <-app_assoc; exact Hs1).
  rewrite (At_pos_diff _ s2 a (13 :: 10 :: kEndObjStr ++ r) ltac:(done) Hs1' Hs2). pose proof (zlen_nonneg a). cbn [m_Pos at_pos]. lia.
Qed.
End stream.

Lemma stream_reads file hdr holder d t m data s r :
  0 <= hdr → 0 <= m_Pos s → obj_ok (S d) (CPDF_Dictionary m) →
  stream_length holder (map (λ '(k, v), (k, as_read v)) m) = zlen data →
  match r with c :: _ => c = 13 ∨ c = 10 | [] => False end →
  At file hdr s (print (CPDF_Stream m data) ++ 13 :: 10 :: kEndObjStr ++ r) →
  ∃ s', get_object file hdr holder (S (length file)) (S d) t s =
      Some (Some (CPDF_Stream (SetFor str_Length (CPDF_Number (FxSigned (zlen data)))
                                 (map (λ '(k, v), (k, as_read v)) m)) data), s') ∧
    At file hdr s' (13 :: 10 :: kEndObjStr ++ r).
Proof.
  intros Hhdr Hpos Hok Hlen Heol Hs.
  destruct Hok as [Hsort Hok].
  set (tl := 13 :: 10 :: data ++ 13 :: 10 :: kEndStreamStr ++ 13 :: 10 :: kEndObjStr ++ r).
  assert (Etext : print (CPDF_Stream m data) ++ 13 :: 10 :: kEndObjStr ++ r =
    60 :: 60 :: flat_map print_entry m ++ 62 :: 62 :: str_stream ++ tl).
  { cbn [print]. rewrite (flat_map_ext (λ '(k, v), 47 :: PDF_NameEncode k ++ print v) print_entry ltac:(by intros [k v]) m).
    unfold tl. by repeat (rewrite <-!app_assoc; cbn [app]). }
  rewrite Etext in Hs. clear Etext.
  assert (El : lex (60 :: 60 :: flat_map print_entry m ++ 62 :: 62 :: str_stream ++ tl) =
    ([60; 60], false, flat_map print_entry m ++ 62 :: 62 :: str_stream ++ tl)) by (by rewrite lex_angle by auto).
  destruct (Near_word file hdr s _ _ _ _ (or_introl Hs) El) as (s1 & E1 & Hs1 & _).
  destruct (dict_spec file hdr holder (S (length file)) d t m (S (length file)) [] s1 (str_stream ++ tl))
    as (s2 & E2 & Hs2); try done; [..|by left|].
  { intros kv Hkv. apply reads_all. by apply (proj1 (Forall_forall _ _) Hok kv). }
  { intros kv k Hkv. by apply not_elem_of_nil in Hkv. }
  { apply At_length in Hs1. rewrite length_app in Hs1. pose proof (length_entries m). lia. }
  assert (El3 : lex (str_stream ++ tl) = (str_stream, false, tl))
    by (apply (lex_word str_stream tl); [by repeat constructor|done|done|done]).
  destruct (Near_word file hdr s2 _ _ _ _ (or_introl Hs2) El3) as (s3 & E3 & Hs3 & _).
  cbn [get_object]. rewrite E1. rewrite !bool_decide_eq_false_2 by done. cbn [orb Z.eqb Pos.eqb].
  rewrite bool_decide_eq_true_2 by done. rewrite E2. cbn [mbind option_bind app]. rewrite E3.
  rewrite bool_decide_eq_true_2 by done.
  assert (Hp3 : 0 <= m_Pos s3).
  { set (a := 60 :: 60 :: flat_map print_entry m ++ 62 :: 62 :: str_stream).
    assert (Hs' : At file hdr s (a ++ tl)) by (unfold a; cbn [app]; rewrite <-app_assoc; exact Hs).
    rewrite (At_pos_diff file hdr s s3 a tl ltac:(done) Hs' Hs3). pose proof (zlen_nonneg a). lia. }
  destruct (ReadStream_spec file hdr holder Hhdr (map (λ '(k, v), (k, as_read v)) m) s3 data r)
    as (s4 & E4 & Hs4); [done..| |done|exists s4; by rewrite E4].
  destruct r as [|c r]; [done|]. destruct Heol as [->| ->]; done.
Qed.

(** C27: a stream whose [Length] is right is read back from its text before
    [endobj]: the same dictionary, with the length as it was found, and the same
    bytes, whatever they are, and the parser stops before the line of [endobj]. *)
Theorem stream_roundtrip file hdr holder t m data s r :
  0 <= hdr → 0 <= m_Pos s →
  obj_ok kParserMaxRecursionDepth (CPDF_Dictionary m) →
  stream_length holder (map (λ '(k, v), (k, as_read v)) m) = zlen data →
  match r with c :: _ => c = 13 ∨ c = 10 | [] => False end →
  At file hdr s (print (CPDF_Stream m data) ++ 13 :: 10 :: kEndObjStr ++ r) →
  ∃ s', GetObjectBodyInternal file hdr holder t s =
      Some (Some (CPDF_Stream (SetFor str_Length (CPDF_Number (FxSigned (zlen data)))
                                 (map (λ '(k, v), (k, as_read v)) m)) data), s') ∧
    At file hdr s' (13 :: 10 :: kEndObjStr ++ r).
Proof.
  intros. apply (stream_reads file hdr holder 63); done.
Qed.

Definition stream_example : dict := [(str_Length, CPDF_Number (FxUnsigned 3))].
Lemma stream_roundtrip_witness :
  let file := print (CPDF_Stream stream_example [1; 62; 2]) ++ 13 :: 10 :: kEndObjStr ++ [10] in
  zlen file = 44 ∧
  ∃ s', GetObjectBodyInternal file 0 (λ _, None) kLoose syntax_new =
      Some (Some (CPDF_Stream (SetFor str_Length (CPDF_Number (FxSigned (zlen [1; 62; 2])))
                                 (map (λ '(k, v), (k, as_read v)) stream_example)) [1; 62; 2]), s') ∧
    At file 0 s' (13 :: 10 :: kEndObjStr ++ [10]).
Proof.
  intros file. split; [reflexivity|].
  apply (stream_roundtrip file 0 (λ _, None) kLoose stream_example [1; 62; 2] syntax_new [10]).
  - lia.
  - vm_compute. discriminate.
  - apply (obj_ok_mono 2); [unfold kParserMaxRecursionDepth; lia|]. cbn [obj_ok stream_example].
    split; [repeat constructor|]. apply List.Forall_cons; [|apply List.Forall_nil].
    split; [discriminate|]. split; [split; [unfold str_Length; solve_bytes|vm_compute; discriminate]|exact I].
  - reflexivity.
  - by right.
  - split; [reflexivity|]. split; [vm_compute; discriminate|reflexivity].
Defined.
