(* ===== verification/Search.v ===== *)
(** * Searching for keywords

    [FindTag], which [FindWordPos] and [FindStreamEndPos] are built on, and
    [RecordingToNextWord], against what they are meant to find. *)
From S2P Require Import Prelude Words CharTypes Syntax.

(** ** The first occurrence of a tag *)
Definition starts_with (tag t : list Z) : bool := bool_decide (take (length tag) t = tag).

Fixpoint first_occ (tag t : list Z) : option nat :=
  if starts_with tag t then Some 0%nat
  else match t with [] => None | _ :: t' => S <$> first_occ tag t' end.

Lemma first_occ_some tag t i :
  first_occ tag t = Some i → subspan t i (length tag) = tag ∧
    ∀ j, (j < i)%nat → subspan t j (length tag) ≠ tag.
Proof.
  revert i. induction t as [|c t IH]; intros i; cbn [first_occ]; unfold starts_with; case_bool_decide as E; try done.
  - intros [= <-]. split; [by unfold subspan; rewrite drop_0|lia].
  - intros [= <-]. split; [by unfold subspan; rewrite drop_0|lia].
  - destruct (first_occ tag t) as [k|]; [|done]. intros [= <-]. destruct (IH k eq_refl) as [H1 H2].
    split; [done|]. intros [|j] Hj; [by unfold subspan; rewrite drop_0|]. apply H2. lia.
Qed.

Lemma first_occ_none tag t : first_occ tag t = None → tag ≠ [] → ∀ j, subspan t j (length tag) ≠ tag.
Proof.
  induction t as [|c t IH]; cbn [first_occ]; unfold starts_with; case_bool_decide as E; try done.
  - intros _ Hne j. unfold subspan. by rewrite drop_nil, take_nil.
  - destruct (first_occ tag t); [done|]. intros _ Hne [|j]; [by unfold subspan; rewrite drop_0|].
    by apply IH.
Qed.

(** A tag whose first character does not come again. *)
Definition single_start (tag : list Z) : Prop :=
  tag ≠ [] ∧ ∀ i, (0 < i < length tag)%nat → tag.[Z.of_nat i] ≠ tag.[0].

Lemma starts_with_cons_ne tag c t : tag ≠ [] → c ≠ tag.[0] → starts_with tag (c :: t) = false.
Proof.
  intros Hne Hc. apply bool_decide_eq_false_2. destruct tag as [|x tag]; [done|]. cbn. intros [= -> _]. done.
Qed.

(** A failed match of [m] characters leaves no other start among them. *)
Lemma first_occ_skip tag m t :
  single_start tag → (m < length tag)%nat → (0 < m)%nat →
  starts_with tag (take m tag ++ t) = false →
  first_occ tag (take m tag ++ t) = (λ i, (m + i)%nat) <$> first_occ tag t.
Proof.
  intros [Hne Hs] Hm H0 Hstart.
  assert (Hgo : ∀ k, (k < m)%nat → first_occ tag (drop (m - k) (take m tag) ++ t) =
    (λ i, (k + i)%nat) <$> first_occ tag t).
  { induction k as [|k IH]; intros Hk.
    - rewrite Nat.sub_0_r, drop_ge by (rewrite length_take; lia). cbn [app]. by destruct (first_occ tag t).
    - assert (Hl : take m tag !! (m - S k)%nat = Some tag.[Z.of_nat (m - S k)]).
      { rewrite lookup_take_lt by lia. rewrite <-(Nat2Z.id (m - S k)) at 1. apply rd_lookup_lt. unfold zlen. lia. }
      rewrite (drop_S _ _ _ Hl). replace (S (m - S k)) with (m - k)%nat by lia. cbn [app first_occ].
      rewrite starts_with_cons_ne by (try done; apply Hs; lia).
      rewrite IH by lia. by destruct (first_occ tag t). }
  destruct m as [|m]; [lia|]. specialize (Hgo m ltac:(lia)).
  replace (S m - m)%nat with 1%nat in Hgo by lia.
  destruct tag as [|x tag]; [done|]. cbn [take app drop] in *. rewrite drop_0 in Hgo.
  cbn [first_occ]. rewrite Hstart, Hgo. by destruct (first_occ (x :: tag) t).
Qed.

Lemma find_tag_occ tag rest : ∀ pos m,
  single_start tag → (m < length tag)%nat →
  find_tag tag rest pos (Z.of_nat m) =
    (λ i, pos - Z.of_nat m + Z.of_nat i + zlen tag) <$> first_occ tag (take m tag ++ rest).
Proof.
  induction rest as [|ch rest IH]; intros pos m Hs Hm; cbn [find_tag].
  - rewrite app_nil_r. assert (Hshort : first_occ tag (take m tag) = None); [|by rewrite Hshort].
    assert (Hall : ∀ t, (length t < length tag)%nat → first_occ tag t = None).
    { induction t as [|c t IHt]; intros Ht; cbn [first_occ]; unfold starts_with.
      - rewrite bool_decide_eq_false_2; [done|]. intros E. rewrite take_nil in E. subst tag; cbn in Ht; lia.
      - rewrite bool_decide_eq_false_2; [by rewrite IHt by (cbn in Ht; lia)|].
        intros E. apply (f_equal length) in E. rewrite length_take in E. lia. }
    apply Hall. rewrite length_take. lia.
  - destruct (Z.eqb_spec ch tag.[Z.of_nat m]) as [->|Hne].
    + assert (Et : take m tag ++ tag.[Z.of_nat m] :: rest = take (S m) tag ++ rest).
      { rewrite (take_S_rd tag m) by lia. by rewrite <-app_assoc. }
      rewrite Et. destruct (Z.eqb_spec (Z.of_nat m + 1) (zlen tag)) as [El|El].
      * rewrite take_ge by (unfold zlen in El; lia).
        assert (E0 : first_occ tag (tag ++ rest) = Some 0%nat).
        { assert (Est : starts_with tag (tag ++ rest) = true) by (by apply bool_decide_eq_true_2, take_app_length).
          destruct (tag ++ rest); cbn [first_occ]; by rewrite Est. }
        rewrite E0. cbn. f_equal. lia.
      * replace (Z.of_nat m + 1) with (Z.of_nat (S m)) by lia. rewrite IH by (unfold zlen in El; try done; lia).
        destruct (first_occ tag (take (S m) tag ++ rest)); [|done]. cbn. f_equal. lia.
    + assert (Hno : starts_with tag (take m tag ++ ch :: rest) = false).
      { apply bool_decide_eq_false_2. intros E. apply Hne.
        assert (El : (take (length tag) (take m tag ++ ch :: rest)) !! m = Some ch).
        { rewrite lookup_take_lt by lia. rewrite lookup_app_r by (rewrite length_take; lia).
          rewrite length_take, Nat.min_l by lia. by rewrite Nat.sub_diag. }
        rewrite E in El. symmetry. apply rd_lookup. by rewrite Nat2Z.id. }
      assert (Eskip : first_occ tag (take m tag ++ ch :: rest) =
        (λ i, (m + i)%nat) <$> first_occ tag (ch :: rest)).
      { destruct m as [|m]; [rewrite take_0; cbn [app]; by destruct (first_occ tag (ch :: rest))|].
        apply first_occ_skip; [done|done|lia|done]. }
      rewrite Eskip. destruct (Z.eqb_spec ch tag.[0]) as [->|Hne0].
      * change 1 with (Z.of_nat 1) at 2. destruct (decide (length tag = 1%nat)) as [H1|H1].
        { destruct m; [done|lia]. }
        rewrite IH by (try done; lia).
        assert (Et1 : take 1 tag ++ rest = tag.[0] :: rest) by (destruct Hs as [Hne' _]; by destruct tag).
        rewrite Et1. destruct (first_occ tag (tag.[0] :: rest)); [|done]. cbn. f_equal. lia.
      * change 0 with (Z.of_nat 0) at 1. rewrite IH by (try done; lia). rewrite take_0. cbn [app].
        cbn [first_occ]. rewrite starts_with_cons_ne by (try done; apply Hs).
        destruct (first_occ tag rest); [|done]. cbn. f_equal. lia.
Qed.

(** [FindTag] returns the end of the first occurrence of a tag whose first
    character does not come again in it, such as [endobj], and fails when there
    is none.  [endstream] is not such a tag, and an occurrence of it can be
    missed. *)
Theorem find_tag_first tag rest pos :
  single_start tag →
  match find_tag tag rest pos 0 with
  | Some p => ∃ i, p = pos + Z.of_nat i + zlen tag ∧ subspan rest i (length tag) = tag ∧
      ∀ j, (j < i)%nat → subspan rest j (length tag) ≠ tag
  | None => ∀ j, subspan rest j (length tag) ≠ tag
  end ∧
  single_start kEndObjStr ∧
  subspan ([101; 110; 100; 115; 116; 114] ++ kEndStreamStr) 6 9 = kEndStreamStr ∧
  find_tag kEndStreamStr ([101; 110; 100; 115; 116; 114] ++ kEndStreamStr) 0 0 = None.
Proof.
  intros Hs. split; [|split; [|by split]].
  - pose proof Hs as [Hne _].
    change (find_tag tag rest pos 0) with (find_tag tag rest pos (Z.of_nat 0)).
    rewrite (find_tag_occ tag rest pos 0 Hs) by (destruct tag; [done|cbn; lia]). rewrite take_0. cbn [app].
    destruct (first_occ tag rest) as [i|] eqn:E; cbn.
    + destruct (first_occ_some tag rest i E). exists i. split_and!; [lia|done..].
    + by apply first_occ_none.
  - split; [done|]. intros i Hi. cbn [kEndObjStr length] in Hi.
    do 6 (destruct i as [|i]; [lia || done|]). lia.
Qed.

Lemma find_tag_first_witness :
  find_tag [120; 121] [120; 120; 121] 5 0 = Some 8 ∧
  match find_tag [120; 121] [120; 120; 121] 5 0 with
  | Some p => ∃ i, p = 5 + Z.of_nat i + 2 ∧ subspan [120; 120; 121] i 2 = [120; 121] ∧
      ∀ j, (j < i)%nat → subspan [120; 120; 121] j 2 ≠ [120; 121]
  | None => ∀ j, subspan [120; 120; 121] j 2 ≠ [120; 121]
  end.
Proof.
  split; [reflexivity|].
  assert (Hs : single_start [120; 121]).
  { split; [discriminate|]. intros i Hi. cbn in Hi. assert (i = 1%nat) as -> by lia. discriminate. }
  exact (proj1 (find_tag_first [120; 121] [120; 120; 121] 5 Hs)).
Defined.

(** ** Recording trailer ends *)
(** Where the comment state of [ToNextWord] is. *)
Definition in_comment (st : EofState) : bool := match st with kInitial | kNonPercent => false | _ => true end.

Lemma recording_position rest : ∀ st pos, st ≠ kNonPercent →
  (recording_to_next_word st rest pos).1 = to_next_word (in_comment st) rest pos.
Proof.
  induction rest as [rest IH] using (induction_ltof1 _ (@length Z)); unfold ltof in IH.
  intros st pos Hst. destruct rest as [|ch rest]; [done|]. cbn [recording_to_next_word to_next_word].
  set (step := match (if PDFCharIsLineEnding ch then kInitial else eof_next st ch) with
    | kNonPercent => (pos, []) | st' => recording_to_next_word st' rest (pos + 1) end).
  assert (Hle : PDFCharIsLineEnding ch = true → PDFCharIsWhitespace ch = true ∧ (ch =? 37) = false).
  { unfold PDFCharIsLineEnding. intros H. assert (ch = 13 ∨ ch = 10) as [->| ->] by lia; done. }
  assert (Hstep : step.1 = if in_comment st then to_next_word (negb (PDFCharIsLineEnding ch)) rest (pos + 1)
    else if PDFCharIsWhitespace ch then to_next_word false rest (pos + 1)
    else if ch =? 37 then to_next_word true rest (pos + 1) else pos).
  { unfold step. destruct (PDFCharIsLineEnding ch) eqn:E.
    - destruct (Hle eq_refl) as [-> _]. rewrite IH by (cbn; lia || done). by destruct (in_comment st).
    - destruct st; cbn [eof_next in_comment negb]; try done;
        repeat case_match; try done; rewrite IH by (cbn; lia || done); done. }
  destruct (is_kF st && PDFCharIsLineEnding ch) eqn:E; [|exact Hstep].
  apply andb_prop in E as [Ek El]. destruct st; try done. cbn [in_comment] in *. rewrite El in *. cbn [negb] in *.
  destruct rest as [|c rest]; [by destruct step|].
  destruct ((ch =? 13) && (c =? 10)) eqn:E; [|by destruct step].
  pose proof (IH rest ltac:(cbn; lia) kInitial (pos + 2) ltac:(done)) as IHr.
  destruct (recording_to_next_word kInitial rest (pos + 2)) as [p ends]. cbn [fst] in *. rewrite IHr.
  assert (c = 10) as -> by lia. cbn [to_next_word in_comment]. change (PDFCharIsWhitespace 10) with true.
  cbn iota. f_equal. lia.
Qed.
