(* ===== verification/Utf8.v ===== *)
(** * UTF-8 and Latin-1

    [CFX_UTF8Encoder], [CFX_UTF8Decoder] ([core/fxcrt/cfx_utf8encoder.cpp],
    [cfx_utf8decoder.cpp]), [FX_UTF8Encode], [FX_UTF8Decode]
    ([core/fxcrt/fx_string.cpp]) and the conversions of [WideString]
    ([core/fxcrt/widestring.cpp]).  A wide character is its 32-bit code. *)
From S2P Require Import Prelude Words.

(** ** The encoder *)
Definition prefix : list Z := [0xc0; 0xe0; 0xf0; 0xf8; 0xfc].

(** [for (int i = 0; i < nbytes - 1; i++)] *)
Fixpoint utf8_tail (n : nat) (code order : Z) : list Z :=
  match n with
  | O => []
  | S n' =>
      let code := code mod order in
      let order := order .>> 6 in
      (0x80 .| code / order) :: utf8_tail n' code order
  end.

Definition utf8_nbytes (unicode : Z) : nat :=
  if unicode <? 0x800 then 2
  else if unicode <? 0x10000 then 3
  else if unicode <? 0x200000 then 4
  else if unicode <? 0x4000000 then 5 else 6.

(** [CFX_UTF8Encoder::Input]: what is appended. *)
Definition encoder_Input (unicode : Z) : list Z :=
  if unicode <? 0x80 then [unicode]
  else if 0x80000000 <=? unicode then []
  else
    let nbytes := utf8_nbytes unicode in
    let order := 1 .<< (Z.of_nat (nbytes - 1) * 6) in
    (prefix.[Z.of_nat nbytes - 2] .| unicode / order) :: utf8_tail (nbytes - 1) unicode order.

Definition FX_UTF8Encode (wsStr : list Z) : list Z := flat_map encoder_Input wsStr.

(** ** The decoder *)
Record CFX_UTF8Decoder := Utf8Decoder {
  m_PendingBytes : Z;
  m_PendingChar : Z;
  m_Buffer : list Z;
}.
Definition decoder_new : CFX_UTF8Decoder := Utf8Decoder 0 0 [].

Definition decoder_Input (d : CFX_UTF8Decoder) (byte : Z) : CFX_UTF8Decoder :=
  let '(Utf8Decoder pending ch buf) := d in
  if byte <? 0x80 then Utf8Decoder 0 ch (buf ++ [byte])
  else if byte <? 0xc0 then
    if pending =? 0 then d
    else
      let pending := pending - 1 in
      let ch := ch .| ((byte .& 0x3f) .<< (pending * 6)) in
      Utf8Decoder pending ch (if pending =? 0 then buf ++ [ch] else buf)
  else if byte <? 0xe0 then Utf8Decoder 1 ((byte .& 0x1f) .<< 6) buf
  else if byte <? 0xf0 then Utf8Decoder 2 ((byte .& 0x0f) .<< 12) buf
  else if byte <? 0xf8 then Utf8Decoder 3 ((byte .& 0x07) .<< 18) buf
  else if byte <? 0xfc then Utf8Decoder 4 ((byte .& 0x03) .<< 24) buf
  else if byte <? 0xfe then Utf8Decoder 5 ((byte .& 0x01) .<< 30) buf
  else Utf8Decoder 0 ch buf.

Definition FX_UTF8Decode (bsStr : list Z) : list Z :=
  match bsStr with
  | [] => []
  | _ => m_Buffer (fold_left decoder_Input bsStr decoder_new)
  end.

(** ** [WideString] *)
Definition FromLatin1 (bstr : list Z) : list Z := map (λ c, c .& 0xff) bstr.
Definition ToLatin1 (wstr : list Z) : list Z := map (λ wc, wc .& 0xff) wstr.
Definition ToUTF8 : list Z → list Z := FX_UTF8Encode.
Definition FromUTF8 : list Z → list Z := FX_UTF8Decode.

Example utf8_euro : ToUTF8 [0x20ac; 65] = [0xe2; 0x82; 0xac; 65] ∧ FromUTF8 [0xe2; 0x82; 0xac; 65] = [0x20ac; 65].
Proof. by split. Qed.

(** ** A character and its bytes *)
(** A value below [2 ^ k] under bits from [k] on. *)
Lemma lor_add a b k : 0 <= k → fits k b → (a * 2 ^ k) .| b = a * 2 ^ k + b.
Proof.
  intros Hk Hb. rewrite Z.lor_comm, <-Z.shiftl_mul_pow2 by done. rewrite lor_shiftl_add by done.
  rewrite Z.shiftl_mul_pow2 by done. lia.
Qed.

Lemma order_S n : 1 .<< (Z.of_nat (S n) * 6) = 64 * 2 ^ (6 * Z.of_nat n).
Proof. rewrite Z.shiftl_1_l. change 64 with (2 ^ 6). rewrite <-Z.pow_add_r by lia. f_equal. lia. Qed.

(** The continuation bytes: each carries six bits. *)
Lemma decode_tail n : ∀ code ch buf rest,
  (0 < n)%nat → 0 <= code → 0 <= ch → ch mod 2 ^ (6 * Z.of_nat n) = 0 →
  fold_left decoder_Input (utf8_tail n code (2 ^ (6 * Z.of_nat n)) ++ rest) (Utf8Decoder (Z.of_nat n) ch buf) =
  fold_left decoder_Input rest (Utf8Decoder 0 (ch + code mod 2 ^ (6 * Z.of_nat n))
    (buf ++ [ch + code mod 2 ^ (6 * Z.of_nat n)])).
Proof.
  induction n as [|n IH]; intros code ch buf rest Hn Hcode Hch Hmod; [lia|].
  cbn [utf8_tail app fold_left].
  assert (Hpow : 2 ^ (6 * Z.of_nat (S n)) = 64 * 2 ^ (6 * Z.of_nat n)).
  { rewrite <-order_S, Z.shiftl_1_l. f_equal. lia. }
  assert (Hord : 2 ^ (6 * Z.of_nat (S n)) .>> 6 = 2 ^ (6 * Z.of_nat n)).
  { rewrite Z.shiftr_div_pow2, Hpow by lia. change (2 ^ 6) with 64. rewrite Z.mul_comm. by apply Z.div_mul. }
  rewrite Hord. set (k := 6 * Z.of_nat n) in *. set (c := code mod 2 ^ (6 * Z.of_nat (S n))).
  assert (Hk : 0 < 2 ^ k) by (apply Z.pow_pos_nonneg; unfold k; lia).
  assert (Hc : 0 <= c < 64 * 2 ^ k) by (unfold c; rewrite Hpow; apply Z.mod_pos_bound; lia).
  set (q := c / 2 ^ k). assert (Hq : 0 <= q < 64).
  { unfold q. split; [apply Z.div_pos; lia|apply Z.div_lt_upper_bound; lia]. }
  assert (Hbyte : 0x80 .| q = 128 + q).
  { change 0x80 with (2 * 2 ^ 6). rewrite lor_add by (unfold fits; lia). lia. }
  rewrite Hbyte. unfold decoder_Input at 2.
  replace (128 + q <? 0x80) with false by lia. replace (128 + q <? 0xc0) with true by lia.
  replace (Z.of_nat (S n) =? 0) with false by lia.
  replace (Z.of_nat (S n) - 1) with (Z.of_nat n) by lia.
  assert (Hand : (128 + q) .& 0x3f = q).
  { change 0x3f with (2 ^ 6 - 1). rewrite land_ones_mod by lia. change (2 ^ 6) with 64.
    replace (128 + q) with (q + 2 * 64) by lia. rewrite Z.mod_add by lia. apply Z.mod_small. lia. }
  rewrite Hand.
  assert (Hor : ch .| (q .<< (Z.of_nat n * 6)) = ch + q * 2 ^ k).
  { rewrite (Z.div_mod ch (2 ^ (6 * Z.of_nat (S n)))) at 1 by lia. rewrite Hmod, Z.add_0_r, (Z.mul_comm (2 ^ _)).
    rewrite Z.shiftl_mul_pow2 by lia. replace (Z.of_nat n * 6) with k by (unfold k; lia).
    rewrite lor_add; [|lia|unfold fits; rewrite Hpow; nia].
    rewrite (Z.div_mod ch (2 ^ (6 * Z.of_nat (S n)))) at 2 by lia. lia. }
  rewrite Hor. pose proof (Z.div_mod c (2 ^ k) ltac:(lia)) as Hdm. fold q in Hdm.
  destruct n as [|n].
  - replace (2 ^ k) with 1 in * by done. rewrite Z.mod_1_r in Hdm. cbn [utf8_tail app].
    change (Z.of_nat 0 =? 0) with true. cbn iota. do 2 f_equal; [lia|]. do 2 f_equal. lia.
  - replace (Z.of_nat (S n) =? 0) with false by lia.
    rewrite IH; [|lia|lia|nia|].
    + fold k. replace (ch + q * 2 ^ k + c mod 2 ^ k) with (ch + c) by lia. done.
    + fold k. rewrite Z.mod_add by lia. apply Z.mod_divide; [lia|].
      apply Z.mod_divide in Hmod; [|lia]. rewrite Hpow in Hmod. destruct Hmod as [z ->]. exists (z * 64). lia.
Qed.

Lemma decode_char u buf ch rest : 0 <= u < 0x80000000 →
  ∃ ch', fold_left decoder_Input (encoder_Input u ++ rest) (Utf8Decoder 0 ch buf) =
    fold_left decoder_Input rest (Utf8Decoder 0 ch' (buf ++ [u])).
Proof.
  intros Hu. unfold encoder_Input. destruct (Z.ltb_spec u 0x80) as [Hs|Hs].
  { cbn [app fold_left]. unfold decoder_Input at 2. rewrite (proj2 (Z.ltb_lt u 0x80) Hs). by eexists. }
  rewrite (proj2 (Z.leb_gt _ _)) by lia. set (n := utf8_nbytes u).
  assert (Hlead : ∃ m k pre mask, n = S m ∧ (0 < m)%nat ∧ k = 6 * Z.of_nat m ∧ prefix.[Z.of_nat n - 2] = pre ∧
    u < 2 ^ k * (mask + 1) ∧
    ∀ q, 0 <= q <= mask → ∀ rest, fold_left decoder_Input ((pre .| q) :: rest) (Utf8Decoder 0 ch buf) =
      fold_left decoder_Input rest (Utf8Decoder (Z.of_nat m) (q * 2 ^ k) buf)).
  { assert (Hstep : ∀ (m : nat) pre mask,
      forallb (λ q, match decoder_Input (Utf8Decoder 0 0 []) (pre .| q) with
                    | Utf8Decoder p c [] => (p =? Z.of_nat m) && (c =? q * 2 ^ (6 * Z.of_nat m)) && (0xc0 <=? (pre .| q)) && ((pre .| q) <? 0xfe)
                    | _ => false end) (seqZ 0 (mask + 1)) = true →
      ∀ q, 0 <= q <= mask → ∀ rest, fold_left decoder_Input ((pre .| q) :: rest) (Utf8Decoder 0 ch buf) =
        fold_left decoder_Input rest (Utf8Decoder (Z.of_nat m) (q * 2 ^ (6 * Z.of_nat m)) buf)).
    { intros m pre mask Hall q Hq rest'. rewrite forallb_forall in Hall.
      specialize (Hall q ltac:(apply list_elem_of_In, elem_of_seqZ; lia)).
      cbn [fold_left]. f_equal. revert Hall. unfold decoder_Input. set (b := pre .| q).
      destruct (b <? 0x80) eqn:E1; [done|]. destruct (b <? 0xc0) eqn:E2; [cbn; intros; lia|].
      repeat case_match; intros; simplify_eq; f_equal; lia. }
    unfold n, utf8_nbytes. clear n.
    destruct (Z.ltb_spec u 0x800); [exists 1%nat, 6, 0xc0, 31|].
    2: destruct (Z.ltb_spec u 0x10000); [exists 2%nat, 12, 0xe0, 15|].
    3: destruct (Z.ltb_spec u 0x200000); [exists 3%nat, 18, 0xf0, 7|].
    4: destruct (Z.ltb_spec u 0x4000000); [exists 4%nat, 24, 0xf8, 3|exists 5%nat, 30, 0xfc, 1].
    all: split_and!; [done|lia|done|done|lia|].
    - apply (Hstep 1%nat 0xc0 31); by vm_compute.
    - apply (Hstep 2%nat 0xe0 15); by vm_compute.
    - apply (Hstep 3%nat 0xf0 7); by vm_compute.
    - apply (Hstep 4%nat 0xf8 3); by vm_compute.
    - apply (Hstep 5%nat 0xfc 1); by vm_compute. }
  destruct Hlead as (m & k & pre & mask & -> & Hm & Ek & -> & Hlt & Hstep).
  cbn [Nat.sub]. rewrite Nat.sub_0_r, Z.shiftl_1_l. replace (Z.of_nat m * 6) with k by lia.
  assert (Hk : 0 < 2 ^ k) by (apply Z.pow_pos_nonneg; lia).
  assert (Hq : 0 <= u / 2 ^ k <= mask).
  { split; [apply Z.div_pos; lia|]. apply Z.lt_succ_r, Z.div_lt_upper_bound; lia. }
  cbn [app]. rewrite Hstep by done. subst k.
  rewrite decode_tail; [|done|lia|nia|apply Z.mod_mul; lia].
  eexists. do 3 f_equal. f_equal. pose proof (Z.div_mod u (2 ^ (6 * Z.of_nat m)) ltac:(lia)). lia.
Qed.

Lemma decode_string ws : ∀ buf ch,
  Forall (λ u, 0 <= u < 0x80000000) ws →
  m_Buffer (fold_left decoder_Input (FX_UTF8Encode ws) (Utf8Decoder 0 ch buf)) = buf ++ ws.
Proof.
  induction ws as [|u ws IH]; intros buf ch Hws; [by rewrite app_nil_r|].
  inversion_clear Hws as [|?? Hu Hr]. unfold FX_UTF8Encode. cbn [flat_map].
  destruct (decode_char u buf ch (flat_map encoder_Input ws) Hu) as [ch' ->].
  fold (FX_UTF8Encode ws). rewrite IH by done. by rewrite <-app_assoc.
Qed.

(** The decoder reads back every text of codes below 2^31 the encoder wrote,
    surrogates and codes above the Unicode range included; other codes are left
    out; a Latin-1 text goes through UTF-8 and back unchanged. *)
Theorem utf8_roundtrip ws s bad :
  Forall (λ u, 0 <= u < 0x80000000) ws → bytes s → 0x80000000 <= bad →
  FromUTF8 (ToUTF8 ws) = ws ∧ ToUTF8 (bad :: ws) = ToUTF8 ws ∧
  ToLatin1 (FromUTF8 (ToUTF8 (FromLatin1 s))) = s.
Proof.
  intros Hws Hs Hbad.
  assert (Hrt : ∀ ws, Forall (λ u, 0 <= u < 0x80000000) ws → FromUTF8 (ToUTF8 ws) = ws).
  { intros w Hw. unfold FromUTF8, ToUTF8, FX_UTF8Decode.
    pose proof (decode_string w [] 0 Hw) as H. by destruct (FX_UTF8Encode w). }
  split; [by apply Hrt|]. split.
  { unfold ToUTF8, FX_UTF8Encode. cbn [flat_map]. unfold encoder_Input at 1.
    by rewrite (proj2 (Z.ltb_ge _ _)), (proj2 (Z.leb_le _ _)) by lia. }
  assert (Hl : FromLatin1 s = s ∧ ToLatin1 s = s).
  { unfold FromLatin1, ToLatin1. assert (E : map (λ c, c .& 0xff) s = s); [|done].
    induction Hs as [|c s Hc Hs IH]; cbn [map]; [done|]. rewrite IH. f_equal.
    change 0xff with (2 ^ 8 - 1). rewrite land_ones_mod by lia. by apply Z.mod_small. }
  destruct Hl as [-> Hl]. rewrite Hrt; [done|]. eapply Forall_impl; [exact Hs|]. unfold fits. intros. lia.
Qed.

Lemma utf8_roundtrip_witness :
  FromUTF8 (ToUTF8 [0x10ffff; 0xd800; 0x7fffffff]) = [0x10ffff; 0xd800; 0x7fffffff] ∧
  ToUTF8 (0x80000000 :: [0x10ffff; 0xd800; 0x7fffffff]) = ToUTF8 [0x10ffff; 0xd800; 0x7fffffff] ∧
  ToLatin1 (FromUTF8 (ToUTF8 (FromLatin1 [233; 0]))) = [233; 0].
Proof.
  apply (utf8_roundtrip [0x10ffff; 0xd800; 0x7fffffff] [233; 0] 0x80000000);
    [repeat (apply List.Forall_cons; [lia|]); apply List.Forall_nil|solve_bytes|lia].
Defined.
