(* ===== verification/Dict.v ===== *)
(** * Dictionaries and the values of their entries

    [CPDF_Dictionary] ([core/fpdfapi/parser/cpdf_dictionary.cpp]): the changes of
    its map and the getters, with the [GetString] and [GetInteger] of the
    objects.  The map is the list of [Objects.v]. *)
From Stdlib Require Import Sorted.
From stdpp Require Import gmap.
From S2P Require Import Prelude CharTypes FxNumber Objects.

(** ** Changes *)
Fixpoint erase (key : list Z) (m : dict) : dict :=
  match m with
  | [] => []
  | (k, o) :: m' => if bool_decide (k = key) then m' else (k, o) :: erase key m'
  end.

(** [SetFor] with an object or [nullptr]. *)
Definition SetOrEraseFor (key : list Z) (pObj : option CPDF_Object) (m : dict) : dict :=
  match pObj with None => erase key m | Some o => SetFor key o m end.

Definition RemoveFor (key : list Z) (m : dict) : option CPDF_Object * dict :=
  match GetObjectFor key m with
  | Some o => (Some o, erase key m)
  | None => (None, m)
  end.

Definition ReplaceKey (oldkey newkey : list Z) (m : dict) : dict :=
  match GetObjectFor oldkey m with
  | None => m
  | Some o => if bool_decide (newkey = oldkey) then m else erase oldkey (SetFor newkey o m)
  end.

Definition KeyExist (m : dict) (key : list Z) : bool :=
  match GetObjectFor key m with Some _ => true | None => false end.

Definition GetKeys (m : dict) : list (list Z) := map fst m.

(** ** Values *)
Section values.
Context (holder : Z → option CPDF_Object).

(** [CPDF_Reference::SafeGetDirect] *)
Definition SafeGetDirect (objnum : Z) : option CPDF_Object :=
  match holder objnum with
  | Some (CPDF_Reference _) => None
  | o => o
  end.

(** Of an object that is not a reference. *)
Definition direct_string (o : CPDF_Object) : list Z :=
  match o with
  | CPDF_Boolean b => if b then str_true else str_false
  | CPDF_Number n => NumberGetString n
  | CPDF_String s _ => s
  | CPDF_Name s => s
  | _ => []
  end.
Definition direct_integer (o : CPDF_Object) : Z :=
  match o with
  | CPDF_Boolean b => if b then 1 else 0
  | CPDF_Number n => GetSigned n
  | _ => 0
  end.

Definition through_reference {A} (get : CPDF_Object → A) (default : A) (o : CPDF_Object) : A :=
  match o with
  | CPDF_Reference n | CPDF_Indirect n =>
      match SafeGetDirect n with Some o => get o | None => default end
  | _ => get o
  end.
Definition GetString : CPDF_Object → list Z := through_reference direct_string [].
Definition GetInteger : CPDF_Object → Z := through_reference direct_integer 0.

Definition GetDirectObjectFor (m : dict) (key : list Z) : option CPDF_Object :=
  o ← GetObjectFor key m; GetDirect holder o.

Definition GetStringFor (m : dict) (key : list Z) : list Z :=
  match GetObjectFor key m with Some p => GetString p | None => [] end.

Definition GetIntegerFor (m : dict) (key : list Z) (def : Z) : Z :=
  match GetObjectFor key m with Some p => GetInteger p | None => def end.

Definition GetBooleanFor (m : dict) (key : list Z) (bDefault : bool) : bool :=
  match GetObjectFor key m with
  | Some (CPDF_Boolean b) => negb (GetInteger (CPDF_Boolean b) =? 0)
  | _ => bDefault
  end.

Definition GetNameFor (m : dict) (key : list Z) : list Z :=
  match GetObjectFor key m with Some (CPDF_Name s) => GetString (CPDF_Name s) | _ => [] end.

Definition GetDictFor (m : dict) (key : list Z) : option dict :=
  match GetDirectObjectFor m key with
  | Some (CPDF_Dictionary d) => Some d
  | Some (CPDF_Stream d _) => Some d
  | _ => None
  end.

Definition GetArrayFor (m : dict) (key : list Z) : option (list CPDF_Object) :=
  match GetDirectObjectFor m key with Some (CPDF_Array l) => Some l | _ => None end.

(** [CPDF_Array::GetStringAt] and [GetIntegerAt]. *)
Definition GetStringAt (l : list CPDF_Object) (index : nat) : list Z :=
  match l !! index with Some o => GetString o | None => [] end.
Definition GetIntegerAt (l : list CPDF_Object) (index : nat) : Z :=
  match l !! index with Some o => GetInteger o | None => 0 end.
End values.

(** ** The order of the keys *)
Lemma bytes_lt_irrefl a : bytes_lt a a = false.
Proof. induction a as [|x a IH]; [done|]. cbn. rewrite Z.ltb_irrefl, IH. apply andb_false_r. Qed.

Lemma bytes_lt_trans a : ∀ b c, bytes_lt a b = true → bytes_lt b c = true → bytes_lt a c = true.
Proof.
  induction a as [|x a IH]; intros [|y b] [|z c]; cbn; try done.
  intros H1 H2. apply orb_true_iff in H1, H2. apply orb_true_iff.
  rewrite !andb_true_iff in *. destruct H1 as [|[? H1]], H2 as [|[? H2]]; try (left; lia).
  right. split; [lia|]. by apply (IH b).
Qed.

Lemma bytes_lt_total a : ∀ b, bytes_lt a b = false → bytes_lt b a = false → a = b.
Proof.
  induction a as [|x a IH]; intros [|y b]; cbn; try done.
  rewrite !orb_false_iff, !andb_false_iff. intros [H1 H2] [H3 H4]. assert (x = y) as -> by lia.
  rewrite Z.eqb_refl in *. destruct H2, H4; try done. f_equal. by apply IH.
Qed.

(** The list of a map: its keys increase. *)
Definition sorted_dict (m : dict) : Prop := StronglySorted (λ a b, bytes_lt a b = true) (map fst m).
Definition to_map (m : dict) : gmap (list Z) CPDF_Object := list_to_map m.

Lemma sorted_cons k o m :
  sorted_dict ((k, o) :: m) ↔ sorted_dict m ∧ Forall (λ kv, bytes_lt k kv.1 = true) m.
Proof.
  unfold sorted_dict. change (map fst ((k, o) :: m)) with (k :: map fst m). split.
  - intros H. apply StronglySorted_inv in H as [H1 H2]. by rewrite List.Forall_map in H2.
  - intros [H1 H2]. constructor; [done|]. by rewrite List.Forall_map.
Qed.

Lemma above_no_key k m : Forall (λ kv, bytes_lt k kv.1 = true) m → to_map m !! k = None.
Proof.
  intros H. apply not_elem_of_list_to_map_1. intros Hin.
  apply list_elem_of_fmap in Hin as ([k' o] & -> & Hin).
  rewrite Forall_forall in H. specialize (H _ Hin). cbn in H. by rewrite bytes_lt_irrefl in H.
Qed.

Lemma GetObjectFor_map k m : GetObjectFor k m = to_map m !! k.
Proof.
  induction m as [|[k' o] m IH]; [done|]. cbn [GetObjectFor to_map]. unfold to_map. rewrite list_to_map_cons.
  destruct (bool_decide_reflect (k' = k)) as [->|Hne]; [by rewrite lookup_insert_eq|].
  by rewrite lookup_insert_ne.
Qed.

Lemma SetFor_forall (P : list Z → Prop) k o m :
  P k → Forall (λ kv, P kv.1) m → Forall (λ kv, P kv.1) (SetFor k o m).
Proof.
  intros Hk. induction 1 as [|[k' o'] m Hk' Hm IH]; cbn [SetFor]; [by constructor|].
  destruct (bytes_lt k k'); [by repeat constructor|]. by destruct (bytes_lt k' k); constructor.
Qed.

Lemma SetFor_map k o m : to_map (SetFor k o m) = <[k := o]> (to_map m).
Proof.
  induction m as [|[k' o'] m IH]; [done|]. cbn [SetFor].
  destruct (bytes_lt k k') eqn:E1; [done|]. destruct (bytes_lt k' k) eqn:E2.
  - unfold to_map in *. rewrite !list_to_map_cons, IH. apply insert_insert_ne.
    intros ->. by rewrite bytes_lt_irrefl in E2.
  - rewrite (bytes_lt_total _ _ E1 E2). unfold to_map. by rewrite !list_to_map_cons, insert_insert_eq.
Qed.

Lemma SetFor_sorted k o m : sorted_dict m → sorted_dict (SetFor k o m).
Proof.
  induction m as [|[k' o'] m IH]; intros Hs; cbn [SetFor]; [repeat constructor|].
  destruct (proj1 (sorted_cons _ _ _) Hs) as [Hm Hab].
  destruct (bytes_lt k k') eqn:E1.
  - apply sorted_cons. split; [done|]. constructor; [done|]. eapply Forall_impl; [exact Hab|].
    intros [k2 o2]. cbn. by apply bytes_lt_trans.
  - destruct (bytes_lt k' k) eqn:E2.
    + apply sorted_cons. split; [by apply IH|]. by apply (SetFor_forall (λ x, bytes_lt k' x = true)).
    + by apply sorted_cons.
Qed.

Lemma erase_map k m : sorted_dict m → to_map (erase k m) = delete k (to_map m).
Proof.
  induction m as [|[k' o'] m IH]; intros Hs; cbn [erase]; [symmetry; apply delete_empty|].
  destruct (proj1 (sorted_cons _ _ _) Hs) as [Hm Hab].
  unfold to_map in *. rewrite list_to_map_cons. destruct (bool_decide_reflect (k' = k)) as [->|Hne].
  - rewrite delete_insert_eq. rewrite delete_id; [done|]. by apply above_no_key.
  - rewrite list_to_map_cons, IH by done. by rewrite delete_insert_ne.
Qed.

Lemma erase_sorted k m : sorted_dict m → sorted_dict (erase k m).
Proof.
  induction m as [|[k' o'] m IH]; intros Hs; cbn [erase]; [done|].
  destruct (proj1 (sorted_cons _ _ _) Hs) as [Hm Hab]. destruct (bool_decide_reflect (k' = k)) as [->|Hne]; [done|].
  apply sorted_cons. split; [by apply IH|]. clear -Hab. induction Hab as [|[k2 o2] m H Hm IHm]; cbn; [done|].
  destruct (bool_decide _); [exact Hm|]. by constructor.
Qed.

Lemma sorted_unique m1 : ∀ m2, sorted_dict m1 → sorted_dict m2 → to_map m1 = to_map m2 → m1 = m2.
Proof.
  assert (Hhead : ∀ k1 o1 m1 k2 o2 m2, sorted_dict ((k1, o1) :: m1) → sorted_dict ((k2, o2) :: m2) →
    to_map ((k1, o1) :: m1) = to_map ((k2, o2) :: m2) → bytes_lt k1 k2 = false).
  { intros k1 o1 m1' k2 o2 m2 _ H2 E. destruct (proj1 (sorted_cons _ _ _) H2) as [_ Hab].
    destruct (bytes_lt k1 k2) eqn:Elt; [|done].
    assert (Hn : to_map ((k2, o2) :: m2) !! k1 = None).
    { apply above_no_key. constructor; [done|]. eapply Forall_impl; [exact Hab|]. intros [k o]. by apply bytes_lt_trans. }
    rewrite <-E in Hn. unfold to_map in Hn. by rewrite list_to_map_cons, lookup_insert_eq in Hn. }
  induction m1 as [|[k1 o1] m1 IH]; intros [|[k2 o2] m2] H1 H2 E; try done.
  - apply (f_equal (λ m, m !! k2)) in E. unfold to_map in E. by rewrite list_to_map_cons, lookup_insert_eq in E.
  - apply (f_equal (λ m, m !! k1)) in E. unfold to_map in E. by rewrite list_to_map_cons, lookup_insert_eq in E.
  - assert (k1 = k2) as <-.
    { apply bytes_lt_total; [by eapply (Hhead k1 o1 m1)|by eapply (Hhead k2 o2 m2)]. }
    pose proof (f_equal (λ m, m !! k1) E) as Eo. unfold to_map in Eo.
    rewrite !list_to_map_cons, !lookup_insert_eq in Eo. injection Eo as ->.
    destruct (proj1 (sorted_cons _ _ _) H1) as [Hs1 Ha1], (proj1 (sorted_cons _ _ _) H2) as [Hs2 Ha2].
    f_equal. apply IH; [done..|]. apply (f_equal (delete k1)) in E. unfold to_map in E.
    rewrite !list_to_map_cons, !delete_insert_eq, !delete_id in E by (by apply above_no_key). done.
Qed.

Lemma GetObjectFor_SetFor k k' o m :
  GetObjectFor k (SetFor k' o m) = if bool_decide (k = k') then Some o else GetObjectFor k m.
Proof.
  rewrite !GetObjectFor_map, SetFor_map. destruct (bool_decide_reflect (k = k')) as [->|Hne];
    [apply lookup_insert_eq|by apply lookup_insert_ne].
Qed.

(** C32: a dictionary is a finite map kept as its sorted list: every change keeps
    the keys increasing, so that a map has one list, and does to the map what its
    name says; [ReplaceKey] moves an entry over whatever the new key held. *)
Theorem dict_is_map m key o newkey :
  sorted_dict m →
  (sorted_dict (SetOrEraseFor key o m) ∧
   to_map (SetOrEraseFor key o m) = partial_alter (λ _, o) key (to_map m)) ∧
  (sorted_dict (RemoveFor key m).2 ∧ (RemoveFor key m).1 = to_map m !! key ∧
   to_map (RemoveFor key m).2 = delete key (to_map m)) ∧
  (sorted_dict (ReplaceKey key newkey m) ∧
   to_map (ReplaceKey key newkey m) =
     match to_map m !! key with
     | Some v => if decide (newkey = key) then to_map m else <[newkey := v]> (delete key (to_map m))
     | None => to_map m
     end) ∧
  (KeyExist m key = true ↔ key ∈ GetKeys m) ∧ NoDup (GetKeys m) ∧
  (∀ m', sorted_dict m' → to_map m' = to_map m → m' = m).
Proof.
  intros Hs. split_and!.
  - destruct o; [by apply SetFor_sorted|by apply erase_sorted].
  - destruct o; cbn; [apply SetFor_map|by apply erase_map].
  - unfold RemoveFor. case_match; [by apply erase_sorted|done].
  - unfold RemoveFor. rewrite GetObjectFor_map. by case_match.
  - unfold RemoveFor. rewrite GetObjectFor_map. case_match; [by apply erase_map|]. by rewrite delete_id.
  - unfold ReplaceKey. repeat case_match; [done| |done]. by apply erase_sorted, SetFor_sorted.
  - unfold ReplaceKey. rewrite GetObjectFor_map. case_match; [|done].
    destruct (decide (newkey = key)) as [->|Hne]; [by rewrite bool_decide_eq_true_2|].
    rewrite bool_decide_eq_false_2, erase_map, SetFor_map by (done || by apply SetFor_sorted).
    by apply delete_insert_ne.
  - unfold KeyExist, GetKeys. rewrite GetObjectFor_map. destruct (to_map m !! key) eqn:E.
    + split; [|done]. intros _. apply elem_of_list_to_map_2 in E. by apply (list_elem_of_fmap_2 fst) in E.
    + split; [done|]. intros Hin. exfalso. revert Hin. by apply not_elem_of_list_to_map_2.
  - unfold GetKeys. clear -Hs. unfold sorted_dict in Hs. induction Hs as [|k l Hs IH Hf]; constructor; [|done].
    intros Hin. rewrite Forall_forall in Hf. specialize (Hf _ Hin). by rewrite bytes_lt_irrefl in Hf.
  - intros m' Hm' E. by apply sorted_unique.
Qed.

Definition dict_example : dict := [([65], CPDF_Null); ([66; 1], CPDF_Boolean true)].

Lemma dict_is_map_witness :
  sorted_dict dict_example ∧ ReplaceKey [65] [67] dict_example = [([66; 1], CPDF_Boolean true); ([67], CPDF_Null)] ∧
  sorted_dict (ReplaceKey [65] [67] dict_example).
Proof.
  assert (Hs : sorted_dict dict_example) by (repeat constructor).
  split; [exact Hs|]. split; [reflexivity|].
  exact (proj1 (proj1 (proj2 (proj2 (dict_is_map dict_example [65] None [67] Hs))))).
Defined.
