(* ===== verification/AesKeys.v ===== *)
(** * AES contexts

    Lemmas on the contexts of [Aes.v] for their clients: a context keeps being
    well formed, two contexts set up with the same key and block work together
    whatever they held before, and a buffer may be processed in pieces. *)
From S2P Require Import Prelude Words AesTables Aes.

#[local] Opaque Sbox Sboxinv E0 E1 E2 E3 D0 D1 D2 D3.

(** ** Two set-ups with the same key *)
Section agree.
Context (key : list Z) (Nk : Z) (HNk : 0 < Nk).

Lemma setup_word_length i s : length (setup_word key Nk i s).1 = length s.1.
Proof.
  destruct s as [ks rc]. unfold setup_word. repeat case_match; apply length_wr.
Qed.

Lemma setup_agree n ks1 ks2 :
  length ks1 = length ks2 → (n <= length ks1)%nat →
  let s1 := for_loop n (setup_word key Nk) (ks1, 1) in
  let s2 := for_loop n (setup_word key Nk) (ks2, 1) in
  s1.2 = s2.2 ∧ length s1.1 = length ks1 ∧ length s2.1 = length ks1 ∧
  ∀ j, 0 <= j < Z.of_nat n → s1.1.[j] = s2.1.[j].
Proof.
  intros Hlen Hn. cbv zeta. induction n as [|n IH]; [split_and!; try done; intros; lia|].
  cbn [for_loop]. destruct IH as (Hrc & H1 & H2 & Heq); [lia|].
  set (s1 := for_loop n _ (ks1, 1)) in *. set (s2 := for_loop n _ (ks2, 1)) in *.
  destruct s1 as [a rc], s2 as [b rc']. cbn [fst snd] in *. subst rc'.
  assert (Hw : ∀ x, length (wr a (Z.of_nat n) x) = length ks1 ∧ length (wr b (Z.of_nat n) x) = length ks1 ∧
    ∀ j, 0 <= j < Z.of_nat (S n) → (wr a (Z.of_nat n) x).[j] = (wr b (Z.of_nat n) x).[j]).
  { intros x. rewrite !length_wr. split_and!; [done..|]. intros j Hj.
    destruct (Z.eq_dec j (Z.of_nat n)) as [->|].
    - rewrite !rd_wr_eq by (unfold zlen; lia). done.
    - rewrite !rd_wr_ne by lia. apply Heq. lia. }
  unfold setup_word. destruct (Z.ltb_spec (Z.of_nat n) Nk) as [|HnN]; [split; [done|apply Hw]|].
  rewrite (Heq (Z.of_nat n - 1)) by lia. rewrite (Heq (Z.of_nat n - Nk)) by lia.
  destruct (Z.of_nat n mod Nk =? 0); [split; [done|apply Hw]|].
  destruct ((Z.of_nat n mod Nk =? 4) && (6 <? Nk)); (split; [done|apply Hw]).
Qed.
End agree.

(** [e] encrypts what [d] decrypts. *)
Record pair_ok (e d : CRYPT_aes_context) : Prop := {
  pair_Nr : aes_Nr e = aes_Nr d;
  pair_pos : 1 <= aes_Nr e;
  pair_ks : Forall (fits 32) (keysched e);
  pair_inv : inv_keys (aes_Nr e) (keysched e) (invkeysched d);
  pair_iv : take 4 (aes_iv e) = take 4 (aes_iv d);
  pair_fits : Forall (fits 32) (take 4 (aes_iv e));
}.

Lemma wf_length_sched ctx : aes_ctx_wf ctx →
  length (keysched ctx) = 120%nat ∧ length (invkeysched ctx) = 120%nat.
Proof. by intros (? & ? & _). Qed.

Lemma set_iv_words ctx iv :
  aes_Nb ctx = 4 → length (aes_iv ctx) = 8%nat →
  take 4 (aes_iv (CRYPT_AESSetIV ctx iv)) = read_block iv.
Proof.
  intros HNb Hl. unfold CRYPT_AESSetIV. cbn [aes_iv]. rewrite HNb.
  destruct (aes_iv ctx) as [|? [|? [|? [|? l]]]]; try (cbn in Hl; lia). reflexivity.
Qed.

Lemma set_key_wf ctx key :
  aes_ctx_wf ctx → valid_keylen (zlen key) → bytes key →
  aes_ctx_wf (CRYPT_AESSetKey ctx key (zlen key)) ∧ aes_Nb (CRYPT_AESSetKey ctx key (zlen key)) = 4.
Proof.
  intros Hwf Hlen Hkey. destruct (aes_setup_ok ctx key Hwf Hlen Hkey) as (HNb & HNr & Hks & _ & Hiv).
  split; [|done]. destruct (wf_length_sched ctx Hwf) as [HL1 HL2]. destruct Hwf as (_ & _ & H3 & _ & H5).
  split_and!; [| |by rewrite Hiv|done|by rewrite Hiv].
  - unfold CRYPT_AESSetKey, aes_setup. set (Nk := zlen key / 4).
    pose proof (for_loop_ind (λ _ s, length s.1 = 120%nat) (Z.to_nat ((6 + (if Nk <? 4 then 4 else Nk) + 1) * 4))
      (setup_word key Nk) (keysched ctx, 1)) as Hloop.
    destruct (for_loop _ _ _) as [ks rc]. cbn [keysched fst] in *. apply Hloop; [done|].
    intros. by rewrite setup_word_length.
  - unfold CRYPT_AESSetKey, aes_setup. destruct (for_loop _ (setup_word _ _) _) as [ks rc]. cbn [invkeysched].
    assert (HN : 0 <= zlen key / 4 <= 8) by (destruct Hlen as [-> | [-> | ->]]; by vm_compute).
    assert (Hz : zlen (invkeysched ctx) = 120) by (unfold zlen; by rewrite HL2).
    etrans; [apply inv_loop|exact HL2]. rewrite Hz. case_match; lia.
Qed.

Lemma set_iv_wf ctx iv :
  aes_ctx_wf ctx → aes_Nb ctx = 4 → bytes iv → length iv = 16%nat → aes_ctx_wf (CRYPT_AESSetIV ctx iv).
Proof.
  intros Hwf HNb Hiv Hlen. destruct Hwf as (H1 & H2 & H3 & H4 & H5).
  split_and!; [done..| |done|by apply set_iv_fits].
  unfold CRYPT_AESSetIV. cbn [aes_iv].
  apply (for_loop_ind (λ _ v, length v = 8%nat)); [done|]. intros. by rewrite length_wr.
Qed.

Lemma pair_setup e0 d0 key iv :
  aes_ctx_wf e0 → aes_ctx_wf d0 → valid_keylen (zlen key) → bytes key → bytes iv → length iv = 16%nat →
  pair_ok (CRYPT_AESSetIV (CRYPT_AESSetKey e0 key (zlen key)) iv)
          (CRYPT_AESSetIV (CRYPT_AESSetKey d0 key (zlen key)) iv).
Proof.
  intros He Hd Hlen Hkey Hiv Hivl.
  destruct (aes_setup_ok e0 key He Hlen Hkey) as (HNb & HNr & Hks & _ & _).
  destruct (aes_setup_ok d0 key Hd Hlen Hkey) as (HNb' & HNr' & _ & Hinv & _).
  destruct (set_key_wf e0 key He Hlen Hkey) as [Hwe _], (set_key_wf d0 key Hd Hlen Hkey) as [Hwd _].
  assert (HNk : 0 < zlen key / 4 <= 8) by (destruct Hlen as [-> | [-> | ->]]; by vm_compute).
  assert (HN : aes_Nr (CRYPT_AESSetKey e0 key (zlen key)) = aes_Nr (CRYPT_AESSetKey d0 key (zlen key))).
  { unfold CRYPT_AESSetKey, aes_setup. by destruct (for_loop _ _ (keysched e0, 1)), (for_loop _ _ (keysched d0, 1)). }
  split; [done|cbn [aes_Nr CRYPT_AESSetIV]; lia|done| | |].
  - intros i j Hi Hj. cbn [CRYPT_AESSetIV aes_Nr keysched invkeysched] in *. rewrite HN in *.
    rewrite (Hinv i j Hi Hj). unfold inv_word.
    pose proof (setup_agree key (zlen key / 4) ltac:(lia)
      (Z.to_nat ((6 + (if zlen key / 4 <? 4 then 4 else zlen key / 4) + 1) * 4)) (keysched d0) (keysched e0)) as Hag.
    destruct (wf_length_sched e0 He) as [HL1 _], (wf_length_sched d0 Hd) as [HL2 _].
    destruct Hag as (_ & _ & _ & Hag); [by rewrite HL1|rewrite HL2; case_match; lia|].
    unfold CRYPT_AESSetKey, aes_setup in *.
    destruct (for_loop _ _ (keysched e0, 1)) as [ke re], (for_loop _ _ (keysched d0, 1)) as [kd rd'].
    cbn [keysched invkeysched aes_Nr fst] in *. by rewrite Hag by lia.
  - rewrite !set_iv_words; [done|done|apply Hwd|done|apply Hwe].
  - rewrite set_iv_words by (done || apply Hwe). by apply read_block_fits; [|rewrite Hivl].
Qed.

(** ** Pieces *)
Lemma enc_cbc_congr c c' n : ∀ iv src,
  aes_Nr c = aes_Nr c' → keysched c = keysched c' →
  aes_encrypt_cbc c n iv src = aes_encrypt_cbc c' n iv src.
Proof.
  induction n as [|n IH]; intros iv src HN Hk; [done|]. cbn [aes_encrypt_cbc].
  unfold aes_encrypt_nb_4. rewrite HN, Hk. by rewrite IH.
Qed.

Lemma dec_cbc_congr c c' n : ∀ iv src,
  aes_Nr c = aes_Nr c' → invkeysched c = invkeysched c' →
  aes_decrypt_cbc c n iv src = aes_decrypt_cbc c' n iv src.
Proof.
  induction n as [|n IH]; intros iv src HN Hk; [done|]. cbn [aes_decrypt_cbc].
  unfold aes_decrypt_nb_4. rewrite HN, Hk. by rewrite IH.
Qed.

Lemma dec_cbc_app c n m : ∀ iv a b, length a = (16 * n)%nat →
  aes_decrypt_cbc c (n + m) iv (a ++ b) =
    let '(iv, o) := aes_decrypt_cbc c n iv a in
    let '(iv', o') := aes_decrypt_cbc c m iv b in (iv', o ++ o').
Proof.
  induction n as [|n IH]; intros iv a b Ha.
  - destruct a; [|cbn in Ha; lia]. cbn. by destruct (aes_decrypt_cbc c m iv b).
  - cbn [Nat.add aes_decrypt_cbc]. assert (Ea : read_block (a ++ b) = read_block a).
    { do 16 (destruct a as [|? a]; [cbn in Ha; lia|]). reflexivity. }
    rewrite Ea, drop_app_le by lia. rewrite IH by (rewrite length_drop; lia).
    destruct (aes_decrypt_cbc c n (read_block a) (drop 16 a)) as [iv1 o1].
    destruct (aes_decrypt_cbc c m iv1 b) as [iv2 o2]. by rewrite app_assoc.
Qed.

Lemma length_dec_cbc c n : ∀ iv src, length iv = 4%nat →
  length (aes_decrypt_cbc c n iv src).1 = 4%nat ∧ length (aes_decrypt_cbc c n iv src).2 = (16 * n)%nat.
Proof.
  induction n as [|n IH]; intros iv src Hiv; [done|]. cbn [aes_decrypt_cbc].
  specialize (IH (read_block src) (drop 16 src) ltac:(done)).
  destruct (aes_decrypt_cbc c n _ _) as [iv' o]. cbn [fst snd] in *. split; [apply IH|].
  rewrite length_app, length_write_block. lia.
Qed.

Lemma div16 (l : list Z) n : length l = (16 * n)%nat → (length l / 16)%nat = n.
Proof. intros ->. rewrite Nat.mul_comm. by apply Nat.div_mul. Qed.

Lemma decrypt_app c a b n : length a = (16 * n)%nat → (4 <= length (aes_iv c))%nat →
  CRYPT_AESDecrypt c (a ++ b) =
    let '(c, o) := CRYPT_AESDecrypt c a in
    let '(c', o') := CRYPT_AESDecrypt c b in (c', o ++ o').
Proof.
  intros Ha Hiv. unfold CRYPT_AESDecrypt. rewrite (div16 a n Ha), length_app, Ha.
  replace ((16 * n + length b) / 16)%nat with (n + length b / 16)%nat
    by (rewrite (Nat.mul_comm 16), Nat.div_add_l; lia).
  rewrite dec_cbc_app by done.
  destruct (length_dec_cbc c n (take 4 (aes_iv c)) a) as [Hl _]; [rewrite length_take; lia|].
  destruct (aes_decrypt_cbc c n (take 4 (aes_iv c)) a) as [iv o]. cbn [fst] in Hl.
  rewrite (dec_cbc_congr (set_iv4 c iv) c) by done. cbn [set_iv4 aes_iv].
  rewrite take_app_length' by done. destruct (aes_decrypt_cbc c _ iv b) as [iv' o'].
  unfold set_iv4. cbn [aes_Nb aes_Nr keysched invkeysched aes_iv]. by rewrite (drop_app_length' iv).
Qed.

Lemma encrypt_iv c n iv src : length iv = 4%nat → Forall (fits 32) iv → Forall (fits 32) (keysched c) →
  length (aes_encrypt_cbc c n iv src).1 = 4%nat ∧ Forall (fits 32) (aes_encrypt_cbc c n iv src).1.
Proof.
  revert iv src. induction n as [|n IH]; intros iv src Hl Hiv Hks; [done|]. cbn [aes_encrypt_cbc].
  specialize (IH (aes_encrypt_nb_4 c (xor_block iv (read_block src))) (drop 16 src) ltac:(done)
    ltac:(by apply aes_encrypt_fits) Hks).
  by destruct (aes_encrypt_cbc c n _ _).
Qed.

Lemma pair_crypt e d src n :
  pair_ok e d → (4 <= length (aes_iv e))%nat → bytes src → length src = (16 * n)%nat →
  let '(e', ct) := CRYPT_AESEncrypt e src in
  length ct = length src ∧ bytes ct ∧ (4 <= length (aes_iv e'))%nat ∧
  let '(d', pt) := CRYPT_AESDecrypt d ct in pt = src ∧ pair_ok e' d'.
Proof.
  intros [HN Hpos Hks Hinv Hiv Hfit] Hle Hsrc Hlen. unfold CRYPT_AESEncrypt. rewrite (div16 src n Hlen).
  set (m := AesCtx 4 (aes_Nr e) (keysched e) (invkeysched d) []).
  pose proof (cbc_inverse m Hks Hpos Hinv n (take 4 (aes_iv e)) src Hfit Hsrc Hlen) as Hc.
  destruct (length_encrypt_cbc e n (take 4 (aes_iv e)) src) as [HL HB].
  rewrite (enc_cbc_congr m e) in Hc by done. rewrite (dec_cbc_congr m d) in Hc by done.
  destruct (encrypt_iv e n (take 4 (aes_iv e)) src) as [HI HF]; [rewrite length_take; lia|done|done|].
  destruct (aes_encrypt_cbc e n _ src) as [iv ct]. cbn [fst snd] in *.
  split_and!; [lia|done| |].
  - unfold set_iv4. cbn [aes_iv]. rewrite length_app. lia.
  - unfold CRYPT_AESDecrypt. rewrite (div16 ct n HL), <-Hiv, Hc. split; [done|].
    split; [done|done|done|done| |]; unfold set_iv4; cbn [aes_iv].
    + by rewrite !take_app_length'.
    + by rewrite take_app_length'.
Qed.

Lemma aes_encrypt_wf ctx src : aes_ctx_wf ctx → aes_ctx_wf (CRYPT_AESEncrypt ctx src).1.
Proof.
  intros (H1 & H2 & H3 & H4 & H5). unfold CRYPT_AESEncrypt.
  destruct (encrypt_iv ctx (length src / 16) (take 4 (aes_iv ctx)) src) as [HI HF];
    [rewrite length_take; lia|by apply Forall_take|done|].
  destruct (aes_encrypt_cbc _ _ _ _) as [iv ct]. cbn [fst] in *.
  split_and!; [done..| |done|]; unfold set_iv4.
  - cbn [aes_iv]. rewrite length_app, length_drop. lia.
  - cbn [aes_iv]. apply Forall_app; split; [done|by apply Forall_drop].
Qed.
