(* ===== verification/Crypto.v ===== *)
(** * Encryption of strings and streams

    [CPDF_CryptoHandler] ([core/fpdfapi/parser/cpdf_crypto_handler.cpp]): the
    object key, [CryptBlock] for writing, and the context for reading, which
    takes its input in pieces.  A fixed-size array is a bound on what is written
    to it: a write behind its end gives [None].  [rand] is the list of bytes it
    returns. *)
From S2P Require Import Prelude Words BlockHash Rc4 Md5 Aes.

Inductive Cipher := kNone | kRC4 | kAES | kAES2.
#[export] Instance Cipher_eq_dec : EqDecision Cipher.
Proof. solve_decision. Defined.

Record CPDF_CryptoHandler := CryptoHandler {
  m_KeyLen : Z;
  m_Cipher : Cipher;
  m_pAESContext : CRYPT_aes_context;
  m_EncryptKey : list Z;
}.

(** The constructor; [FX_Alloc] returns zeros. *)
Definition crypto_new (cipher : Cipher) (key : list Z) (keylen : Z) : CPDF_CryptoHandler :=
  let keylen := Z.min keylen 32 in
  CryptoHandler keylen cipher blank_ctx
    (if decide (cipher = kNone) then [] else take (Z.to_nat keylen) key).

(** The digest; what the context's buffer holds at the start does not matter. *)
Definition md5_of (data : list Z) : list Z := CRYPT_MD5Generate (replicate 64 0) data.

Definition str_sAlT : list Z := [115; 65; 108; 84].

Section handler.
Context (h : CPDF_CryptoHandler).

Definition PopulateKey (objnum gennum : Z) : list Z :=
  m_EncryptKey h ++ [u8 objnum; u8 (objnum .>> 8); u8 (objnum .>> 16); u8 gennum; u8 (gennum .>> 8)].

Definition is_aes : bool := bool_decide (m_Cipher h = kAES).

(** [key1], of [size] bytes, and the digest of it in [realkey]. *)
Definition object_key (size objnum gennum : Z) : option (list Z) :=
  let key1 := PopulateKey objnum gennum ++ (if is_aes then str_sAlT else []) in
  if zlen key1 <=? size then Some (md5_of key1) else None.

Definition realkeylen : Z := Z.min (m_KeyLen h + 5) 16.

(** What [CRYPT_AESSetKey] reads: [len] bytes of [key]. *)
Definition set_key (ctx : CRYPT_aes_context) (key : list Z) (len : Z) : option CRYPT_aes_context :=
  if zlen key <? len then None else Some (CRYPT_AESSetKey ctx (take (Z.to_nat len) key) len).

(** [CryptBlock] for AES, with the key set. *)
Definition encrypt_blocks (ctx : CRYPT_aes_context) (iv source : list Z) :
    CRYPT_aes_context * list Z :=
  let ctx := CRYPT_AESSetIV ctx iv in
  let nblocks := (length source / 16)%nat in
  let '(ctx, c1) := CRYPT_AESEncrypt ctx (take (nblocks * 16) source) in
  let r := (length source mod 16)%nat in
  let padding := drop (nblocks * 16) source ++ replicate (16 - r) (16 - Z.of_nat r) in
  let '(ctx, c2) := CRYPT_AESEncrypt ctx padding in
  (ctx, iv ++ c1 ++ c2).

Definition decrypt_blocks (ctx : CRYPT_aes_context) (source : list Z) :
    option (CRYPT_aes_context * list Z) :=
  if (length source <? 17)%nat || negb (length source mod 16 =? 0)%nat then None
  else
    let ctx := CRYPT_AESSetIV ctx source in
    let '(ctx, dest) := CRYPT_AESDecrypt ctx (drop 16 source) in
    let dest_size := u32 (zlen source - 16 - dest.[zlen source - 16 - 1]) in
    Some (ctx, take (Z.to_nat dest_size) dest).

(** The context afterwards, and [dest_buf] up to [dest_size]. *)
Definition CryptBlock (bEncrypt : bool) (iv : list Z) (objnum gennum : Z) (source : list Z) :
    option (CRYPT_aes_context * list Z) :=
  if decide (m_Cipher h = kNone) then Some (m_pAESContext h, source)
  else
    let aes256 := is_aes && (m_KeyLen h =? 32) in
    key ← (if aes256 then Some (m_EncryptKey h) else object_key 32 objnum gennum);
    if is_aes then
      ctx ← set_key (m_pAESContext h) key (m_KeyLen h);
      if bEncrypt then Some (encrypt_blocks ctx iv source) else decrypt_blocks ctx source
    else Some (m_pAESContext h, CRYPT_ArcFourCryptBlock source (take (Z.to_nat realkeylen) key)).

Definition EncryptContent := CryptBlock true.
Definition EncryptGetSize (size : Z) : Z := if is_aes then size + 32 else size.
Definition DecryptGetSize (size : Z) : Z := if is_aes then u32 (size - 16) else size.
End handler.

(** ** Streams *)
Record AESCryptContext := AesCC {
  m_bIV : bool;
  m_BlockOffset : nat;
  m_Context : CRYPT_aes_context;
  m_Block : list Z;
}.

(** What [DecryptStart] returns a pointer to. *)
Inductive CryptContext :=
  | ThisContext
  | Rc4Context (c : CRYPT_rc4_context)
  | AesContext (c : AESCryptContext).

Definition aes_context (ctx : CRYPT_aes_context) : CryptContext :=
  AesContext (AesCC true 0 ctx (replicate 16 0)).

Definition DecryptStart (h : CPDF_CryptoHandler) (objnum gennum : Z) : option CryptContext :=
  if decide (m_Cipher h = kNone) then Some ThisContext
  else if is_aes h && (m_KeyLen h =? 32) then aes_context <$> set_key blank_ctx (m_EncryptKey h) 32
  else
    realkey ← object_key h 48 objnum gennum;
    if is_aes h then aes_context <$> set_key blank_ctx realkey 16
    else Some (Rc4Context (CRYPT_ArcFourSetup (take (Z.to_nat (realkeylen h)) realkey))).

Definition crypt_one (bEncrypt : bool) := if bEncrypt then CRYPT_AESEncrypt else CRYPT_AESDecrypt.

(** [while (1)] of [CryptStream]: the context and what is appended to
    [dest_buf].  A round takes at least a byte, but for the first. *)
Fixpoint stream_loop (fuel : nat) (bEncrypt : bool) (c : AESCryptContext) (source : list Z) :
    option (AESCryptContext * list Z) :=
  match fuel with
  | O => None
  | S fuel' =>
      let copy_size := Nat.min (16 - m_BlockOffset c) (length source) in
      let block := splice (m_Block c) (m_BlockOffset c) (take copy_size source) in
      let source := drop copy_size source in
      let off := (m_BlockOffset c + copy_size)%nat in
      let '(c, out) :=
        if decide (off = 16%nat) then
          if negb bEncrypt && m_bIV c then (AesCC false 0 (CRYPT_AESSetIV (m_Context c) block) block, [])
          else if decide (source = []) then (AesCC (m_bIV c) off (m_Context c) block, [])
          else
            let '(ctx, block_buf) := crypt_one bEncrypt (m_Context c) block in
            (AesCC (m_bIV c) 0 ctx block, block_buf)
        else (AesCC (m_bIV c) off (m_Context c) block, []) in
      if decide (source = []) then Some (c, out)
      else
        r ← stream_loop fuel' bEncrypt c source;
        Some (r.1, out ++ r.2)
  end.

(** [CryptStream]; a context of the wrong kind is a type confusion, [None]. *)
Definition CryptStream (h : CPDF_CryptoHandler) (context : CryptContext) (source : list Z)
    (bEncrypt : bool) : option (CryptContext * list Z) :=
  match m_Cipher h, context with
  | kNone, _ => Some (context, source)
  | kRC4, Rc4Context c =>
      let '(c, out) := CRYPT_ArcFourCrypt c source in Some (Rc4Context c, out)
  | kAES, AesContext c | kAES2, AesContext c =>
      let '(c, out) := if m_bIV c && bEncrypt
        then (AesCC false (m_BlockOffset c) (m_Context c) (m_Block c), m_Block c) else (c, []) in
      r ← stream_loop (S (S (length source))) bEncrypt c source;
      Some (AesContext r.1, out ++ r.2)
  | _, _ => None
  end.

Definition CryptFinish (h : CPDF_CryptoHandler) (context : CryptContext) (bEncrypt : bool) :
    option (list Z) :=
  match m_Cipher h, context with
  | kNone, _ | kRC4, _ => Some []
  | _, AesContext c =>
      if bEncrypt then
        let '(c, out) :=
          if decide (m_BlockOffset c = 16%nat) then
            let '(ctx, block_buf) := CRYPT_AESEncrypt (m_Context c) (m_Block c) in
            (AesCC (m_bIV c) 0 ctx (m_Block c), block_buf)
          else (c, []) in
        let n := (16 - m_BlockOffset c)%nat in
        let block := splice (m_Block c) (m_BlockOffset c) (replicate n (Z.of_nat n)) in
        Some (out ++ (CRYPT_AESEncrypt (m_Context c) block).2)
      else if decide (m_BlockOffset c = 16%nat) then
        let block_buf := (CRYPT_AESDecrypt (m_Context c) (m_Block c)).2 in
        Some (if block_buf.[15] <=? 16 then take (Z.to_nat (16 - block_buf.[15])) block_buf else [])
      else Some []
  | _, _ => None
  end.

(** [DecryptStream] for each piece, then [DecryptFinish]. *)
Fixpoint decrypt_pieces (h : CPDF_CryptoHandler) (context : CryptContext) (pieces : list (list Z)) :
    option (list Z) :=
  match pieces with
  | [] => CryptFinish h context false
  | source :: pieces =>
      '(context, out) ← CryptStream h context source false;
      rest ← decrypt_pieces h context pieces;
      Some (out ++ rest)
  end.

Definition Decrypt (h : CPDF_CryptoHandler) (objnum gennum : Z) (str : list Z) : option (list Z) :=
  context ← DecryptStart h objnum gennum;
  decrypt_pieces h context [str].
