(* ===== verification/CryptoText.v ===== *)
(** * What is encrypted is read back

    The stream context of [Crypto.v] as a function fed byte by byte, so that the
    pieces of the input do not matter, and the round trip through
    [EncryptContent]. *)
From S2P Require Import Prelude Words BlockHash Rc4 Md5 AesTables Aes AesKeys Crypto.

#[local] Opaque Sbox Sboxinv E0 E1 E2 E3 D0 D1 D2 D3.

#[local] Ltac by_pair := match goal with |- context [let '(_, _) := ?p in _] => by destruct p end.

(** ** Byte by byte *)
Definition flush (c : AESCryptContext) : AESCryptContext * list Z :=
  let '(ctx, block_buf) := CRYPT_AESDecrypt (m_Context c) (m_Block c) in
  (AesCC (m_bIV c) 0 ctx (m_Block c), block_buf).

(** A byte is stored in the block; a full block is first decrypted, and a full
    first block is the initial one. *)
Definition feed (s : AESCryptContext * list Z) (ch : Z) : AESCryptContext * list Z :=
  let '(c, out) := s in
  let '(c, out) := if decide (m_BlockOffset c = 16%nat)
    then let '(c, b) := flush c in (c, out ++ b) else (c, out) in
  let block := splice (m_Block c) (m_BlockOffset c) [ch] in
  if decide (S (m_BlockOffset c) = 16%nat) then
    if m_bIV c then (AesCC false 0 (CRYPT_AESSetIV (m_Context c) block) block, out)
    else (AesCC false 16 (m_Context c) block, out)
  else (AesCC (m_bIV c) (S (m_BlockOffset c)) (m_Context c) block, out).

Definition stream_ok (c : AESCryptContext) : Prop :=
  length (m_Block c) = 16%nat ∧ (m_BlockOffset c <= 16)%nat ∧
  (m_bIV c = true → (m_BlockOffset c < 16)%nat).

Lemma fresh_ok v ctx b : length b = 16%nat → stream_ok (AesCC v 0 ctx b).
Proof. intros Hb. split_and!; cbn; [done|lia..]. Qed.

Lemma splice_cons b off x l : (off < length b)%nat →
  splice (splice b off [x]) (S off) l = splice b off (x :: l).
Proof.
  intros Hoff. unfold splice. cbn [length].
  assert (Ht : length (take off b) = off) by (rewrite length_take; lia).
  rewrite take_app, Ht. replace (S off - off)%nat with 1%nat by lia.
  rewrite take_take, Nat.min_r by lia. cbn [take app]. rewrite <-app_assoc. f_equal. cbn [app].
  replace (take 0 _) with (@nil Z) by done. cbn [app]. do 2 f_equal.
  change (?a ++ x :: ?t) with (a ++ [x] ++ t). rewrite app_assoc, drop_app_ge by (rewrite length_app, Ht; cbn; lia).
  rewrite length_app, Ht, drop_drop. f_equal. cbn. lia.
Qed.

Lemma splice_all b l : length l = length b → splice b 0 l = l.
Proof. intros H. unfold splice. rewrite take_0, drop_ge by lia. apply app_nil_r. Qed.

Lemma feed_out l : ∀ c o, fold_left feed l (c, o) =
  let '(c', o') := fold_left feed l (c, []) in (c', o ++ o').
Proof.
  induction l as [|x l IH]; intros c o; cbn [fold_left]; [by rewrite app_nil_r|].
  assert (Hf : feed (c, o) x = let '(c', o') := feed (c, []) x in (c', o ++ o')).
  { unfold feed. destruct (decide _); [destruct (flush c) as [c1 b]|];
      repeat case_match; simplify_eq; by rewrite ?app_nil_r. }
  rewrite Hf. destruct (feed (c, []) x) as [c1 o1]. rewrite (IH c1 (o ++ o1)), (IH c1 o1).
  destruct (fold_left feed l (c1, [])) as [c2 o2]. by rewrite app_assoc.
Qed.

Lemma feed_flush c o x : m_BlockOffset c = 16%nat →
  feed (c, o) x = let '(c', b) := flush c in feed (c', o ++ b) x.
Proof. intros H. unfold feed at 1. rewrite decide_True by done. unfold flush. by destruct (CRYPT_AESDecrypt _ _). Qed.

(** Filling the block. *)
Definition filled (c : AESCryptContext) (l : list Z) : AESCryptContext :=
  let block := splice (m_Block c) (m_BlockOffset c) l in
  let off := (m_BlockOffset c + length l)%nat in
  if decide (off = 16%nat) then
    if m_bIV c then AesCC false 0 (CRYPT_AESSetIV (m_Context c) block) block
    else AesCC false 16 (m_Context c) block
  else AesCC (m_bIV c) off (m_Context c) block.

Lemma feed_fill l : ∀ c, stream_ok c → (m_BlockOffset c < 16)%nat →
  (m_BlockOffset c + length l <= 16)%nat →
  fold_left feed l (c, []) = (filled c l, []).
Proof.
  induction l as [|x l IH]; intros c (Hb & Ho & Hiv) Hlt Hl.
  - cbn [fold_left]. unfold filled. cbn [length]. rewrite decide_False by lia.
    rewrite splice_nil, Nat.add_0_r. by destruct c.
  - cbn [fold_left length] in *. unfold feed at 2. rewrite decide_False by lia.
    destruct (decide (S (m_BlockOffset c) = 16%nat)) as [E|E].
    + destruct l; [|cbn in Hl; lia]. unfold filled. cbn [length fold_left].
      rewrite decide_True by lia. by destruct (m_bIV c).
    + assert (Hok : stream_ok (AesCC (m_bIV c) (S (m_BlockOffset c)) (m_Context c)
        (splice (m_Block c) (m_BlockOffset c) [x]))).
      { split_and!; cbn [m_Block m_BlockOffset m_bIV]; [|lia..]. rewrite length_splice; cbn; lia. }
      rewrite (IH _ Hok) by (cbn [m_BlockOffset]; lia). unfold filled. cbn [m_Block m_BlockOffset m_bIV m_Context length].
      rewrite splice_cons by lia. replace (S (m_BlockOffset c) + length l)%nat with (m_BlockOffset c + S (length l))%nat by lia.
      done.
Qed.

Lemma filled_ok c l : stream_ok c → (m_BlockOffset c + length l <= 16)%nat → stream_ok (filled c l).
Proof.
  intros (Hb & Ho & Hiv) Hl. assert (Hs : length (splice (m_Block c) (m_BlockOffset c) l) = 16%nat)
    by (rewrite length_splice; lia).
  unfold filled. repeat case_decide; repeat case_match; split_and!; cbn [m_Block m_BlockOffset m_bIV] in *; try done; try lia.
  all: intros ->; specialize (Hiv eq_refl); lia.
Qed.

(** The loop feeds its input, and ends. *)
Lemma stream_feed fuel : ∀ c source, stream_ok c →
  (length source + (if decide (m_BlockOffset c = 16%nat) then 1 else 0) < fuel)%nat →
  stream_loop fuel false c source = Some (fold_left feed source (c, [])).
Proof.
  induction fuel as [|fuel IH]; intros c source Hok Hf; [lia|]. cbn [stream_loop].
  pose proof Hok as (Hb & Ho & Hiv).
  destruct (decide (m_BlockOffset c = 16%nat)) as [E16|E16].
  - assert (Hv : m_bIV c = false) by (destruct (m_bIV c); [specialize (Hiv eq_refl); lia|done]).
    rewrite E16, Nat.sub_diag. cbn [Nat.min take drop Nat.add]. rewrite splice_nil, Hv. cbn [negb andb].
    rewrite drop_0. destruct source as [|x source]; [destruct c; cbn in *; by subst|].
    rewrite (decide_False (P := x :: source = [])) by done.
    rewrite (decide_True (P := 16%nat = 16%nat)) by done. unfold crypt_one.
    cbn [fold_left]. rewrite feed_flush by done. unfold flush.
    destruct (CRYPT_AESDecrypt (m_Context c) (m_Block c)) as [ctx b]. rewrite Hv.
    rewrite IH; [|split_and!; cbn; try done; lia|cbn [m_BlockOffset]; rewrite decide_False by lia; lia].
    cbn [mbind option_bind app].
    change (fold_left feed source (feed (?c0, b) x)) with (fold_left feed (x :: source) (c0, b)).
    rewrite (feed_out (x :: source) _ b). by_pair.
  - set (k := Nat.min (16 - m_BlockOffset c) (length source)).
    assert (Hk : length (take k source) = k) by (rewrite length_take; unfold k; lia).
    assert (Hkl : (m_BlockOffset c + k <= 16)%nat) by (unfold k; lia).
    assert (Hfold : fold_left feed source (c, []) = fold_left feed (drop k source) (filled c (take k source), [])).
    { rewrite <-(take_drop k source) at 1. rewrite fold_left_app, feed_fill by (done || lia). done. }
    rewrite Hfold. assert (Hok' := filled_ok c (take k source) Hok ltac:(lia)).
    assert (Hdl : (length (drop k source) + k = length source)%nat) by (rewrite length_drop; unfold k; lia).
    assert (Hend : ∀ c', stream_ok c' → (m_BlockOffset c' = 16%nat → drop k source = []) →
      (if decide (drop k source = []) then Some (c', @nil Z)
       else r ← stream_loop fuel false c' (drop k source); Some (r.1, [] ++ r.2)) =
      Some (fold_left feed (drop k source) (c', []))).
    { intros c' Hc' H16. destruct (decide (drop k source = [])) as [->|Hne]; [done|].
      rewrite IH; [cbn [mbind option_bind app]; by rewrite <-surjective_pairing|done|].
      rewrite decide_False by tauto. destruct (decide (k = 0%nat)) as [Ek|]; [|lia].
      exfalso. destruct source; [by rewrite drop_nil in Hne|]. unfold k in Ek. cbn [length] in Ek. lia. }
    unfold filled in *. rewrite Hk in *.
    destruct (decide ((m_BlockOffset c + k)%nat = 16%nat)) as [Efull|Enf]; [|by apply Hend; [|cbn; lia]].
    cbn [negb andb]. destruct (m_bIV c); [by apply Hend; [|cbn; lia]|].
    rewrite Efull. destruct (decide (drop k source = [])) as [Enil|Hne].
    { by rewrite Enil. }
    unfold crypt_one.
    destruct (drop k source) as [|x l] eqn:Ed; [done|]. cbn [fold_left]. rewrite feed_flush by done.
    unfold flush. cbn [m_Context m_Block m_bIV].
    destruct (CRYPT_AESDecrypt (m_Context c) _) as [ctx b].
    rewrite IH; [|split_and!; cbn; [apply Hok'|lia..]|cbn [m_BlockOffset]; rewrite decide_False by lia; cbn [length] in *; lia].
    cbn [mbind option_bind app].
    change (fold_left feed l (feed (?c0, b) x)) with (fold_left feed (x :: l) (c0, b)).
    rewrite (feed_out (x :: l) _ b). by_pair.
Qed.

(** ** Blocks *)
(** A full block is decrypted when the next one arrives. *)
Lemma feed_blocks n : ∀ ctx b l, length b = 16%nat → length l = (16 * n)%nat → (4 <= length (aes_iv ctx))%nat →
  let body := take (16 * n) (b ++ l) in
  let last := drop (16 * n) (b ++ l) in
  fold_left feed l (AesCC false 16 ctx b, []) =
    (AesCC false 16 (CRYPT_AESDecrypt ctx body).1 last, (CRYPT_AESDecrypt ctx body).2).
Proof.
  induction n as [|n IH]; intros ctx b l Hb Hl Hiv; cbv zeta.
  - destruct l; [|cbn in Hl; lia]. rewrite Nat.mul_0_r, take_0, drop_0, app_nil_r. cbn [fold_left].
    unfold CRYPT_AESDecrypt. cbn. unfold set_iv4. rewrite take_drop. by destruct ctx.
  - rewrite <-(take_drop 16 l) at 1. rewrite fold_left_app.
    set (l1 := take 16 l). set (l2 := drop 16 l).
    assert (Hl1 : length l1 = 16%nat) by (unfold l1; rewrite length_take; lia).
    assert (Hl2 : length l2 = (16 * n)%nat) by (unfold l2; rewrite length_drop; lia).
    assert (E1 : fold_left feed l1 (AesCC false 16 ctx b, []) =
      (AesCC false 16 (CRYPT_AESDecrypt ctx b).1 l1, (CRYPT_AESDecrypt ctx b).2)).
    { destruct l1 as [|x l1]; [done|]. cbn [fold_left]. rewrite feed_flush by done. unfold flush.
      cbn [m_Context m_Block m_bIV]. destruct (CRYPT_AESDecrypt ctx b) as [ctx' o]. cbn [fst snd app].
      change (fold_left feed l1 (feed (?c0, o) x)) with (fold_left feed (x :: l1) (c0, o)).
      rewrite feed_out, feed_fill by first [by apply fresh_ok|cbn [m_BlockOffset length] in *; lia].
      unfold filled. cbn [m_Block m_BlockOffset m_bIV m_Context Nat.add].
      rewrite decide_True by done. rewrite splice_all by (cbn [length] in *; lia). by rewrite app_nil_r. }
    rewrite E1, feed_out. assert (Hl12 : l = l1 ++ l2) by (unfold l1, l2; by rewrite take_drop).
    assert (Hc : (4 <= length (aes_iv (CRYPT_AESDecrypt ctx b).1))%nat).
    { unfold CRYPT_AESDecrypt. destruct (length_dec_cbc ctx (length b / 16) (take 4 (aes_iv ctx)) b) as [Hi _];
        [rewrite length_take; lia|]. destruct (aes_decrypt_cbc _ _ _ _) as [iv o]. cbn [fst] in *.
      unfold set_iv4. cbn [aes_iv]. rewrite length_app. lia. }
    specialize (IH (CRYPT_AESDecrypt ctx b).1 l1 l2 Hl1 Hl2 Hc). cbv zeta in IH. rewrite IH.
    assert (Eb : take (16 * S n) (b ++ l) = b ++ take (16 * n) (l1 ++ l2)).
    { rewrite <-Hl12, take_app_ge by lia. do 2 f_equal. lia. }
    assert (El : drop (16 * S n) (b ++ l) = drop (16 * n) (l1 ++ l2)).
    { rewrite <-Hl12, drop_app_ge by lia. f_equal. lia. }
    rewrite Eb, El, (decrypt_app ctx b _ 1) by (done || lia).
    destruct (CRYPT_AESDecrypt ctx b) as [c1 o1]. cbn [fst snd].
    by destruct (CRYPT_AESDecrypt c1 (take (16 * n) (l1 ++ l2))).
Qed.

(** A new context, fed an initial block and [n + 1] blocks. *)
Lemma feed_message ctx iv body last n :
  aes_Nb ctx = 4 → (4 <= length (aes_iv ctx))%nat →
  length iv = 16%nat → length body = (16 * n)%nat → length last = 16%nat →
  let ctx' := CRYPT_AESSetIV ctx iv in
  fold_left feed (iv ++ body ++ last) (AesCC true 0 ctx (replicate 16 0), []) =
    (AesCC false 16 (CRYPT_AESDecrypt ctx' body).1 last, (CRYPT_AESDecrypt ctx' body).2).
Proof.
  intros HNb Hc Hiv Hbody Hlast. cbv zeta. rewrite fold_left_app, feed_fill
    by first [by apply fresh_ok|cbn [m_BlockOffset]; lia].
  unfold filled. cbn [m_Block m_BlockOffset m_bIV m_Context Nat.add]. rewrite decide_True by done.
  rewrite splice_all by done. set (ctx' := CRYPT_AESSetIV ctx iv).
  assert (Hc' : (4 <= length (aes_iv ctx'))%nat).
  { unfold ctx', CRYPT_AESSetIV. cbn [aes_iv].
    apply (for_loop_ind (λ _ v, (4 <= length v)%nat)); [done|]. intros. by rewrite length_wr. }
  set (m := body ++ last). assert (Hm : length m = (16 * S n)%nat) by (unfold m; rewrite length_app; lia).
  rewrite <-(take_drop 16 m), fold_left_app.
  assert (Ht : length (take 16 m) = 16%nat) by (rewrite length_take; lia).
  rewrite feed_fill by first [by apply fresh_ok|cbn [m_BlockOffset]; lia].
  unfold filled. cbn [m_Block m_BlockOffset m_bIV m_Context Nat.add]. rewrite decide_True by done.
  rewrite splice_all by (rewrite Ht; lia).
  rewrite (feed_blocks n) by (done || rewrite length_drop; lia). rewrite take_drop. unfold m.
  by rewrite take_app_length', drop_app_length'.
Qed.

(** ** The handler *)
Definition crypto_ok (h : CPDF_CryptoHandler) : Prop :=
  match m_Cipher h with
  | kNone => True
  | kRC4 => 5 <= m_KeyLen h <= 16 ∧ zlen (m_EncryptKey h) = m_KeyLen h
  | kAES => (m_KeyLen h = 16 ∨ m_KeyLen h = 32) ∧ zlen (m_EncryptKey h) = m_KeyLen h ∧
      bytes (m_EncryptKey h) ∧ aes_ctx_wf (m_pAESContext h)
  | kAES2 => False
  end.

Lemma md5_of_ok data : length (md5_of data) = 16%nat ∧ bytes (md5_of data).
Proof.
  unfold md5_of, CRYPT_MD5Generate, CRYPT_MD5Finish, md5_output.
  destruct (md5_state _) as [[[s0 s1] s2] s3]. split; [done|].
  rewrite !Forall_app. auto with fx.
Qed.

Lemma pieces_feed h c pieces : m_Cipher h = kAES → stream_ok c →
  decrypt_pieces h (AesContext c) pieces =
    let '(c', out) := fold_left feed (concat pieces) (c, []) in
    (λ rest, out ++ rest) <$> CryptFinish h (AesContext c') false.
Proof.
  intros Hh. revert c. induction pieces as [|p pieces IH]; intros c Hok; cbn [decrypt_pieces concat].
  - cbn [fold_left]. by destruct (CryptFinish _ _ _).
  - unfold CryptStream. rewrite Hh, andb_false_r.
    rewrite stream_feed by (done || case_decide; lia). cbn [mbind option_bind].
    assert (Hok' : ∀ l c, stream_ok c → stream_ok (fold_left feed l (c, [])).1).
    { clear. induction l as [|x l IH]; intros c Hok; [done|]. cbn [fold_left].
      assert (Hx : stream_ok (feed (c, []) x).1).
      { assert (Hgo : ∀ c, stream_ok c → (m_BlockOffset c < 16)%nat → stream_ok (feed (c, []) x).1).
        { intros c' Hc' Hlt. change (feed (c', []) x) with (fold_left feed [x] (c', [])).
          rewrite feed_fill by (done || cbn; lia). apply filled_ok; [done|cbn; lia]. }
        destruct (decide (m_BlockOffset c = 16%nat)) as [E|E]; [|apply Hgo; [done|destruct Hok as (_ & ? & _); lia]].
        rewrite feed_flush by done. unfold flush. destruct (CRYPT_AESDecrypt _ _) as [ctx b].
        set (c0 := AesCC _ _ _ _). assert (E0 : ∀ o, (feed (c0, o) x).1 = (feed (c0, []) x).1).
        { intros o. change (feed (c0, o) x) with (fold_left feed [x] (c0, o)). rewrite feed_out. cbn [fold_left].
          by destruct (feed (c0, []) x). }
        rewrite E0. apply Hgo; [|cbn; lia]. destruct Hok as (? & _ & _). split_and!; cbn; [done|lia..]. }
      rewrite (surjective_pairing (feed (c, []) x)), feed_out. specialize (IH (feed (c, []) x).1 Hx).
      by destruct (fold_left feed l _). }
    specialize (Hok' p c Hok). destruct (fold_left feed p (c, [])) as [c1 o1] eqn:E1. cbn [fst snd app] in *.
    rewrite IH by done. rewrite fold_left_app, E1, (feed_out (concat pieces) c1 o1).
    destruct (fold_left feed (concat pieces) (c1, [])) as [c2 o2].
    destruct (CryptFinish h (AesContext c2) false); [|done]. cbn. by rewrite app_assoc.
Qed.

Lemma rc4_pieces h c pieces : m_Cipher h = kRC4 →
  decrypt_pieces h (Rc4Context c) pieces = Some (CRYPT_ArcFourCrypt c (concat pieces)).2.
Proof.
  intros Hh. revert c. induction pieces as [|p pieces IH]; intros c; cbn [decrypt_pieces concat].
  - unfold CryptFinish. by rewrite Hh.
  - unfold CryptStream. rewrite Hh, crypt_app. destruct (CRYPT_ArcFourCrypt c p) as [c1 o1].
    cbn [mbind option_bind]. rewrite IH. by destruct (CRYPT_ArcFourCrypt c1 (concat pieces)).
Qed.

Lemma none_pieces h c pieces : m_Cipher h = kNone → decrypt_pieces h c pieces = Some (concat pieces).
Proof.
  intros Hh. revert c. induction pieces as [|p pieces IH]; intros c; cbn [decrypt_pieces concat].
  - unfold CryptFinish. by rewrite Hh.
  - unfold CryptStream. rewrite Hh. cbn [mbind option_bind]. by rewrite IH.
Qed.

(** What [encrypt_blocks] writes: the initial block and whole blocks, the last
    of them with the padding; and a context with the same key reads it. *)
Lemma blocks_roundtrip e0 d0 key iv data :
  aes_ctx_wf e0 → aes_ctx_wf d0 → valid_keylen (zlen key) → bytes key →
  bytes iv → length iv = 16%nat → bytes data →
  let e := CRYPT_AESSetKey e0 key (zlen key) in
  let d := CRYPT_AESSetKey d0 key (zlen key) in
  let '(e', ct) := encrypt_blocks e iv data in
  aes_ctx_wf e' ∧ (zlen ct <= zlen data + 32 ∧ 32 <= zlen ct ∧ bytes ct) ∧
  ∀ h pieces, m_Cipher h = kAES → concat pieces = ct →
    decrypt_pieces h (aes_context d) pieces = Some data.
Proof.
  intros He Hd Hlen Hkey Hiv Hivl Hdata. cbv zeta.
  destruct (set_key_wf e0 key He Hlen Hkey) as [Hwe HNe], (set_key_wf d0 key Hd Hlen Hkey) as [Hwd HNd].
  pose proof (pair_setup e0 d0 key iv He Hd Hlen Hkey Hiv Hivl) as Hpair.
  set (e := CRYPT_AESSetKey e0 key (zlen key)) in *. set (d := CRYPT_AESSetKey d0 key (zlen key)) in *.
  pose proof (set_iv_wf e iv Hwe HNe Hiv Hivl) as Hwe1.
  unfold encrypt_blocks. set (e1 := CRYPT_AESSetIV e iv) in *. set (d1 := CRYPT_AESSetIV d iv) in *.
  set (n := (length data / 16)%nat). set (r := (length data mod 16)%nat).
  assert (Hn : (length data = 16 * n + r)%nat ∧ (r < 16)%nat).
  { unfold n, r. pose proof (Nat.div_mod_eq (length data) 16). pose proof (Nat.mod_upper_bound (length data) 16). lia. }
  set (whole := take (n * 16) data). set (rest := drop (n * 16) data).
  set (padding := rest ++ replicate (16 - r) (16 - Z.of_nat r)).
  assert (Hwl : length whole = (16 * n)%nat) by (unfold whole; rewrite length_take; lia).
  assert (Hrl : length rest = r) by (unfold rest; rewrite length_drop; lia).
  assert (Hpl : length padding = (16 * 1)%nat) by (unfold padding; rewrite length_app, length_replicate; lia).
  assert (Hpb : bytes padding).
  { unfold padding. apply Forall_app; split; [by apply Forall_drop|]. apply Forall_replicate. unfold fits. lia. }
  pose proof (pair_crypt e1 d1 whole n Hpair ltac:(by rewrite (proj1 (proj2 (proj2 Hwe1))); lia)
    ltac:(by apply Forall_take) Hwl) as H1.
  pose proof (aes_encrypt_wf e1 whole Hwe1) as Hwe2.
  destruct (CRYPT_AESEncrypt e1 whole) as [e2 c1]. destruct H1 as (Hc1l & Hc1b & He2l & H1).
  destruct (CRYPT_AESDecrypt d1 c1) as [d2 p1] eqn:Ed1. destruct H1 as [-> Hpair2].
  pose proof (pair_crypt e2 d2 padding 1 Hpair2 He2l Hpb Hpl) as H2.
  pose proof (aes_encrypt_wf e2 padding Hwe2) as Hwe3.
  destruct (CRYPT_AESEncrypt e2 padding) as [e3 c2]. destruct H2 as (Hc2l & Hc2b & _ & H2).
  destruct (CRYPT_AESDecrypt d2 c2) as [d3 p2] eqn:Ed2. destruct H2 as [-> _].
  split; [exact Hwe3|]. split.
  { split_and!; [unfold zlen; rewrite !length_app; lia..|]. by rewrite !Forall_app. }
  intros h pieces Hh Hp. unfold aes_context. rewrite pieces_feed by (done || by apply fresh_ok).
  rewrite Hp, (feed_message d iv c1 c2 n) by (done || lia || rewrite (proj1 (proj2 (proj2 Hwd))); lia).
  fold d1. rewrite Ed1. cbn [fst snd]. unfold CryptFinish. rewrite Hh. cbn [m_BlockOffset m_Context m_Block].
  rewrite decide_True, Ed2 by done. cbn [snd].
  assert (Hlast : padding.[15] = 16 - Z.of_nat r).
  { unfold padding. replace 15 with (zlen rest + (15 - Z.of_nat r)) by (unfold zlen; lia).
    rewrite rd_app_r by lia. apply rd_lookup. apply lookup_replicate_2. lia. }
  rewrite Hlast. replace (16 - Z.of_nat r <=? 16) with true by lia. cbn [fmap option_fmap option_map].
  f_equal. unfold padding. rewrite take_app_length' by lia. apply take_drop.
Qed.

(** [EncryptContent] and the stream context of the same object. *)
Lemma encrypt_decrypt h objnum gennum iv data :
  crypto_ok h → bytes iv → length iv = 16%nat → bytes data →
  ∃ ctx ct, EncryptContent h iv objnum gennum data = Some (ctx, ct) ∧
    zlen ct <= EncryptGetSize h (zlen data) ∧ bytes ct ∧ (is_aes h = true → 32 <= zlen ct) ∧
    crypto_ok (CryptoHandler (m_KeyLen h) (m_Cipher h) ctx (m_EncryptKey h)) ∧
    ∀ pieces, concat pieces = ct →
      ∃ c, DecryptStart h objnum gennum = Some c ∧ decrypt_pieces h c pieces = Some data.
Proof.
  intros Hok Hiv Hivl Hdata. unfold EncryptContent, CryptBlock, DecryptStart, EncryptGetSize, is_aes.
  unfold crypto_ok in *. destruct (m_Cipher h) eqn:Hc; cbn [m_Cipher] in *; [| |  |done].
  - rewrite decide_True by done. rewrite bool_decide_eq_false_2 by done.
    exists (m_pAESContext h), data. split_and!; [done|lia|done|done|done|]. intros pieces <-. exists ThisContext. split; [done|].
    by rewrite none_pieces.
  - rewrite decide_False by done. rewrite bool_decide_eq_false_2 by done. destruct Hok as [Hk Hl].
    unfold object_key, is_aes, PopulateKey. rewrite Hc, bool_decide_eq_false_2, app_nil_r, zlen_app, Hl by done.
    change (zlen [_; _; _; _; _]) with 5. rewrite !(proj2 (Z.leb_le _ _)) by lia. cbn [andb mbind option_bind].
    eexists _, _. split; [done|].
    match goal with |- ?A ∧ ?B ∧ ?C => enough (H : A ∧ B) by (destruct H; split; [done|]; split; [done|]; split; [done|];
      split; [done|]; intros pieces Hp; eexists; (split; [done|]); rewrite rc4_pieces, Hp by done;
      unfold CRYPT_ArcFourCryptBlock; by rewrite crypt_twice) end.
    { unfold CRYPT_ArcFourCryptBlock, zlen. destruct (crypt_wf _ data (setup_wf (take (Z.to_nat (realkeylen h))
        (md5_of (m_EncryptKey h ++ [u8 objnum; u8 (objnum .>> 8); u8 (objnum .>> 16); u8 gennum; u8 (gennum .>> 8)]))))
        Hdata) as (_ & Hb & ->). split; [lia|exact Hb]. }
  - rewrite decide_False by done. rewrite bool_decide_eq_true_2 by done. destruct Hok as (Hk & Hl & Hb & Hwf).
    cbn [andb].
    set (key := if m_KeyLen h =? 32 then m_EncryptKey h else md5_of (PopulateKey h objnum gennum ++ str_sAlT)).
    assert (Hkey : zlen key = m_KeyLen h ∧ bytes key ∧ valid_keylen (zlen key)).
    { unfold key. destruct (Z.eqb_spec (m_KeyLen h) 32) as [E|E].
      - split_and!; [done..|]. right; right. lia.
      - destruct (md5_of_ok (PopulateKey h objnum gennum ++ str_sAlT)) as [H1 H2].
        assert (m_KeyLen h = 16) as -> by lia. unfold zlen. rewrite H1. split_and!; [done..|]. by left. }
    destruct Hkey as (Hkl & Hkb & Hkv).
    assert (Hkeys : ∀ size, 32 <= size → (if m_KeyLen h =? 32 then Some (m_EncryptKey h)
      else object_key h size objnum gennum) = Some key).
    { intros size Hs. unfold key, object_key, is_aes. rewrite Hc, bool_decide_eq_true_2 by done.
      destruct (Z.eqb_spec (m_KeyLen h) 32); [done|]. unfold PopulateKey at 1. rewrite !zlen_app, Hl.
      change (zlen [_; _; _; _; _]) with 5. change (zlen str_sAlT) with 4.
      by rewrite (proj2 (Z.leb_le _ _)) by lia. }
    rewrite (Hkeys 32) by lia. cbn [mbind option_bind]. unfold set_key at 1.
    rewrite Hkl, Z.ltb_irrefl, take_ge by (unfold zlen in Hkl; lia). cbn [mbind option_bind]. rewrite <-Hkl.
    pose proof (blocks_roundtrip (m_pAESContext h) blank_ctx key iv data Hwf blank_ctx_wf Hkv Hkb Hiv Hivl Hdata) as H.
    cbv zeta in H. destruct (encrypt_blocks _ iv data) as [e' ct]. destruct H as (He' & (Hsz & H32 & Hctb) & Hdec).
    exists e', ct. split; [done|]. split; [exact Hsz|]. split; [exact Hctb|]. split; [done|].
    split; [cbn [m_KeyLen m_EncryptKey m_pAESContext]; rewrite Hkl; by split_and!|]. intros pieces Hp. exists (aes_context (CRYPT_AESSetKey blank_ctx key (zlen key))).
    split; [|by apply Hdec]. rewrite Hkl.
    specialize (Hkeys 48 ltac:(lia)).
    assert (Hset : ∀ n, n = m_KeyLen h → set_key blank_ctx key n = Some (CRYPT_AESSetKey blank_ctx key (m_KeyLen h))).
    { intros n ->. unfold set_key. by rewrite Hkl, Z.ltb_irrefl, take_ge by (unfold zlen in Hkl; lia). }
    destruct (Z.eqb_spec (m_KeyLen h) 32) as [E|E].
    + assert (Ek : m_EncryptKey h = key) by done.
      rewrite decide_False, Ek, Hset by (done || lia). done.
    + rewrite Hkeys. cbn [mbind option_bind]. rewrite Hset by lia. done.
Qed.

(** C16: what [EncryptContent] writes for an object, the stream context of the same
    object reads back, in whatever pieces the cipher text arrives: with RC4, with
    AES of 128 or 256 bits, for every initial block, object and generation number.
    The cipher text fits the size that was promised, and the handler keeps being
    usable. *)
Theorem crypto_roundtrip h objnum gennum iv data :
  crypto_ok h → bytes iv → length iv = 16%nat → bytes data →
  ∃ ctx ct, EncryptContent h iv objnum gennum data = Some (ctx, ct) ∧
    zlen ct <= EncryptGetSize h (zlen data) ∧
    crypto_ok (CryptoHandler (m_KeyLen h) (m_Cipher h) ctx (m_EncryptKey h)) ∧
    ∀ pieces, concat pieces = ct →
      ∃ c, DecryptStart h objnum gennum = Some c ∧ decrypt_pieces h c pieces = Some data.
Proof.
  intros Hok Hiv Hivl Hdata. destruct (encrypt_decrypt h objnum gennum iv data Hok Hiv Hivl Hdata)
    as (ctx & ct & E & Hs & _ & _ & Hc & Hd). by exists ctx, ct.
Qed.

Lemma crypto_roundtrip_witness :
  let h := crypto_new kAES (replicate 16 7) 16 in
  crypto_ok h ∧ bytes (replicate 16 9) ∧ bytes [1; 2; 3] ∧
  ∃ ctx ct, EncryptContent h (replicate 16 9) 5 0 [1; 2; 3] = Some (ctx, ct) ∧
    zlen ct <= EncryptGetSize h (zlen [1; 2; 3]) ∧
    crypto_ok (CryptoHandler (m_KeyLen h) (m_Cipher h) ctx (m_EncryptKey h)) ∧
    ∀ pieces, concat pieces = ct →
      ∃ c, DecryptStart h 5 0 = Some c ∧ decrypt_pieces h c pieces = Some [1; 2; 3].
Proof.
  intros h.
  assert (Hok : crypto_ok h).
  { split_and!; [by left|done| |apply blank_ctx_wf]. change (bytes (replicate 16 7)). apply Forall_replicate. unfold fits. lia. }
  assert (Hiv : bytes (replicate 16 9)) by (apply Forall_replicate; unfold fits; lia).
  assert (Hd : bytes [1; 2; 3]) by solve_bytes.
  split; [exact Hok|]. split; [exact Hiv|]. split; [exact Hd|].
  exact (crypto_roundtrip h 5 0 (replicate 16 9) [1; 2; 3] Hok Hiv eq_refl Hd).
Defined.
