(* ===== verification/Security.v ===== *)
(** * Passwords and file keys

    [CPDF_SecurityHandler] ([core/fpdfapi/parser/cpdf_security_handler.cpp]):
    the encryption dictionary, the checks of a password of each revision and the
    creation of the entries they read.  [FX_Random_GenerateMT] is an argument;
    numbers are laid out little endian. *)
From Stdlib Require Import Ascii.
From Stdlib Require String.
From S2P Require Import Prelude Words CharTypes FxNumber Rc4 Md5 Sha1 Sha2 Aes Objects Dict Utf8 Crypto.
Import String.StringSyntax.

(** The bytes of a literal. *)
Definition bs (s : String.string) : list Z :=
  map (λ c, Z.of_N (N_of_ascii c)) (String.list_ascii_of_string s).
Arguments bs s%_string_scope.

Definition kDefaultPasscode : list Z :=
  [0x28; 0xbf; 0x4e; 0x5e; 0x4e; 0x75; 0x8a; 0x41; 0x64; 0x00; 0x4e; 0x56; 0xff; 0xfa; 0x01; 0x08;
   0x2e; 0x2e; 0x00; 0xb6; 0xd0; 0x68; 0x3e; 0x80; 0x2f; 0x0c; 0xa9; 0xfe; 0x64; 0x53; 0x69; 0x7a].

Definition GetPassCode (password : list Z) : list Z :=
  let len := Nat.min (length password) 32 in
  take len password ++ take (32 - len) kDefaultPasscode.

Definition IsValidKeyLengthForCipher (cipher : Cipher) (keylen : Z) : bool :=
  match cipher with
  | kAES => (keylen =? 16) || (keylen =? 24) || (keylen =? 32)
  | kAES2 => keylen =? 32
  | kRC4 => (5 <=? keylen) && (keylen <=? 16)
  | kNone => true
  end.

(** [n] times [CRYPT_MD5Generate({digest, len}, digest)]. *)
Definition md5_times (n len : nat) (digest : list Z) : list Z :=
  Nat.iter n (λ d, md5_of (take len d)) digest.

Definition md5_updates (l : list (list Z)) : list Z :=
  CRYPT_MD5Finish (fold_left CRYPT_MD5Update l (CRYPT_MD5Start (replicate 64 0))).

(** RC4 with the key of each round, every byte xored with the round's number. *)
Definition rc4_round (key data : list Z) (i : Z) : list Z :=
  CRYPT_ArcFourCryptBlock data (map (λ k, k .^ i) key).
Definition rc4_rounds (key : list Z) (rounds data : list Z) : list Z :=
  fold_left (rc4_round key) rounds data.
Definition rounds_down : list Z := rev (seqZ 0 20).
Definition rounds_up : list Z := seqZ 1 19.

(** ** Revision 6 *)
(** The first 16 bytes as a number modulo 3. *)
Definition BigOrder64BitsMod3 (data : list Z) : Z :=
  for_loop 4 (λ i ret, ((u64 (ret .<< 32)) .| GET_32BIT_MSB_FIRST data (4 * i)) mod 3) 0.

Record rev6 := Rev6 { r6_aes : CRYPT_aes_context; r6_E : list Z; r6_input : list Z }.

(** One round: [E], and the next [input], of which [key] and [iv] are parts. *)
Definition rev6_round (password : list Z) (vector : option (list Z)) (s : rev6) : rev6 :=
  let content := concat (replicate 64 (password ++ r6_input s ++ default [] (take 48 <$> vector))) in
  let aes := CRYPT_AESSetKey (r6_aes s) (take 16 (r6_input s)) 16 in
  let aes := CRYPT_AESSetIV aes (subspan (r6_input s) 16 16) in
  let '(aes, E) := CRYPT_AESEncrypt aes content in
  let h := BigOrder64BitsMod3 E in
  Rev6 aes E (if h =? 0 then CRYPT_SHA256Generate E
              else if h =? 1 then CRYPT_SHA384Generate E else CRYPT_SHA512Generate E).

(** [while (i < 64 || i < E[iBufLen - 1] + 32)] *)
Fixpoint rev6_loop (fuel : nat) (password : list Z) (vector : option (list Z)) (i : Z) (s : rev6) :
    option (Z * rev6) :=
  if (i <? 64) || (i <? (r6_E s).[zlen (r6_E s) - 1] + 32) then
    match fuel with
    | O => None
    | S fuel' => rev6_loop fuel' password vector (i + 1) (rev6_round password vector s)
    end
  else Some (i, s).

Definition rev6_start (password salt : list Z) (vector : option (list Z)) : rev6 :=
  let sha := CRYPT_SHA256Update (CRYPT_SHA256Update CRYPT_SHA256Start password) (take 8 salt) in
  let sha := match vector with Some v => CRYPT_SHA256Update sha (take 48 v) | None => sha end in
  Rev6 blank_ctx [] (CRYPT_SHA256Finish sha).

Definition Revision6_Hash (password salt : list Z) (vector : option (list Z)) : option (list Z) :=
  r ← rev6_loop 300 password vector 0 (rev6_start password salt vector);
  Some (take 32 (r6_input r.2)).

(** The hash of revision 5, with what is hashed of the other key. *)
Definition sha256_hash3 (password salt vector : list Z) : list Z :=
  CRYPT_SHA256Finish
    (CRYPT_SHA256Update (CRYPT_SHA256Update (CRYPT_SHA256Update CRYPT_SHA256Start password) (take 8 salt)) vector).

(** ** The handler *)
Inductive PasswordEncodingConversion := kUnknown | kNoConversion | kLatin1ToUtf8 | kUtf8toLatin1.

Record CPDF_SecurityHandler := SecurityHandler {
  m_bOwnerUnlocked : bool;
  m_Version : Z;
  m_Revision : Z;
  m_Permissions : Z;
  s_KeyLen : Z;
  s_Cipher : Cipher;
  m_PasswordEncodingConversion : PasswordEncodingConversion;
  m_FileId : list Z;
  m_pEncryptDict : dict;
  m_pCryptoHandler : option CPDF_CryptoHandler;
  s_EncryptKey : list Z;
}.
Definition security_new : CPDF_SecurityHandler :=
  SecurityHandler false 0 0 0 0 kNone kUnknown [] [] None (replicate 32 0).

Definition set_encrypt_key (key : list Z) (h : CPDF_SecurityHandler) : CPDF_SecurityHandler :=
  SecurityHandler (m_bOwnerUnlocked h) (m_Version h) (m_Revision h) (m_Permissions h) (s_KeyLen h) (s_Cipher h)
    (m_PasswordEncodingConversion h) (m_FileId h) (m_pEncryptDict h) (m_pCryptoHandler h) key.
Definition set_conversion (c : PasswordEncodingConversion) (h : CPDF_SecurityHandler) : CPDF_SecurityHandler :=
  SecurityHandler (m_bOwnerUnlocked h) (m_Version h) (m_Revision h) (m_Permissions h) (s_KeyLen h) (s_Cipher h)
    c (m_FileId h) (m_pEncryptDict h) (m_pCryptoHandler h) (s_EncryptKey h).
Definition set_dict (d : dict) (h : CPDF_SecurityHandler) : CPDF_SecurityHandler :=
  SecurityHandler (m_bOwnerUnlocked h) (m_Version h) (m_Revision h) (m_Permissions h) (s_KeyLen h) (s_Cipher h)
    (m_PasswordEncodingConversion h) (m_FileId h) d (m_pCryptoHandler h) (s_EncryptKey h).

Section security.
(** The indirect objects of the document. *)
Context (holder : Z → option CPDF_Object).
Notation str_for := (GetStringFor holder).
Notation int_for := (GetIntegerFor holder).
Notation bool_for := (GetBooleanFor holder).

Definition CalcEncryptKey (pEncrypt : dict) (password : list Z) (keylen : Z) (ignore_metadata : bool)
    (file_id : list Z) : list Z :=
  let perm := u32 (int_for pEncrypt (bs "P") 0) in
  let is_revision_3_or_greater := 3 <=? int_for pEncrypt (bs "R") 0 in
  let tagged := negb ignore_metadata && is_revision_3_or_greater && negb (bool_for pEncrypt (bs "EncryptMetadata") true) in
  let digest := md5_updates
    ([GetPassCode password; str_for pEncrypt (bs "O"); PUT_UINT32 perm] ++
     (if decide (file_id = []) then [] else [file_id]) ++
     (if tagged then [[0xff; 0xff; 0xff; 0xff]] else [])) in
  let copy_len := Nat.min (Z.to_nat keylen) 16 in
  let digest := if is_revision_3_or_greater then md5_times 50 copy_len digest else digest in
  take copy_len digest ++ replicate (Z.to_nat keylen - copy_len) 0.

Definition LoadCryptInfo (pEncryptDict : dict) (name : list Z) : bool * Cipher * Z :=
  let Version := int_for pEncryptDict (bs "V") 0 in
  let finish cipher keylen :=
    if (keylen <? 0) || (32 <? keylen) then (false, cipher, 0)
    else if negb (IsValidKeyLengthForCipher cipher keylen) then (false, cipher, 0)
    else (true, cipher, keylen) in
  if 4 <=? Version then
    match GetDictFor holder pEncryptDict (bs "CF") with
    | None => (false, kRC4, 0)
    | Some pCryptFilters =>
        if decide (name = bs "Identity") then finish kNone 0
        else
          match GetDictFor holder pCryptFilters name with
          | None => (false, kRC4, 0)
          | Some pDefFilter =>
              let nKeyBits :=
                if Version =? 4 then
                  let nKeyBits := int_for pDefFilter (bs "Length") 0 in
                  if nKeyBits =? 0 then int_for pEncryptDict (bs "Length") 128 else nKeyBits
                else int_for pEncryptDict (bs "Length") 256 in
              if nKeyBits <? 0 then (false, kRC4, 0)
              else
                let nKeyBits := if nKeyBits <? 40 then nKeyBits * 8 else nKeyBits in
                let cipher_name := str_for pDefFilter (bs "CFM") in
                finish (if decide (cipher_name = bs "AESV2" ∨ cipher_name = bs "AESV3") then kAES else kRC4)
                  (nKeyBits / 8)
          end
    end
  else finish kRC4 (if 1 <? Version then Z.quot (int_for pEncryptDict (bs "Length") 40) 8 else 5).

(** Both [LoadDict]: the second differs in that it leaves [m_Cipher] and
    [m_KeyLen] alone on failure. *)
Definition load_fields (d : dict) (cipher : Cipher) (keylen : Z) (h : CPDF_SecurityHandler) : CPDF_SecurityHandler :=
  SecurityHandler (m_bOwnerUnlocked h) (int_for d (bs "V") 0) (int_for d (bs "R") 0) (u32 (int_for d (bs "P") (-1)))
    keylen cipher (m_PasswordEncodingConversion h) (m_FileId h) d (m_pCryptoHandler h) (s_EncryptKey h).
Definition LoadDict (keep : bool) (d : dict) (h : CPDF_SecurityHandler) : bool * CPDF_SecurityHandler :=
  let unchanged := (false, load_fields d (s_Cipher h) (s_KeyLen h) h) in
  let load name :=
    let '(ok, cipher, keylen) := LoadCryptInfo d name in
    if negb ok && keep then unchanged else (ok, load_fields d cipher keylen h) in
  if 4 <=? int_for d (bs "V") 0 then
    let stmf_name := str_for d (bs "StmF") in
    let strf_name := str_for d (bs "StrF") in
    if decide (stmf_name = strf_name) then load strf_name else unchanged
  else load [].

Definition IsMetadataEncrypted (h : CPDF_SecurityHandler) : bool :=
  bool_for (m_pEncryptDict h) (bs "EncryptMetadata") true.

Definition GetPermissions (h : CPDF_SecurityHandler) : Z :=
  let dwPermission := if m_bOwnerUnlocked h then 0xFFFFFFFF else m_Permissions h in
  if decide (str_for (m_pEncryptDict h) (bs "Filter") = bs "Standard")
  then (dwPermission .& 0xFFFFFFFC) .| 0xFFFFF0C0 else dwPermission.

(** ** Revisions up to 4 *)
(** The key is stored whatever the outcome. *)
Definition CheckUserPassword (password : list Z) (bIgnoreEncryptMeta : bool) (h : CPDF_SecurityHandler) :
    bool * CPDF_SecurityHandler :=
  let key := CalcEncryptKey (m_pEncryptDict h) password (s_KeyLen h) bIgnoreEncryptMeta (m_FileId h) in
  let h := set_encrypt_key (key ++ drop (length key) (s_EncryptKey h)) h in
  let ukey := str_for (m_pEncryptDict h) (bs "U") in
  if (length ukey <? 16)%nat then (false, h)
  else if m_Revision h =? 2 then
    let ukeybuf := CRYPT_ArcFourCryptBlock kDefaultPasscode key in
    (bool_decide (take 16 ukey = take 16 ukeybuf), h)
  else
    let test := take 32 (ukey ++ replicate 32 0) in
    let test := rc4_rounds key rounds_down test in
    let ukeybuf := md5_updates (kDefaultPasscode :: (if decide (m_FileId h = []) then [] else [m_FileId h])) in
    (bool_decide (take 16 test = take 16 ukeybuf), h).

(** The key made of the owner password. *)
Definition owner_key (revision : Z) (owner_password : list Z) : list Z :=
  let digest := md5_of (GetPassCode owner_password) in
  if 3 <=? revision then md5_times 50 16 digest else digest.

(** [while (len && kDefaultPasscode[len - 1] == okey_span[len - 1])] *)
Fixpoint strip_passcode (len : nat) (okey : list Z) : nat :=
  match len with
  | O => O
  | S n => if kDefaultPasscode.[Z.of_nat n] =? okey.[Z.of_nat n] then strip_passcode n okey else len
  end.

Definition GetUserPassword (owner_password : list Z) (h : CPDF_SecurityHandler) : list Z :=
  let okey := str_for (m_pEncryptDict h) (bs "O") in
  if (length okey <? 32)%nat then []
  else
    let digest := owner_key (m_Revision h) owner_password in
    let enckey := take (Z.to_nat (s_KeyLen h)) (digest ++ replicate 16 0) in
    let okeybuf := take 32 okey in
    let okeybuf := if m_Revision h =? 2 then CRYPT_ArcFourCryptBlock okeybuf enckey
                   else rc4_rounds enckey rounds_down okeybuf in
    take (strip_passcode 32 okeybuf) okeybuf.

(** [first || second], the second on the state the first leaves. *)
Definition check_both (check : bool → CPDF_SecurityHandler → bool * CPDF_SecurityHandler)
    (h : CPDF_SecurityHandler) : bool * CPDF_SecurityHandler :=
  let '(ok, h) := check false h in if ok then (true, h) else check true h.

Definition CheckOwnerPassword (password : list Z) (h : CPDF_SecurityHandler) : bool * CPDF_SecurityHandler :=
  let user_pass := GetUserPassword password h in check_both (CheckUserPassword user_pass) h.

(** ** Revisions 5 and 6 *)
(** The hash of a password with a salt, and for the owner with the user's key. *)
Definition password_hash (revision : Z) (password salt : list Z) (vector : option (list Z)) : option (list Z) :=
  if 6 <=? revision then Revision6_Hash password salt vector
  else Some (sha256_hash3 password salt (default [] vector)).

(** The outer option is [None] where [Revision6_Hash] does not return. *)
Definition AES256_CheckPassword (password : list Z) (bOwner : bool) (h : CPDF_SecurityHandler) :
    option (bool * CPDF_SecurityHandler) :=
  let d := m_pEncryptDict h in
  let okey := str_for d (bs "O") in
  let ukey := str_for d (bs "U") in
  if (length okey <? 48)%nat || (length ukey <? 48)%nat then Some (false, h)
  else
    let pkey := if bOwner then okey else ukey in
    let vector := if bOwner then Some (take 48 ukey) else None in
    digest ← password_hash (m_Revision h) password (drop 32 pkey) vector;
    if negb (bool_decide (digest = take 32 pkey)) then Some (false, h)
    else
      digest ← password_hash (m_Revision h) password (drop 40 pkey) vector;
      let ekey := str_for d (if bOwner then bs "OE" else bs "UE") in
      if (length ekey <? 32)%nat then Some (false, h)
      else
        let aes := CRYPT_AESSetIV (CRYPT_AESSetKey blank_ctx digest 32) (replicate 16 0) in
        let '(aes, key) := CRYPT_AESDecrypt aes (take 32 ekey) in
        let h := set_encrypt_key key h in
        let aes := CRYPT_AESSetIV (CRYPT_AESSetKey aes key 32) (replicate 16 0) in
        let perms := str_for d (bs "Perms") in
        if decide (perms = []) then Some (false, h)
        else
          let perms_buf := take 16 (perms ++ replicate 16 0) in
          let buf := (CRYPT_AESDecrypt aes perms_buf).2 in
          if negb ((buf.[9] =? 97) && (buf.[10] =? 100) && (buf.[11] =? 98)) then Some (false, h)
          else if negb (GET_UINT32 buf 0 =? m_Permissions h) then Some (false, h)
          else Some ((buf.[8] =? 70) || IsMetadataEncrypted h, h).

Definition CheckPasswordImpl (password : list Z) (bOwner : bool) (h : CPDF_SecurityHandler) :
    option (bool * CPDF_SecurityHandler) :=
  if 5 <=? m_Revision h then AES256_CheckPassword password bOwner h
  else if bOwner then Some (CheckOwnerPassword password h)
  else Some (check_both (CheckUserPassword password) h).

Definition IsASCII (s : list Z) : bool := forallb (λ c, (0 <? c) && (c <=? 127)) s.

Definition CheckPassword (password : list Z) (bOwner : bool) (h : CPDF_SecurityHandler) :
    option (bool * CPDF_SecurityHandler) :=
  '(ok, h) ← CheckPasswordImpl password bOwner h;
  if (ok : bool) then Some (true, set_conversion kNoConversion h)
  else if IsASCII password then Some (false, h)
  else
    let '(other, conversion) := if 5 <=? m_Revision h then (ToUTF8 (FromLatin1 password), kLatin1ToUtf8)
                                else (ToLatin1 (FromUTF8 password), kUtf8toLatin1) in
    '(ok, h) ← CheckPasswordImpl other bOwner h;
    if (ok : bool) then Some (true, set_conversion conversion h) else Some (false, h).

Definition unlock_owner (h : CPDF_SecurityHandler) : CPDF_SecurityHandler :=
  SecurityHandler true (m_Version h) (m_Revision h) (m_Permissions h) (s_KeyLen h) (s_Cipher h)
    (m_PasswordEncodingConversion h) (m_FileId h) (m_pEncryptDict h) (m_pCryptoHandler h) (s_EncryptKey h).

Definition CheckSecurity (password : list Z) (h : CPDF_SecurityHandler) : option (bool * CPDF_SecurityHandler) :=
  '(ok, h) ← (if decide (password = []) then Some (false, h) else CheckPassword password true h);
  if (ok : bool) then Some (true, unlock_owner h) else CheckPassword password false h.

Definition InitCryptoHandler (h : CPDF_SecurityHandler) : CPDF_SecurityHandler :=
  SecurityHandler (m_bOwnerUnlocked h) (m_Version h) (m_Revision h) (m_Permissions h) (s_KeyLen h) (s_Cipher h)
    (m_PasswordEncodingConversion h) (m_FileId h) (m_pEncryptDict h)
    (Some (crypto_new (s_Cipher h) (s_EncryptKey h) (s_KeyLen h))) (s_EncryptKey h).

Definition first_id (pIdArray : option (list CPDF_Object)) : list Z :=
  match pIdArray with Some l => GetStringAt holder l 0 | None => [] end.

Definition OnInit (pEncryptDict : dict) (pIdArray : option (list CPDF_Object)) (password : list Z)
    (h : CPDF_SecurityHandler) : option (bool * CPDF_SecurityHandler) :=
  let h := SecurityHandler (m_bOwnerUnlocked h) (m_Version h) (m_Revision h) (m_Permissions h) (s_KeyLen h)
    (s_Cipher h) (m_PasswordEncodingConversion h) (first_id pIdArray) (m_pEncryptDict h) (m_pCryptoHandler h)
    (s_EncryptKey h) in
  let '(ok, h) := LoadDict false pEncryptDict h in
  if negb ok then Some (false, h)
  else if decide (s_Cipher h = kNone) then Some (true, h)
  else
    '(ok, h) ← CheckSecurity password h;
    Some (if (ok : bool) then (true, InitCryptoHandler h) else (false, h)).

Definition GetEncodedPassword (password : list Z) (h : CPDF_SecurityHandler) : list Z :=
  match m_PasswordEncodingConversion h with
  | kLatin1ToUtf8 => ToUTF8 (FromLatin1 password)
  | kUtf8toLatin1 => ToLatin1 (FromUTF8 password)
  | _ => password
  end.

(** ** Creation *)
Definition set_string (key value : list Z) (d : dict) : dict := SetFor key (CPDF_String value false) d.

Definition AES256_SetPassword (d : dict) (password : list Z) (bOwner : bool) (h : CPDF_SecurityHandler) :
    option dict :=
  let digest := CRYPT_SHA1Finish (CRYPT_SHA1Update (CRYPT_SHA1Update (CRYPT_SHA1Start (replicate 64 0))
    (s_EncryptKey h)) (bs "hello")) in
  let vector := if bOwner then Some (str_for d (bs "U")) else None in
  digest1 ← password_hash (m_Revision h) password digest vector;
  let d := set_string (if bOwner then bs "O" else bs "U") (digest1 ++ take 16 digest) d in
  digest1 ← password_hash (m_Revision h) password (drop 8 digest) vector;
  let aes := CRYPT_AESSetIV (CRYPT_AESSetKey blank_ctx digest1 32) (replicate 16 0) in
  Some (set_string (if bOwner then bs "OE" else bs "UE") (CRYPT_AESEncrypt aes (s_EncryptKey h)).2 d).

Definition AES256_SetPerms (d : dict) (random : list Z) (h : CPDF_SecurityHandler) : dict :=
  let buf := PUT_UINT32 (m_Permissions h) ++ [0xff; 0xff; 0xff; 0xff] ++
    [if bool_for d (bs "EncryptMetadata") true then 84 else 70; 97; 100; 98] ++ random in
  let aes := CRYPT_AESSetIV (CRYPT_AESSetKey blank_ctx (s_EncryptKey h) 32) (replicate 16 0) in
  set_string (bs "Perms") (CRYPT_AESEncrypt aes buf).2 d.

(** The entry [O]; [memcpy(enckey, digest, key_len)] reads 16 bytes at most. *)
Definition set_owner (d : dict) (user_password owner_password : list Z) (key_len : Z)
    (h : CPDF_SecurityHandler) : option dict :=
  let digest := owner_key (m_Revision h) owner_password in
  if zlen digest <? key_len then None
  else
    let enckey := take (Z.to_nat key_len) digest in
    let passcode := CRYPT_ArcFourCryptBlock (GetPassCode user_password) enckey in
    let passcode := if 3 <=? m_Revision h then rc4_rounds enckey rounds_up passcode else passcode in
    Some (set_string (bs "O") passcode d).

Definition set_user (d : dict) (file_id key : list Z) (h : CPDF_SecurityHandler) : dict :=
  if m_Revision h <? 3 then set_string (bs "U") (CRYPT_ArcFourCryptBlock kDefaultPasscode key) d
  else
    let digest := md5_updates (kDefaultPasscode :: (if decide (file_id = []) then [] else [file_id])) in
    let digest := CRYPT_ArcFourCryptBlock digest key in
    let digest := rc4_rounds key rounds_up digest in
    set_string (bs "U") (digest ++ md5_of digest) d.

(** [OnCreateInternal]; [random] and [random2] are what [FX_Random_GenerateMT]
    writes.  The dictionary is the handler's [m_pEncryptDict]. *)
Definition OnCreateInternal (d : dict) (pIdArray : option (list CPDF_Object))
    (user_password owner_password : list Z) (bDefault : bool) (random random2 : list Z)
    (h : CPDF_SecurityHandler) : option CPDF_SecurityHandler :=
  let '(ok, h) := LoadDict true d h in
  if negb ok then Some h
  else
    let owner_password_copy := if bDefault && bool_decide (owner_password = []) then user_password
                               else owner_password in
    if 5 <=? m_Revision h then
      let h := set_encrypt_key (CRYPT_SHA256Finish (CRYPT_SHA256Update CRYPT_SHA256Start random)) h in
      d ← AES256_SetPassword d user_password false h;
      d ← (if bDefault then AES256_SetPassword d owner_password_copy true h else Some d);
      Some (set_dict (AES256_SetPerms d random2 h) h)
    else
      d ← (if bDefault then set_owner d user_password owner_password_copy (s_KeyLen h) h else Some d);
      let file_id := first_id pIdArray in
      let key := CalcEncryptKey d user_password (s_KeyLen h) false file_id in
      let h := set_encrypt_key (key ++ drop (length key) (s_EncryptKey h)) h in
      Some (set_dict (set_user d file_id key h) h).

Definition OnCreate (d : dict) (pIdArray : option (list CPDF_Object)) (user_password owner_password : list Z)
    (random random2 : list Z) (h : CPDF_SecurityHandler) : option CPDF_SecurityHandler :=
  h ← OnCreateInternal d pIdArray user_password owner_password true random random2 h;
  Some (InitCryptoHandler h).

Definition OnCreateUser (d : dict) (pIdArray : option (list CPDF_Object)) (user_password : list Z)
    (random random2 : list Z) (h : CPDF_SecurityHandler) : option CPDF_SecurityHandler :=
  h ← OnCreateInternal d pIdArray user_password [] false random random2 h;
  Some (InitCryptoHandler h).
End security.
