(* ===== verification/SecurityText.v ===== *)
(** * A password opens what it was set for

    The entries [OnCreate] writes are what the checks of [Security.v] accept, for
    every revision, with the file key they were written with. *)
From S2P Require Import Prelude Words CharTypes BlockHash FxNumber Rc4 Md5 Sha1 Sha2 AesTables Aes AesKeys.
From S2P Require Import Objects Dict Utf8 Crypto CryptoText Security.
Import String.StringSyntax.

#[local] Opaque Sbox Sboxinv E0 E1 E2 E3 D0 D1 D2 D3.

(** ** Digests *)
Lemma length_put64 x : length (SHA_PUT_UINT64 x) = 8%nat. Proof. done. Qed.

Lemma sha256_finish_ok ctx : length (CRYPT_SHA256Finish ctx) = 32%nat ∧ bytes (CRYPT_SHA256Finish ctx).
Proof.
  unfold CRYPT_SHA256Finish, sha2_words.
  repeat match goal with |- context [let '(_, _) := ?p in _] => destruct p end.
  rewrite !length_app, !Forall_app. split; [done|]. unfold SHA_PUT_UINT32. repeat split; solve_bytes.
Qed.

Lemma sha512_close_ok ctx : length (sha512_close ctx) = 64%nat ∧ bytes (sha512_close ctx).
Proof.
  unfold sha512_close, sha2_words.
  repeat match goal with |- context [let '(_, _) := ?p in _] => destruct p end.
  rewrite !length_app, !Forall_app. split; [done|]. auto 10 with fx.
Qed.

(** ** RC4 rounds *)
Lemma length_crypt d : ∀ c, length (CRYPT_ArcFourCrypt c d).2 = length d.
Proof.
  induction d as [|x d IH]; intros c; [done|]. cbn [CRYPT_ArcFourCrypt].
  destruct (rc4_next c) as [c1 k]. specialize (IH c1). destruct (CRYPT_ArcFourCrypt c1 d). cbn in *. lia.
Qed.

Lemma rounds_inverse key l x : rc4_rounds key (rev l) (rc4_rounds key l x) = x.
Proof.
  unfold rc4_rounds. revert x. induction l as [|i l IH]; intros x; [done|]. cbn [rev fold_left].
  rewrite fold_left_app, IH. cbn [fold_left]. unfold rc4_round, CRYPT_ArcFourCryptBlock. apply crypt_twice.
Qed.

Lemma rounds_prefix key l : ∀ a b, ∃ b', rc4_rounds key l (a ++ b) = rc4_rounds key l a ++ b'.
Proof.
  unfold rc4_rounds. induction l as [|i l IH]; intros a b; [by exists b|]. cbn [fold_left].
  assert (Hr : ∃ b', rc4_round key (a ++ b) i = rc4_round key a i ++ b').
  { unfold rc4_round, CRYPT_ArcFourCryptBlock. rewrite crypt_app.
    destruct (CRYPT_ArcFourCrypt _ a) as [c1 o1]. destruct (CRYPT_ArcFourCrypt c1 b) as [c2 o2]. by exists o2. }
  destruct Hr as [b' ->]. apply IH.
Qed.

Lemma length_rounds key l : ∀ x, length (rc4_rounds key l x) = length x.
Proof.
  unfold rc4_rounds. induction l as [|i l IH]; intros x; [done|]. cbn [fold_left]. rewrite IH.
  unfold rc4_round, CRYPT_ArcFourCryptBlock. apply length_crypt.
Qed.

(** The twenty rounds of creation, undone by those of a check. *)
Lemma rounds_up_down key x :
  rc4_rounds key rounds_down (rc4_rounds key rounds_up (CRYPT_ArcFourCryptBlock x key)) = x.
Proof.
  assert (E : rc4_rounds key rounds_up (CRYPT_ArcFourCryptBlock x key) = rc4_rounds key (seqZ 0 20) x).
  { change (seqZ 0 20) with (0 :: seqZ 1 19). unfold rc4_rounds. cbn [fold_left]. do 2 f_equal.
    unfold rc4_round. f_equal. clear. induction key as [|k key IH]; [done|]. cbn [map].
    by rewrite Z.lxor_0_r, <-IH. }
  rewrite E. apply rounds_inverse.
Qed.

(** ** Entries *)
Definition created_keys : list (list Z) := [bs "O"; bs "U"; bs "OE"; bs "UE"; bs "Perms"].

(** The same entries, but for those [OnCreate] writes. *)
Definition same_entries (d d' : dict) : Prop :=
  ∀ k, k ∉ created_keys → GetObjectFor k d' = GetObjectFor k d.

Lemma same_entries_set k v d d' : k ∈ created_keys → same_entries d d' → same_entries d (set_string k v d').
Proof.
  intros Hk Hs k' Hk'. unfold set_string. rewrite GetObjectFor_SetFor, bool_decide_eq_false_2; [by apply Hs|].
  by intros ->.
Qed.

Ltac fresh_key := match goal with |- ?k ∉ created_keys => apply (bool_decide_unpack _); vm_compute; exact I end.

Section entries.
Context (holder : Z → option CPDF_Object).

Lemma str_for_set k k' v d :
  GetStringFor holder (set_string k v d) k' = if bool_decide (k' = k) then v else GetStringFor holder d k'.
Proof. unfold GetStringFor, set_string. rewrite GetObjectFor_SetFor. by case_bool_decide. Qed.

Lemma same_str d d' k : same_entries d d' → k ∉ created_keys → GetStringFor holder d' k = GetStringFor holder d k.
Proof. intros Hs Hk. unfold GetStringFor. by rewrite Hs. Qed.
Lemma same_int d d' k def : same_entries d d' → k ∉ created_keys → GetIntegerFor holder d' k def = GetIntegerFor holder d k def.
Proof. intros Hs Hk. unfold GetIntegerFor. by rewrite Hs. Qed.
Lemma same_bool d d' k def : same_entries d d' → k ∉ created_keys → GetBooleanFor holder d' k def = GetBooleanFor holder d k def.
Proof. intros Hs Hk. unfold GetBooleanFor. by rewrite Hs. Qed.

Lemma same_crypt_info d d' name : same_entries d d' → LoadCryptInfo holder d' name = LoadCryptInfo holder d name.
Proof.
  intros Hs. unfold LoadCryptInfo, GetDictFor, GetDirectObjectFor.
  rewrite !(same_int d d') by (done || fresh_key). rewrite (Hs (bs "CF")) by fresh_key.
  reflexivity.
Qed.

Definition with_dict (d : dict) (r : bool * CPDF_SecurityHandler) : bool * CPDF_SecurityHandler :=
  (r.1, set_dict d r.2).

Lemma same_load keep d d' h : same_entries d d' →
  LoadDict holder keep d' h = with_dict d' (LoadDict holder keep d h).
Proof.
  intros Hs. unfold LoadDict, load_fields.
  rewrite !(same_int d d') by (done || fresh_key). rewrite !(same_str d d') by (done || fresh_key).
  rewrite !(same_crypt_info d d') by done.
  destruct (4 <=? _); [case_decide; [|reflexivity]|];
    destruct (LoadCryptInfo holder d _) as [[ok cipher] keylen]; by destruct ok, keep.
Qed.

(** What the key depends on. *)
Lemma same_key d d' password keylen ignore id :
  same_entries d d' → GetStringFor holder d' (bs "O") = GetStringFor holder d (bs "O") →
  CalcEncryptKey holder d' password keylen ignore id = CalcEncryptKey holder d password keylen ignore id.
Proof.
  intros Hs Ho. unfold CalcEncryptKey. rewrite Ho, !(same_int d d'), (same_bool d d') by (done || fresh_key). done.
Qed.
End entries.

(** ** The hash of revision 6 ends *)
Definition rev6_ok (s : rev6) : Prop :=
  (32 <= length (r6_input s))%nat ∧ bytes (r6_input s) ∧ bytes (r6_E s).

Lemma aes_encrypt_out ctx src :
  length (CRYPT_AESEncrypt ctx src).2 = (16 * (length src / 16))%nat ∧ bytes (CRYPT_AESEncrypt ctx src).2.
Proof.
  unfold CRYPT_AESEncrypt. pose proof (length_encrypt_cbc ctx (length src / 16) (take 4 (aes_iv ctx)) src) as H.
  by destruct (aes_encrypt_cbc _ _ _ src).
Qed.

Lemma sha_generate_ok E :
  (length (CRYPT_SHA256Generate E) = 32%nat ∧ bytes (CRYPT_SHA256Generate E)) ∧
  (length (CRYPT_SHA384Generate E) = 48%nat ∧ bytes (CRYPT_SHA384Generate E)) ∧
  (length (CRYPT_SHA512Generate E) = 64%nat ∧ bytes (CRYPT_SHA512Generate E)).
Proof.
  split; [apply sha256_finish_ok|]. split; [|apply sha512_close_ok].
  destruct (sha512_close_ok (CRYPT_SHA384Update CRYPT_SHA384Start E)) as [H1 H2].
  unfold CRYPT_SHA384Generate, CRYPT_SHA384Finish. split; [by rewrite length_take, H1|by apply Forall_take].
Qed.

Lemma rev6_round_ok password vector s : rev6_ok (rev6_round password vector s).
Proof.
  unfold rev6_round, rev6_ok. set (content := concat _). set (aes := CRYPT_AESSetIV _ _).
  pose proof (aes_encrypt_out aes content) as [_ HE]. destruct (CRYPT_AESEncrypt aes content) as [aes' E].
  cbn [snd r6_input r6_E] in *.
  destruct (sha_generate_ok E) as ((L1 & B1) & (L2 & B2) & (L3 & B3)).
  destruct (BigOrder64BitsMod3 E =? 0); [by rewrite L1; split_and!; [lia|..]|].
  destruct (BigOrder64BitsMod3 E =? 1); [rewrite L2|rewrite L3]; (split_and!; [lia|done..]).
Qed.

Lemma rev6_loop_ends fuel password vector : ∀ i s,
  rev6_ok s → 0 <= i → 288 <= i + Z.of_nat fuel →
  ∃ n s', rev6_loop fuel password vector i s = Some (n, s') ∧ rev6_ok s' ∧ 64 <= n <= Z.max i 287.
Proof.
  induction fuel as [|fuel IH]; intros i s Hs Hi Hf; cbn [rev6_loop];
    (assert (Hb : byte (r6_E s).[zlen (r6_E s) - 1]) by (apply bytes_rd, Hs)); unfold fits in Hb;
    destruct ((i <? 64) || (i <? _)) eqn:E.
  - exfalso. lia.
  - exists i, s. split_and!; [done..|lia|lia].
  - destruct (IH (i + 1) (rev6_round password vector s)) as (n & s' & E' & Hs' & Hn);
      [apply rev6_round_ok|lia|lia|]. exists n, s'. split_and!; [done..|lia|lia].
  - exists i, s. split_and!; [done..|lia|lia].
Qed.

Lemma rev6_start_ok password salt vector : rev6_ok (rev6_start password salt vector).
Proof.
  unfold rev6_start, rev6_ok. cbn [r6_input r6_E].
  destruct (sha256_finish_ok (match vector with Some v => CRYPT_SHA256Update
    (CRYPT_SHA256Update (CRYPT_SHA256Update CRYPT_SHA256Start password) (take 8 salt)) (take 48 v)
    | None => CRYPT_SHA256Update (CRYPT_SHA256Update CRYPT_SHA256Start password) (take 8 salt) end)) as [H1 H2].
  rewrite H1. split_and!; [lia|done|constructor].
Qed.

Lemma rev6_total password salt vector :
  ∃ n s, rev6_loop 300 password vector 0 (rev6_start password salt vector) = Some (n, s) ∧ 64 <= n <= 287 ∧
    Revision6_Hash password salt vector = Some (take 32 (r6_input s)) ∧
    length (take 32 (r6_input s)) = 32%nat ∧ bytes (take 32 (r6_input s)).
Proof.
  destruct (rev6_loop_ends 300 password vector 0 _ (rev6_start_ok password salt vector)) as (n & s & E & Hs & Hn); [lia|lia|].
  exists n, s. unfold Revision6_Hash. rewrite E. split_and!; [done|lia|lia|done| |].
  - rewrite length_take. destruct Hs. lia.
  - apply Forall_take, Hs.
Qed.

Lemma password_hash_total revision password salt vector :
  ∃ digest, password_hash revision password salt vector = Some digest ∧ length digest = 32%nat ∧ bytes digest.
Proof.
  unfold password_hash. case_match.
  - destruct (rev6_total password salt vector) as (n & s & _ & _ & E & H1 & H2). by eexists.
  - destruct (sha256_finish_ok (CRYPT_SHA256Update (CRYPT_SHA256Update (CRYPT_SHA256Update CRYPT_SHA256Start password)
      (take 8 salt)) (default [] vector))) as [H1 H2]. by eexists.
Qed.

(** The salt is eight bytes. *)
Lemma password_hash_salt revision password salt salt' vector :
  take 8 salt = take 8 salt' → password_hash revision password salt vector = password_hash revision password salt' vector.
Proof. intros H. unfold password_hash, Revision6_Hash, rev6_start, sha256_hash3. by rewrite H. Qed.

(** C33: the hash of revision 6 ends: after 64 to 287 rounds its loop is left,
    whatever the password, the salt and the user key, and the result is 32
    bytes. *)
Theorem rev6_terminates password salt vector :
  ∃ rounds s, rev6_loop 300 password vector 0 (rev6_start password salt vector) = Some (rounds, s) ∧
    64 <= rounds <= 287 ∧ Revision6_Hash password salt vector = Some (take 32 (r6_input s)) ∧
    length (take 32 (r6_input s)) = 32%nat ∧ bytes (take 32 (r6_input s)).
Proof. exact (rev6_total password salt vector). Qed.

(** ** Keys wrapped with AES *)
Definition zero_iv : list Z := replicate 16 0.

Lemma aes_unwrap e0 d0 key data n :
  aes_ctx_wf e0 → aes_ctx_wf d0 → length key = 32%nat → bytes key → bytes data → length data = (16 * n)%nat →
  let ct := (CRYPT_AESEncrypt (CRYPT_AESSetIV (CRYPT_AESSetKey e0 key 32) zero_iv) data).2 in
  length ct = length data ∧ bytes ct ∧
  (CRYPT_AESDecrypt (CRYPT_AESSetIV (CRYPT_AESSetKey d0 key 32) zero_iv) ct).2 = data.
Proof.
  intros He Hd Hlen Hkey Hdata Hn. cbv zeta.
  assert (Hz : zlen key = 32) by (unfold zlen; by rewrite Hlen). rewrite <-Hz.
  assert (Hv : valid_keylen (zlen key)) by (right; by right).
  assert (Hiv : bytes zero_iv) by (apply Forall_replicate; unfold fits; lia).
  pose proof (pair_setup e0 d0 key zero_iv He Hd Hv Hkey Hiv eq_refl) as Hp.
  destruct (set_key_wf e0 key He Hv Hkey) as [Hwe HNe].
  pose proof (set_iv_wf _ zero_iv Hwe HNe Hiv eq_refl) as (_ & _ & Hl & _).
  pose proof (pair_crypt _ _ data n Hp ltac:(rewrite Hl; lia) Hdata Hn) as H.
  destruct (CRYPT_AESEncrypt _ data) as [e ct]. destruct H as (H1 & H2 & _ & H3). cbn [snd].
  destruct (CRYPT_AESDecrypt _ ct) as [d pt]. cbn [snd]. by destruct H3 as [-> _].
Qed.

Lemma decrypt_iv c n : ∀ iv src, length iv = 4%nat → Forall (fits 32) iv → bytes src → (16 * n <= length src)%nat →
  length (aes_decrypt_cbc c n iv src).1 = 4%nat ∧ Forall (fits 32) (aes_decrypt_cbc c n iv src).1.
Proof.
  induction n as [|n IH]; intros iv src Hl Hiv Hsrc Hn; [done|]. cbn [aes_decrypt_cbc].
  specialize (IH (read_block src) (drop 16 src) ltac:(done) ltac:(apply read_block_fits; [done|lia])
    ltac:(by apply Forall_drop) ltac:(rewrite length_drop; lia)).
  by destruct (aes_decrypt_cbc c n _ _).
Qed.

Lemma aes_decrypt_wf ctx src : aes_ctx_wf ctx → bytes src → aes_ctx_wf (CRYPT_AESDecrypt ctx src).1.
Proof.
  intros (H1 & H2 & H3 & H4 & H5) Hsrc. unfold CRYPT_AESDecrypt.
  pose proof (Nat.div_mod_eq (length src) 16).
  destruct (decrypt_iv ctx (length src / 16) (take 4 (aes_iv ctx)) src) as [HI HF];
    [rewrite length_take; lia|by apply Forall_take|done|lia|].
  destruct (aes_decrypt_cbc _ _ _ _) as [iv ct]. cbn [fst] in *.
  split_and!; [done..| |done|]; unfold set_iv4.
  - cbn [aes_iv]. rewrite length_app, length_drop. lia.
  - cbn [aes_iv]. apply Forall_app; split; [done|by apply Forall_drop].
Qed.

Lemma set_key_iv_wf ctx key : aes_ctx_wf ctx → length key = 32%nat → bytes key →
  aes_ctx_wf (CRYPT_AESSetIV (CRYPT_AESSetKey ctx key 32) zero_iv).
Proof.
  intros Hw Hlen Hkey. assert (Hz : zlen key = 32) by (unfold zlen; by rewrite Hlen). rewrite <-Hz.
  assert (Hv : valid_keylen (zlen key)) by (right; by right).
  destruct (set_key_wf ctx key Hw Hv Hkey) as [Hwe HNe]. apply set_iv_wf; [done..| |done].
  apply Forall_replicate; unfold fits; lia.
Qed.

(** ** Revisions up to 4 *)
Lemma length_passcode p : length (GetPassCode p) = 32%nat.
Proof.
  unfold GetPassCode. rewrite length_app, !length_take. change (length kDefaultPasscode) with 32%nat. lia.
Qed.

Lemma passcode_id l : length l = 32%nat → GetPassCode l = l.
Proof. intros H. unfold GetPassCode. rewrite H. cbn [Nat.min Nat.sub]. by rewrite app_nil_r, take_ge by lia. Qed.

Lemma md5_updates_ok l : length (md5_updates l) = 16%nat.
Proof.
  unfold md5_updates, CRYPT_MD5Finish, md5_output. destruct (md5_state _) as [[[s0 s1] s2] s3]. done.
Qed.

Lemma length_md5_times n len digest : length digest = 16%nat → length (md5_times n len digest) = 16%nat.
Proof. intros H. destruct n; [done|]. apply md5_of_ok. Qed.

Section unlock.
Context (holder : Z → option CPDF_Object).
Notation str_for := (GetStringFor holder).

Lemma length_key d password keylen ignore id :
  length (CalcEncryptKey holder d password keylen ignore id) = Z.to_nat keylen.
Proof.
  unfold CalcEncryptKey. rewrite length_app, length_take, length_replicate.
  match goal with |- context [length ?d] => set (digest := d) end.
  assert (Hd : length digest = 16%nat); [|lia].
  unfold digest. destruct (3 <=? _); [apply length_md5_times|]; apply md5_updates_ok.
Qed.

Lemma check_user h h0 d0 password :
  let key := CalcEncryptKey holder (m_pEncryptDict h) password (s_KeyLen h) false (m_FileId h) in
  2 <= m_Revision h → m_Revision h0 = m_Revision h →
  str_for (m_pEncryptDict h) (bs "U") = str_for (set_user d0 (m_FileId h) key h0) (bs "U") →
  CheckUserPassword holder password false h = (true, set_encrypt_key (key ++ drop (length key) (s_EncryptKey h)) h).
Proof.
  cbv zeta. intros HR HR0 HU. unfold CheckUserPassword. cbn [m_pEncryptDict set_encrypt_key m_Revision m_FileId].
  rewrite HU. unfold set_user. rewrite HR0.
  set (key := CalcEncryptKey _ _ _ _ _ _). destruct (Z.ltb_spec (m_Revision h) 3) as [H3|H3].
  - rewrite str_for_set, bool_decide_eq_true_2 by done. assert (m_Revision h = 2) as -> by lia.
    unfold CRYPT_ArcFourCryptBlock at 1. rewrite length_crypt. cbn [Nat.ltb Nat.leb length kDefaultPasscode Z.eqb].
    by rewrite bool_decide_eq_true_2.
  - rewrite str_for_set, bool_decide_eq_true_2 by done. rewrite (proj2 (Z.eqb_neq _ 2)) by lia.
    set (id := md5_updates _). assert (Hid : length id = 16%nat) by apply md5_updates_ok.
    set (x := rc4_rounds key rounds_up _).
    assert (Hx : length x = 16%nat).
    { unfold x. rewrite length_rounds. unfold CRYPT_ArcFourCryptBlock. by rewrite length_crypt. }
    set (y := md5_of _). assert (Hy : length y = 16%nat) by apply md5_of_ok.
    rewrite length_app, Hx, Hy. cbn [Nat.ltb Nat.leb Nat.add].
    rewrite (take_app_le (x ++ y)) by (rewrite length_app, Hx, Hy; lia).
    rewrite (take_ge (x ++ y)) by (rewrite length_app, Hx, Hy; lia).
    destruct (rounds_prefix key rounds_down x y) as [b' ->].
    assert (Hxi : rc4_rounds key rounds_down x = id) by apply rounds_up_down.
    rewrite Hxi, bool_decide_eq_true_2; [done|]. rewrite (take_app_le id) by lia. done.
Qed.

(** The user password out of the entry [O], up to what is taken for padding. *)
Lemma user_password h d user owner d' :
  m_pEncryptDict h = d' → 0 <= s_KeyLen h → s_KeyLen h <= 16 → 2 <= m_Revision h →
  (∃ h0 d0, m_Revision h0 = m_Revision h ∧ set_owner d user owner (s_KeyLen h) h0 = Some d0 ∧
    str_for d' (bs "O") = str_for d0 (bs "O")) →
  GetUserPassword holder owner h = take (strip_passcode 32 (GetPassCode user)) (GetPassCode user).
Proof.
  intros Hd' H0 H16 HR (h0 & d0 & HR0 & Hset & HO). unfold GetUserPassword. rewrite Hd', HO.
  unfold set_owner in Hset. rewrite HR0 in Hset.
  set (digest := owner_key (m_Revision h) owner) in *.
  assert (Hdl : length digest = 16%nat).
  { unfold digest, owner_key. destruct (3 <=? _); [apply length_md5_times|]; apply md5_of_ok. }
  rewrite (proj2 (Z.ltb_ge _ _)) in Hset by (unfold zlen; lia). apply (inj Some) in Hset as <-.
  rewrite str_for_set, bool_decide_eq_true_2 by done.
  set (enckey := take (Z.to_nat (s_KeyLen h)) digest).
  rewrite (take_app_le digest) by lia. fold enckey.
  match goal with |- context [length ?y] => set (x := y) end.
  assert (Hx : length x = 32%nat).
  { unfold x. unfold CRYPT_ArcFourCryptBlock. destruct (3 <=? _); rewrite ?length_rounds, length_crypt; apply length_passcode. }
  rewrite Hx. cbn [Nat.ltb Nat.leb]. rewrite (take_ge x) by lia.
  assert (Hback : (if m_Revision h =? 2 then CRYPT_ArcFourCryptBlock x enckey else rc4_rounds enckey rounds_down x) =
    GetPassCode user); [|by rewrite Hback].
  unfold x. destruct (Z.eqb_spec (m_Revision h) 2) as [->|].
  - apply crypt_twice.
  - rewrite (proj2 (Z.leb_le _ _)) by lia. apply rounds_up_down.
Qed.
End unlock.

(** What [strip_passcode] leaves ends where the padding of the empty password
    agrees to the end. *)
Lemma strip_spec len okey : (strip_passcode len okey <= len)%nat ∧
  ∀ i, Z.of_nat (strip_passcode len okey) <= i < Z.of_nat len → kDefaultPasscode.[i] = okey.[i].
Proof.
  induction len as [|n IH]; cbn [strip_passcode]; [split; [done|lia]|].
  destruct (Z.eqb_spec kDefaultPasscode.[Z.of_nat n] okey.[Z.of_nat n]) as [E|E]; [|split; [done|lia]].
  destruct IH as [IH1 IH2]. split; [lia|]. intros i Hi.
  destruct (Z.eq_dec i (Z.of_nat n)) as [->|]; [done|]. apply IH2. lia.
Qed.

Lemma list_rd_eq (a b : list Z) : length a = length b → (∀ i, 0 <= i < zlen a → a.[i] = b.[i]) → a = b.
Proof.
  intros Hl H. apply list_eq_same_length with (n := length a); [done|done|].
  intros i x y Hi Hx Hy. specialize (H (Z.of_nat i)). unfold rd, zlen in H. rewrite !nth_lookup, Nat2Z.id, Hx, Hy in H.
  apply H. lia.
Qed.

Lemma strip_ok user : user = [] ∨ (GetPassCode user).[31] ≠ 122 →
  GetPassCode (take (strip_passcode 32 (GetPassCode user)) (GetPassCode user)) = GetPassCode user.
Proof.
  intros [->|Hne]; [by vm_compute|].
  assert (E : strip_passcode 32 (GetPassCode user) = 32%nat).
  { cbn [strip_passcode]. change (Z.of_nat 31) with 31. change kDefaultPasscode.[31] with 122.
    by rewrite (proj2 (Z.eqb_neq _ _)) by congruence. }
  rewrite E, take_ge by (rewrite length_passcode; lia). apply passcode_id, length_passcode.
Qed.

Lemma strip_wrong user : (GetPassCode user).[31] = 122 → GetPassCode user ≠ kDefaultPasscode →
  GetPassCode (take (strip_passcode 32 (GetPassCode user)) (GetPassCode user)) ≠ GetPassCode user.
Proof.
  intros H31 Hne E. set (pass := GetPassCode user) in *. set (n := strip_passcode 32 pass) in *.
  destruct (strip_spec 32 pass) as [Hn Hs]. fold n in Hn, Hs.
  assert (Hp : length pass = 32%nat) by apply length_passcode.
  assert (H0 : n ≠ 0%nat).
  { intros E0. apply Hne. apply list_rd_eq; [done|]. intros i Hi. unfold zlen in Hi. rewrite Hp in Hi.
    symmetry. apply Hs. lia. }
  assert (H32 : (n < 32)%nat).
  { unfold n. cbn [strip_passcode]. change (Z.of_nat 31) with 31. change kDefaultPasscode.[31] with 122.
    rewrite H31, Z.eqb_refl. destruct (strip_spec 31 pass) as [H _]. cbn [strip_passcode] in H. lia. }
  apply (f_equal (λ l, l.[31])) in E. rewrite H31 in E. unfold GetPassCode in E.
  assert (Htl : length (take n pass) = n) by (rewrite length_take; lia). rewrite Htl, Nat.min_l in E by lia.
  rewrite (take_ge (take n pass)) in E by lia.
  replace 31 with (zlen (take n pass) + (31 - Z.of_nat n)) in E by (unfold zlen; lia).
  rewrite rd_app_r in E by lia. rewrite rd_take in E by lia.
  assert (Hall : ∀ k, (1 <= k <= 31)%nat → kDefaultPasscode.[31 - Z.of_nat k] ≠ 122).
  { intros k Hk. do 32 (destruct k as [|k]; [first [lia|by vm_compute]|]). lia. }
  by apply (Hall n ltac:(lia)).
Qed.

(** ** What a check leaves alone *)
Definition frame (h h' : CPDF_SecurityHandler) : Prop := ∃ k c, h' = set_conversion c (set_encrypt_key k h).

Lemma frame_refl h : frame h h.
Proof. exists (s_EncryptKey h), (m_PasswordEncodingConversion h). by destruct h. Qed.
Lemma frame_key k h : frame h (set_encrypt_key k h).
Proof. exists k, (m_PasswordEncodingConversion h). by destruct h. Qed.
Lemma frame_conversion c h h' : frame h h' → frame h (set_conversion c h').
Proof. intros (k & c' & ->). by exists k, c. Qed.
Lemma frame_trans h1 h2 h3 : frame h1 h2 → frame h2 h3 → frame h1 h3.
Proof. intros (k & c & ->) (k' & c' & ->). by exists k', c'. Qed.
#[local] Hint Resolve frame_refl frame_key frame_conversion : core.

Section checks.
Context (holder : Z → option CPDF_Object).
Notation str_for := (GetStringFor holder).

Lemma check_user_frame password ignore h : frame h (CheckUserPassword holder password ignore h).2.
Proof.
  unfold CheckUserPassword. destruct (_ <? 16)%nat; [cbn; auto|].
  destruct (_ =? 2); cbn; auto.
Qed.

Lemma check_both_frame check h : (∀ b h, frame h (check b h).2) → frame h (check_both check h).2.
Proof.
  intros H. unfold check_both. pose proof (H false h) as H1. destruct (check false h) as [ok h1]. cbn [snd] in H1.
  destruct ok; [done|]. eapply frame_trans; [exact H1|apply H].
Qed.

Lemma aes256_check_total password bOwner h :
  ∃ ok h', AES256_CheckPassword holder password bOwner h = Some (ok, h') ∧ frame h h'.
Proof.
  unfold AES256_CheckPassword. destruct (_ || _); [eauto|].
  match goal with |- context [password_hash ?r ?p ?s ?v ≫= _] =>
    destruct (password_hash_total r p s v) as (d1 & -> & _) end. cbn [mbind option_bind].
  destruct (negb (bool_decide _)); [eauto|].
  match goal with |- context [password_hash ?r ?p ?s ?v ≫= _] =>
    destruct (password_hash_total r p s v) as (d2 & -> & _) end. cbn [mbind option_bind].
  destruct (_ <? 32)%nat; [eauto|]. destruct (CRYPT_AESDecrypt _ _) as [aes key].
  destruct (decide _); [eauto|]. destruct (negb _); [eauto|]. destruct (negb _); eauto.
Qed.

Lemma check_impl_total password bOwner h :
  ∃ ok h', CheckPasswordImpl holder password bOwner h = Some (ok, h') ∧ frame h h'.
Proof.
  unfold CheckPasswordImpl. destruct (5 <=? _); [apply aes256_check_total|].
  destruct bOwner; eexists _, _; (split; [f_equal; apply surjective_pairing|]);
    apply check_both_frame; intros; apply check_user_frame.
Qed.

Lemma check_total password bOwner h :
  ∃ ok h', CheckPassword holder password bOwner h = Some (ok, h') ∧ frame h h'.
Proof.
  unfold CheckPassword. destruct (check_impl_total password bOwner h) as (ok & h1 & -> & H1). cbn [mbind option_bind].
  destruct ok; [eauto|]. destruct (IsASCII password); [eauto|].
  match goal with |- context [let '(_, _) := ?p in _] => destruct p as [other conversion] end.
  destruct (check_impl_total other bOwner h1) as (ok & h2 & -> & H2). cbn [mbind option_bind].
  pose proof (frame_trans _ _ _ H1 H2). destruct ok; eauto 6.
Qed.

Lemma check_success password bOwner h h' :
  CheckPasswordImpl holder password bOwner h = Some (true, h') →
  CheckPassword holder password bOwner h = Some (true, set_conversion kNoConversion h').
Proof. unfold CheckPassword. by intros ->. Qed.

(** ** Revisions 5 and 6 *)
Definition key_name (bOwner : bool) : list Z := if bOwner then bs "O" else bs "U".
Definition ekey_name (bOwner : bool) : list Z := if bOwner then bs "OE" else bs "UE".
Definition owner_vector (bOwner : bool) (d : dict) : option (list Z) :=
  if bOwner then Some (str_for d (bs "U")) else None.

Definition wrap (key data : list Z) : list Z :=
  (CRYPT_AESEncrypt (CRYPT_AESSetIV (CRYPT_AESSetKey blank_ctx key 32) zero_iv) data).2.

(** The two entries of a password, for a file key. *)
Definition password_entries (R : Z) (bOwner : bool) (password key : list Z) (vector : option (list Z)) (d : dict) : Prop :=
  ∃ a b salt, (16 <= length salt)%nat ∧ length a = 32%nat ∧ length b = 32%nat ∧ bytes b ∧
    password_hash R password salt vector = Some a ∧ str_for d (key_name bOwner) = a ++ take 16 salt ∧
    password_hash R password (drop 8 salt) vector = Some b ∧ str_for d (ekey_name bOwner) = wrap b key.

Lemma set_password_spec d password bOwner h :
  ∃ d1, AES256_SetPassword holder d password bOwner h = Some d1 ∧
    password_entries (m_Revision h) bOwner password (s_EncryptKey h) (owner_vector bOwner d) d1 ∧
    length (str_for d1 (key_name bOwner)) = 48%nat ∧
    ∀ k, k ≠ key_name bOwner → k ≠ ekey_name bOwner → GetObjectFor k d1 = GetObjectFor k d.
Proof.
  unfold AES256_SetPassword. set (salt := CRYPT_SHA1Finish _).
  assert (Hs : length salt = 20%nat).
  { unfold salt, CRYPT_SHA1Finish, sha1_output.
    repeat match goal with |- context [let '(_, _) := ?p in _] => destruct p end. done. }
  fold (owner_vector bOwner d).
  destruct (password_hash_total (m_Revision h) password salt (owner_vector bOwner d)) as (a & Ea & Ha & _).
  destruct (password_hash_total (m_Revision h) password (drop 8 salt) (owner_vector bOwner d)) as (b & Eb & Hb & Hbb).
  rewrite Ea, Eb. cbn [mbind option_bind]. eexists. split; [done|].
  assert (Hk : str_for (set_string (ekey_name bOwner) (wrap b (s_EncryptKey h))
    (set_string (key_name bOwner) (a ++ take 16 salt) d)) (key_name bOwner) = a ++ take 16 salt).
  { rewrite !str_for_set. rewrite bool_decide_eq_false_2 by (by destruct bOwner). by rewrite bool_decide_eq_true_2. }
  assert (He : str_for (set_string (ekey_name bOwner) (wrap b (s_EncryptKey h))
    (set_string (key_name bOwner) (a ++ take 16 salt) d)) (ekey_name bOwner) = wrap b (s_EncryptKey h)).
  { rewrite str_for_set. by rewrite bool_decide_eq_true_2. }
  split_and!.
  - exists a, b, salt. split_and!; try done; lia.
  - etrans; [exact (f_equal length Hk)|]. rewrite length_app, length_take. lia.
  - intros k H1 H2. unfold set_string. rewrite !GetObjectFor_SetFor.
    by rewrite (bool_decide_eq_false_2 _ H2), (bool_decide_eq_false_2 _ H1).
Qed.

Definition perms_buf (permissions : Z) (encrypt_metadata : bool) (random : list Z) : list Z :=
  PUT_UINT32 permissions ++ [0xff; 0xff; 0xff; 0xff] ++ [if encrypt_metadata then 84 else 70; 97; 100; 98] ++ random.

Lemma aes256_check h (password : list Z) (bOwner : bool) (key : list Z) vector (random : list Z) :
  length key = 32%nat → bytes key → fits 32 (m_Permissions h) → length random = 4%nat → bytes random →
  vector = (if bOwner then Some (take 48 (str_for (m_pEncryptDict h) (bs "U"))) else None) →
  password_entries (m_Revision h) bOwner password key vector (m_pEncryptDict h) →
  (48 <= length (str_for (m_pEncryptDict h) (bs "O")))%nat →
  (48 <= length (str_for (m_pEncryptDict h) (bs "U")))%nat →
  str_for (m_pEncryptDict h) (bs "Perms") =
    wrap key (perms_buf (m_Permissions h) (GetBooleanFor holder (m_pEncryptDict h) (bs "EncryptMetadata") true) random) →
  AES256_CheckPassword holder password bOwner h = Some (true, set_encrypt_key key h).
Proof.
  intros Hk Hkb Hperm Hr Hrb Hv (a & b & salt & Hs & Ha & Hb & Hbb & E1 & EK & E2 & EE) HO HU HP.
  unfold AES256_CheckPassword.
  rewrite (proj2 (Nat.ltb_ge _ _) HO), (proj2 (Nat.ltb_ge _ _) HU). cbn [orb]. rewrite <-Hv.
  set (pkey := if bOwner then str_for (m_pEncryptDict h) (bs "O") else str_for (m_pEncryptDict h) (bs "U")).
  assert (Epk : pkey = a ++ take 16 salt) by (by destruct bOwner). rewrite Epk.
  rewrite (drop_app_length' a (take 16 salt) 32) by done.
  rewrite (password_hash_salt _ _ (take 16 salt) salt) by (rewrite take_take; done). rewrite E1. cbn [mbind option_bind].
  rewrite take_app_length' by done. rewrite bool_decide_eq_true_2 by done. cbn [negb].
  assert (E40 : drop 40 (a ++ take 16 salt) = drop 8 (take 16 salt)) by (rewrite drop_app_ge by lia; f_equal; lia).
  rewrite E40.
  rewrite (password_hash_salt _ _ (drop 8 (take 16 salt)) (drop 8 salt)) by (rewrite skipn_firstn_comm, take_take; done).
  rewrite E2. cbn [mbind option_bind].
  assert (EE' : (if bOwner then str_for (m_pEncryptDict h) (bs "OE") else str_for (m_pEncryptDict h) (bs "UE")) = wrap b key)
    by (by destruct bOwner).
  replace (str_for (m_pEncryptDict h) (if bOwner then bs "OE" else bs "UE")) with (wrap b key) by (by destruct bOwner).
  destruct (aes_unwrap blank_ctx blank_ctx b key 2 blank_ctx_wf blank_ctx_wf Hb Hbb Hkb Hk) as (L1 & B1 & D1).
  fold (wrap b key) in L1, B1, D1. rewrite (proj2 (Nat.ltb_ge _ _)) by lia. rewrite (take_ge (wrap b key)) by lia.
  pose proof (aes_decrypt_wf _ (wrap b key) (set_key_iv_wf blank_ctx b blank_ctx_wf Hb Hbb) B1) as Hwf.
  fold zero_iv. destruct (CRYPT_AESDecrypt _ (wrap b key)) as [aes key']. cbn [fst snd] in *. subst key'.
  rewrite HP. set (em := GetBooleanFor _ _ _ _). set (buf := perms_buf _ _ _).
  assert (Hbuf : length buf = 16%nat ∧ bytes buf).
  { unfold buf, perms_buf. rewrite !length_app, Hr, !Forall_app. split; [done|]. split; [apply put_le32_bytes|].
    split; [solve_bytes|]. split; [|done]. destruct em; solve_bytes. }
  destruct Hbuf as [Hbl Hbb'].
  destruct (aes_unwrap blank_ctx aes key buf 1 blank_ctx_wf Hwf Hk Hkb Hbb' Hbl) as (L2 & B2 & D2).
  fold (wrap key buf) in L2, B2, D2. rewrite decide_False by (intros E; by rewrite E, Hbl in L2).
  rewrite take_app_le by lia. rewrite (take_ge (wrap key buf)) by lia. rewrite D2.
  assert (H4 : ∀ i, buf.[4 + i] = ([0xff; 0xff; 0xff; 0xff] ++ [if em then 84 else 70; 97; 100; 98] ++ random).[i] ∨ i < 0).
  { intros i. destruct (Z.ltb_spec i 0); [by right|left]. unfold buf, perms_buf.
    change 4 with (zlen (PUT_UINT32 (m_Permissions h))). by rewrite rd_app_r. }
  assert (H9 : buf.[9] = 97 ∧ buf.[10] = 100 ∧ buf.[11] = 98 ∧ buf.[8] = if em then 84 else 70).
  { split_and!; [destruct (H4 5)|destruct (H4 6)|destruct (H4 7)|destruct (H4 4)]; done || lia. }
  destruct H9 as (-> & -> & -> & ->). cbn [andb Z.eqb Pos.eqb negb].
  unfold buf at 1, perms_buf at 1. rewrite get_put_le32 by done.
  cbn [set_encrypt_key m_Permissions]. rewrite Z.eqb_refl. cbn [negb].
  unfold IsMetadataEncrypted. cbn [set_encrypt_key m_pEncryptDict]. fold em. by destruct em.
Qed.
End checks.

(** ** Opening *)
Section opening.
Context (holder : Z → option CPDF_Object).
Notation str_for := (GetStringFor holder).

Lemma crypto_new_prefix c key rest rest' keylen :
  keylen <= Z.of_nat (length key) → crypto_new c (key ++ rest) keylen = crypto_new c (key ++ rest') keylen.
Proof. intros H. unfold crypto_new. rewrite !(take_app_le key) by lia. done. Qed.

(** [K] is the file key, and the password gives it. *)
Definition opens (password : list Z) (bOwner : bool) (K : list Z) (h : CPDF_SecurityHandler) : Prop :=
  ∃ rest, CheckPasswordImpl holder password bOwner h = Some (true, set_encrypt_key (K ++ rest) h).

Lemma security_user h K password :
  m_bOwnerUnlocked h = false → (∀ h', frame h h' → opens password false K h') →
  ∃ h2, CheckSecurity holder password h = Some (true, h2) ∧ s_Cipher h2 = s_Cipher h ∧ s_KeyLen h2 = s_KeyLen h ∧
    (m_bOwnerUnlocked h2 = false → ∃ rest, s_EncryptKey h2 = K ++ rest).
Proof.
  intros Hu Ho. unfold CheckSecurity.
  assert (Hgo : ∀ h', frame h h' → ∃ h2, CheckPassword holder password false h' = Some (true, h2) ∧
    s_Cipher h2 = s_Cipher h ∧ s_KeyLen h2 = s_KeyLen h ∧ ∃ rest, s_EncryptKey h2 = K ++ rest).
  { intros h' Hf. destruct (Ho h' Hf) as [rest Hr]. eexists. split; [by apply check_success|].
    destruct Hf as (k & c & ->). split_and!; [done..|]. by exists rest. }
  destruct (decide (password = [])); cbn [mbind option_bind].
  - destruct (Hgo h (frame_refl h)) as (h2 & -> & H1 & H2 & H3). by exists h2.
  - destruct (check_total holder password true h) as (ok & h1 & -> & Hf). cbn [mbind option_bind]. destruct ok.
    + exists (unlock_owner h1). destruct Hf as (k & c & ->). by split_and!.
    + destruct (Hgo h1 Hf) as (h2 & -> & H1 & H2 & H3). by exists h2.
Qed.

Lemma security_owner h K password :
  password ≠ [] → opens password true K h →
  ∃ h2 rest, CheckSecurity holder password h = Some (true, h2) ∧ s_Cipher h2 = s_Cipher h ∧ s_KeyLen h2 = s_KeyLen h ∧
    m_bOwnerUnlocked h2 = true ∧ s_EncryptKey h2 = K ++ rest.
Proof.
  intros Hne [rest Hr]. unfold CheckSecurity. rewrite decide_False by done.
  rewrite (check_success _ _ _ _ _ Hr). cbn [mbind option_bind]. by eexists _, rest.
Qed.

(** What loading a dictionary that is accepted does. *)
Lemma load_ok d : (LoadDict holder true d security_new).1 = true →
  ∃ c k, (∀ keep h, LoadDict holder keep d h = (true, load_fields holder d c k h)) ∧
    0 <= k <= 32 ∧ IsValidKeyLengthForCipher c k = true.
Proof.
  assert (Hinfo : ∀ name c k, LoadCryptInfo holder d name = (true, c, k) → 0 <= k <= 32 ∧ IsValidKeyLengthForCipher c k = true).
  { intros name c k. unfold LoadCryptInfo.
    assert (Hfin : ∀ c0 k0, (if (k0 <? 0) || (32 <? k0) then (false, c0, 0)
      else if negb (IsValidKeyLengthForCipher c0 k0) then (false, c0, 0) else (true, c0, k0)) = (true, c, k) →
      0 <= k <= 32 ∧ IsValidKeyLengthForCipher c k = true).
    { intros c0 k0. destruct ((k0 <? 0) || (32 <? k0)) eqn:E; [done|].
      destruct (IsValidKeyLengthForCipher c0 k0) eqn:E2; [|done]. cbn [negb]. intros [= <- <-]. split; [lia|done]. }
    destruct (4 <=? _); [|apply Hfin]. destruct (GetDictFor _ _ _); [|done]. destruct (decide _); [apply Hfin|].
    destruct (GetDictFor _ _ _); [|done]. destruct (_ <? 0); [done|]. apply Hfin. }
  unfold LoadDict. intros Hl.
  assert (Hgo : ∀ name, (let '(ok, cipher, keylen) := LoadCryptInfo holder d name in
      if negb ok && true then (false, load_fields holder d (s_Cipher security_new) (s_KeyLen security_new) security_new)
      else (ok, load_fields holder d cipher keylen security_new)).1 = true →
    ∃ c k, LoadCryptInfo holder d name = (true, c, k)).
  { intros name. destruct (LoadCryptInfo holder d name) as [[ok c] k]. destruct ok; [by exists c, k|done]. }
  destruct (4 <=? GetIntegerFor holder d (bs "V") 0); [case_decide as Heq; [|done]|];
    (destruct (Hgo _ Hl) as (c & k & E); exists c, k; split; [intros keep h; by rewrite E|by eapply Hinfo]).
Qed.

Definition fresh (pIdArray : option (list CPDF_Object)) : CPDF_SecurityHandler :=
  SecurityHandler false 0 0 0 0 kNone kUnknown (first_id holder pIdArray) [] None (replicate 32 0).

(** What [OnCreate] establishes: [d] became [d'], with the file key [K]. *)
Definition created (d d' : dict) (c : Cipher) (k : Z) (id : option (list CPDF_Object)) (user owner K : list Z) : Prop :=
  let h1 := set_dict d' (load_fields holder d c k (fresh id)) in
  same_entries d d' ∧ k <= Z.of_nat (length K) ∧ (∀ h, frame h1 h → opens user false K h) ∧
  (5 <= m_Revision h1 ∨ user = [] ∨ (GetPassCode user).[31] ≠ 122 → opens owner true K h1).

(** Revisions up to 4. *)
Lemma create_old d c k id user owner random random2 :
  let h0 := load_fields holder d c k security_new in
  (∀ keep h, LoadDict holder keep d h = (true, load_fields holder d c k h)) →
  0 <= k <= 16 → 2 <= m_Revision h0 < 5 →
  ∃ d' K rest, OnCreate holder d id user owner random random2 security_new =
      Some (InitCryptoHandler (set_dict d' (set_encrypt_key (K ++ rest) h0))) ∧
    created d d' c k id user (if decide (owner = []) then user else owner) K.
Proof.
  cbv zeta. set (h0 := load_fields holder d c k security_new). intros Hload Hk HR.
  unfold OnCreate, OnCreateInternal. rewrite Hload. fold h0. cbn [negb andb].
  rewrite (proj2 (Z.leb_gt _ _)) by lia. set (owner' := if bool_decide (owner = []) then user else owner).
  replace (if decide (owner = []) then user else owner) with owner' by (unfold owner'; case_bool_decide; case_decide; done).
  destruct (set_owner d user owner' (s_KeyLen h0) h0) as [d1|] eqn:Eo.
  2: { exfalso. revert Eo. unfold set_owner. rewrite (proj2 (Z.ltb_ge _ _)); [done|].
       unfold owner_key, zlen. destruct (3 <=? _); [rewrite length_md5_times|]; rewrite ?(proj1 (md5_of_ok _)); cbn; lia. }
  cbn [mbind option_bind]. set (file_id := first_id holder id).
  set (K := CalcEncryptKey holder d1 user (s_KeyLen h0) false file_id).
  set (h0' := set_encrypt_key _ h0). set (d' := set_user d1 file_id K h0').
  exists d', K, (drop (length K) (s_EncryptKey h0)). split; [done|].
  assert (Hd1 : same_entries d d1 ∧ ∃ v, d1 = set_string (bs "O") v d).
  { unfold set_owner in Eo. destruct (_ <? _); [done|]. apply (inj Some) in Eo as <-. split; [|by eexists].
    apply same_entries_set; [by left|]. by intros k' _. }
  destruct Hd1 as (Hd1 & v & Ev).
  assert (Hd' : same_entries d1 d' ∧ str_for d' (bs "O") = str_for d1 (bs "O")).
  { unfold d', set_user. destruct (_ <? 3); (split; [apply same_entries_set; [by right; left|by intros k' _]|]);
      rewrite str_for_set; (rewrite bool_decide_eq_false_2; [done|by vm_compute]). }
  destruct Hd' as [Hd' HO].
  assert (HKl : length K = Z.to_nat k) by (unfold K; apply length_key).
  set (h1 := set_dict d' (load_fields holder d c k (fresh id))).
  assert (HK : CalcEncryptKey holder d' user k false file_id = K) by (by apply same_key).
  assert (Huser : ∀ h pw, frame h1 h → GetPassCode pw = GetPassCode user →
    CheckUserPassword holder pw false h = (true, set_encrypt_key (K ++ drop (length K) (s_EncryptKey h)) h)).
  { intros h pw (k' & c' & ->) Hpw.
    assert (HKpw : CalcEncryptKey holder d' pw k false file_id = K)
      by (rewrite <-HK; unfold CalcEncryptKey; by rewrite Hpw).
    rewrite (check_user holder _ h0' d1); cbn [m_pEncryptDict s_KeyLen m_FileId set_conversion set_encrypt_key set_dict h1 load_fields fresh m_Revision];
      fold file_id; rewrite ?HKpw; try done. cbn [m_Revision h0 load_fields] in HR. lia. }
  split_and!.
  - intros key Hkey. rewrite Hd' by done. by apply Hd1.
  - rewrite HKl. lia.
  - intros h Hf. exists (drop (length K) (s_EncryptKey h)). unfold CheckPasswordImpl.
    replace (5 <=? m_Revision h) with false.
    2: { destruct Hf as (? & ? & ->). cbn in *. symmetry. apply Z.leb_gt. lia. }
    unfold check_both. by rewrite Huser.
  - intros [H5|Hpass]; [cbn in *; lia|].
    exists (drop (length K) (s_EncryptKey h1)). unfold CheckPasswordImpl. fold h1.
    replace (5 <=? m_Revision h1) with false by (cbn in *; symmetry; apply Z.leb_gt; lia).
    unfold CheckOwnerPassword. rewrite (user_password holder h1 d user owner' d'); [|done|cbn; lia|cbn; lia|cbn in *; lia|].
    + unfold check_both. by rewrite (Huser h1 _ (frame_refl h1) (strip_ok user Hpass)).
    + exists h0, d1. by split_and!.
Qed.

Lemma password_entries_same R bOwner password key vector d d' :
  str_for d' (key_name bOwner) = str_for d (key_name bOwner) →
  str_for d' (ekey_name bOwner) = str_for d (ekey_name bOwner) →
  password_entries holder R bOwner password key vector d → password_entries holder R bOwner password key vector d'.
Proof. intros E1 E2 (a & b & salt & H). exists a, b, salt. by rewrite E1, E2. Qed.

Lemma str_for_same k d d' : GetObjectFor k d' = GetObjectFor k d → str_for d' k = str_for d k.
Proof. unfold GetStringFor. by intros ->. Qed.

(** Revisions 5 and 6. *)
Lemma create_new d c k id user owner random random2 :
  let h0 := load_fields holder d c k security_new in
  (∀ keep h, LoadDict holder keep d h = (true, load_fields holder d c k h)) →
  0 <= k <= 32 → 5 <= m_Revision h0 → length random2 = 4%nat → bytes random2 →
  ∃ d' K rest, OnCreate holder d id user owner random random2 security_new =
      Some (InitCryptoHandler (set_dict d' (set_encrypt_key (K ++ rest) h0))) ∧
    created d d' c k id user (if decide (owner = []) then user else owner) K.
Proof.
  cbv zeta. set (h0 := load_fields holder d c k security_new). intros Hload Hk HR Hr Hrb.
  unfold OnCreate, OnCreateInternal. rewrite Hload. fold h0. cbn [negb andb].
  rewrite (proj2 (Z.leb_le _ _)) by lia. set (owner' := if bool_decide (owner = []) then user else owner).
  replace (if decide (owner = []) then user else owner) with owner' by (unfold owner'; case_bool_decide; case_decide; done).
  set (K := CRYPT_SHA256Finish _). destruct (sha256_finish_ok (CRYPT_SHA256Update CRYPT_SHA256Start random)) as [HKl HKb].
  fold K in HKl, HKb. set (hk := set_encrypt_key K h0).
  destruct (set_password_spec holder d user false hk) as (d1 & -> & Hu & HUl & Hd1). cbn [mbind option_bind].
  destruct (set_password_spec holder d1 owner' true hk) as (d2 & -> & Ho & HOl & Hd2). cbn [mbind option_bind].
  unfold owner_vector, key_name, ekey_name in *.
  set (d' := AES256_SetPerms holder d2 random2 hk).
  assert (Hd' : ∀ key, key ≠ bs "Perms" → GetObjectFor key d' = GetObjectFor key d2).
  { intros key Hkey. unfold d', AES256_SetPerms, set_string. by rewrite GetObjectFor_SetFor, bool_decide_eq_false_2. }
  assert (Hne : ∀ a b : list Z, bool_decide (a = b) = false → a ≠ b) by (intros a b; apply bool_decide_eq_false_1).
  assert (Hsame : same_entries d d').
  { intros key Hkey. unfold created_keys in Hkey. rewrite !not_elem_of_cons in Hkey. destruct Hkey as (N1 & N2 & N3 & N4 & N5 & _).
    by rewrite Hd', Hd2, Hd1. }
  assert (HU : str_for d' (bs "U") = str_for d1 (bs "U") ∧ str_for d' (bs "UE") = str_for d1 (bs "UE")).
  { split; apply str_for_same; by rewrite Hd', Hd2 by (apply Hne; vm_compute; done). }
  assert (HO : str_for d' (bs "O") = str_for d2 (bs "O") ∧ str_for d' (bs "OE") = str_for d2 (bs "OE")).
  { split; apply str_for_same; by rewrite Hd' by (apply Hne; vm_compute; done). }
  assert (Hperms : str_for d' (bs "Perms") = wrap K (perms_buf (m_Permissions h0)
      (GetBooleanFor holder d' (bs "EncryptMetadata") true) random2)).
  { unfold d' at 1, AES256_SetPerms. rewrite str_for_set, bool_decide_eq_true_2 by done. unfold wrap, perms_buf.
    replace (GetBooleanFor holder d' (bs "EncryptMetadata") true) with (GetBooleanFor holder d2 (bs "EncryptMetadata") true);
      [done|]. unfold GetBooleanFor. by rewrite (Hd' (bs "EncryptMetadata")) by (apply Hne; vm_compute; done). }
  set (h1 := set_dict d' (load_fields holder d c k (fresh id))).
  assert (Hcheck : ∀ pw bOwner h, frame h1 h →
    password_entries holder (m_Revision h0) bOwner pw K (if bOwner then Some (take 48 (str_for d' (bs "U"))) else None) d' →
    CheckPasswordImpl holder pw bOwner h = Some (true, set_encrypt_key (K ++ []) h)).
  { intros pw bOwner h (k' & c' & ->) Hpe. unfold CheckPasswordImpl. rewrite app_nil_r.
    rewrite (proj2 (Z.leb_le 5 _)) by exact HR.
    eapply aes256_check; [exact HKl|exact HKb|apply u32_fits|exact Hr|exact Hrb|reflexivity|exact Hpe| | |exact Hperms].
    - cbn [m_pEncryptDict set_conversion set_encrypt_key h1 set_dict]. destruct HO as [-> _]. lia.
    - cbn [m_pEncryptDict set_conversion set_encrypt_key h1 set_dict]. destruct HU as [-> _]. lia. }
  exists d', K, []. split; [by rewrite app_nil_r|]. split_and!.
  - done.
  - lia.
  - intros h Hf. exists []. apply Hcheck; [done|].
    eapply (password_entries_same _ false); [apply HU|apply HU|exact Hu].
  - intros _. exists []. apply Hcheck; [apply frame_refl|]. destruct HU as [-> _]. rewrite take_ge by lia.
    eapply (password_entries_same _ true); [apply HO|apply HO|exact Ho].
Qed.

Lemma open_created d c k id user owner K rest d' :
  (∀ keep h, LoadDict holder keep d h = (true, load_fields holder d c k h)) →
  created d d' c k id user owner K → c ≠ kNone →
  (∃ h1, OnInit holder d' id user security_new = Some (true, h1) ∧
     (m_bOwnerUnlocked h1 = false → m_pCryptoHandler h1 = Some (crypto_new c (K ++ rest) k))) ∧
  (owner ≠ [] →
   5 <= GetIntegerFor holder d (bs "R") 0 ∨ user = [] ∨ (GetPassCode user).[31] ≠ 122 →
   ∃ h2, OnInit holder d' id owner security_new = Some (true, h2) ∧ m_bOwnerUnlocked h2 = true ∧
     m_pCryptoHandler h2 = Some (crypto_new c (K ++ rest) k)).
Proof.
  intros Hload (Hs & HK & Hu & Ho) Hc. unfold OnInit.
  change (SecurityHandler _ _ _ _ _ _ _ (first_id holder id) _ _ _) with (fresh id).
  rewrite (same_load holder false d d') by done. rewrite Hload. unfold with_dict. cbn [fst snd negb].
  set (h1 := set_dict d' (load_fields holder d c k (fresh id))) in *.
  rewrite !(decide_False (P := s_Cipher h1 = kNone)) by done. split.
  - destruct (security_user h1 K user eq_refl Hu) as (h2 & -> & E1 & E2 & E3). cbn [mbind option_bind].
    eexists. split; [done|]. intros Hun. destruct (E3 Hun) as [rest' E]. unfold InitCryptoHandler. cbn [m_pCryptoHandler].
    rewrite E, E1, E2. f_equal. by apply crypto_new_prefix.
  - intros Hne Hcond. destruct (security_owner h1 K owner Hne (Ho Hcond)) as (h2 & rest' & -> & E1 & E2 & E3 & E4).
    cbn [mbind option_bind]. eexists. split; [reflexivity|]. split; [exact E3|]. unfold InitCryptoHandler. cbn [m_pCryptoHandler].
    rewrite E4, E1, E2. f_equal. by apply crypto_new_prefix.
Qed.
End opening.

(** C13: a document that was protected with a user and an owner password, and an
    encryption dictionary that [LoadDict] accepts with a cipher, is opened
    by both, for every cipher and every revision from 2 on, an empty owner password
    standing for the user's.  The user password is accepted by [OnInit], which sets
    up the crypto handler that [OnCreate] did, unless that password also passes as
    the owner's; the owner password, if it is not empty, unlocks all, with the same
    handler.  Up to revision 4 the key must fit a digest (16 bytes), and the owner
    password needs a user password that is empty or whose 32nd byte, padded, is not
    [z] (what happens otherwise is [owner_password_fails]). *)
Theorem document_unlocks holder d id user owner random random2 :
  (LoadDict holder true d security_new).1 = true →
  s_Cipher (LoadDict holder true d security_new).2 ≠ kNone →
  2 <= GetIntegerFor holder d (bs "R") 0 →
  s_KeyLen (LoadDict holder true d security_new).2 <= 16 ∨ 5 <= GetIntegerFor holder d (bs "R") 0 →
  length random2 = 4%nat → bytes random2 →
  let owner' := if decide (owner = []) then user else owner in
  ∃ h, OnCreate holder d id user owner random random2 security_new = Some h ∧ is_Some (m_pCryptoHandler h) ∧
    (∃ h1, OnInit holder (m_pEncryptDict h) id user security_new = Some (true, h1) ∧
       (m_bOwnerUnlocked h1 = false → m_pCryptoHandler h1 = m_pCryptoHandler h)) ∧
    (owner' ≠ [] → 5 <= GetIntegerFor holder d (bs "R") 0 ∨ user = [] ∨ (GetPassCode user).[31] ≠ 122 →
     ∃ h2, OnInit holder (m_pEncryptDict h) id owner' security_new = Some (true, h2) ∧
       m_bOwnerUnlocked h2 = true ∧ m_pCryptoHandler h2 = m_pCryptoHandler h).
Proof.
  intros Hl Hc HR Hk Hr Hrb. cbv zeta. destruct (load_ok holder d Hl) as (c & k & Hload & Hkk & _).
  rewrite Hload in Hc, Hk. cbn [snd s_Cipher s_KeyLen load_fields] in Hc, Hk.
  assert (Hcr : ∃ d' K rest, OnCreate holder d id user owner random random2 security_new =
      Some (InitCryptoHandler (set_dict d' (set_encrypt_key (K ++ rest) (load_fields holder d c k security_new)))) ∧
    created holder d d' c k id user (if decide (owner = []) then user else owner) K).
  { destruct (Z.le_gt_cases 5 (GetIntegerFor holder d (bs "R") 0)).
    - by apply create_new.
    - apply create_old; [done|lia|]. cbn [m_Revision load_fields]. lia. }
  destruct Hcr as (d' & K & rest & -> & Hcr). eexists. split; [done|]. split; [by eexists|].
  exact (open_created holder d c k id user _ K rest d' Hload Hcr Hc).
Qed.

Definition encrypt_example : dict :=
  [(bs "EncryptMetadata", CPDF_Boolean false); (bs "Length", CPDF_Number (FxUnsigned 128));
   (bs "P", CPDF_Number (FxSigned (-4))); (bs "R", CPDF_Number (FxUnsigned 3)); (bs "V", CPDF_Number (FxUnsigned 2))].

Lemma document_unlocks_witness :
  (LoadDict (λ _, None) true encrypt_example security_new).1 = true ∧
  ∃ h, OnCreate (λ _, None) encrypt_example None (bs "user") (bs "owner") [] [1; 2; 3; 4] security_new = Some h ∧
    is_Some (m_pCryptoHandler h) ∧
    (∃ h1, OnInit (λ _, None) (m_pEncryptDict h) None (bs "user") security_new = Some (true, h1) ∧
       (m_bOwnerUnlocked h1 = false → m_pCryptoHandler h1 = m_pCryptoHandler h)) ∧
    (bs "owner" ≠ [] → 5 <= GetIntegerFor (λ _, None) encrypt_example (bs "R") 0 ∨ bs "user" = [] ∨ (GetPassCode (bs "user")).[31] ≠ 122 →
     ∃ h2, OnInit (λ _, None) (m_pEncryptDict h) None (bs "owner") security_new = Some (true, h2) ∧
       m_bOwnerUnlocked h2 = true ∧ m_pCryptoHandler h2 = m_pCryptoHandler h).
Proof.
  assert (H1 : (LoadDict (λ _, None) true encrypt_example security_new).1 = true) by (vm_compute; reflexivity).
  assert (H2 : s_Cipher (LoadDict (λ _, None) true encrypt_example security_new).2 ≠ kNone) by (vm_compute; discriminate).
  assert (H3 : 2 <= GetIntegerFor (λ _, None) encrypt_example (bs "R") 0) by (vm_compute; discriminate).
  assert (H4 : s_KeyLen (LoadDict (λ _, None) true encrypt_example security_new).2 <= 16) by (vm_compute; discriminate).
  assert (H5 : bytes [1; 2; 3; 4]) by solve_bytes.
  split; [exact H1|].
  exact (document_unlocks (λ _, None) encrypt_example None (bs "user") (bs "owner") [] [1; 2; 3; 4] H1 H2 H3
    (or_introl H4) eq_refl H5).
Defined.

(** C34: up to revision 4 the user password is found out of the owner's up to the
    bytes at its end that agree with [kDefaultPasscode] in place; so it is the
    right one unless its 32nd byte is [z], and then it is a wrong one, except for
    the padding itself. *)
Theorem owner_password_fails holder h d d0 user owner :
  2 <= m_Revision h → 0 <= s_KeyLen h <= 16 →
  set_owner d user owner (s_KeyLen h) h = Some d0 →
  let found := GetUserPassword holder owner (set_dict d0 h) in
  found = take (strip_passcode 32 (GetPassCode user)) (GetPassCode user) ∧
  ((GetPassCode user).[31] ≠ 122 → found = GetPassCode user) ∧
  (GetPassCode found = GetPassCode user ↔ (GetPassCode user).[31] ≠ 122 ∨ GetPassCode user = kDefaultPasscode).
Proof.
  intros HR Hk Hset. cbv zeta.
  assert (Hf : GetUserPassword holder owner (set_dict d0 h) = take (strip_passcode 32 (GetPassCode user)) (GetPassCode user)).
  { apply (user_password holder (set_dict d0 h) d user owner d0); cbn; [done|lia..|]. exists h, d0. by split_and!. }
  rewrite Hf. split; [done|]. split.
  - intros Hne. assert (Hs : strip_passcode 32 (GetPassCode user) = 32%nat).
    { cbn [strip_passcode]. change (Z.of_nat 31) with 31. change kDefaultPasscode.[31] with 122.
      by rewrite (proj2 (Z.eqb_neq _ _)) by congruence. }
    rewrite Hs. apply take_ge. rewrite length_passcode. lia.
  - split.
    + intros E. destruct (decide ((GetPassCode user).[31] = 122)) as [H31|]; [right|by left].
      destruct (decide (GetPassCode user = kDefaultPasscode)) as [|Hne]; [done|].
      by destruct (strip_wrong user H31 Hne).
    + intros [Hne| ->]; [apply strip_ok; by right|by vm_compute].
Qed.

Lemma owner_password_fails_witness :
  let h := load_fields (λ _, None) encrypt_example kRC4 16 security_new in
  let user := replicate 32 122 in
  ∃ d0, set_owner encrypt_example user (bs "owner") (s_KeyLen h) h = Some d0 ∧ (GetPassCode user).[31] = 122 ∧
  let found := GetUserPassword (λ _, None) (bs "owner") (set_dict d0 h) in
  found = take (strip_passcode 32 (GetPassCode user)) (GetPassCode user) ∧
  ((GetPassCode user).[31] ≠ 122 → found = GetPassCode user) ∧
  (GetPassCode found = GetPassCode user ↔ (GetPassCode user).[31] ≠ 122 ∨ GetPassCode user = kDefaultPasscode).
Proof.
  intros h user. assert (HR : 2 <= m_Revision h) by (vm_compute; discriminate).
  assert (Hk : 0 <= s_KeyLen h <= 16) by (split; vm_compute; discriminate).
  assert (Hs : ∃ d0, set_owner encrypt_example user (bs "owner") (s_KeyLen h) h = Some d0).
  { unfold set_owner. rewrite (proj2 (Z.ltb_ge _ _)); [by eexists|].
    unfold owner_key, zlen. destruct (3 <=? _); [rewrite length_md5_times|];
      rewrite ?(proj1 (md5_of_ok _)); vm_compute; done || discriminate. }
  destruct Hs as [d0 Hs]. exists d0. split; [exact Hs|]. split; [reflexivity|].
  exact (owner_password_fails (λ _, None) h encrypt_example d0 user (bs "owner") HR Hk Hs).
Defined.

(** For every cipher and key length that loading accepts, [CryptBlock] stays
    inside its arrays when it writes, but for AES with 192 bits, where the object
    key is a byte too long for [key1]; for the unused second AES cipher it is five
    too long. *)
Theorem crypt_block_bounds cipher key keylen iv objnum gennum data :
  IsValidKeyLengthForCipher cipher keylen = true → keylen <= zlen key →
  let h := crypto_new cipher key keylen in
  EncryptContent h iv objnum gennum data = None ↔ (cipher = kAES ∧ keylen = 24) ∨ cipher = kAES2.
Proof.
  intros Hv Hk. cbv zeta. unfold EncryptContent, CryptBlock.
  change (m_Cipher (crypto_new cipher key keylen)) with cipher.
  destruct (decide (cipher = kNone)) as [->|Hn].
  { split; [done|]. intros [[? _]|?]; done. }
  assert (Hl : 0 <= keylen <= 32) by (destruct cipher; cbn in Hv; try done; lia).
  set (h := crypto_new cipher key keylen).
  assert (Hkl : m_KeyLen h = keylen) by (cbn; lia). rewrite Hkl.
  assert (Hek : zlen (m_EncryptKey h) = keylen).
  { unfold h, crypto_new. cbn [m_EncryptKey]. rewrite decide_False by done. rewrite Z.min_l by lia.
    unfold zlen in *. rewrite length_take. lia. }
  assert (Hobj : object_key h 32 objnum gennum = if keylen + 5 + (if is_aes h then 4 else 0) <=? 32
    then Some (md5_of (PopulateKey h objnum gennum ++ (if is_aes h then str_sAlT else []))) else None).
  { unfold object_key. rewrite zlen_app. unfold PopulateKey at 1. rewrite zlen_app, Hek.
    change (zlen [_; _; _; _; _]) with 5. by destruct (is_aes h). }
  rewrite Hobj. unfold is_aes. change (m_Cipher h) with cipher.
  destruct cipher; [done| | |].
  - rewrite !bool_decide_eq_false_2 by done. cbn [andb]. cbn in Hv.
    rewrite (proj2 (Z.leb_le _ _)) by lia. cbn. split; [done|]. intros [[? _]|?]; done.
  - rewrite !bool_decide_eq_true_2 by done. cbn [andb].
    assert (keylen = 16 ∨ keylen = 24 ∨ keylen = 32) as [->|[->| ->]] by (cbn in Hv; lia).
    + cbn [Z.eqb Pos.eqb Z.add Z.leb Z.compare Pos.compare Pos.compare_cont Pos.add mbind option_bind].
      assert (Hm : ∀ x, zlen (md5_of x) = 16) by (intros x; unfold zlen; by rewrite (proj1 (md5_of_ok x))).
      unfold set_key. change (16 + 5 + 4 <=? 32) with true. cbn [mbind option_bind]. rewrite Hm.
      cbn [Z.ltb Z.compare Pos.compare Pos.compare_cont mbind option_bind]. split; [done|]. intros [[_ ?]|?]; done.
    + cbn. split; [by left|done].
    + cbn [Z.eqb Pos.eqb mbind option_bind]. unfold set_key. rewrite Hek, Z.ltb_irrefl. cbn [mbind option_bind].
      split; [done|]. intros [[_ ?]|?]; done.
  - rewrite !bool_decide_eq_false_2 by done. cbn [andb]. assert (keylen = 32) as -> by (cbn in Hv; lia).
    cbn. split; [by right|done].
Qed.

Lemma crypt_block_bounds_witness :
  IsValidKeyLengthForCipher kAES 24 = true ∧
  (EncryptContent (crypto_new kAES (replicate 24 1) 24) (replicate 16 0) 1 0 [65] = None ↔
   (kAES = kAES ∧ 24 = 24) ∨ kAES = kAES2).
Proof.
  split; [reflexivity|].
  exact (crypt_block_bounds kAES (replicate 24 1) 24 (replicate 16 0) 1 0 [65] eq_refl ltac:(vm_compute; discriminate)).
Defined.
