(* ===== verification/StdMap.v ===== *)
(** * Ordered maps

    [std::map] with integer keys as its sorted list: the operations the parser
    uses, and their meaning in the finite map [contents].  An iterator is the key
    it stands at, or [None] for [end()]. *)
From Stdlib Require Import Sorted.
From stdpp Require Import gmap.
From S2P Require Import Prelude.

Section std_map.
Context {A : Type}.

Definition std_map : Type := list (Z * A).

Fixpoint find (k : Z) (m : std_map) : option A :=
  match m with
  | [] => None
  | (k', v) :: m' => if k' =? k then Some v else find k m'
  end.

(** [m[k] = v] *)
Fixpoint put (k : Z) (v : A) (m : std_map) : std_map :=
  match m with
  | [] => [(k, v)]
  | (k', v') :: m' =>
      if k <? k' then (k, v) :: m else if k' <? k then (k', v') :: put k v m' else (k', v) :: m'
  end.

(** [insert]: nothing happens when the key is there. *)
Definition insert_new (k : Z) (v : A) (m : std_map) : std_map :=
  match find k m with Some _ => m | None => put k v m end.

Fixpoint erase_key (k : Z) (m : std_map) : std_map :=
  match m with
  | [] => []
  | (k', v) :: m' => if k' =? k then m' else (k', v) :: erase_key k m'
  end.

Fixpoint lower_bound (k : Z) (m : std_map) : option Z :=
  match m with
  | [] => None
  | (k', _) :: m' => if k' <? k then lower_bound k m' else Some k'
  end.

(** [begin()], [++it] and [rbegin()->first]. *)
Definition begin_ (m : std_map) : option Z := match m with [] => None | (k, _) :: _ => Some k end.
Definition next_it (k : Z) (m : std_map) : option Z := lower_bound (k + 1) m.
Fixpoint last_key (m : std_map) : option Z :=
  match m with
  | [] => None
  | [(k, _)] => Some k
  | _ :: m' => last_key m'
  end.

(** [erase(lower_bound(k), end())] *)
Fixpoint erase_from (k : Z) (m : std_map) : std_map :=
  match m with
  | [] => []
  | (k', v) :: m' => if k' <? k then (k', v) :: erase_from k m' else []
  end.

(** ** Meaning *)
Definition sorted (m : std_map) : Prop := StronglySorted Z.lt (map fst m).
Definition contents (m : std_map) : gmap Z A := list_to_map m.

Lemma sorted_nil : sorted [].
Proof. constructor. Qed.

Lemma sorted_inv k v m : sorted ((k, v) :: m) ↔ sorted m ∧ Forall (λ kv, k < kv.1) m.
Proof.
  unfold sorted. change (map fst ((k, v) :: m)) with (k :: map fst m). split.
  - intros H. apply StronglySorted_inv in H as [H1 H2]. by rewrite List.Forall_map in H2.
  - intros [H1 H2]. constructor; [done|]. by rewrite List.Forall_map.
Qed.

Lemma find_contents k m : find k m = contents m !! k.
Proof.
  induction m as [|[k' v] m IH]; [done|]. cbn [find]. unfold contents. rewrite list_to_map_cons.
  destruct (Z.eqb_spec k' k) as [->|Hne]; [by rewrite lookup_insert_eq|]. by rewrite lookup_insert_ne.
Qed.

Lemma find_below k m : Forall (λ kv, k < kv.1) m → find k m = None.
Proof.
  induction 1 as [|[k' v] m Hk _ IH]; [done|]. cbn in *. by replace (k' =? k) with false by lia.
Qed.

Lemma find_put k k' v m : find k (put k' v m) = if k' =? k then Some v else find k m.
Proof.
  induction m as [|[k2 v2] m IH]; [done|]. cbn [put].
  destruct (Z.ltb_spec k' k2); [done|]. destruct (Z.ltb_spec k2 k'); cbn [find].
  - rewrite IH. by destruct (Z.eqb_spec k2 k), (Z.eqb_spec k' k); try lia.
  - assert (k2 = k') as -> by lia. by destruct (k' =? k).
Qed.

Lemma contents_put k v m : contents (put k v m) = <[k := v]> (contents m).
Proof.
  apply map_eq. intros i. rewrite <-find_contents, find_put, find_contents.
  destruct (Z.eqb_spec k i) as [->|]; [by rewrite lookup_insert_eq|by rewrite lookup_insert_ne].
Qed.

Lemma put_forall (P : Z → Prop) k v m : P k → Forall (λ kv, P kv.1) m → Forall (λ kv, P kv.1) (put k v m).
Proof.
  intros Hk. induction 1 as [|[k' v'] m Hk' Hm IH]; cbn [put]; [by constructor|].
  destruct (k <? k'); [by repeat constructor|]. by destruct (k' <? k); constructor.
Qed.

Lemma sorted_put k v m : sorted m → sorted (put k v m).
Proof.
  induction m as [|[k' v'] m IH]; intros Hs; cbn [put]; [repeat constructor|].
  destruct (proj1 (sorted_inv _ _ _) Hs) as [Hm Hab]. destruct (Z.ltb_spec k k').
  - apply sorted_inv. split; [done|]. constructor; [done|]. eapply Forall_impl; [exact Hab|].
    intros [k2 v2]. cbn. lia.
  - destruct (Z.ltb_spec k' k).
    + apply sorted_inv. split; [by apply IH|]. by apply (put_forall (λ x, k' < x)).
    + by apply sorted_inv.
Qed.

Lemma find_insert_new k k' v m :
  find k (insert_new k' v m) = if k' =? k then Some (default v (find k m)) else find k m.
Proof.
  unfold insert_new. destruct (find k' m) as [x|] eqn:E.
  - destruct (Z.eqb_spec k' k) as [->|]; [|done]. by rewrite E.
  - rewrite find_put. destruct (Z.eqb_spec k' k) as [->|]; [|done]. by rewrite E.
Qed.

Lemma sorted_insert_new k v m : sorted m → sorted (insert_new k v m).
Proof. unfold insert_new. intros. case_match; [done|]. by apply sorted_put. Qed.

Lemma find_erase_key k k' m : sorted m → find k (erase_key k' m) = if k' =? k then None else find k m.
Proof.
  induction m as [|[k2 v2] m IH]; intros Hs; cbn [erase_key find]; [by case_match|].
  destruct (proj1 (sorted_inv _ _ _) Hs) as [Hm Hab]. destruct (Z.eqb_spec k2 k') as [->|].
  - destruct (Z.eqb_spec k' k) as [->|]; [by apply find_below|done].
  - cbn [find]. rewrite IH by done. by destruct (Z.eqb_spec k2 k), (Z.eqb_spec k' k); try lia.
Qed.

Lemma sorted_erase_key k m : sorted m → sorted (erase_key k m).
Proof.
  induction m as [|[k' v'] m IH]; intros Hs; cbn [erase_key]; [done|].
  destruct (proj1 (sorted_inv _ _ _) Hs) as [Hm Hab]. destruct (k' =? k); [done|].
  apply sorted_inv. split; [by apply IH|]. clear -Hab. induction Hab as [|[k2 v2] m H Hm IHm]; cbn; [done|].
  destruct (k2 =? k); [exact Hm|]. by constructor.
Qed.

Lemma find_erase_from k k' m : sorted m → find k (erase_from k' m) = if k <? k' then find k m else None.
Proof.
  induction m as [|[k2 v2] m IH]; intros Hs; cbn [erase_from find]; [by case_match|].
  destruct (proj1 (sorted_inv _ _ _) Hs) as [Hm Hab]. destruct (Z.ltb_spec k2 k'); cbn [find].
  - rewrite IH by done. by destruct (Z.eqb_spec k2 k), (Z.ltb_spec k k'); try lia.
  - destruct (Z.ltb_spec k k'); [|done]. destruct (Z.eqb_spec k2 k); [lia|]. symmetry. apply find_below.
    eapply Forall_impl; [exact Hab|]. intros [k3 v3]. cbn. lia.
Qed.

Lemma sorted_erase_from k m : sorted m → sorted (erase_from k m).
Proof.
  induction m as [|[k' v'] m IH]; intros Hs; cbn [erase_from]; [done|].
  destruct (proj1 (sorted_inv _ _ _) Hs) as [Hm Hab]. destruct (k' <? k); [|apply sorted_nil].
  apply sorted_inv. split; [by apply IH|]. clear -Hab. induction Hab as [|[k2 v2] m H Hm IHm]; cbn; [done|].
  destruct (k2 <? k); [|constructor]. by constructor.
Qed.

(** [lower_bound] is the least key that is not below. *)
Lemma lower_bound_spec k m :
  sorted m → match lower_bound k m with
             | Some k' => k <= k' ∧ is_Some (find k' m) ∧ ∀ i, k <= i → is_Some (find i m) → k' <= i
             | None => ∀ i, k <= i → find i m = None
             end.
Proof.
  induction m as [|[k2 v2] m IH]; intros Hs; cbn [lower_bound]; [done|].
  destruct (proj1 (sorted_inv _ _ _) Hs) as [Hm Hab]. destruct (Z.ltb_spec k2 k) as [Hlt|Hge].
  - specialize (IH Hm). cbn [find]. destruct (lower_bound k m) as [k'|].
    + destruct IH as (H1 & H2 & H3). replace (k2 =? k') with false by lia. split_and!; [done..|].
      intros i Hi. replace (k2 =? i) with false by lia. by apply H3.
    + intros i Hi. replace (k2 =? i) with false by lia. by apply IH.
  - cbn [find]. rewrite Z.eqb_refl. split_and!; [done|done|]. intros i Hi [x Hx].
    destruct (Z.eqb_spec k2 i); [lia|]. destruct (Z.le_gt_cases k2 i); [done|].
    rewrite find_below in Hx; [done|]. eapply Forall_impl; [exact Hab|]. intros [k3 v3]. cbn. lia.
Qed.

Lemma last_key_spec m :
  sorted m → match last_key m with
             | Some k => is_Some (find k m) ∧ ∀ i, is_Some (find i m) → i <= k
             | None => m = []
             end.
Proof.
  induction m as [|[k v] m IH]; intros Hs; [done|].
  destruct (proj1 (sorted_inv _ _ _) Hs) as [Hm Hab]. specialize (IH Hm). destruct m as [|kv m].
  - cbn. rewrite Z.eqb_refl. split; [done|]. intros i [x Hx]. destruct (Z.eqb_spec k i); [lia|done].
  - change (last_key ((k, v) :: kv :: m)) with (last_key (kv :: m)).
    destruct (last_key (kv :: m)) as [l|]; [|done]. destruct IH as [[x Hx] H2].
    assert (Hl : k < l).
    { destruct (Z.lt_ge_cases k l) as [|Hge]; [done|]. rewrite find_below in Hx; [done|].
      eapply Forall_impl; [exact Hab|]. intros [k3 v3]. cbn. lia. }
    cbn [find] in *. replace (k =? l) with false by lia. split; [by exists x|].
    intros i Hi. destruct (Z.eqb_spec k i); [lia|]. by apply H2.
Qed.

Lemma sorted_eq m1 m2 : sorted m1 → sorted m2 → (∀ k, find k m1 = find k m2) → m1 = m2.
Proof.
  revert m2. induction m1 as [|[k1 v1] m1 IH]; intros [|[k2 v2] m2] H1 H2 E; [done|..].
  - specialize (E k2). cbn in E. by rewrite Z.eqb_refl in E.
  - specialize (E k1). cbn in E. by rewrite Z.eqb_refl in E.
  - destruct (proj1 (sorted_inv _ _ _) H1) as [Hs1 Ha1], (proj1 (sorted_inv _ _ _) H2) as [Hs2 Ha2].
    assert (Hbelow : ∀ k k' v (m : std_map), Forall (λ kv, k' < kv.1) m → k < k' → find k ((k', v) :: m) = None).
    { intros k k' v m Hm Hk. apply find_below. constructor; [done|]. eapply Forall_impl; [exact Hm|].
      intros [k3 v3]. cbn. lia. }
    assert (k1 = k2) as <-.
    { destruct (Z.lt_trichotomy k1 k2) as [H|[H|H]]; [|done|].
      - specialize (E k1). rewrite (Hbelow k1 k2) in E by done. cbn in E. by rewrite Z.eqb_refl in E.
      - specialize (E k2). rewrite (Hbelow k2 k1) in E by done. cbn in E. by rewrite Z.eqb_refl in E. }
    pose proof (E k1) as Ev. cbn in Ev. rewrite Z.eqb_refl in Ev. injection Ev as ->.
    f_equal. apply IH; [done..|]. intros k. pose proof (E k) as Ek. cbn in Ek. destruct (Z.eqb_spec k1 k); [|done].
    subst k. by rewrite !find_below.
Qed.
End std_map.
Arguments std_map A : clear implicits.
