(* ===== verification/CrossRef.v ===== *)
(** * The cross-reference table

    [CPDF_CrossRefTable] ([core/fpdfapi/parser/cpdf_cross_ref_table.cpp]): where
    each object of the file is, and the trailer. *)
From stdpp Require Import gmap.
From S2P Require Import Prelude Objects Dict StdMap.

(** [kNotCompressed] is [kNormal], [kNull] is [kObjStream]. *)
Inductive ObjectType := kFree | kNormal | kCompressed | kObjStream.

#[export] Instance ObjectType_eq_dec : EqDecision ObjectType.
Proof. solve_decision. Defined.

(** [pos] and [archive_obj_num] are a union: [archive_obj_num] is the low half of
    the eight bytes, on a little-endian machine. *)
Record ObjectInfo := Info {
  pos : Z;
  type : ObjectType;
  gennum : Z;
}.
Definition archive_obj_num (info : ObjectInfo) : Z := pos info mod 2 ^ 32.
Definition with_archive (archive : Z) (info : ObjectInfo) : Z := pos info - pos info mod 2 ^ 32 + archive.
Definition with_type (t : ObjectType) (info : ObjectInfo) : ObjectInfo := Info (pos info) t (gennum info).
Definition ObjectInfo_new : ObjectInfo := Info 0 kFree 0.

Definition kMaxObjectNumber : Z := 4 * 1024 * 1024.

Record CPDF_CrossRefTable := CrossRefTable {
  trailer_ : option dict;
  objects_info_ : std_map ObjectInfo;
}.
Definition table_new : CPDF_CrossRefTable := CrossRefTable None [].
Definition table_of_trailer (trailer : option dict) : CPDF_CrossRefTable := CrossRefTable trailer [].
Definition with_objects (m : std_map ObjectInfo) (t : CPDF_CrossRefTable) : CPDF_CrossRefTable :=
  CrossRefTable (trailer_ t) m.

(** [objects_info_[obj_num]]: the entry is made when it is not there. *)
Definition entry (obj_num : Z) (m : std_map ObjectInfo) : ObjectInfo := default ObjectInfo_new (find obj_num m).

Definition add_compressed (obj_num archive : Z) (m : std_map ObjectInfo) : std_map ObjectInfo :=
  if (kMaxObjectNumber <=? obj_num) || (kMaxObjectNumber <=? archive) then m
  else
    let info := entry obj_num m in
    let m := put obj_num info m in
    if 0 <? gennum info then m
    else if decide (type info = kObjStream) then m
    else
      let m := put obj_num (Info (with_archive archive info) kCompressed 0) m in
      put archive (with_type kObjStream (entry archive m)) m.

Definition add_normal (obj_num gen_num pos : Z) (m : std_map ObjectInfo) : std_map ObjectInfo :=
  if kMaxObjectNumber <=? obj_num then m
  else
    let info := entry obj_num m in
    let m := put obj_num info m in
    if gen_num <? gennum info then m
    else if bool_decide (type info = kCompressed) && (gen_num =? 0) then m
    else put obj_num (Info pos (if decide (type info = kObjStream) then kObjStream else kNormal) gen_num) m.

Definition set_free (obj_num : Z) (m : std_map ObjectInfo) : std_map ObjectInfo :=
  if kMaxObjectNumber <=? obj_num then m else put obj_num (Info 0 kFree 0xFFFF) m.

Definition shrink (objnum : Z) (m : std_map ObjectInfo) : std_map ObjectInfo :=
  if objnum =? 0 then []
  else
    let m := erase_from objnum m in
    match find (objnum - 1) m with
    | Some _ => m
    | None => put (objnum - 1) ObjectInfo_new m
    end.

Definition AddCompressed obj_num archive t := with_objects (add_compressed obj_num archive (objects_info_ t)) t.
Definition AddNormal obj_num gen_num pos t := with_objects (add_normal obj_num gen_num pos (objects_info_ t)) t.
Definition SetFree obj_num t := with_objects (set_free obj_num (objects_info_ t)) t.
Definition ShrinkObjectMap objnum t := with_objects (shrink objnum (objects_info_ t)) t.
Definition SetTrailer trailer (t : CPDF_CrossRefTable) := CrossRefTable trailer (objects_info_ t).
Definition GetObjectInfo (t : CPDF_CrossRefTable) (obj_num : Z) : option ObjectInfo := find obj_num (objects_info_ t).

(** ** Merging

    An entry of the new table that both have: an object stream stays one. *)
Definition over (cur new : ObjectInfo) : ObjectInfo :=
  if decide (type cur = kObjStream ∧ type new = kNormal) then with_type kObjStream new else new.

(** The loop over both maps, by recursion on [cur_it]: where [cur_it] is behind
    [new_it], [new_it] moves to the first key that is not below it, and the
    next round takes one of the other branches or ends the loop. *)
Fixpoint update_loop (cur : std_map ObjectInfo) (new_it : option Z) (new : std_map ObjectInfo) :
    std_map ObjectInfo :=
  match cur with
  | [] => new
  | (k, info) :: cur' =>
      let new_it :=
        match new_it with
        | Some nk => if nk <? k then lower_bound k new else Some nk
        | None => None
        end in
      match new_it with
      | Some nk =>
          if k =? nk then
            let new := match find nk new with Some i => put nk (over info i) new | None => new end in
            update_loop cur' (next_it nk new) new
          else update_loop cur' (Some nk) (insert_new k info new)
      | None => fold_left (λ new '(k, info), insert_new k info new) cur new
      end
  end.

Definition UpdateInfo (cur new : std_map ObjectInfo) : std_map ObjectInfo := update_loop cur (begin_ new) new.

Definition str_XRefStm : list Z := [88; 82; 101; 102; 83; 116; 109].
Definition str_Prev : list Z := [80; 114; 101; 118].

(** [to->SetFor(key, from->RemoveFor(key))] *)
Definition move_entry (key : list Z) (from to : dict) : dict * dict :=
  let '(o, from) := RemoveFor key from in (from, SetOrEraseFor key o to).

Definition UpdateTrailer (cur new : option dict) : option dict :=
  match new, cur with
  | None, _ => cur
  | Some new, None => Some new
  | Some new, Some cur =>
      let '(cur, new) := move_entry str_XRefStm cur new in
      let '(cur, new) := move_entry str_Prev cur new in
      Some (fold_left (λ '(new, cur) key, move_entry key new cur) (GetKeys new) (new, cur)).2
  end.

Definition Update (new cur : CPDF_CrossRefTable) : CPDF_CrossRefTable :=
  CrossRefTable (UpdateTrailer (trailer_ cur) (trailer_ new))
                (UpdateInfo (objects_info_ cur) (objects_info_ new)).

(** [MergeUp], for tables or [nullptr]. *)
Definition MergeUp (current top : option CPDF_CrossRefTable) : option CPDF_CrossRefTable :=
  match current, top with
  | None, _ => top
  | _, None => current
  | Some current, Some top => Some (Update top current)
  end.

(** ** The merge of the entries *)
Definition merged_over (cur new : option ObjectInfo) : option ObjectInfo :=
  match cur, new with
  | Some c, Some n => Some (over c n)
  | Some c, None => Some c
  | None, n => n
  end.

(** [new_it] stands at an entry and has not passed a key that is still to come. *)
Definition it_ok (k : Z) (new_it : option Z) (new : std_map ObjectInfo) : Prop :=
  (∀ nk, new_it = Some nk → is_Some (find nk new)) ∧
  ∀ i, k <= i → is_Some (find i new) → match new_it with Some nk => nk <= i | None => False end.

Lemma fold_insert cur : ∀ new, sorted cur → sorted new → (∀ i, is_Some (find i cur) → find i new = None) →
  sorted (fold_left (λ new '(k, info), insert_new k info new) cur new) ∧
  ∀ i, find i (fold_left (λ new '(k, info), insert_new k info new) cur new) = merged_over (find i cur) (find i new).
Proof.
  induction cur as [|[k info] cur IH]; intros new Hc Hn Hd; [done|].
  destruct (proj1 (sorted_inv _ _ _) Hc) as [Hcs Hab]. cbn [fold_left].
  destruct (IH (insert_new k info new) Hcs (sorted_insert_new _ _ _ Hn)) as [H1 H2].
  - intros i Hi. rewrite find_insert_new. destruct (Z.eqb_spec k i) as [->|].
    + rewrite find_below in Hi by done. by destruct Hi.
    + apply Hd. cbn [find]. by replace (k =? i) with false by lia.
  - split; [done|]. intros i. rewrite H2, find_insert_new. cbn [find].
    destruct (Z.eqb_spec k i) as [->|]; [|done]. rewrite find_below by done. cbn [merged_over].
    rewrite (Hd i); [done|]. cbn. by rewrite Z.eqb_refl.
Qed.

Lemma update_loop_spec cur : ∀ new_it new,
  sorted cur → sorted new →
  match cur with (k, _) :: _ => it_ok k new_it new | [] => True end →
  sorted (update_loop cur new_it new) ∧
  ∀ i, find i (update_loop cur new_it new) = merged_over (find i cur) (find i new).
Proof.
  induction cur as [|[k info] cur IH]; intros new_it new Hc Hn Hit; [done|].
  destruct (proj1 (sorted_inv _ _ _) Hc) as [Hcs Hab].
  set (it := match new_it with Some nk => if nk <? k then lower_bound k new else Some nk | None => None end).
  assert (Hit' : it_ok k it new ∧ match it with Some nk => k <= nk | None => True end).
  { unfold it. destruct new_it as [nk|]; [|done]. destruct (Z.ltb_spec nk k); [|done].
    pose proof (lower_bound_spec k new Hn) as Hl. destruct (lower_bound k new) as [k'|].
    - destruct Hl as (H1 & H2 & H3). split; [|done]. split; [|done]. by intros ? [= <-].
    - split; [|done]. split; [done|]. intros i Hi [x Hx]. by rewrite Hl in Hx. }
  destruct Hit' as [[Hin Hit'] Hle]. clear Hit.
  assert (Hnext : ∀ k' info' cur', cur = (k', info') :: cur' → k < k').
  { intros k' info' cur' ->. by inversion Hab. }
  cbn [update_loop]. fold it. destruct it as [nk|].
  - destruct (Z.eqb_spec k nk) as [<-|Hne].
    + set (new' := match find k new with Some i => put k (over info i) new | None => new end).
      assert (Hs : sorted new') by (unfold new'; destruct (find k new); [by apply sorted_put|done]).
      assert (Hf : ∀ i, find i new' = if k =? i then over info <$> find i new else find i new).
      { intros i. unfold new'. destruct (find k new) eqn:E; [rewrite find_put|];
          (destruct (Z.eqb_spec k i) as [->|]; [by rewrite E|done]). }
      destruct (IH (next_it k new') new' Hcs Hs) as [H1 H2].
      * destruct cur as [|[k' info'] cur']; [done|]. specialize (Hnext _ _ _ eq_refl).
        unfold next_it. pose proof (lower_bound_spec (k + 1) new' Hs) as Hl. split.
        -- intros nk Enk. rewrite Enk in Hl. apply Hl.
        -- intros i Hi Hx. destruct (lower_bound (k + 1) new') as [j|]; [apply Hl; [lia|done]|].
           rewrite Hl in Hx by lia. by destruct Hx.
      * split; [done|]. intros i. rewrite H2, Hf. cbn [find].
        destruct (Z.eqb_spec k i) as [<-|]; [|done]. rewrite find_below by done. cbn [merged_over].
        by destruct (Hin k eq_refl) as [x ->].
    + destruct (IH (Some nk) (insert_new k info new) Hcs (sorted_insert_new _ _ _ Hn)) as [H1 H2].
      * destruct cur as [|[k' info'] cur']; [done|]. specialize (Hnext _ _ _ eq_refl).
        split.
        -- intros nk' [= <-]. rewrite find_insert_new. replace (k =? nk) with false by lia. by apply Hin.
        -- intros i Hi Hx. rewrite find_insert_new in Hx. replace (k =? i) with false in Hx by lia.
           apply (Hit' i); [lia|done].
      * split; [done|]. intros i. rewrite H2, find_insert_new. cbn [find].
        destruct (Z.eqb_spec k i) as [<-|]; [|done]. rewrite find_below by done. cbn [merged_over].
        destruct (find k new) as [x|] eqn:E; [|done].
        specialize (Hit' k ltac:(lia) (ex_intro _ x E)). cbn in Hit'. lia.
  - apply (fold_insert ((k, info) :: cur)); [done|done|]. intros i Hi.
    destruct (find i new) eqn:E; [|done]. exfalso. apply (Hit' i); [|by rewrite E].
    destruct (Z.le_gt_cases k i); [done|]. rewrite find_below in Hi; [by destruct Hi|].
    constructor; [done|]. eapply Forall_impl; [exact Hab|]. intros [k3 v3]. cbn. lia.
Qed.

Lemma UpdateInfo_spec cur new :
  sorted cur → sorted new →
  sorted (UpdateInfo cur new) ∧ ∀ i, find i (UpdateInfo cur new) = merged_over (find i cur) (find i new).
Proof.
  intros H1 H2. apply update_loop_spec; [done..|]. destruct cur as [|[k i] cur]; [done|].
  destruct new as [|[k2 i2] new]; [split; [done|by intros ? ? [? ?]]|].
  split; [intros ? [= <-]; cbn; by rewrite Z.eqb_refl|]. intros i' _ [x Hx]. cbn in *.
  destruct (Z.eqb_spec k2 i'); [lia|]. apply sorted_inv in H2 as [_ Hab].
  destruct (Z.le_gt_cases k2 i'); [done|]. rewrite find_below in Hx; [done|].
  eapply Forall_impl; [exact Hab|]. intros [k3 v3]. cbn. lia.
Qed.

(** ** The merge of the trailers *)
Lemma move_entry_spec key from to :
  sorted_dict from → sorted_dict to →
  let '(from', to') := move_entry key from to in
  sorted_dict from' ∧ sorted_dict to' ∧
  (∀ k, to_map from' !! k = if bool_decide (k = key) then None else to_map from !! k) ∧
  ∀ k, to_map to' !! k = if bool_decide (k = key) then to_map from !! k else to_map to !! k.
Proof.
  intros Hf Ht. unfold move_entry, RemoveFor. rewrite GetObjectFor_map.
  assert (Hdel : ∀ m k, sorted_dict m →
    to_map (erase key m) !! k = if bool_decide (k = key) then None else to_map m !! k).
  { intros m k Hm. rewrite erase_map by done. case_bool_decide as E; [subst; apply lookup_delete_eq|].
    by apply lookup_delete_ne. }
  destruct (to_map from !! key) as [o|] eqn:E; cbn [SetOrEraseFor].
  - split_and!; [by apply erase_sorted|by apply SetFor_sorted|by intros; apply Hdel|].
    intros k. rewrite SetFor_map. case_bool_decide as Ek; [subst k; by rewrite lookup_insert_eq|].
    by apply lookup_insert_ne.
  - split_and!; [done|by apply erase_sorted| |].
    + intros k. case_bool_decide; [by subst|done].
    + intros k. rewrite Hdel by done. case_bool_decide; [by subst|done].
Qed.

Lemma move_all keys : ∀ new cur, NoDup keys → sorted_dict new → sorted_dict cur →
  let cur' := (fold_left (λ '(new, cur) key, move_entry key new cur) keys (new, cur)).2 in
  sorted_dict cur' ∧
  ∀ k, to_map cur' !! k = if bool_decide (k ∈ keys) then to_map new !! k else to_map cur !! k.
Proof.
  induction keys as [|key keys IH]; intros new cur Hnd Hn Hc; [done|].
  apply NoDup_cons in Hnd as [Hnotin Hnd]. cbn [fold_left].
  pose proof (move_entry_spec key new cur Hn Hc) as Hm. destruct (move_entry key new cur) as [new' cur'].
  destruct Hm as (H1 & H2 & H3 & H4). destruct (IH new' cur' Hnd H1 H2) as [H5 H6]. split; [done|].
  intros k. rewrite H6, H3, H4.
  destruct (bool_decide_reflect (k ∈ keys)), (bool_decide_reflect (k = key)), (bool_decide_reflect (k ∈ key :: keys));
    rewrite elem_of_cons in *; subst; tauto.
Qed.

Lemma GetKeys_nodup m : sorted_dict m → NoDup (GetKeys m).
Proof.
  induction m as [|[k o] m IH]; intros Hs; [constructor|].
  destruct (proj1 (sorted_cons _ _ _) Hs) as [Hm Hab]. cbn. constructor; [|by apply IH].
  intros Hin. apply list_elem_of_fmap in Hin as ([k' o'] & -> & Hin).
  rewrite Forall_forall in Hab. specialize (Hab _ Hin). cbn in Hab. by rewrite bytes_lt_irrefl in Hab.
Qed.

Lemma GetKeys_elem m k : k ∈ GetKeys m ↔ is_Some (to_map m !! k).
Proof.
  rewrite <-GetObjectFor_map. unfold GetKeys. induction m as [|[k' o] m IH]; cbn.
  { split; [by intros ?%elem_of_nil|by intros [? ?]]. }
  rewrite elem_of_cons, IH. case_bool_decide as E; [|split; [by intros [->|?]|by right]].
  subst. split; [done|]. by left.
Qed.

Lemma UpdateTrailer_spec cur new :
  sorted_dict cur → sorted_dict new → ∃ m, UpdateTrailer (Some cur) (Some new) = Some m ∧ sorted_dict m ∧
  ∀ k, GetObjectFor k m =
       if bool_decide (k = str_XRefStm ∨ k = str_Prev) then GetObjectFor k cur
       else match GetObjectFor k new with Some o => Some o | None => GetObjectFor k cur end.
Proof.
  intros Hc Hn. unfold UpdateTrailer.
  pose proof (move_entry_spec str_XRefStm cur new Hc Hn) as H1. destruct (move_entry str_XRefStm cur new) as [c1 n1].
  destruct H1 as (Hc1 & Hn1 & Ec1 & En1).
  pose proof (move_entry_spec str_Prev c1 n1 Hc1 Hn1) as H2. destruct (move_entry str_Prev c1 n1) as [c2 n2].
  destruct H2 as (Hc2 & Hn2 & Ec2 & En2).
  destruct (move_all (GetKeys n2) n2 c2 (GetKeys_nodup _ Hn2) Hn2 Hc2) as [H3 H4].
  eexists. split; [done|]. split; [done|]. intros k. rewrite !GetObjectFor_map, H4, Ec2, Ec1.
  destruct (bool_decide_reflect (k ∈ GetKeys n2)) as [Hin|Hin]; rewrite GetKeys_elem in Hin; rewrite En2, En1, Ec1 in *.
  all: destruct (bool_decide_reflect (k = str_Prev)) as [E1|], (bool_decide_reflect (k = str_XRefStm)) as [E2|];
    (rewrite bool_decide_true by tauto) || (rewrite bool_decide_false by tauto); rewrite ?E1, ?E2 in *; cbn in *.
  all: try (destruct (to_map new !! k)); try (destruct (to_map cur !! _)); try done.
  all: try (by destruct Hin); try (by destruct Hin; eexists).
Qed.

Definition table_ok (t : CPDF_CrossRefTable) : Prop :=
  sorted (objects_info_ t) ∧ match trailer_ t with Some d => sorted_dict d | None => True end.

(** The entry of the union, case by case. *)
Definition merged (cur new : option ObjectInfo) : option ObjectInfo :=
  match cur, new with
  | Some (Info _ kObjStream _), Some (Info p kNormal g) => Some (Info p kObjStream g)
  | _, Some n => Some n
  | c, None => c
  end.

Lemma merged_eq cur new : merged_over cur new = merged cur new.
Proof. destruct cur as [[? [] ?]|], new as [[? [] ?]|]; try done; cbn [merged_over merged]; unfold over; by repeat case_decide. Qed.

(** C18: merging a newer table over an older one is an overriding union: an object of
    either table is in the result, the newer entry counts, except that what the
    older table knows to be an object stream stays one when the newer table only
    gives its position; the trailers merge in the same way, except that [XRefStm]
    and [Prev] stay those of the older trailer. *)
Theorem cross_ref_merge current top :
  table_ok current → table_ok top →
  ∃ m, MergeUp (Some current) (Some top) = Some m ∧ table_ok m ∧
    (∀ k, GetObjectInfo m k = merged (GetObjectInfo current k) (GetObjectInfo top k)) ∧
    match trailer_ current, trailer_ top with
    | Some cur, Some new => ∃ d, trailer_ m = Some d ∧ ∀ k,
        GetObjectFor k d =
        if bool_decide (k = str_XRefStm ∨ k = str_Prev) then GetObjectFor k cur
        else match GetObjectFor k new with Some o => Some o | None => GetObjectFor k cur end
    | Some cur, None => trailer_ m = Some cur
    | None, new => trailer_ m = new
    end.
Proof.
  intros [Hs1 Hd1] [Hs2 Hd2]. exists (Update top current). split; [done|]. unfold Update, table_ok. cbn [objects_info_ trailer_].
  destruct (UpdateInfo_spec _ _ Hs1 Hs2) as [H1 H2].
  split_and!; [exact H1| |intros k; rewrite <-merged_eq; apply H2|].
  - destruct (trailer_ top) as [new|], (trailer_ current) as [cur|]; try done.
    destruct (UpdateTrailer_spec cur new Hd1 Hd2) as (m & -> & Hm & _). done.
  - destruct (trailer_ top) as [new|], (trailer_ current) as [cur|]; try done.
    destruct (UpdateTrailer_spec cur new Hd1 Hd2) as (m & E & _ & Hk). by exists m.
Qed.

Definition merge_example_old : CPDF_CrossRefTable :=
  CrossRefTable (Some [(str_Prev, CPDF_Null)]) [(3, Info 100 kObjStream 0); (5, Info 3 kCompressed 0)].
Definition merge_example_new : CPDF_CrossRefTable :=
  CrossRefTable (Some [(str_XRefStm, CPDF_Null)]) [(1, Info 9 kNormal 0); (3, Info 200 kNormal 0)].

Lemma cross_ref_merge_witness :
  MergeUp (Some merge_example_old) (Some merge_example_new) =
    Some (CrossRefTable (Some [(str_Prev, CPDF_Null)])
           [(1, Info 9 kNormal 0); (3, Info 200 kObjStream 0); (5, Info 3 kCompressed 0)]) ∧
  ∃ m, MergeUp (Some merge_example_old) (Some merge_example_new) = Some m ∧ table_ok m ∧
    (∀ k, GetObjectInfo m k = merged (GetObjectInfo merge_example_old k) (GetObjectInfo merge_example_new k)) ∧
    ∃ d, trailer_ m = Some d ∧ ∀ k,
        GetObjectFor k d =
        if bool_decide (k = str_XRefStm ∨ k = str_Prev) then GetObjectFor k [(str_Prev, CPDF_Null)]
        else match GetObjectFor k [(str_XRefStm, CPDF_Null)] with
             | Some o => Some o | None => GetObjectFor k [(str_Prev, CPDF_Null)] end.
Proof.
  split; [vm_compute; reflexivity|].
  apply (cross_ref_merge merge_example_old merge_example_new); repeat constructor.
Defined.

(** ** Archives

    The tables built by the operations, where no archive in use is freed or cut off
    and no newer table turns one into something else than an object at a
    position or a stream. *)
Definition compressed_in (m : std_map ObjectInfo) (archive : Z) : Prop :=
  ∃ k info, find k m = Some info ∧ type info = kCompressed ∧ archive_obj_num info = archive.

Inductive built : std_map ObjectInfo → Prop :=
  | built_new : built []
  | built_compressed m obj_num archive :
      built m → 0 <= archive → built (add_compressed obj_num archive m)
  | built_normal m obj_num gen_num pos : built m → built (add_normal obj_num gen_num pos m)
  | built_free m obj_num : built m → ¬ compressed_in m obj_num → built (set_free obj_num m)
  | built_shrink m objnum :
      built m → (∀ k info, k < objnum → find k m = Some info → type info = kCompressed → archive_obj_num info < objnum) →
      built (shrink objnum m)
  | built_merge cur new :
      built cur → built new →
      (∀ k info, compressed_in cur k → find k new = Some info → type info = kNormal ∨ type info = kObjStream) →
      built (UpdateInfo cur new).

Definition archives_ok (m : std_map ObjectInfo) : Prop :=
  ∀ k info, find k m = Some info → type info = kCompressed →
    gennum info = 0 ∧ ∃ s, find (archive_obj_num info) m = Some s ∧ type s = kObjStream.

Lemma archive_of_with archive info t g :
  0 <= archive < kMaxObjectNumber → archive_obj_num (Info (with_archive archive info) t g) = archive.
Proof.
  intros Ha. unfold archive_obj_num, with_archive. cbn [pos]. unfold kMaxObjectNumber in Ha.
  rewrite Z.add_mod, Zminus_mod_idemp_r, Z.sub_diag by lia. rewrite Z.mod_0_l by lia.
  rewrite Z.add_0_l, Z.mod_mod by lia. apply Z.mod_small. lia.
Qed.

(** A changed entry that is not compressed and does not take an object stream away. *)
Lemma archives_put k info m :
  archives_ok m → type info ≠ kCompressed →
  (∀ i, find k m = Some i → type i = kObjStream → type info = kObjStream) → archives_ok (put k info m).
Proof.
  intros Hm Ht Hs k' i E Hc. rewrite find_put in E. destruct (Z.eqb_spec k k') as [->|]; [naive_solver|].
  destruct (Hm k' i E Hc) as (Hg & s & Es & Hst). split; [done|]. rewrite find_put.
  destruct (Z.eqb_spec k (archive_obj_num i)) as [->|]; [|by exists s].
  exists info. split; [done|]. by eapply Hs.
Qed.

Lemma archives_entry k m : archives_ok m → archives_ok (put k (entry k m) m).
Proof.
  intros Hm. destruct (find k m) as [i|] eqn:E.
  - intros k' i' E' Hc. rewrite find_put in E'. unfold entry in E'. rewrite E in E'. cbn in E'.
    destruct (Hm k' i') as (Hg & s & Es & Hst); [|done|].
    { destruct (Z.eqb_spec k k') as [<-|]; [by rewrite E|done]. }
    split; [done|]. exists s. rewrite find_put. unfold entry. rewrite E. cbn.
    destruct (Z.eqb_spec k (archive_obj_num i')) as [->|]; [|done]. by rewrite <-Es, E.
  - apply archives_put; [done|unfold entry; by rewrite E|by rewrite E].
Qed.

Lemma archives_compressed obj_num archive m :
  archives_ok m → 0 <= archive → archives_ok (add_compressed obj_num archive m).
Proof.
  intros Hm Ha. unfold add_compressed.
  destruct (Z.leb_spec kMaxObjectNumber obj_num); [done|]. destruct (Z.leb_spec kMaxObjectNumber archive); [done|].
  cbn [orb]. set (info := entry obj_num m). pose proof (archives_entry obj_num m Hm) as H1.
  destruct (0 <? gennum info); [done|]. destruct (decide (type info = kObjStream)) as [|Hns]; [done|].
  set (m1 := put obj_num _ (put _ _ _)).
  assert (Hf1 : ∀ k, find k m1 = if obj_num =? k then Some (Info (with_archive archive info) kCompressed 0) else find k m).
  { intros k. unfold m1. rewrite !find_put. by destruct (obj_num =? k). }
  intros k i E Hc. rewrite find_put in E. destruct (Z.eqb_spec archive k) as [->|Hk]; [by injection E as <-|].
  rewrite Hf1 in E. destruct (Z.eqb_spec obj_num k) as [->|Hk'].
  - injection E as <-. split; [done|]. rewrite archive_of_with by lia. rewrite find_put, Z.eqb_refl. by eexists.
  - destruct (Hm k i E Hc) as (Hg & s & Es & Hst). split; [done|]. rewrite find_put, Hf1.
    destruct (Z.eqb_spec archive (archive_obj_num i)); [by eexists|].
    destruct (Z.eqb_spec obj_num (archive_obj_num i)) as [Eo|]; [|by exists s].
    exfalso. apply Hns. unfold info, entry. by rewrite Eo, Es.
Qed.

Lemma archives_normal obj_num gen_num p m : archives_ok m → archives_ok (add_normal obj_num gen_num p m).
Proof.
  intros Hm. unfold add_normal. destruct (kMaxObjectNumber <=? obj_num); [done|].
  pose proof (archives_entry obj_num m Hm) as H1. destruct (gen_num <? _); [done|]. case_match; [done|].
  apply archives_put; [done|cbn; by case_match|].
  intros i. rewrite find_put, Z.eqb_refl. intros [= <-] Ht. cbn. by rewrite decide_True.
Qed.

Lemma archives_free obj_num m : archives_ok m → ¬ compressed_in m obj_num → archives_ok (set_free obj_num m).
Proof.
  intros Hm Hn. unfold set_free. destruct (kMaxObjectNumber <=? obj_num); [done|].
  intros k i E Hc. rewrite find_put in E. destruct (Z.eqb_spec obj_num k) as [->|]; [by injection E as <-|].
  destruct (Hm k i E Hc) as (Hg & s & Es & Hst). split; [done|]. exists s. rewrite find_put.
  destruct (Z.eqb_spec obj_num (archive_obj_num i)) as [->|]; [|done]. destruct Hn. by exists k, i.
Qed.

Lemma archives_shrink objnum m : sorted m → archives_ok m →
  (∀ k info, k < objnum → find k m = Some info → type info = kCompressed → archive_obj_num info < objnum) → archives_ok (shrink objnum m).
Proof.
  intros Hs Hm Hlow. unfold shrink. destruct (objnum =? 0); [done|].
  assert (He : archives_ok (erase_from objnum m)).
  { intros k i E Hc. rewrite find_erase_from in E by done. destruct (Z.ltb_spec k objnum); [|done]. destruct (Hm k i E Hc) as (Hg & s & Es & Hst). split; [done|].
    exists s. rewrite find_erase_from by done. by replace (archive_obj_num i <? objnum) with true by (specialize (Hlow k i ltac:(lia) E Hc); lia). }
  destruct (find (objnum - 1) (erase_from objnum m)) eqn:Ef; [done|]. apply archives_put; [done|done|]. by rewrite Ef.
Qed.

Lemma archives_merge cur new :
  sorted cur → sorted new → archives_ok cur → archives_ok new →
  (∀ k info, compressed_in cur k → find k new = Some info → type info = kNormal ∨ type info = kObjStream) →
  archives_ok (UpdateInfo cur new).
Proof.
  intros Hs1 Hs2 Hc Hn Hside k i E Ht. destruct (UpdateInfo_spec cur new Hs1 Hs2) as [_ Hf]. rewrite Hf in *.
  assert (Hover : ∀ c n, type (over c n) = kCompressed → over c n = n).
  { intros c n. unfold over. by case_match. }
  destruct (find k new) as [n|] eqn:En.
  - assert (i = n ∧ type n = kCompressed) as [-> Htn].
    { destruct (find k cur); injection E as <-; [|done]. by rewrite Hover in Ht |- *. }
    destruct (Hn k n En Htn) as (Hg & s & Es & Hst). split; [done|]. rewrite Es.
    destruct (find (archive_obj_num n) cur) as [c|]; cbn; eexists; (split; [done|]); [|done].
    unfold over. by case_match.
  - destruct (find k cur) as [c|] eqn:Ec; [|done]. injection E as <-.
    destruct (Hc k c Ec Ht) as (Hg & s & Es & Hst). split; [done|]. rewrite Es.
    destruct (find (archive_obj_num c) new) as [n|] eqn:Ea; cbn; eexists; (split; [done|]); [|done].
    unfold over. destruct (Hside (archive_obj_num c) n) as [Hnn|Hnn]; [by exists k, c|done| |];
      [by rewrite decide_True|]. by case_match.
Qed.

Lemma sorted_ops m :
  sorted m → (∀ n a, sorted (add_compressed n a m)) ∧ (∀ n g p, sorted (add_normal n g p m)) ∧
  (∀ n, sorted (set_free n m)) ∧ ∀ n, sorted (shrink n m).
Proof.
  intros Hs. split_and!; intros; unfold add_compressed, add_normal, set_free, shrink; repeat case_match;
    try done; repeat apply sorted_put; try done; try apply sorted_nil; by apply sorted_erase_from.
Qed.

(** C22: in every table the operations build, [ShrinkObjectMap] included, an object
    said to be in an object stream has generation 0 and a stream that the table
    knows as one.  The operations must leave the streams in use: [SetFree] frees
    none, [ShrinkObjectMap] cuts off none whose objects stay, and in a merge the
    newer table, if it has an entry for one, gives it a position or knows it as a
    stream; a position is why [UpdateInfo] keeps the older type. *)
Theorem archives_known m : built m → sorted m ∧ archives_ok m.
Proof.
  induction 1 as [|m n a _ [Hs Hm] Ha|m n g p _ [Hs Hm]|m n _ [Hs Hm] Hf|m n _ [Hs Hm] Hl|cur new _ [Hs1 Hc] _ [Hs2 Hn] Hside].
  - split; [apply sorted_nil|done].
  - split; [by apply sorted_ops|by apply archives_compressed].
  - split; [by apply sorted_ops|by apply archives_normal].
  - split; [by apply sorted_ops|by apply archives_free].
  - split; [by apply sorted_ops|by apply archives_shrink].
  - split; [by apply UpdateInfo_spec|by apply archives_merge].
Qed.

(** An object in a stream that an update of the file moves. *)
Definition archives_example : std_map ObjectInfo :=
  UpdateInfo (add_compressed 5 3 (add_normal 3 0 100 [])) (add_normal 3 0 200 []).

Lemma archives_known_witness :
  find 3 archives_example = Some (Info 200 kObjStream 0) ∧ sorted archives_example ∧ archives_ok archives_example.
Proof.
  split; [reflexivity|]. apply archives_known. apply built_merge; [apply built_compressed; [|lia]| |];
    try (apply built_normal; apply built_new).
  intros k info _ E. left. change (find k [(3, Info 200 kNormal 0)] = Some info) in E. cbn [find] in E.
  destruct (3 =? k); [by injection E as <-|done].
Defined.
