(* ===== verification/XRef.v ===== *)
(** * Cross-reference sections

    The reading of a cross-reference table by [CPDF_Parser]
    ([core/fpdfapi/parser/cpdf_parser.cpp]): [ParseCrossRefV4] with
    [ParseAndAppendCrossRefSubsectionData], and [MergeCrossRefObjectsData]. *)
From S2P Require Import Prelude Words CharTypes FxNumber Syntax Objects ObjectTotal StdMap CrossRef.

Definition INT64_MAX : Z := 2 ^ 63 - 1.

Definition FXSYS_atoi64 (str : list Z) : Z :=
  let '(neg, rest) := str_sign str in
  match str_digits INT64_MAX rest 0 with
  | None => if neg then - 2 ^ 63 else INT64_MAX
  | Some num => if neg then - num else num
  end.

Definition kMaxXRefSize : Z := 1048576.
Definition kEntryConstSize : Z := 20.

Record CrossRefObjData := ObjData { obj_num : Z; obj_info : ObjectInfo }.

(** One entry, from [pEntry] to the end of the buffer; [None] where the code
    returns false. *)
Definition parse_entry (pEntry : list Z) : option ObjectInfo :=
  if pEntry.[17] =? 102 then Some (Info 0 kFree 0)
  else
    let offset := FXSYS_atoi64 pEntry in
    if (offset =? 0) && negb (forallb isdigit (take 10 pEntry)) then None
    else Some (Info offset kNormal (u16 (FXSYS_atoi (drop 11 pEntry)))).

(** The values of [block_size]: blocks of 1024 entries and the rest. *)
Definition block_sizes (count : Z) : list Z :=
  replicate (Z.to_nat (count / 1024)) 1024 ++ (if count mod 1024 =? 0 then [] else [count mod 1024]).

(** The entries of one block in [buf], the first with index [base]. *)
Definition block_entries (start_objnum base block_size : Z) (buf : list Z) : option (list CrossRefObjData) :=
  mapM (λ i, info ← parse_entry (drop (20 * i) buf);
             Some (ObjData (u32 (start_objnum + (base + Z.of_nat i))) info))
       (seq 0 (Z.to_nat block_size)).

Section xref.
Context (file : list Z) (m_HeaderOffset : Z).

Definition GetDocumentSize : Z := m_FileLen file - m_HeaderOffset.

(** [ReadBlock] on a file that is there as a whole. *)
Definition ReadBlock (size : Z) (s : syntax) : option (list Z) * syntax :=
  if (0 <=? m_Pos s + m_HeaderOffset) && (m_Pos s + m_HeaderOffset + size <=? m_FileLen file)
  then (Some (take (Z.to_nat size) (suffix file m_HeaderOffset (m_Pos s))), at_pos (m_Pos s + size) s)
  else (None, s).

Fixpoint read_blocks (start_objnum base : Z) (blocks : list Z) (buf : list Z) (s : syntax) :
    option (list CrossRefObjData) * syntax :=
  match blocks with
  | [] => (Some [], s)
  | block_size :: blocks' =>
      match ReadBlock (block_size * kEntryConstSize) s with
      | (None, s) => (None, s)
      | (Some block, s) =>
          let buf := block ++ drop (length block) buf in
          match block_entries start_objnum base block_size buf with
          | None => (None, s)
          | Some l =>
              let '(r, s) := read_blocks start_objnum (base + block_size) blocks' buf s in
              ((λ r, l ++ r) <$> r, s)
          end
      end
  end.

(** [out_objects] is a vector or [nullptr]; the result is [None] where the code
    returns false. *)
Definition ParseAndAppendCrossRefSubsectionData (start_objnum count : Z)
    (out_objects : option (list CrossRefObjData)) (s : syntax) :
    option (option (list CrossRefObjData)) * syntax :=
  if count =? 0 then (Some out_objects, s)
  else
    match out_objects with
    | None => (Some None, SetPos file (count * kEntryConstSize + m_Pos s) s)
    | Some l =>
        let new_size := zlen l + count in
        if kMaxXRefSize <? new_size then (None, s)
        else if GetDocumentSize / kEntryConstSize <? new_size then (None, s)
        else
          let '(r, s) := read_blocks start_objnum 0 (block_sizes count) (replicate (1024 * 20 + 1) 0) s in
          ((λ r, Some (l ++ r)) <$> r, s)
    end.

Definition str_xref : list Z := [120; 114; 101; 102].

(** The loop over subsections, at most [fuel] rounds. *)
Fixpoint xref_loop (fuel : nat) (result_objects : option (list CrossRefObjData)) (s : syntax) :
    option (option (option (list CrossRefObjData)) * syntax) :=
  match fuel with
  | O => None
  | S fuel' =>
      let saved_pos := m_Pos s in
      let '(word, is_number, s) := GetNextWord file m_HeaderOffset s in
      if zlen word =? 0 then Some (None, s)
      else if negb is_number then Some (Some result_objects, SetPos file saved_pos s)
      else
        let start_objnum := FXSYS_atoui word in
        if kMaxObjectNumber <=? start_objnum then Some (None, s)
        else
          let '(count, s) := GetDirectNum file m_HeaderOffset s in
          let s := ToNextWord file m_HeaderOffset s in
          match ParseAndAppendCrossRefSubsectionData start_objnum count result_objects s with
          | (None, s) => Some (None, s)
          | (Some result_objects, s) => xref_loop fuel' result_objects s
          end
  end.

(** [skip] when [out_objects] is [nullptr]. *)
Definition ParseCrossRefV4 (skip : bool) (s : syntax) :
    option (option (option (list CrossRefObjData)) * syntax) :=
  let '(word, s) := GetKeyword file m_HeaderOffset s in
  if negb (bool_decide (word = str_xref)) then Some (None, s)
  else xref_loop (S (length file)) (if skip then None else Some []) s.
End xref.

Definition merge_object (t : CPDF_CrossRefTable) (obj : CrossRefObjData) : CPDF_CrossRefTable :=
  match type (obj_info obj) with
  | kFree => if 0 <? gennum (obj_info obj) then SetFree (obj_num obj) t else t
  | kNormal | kObjStream => AddNormal (obj_num obj) (gennum (obj_info obj)) (pos (obj_info obj)) t
  | kCompressed => AddCompressed (obj_num obj) (archive_obj_num (obj_info obj)) t
  end.

Definition MergeCrossRefObjectsData (objects : list CrossRefObjData) (t : CPDF_CrossRefTable) : CPDF_CrossRefTable :=
  fold_left merge_object objects t.

(** [LoadCrossRefV4]: whether it succeeded, and the table. *)
Definition LoadCrossRefV4 (file : list Z) (hdr pos : Z) (bSkip : bool) (t : CPDF_CrossRefTable) (s : syntax) :
    option (bool * CPDF_CrossRefTable * syntax) :=
  r ← ParseCrossRefV4 file hdr bSkip (SetPos file pos s);
  match r with
  | (None, s) => Some (false, t, s)
  | (Some objects, s) => Some (true, MergeCrossRefObjectsData (default [] objects) t, s)
  end.

(** ** Entries as they are written *)
Example entry_example :
  (* 0000000016 00000 n *)
  parse_entry [48;48;48;48;48;48;48;48;49;54;32;48;48;48;48;48;32;110;13;10] = Some (Info 16 kNormal 0).
Proof. reflexivity. Qed.

(** ** Termination *)
Section total.
Context (file : list Z) (hdr : Z).
Hypothesis Hhdr : 0 <= hdr.

(** A subsection does not go back. *)
Lemma read_blocks_total blocks : ∀ start base buf s,
  Forall (λ b, 0 <= b) blocks → state_ok s →
  state_ok (read_blocks file hdr start base blocks buf s).2 ∧
  clip file hdr s <= clip file hdr (read_blocks file hdr start base blocks buf s).2.
Proof.
  induction blocks as [|b blocks IH]; intros start base buf s Hb Hs; [by cbn|].
  inversion Hb as [|? ? Hb1 Hb2]; subst. cbn [read_blocks]. unfold ReadBlock, kEntryConstSize.
  destruct (_ && _); [|by cbn].
  destruct (move_total file hdr s (m_Pos s + b * 20) Hs ltac:(lia)) as [H1 H2].
  destruct (block_entries _ _ _ _) as [l|]; [|by cbn].
  match goal with |- context [read_blocks _ _ ?x ?y ?z ?t ?u] =>
    destruct (IH x y t u Hb2 H1) as [H3 H4]; destruct (read_blocks file hdr x y z t u) as [r s'] end.
  cbn [snd] in *. split; [done|lia].
Qed.

Lemma block_sizes_nonneg count : Forall (λ b, 0 <= b) (block_sizes count).
Proof.
  unfold block_sizes. apply Forall_app. split; [by apply Forall_replicate|].
  case_match; [done|]. apply Forall_singleton. pose proof (Z.mod_pos_bound count 1024). lia.
Qed.

Lemma subsection_total start count out s :
  0 <= count → state_ok s →
  state_ok (ParseAndAppendCrossRefSubsectionData file hdr start count out s).2 ∧
  clip file hdr s <= clip file hdr (ParseAndAppendCrossRefSubsectionData file hdr start count out s).2.
Proof.
  intros Hc Hs. unfold ParseAndAppendCrossRefSubsectionData. destruct (count =? 0); [by cbn|].
  destruct out as [l|].
  - destruct (_ <? _); [by cbn|]. destruct (_ <? _); [by cbn|].
    pose proof (read_blocks_total (block_sizes count) start 0 (replicate (1024 * 20 + 1) 0) s
      (block_sizes_nonneg count) Hs) as H.
    destruct (read_blocks _ _ _ _ _ _ _) as [r s']. by cbn [snd] in *.
  - destruct (SetPos_total file hdr Hhdr s (count * kEntryConstSize + m_Pos s) Hs) as [H1 H2].
    cbn [snd]. split; [done|]. rewrite H2. unfold clip, kEntryConstSize. lia.
Qed.

Lemma str_digits_range max l : ∀ num n, 0 <= num → str_digits max l num = Some n → 0 <= n.
Proof.
  induction l as [|c l IH]; intros num n Hnum E; cbn [str_digits] in E; [by injection E as <-|].
  destruct (FXSYS_IsDecimalDigit c) eqn:Ed; [|by injection E as <-]. destruct (_ <? num); [done|].
  apply IH in E; [done|]. unfold FXSYS_DecimalCharToInt. rewrite Ed. unfold FXSYS_IsDecimalDigit, isdigit in Ed. lia.
Qed.

Lemma atoui_nonneg str : 0 <= FXSYS_atoui str.
Proof.
  unfold FXSYS_atoui. destruct (str_sign str) as [neg rest].
  destruct (str_digits UINT_MAX rest 0) as [n|] eqn:E; [|by unfold UINT_MAX].
  apply str_digits_range in E; [|done]. destruct neg; [|done]. apply Z.mod_pos_bound. lia.
Qed.

Lemma direct_num_total s :
  state_ok s → let '(n, s') := GetDirectNum file hdr s in 0 <= n ∧ state_ok s' ∧ clip file hdr s <= clip file hdr s'.
Proof.
  intros Hs. unfold GetDirectNum. pose proof (word_internal_total file hdr s Hs) as (H1 & H2 & _).
  destruct (GetNextWordInternal file hdr s) as [num s']. cbn in *. split_and!; [|done|done].
  destruct num; [apply atoui_nonneg|done].
Qed.

Lemma next_word_total s :
  state_ok s → state_ok (ToNextWord file hdr s) ∧ clip file hdr s <= clip file hdr (ToNextWord file hdr s).
Proof.
  intros Hs. unfold ToNextWord. destruct (to_next_word_spec (suffix file hdr (m_Pos s)) false (m_Pos s)) as (n & -> & _).
  apply move_total; [done|]. lia.
Qed.

Lemma xref_loop_total fuel : ∀ out s,
  state_ok s → m_FileLen file - clip file hdr s < Z.of_nat fuel →
  ∃ r s', xref_loop file hdr fuel out s = Some (r, s') ∧ state_ok s' ∧
    (is_Some r → clip file hdr s <= clip file hdr s').
Proof.
  induction fuel as [|fuel IH]; intros out s Hs Hf; [pose proof (clip_nonneg file hdr s); lia|].
  cbn [xref_loop]. destruct (word_total file hdr s Hs) as (w & num & s1 & -> & Hs1 & Hc1 & _).
  pose proof (zlen_nonneg w).
  assert (Hno : ∀ s', state_ok s' → ∃ r s'', Some (None, s') = Some (r, s'') ∧ state_ok s'' ∧
    (is_Some (r : option (option (list CrossRefObjData))) → clip file hdr s <= clip file hdr s'')).
  { intros s' Hs'. exists None, s'. split_and!; [done|done|by intros [? ?]]. }
  destruct (Z.eqb_spec (zlen w) 0); [by apply Hno|]. destruct (negb num).
  { destruct (SetPos_total file hdr Hhdr s1 (m_Pos s) Hs1) as [H1 H2].
    exists (Some out), (SetPos file (m_Pos s) s1). split_and!; [done..|]. intros _. rewrite H2. unfold clip. lia. }
  destruct (_ <=? _); [by apply Hno|].
  pose proof (direct_num_total s1 Hs1) as H2. destruct (GetDirectNum file hdr s1) as [count s2].
  destruct H2 as (Hn & Hs2 & Hc2). destruct (next_word_total s2 Hs2) as [Hs3 Hc3].
  destruct (subsection_total (FXSYS_atoui w) count out (ToNextWord file hdr s2) Hn Hs3) as [Hs4 Hc4].
  destruct (ParseAndAppendCrossRefSubsectionData file hdr _ _ _ _) as [[r|] s4]; [|by apply Hno].
  cbn [snd] in *. destruct (IH r s4 Hs4 ltac:(lia)) as (r' & s5 & E & Hs5 & Hc5).
  exists r', s5. split_and!; [done..|]. intros Hr. specialize (Hc5 Hr). lia.
Qed.

Lemma ParseCrossRefV4_total skip s :
  state_ok s → ∃ r s', ParseCrossRefV4 file hdr skip s = Some (r, s') ∧ state_ok s' ∧
    (is_Some r → clip file hdr s < clip file hdr s').
Proof.
  intros Hs. unfold ParseCrossRefV4, GetKeyword.
  destruct (word_total file hdr s Hs) as (w & num & s1 & -> & Hs1 & Hc1 & _).
  case_bool_decide as Ew; cbn [negb]; [|exists None, s1; split_and!; [done..|by intros [? ?]]].
  destruct (xref_loop_total (S (length file)) (if skip then None else Some []) s1 Hs1) as (r & s2 & E & Hs2 & Hc2).
  { pose proof (clip_nonneg file hdr s1). unfold m_FileLen, zlen in *. lia. }
  exists r, s2. split_and!; [done..|]. intros Hr. specialize (Hc2 Hr). subst w. change (zlen str_xref) with 4 in Hc1. lia.
Qed.

Lemma LoadCrossRefV4_total pos skip t s :
  state_ok s → ∃ ok t' s', LoadCrossRefV4 file hdr pos skip t s = Some (ok, t', s') ∧ state_ok s' ∧
    (ok = true → Z.max 0 (Z.min (pos + hdr) (m_FileLen file)) < clip file hdr s').
Proof.
  intros Hs. unfold LoadCrossRefV4. destruct (SetPos_total file hdr Hhdr s pos Hs) as [H1 H2].
  destruct (ParseCrossRefV4_total skip _ H1) as (r & s' & -> & Hs' & Hc). cbn [mbind option_bind].
  destruct r as [o|]; do 3 eexists; (split_and!; [done|done|]); [|done].
  intros _. rewrite <-H2. by apply Hc.
Qed.
End total.
