(* ===== verification/XRefText.v ===== *)
(** * The cross-reference table that is written

    The tables [CPDF_Creator] writes ([WriteDoc_Stage3] of
    [core/fpdfapi/edit/cpdf_creator.cpp]) and their reading. *)
From S2P Require Import Prelude Words CharTypes FxNumber Syntax Objects ObjectText ObjectTotal StdMap CrossRef XRef.

(** ["%d"] of an unsigned number, and ["%010d"]: a [FX_FILESIZE] passed for an
    [int] gives its low half. *)
Definition format_d (n : Z) : list Z := FormatInteger (s32 (u32 n)).
Definition pad (width : nat) (n : Z) : list Z :=
  let d := dec_digits 10 n in replicate (width - length d) 48 ++ d.
Definition format_010d (offset : Z) : list Z :=
  let n := s32 (u32 offset) in if n <? 0 then 45 :: pad 9 (- n) else pad 10 n.

(** [" 00000 n\r\n"] and ["0000000000 65535 f\r\n"] *)
Definition str_in_use : list Z := [32; 48; 48; 48; 48; 48; 32; 110; 13; 10].
Definition free_entry : list Z :=
  [48; 48; 48; 48; 48; 48; 48; 48; 48; 48; 32; 54; 53; 53; 51; 53; 32; 102; 13; 10].
Definition xref_entry (offset : Z) : list Z := format_010d offset ++ str_in_use.

Definition contains (m : std_map Z) (i : Z) : bool := match find i m with Some _ => true | None => false end.

(** The first number from [i] to [last] that is, or is not, among the objects. *)
Fixpoint run_end (present : bool) (fuel : nat) (m : std_map Z) (last i : Z) : Z :=
  match fuel with
  | O => i
  | S fuel' => if (i <=? last) && Bool.eqb (contains m i) present then run_end present fuel' m last (i + 1) else i
  end.

(** [i] and [j] of the rounds of the loop. *)
Fixpoint xref_runs (fuel : nat) (m : std_map Z) (last i : Z) : list (Z * Z) :=
  match fuel with
  | O => []
  | S fuel' =>
      if last <? i then []
      else
        let i := run_end false (Z.to_nat (last + 1 - i)) m last i in
        if last <? i then []
        else
          let j := run_end true (Z.to_nat (last + 1 - i)) m last i in
          (i, j) :: xref_runs fuel' m last j
  end.

(** A subsection: "start count\r\n" and its entries. *)
Definition subsection (start count : Z) (entries : list (list Z)) : list Z :=
  format_d start ++ 32 :: format_d count ++ [13; 10] ++ concat entries.

Definition offsets (m : std_map Z) (l : list Z) : list Z := map (λ n, default 0 (find n m)) l.

Definition run_text (m : std_map Z) (run : Z * Z) : list Z :=
  let '(i, j) := run in
  let entries := map xref_entry (offsets m (seqZ i (j - i))) in
  if i =? 1 then subsection 0 j (free_entry :: entries) else subsection i (j - i) entries.

Definition str_xref_eol : list Z := str_xref ++ [13; 10].

(** [kWriteXrefsNotIncremental81], with what stage 80 writes before it. *)
Definition WriteXrefsNotIncremental (m : std_map Z) (last : Z) : list Z :=
  str_xref_eol ++ (if contains m 1 then [] else subsection 0 1 [free_entry]) ++
  flat_map (run_text m) (xref_runs (S (Z.to_nat last)) m last 1).

(** The runs of [m_NewObjNumArray]: how many of the numbers after [objnum]
    follow it without a gap. *)
Fixpoint consecutive (objnum : Z) (l : list Z) : nat :=
  match l with
  | [] => 0
  | n :: l' => if 1 <? u32 (n - objnum) then 0 else S (consecutive n l')
  end.

Fixpoint incremental_runs (fuel : nat) (l : list Z) : list (list Z) :=
  match fuel, l with
  | S fuel', objnum :: l' =>
      let n := S (consecutive objnum l') in take n l :: incremental_runs fuel' (drop n l)
  | _, _ => []
  end.

Definition incremental_text (m : std_map Z) (run : list Z) : list Z :=
  let entries := map xref_entry (offsets m run) in
  match run with
  | [] => []
  | objnum :: _ =>
      if objnum =? 1 then subsection 0 (zlen run + 1) (free_entry :: entries) else subsection objnum (zlen run) entries
  end.

(** [kWriteXrefsIncremental82] *)
Definition WriteXrefsIncremental (m : std_map Z) (m_NewObjNumArray : list Z) : list Z :=
  str_xref_eol ++ flat_map (incremental_text m) (incremental_runs (length m_NewObjNumArray) m_NewObjNumArray).

Example xref_text_example :
  (* 0 2 / free / 0000000015; 4 1 / 0000000099 *)
  WriteXrefsNotIncremental [(1, 15); (4, 99)] 4 =
    str_xref_eol ++ subsection 0 2 [free_entry; xref_entry 15] ++ subsection 4 1 [xref_entry 99].
Proof. reflexivity. Qed.

(** ** Reading the entries *)
Definition entry_ok (e : list Z) (info : ObjectInfo) : Prop :=
  (∃ c e', e = c :: e' ∧ PDFCharIsNumeric c = true) ∧ length e = 20%nat ∧
  ∀ tail, parse_entry (e ++ tail) = Some info.

Lemma pad_spec k n :
  0 <= n < 10 ^ Z.of_nat k → (0 < k <= 10)%nat → digits (pad k n) ∧ dec_value (pad k n) 0 = n ∧ length (pad k n) = k.
Proof.
  intros Hn Hk. unfold pad.
  destruct (dec_digits_spec 10 n) as (Hd & Hv & Hne); [|done|].
  { split; [lia|]. eapply Z.lt_le_trans; [apply Hn|]. apply Z.pow_le_mono_r; lia. }
  assert (Hlen : (length (dec_digits 10 n) <= k)%nat).
  { clear -Hn Hk. assert (H : ∀ fuel k n, 0 <= n < 10 ^ Z.of_nat k → (0 < k)%nat → (length (dec_digits fuel n) <= k)%nat).
    { induction fuel as [|fuel IH]; intros k' n' Hn' Hk'; cbn [dec_digits]; [cbn; lia|].
      rewrite length_app. destruct (Z.ltb_spec n' 10); cbn [length]; [lia|].
      destruct k' as [|k']; [lia|]. rewrite Nat2Z.inj_succ, Z.pow_succ_r in Hn' by lia.
      destruct k' as [|k']; [cbn in Hn'; lia|].
      specialize (IH (S k') (n' / 10) ltac:(Z.div_mod_to_equations; lia) ltac:(lia)). lia. }
    apply H; [done|lia]. }
  split_and!.
  - apply Forall_app. split; [|done]. apply Forall_replicate. lia.
  - rewrite dec_value_app. assert (E : ∀ j, dec_value (replicate j 48) 0 = 0).
    { induction j as [|j IH]; [done|]. cbn. exact IH. }
    by rewrite E.
  - rewrite length_app, length_replicate. lia.
Qed.

Lemma digits_prefix l k max n : digits l → 0 <= n <= max → dec_value l n <= max →
  match k with c :: _ => FXSYS_IsDecimalDigit c = false | [] => True end →
  str_digits max (l ++ k) n = Some (dec_value l n).
Proof.
  intros Hl. revert n. induction Hl as [|c l Hc Hl IH]; intros n Hn Hv Hk; cbn [app].
  - destruct k as [|c k]; [done|]. cbn. by rewrite Hk.
  - cbn [str_digits dec_value fold_left] in *. fold (dec_value l (n * 10 + (c - 48))) in *.
    destruct (digit_facts c Hc) as (-> & _ & -> & _).
    pose proof (dec_value_ge l (n * 10 + (c - 48)) Hl ltac:(lia)).
    destruct (Z.ltb_spec ((max - (c - 48)) / 10) n); [Z.div_mod_to_equations; lia|].
    apply IH; [lia|lia|done].
Qed.

Lemma xref_entry_ok offset : 0 <= offset < 2 ^ 31 → entry_ok (xref_entry offset) (Info offset kNormal 0).
Proof.
  intros Ho. unfold xref_entry, format_010d.
  rewrite s32_small by done. replace (offset <? 0) with false by lia. destruct (pad_spec 10 offset) as (Hd & Hv & Hlen); [lia|lia|].
  split; [|split; [rewrite length_app, Hlen; done|]].
  { destruct (pad 10 offset) as [|c p']; [done|]. exists c, (p' ++ str_in_use). split; [done|].
    inversion Hd as [|? ? Hc _]; subst. replace c with (48 + (c - 48)) by lia. apply numeric_digit. lia. }
  intros tail. rewrite <-app_assoc. set (p := pad 10 offset) in *.
  unfold parse_entry, rd. rewrite app_nth2 by lia. rewrite Hlen. change (nth _ _ _ =? 102) with false. cbv iota.
  rewrite take_app_length', drop_app_ge by lia. rewrite Hlen.
  assert (Eo : FXSYS_atoi64 (p ++ str_in_use ++ tail) = offset).
  { unfold FXSYS_atoi64. destruct p as [|c p']; [done|]. inversion Hd as [|? ? Hc _]; subst.
    cbn [str_sign app]. destruct (digit_facts c Hc) as (_ & _ & _ & _ & -> & ->). cbn [orb].
    change (c :: p' ++ str_in_use ++ tail) with ((c :: p') ++ str_in_use ++ tail).
    rewrite (digits_prefix (c :: p') (str_in_use ++ tail) INT64_MAX 0); [done|done|unfold INT64_MAX; lia|unfold INT64_MAX; lia|done]. }
  rewrite Eo. replace (forallb isdigit p) with true; [by rewrite andb_false_r|]. symmetry.
  apply forallb_forall. intros c Hin. apply list_elem_of_In in Hin.
  destruct (digit_facts c); [by apply (proj1 (Forall_forall _ _) Hd)|tauto].
Qed.

Lemma free_entry_ok : entry_ok free_entry (Info 0 kFree 0).
Proof. split; [by do 2 eexists|]. by split. Qed.

(** The objects of entries, the first with number [start]. *)
Definition objs (start : Z) (infos : list ObjectInfo) : list CrossRefObjData :=
  imap (λ i info, ObjData (u32 (start + Z.of_nat i)) info) infos.

Lemma objs_app start l k : objs start (l ++ k) = objs start l ++ objs (start + zlen l) k.
Proof.
  unfold objs. rewrite imap_app. f_equal. apply imap_ext. intros i x _. unfold zlen, compose. cbn. do 2 f_equal. lia.
Qed.

Lemma entries_length es infos : Forall2 entry_ok es infos → length (concat es) = (20 * length es)%nat.
Proof. induction 1 as [|e i es infos (_ & He & _) _ IH]; [done|]. cbn. rewrite length_app. lia. Qed.

Lemma block_entries_ok es infos : ∀ start base tail,
  Forall2 entry_ok es infos →
  block_entries start base (zlen es) (concat es ++ tail) = Some (objs (start + base) infos).
Proof.
  intros start base tail Hok. unfold block_entries, zlen. rewrite Nat2Z.id. apply mapM_Some.
  apply Forall2_same_length_lookup. unfold objs. split; [rewrite length_seq, length_imap; by eapply Forall2_length|].
  intros i j [info id] Hj Hi. apply lookup_seq in Hj as [-> Hlt]. cbn [Nat.add] in *.
  rewrite list_lookup_imap in Hi. destruct (lookup_lt_is_Some_2 es i Hlt) as [e He].
  destruct (Forall2_lookup_l _ _ _ _ _ Hok He) as (info' & Ei & _ & Hlen & Hp). rewrite Ei in Hi. cbn in Hi.
  assert (E : drop (20 * i) (concat es ++ tail) = e ++ drop (20 * S i) (concat es ++ tail)).
  { clear -Hok He. revert i He. induction Hok as [|e1 i1 es infos (_ & Hl & _) Hok IH]; intros i He; [done|].
    cbn [concat]. rewrite <-app_assoc. destruct i as [|i]; cbn in He.
    - injection He as ->. change (drop (20 * 0) ?x) with x. by rewrite drop_app_length' by lia.
    - rewrite (drop_app_ge e1 _ (20 * S i)), (drop_app_ge e1 _ (20 * S (S i))) by lia. rewrite Hl.
      replace (20 * S i - 20)%nat with (20 * i)%nat by lia.
      replace (20 * S (S i) - 20)%nat with (20 * S i)%nat by lia. by apply IH. }
  rewrite E, Hp. cbn. injection Hi as <- <-. do 3 f_equal. unfold compose. lia.
Qed.

Section reading.
Context (file : list Z) (hdr : Z).

Lemma At_file s a l : At file hdr s (a ++ l) → a ≠ [] → m_Pos s + hdr + zlen a <= m_FileLen file.
Proof.
  intros (E & Hp & _) Ha. unfold suffix in E. replace (0 <=? m_Pos s + hdr) with true in E by lia.
  apply (f_equal length) in E. rewrite length_drop, length_app in E. unfold m_FileLen, zlen in *.
  destruct a; [done|cbn [length] in *; lia].
Qed.

Lemma read_block_ok s a l :
  At file hdr s (a ++ l) → a ≠ [] →
  ReadBlock file hdr (zlen a) s = (Some a, at_pos (m_Pos s + zlen a) s) ∧ At file hdr (at_pos (m_Pos s + zlen a) s) l.
Proof.
  intros Hat Ha. pose proof (At_file s a l Hat Ha). pose proof (At_move file hdr s a l Hat). split; [|done].
  destruct Hat as (E & Hp & _). unfold ReadBlock.
  replace (0 <=? m_Pos s + hdr) with true by lia. replace (_ <=? _) with true by lia. cbn [andb].
  rewrite E. unfold zlen. rewrite Nat2Z.id. by rewrite take_app_length.
Qed.

Lemma read_blocks_ok blocks : ∀ start base es infos buf s l,
  Forall (λ b, 0 < b) blocks → foldr Z.add 0 blocks = zlen es → Forall2 entry_ok es infos →
  At file hdr s (concat es ++ l) → ∃ s',
  read_blocks file hdr start base blocks buf s = (Some (objs (start + base) infos), s') ∧ At file hdr s' l ∧
  m_Pos s' = m_Pos s + 20 * zlen es.
Proof.
  induction blocks as [|b blocks IH]; intros start base es infos buf s l Hb Hsum Hok Hat; cbn [read_blocks foldr] in *.
  - destruct es; [|rewrite zlen_cons in Hsum; pose proof (zlen_nonneg es); lia].
    inversion Hok; subst. exists s. split_and!; [done|done|rewrite (@zlen_nil (list Z)); lia].
  - inversion Hb as [|? ? Hb1 Hb2]; subst.
    assert (Hrest : 0 <= foldr Z.add 0 blocks) by (clear -Hb2; induction Hb2; cbn; lia).
    set (n := Z.to_nat b). assert (Hn : (n <= length es)%nat) by (unfold zlen in Hsum; lia).
    rewrite <-(take_drop n es), concat_app, <-app_assoc in Hat.
    rewrite <-(take_drop n es), <-(take_drop n infos) in Hok.
    pose proof (Forall2_length _ _ _ Hok) as Hlen. rewrite !length_app, !length_take, !length_drop in Hlen.
    apply Forall2_app_inv in Hok as [Hok1 Hok2]; [|rewrite !length_take; lia].
    pose proof (entries_length _ _ Hok1) as Hl1. rewrite length_take, Nat.min_l in Hl1 by lia.
    assert (Hz : b * kEntryConstSize = zlen (concat (take n es))) by (unfold zlen, kEntryConstSize; lia).
    rewrite Hz. destruct (read_block_ok s _ _ Hat) as [E Hat1]; [intros E; rewrite E in Hl1; cbn in Hl1; lia|].
    rewrite E. assert (Hb' : b = zlen (take n es)) by (unfold zlen; rewrite length_take; lia).
    rewrite Hb', (block_entries_ok _ (take n infos)) by done.
    destruct (IH start (base + zlen (take n es)) (drop n es) (drop n infos)
      (concat (take n es) ++ drop (length (concat (take n es))) buf)
      (at_pos (m_Pos s + zlen (concat (take n es))) s) l Hb2) as (s' & E2 & Hat2 & Hpos); [|done|exact Hat1|].
    { unfold zlen in *. rewrite length_drop. lia. }
    rewrite E2. exists s'. split_and!; [|done|].
    + cbn. do 2 f_equal. rewrite <-(take_drop n infos) at 3. rewrite objs_app. f_equal. f_equal.
      unfold zlen. rewrite !length_take. lia.
    + rewrite Hpos. cbn [m_Pos at_pos]. unfold zlen in *. rewrite Hl1, length_drop. lia.
Qed.

Lemma block_sizes_ok count : 0 <= count → Forall (λ b, 0 < b) (block_sizes count) ∧ foldr Z.add 0 (block_sizes count) = count.
Proof.
  intros Hc. unfold block_sizes. pose proof (Z.mod_pos_bound count 1024 ltac:(lia)).
  assert (Hrep : ∀ n k, foldr Z.add 0 (replicate n 1024 ++ k) = Z.of_nat n * 1024 + foldr Z.add 0 k).
  { induction n as [|n IH]; intros k; [done|]. cbn [replicate app foldr]. rewrite IH. lia. }
  split.
  - apply Forall_app. split; [by apply Forall_replicate|]. destruct (Z.eqb_spec (count mod 1024) 0); [done|].
    apply Forall_singleton. lia.
  - rewrite Hrep. destruct (Z.eqb_spec (count mod 1024) 0); cbn [foldr]; Z.div_mod_to_equations; lia.
Qed.

(** *** Subsections *)
Hypothesis Hhdr : 0 <= hdr.

Lemma GetDirectNum_word s w (num : bool) s' :
  GetNextWord file hdr s = (w, num, s') → GetDirectNum file hdr s = (if num then FXSYS_atoui w else 0, s').
Proof.
  unfold GetNextWord, GetDirectNum. destruct (GetNextWordInternal file hdr s) as [n s1].
  by intros [= <- <- <-].
Qed.

Lemma ToNextWord_At s l : At file hdr s l → At file hdr (ToNextWord file hdr s) (strip l).
Proof.
  intros Hat. pose proof Hat as (E & Hp & Hb). destruct (strip_app l) as (a & El & Hn).
  unfold ToNextWord. rewrite E, to_next_word_shift, Hn. apply At_move. by rewrite <-El.
Qed.

Lemma SetPos_At s l : At file hdr s l → m_Pos s <= m_FileLen file → SetPos file (m_Pos s) s = s.
Proof. intros _ Hp. unfold SetPos, at_pos. rewrite Z.min_l by done. by destruct s. Qed.

Definition blanks (l : list Z) : Prop := Forall (λ c, PDFCharIsWhitespace c = true) l.

Lemma lex_blanks sp l : blanks sp → lex (sp ++ l) = lex l.
Proof. unfold lex. induction 1 as [|c sp Hc _ IH]; [done|]. cbn [app]. by rewrite strip_white. Qed.

Lemma number_At s sp n l :
  At file hdr s (sp ++ format_d n ++ l) → blanks sp → 0 <= n < 2 ^ 31 → boundary l →
  ∃ s' w, GetNextWord file hdr s = (w, true, s') ∧ FXSYS_atoui w = n ∧ zlen w <> 0 ∧ At file hdr s' l ∧ m_Pos s <= m_Pos s'.
Proof.
  intros Hat Hsp Hn Hl. unfold format_d in Hat. rewrite s32_small in Hat by done.
  pose proof (GetNextWord_lex file hdr s _ Hat) as H. destruct (numeric_Format n) as (N1 & N2 & N3).
  assert (E : lex (sp ++ FormatInteger n ++ l) = (FormatInteger n, true, l)).
  { rewrite lex_blanks by done. apply lex_number; [split_and!; [done..|unfold zlen; lia]|done]. }
  rewrite E in H. destruct H as (s' & E' & Hat' & Hpos & _). exists s', (FormatInteger n).
  split_and!; [done|apply atoui_Format; unfold UINT_MAX; lia| |done|].
  - unfold zlen. destruct (FormatInteger n); [done|cbn [length]; lia].
  - rewrite Hpos, !zlen_app. pose proof (zlen_nonneg (FormatInteger n)). pose proof (zlen_nonneg sp). lia.
Qed.

(** What the two modes of the loop keep of the objects. *)
Definition kept (out : option (list CrossRefObjData)) (l : list CrossRefObjData) : option (list CrossRefObjData) :=
  (λ r, r ++ l) <$> out.

Lemma subsection_loop fuel out s sp start es infos rest :
  At file hdr s (sp ++ subsection start (zlen es) es ++ rest) → blanks sp → Forall2 entry_ok es infos → es ≠ [] →
  0 <= start < kMaxObjectNumber → zlen (default [] out) + zlen es <= kMaxXRefSize →
  20 * zlen (default [] out) <= m_Pos s →
  ∃ s', xref_loop file hdr (S fuel) out s = xref_loop file hdr fuel (kept out (objs start infos)) s' ∧
    At file hdr s' rest ∧ 20 * zlen (default [] (kept out (objs start infos))) <= m_Pos s'.
Proof.
  intros Hat Hsp Hok Hne Hstart Hmax Hpos. unfold subsection in Hat. rewrite <-app_assoc in Hat. cbn [app] in Hat.
  unfold kMaxObjectNumber, kMaxXRefSize in *. pose proof (zlen_nonneg es). pose proof (zlen_nonneg (default [] out)).
  destruct (number_At s sp start _ Hat Hsp ltac:(lia)) as (s1 & w1 & E1 & Ew1 & Hw1 & Hat1 & Hp1); [done|].
  rewrite <-app_assoc in Hat1. cbn [app] in Hat1.
  destruct (number_At s1 [32] (zlen es) (13 :: 10 :: concat es ++ rest)) as (s2 & w2 & E2 & Ew2 & _ & Hat3 & Hp2);
    [exact Hat1|by right|lia|done|].
  assert (Hat4 : At file hdr (ToNextWord file hdr s2) (concat es ++ rest)).
  { assert (Hst : strip ([13; 10] ++ concat es ++ rest) = concat es ++ rest).
    { destruct es as [|e es']; [done|]. inversion Hok as [|? ? ? ? ((c & e' & -> & Hc) & _) _]; subst. cbn [concat app].
      rewrite !strip_white by done. apply strip_regular.
      assert (Hr : regular [c]) by (apply numeric_regular; by apply Forall_singleton). by inversion Hr. }
    rewrite <-Hst. by apply ToNextWord_At. }
  assert (Hp3 : m_Pos s2 <= m_Pos (ToNextWord file hdr s2)).
  { unfold ToNextWord. destruct (to_next_word_spec (suffix file hdr (m_Pos s2)) false (m_Pos s2)) as (n & -> & _). cbn. lia. }
  set (s3 := ToNextWord file hdr s2) in *.
  assert (Hce : concat es ≠ []).
  { intros E. pose proof (entries_length _ _ Hok) as Hl. rewrite E in Hl. destruct es; [done|cbn in Hl; lia]. }
  pose proof (At_file s3 _ _ Hat4 Hce) as Hfile.
  assert (Hz : zlen (concat es) = 20 * zlen es) by (unfold zlen; rewrite (entries_length _ _ Hok); lia).
  assert (H1 : 1 <= zlen es) by (destruct es; [done|rewrite zlen_cons; pose proof (zlen_nonneg es); lia]).
  cbn [xref_loop]. rewrite E1. replace (zlen w1 =? 0) with false by lia.
  cbn [negb]. rewrite Ew1. replace (kMaxObjectNumber <=? start) with false by (unfold kMaxObjectNumber; lia).
  rewrite (GetDirectNum_word _ _ _ _ E2), Ew2. fold s3. unfold ParseAndAppendCrossRefSubsectionData.
  replace (zlen es =? 0) with false by lia. destruct out as [l|]; cbn [kept fmap option_fmap option_map default from_option id] in *.
  - replace (kMaxXRefSize <? zlen l + zlen es) with false by (unfold kMaxXRefSize; lia).
    replace (GetDocumentSize file hdr / kEntryConstSize <? zlen l + zlen es) with false
      by (unfold kEntryConstSize, GetDocumentSize; symmetry; apply Z.ltb_ge, Z.div_le_lower_bound; lia).
    destruct (block_sizes_ok (zlen es) ltac:(lia)) as [Hb1 Hb2].
    destruct (read_blocks_ok (block_sizes (zlen es)) start 0 es infos (replicate (1024 * 20 + 1) 0) s3 rest Hb1 Hb2 Hok Hat4)
      as (s4 & E4 & Hat5 & Hp4).
    rewrite E4, Z.add_0_r. exists s4. split_and!; [done|done|].
    rewrite zlen_app. replace (zlen (objs start infos)) with (zlen es); [lia|].
    unfold zlen, objs. rewrite length_imap. by rewrite (Forall2_length _ _ _ Hok).
  - exists (at_pos (m_Pos s3 + zlen (concat es)) s3). split_and!.
    + unfold SetPos, kEntryConstSize. rewrite Z.min_l by (pose proof (zlen_nonneg rest); lia).
      by replace (zlen es * 20 + m_Pos s3) with (m_Pos s3 + zlen (concat es)) by lia.
    + by apply At_move.
    + cbn [m_Pos at_pos]. change (zlen (@nil CrossRefObjData)) with 0 in *. lia.
Qed.

(** *** Whole sections *)
Record section := Section_ { sec_start : Z; sec_entries : list (list Z); sec_infos : list ObjectInfo }.

Definition section_ok (sec : section) : Prop :=
  Forall2 entry_ok (sec_entries sec) (sec_infos sec) ∧ sec_entries sec ≠ [] ∧ 0 <= sec_start sec < kMaxObjectNumber.
Definition section_text (sec : section) : list Z :=
  subsection (sec_start sec) (zlen (sec_entries sec)) (sec_entries sec).
Definition section_objs (sec : section) : list CrossRefObjData := objs (sec_start sec) (sec_infos sec).

Lemma section_objs_length sec : section_ok sec → zlen (section_objs sec) = zlen (sec_entries sec).
Proof. intros [Hok _]. unfold section_objs, objs, zlen. rewrite length_imap. by rewrite (Forall2_length _ _ _ Hok). Qed.

Lemma sections_loop secs : ∀ fuel out s sp rest,
  Forall section_ok secs → At file hdr s (sp ++ flat_map section_text secs ++ rest) → blanks sp →
  zlen (default [] out) + zlen (flat_map section_objs secs) <= kMaxXRefSize →
  20 * zlen (default [] out) <= m_Pos s →
  ∃ s' sp', xref_loop file hdr (length secs + fuel) out s =
        xref_loop file hdr fuel (kept out (flat_map section_objs secs)) s' ∧ At file hdr s' (sp' ++ rest) ∧ blanks sp'.
Proof.
  induction secs as [|sec secs IH]; intros fuel out s sp rest Hok Hat Hsp Hmax Hpos; cbn [flat_map length Nat.add] in *.
  - exists s, sp. split; [|done]. destruct out as [l|]; [|done]. cbn. by rewrite app_nil_r.
  - inversion Hok as [|? ? Hsec Hok']; subst. pose proof Hsec as (He & Hne & Hst).
    rewrite <-app_assoc in Hat. rewrite zlen_app, section_objs_length in Hmax by done.
    pose proof (zlen_nonneg (flat_map section_objs secs)).
    destruct (subsection_loop (length secs + fuel) out s sp _ _ _ _ Hat Hsp He Hne Hst ltac:(lia) Hpos)
      as (s1 & E1 & Hat1 & Hp1).
    destruct (IH fuel (kept out (objs (sec_start sec) (sec_infos sec))) s1 [] rest Hok' Hat1)
      as (s2 & sp2 & E2 & Hat2 & Hsp2); [constructor| |done|].
    { pose proof (section_objs_length sec Hsec) as El. unfold section_objs in El.
      destruct out as [l|]; cbn [kept fmap option_fmap option_map default from_option id] in *; [rewrite zlen_app; lia|].
      change (zlen (@nil CrossRefObjData)) with 0 in *. pose proof (zlen_nonneg (sec_entries sec)). lia. }
    exists s2, sp2. split; [|done]. rewrite E1, E2. f_equal. destruct out as [l|]; [|done]. cbn. by rewrite <-app_assoc.
Qed.

Lemma sections_short secs : (length secs <= length (flat_map section_text secs))%nat.
Proof.
  induction secs as [|sec secs IH]; [done|]. cbn [flat_map length]. rewrite length_app.
  unfold section_text at 1, subsection. rewrite length_app. cbn [length]. lia.
Qed.

Definition is_word (l : list Z) : Prop := (lex l).1.2 = false ∧ zlen (lex l).1.1 <> 0.

Lemma sections_parse s secs rest (skip : bool) :
  0 <= m_Pos s → At file hdr s (str_xref_eol ++ flat_map section_text secs ++ rest) → Forall section_ok secs →
  zlen (flat_map section_objs secs) <= kMaxXRefSize → is_word rest →
  ∃ s' sp, ParseCrossRefV4 file hdr skip s = Some (Some (if skip then None else Some (flat_map section_objs secs)), s') ∧
    At file hdr s' (sp ++ rest) ∧ blanks sp.
Proof.
  intros Hpos Hat Hok Hmax [Hr1 Hr2]. unfold ParseCrossRefV4, GetKeyword.
  pose proof (GetNextWord_lex file hdr s _ Hat) as H. unfold str_xref_eol in H. rewrite <-!app_assoc in H.
  rewrite lex_word in H; [|by repeat constructor|done|done|done].
  destruct H as (s1 & E1 & Hat1 & Hpos1 & _). rewrite E1. rewrite bool_decide_true by done. cbn [negb].
  assert (Hlen : (length secs <= length file)%nat).
  { pose proof (sections_short secs). destruct Hat as (E & Hp & _). unfold suffix in E.
    replace (0 <=? _) with true in E by lia. apply (f_equal length) in E.
    rewrite length_drop, !length_app in E. lia. }
  assert (Hp1 : 0 <= m_Pos s1).
  { rewrite Hpos1. unfold str_xref_eol. rewrite !zlen_app. pose proof (zlen_nonneg str_xref). lia. }
  destruct (sections_loop secs (S (length file - length secs)) (if skip then None else Some []) s1 [13; 10] rest
    Hok Hat1) as (s2 & sp & E2 & Hat2 & Hsp).
  1: by repeat constructor.
  1,2: destruct skip; cbn [default from_option id]; change (zlen (@nil CrossRefObjData)) with 0; lia.
  replace (length secs + S (length file - length secs))%nat with (S (length file)) in E2 by lia. rewrite E2.
  cbn [xref_loop]. pose proof (GetNextWord_lex file hdr s2 _ Hat2) as H2. rewrite lex_blanks in H2 by done.
  destruct (lex rest) as [[w num] r] eqn:Elex. cbn [fst snd] in Hr1, Hr2. destruct H2 as (s3 & E3 & Hat3 & Hpos3 & _).
  rewrite E3. replace (zlen w =? 0) with false by lia. rewrite Hr1. cbn [negb].
  exists (SetPos file (m_Pos s2) s3), sp. split_and!; [by destruct skip| |done].
  assert (Hne : sp ++ rest ≠ []) by (intros E; apply app_eq_nil in E as [_ ->]; by injection Elex as <- _ _).
  rewrite <-(app_nil_r (sp ++ rest)) in Hat2. pose proof (At_file s2 _ _ Hat2 Hne). rewrite app_nil_r in Hat2.
  pose proof (zlen_nonneg (sp ++ rest)). destruct Hat2 as (E & Hp & Hb), Hat3 as (_ & _ & Hb3).
  unfold SetPos. rewrite Z.min_l by lia. by split_and!.
Qed.
End reading.
