(* ===== verification/XRefTable.v ===== *)
(** * A written cross-reference table is loaded

    The table of the parser after the text of [CPDF_Creator]. *)
From S2P Require Import Prelude Words CharTypes FxNumber Syntax Objects ObjectText ObjectTotal StdMap CrossRef XRef XRefText.

(** ** The loops over object numbers *)
Lemma run_end_spec present m last n : ∀ i,
  i <= last + 1 → last + 1 - i <= Z.of_nat n →
  let j := run_end present n m last i in
  i <= j <= last + 1 ∧ (∀ k, i <= k < j → contains m k = present) ∧
  (j <= last → contains m j = negb present).
Proof.
  induction n as [|n IH]; intros i Hi Hn; cbn [run_end].
  - split_and!; [lia..|]. lia.
  - destruct (Z.leb_spec i last) as [Hle|]; cbn [andb]; [|split_and!; intros; lia].
    destruct (Bool.eqb (contains m i) present) eqn:E.
    + apply eqb_prop in E. destruct (IH (i + 1) ltac:(lia) ltac:(lia)) as (H1 & H2 & H3).
      split_and!; [lia|lia| |done]. intros k Hk. destruct (decide (k = i)) as [->|]; [done|]. apply H2. lia.
    + split_and!; [lia|lia|intros; lia|]. intros _. by destruct (contains m i), present.
Qed.

(** The free entry before the run with object 1. *)
Definition first_free (i : Z) : list CrossRefObjData := if i =? 1 then [ObjData 0 (Info 0 kFree 0)] else [].

(** The runs are the objects, in order and without a gap inside. *)
Lemma xref_runs_spec m last fuel : ∀ i,
  1 <= i → last + 1 - i <= Z.of_nat fuel →
  Forall (λ '(a, b), i <= a < b ∧ b <= last + 1) (xref_runs fuel m last i) ∧
  (∀ k, contains m k = true ∧ i <= k <= last ↔ ∃ a b, (a, b) ∈ xref_runs fuel m last i ∧ a <= k < b) ∧
  foldr (λ ab n, ab.2 - ab.1 + n) 0 (xref_runs fuel m last i) <= Z.max 0 (last + 1 - i) ∧
  foldr (λ ab n, zlen (first_free ab.1) + n) 0 (xref_runs fuel m last i) <= (if i =? 1 then 1 else 0).
Proof.
  induction fuel as [|fuel IH]; intros i Hi Hf; cbn [xref_runs].
  - split_and!; [done| |cbn; lia|cbn; case_match; lia]. intros k. split; [lia|]. intros (a & b & Hin & _). by apply elem_of_nil in Hin.
  - assert (Hnone : ∀ P : Prop, ¬ P → (P ↔ ∃ a b, (a, b) ∈ @nil (Z * Z) ∧ True)).
    { intros P HP. split; [done|]. intros (a & b & Hin & _). by apply elem_of_nil in Hin. }
    destruct (Z.ltb_spec last i).
    { split_and!; [done| |cbn; lia|cbn; case_match; lia]. intros k. split; [lia|]. intros (a & b & Hin & _). by apply elem_of_nil in Hin. }
    destruct (run_end_spec false m last (Z.to_nat (last + 1 - i)) i ltac:(lia) ltac:(lia)) as (H1 & H2 & H3).
    set (a := run_end false _ m last i) in *. destruct (Z.ltb_spec last a).
    { split_and!; [done| |cbn; lia|cbn; case_match; lia]. intros k. split; [|intros (? & ? & Hin & _); by apply elem_of_nil in Hin].
      intros [Hk1 Hk2]. rewrite H2 in Hk1; [done|lia]. }
    specialize (H3 ltac:(lia)). cbn [negb] in H3.
    destruct (run_end_spec true m last (Z.to_nat (last + 1 - a)) a ltac:(lia) ltac:(lia)) as (H4 & H5 & H6).
    set (b := run_end true _ m last a) in *.
    assert (Hab : a < b). { destruct (decide (b = a)) as [E|]; [|lia]. rewrite E, H3 in H6. specialize (H6 ltac:(lia)). done. }
    destruct (IH b ltac:(lia) ltac:(lia)) as (H7 & H8 & H9 & H10). split_and!.
    + constructor; [lia|]. eapply Forall_impl; [exact H7|]. intros [a' b']. lia.
    + intros k. split.
      * intros [Hk1 Hk2]. destruct (Z.lt_ge_cases k a); [rewrite H2 in Hk1; [done|lia]|].
        destruct (Z.lt_ge_cases k b); [exists a, b; split; [by left|lia]|].
        destruct (proj1 (H8 k)) as (a' & b' & Hin & Hk); [by split; [|lia]|]. exists a', b'. split; [by right|done].
      * intros (a' & b' & Hin & Hk). apply elem_of_cons in Hin as [[= -> ->]|Hin]; [split; [apply H5; lia|lia]|].
        destruct (proj2 (H8 k)) as [Hk1 Hk2]; [by exists a', b'|]. split; [done|lia].
    + cbn. lia.
    + cbn [foldr fst]. replace (b =? 1) with false in H10 by lia. unfold first_free at 1.
      destruct (Z.eqb_spec a 1), (Z.eqb_spec i 1); unfold zlen in *; cbn [length] in *; lia.
Qed.

(** ** Loading objects into a table *)
Definition normal_at (n : Z) (l : list CrossRefObjData) : Prop :=
  Exists (λ o, obj_num o = n ∧ type (obj_info o) = kNormal) l.

(** Entries that are free, or in use at the position [f] gives. *)
Definition obj_from (f : Z → option Z) (o : CrossRefObjData) : Prop :=
  0 <= obj_num o < kMaxObjectNumber ∧
  (obj_info o = Info 0 kFree 0 ∨ ∃ p, f (obj_num o) = Some p ∧ obj_info o = Info p kNormal 0).

Definition plain (t : CPDF_CrossRefTable) : Prop :=
  ∀ n i, find n (objects_info_ t) = Some i → gennum i = 0 ∧ (type i = kNormal ∨ type i = kFree).

Lemma find_add_normal_plain n k p t :
  plain t → n < kMaxObjectNumber →
  find k (add_normal n 0 p (objects_info_ t)) = if n =? k then Some (Info p kNormal 0) else find k (objects_info_ t).
Proof.
  intros Hp Hn. unfold add_normal. replace (kMaxObjectNumber <=? n) with false by lia.
  assert (H : gennum (entry n (objects_info_ t)) = 0 ∧
    (type (entry n (objects_info_ t)) = kNormal ∨ type (entry n (objects_info_ t)) = kFree)).
  { unfold entry. destruct (find n (objects_info_ t)) as [i|] eqn:E; cbn; [|by auto]. by apply (Hp n). }
  destruct H as [-> Ht]. change (0 <? 0) with false. cbv iota.
  rewrite bool_decide_false by (by destruct Ht as [-> | ->]). cbn [andb].
  rewrite decide_False by (by destruct Ht as [-> | ->]). rewrite !find_put. by destruct (n =? k).
Qed.

Lemma merge_objs f l : ∀ t, Forall (obj_from f) l → plain t →
  trailer_ (MergeCrossRefObjectsData l t) = trailer_ t ∧ plain (MergeCrossRefObjectsData l t) ∧
  (∀ n, normal_at n l → GetObjectInfo (MergeCrossRefObjectsData l t) n = (λ p, Info p kNormal 0) <$> f n) ∧
  (∀ n, ¬ normal_at n l → GetObjectInfo (MergeCrossRefObjectsData l t) n = GetObjectInfo t n).
Proof.
  unfold MergeCrossRefObjectsData. induction l as [|o l IH]; intros t Hl Ht; cbn [fold_left].
  { split_and!; [done|done| |done]. by intros n ?%Exists_nil. }
  inversion Hl as [|? ? [Hn Ho] Hl']; subst.
  assert (Hcons : ∀ n, normal_at n (o :: l) ↔ (obj_num o = n ∧ type (obj_info o) = kNormal) ∨ normal_at n l).
  { intros n. apply Exists_cons. }
  unfold merge_object at 2 4 6 8. destruct Ho as [Eo|(p & Ep & Eo)]; rewrite Eo in *; cbn [type gennum pos].
  - change (0 <? 0) with false. cbv iota. destruct (IH t Hl' Ht) as (H1 & H2 & H3 & H4).
    split_and!; [done|done|..]; intros n Hnat; rewrite Hcons in Hnat; cbn in Hnat.
    + apply H3. by destruct Hnat as [[_ ?]|].
    + apply H4. tauto.
  - assert (Hpl : plain (AddNormal (obj_num o) 0 p t)).
    { intros n i. cbn [objects_info_ AddNormal with_objects]. rewrite find_add_normal_plain by (done || lia).
      destruct (obj_num o =? n); [intros [= <-]; by auto|apply Ht]. }
    destruct (IH _ Hl' Hpl) as (H1 & H2 & H3 & H4). split_and!; [done|done|..]; intros n Hnat; rewrite Hcons in Hnat; cbn in Hnat.
    + destruct (decide (Exists (λ o, obj_num o = n ∧ type (obj_info o) = kNormal) l)) as [Hd|Hd]; [by apply H3|].
      destruct Hnat as [[<- _]|]; [|done]. rewrite H4 by done. unfold GetObjectInfo. cbn [objects_info_ AddNormal with_objects].
      rewrite find_add_normal_plain by (done || lia). by rewrite Z.eqb_refl, Ep.
    + rewrite H4 by tauto. unfold GetObjectInfo. cbn [objects_info_ AddNormal with_objects].
      rewrite find_add_normal_plain by (done || lia). destruct (Z.eqb_spec (obj_num o) n); [|done]. exfalso. apply Hnat. auto.
Qed.

(** ** What is written *)
Definition in_use (o : Z) : ObjectInfo := Info o kNormal 0.
Definition run_section (m : std_map Z) (run : Z * Z) : section :=
  let '(i, j) := run in
  let offs := offsets m (seqZ i (j - i)) in
  if i =? 1 then Section_ 0 (free_entry :: map xref_entry offs) (Info 0 kFree 0 :: map in_use offs)
  else Section_ i (map xref_entry offs) (map in_use offs).

Definition written_sections (m : std_map Z) (last : Z) : list section :=
  (if contains m 1 then [] else [Section_ 0 [free_entry] [Info 0 kFree 0]]) ++
  map (run_section m) (xref_runs (S (Z.to_nat last)) m last 1).

Lemma zlen_offsets m i j (es : list Z → list (list Z)) :
  i <= j → zlen (map xref_entry (offsets m (seqZ i (j - i)))) = j - i.
Proof. intros. unfold offsets, zlen. rewrite !length_map, length_seqZ. lia. Qed.

Lemma run_text_section m i j : i <= j → run_text m (i, j) = section_text (run_section m (i, j)).
Proof.
  intros Hij. unfold run_text, run_section, section_text. destruct (Z.eqb_spec i 1); cbn [sec_start sec_entries].
  - subst. rewrite zlen_cons, (zlen_offsets m 1 j (λ _, [])) by done. do 2 f_equal. lia.
  - by rewrite (zlen_offsets m i j (λ _, [])).
Qed.

Lemma objs_run m i n :
  0 <= i → i + n < 2 ^ 32 →
  objs i (map in_use (offsets m (seqZ i n))) = map (λ k, ObjData k (in_use (default 0 (find k m)))) (seqZ i n).
Proof.
  intros Hi Hn. apply list_eq. intros k. unfold objs, offsets. rewrite list_lookup_imap.
  change (@map ?A ?B) with (@fmap list list_fmap A B). rewrite !list_lookup_fmap.
  destruct (seqZ i n !! k) as [x|] eqn:E; [|done]. cbn. apply lookup_seqZ in E as [-> Hk].
  unfold compose. rewrite Z.mod_small by lia. done.
Qed.

Lemma run_objs m i j :
  1 <= i <= j → j < 2 ^ 32 →
  section_objs (run_section m (i, j)) =
    first_free i ++ map (λ k, ObjData k (in_use (default 0 (find k m)))) (seqZ i (j - i)).
Proof.
  intros Hi Hj. unfold section_objs, run_section, first_free. destruct (Z.eqb_spec i 1); cbn [sec_start sec_infos].
  - subst. change (objs 0 (?x :: ?l)) with (objs 0 ([x] ++ l)). rewrite objs_app. f_equal. by apply objs_run; lia.
  - apply objs_run; lia.
Qed.

Section written.
Context (m : std_map Z) (last : Z).
Hypothesis Hlast : 0 <= last < kMaxXRefSize - 1.
Hypothesis Hoffs : ∀ n o, 1 <= n <= last → find n m = Some o → 0 <= o < 2 ^ 31.

Definition loaded (n : Z) : option Z := if (1 <=? n) && (n <=? last) then find n m else None.

Lemma runs_facts :
  let runs := xref_runs (S (Z.to_nat last)) m last 1 in
  Forall (λ '(a, b), 1 <= a < b ∧ b <= last + 1) runs ∧
  (∀ k, contains m k = true ∧ 1 <= k <= last ↔ ∃ a b, (a, b) ∈ runs ∧ a <= k < b) ∧
  foldr (λ ab n, ab.2 - ab.1 + n) 0 runs <= last ∧ foldr (λ ab n, zlen (first_free ab.1) + n) 0 runs <= 1.
Proof.
  destruct (xref_runs_spec m last (S (Z.to_nat last)) 1 ltac:(lia) ltac:(lia)) as (H1 & H2 & H3 & H4).
  split_and!; [done|done|lia|done].
Qed.

Lemma written_text : WriteXrefsNotIncremental m last = str_xref_eol ++ flat_map section_text (written_sections m last).
Proof.
  unfold WriteXrefsNotIncremental, written_sections. f_equal. rewrite flat_map_app. f_equal; [by destruct (contains m 1)|].
  destruct runs_facts as [H _]. induction H as [|[i j] runs Hij _ IH]; [done|].
  cbn [flat_map map]. by rewrite run_text_section, IH by lia.
Qed.

Lemma contains_find n : contains m n = true ↔ is_Some (find n m).
Proof. unfold contains. destruct (find n m); split; [by eexists|done|done|by intros [? ?]]. Qed.

(** A number of a run has an offset that fits. *)
Lemma run_offset a b k :
  (a, b) ∈ xref_runs (S (Z.to_nat last)) m last 1 → a <= k < b → ∃ o, find k m = Some o ∧ 0 <= o < 2 ^ 31 ∧ loaded k = Some o.
Proof.
  intros Hin Hk. destruct runs_facts as (_ & H2 & _). destruct (proj2 (H2 k)) as [Hc Hr]; [by exists a, b|].
  apply contains_find in Hc as [o Ho]. exists o. split_and!; [done|by eapply Hoffs|by eapply Hoffs|].
  unfold loaded. by replace ((1 <=? k) && (k <=? last)) with true by lia.
Qed.

Lemma written_ok : Forall section_ok (written_sections m last).
Proof.
  unfold written_sections. apply Forall_app. split.
  - destruct (contains m 1); [done|]. apply Forall_singleton. split_and!; [|done|done|done].
    constructor; [exact free_entry_ok|constructor].
  - apply List.Forall_map, Forall_forall. intros [i j] Hin. destruct runs_facts as (H1 & _ & _).
    rewrite Forall_forall in H1. specialize (H1 _ Hin). cbn in H1. unfold kMaxXRefSize in Hlast.
    assert (He : Forall2 entry_ok (map xref_entry (offsets m (seqZ i (j - i)))) (map in_use (offsets m (seqZ i (j - i))))).
    { apply Forall2_fmap, Forall2_same_length_lookup_2; [done|]. intros n x y Hx Hy. rewrite Hx in Hy. injection Hy as <-.
      unfold offsets in Hx. apply list_lookup_fmap_Some in Hx as (k & -> & Hk). apply lookup_seqZ in Hk as [-> Hk].
      destruct (run_offset i j (i + Z.of_nat n) Hin ltac:(lia)) as (o & -> & Ho & _). by apply xref_entry_ok. }
    unfold section_ok, run_section. destruct (i =? 1); cbn [sec_entries sec_infos sec_start]; unfold kMaxObjectNumber.
    + split_and!; [|done|done|done]. constructor; [exact free_entry_ok|exact He].
    + split_and!; [exact He| |lia|lia]. rewrite seqZ_cons by lia. done.
Qed.

(** The objects that are read. *)
Lemma written_objs_eq :
  flat_map section_objs (written_sections m last) =
  (if contains m 1 then [] else [ObjData 0 (Info 0 kFree 0)]) ++
  flat_map (λ ab, first_free ab.1 ++ map (λ k, ObjData k (in_use (default 0 (find k m)))) (seqZ ab.1 (ab.2 - ab.1)))
    (xref_runs (S (Z.to_nat last)) m last 1).
Proof.
  unfold written_sections. rewrite flat_map_app. f_equal; [by destruct (contains m 1)|].
  destruct runs_facts as [H _]. unfold kMaxXRefSize in Hlast. induction H as [|[a b] runs Hab _ IH]; [done|].
  cbn [map flat_map fst snd]. by rewrite run_objs, IH by lia.
Qed.

Lemma written_length : zlen (flat_map section_objs (written_sections m last)) <= kMaxXRefSize.
Proof.
  rewrite written_objs_eq, zlen_app. destruct runs_facts as (H1 & _ & H3 & H4).
  set (runs := xref_runs _ m last 1) in *.
  assert (H : ∀ g : Z → CrossRefObjData, zlen (flat_map (λ ab, first_free ab.1 ++ map g (seqZ ab.1 (ab.2 - ab.1))) runs) =
    foldr (λ ab n, ab.2 - ab.1 + n) 0 runs + foldr (λ ab n, zlen (first_free ab.1) + n) 0 runs).
  { intros g. clear -H1. induction H1 as [|[a b] runs Hab _ IH]; [done|]. cbn [flat_map foldr fst snd].
    rewrite !zlen_app, IH. unfold zlen at 2. rewrite length_map, length_seqZ. lia. }
  rewrite H. assert (zlen (if contains m 1 then [] else [ObjData 0 (Info 0 kFree 0)]) <= 1) by (by destruct (contains m 1)). lia.
Qed.

Lemma written_objs :
  Forall (obj_from loaded) (flat_map section_objs (written_sections m last)) ∧
  ∀ n, normal_at n (flat_map section_objs (written_sections m last)) ↔ is_Some (loaded n).
Proof.
  rewrite written_objs_eq. destruct runs_facts as (H1 & H2 & _). rewrite Forall_forall in H1.
  set (g k := ObjData k (in_use (default 0 (find k m)))).
  assert (Hin : ∀ ab o, ab ∈ xref_runs (S (Z.to_nat last)) m last 1 → o ∈ first_free ab.1 ++ map g (seqZ ab.1 (ab.2 - ab.1)) →
    o = ObjData 0 (Info 0 kFree 0) ∨ ∃ k p, 1 <= k <= last ∧ loaded k = Some p ∧ o = ObjData k (in_use p)).
  { intros [a b] o Hab Ho. apply elem_of_app in Ho as [Ho|Ho].
    - left. unfold first_free in Ho. destruct (_ =? 1); [by apply list_elem_of_singleton in Ho|by apply elem_of_nil in Ho].
    - right. apply list_elem_of_fmap in Ho as (k & -> & Hk). apply elem_of_seqZ in Hk. cbn in Hk.
      destruct (run_offset a b k Hab ltac:(lia)) as (p & Ep & Hp & El). exists k, p.
      specialize (H1 _ Hab). cbn in H1. unfold g. rewrite Ep. split_and!; [lia|lia|done|done]. }
  split.
  - apply Forall_app. split; [destruct (contains m 1); [done|apply Forall_singleton; split; [done|by left]]|].
    apply Forall_forall. intros o Ho. apply list_elem_of_In, in_flat_map in Ho as (ab & Hab & Ho).
    apply list_elem_of_In in Hab, Ho. destruct (Hin ab o Hab Ho) as [->|(k & p & Hk & El & ->)].
    + split; [done|by left].
    + split; [unfold kMaxObjectNumber, kMaxXRefSize in *; cbn [obj_num]; lia|]. right. by exists p.
  - intros n. unfold normal_at. rewrite Exists_exists. split.
    + intros (o & Ho & <- & Ht). apply elem_of_app in Ho as [Ho|Ho].
      { destruct (contains m 1); [by apply elem_of_nil in Ho|]. by apply list_elem_of_singleton in Ho as ->. }
      apply list_elem_of_In, in_flat_map in Ho as (ab & Hab & Ho). apply list_elem_of_In in Hab, Ho.
      destruct (Hin ab o Hab Ho) as [->|(k & p & Hk & El & ->)]; [done|]. cbn [obj_num]. by rewrite El.
    + intros [p Ep]. unfold loaded in Ep. destruct ((1 <=? n) && (n <=? last)) eqn:En; [|done].
      destruct (proj1 (H2 n)) as (a & b & Hab & Hn); [split; [apply contains_find; by eexists|lia]|].
      exists (g n). split; [|by unfold g]. apply elem_of_app. right. apply list_elem_of_In, in_flat_map.
      exists (a, b). rewrite <-!list_elem_of_In. split; [done|]. apply elem_of_app. right.
      apply list_elem_of_fmap. exists n. split; [done|]. apply elem_of_seqZ. cbn. lia.
Qed.
End written.

Section parsed.
Context (file : list Z) (hdr : Z) (Hhdr : 0 <= hdr).

Lemma written_parse m last s rest (skip : bool) :
  0 <= last < kMaxXRefSize - 1 → (∀ n o, 1 <= n <= last → find n m = Some o → 0 <= o < 2 ^ 31) →
  0 <= m_Pos s → At file hdr s (WriteXrefsNotIncremental m last ++ rest) → is_word rest →
  ∃ s' sp, ParseCrossRefV4 file hdr skip s =
      Some (Some (if skip then None else Some (flat_map section_objs (written_sections m last))), s') ∧
    At file hdr s' (sp ++ rest) ∧ blanks sp.
Proof.
  intros Hlast Hoffs Hpos Hat Hr. rewrite written_text in Hat by done. rewrite <-app_assoc in Hat.
  apply (sections_parse file hdr Hhdr s _ rest skip Hpos Hat); [by apply written_ok|by apply written_length|done].
Qed.

Lemma written_table m last t n :
  0 <= last < kMaxXRefSize - 1 → (∀ n o, 1 <= n <= last → find n m = Some o → 0 <= o < 2 ^ 31) → plain t →
  let t' := MergeCrossRefObjectsData (flat_map section_objs (written_sections m last)) t in
  plain t' ∧ trailer_ t' = trailer_ t ∧
  GetObjectInfo t' n = match loaded m last n with Some p => Some (in_use p) | None => GetObjectInfo t n end.
Proof.
  intros Hlast Hoffs Ht. destruct (written_objs m last Hlast Hoffs) as [Ho Hn].
  destruct (merge_objs _ _ t Ho Ht) as (H1 & H2 & H3 & H4). split_and!; [done|done|].
  specialize (Hn n). destruct (loaded m last n) as [p|] eqn:E.
  - rewrite H3 by (by apply Hn; eexists). by rewrite E.
  - apply H4. intros Hnat. apply Hn in Hnat as [? ?]. done.
Qed.
End parsed.

(** C17: the cross-reference table that [CPDF_Creator] writes is the one that
    [CPDF_Parser] reads: the section parses, with what follows it still to be
    read, and a fresh table then holds the objects written, each in use with
    generation 0 at its offset, and no others.  Offsets are below [2 ^ 31], and
    the numbers below the limit on the size of a table. *)
Theorem xref_roundtrip file hdr m last s rest :
  0 <= hdr → 0 <= last < kMaxXRefSize - 1 →
  (∀ n o, 1 <= n <= last → find n m = Some o → 0 <= o < 2 ^ 31) →
  0 <= m_Pos s → At file hdr s (WriteXrefsNotIncremental m last ++ rest) → is_word rest →
  ∃ objects s' sp, ParseCrossRefV4 file hdr false s = Some (Some (Some objects), s') ∧
    At file hdr s' (sp ++ rest) ∧ blanks sp ∧
    ∀ n, GetObjectInfo (MergeCrossRefObjectsData objects table_new) n =
         if (1 <=? n) && (n <=? last) then (λ o, Info o kNormal 0) <$> find n m else None.
Proof.
  intros Hhdr Hlast Hoffs Hpos Hat Hr.
  destruct (written_parse file hdr Hhdr m last s rest false Hlast Hoffs Hpos Hat Hr) as (s' & sp & E & Hat' & Hsp).
  exists (flat_map section_objs (written_sections m last)), s', sp. split_and!; [done..|].
  intros n. destruct (written_table m last table_new n Hlast Hoffs) as (_ & _ & ->); [done|].
  unfold loaded. destruct (_ && _); [|done]. by destruct (find n m).
Qed.

Definition xref_example : list Z := WriteXrefsNotIncremental [(1, 15); (2, 80); (7, 99)] 7 ++ [116].

Lemma xref_roundtrip_witness :
  zlen xref_example = 97 ∧
  ∃ objects s' sp, ParseCrossRefV4 xref_example 0 false syntax_new = Some (Some (Some objects), s') ∧
    At xref_example 0 s' (sp ++ [116]) ∧ blanks sp ∧
    ∀ n, GetObjectInfo (MergeCrossRefObjectsData objects table_new) n =
         if (1 <=? n) && (n <=? 7) then (λ o, Info o kNormal 0) <$> find n [(1, 15); (2, 80); (7, 99)] else None.
Proof.
  split; [vm_compute; reflexivity|]. apply (xref_roundtrip xref_example 0 [(1, 15); (2, 80); (7, 99)] 7 syntax_new [116]).
  - lia.
  - unfold kMaxXRefSize. lia.
  - intros n o _ E. cbn [find] in E. repeat (destruct (_ =? n); [injection E as <-; lia|]). done.
  - discriminate.
  - split_and!; [vm_compute; reflexivity|vm_compute; discriminate|reflexivity].
  - split; [reflexivity|vm_compute; discriminate].
Defined.
