(* ===== verification/DataDecode.v ===== *)
(** * Decoding the data of a stream

    [PDF_DataDecode] and [GetDecoderArray]
    ([core/fpdfapi/parser/fpdf_parser_decode.cpp]), [FlateOrLZWDecode] and
    [FlateUncompress] ([core/fxcodec/flate/flatemodule.cpp]), and the loading of
    a stream by [CPDF_StreamAcc].  zlib is an interface. *)
From Stdlib Require Import String.
From S2P Require Import Prelude CharTypes Filters BasicModule Flate Lzw FxNumber Objects Dict Security.
Import String.StringSyntax.

(** ** zlib

    [inflate] gives out the bytes of a source in order, as many as fit, so that
    a call is told by how much was given out before: [inflate_ok src p n] is
    whether the call for [n] bytes after the first [p] returns [Z_OK].  It
    returns something else only when there is nothing left. *)
Class Inflate := {
  inflate_all : list Z → list Z;
  inflate_ok : list Z → Z → Z → bool;
  inflate_in : list Z → Z;
}.

Class InflateLaws `{Inflate} := {
  inflate_ends src p n : 0 <= p → 0 < n → inflate_ok src p n = false → zlen (inflate_all src) <= p + n;
  inflate_nothing : inflate_all [] = [] ∧ inflate_ok [] 0 0 = false;
}.

Section decode.
Context `{Inflate}.

Definition kMaxTotalOutSize : Z := 1024 * 1024 * 1024.
Definition kMaxInitialAllocSize : Z := 10000000.

(** [FlateOutput]: what is written, [avail_out] and whether it returns [Z_OK].
    It zeroes the rest of the buffer, which is not read. *)
Definition FlateOutput (src : list Z) (total_out dest_size : Z) : list Z * Z * bool :=
  let written := take (Z.to_nat dest_size) (drop (Z.to_nat total_out) (inflate_all src)) in
  (written, dest_size - zlen written, inflate_ok src total_out dest_size).

(** The loop: [result_tmp_bufs], each with what it holds, and the final [total_out]. *)
Fixpoint flate_loop (fuel : nat) (src : list Z) (total_out buf_size : Z) : option (list (list Z) * Z) :=
  match fuel with
  | O => None
  | S fuel' =>
      let '(cur_buf, avail, ok) := FlateOutput src total_out buf_size in
      let total_out := total_out + zlen cur_buf in
      if negb ok || negb (avail =? 0) then Some ([cur_buf], total_out)
      else '(bufs, total_out) ← flate_loop fuel' src total_out buf_size; Some (cur_buf :: bufs, total_out)
  end.

(** The copying of the pieces, [remaining] bytes at most. *)
Fixpoint flate_copy (bufs : list (list Z)) (remaining : Z) : list Z :=
  match bufs with
  | [] => []
  | tmp_buf :: bufs' =>
      let cp_size := Z.min (zlen tmp_buf) remaining in
      take (Z.to_nat cp_size) tmp_buf ++ flate_copy bufs' (remaining - cp_size)
  end.

(** The bytes in [*dest_buf] and [*offset]; [None] when the fuel is not enough. *)
Definition FlateUncompress (src_buf : list Z) (orig_size : Z) : option (list Z * Z) :=
  let guess_size := if orig_size =? 0 then u32 (zlen src_buf * 2) else orig_size in
  let guess_size := Z.min guess_size kMaxInitialAllocSize in
  '(bufs, total_out) ← flate_loop (S (length (inflate_all src_buf))) src_buf 0 guess_size;
  let dest_size := Z.min (Z.min total_out (2 ^ 32 - 1)) kMaxTotalOutSize in
  let offset := Z.min (inflate_in src_buf) (2 ^ 32 - 1) in
  match bufs with
  | [buf] => Some (take (Z.to_nat dest_size) buf, offset)
  | _ => Some (flate_copy bufs dest_size, offset)
  end.

(** ** FlateDecode and LZWDecode *)
(** [FlateModule::FlateOrLZWDecode]: the bytes, or [None] for [FX_INVALID_OFFSET]. *)
Definition flate_or_lzw (bLZW : bool) (src : list Z) (bEarlyChange : bool)
    (predictor Colors BitsPerComponent Columns estimated_size : Z) : option (list Z) :=
  dest ← (if bLZW then
            match Decode (lzw_fuel src) src bEarlyChange with
            | Some (Some (_, dest)) => Some dest
            | _ => None
            end
          else fst <$> FlateUncompress src estimated_size);
  match GetPredictor predictor with
  | kNone => Some dest
  | kPng => PNG_Predictor Colors BitsPerComponent Columns dest
  | kFlate => TIFF_Predictor Colors BitsPerComponent Columns dest
  end.

(** [FX_SAFE_INT32]: a product that does not fit is not valid. *)
Definition CheckFlateDecodeParams (Colors BitsPerComponent Columns : Z) : bool :=
  if (Colors <? 0) || (BitsPerComponent <? 0) || (Columns <? 0) then false
  else
    let check := Columns * Colors in
    (check <=? INT_MAX) && (check * BitsPerComponent <=? INT_MAX) && (check * BitsPerComponent <=? INT_MAX - 7).

Context (holder : Z → option CPDF_Object).

Definition FlateOrLZWDecode (bLZW : bool) (src : list Z) (pParams : option dict) (estimated_size : Z) :
    option (list Z) :=
  match pParams with
  | None => flate_or_lzw bLZW src true 0 0 0 0 estimated_size
  | Some d =>
      let predictor := GetIntegerFor holder d (bs "Predictor") 0 in
      let bEarlyChange := negb (GetIntegerFor holder d (bs "EarlyChange") 1 =? 0) in
      let Colors := GetIntegerFor holder d (bs "Colors") 1 in
      let BitsPerComponent := GetIntegerFor holder d (bs "BitsPerComponent") 8 in
      let Columns := GetIntegerFor holder d (bs "Columns") 1 in
      if CheckFlateDecodeParams Colors BitsPerComponent Columns
      then flate_or_lzw bLZW src bEarlyChange predictor Colors BitsPerComponent Columns estimated_size
      else None
  end.

(** ** The pipeline *)
Definition is_name (o : CPDF_Object) : bool := match o with CPDF_Name _ => true | _ => false end.
Definition kValidDecoders : list (list Z) :=
  map bs ["FlateDecode"; "Fl"; "LZWDecode"; "LZW"; "ASCII85Decode"; "A85"; "ASCIIHexDecode"; "AHx";
          "RunLengthDecode"; "RL"]%string.

(** An element that is a reference is not a name. *)
Definition ValidateDecoderPipeline (pDecoders : list CPDF_Object) : bool :=
  let count := length pDecoders in
  forallb is_name pDecoders &&
  forallb (λ i, bool_decide (GetStringAt holder pDecoders i ∈ kValidDecoders)) (seq 0 (count - 1)).

Definition GetDict (o : CPDF_Object) : option dict :=
  match o with
  | CPDF_Dictionary d => Some d
  | CPDF_Stream d _ => Some d
  | _ => None
  end.
Definition GetDictAt (l : list CPDF_Object) (index : nat) : option dict :=
  o ← l !! index; o ← GetDirect holder o; GetDict o.

Definition DecoderArray := list (list Z * option dict).
Definition GetDecoderArray (pDict : dict) : option DecoderArray :=
  match GetDirectObjectFor holder pDict (bs "Filter") with
  | None => Some []
  | Some (CPDF_Array pDecoders) =>
      if ValidateDecoderPipeline pDecoders then
        let pParamsArray :=
          match GetDirectObjectFor holder pDict (bs "DecodeParms") with Some (CPDF_Array l) => Some l | _ => None end in
        Some (map (λ i, (GetStringAt holder pDecoders i, l ← pParamsArray; GetDictAt l i)) (seq 0 (length pDecoders)))
      else None
  | Some (CPDF_Name s) =>
      Some [(s, o ← GetDirectObjectFor holder pDict (bs "DecodeParms"); GetDict o)]
  | Some _ => None
  end.

(** What one filter gives: a buffer, which is [nullptr] ([None]) when the
    decoder returned before it allocated one, or [FX_INVALID_OFFSET]. *)
Definition a85_buf (src : list Z) : option (option (list Z)) :=
  match A85Decode src with
  | None => None
  | Some (_, out) => Some (if (zlen src =? 0) || ((a85_count src 0 0).2 =? 0) then None else Some out)
  end.
Definition hex_buf (src : list Z) : option (option (list Z)) :=
  Some (if zlen src =? 0 then None else Some (HexDecode src).2).
Definition rl_buf (src : list Z) : option (option (list Z)) :=
  match RunLengthDecode src with Some (_, out) => Some (Some out) | None => None end.

Record decoded := Decoded {
  dest_buf : option (list Z);
  dest_size : Z;
  ImageEncoding : list Z;
  pImageParams : option dict;
}.

Definition is_filter (decoder : list Z) (long short : String.string) : bool :=
  bool_decide (decoder = bs long) || bool_decide (decoder = bs short).

(** The loop over the filters: [result] is the buffer of the last one and
    [last_span] its bytes; [None] where it returns false. *)
Fixpoint data_decode (bImageAcc : bool) (last_estimated_size : Z) (arr : DecoderArray)
    (result : option (list Z)) (last_span : list Z) : option decoded :=
  match arr with
  | [] => Some (Decoded result (zlen last_span) [] None)
  | (decoder, pParam) :: arr' =>
      let last := match arr' with [] => true | _ => false end in
      let estimated_size := if last then last_estimated_size else 0 in
      let next (r : option (option (list Z))) :=
        match r with
        | None => None
        | Some new_buf => data_decode bImageAcc last_estimated_size arr' new_buf (default [] new_buf)
        end in
      let image (name : list Z) := Some (Decoded result (zlen last_span) name pParam) in
      if bool_decide (decoder = bs "Crypt") then data_decode bImageAcc last_estimated_size arr' result last_span
      else if is_filter decoder "FlateDecode" "Fl" then
        if bImageAcc && last then image (bs "FlateDecode")
        else next (Some <$> FlateOrLZWDecode false last_span pParam estimated_size)
      else if is_filter decoder "LZWDecode" "LZW" then
        next (Some <$> FlateOrLZWDecode true last_span pParam estimated_size)
      else if is_filter decoder "ASCII85Decode" "A85" then next (a85_buf last_span)
      else if is_filter decoder "ASCIIHexDecode" "AHx" then next (hex_buf last_span)
      else if is_filter decoder "RunLengthDecode" "RL" then
        if bImageAcc && last then image (bs "RunLengthDecode") else next (rl_buf last_span)
      else if bool_decide (decoder = bs "DCT") then image (bs "DCTDecode")
      else if bool_decide (decoder = bs "CCF") then image (bs "CCITTFaxDecode")
      else image decoder
  end.

Definition PDF_DataDecode (src_span : list Z) (last_estimated_size : Z) (bImageAcc : bool) (arr : DecoderArray) :
    option decoded :=
  data_decode bImageAcc last_estimated_size arr None src_span.

(** ** [CPDF_StreamAcc] *)
Record stream_acc := StreamAcc { m_pData : list Z; m_ImageDecoder : list Z; m_pImageParam : option dict }.

Definition ProcessFilteredData (d : dict) (data : list Z) (estimated_size : Z) (bImageAcc : bool) : stream_acc :=
  if zlen data =? 0 then StreamAcc [] [] None
  else
    match GetDecoderArray d with
    | None | Some [] => StreamAcc data [] None
    | Some arr =>
        match PDF_DataDecode data estimated_size bImageAcc arr with
        | None => StreamAcc data [] None
        | Some r => StreamAcc (default data (dest_buf r)) (ImageEncoding r) (pImageParams r)
        end
    end.

Definition LoadAllData (d : dict) (data : list Z) (bRawAccess : bool) (estimated_size : Z) (bImageAcc : bool) : stream_acc :=
  if bRawAccess || negb (KeyExist d (bs "Filter")) then StreamAcc data [] None
  else ProcessFilteredData d data estimated_size bImageAcc.

Definition LoadAllDataFiltered (d : dict) (data : list Z) : list Z := m_pData (LoadAllData d data false 0 false).
End decode.
