(* ===== verification/DataPipeline.v ===== *)
(** * What the decoding of streams gives

    The size guess of [FlateUncompress] is not seen, and a stream encoded by the
    encoders of the library is decoded by the pipeline of its filters. *)
From Stdlib Require Import String.
From S2P Require Import Prelude CharTypes Filters BasicModule Flate Lzw FxNumber Objects Dict Security DataDecode.
Import String.StringSyntax.

(** ** Inflating *)
Section inflating.
Context `{InflateLaws}.

Lemma zlen_take_drop {A} (l : list A) p n :
  0 <= p → 0 <= n → zlen (take (Z.to_nat n) (drop (Z.to_nat p) l)) = Z.max 0 (Z.min n (zlen l - p)).
Proof. intros. unfold zlen. rewrite length_take, length_drop. lia. Qed.

Lemma flate_loop_spec fuel : ∀ src p n,
  0 <= p <= zlen (inflate_all src) → 0 < n → zlen (inflate_all src) - p < Z.of_nat fuel →
  ∃ bufs, flate_loop fuel src p n = Some (bufs, zlen (inflate_all src)) ∧
    concat bufs = drop (Z.to_nat p) (inflate_all src) ∧ bufs ≠ [].
Proof.
  induction fuel as [|fuel IH]; intros src p n Hp Hn Hf; [lia|]. cbn [flate_loop]. unfold FlateOutput.
  set (cur := take (Z.to_nat n) (drop (Z.to_nat p) (inflate_all src))).
  assert (Hcur : zlen cur = Z.max 0 (Z.min n (zlen (inflate_all src) - p))) by (apply zlen_take_drop; lia).
  destruct (negb (inflate_ok src p n) || negb (n - zlen cur =? 0)) eqn:E.
  - (* nothing is left *)
    assert (Hall : zlen (inflate_all src) <= p + n).
    { apply orb_true_iff in E as [E|E]; [|lia].
      apply (inflate_ends src p n); [lia|done|by destruct (inflate_ok src p n)]. }
    exists [cur]. split_and!; [do 2 f_equal; lia| |done]. cbn [concat]. rewrite app_nil_r.
    apply take_ge. rewrite length_drop. unfold zlen in Hall. lia.
  - assert (Hfull : zlen cur = n) by lia.
    destruct (IH src (p + zlen cur) n) as (bufs & -> & Hc & _); [lia|lia|lia|]. cbn [mbind option_bind].
    exists (cur :: bufs). split_and!; [done| |done]. cbn [concat]. rewrite Hc.
    rewrite Z2Nat.inj_add by lia. rewrite <-drop_drop. rewrite Hfull. unfold cur. apply take_drop.
Qed.

Lemma flate_copy_concat bufs : ∀ n, 0 <= n → flate_copy bufs n = take (Z.to_nat n) (concat bufs).
Proof.
  induction bufs as [|b bufs IH]; intros n Hn; cbn [flate_copy concat]; [by rewrite take_nil|].
  rewrite take_app. pose proof (zlen_nonneg b). f_equal.
  - destruct (Z.le_gt_cases n (zlen b)); [by rewrite Z.min_r by done|].
    rewrite Z.min_l by lia. rewrite !take_ge; [done|unfold zlen in *; lia|unfold zlen; lia].
  - rewrite IH by lia. f_equal. unfold zlen in *. lia.
Qed.

Lemma FlateUncompress_spec src orig :
  0 <= orig → zlen src < 2 ^ 31 →
  FlateUncompress src orig = Some (take (Z.to_nat kMaxTotalOutSize) (inflate_all src), Z.min (inflate_in src) (2 ^ 32 - 1)).
Proof.
  intros Ho Hs. unfold FlateUncompress. cbv zeta. set (guess := Z.min _ kMaxInitialAllocSize). pose proof (zlen_nonneg src).
  assert (Hg : guess = Z.min (if orig =? 0 then zlen src * 2 else orig) kMaxInitialAllocSize)
    by (unfold guess; by rewrite Z.mod_small by lia). clearbody guess. unfold kMaxInitialAllocSize in Hg.
  pose proof inflate_nothing as [Hnil Hnok]. pose proof (zlen_nonneg (inflate_all src)) as Hall.
  assert (E : ∃ bufs, flate_loop (S (length (inflate_all src))) src 0 guess = Some (bufs, zlen (inflate_all src)) ∧
    concat bufs = inflate_all src ∧ bufs ≠ []).
  { destruct (decide (guess = 0)) as [Eg|Eg].
    - assert (src = []) as ->.
      { destruct (Z.eqb_spec orig 0); [|lia]. apply length_zero_iff_nil. unfold zlen in *. lia. }
      rewrite Eg, Hnil. cbn [flate_loop length]. unfold FlateOutput. rewrite Hnil, Hnok. cbn. by exists [[]].
    - destruct (flate_loop_spec (S (length (inflate_all src))) src 0 guess) as (bufs & E1 & E2 & E3).
      + lia.
      + destruct (Z.eqb_spec orig 0); lia.
      + unfold zlen. lia.
      + exists bufs. by rewrite drop_0 in E2. }
  destruct E as (bufs & -> & Hc & Hne). cbn [mbind option_bind].
  set (dest := Z.min (Z.min (zlen (inflate_all src)) (2 ^ 32 - 1)) kMaxTotalOutSize).
  assert (Ht : take (Z.to_nat dest) (inflate_all src) = take (Z.to_nat kMaxTotalOutSize) (inflate_all src)).
  { unfold dest, kMaxTotalOutSize in *. destruct (Z.le_gt_cases (zlen (inflate_all src)) (1024 * 1024 * 1024)).
    - rewrite !take_ge; [exact eq_refl|unfold zlen in *; lia|unfold zlen in *; lia].
    - f_equal. lia. }
  assert (Hd : 0 <= dest) by (unfold dest, kMaxTotalOutSize; lia).
  destruct bufs as [|b [|b' bufs]]; [destruct (Hne eq_refl)| |].
  - cbn [concat] in Hc. rewrite app_nil_r in Hc. rewrite Hc, Ht. exact eq_refl.
  - rewrite flate_copy_concat by exact Hd. rewrite Hc, Ht. exact eq_refl.
Qed.
End inflating.

(** C21: whatever size is expected of the result, [FlateUncompress] ends and gives
    all that zlib inflates, up to the limit of one gigabyte: the pieces of a
    wrong guess are put together as if they had been one. *)
Theorem flate_uncompress_exact `{InflateLaws} src orig_size :
  0 <= orig_size → zlen src < 2 ^ 31 →
  FlateUncompress src orig_size =
    Some (take (Z.to_nat kMaxTotalOutSize) (inflate_all src), Z.min (inflate_in src) (2 ^ 32 - 1)).
Proof. apply FlateUncompress_spec. Qed.

(** A source of blocks: every byte stands for that many zeros. *)
Definition zeros_inflate : Inflate := {|
  inflate_all src := flat_map (λ n, replicate (Z.to_nat n) 0) src;
  inflate_ok src p n := p + n <? zlen (flat_map (λ n, replicate (Z.to_nat n) 0) src);
  inflate_in src := zlen src;
|}.

Lemma zeros_laws : @InflateLaws zeros_inflate.
Proof.
  split; [|done]. intros src p n _ _ Hok. cbn in *. apply Z.ltb_ge in Hok. exact Hok.
Qed.

Lemma flate_uncompress_exact_witness :
  (* in pieces of two *)
  @flate_loop zeros_inflate 6 [3; 2] 0 2 = Some ([[0; 0]; [0; 0]; [0]], 5) ∧
  @FlateUncompress zeros_inflate [3; 2] 2 =
    Some (take (Z.to_nat kMaxTotalOutSize) (@inflate_all zeros_inflate [3; 2]), Z.min (@inflate_in zeros_inflate [3; 2]) (2 ^ 32 - 1)).
Proof.
  split; [reflexivity|]. apply (@flate_uncompress_exact zeros_inflate zeros_laws [3; 2] 2); [lia|reflexivity].
Defined.

(** ** The pipeline *)
Inductive filter := ASCII85 | RunLength.
Definition encode (f : filter) : list Z → option (list Z) :=
  match f with ASCII85 => A85Encode | RunLength => RunLengthEncode end.
Definition filter_names (f : filter) : list (list Z) :=
  match f with
  | ASCII85 => [bs "ASCII85Decode"; bs "A85"]
  | RunLength => [bs "RunLengthDecode"; bs "RL"]
  end.

(** [encoded data names out]: [out] is [data], encoded for the filters [names] in
    the order in which they are applied when it is decoded; each encoder is given
    fewer than 2^24 bytes. *)
Inductive encoded (data : list Z) : list (list Z) → list Z → Prop :=
  | encoded_nil : encoded data [] data
  | encoded_cons f name names mid out :
      encoded data names mid → name ∈ filter_names f → bytes mid → zlen mid < 2 ^ 24 →
      encode f mid = Some out → encoded data (name :: names) out.

Section pipeline.
Context `{Inflate} (holder : Z → option CPDF_Object).

Lemma encoded_decode data names out : encoded data names out → ∀ result,
  (names = [] → result = Some data) →
  data_decode holder false 0 (map (λ n, (n, None)) names) result out = Some (Decoded (Some data) (zlen data) [] None).
Proof.
  induction 1 as [|f name names mid out He IH Hn Hb Hlen Hf]; intros result Hnil; cbn [map data_decode].
  { by rewrite Hnil. }
  assert (Hnext : data_decode holder false 0 (map (λ n, (n, None)) names) (Some mid) mid =
    Some (Decoded (Some data) (zlen data) [] None)).
  { apply IH. intros ->. by inversion He. }
  destruct f; cbn [encode filter_names] in *.
  - destruct (a85_decode_encode mid out Hb ltac:(lia) Hf) as [Hd _].
    assert (Ha : a85_buf out = Some (Some mid)).
    { unfold a85_buf. rewrite Hd. assert (Hne : mid ≠ []) by (by intros ->).
      unfold A85Decode in Hd. destruct (decide (out = [])) as [->|Ho]; [exfalso; congruence|].
      destruct (a85_count out 0 0) as [z pos]. cbn [snd]. destruct (pos =? 0); [exfalso; congruence|].
      rewrite orb_false_r. destruct (Z.eqb_spec (zlen out) 0) as [E|]; [|done].
      destruct out; [done|rewrite zlen_cons in E; pose proof (zlen_nonneg out); lia]. }
    apply elem_of_cons in Hn as [->|Hn]; [|apply list_elem_of_singleton in Hn as ->];
      rewrite Ha; cbn; exact Hnext.
  - destruct (rle_decode_encode mid out ltac:(unfold kMaxStreamSize; lia) Hf) as [Hd _].
    assert (Ha : rl_buf out = Some (Some mid)) by (unfold rl_buf; by rewrite Hd).
    apply elem_of_cons in Hn as [->|Hn]; [|apply list_elem_of_singleton in Hn as ->];
      rewrite Ha; cbn; exact Hnext.
Qed.

Lemma encoded_valid data names out : encoded data names out → Forall (λ n, n ∈ kValidDecoders) names.
Proof.
  induction 1 as [|f name names mid out _ IH Hn _ _ _]; [constructor|]. constructor; [|done].
  destruct f; cbn [filter_names] in Hn; apply elem_of_cons in Hn as [->|Hn];
    try (apply list_elem_of_singleton in Hn as ->); vm_compute; by repeat constructor.
Qed.

Lemma encoded_nonempty data names out : encoded data names out → data ≠ [] → out ≠ [].
Proof.
  induction 1 as [|f name names mid out He IH _ Hb Hlen Hf]; [done|]. intros Hd ->. specialize (IH Hd).
  destruct f; cbn [encode] in Hf.
  - destruct (a85_decode_encode mid [] Hb ltac:(lia) Hf) as [E _]. change (A85Decode []) with (Some (0, @nil Z)) in E. congruence.
  - destruct (rle_decode_encode mid [] ltac:(unfold kMaxStreamSize; lia) Hf) as [E _].
    change (RunLengthDecode []) with (Some (0, @nil Z)) in E. congruence.
Qed.

Lemma GetStringAt_names names i : (i < length names)%nat → GetStringAt holder (map CPDF_Name names) i = nth i names [].
Proof.
  intros Hi. unfold GetStringAt. change (map CPDF_Name names) with (CPDF_Name <$> names). rewrite list_lookup_fmap.
  destruct (lookup_lt_is_Some_2 names i Hi) as [x Hx]. rewrite Hx. cbn. symmetry. by apply nth_lookup_Some.
Qed.

Lemma decoder_array_names d names :
  GetObjectFor (bs "Filter") d = Some (CPDF_Array (map CPDF_Name names)) → GetObjectFor (bs "DecodeParms") d = None →
  Forall (λ n, n ∈ kValidDecoders) names →
  GetDecoderArray holder d = Some (map (λ n, (n, None)) names).
Proof.
  intros Hf Hp Hv. unfold GetDecoderArray, GetDirectObjectFor. rewrite Hf, Hp. cbn [mbind option_bind GetDirect].
  assert (E : ValidateDecoderPipeline holder (map CPDF_Name names) = true).
  { unfold ValidateDecoderPipeline. apply andb_true_intro. split; [by apply forallb_forall; intros ? (? & <- & _)%in_map_iff|].
    apply forallb_forall. intros i Hi%in_seq. rewrite length_map in Hi. apply bool_decide_eq_true_2.
    rewrite GetStringAt_names by lia. rewrite Forall_forall in Hv. apply Hv.
    apply list_elem_of_In, nth_In. lia. }
  rewrite E. f_equal. rewrite length_map. apply list_eq. intros i.
  change (@map ?A ?B) with (@fmap list list_fmap A B). rewrite !list_lookup_fmap.
  destruct (decide (i < length names)%nat) as [Hi|Hi].
  - rewrite lookup_seq_lt by done. destruct (lookup_lt_is_Some_2 names i Hi) as [x Hx]. rewrite Hx. cbn.
    rewrite GetStringAt_names by done. do 2 f_equal. by apply nth_lookup_Some.
  - rewrite lookup_seq_ge by lia. rewrite (proj2 (lookup_ge_None names i)) by lia. done.
Qed.
End pipeline.

(** C20: data that were encoded by [A85Encode] and [RunLengthEncode], any number of
    times and in any order, are loaded from a stream whose [Filter] is an array that
    names the filters in the order of decoding, by their long or their short names,
    and which has no [DecodeParms].  The data are not empty (an empty ASCII85 text is
    not decoded), and no stage but the last is of 2^24 bytes or more. *)
Theorem filters_roundtrip `{Inflate} holder d names data out :
  encoded data names out → data ≠ [] → names ≠ [] →
  GetObjectFor (bs "Filter") d = Some (CPDF_Array (map CPDF_Name names)) → GetObjectFor (bs "DecodeParms") d = None →
  LoadAllDataFiltered holder d out = data.
Proof.
  intros He Hd Hn Hf Hp. unfold LoadAllDataFiltered, LoadAllData, KeyExist. rewrite Hf. cbn [negb orb].
  unfold ProcessFilteredData. pose proof (encoded_nonempty data names out He Hd) as Ho.
  replace (zlen out =? 0) with false by (destruct out; [done|rewrite zlen_cons; pose proof (zlen_nonneg out); lia]).
  rewrite (decoder_array_names holder d names Hf Hp (encoded_valid data names out He)).
  unfold PDF_DataDecode. inversion He as [|f name names' mid out' He' Hin Hb Hlen Hf']; subst; [done|].
  cbn [map]. change ((name, None) :: map _ names') with (map (λ n : list Z, (n, @None dict)) (name :: names')).
  rewrite (encoded_decode holder data (name :: names') out He None); [done|done].
Qed.

Definition filters_example : dict :=
  [(bs "Filter", CPDF_Array [CPDF_Name (bs "A85"); CPDF_Name (bs "RunLengthDecode")])].
Definition filters_data : list Z := [7; 7; 7; 7; 1].

Lemma filters_roundtrip_witness :
  (RunLengthEncode filters_data ≫= A85Encode) = Some (bs "r<E<'J,~>") ∧
  @LoadAllDataFiltered zeros_inflate (λ _, None) filters_example (bs "r<E<'J,~>") = filters_data.
Proof.
  split; [vm_compute; reflexivity|].
  apply (@filters_roundtrip zeros_inflate (λ _, None) filters_example [bs "A85"; bs "RunLengthDecode"]);
    [|discriminate|discriminate|vm_compute; reflexivity|vm_compute; reflexivity].
  apply (encoded_cons filters_data ASCII85 _ _ [253; 7; 0; 1; 128]); [|by right; left|solve_bytes|vm_compute; reflexivity|vm_compute; reflexivity].
  apply (encoded_cons filters_data RunLength _ _ filters_data); [constructor|by left|unfold filters_data; solve_bytes|vm_compute; reflexivity|vm_compute; reflexivity].
Defined.

(** The data of an empty ASCII85 stream: there is no buffer, and the stream is
    loaded with its source. *)
Lemma empty_a85_is_raw `{Inflate} holder :
  LoadAllDataFiltered holder [(bs "Filter", CPDF_Name (bs "A85"))] (bs "~>") = bs "~>" ∧
  A85Decode (bs "~>") = Some (0, []).
Proof. split; reflexivity. Qed.
