(* ===== verification/WriteTo.v ===== *)
(** * Writing and decrypting object trees

    [WriteTo] of the object classes ([core/fpdfapi/parser/cpdf_*.cpp]) with
    [CPDF_Encryptor] and [CPDF_FlateEncoder], and [DecryptObjectTree] of
    [cpdf_crypto_handler.cpp]. *)
From Stdlib Require Import String.
From S2P Require Import Prelude Words CharTypes TextString FxNumber Syntax Objects Dict Crypto Security DataDecode.
Import String.StringSyntax.

Section signature.
Context (holder : Z → option CPDF_Object).

Definition IsSignatureDictionary (m : dict) : bool :=
  let type_obj :=
    match GetDirectObjectFor holder m (bs "Type") with
    | Some o => Some o
    | None => GetDirectObjectFor holder m (bs "FT")
    end in
  match type_obj with Some o => bool_decide (GetString holder o = bs "Sig") | None => false end.

(** ** [DecryptObjectTree]

    The walk decrypts the strings and streams of a tree, but for a [Contents]
    entry beside a [Type] or [FT], which is decrypted at the end unless the
    dictionary, whose other values are decrypted by then, is a signature. *)
Context (h : CPDF_CryptoHandler) (obj_num gen_num : Z).

(** The entries of a dictionary, each with its value before and after. *)
Definition decrypt_entries (l : list (list Z * CPDF_Object * option CPDF_Object)) : option dict :=
  let may_be := bool_decide (bs "Type" ∈ map (λ e, e.1.1) l) || bool_decide (bs "FT" ∈ map (λ e, e.1.1) l) in
  let skipped (k : list Z) := may_be && bool_decide (k = bs "Contents") in
  walked ← mapM (λ '(k, v, v'), if skipped k then Some (k, v) else pair k <$> v') l;
  if IsSignatureDictionary walked then Some walked else mapM (λ '(k, v, v'), pair k <$> v') l.

(** [TakeData] sets [Length]; the walk over the dictionary comes after it. *)
Fixpoint decrypt_tree (o : CPDF_Object) : option CPDF_Object :=
  match o with
  | CPDF_String s hex => (λ s, CPDF_String s hex) <$> Decrypt h obj_num gen_num s
  | CPDF_Array l => CPDF_Array <$> mapM decrypt_tree l
  | CPDF_Dictionary m => CPDF_Dictionary <$> decrypt_entries (map (λ '(k, v), (k, v, decrypt_tree v)) m)
  | CPDF_Stream m data =>
      data ← (if is_aes h && (zlen data <? 16) then Some [] else Decrypt h obj_num gen_num data);
      m ← decrypt_entries (map (λ '(k, v), (k, v, decrypt_tree v)) m);
      Some (CPDF_Stream (SetFor (bs "Length") (CPDF_Number (FxSigned (zlen data))) m) data)
  | o => Some o
  end.
End signature.

(** ** [WriteTo]

    The handler, whose AES context each encryption changes, and how many initial
    blocks were used. *)
Definition crypt_state : Type := CPDF_CryptoHandler * nat.

Section write.
Context (holder : Z → option CPDF_Object) (ivs : nat → list Z) (m_ObjNum : Z).

(** [CPDF_Encryptor::Encrypt] *)
Definition Encrypt (src_data : list Z) (st : crypt_state) : option (list Z * crypt_state) :=
  if zlen src_data =? 0 then Some ([], st)
  else
    let '(h, k) := st in
    '(ctx, ct) ← EncryptContent h (ivs k) m_ObjNum 0 src_data;
    Some (ct, (CryptoHandler (m_KeyLen h) (m_Cipher h) ctx (m_EncryptKey h), S k)).

Definition WriteDWord (i : Z) : list Z := FormatInteger (s32 (u32 i)).

(** The loops of an array and of a dictionary; [enc] is whether there is an
    encryptor. *)
Section loops.
Context (write : CPDF_Object → bool → crypt_state → option (list Z * crypt_state)).

Fixpoint write_elements (enc : bool) (l : list CPDF_Object) (st : crypt_state) : option (list Z * crypt_state) :=
  match l with
  | [] => Some ([], st)
  | o :: l' =>
      '(t, st) ← write o enc st; '(t', st) ← write_elements enc l' st; Some (t ++ t', st)
  end.

Fixpoint write_entries (is_signature enc : bool) (m : dict) (st : crypt_state) : option (list Z * crypt_state) :=
  match m with
  | [] => Some ([], st)
  | (key, v) :: m' =>
      '(t, st) ← write v (enc && (negb is_signature || negb (bool_decide (key = bs "Contents")))) st;
      '(t', st) ← write_entries is_signature enc m' st;
      Some (47 :: PDF_NameEncode key ++ t ++ t', st)
  end.
End loops.

(** A stream is always an indirect object of its own and is written by
    [write_stream]; a child that is one is there as a reference. *)
Fixpoint write_to (o : CPDF_Object) (enc : bool) (st : crypt_state) : option (list Z * crypt_state) :=
  match o with
  | CPDF_Null => Some (32 :: str_null, st)
  | CPDF_Boolean b => Some (32 :: (if b then str_true else str_false), st)
  | CPDF_Number n => Some (32 :: NumberGetString n, st)
  | CPDF_String s hex =>
      '(raw, st) ← (if enc then Encrypt s st else Some (s, st));
      Some (if hex then PDF_HexEncodeString raw else PDF_EncodeString raw, st)
  | CPDF_Name s => Some (47 :: PDF_NameEncode s, st)
  | CPDF_Reference n => Some (32 :: WriteDWord n ++ [32; 48; 32; 82; 32], st)
  | CPDF_Array l => '(t, st) ← write_elements write_to enc l st; Some (91 :: t ++ [93], st)
  | CPDF_Dictionary m =>
      '(t, st) ← write_entries write_to (IsSignatureDictionary holder m) enc m st; Some ([60; 60] ++ t ++ [62; 62], st)
  | CPDF_Stream _ _ | CPDF_Indirect _ => None
  end.

Definition IsMetaDataStreamDictionary (m : dict) : bool :=
  bool_decide (GetNameFor holder m (bs "Type") = bs "Metadata") &&
  bool_decide (GetNameFor holder m (bs "Subtype") = bs "XML").

(** [CPDF_FlateEncoder]: the dictionary and the data to write.  [compress] is the
    function of zlib. *)
Definition flate_encoder `{Inflate} (compress : list Z → list Z) (m : dict) (data : list Z) (bFlateEncode : bool) :
    dict * list Z :=
  let bHasFilter := KeyExist m (bs "Filter") in
  if bHasFilter && negb bFlateEncode then
    (erase (bs "Filter") m, LoadAllDataFiltered holder m data)
  else if bHasFilter || negb bFlateEncode then (m, data)
  else
    let data := compress data in
    (erase (bs "DecodeParms") (SetFor (bs "Filter") (CPDF_Name (bs "FlateDecode"))
       (SetFor (bs "Length") (CPDF_Number (FxSigned (zlen data))) m)), data).

(** [CPDF_Stream::WriteTo] *)
Definition write_stream `{Inflate} (compress : list Z → list Z) (m : dict) (data : list Z) (enc : bool)
    (st : crypt_state) : option (list Z * crypt_state) :=
  let is_metadata := IsMetaDataStreamDictionary m in
  let '(m, data) := flate_encoder compress m data (negb is_metadata) in
  '(data, st) ← (if enc && negb is_metadata then Encrypt data st else Some (data, st));
  let size := zlen data in
  let m := if u64 (GetIntegerFor holder m (bs "Length") 0) =? size then m
           else SetFor (bs "Length") (CPDF_Number (FxSigned size)) m in
  '(t, st) ← write_to (CPDF_Dictionary m) enc st;
  Some (t ++ str_stream ++ [13; 10] ++ data ++ [13; 10] ++ kEndStreamStr, st).

Definition WriteTo `{Inflate} (compress : list Z → list Z) (o : CPDF_Object) (enc : bool) (st : crypt_state) :
    option (list Z * crypt_state) :=
  match o with
  | CPDF_Stream m data => write_stream compress m data enc st
  | o => write_to o enc st
  end.
End write.
