(* ===== verification/WriteText.v ===== *)
(** * What is written with encryption is what is decrypted

    [WriteTo] with an encryptor, the parser, and [DecryptObjectTree]. *)
From Stdlib Require Import Sorted String.
From S2P Require Import Prelude Words CharTypes TextString FxNumber Syntax Objects ObjectText Dict Aes AesKeys Crypto CryptoText Security DataDecode WriteTo.
Import String.StringSyntax.

(** Two handlers with the same key; the AES context is set before it is used. *)
Definition same_handler (h h' : CPDF_CryptoHandler) : Prop :=
  m_KeyLen h = m_KeyLen h' ∧ m_Cipher h = m_Cipher h' ∧ m_EncryptKey h = m_EncryptKey h'.

Lemma Decrypt_same h h' o g s : same_handler h h' → Decrypt h o g s = Decrypt h' o g s.
Proof.
  destruct h as [l c x k], h' as [l' c' x' k']. intros (E1 & E2 & E3). cbn in *. subst. reflexivity.
Qed.

Lemma Decrypt_nil h o g : crypto_ok h → Decrypt h o g [] = Some [].
Proof.
  intros Hok.
  assert (Hb : ∃ c, DecryptStart h o g = Some c).
  { destruct (encrypt_decrypt h o g (replicate 16 0) [] Hok) as (ctx & ct & _ & _ & _ & _ & _ & Hd);
      [by apply Forall_replicate|done|constructor|]. destruct (Hd [ct]) as (c & E & _); [apply app_nil_r|by exists c]. }
  destruct Hb as [c Hc]. unfold Decrypt. rewrite Hc. cbn [mbind option_bind decrypt_pieces].
  unfold DecryptStart, aes_context in Hc. unfold crypto_ok in Hok.
  destruct (m_Cipher h) eqn:Ec; [| |  |done]; unfold CryptStream, CryptFinish, is_aes in *; rewrite !Ec in *.
  - done.
  - rewrite decide_False in Hc by done. rewrite bool_decide_eq_false_2 in Hc by done. cbn [andb] in Hc.
    destruct (object_key h 48 o g); [|done]. by injection Hc as <-.
  - rewrite decide_False in Hc by done. rewrite bool_decide_eq_true_2 in Hc by done. cbn [andb] in Hc.
    assert (E : ∃ x, c = AesContext (AesCC true 0 x (replicate 16 0))).
    { destruct (m_KeyLen h =? 32); [|destruct (object_key h 48 o g); [|done]; cbn [mbind option_bind] in Hc];
        (destruct (set_key _ _ _) as [x|]; [|done]); injection Hc as <-; by exists x. }
    destruct E as [x ->]. done.
Qed.

Section crypt.
Context (holder : Z → option CPDF_Object) (ivs : nat → list Z) (h0 : CPDF_CryptoHandler) (objnum : Z).
Hypothesis Hivs : ∀ k, bytes (ivs k) ∧ length (ivs k) = 16%nat.

Definition st_ok (st : crypt_state) : Prop := crypto_ok st.1 ∧ same_handler h0 st.1.

Lemma Encrypt_spec s st :
  st_ok st → bytes s → ∃ ct st', Encrypt ivs objnum s st = Some (ct, st') ∧ st_ok st' ∧ bytes ct ∧
    Decrypt h0 objnum 0 ct = Some s ∧ (is_aes h0 = true → s ≠ [] → 16 <= zlen ct).
Proof.
  intros [Hok Hk] Hs. destruct st as [h k]. cbn [fst] in *. unfold Encrypt. destruct (Z.eqb_spec (zlen s) 0) as [E|E].
  - assert (s = []) as -> by (destruct s; [done|rewrite zlen_cons in E; pose proof (zlen_nonneg s); lia]).
    exists [], (h, k). split_and!; [done|done|constructor| |done].
    rewrite (Decrypt_same h0 h) by done. by apply Decrypt_nil.
  - destruct (encrypt_decrypt h objnum 0 (ivs k) s Hok (proj1 (Hivs k)) (proj2 (Hivs k)) Hs)
      as (ctx & ct & -> & _ & Hct & H32 & Hok' & Hd). cbn [mbind option_bind]. eexists ct, _. split; [done|].
    split_and!; [done|done| |].
    + rewrite (Decrypt_same h0 h) by done. unfold Decrypt. destruct (Hd [ct]) as (c & -> & Hc); [apply app_nil_r|exact Hc].
    + intros Ha _. destruct Hk as (_ & Hc & _). unfold is_aes in *. rewrite Hc in Ha. specialize (H32 Ha). lia.
Qed.

(** No child is an object of its own: in a document it is a reference, whose
    number is below 2^31. *)
Fixpoint direct (o : CPDF_Object) : bool :=
  match o with
  | CPDF_Indirect _ => false
  | CPDF_Reference n => n <? 2 ^ 31
  | CPDF_Array l => forallb direct l
  | CPDF_Dictionary m => forallb (λ kv, direct kv.2) m
  | _ => true
  end.

(** ** Signatures are told alike before and after *)
Lemma direct_string_read o : bool_decide (direct_string (as_read o) = bs "Sig") = bool_decide (direct_string o = bs "Sig").
Proof.
  destruct o; try done. cbn [as_read direct_string].
  assert (H : ∀ n, NumberGetString n ≠ bs "Sig").
  { intros n E. destruct (numeric_GetString n) as (_ & Hn & _). rewrite E in Hn. inversion Hn; done. }
  by rewrite !bool_decide_eq_false_2 by apply H.
Qed.

Lemma signature_read m m2 :
  (∀ k, k = bs "Type" ∨ k = bs "FT" → GetObjectFor k m2 = as_read <$> GetObjectFor k m) →
  IsSignatureDictionary holder m2 = IsSignatureDictionary holder m.
Proof.
  intros Hk.
  assert (Hd : ∀ k, k = bs "Type" ∨ k = bs "FT" →
    match GetDirectObjectFor holder m2 k, GetDirectObjectFor holder m k with
    | Some o2, Some o => bool_decide (GetString holder o2 = bs "Sig") = bool_decide (GetString holder o = bs "Sig")
    | None, None => True | _, _ => False end).
  { intros k Hk'. unfold GetDirectObjectFor. rewrite (Hk k Hk'). destruct (GetObjectFor k m) as [o|]; [|done]. cbn.
    destruct o as [| |n| | |n| | | |n]; cbn [as_read GetDirect]; try done; [exact (direct_string_read (CPDF_Number n))|..];
      by destruct (holder n). }
  unfold IsSignatureDictionary. pose proof (Hd (bs "Type") (or_introl eq_refl)) as H1. pose proof (Hd (bs "FT") (or_intror eq_refl)) as H2.
  destruct (GetDirectObjectFor holder m2 (bs "Type")), (GetDirectObjectFor holder m (bs "Type")); try done.
  by destruct (GetDirectObjectFor holder m2 (bs "FT")), (GetDirectObjectFor holder m (bs "FT")).
Qed.

(** ** One object *)
Definition written (d : nat) (enc : bool) (o o' : CPDF_Object) : Prop :=
  obj_ok d o' ∧ direct o' = true ∧ (enc = false → o' = o) ∧
  (enc = true → decrypt_tree holder h0 objnum 0 (as_read o') = Some (as_read o)).

Definition writes (d : nat) (write : CPDF_Object → bool → crypt_state → option (list Z * crypt_state)) : Prop :=
  ∀ o enc st, obj_ok d o → direct o = true → st_ok st →
  ∃ o' st', write o enc st = Some (print o', st') ∧ st_ok st' ∧ written d enc o o'.

Lemma write_elements_spec d write enc l : ∀ st,
  writes d write → Forall (obj_ok d) l → forallb direct l = true → st_ok st →
  ∃ l' st', write_elements write enc l st = Some (flat_map print l', st') ∧ st_ok st' ∧ Forall2 (written d enc) l l'.
Proof.
  induction l as [|o l IH]; intros st Hw Hl Hd Hst; cbn [write_elements forallb] in *; [by exists [], st|].
  inversion Hl as [|? ? Ho Hl']; subst. apply andb_prop in Hd as [Hd1 Hd2].
  destruct (Hw o enc st Ho Hd1 Hst) as (o' & st1 & -> & Hst1 & Ho'). cbn [mbind option_bind].
  destruct (IH st1 Hw Hl' Hd2 Hst1) as (l' & st2 & -> & Hst2 & Hl2). cbn [mbind option_bind].
  exists (o' :: l'), st2. split_and!; [done|done|]. by constructor.
Qed.

Definition entry_enc (is_signature enc : bool) (key : list Z) : bool :=
  enc && (negb is_signature || negb (bool_decide (key = bs "Contents"))).
Definition written_entry (d : nat) (is_signature enc : bool) (kv kv' : list Z * CPDF_Object) : Prop :=
  kv'.1 = kv.1 ∧ written d (entry_enc is_signature enc kv.1) kv.2 kv'.2.

Lemma write_entries_spec d write sig enc m : ∀ st,
  writes d write → Forall (λ kv, obj_ok d kv.2) m → forallb (λ kv, direct kv.2) m = true → st_ok st →
  ∃ m' st', write_entries write sig enc m st = Some (flat_map print_entry m', st') ∧ st_ok st' ∧
    Forall2 (written_entry d sig enc) m m'.
Proof.
  induction m as [|[key v] m IH]; intros st Hw Hl Hd Hst; cbn [write_entries forallb] in *; [by exists [], st|].
  inversion Hl as [|? ? Ho Hl']; subst. apply andb_prop in Hd as [Hd1 Hd2].
  destruct (Hw v (entry_enc sig enc key) st Ho Hd1 Hst) as (v' & st1 & E1 & Hst1 & Hv'). unfold entry_enc in E1.
  rewrite E1. cbn [mbind option_bind].
  destruct (IH st1 Hw Hl' Hd2 Hst1) as (m' & st2 & -> & Hst2 & Hm'). cbn [mbind option_bind].
  exists ((key, v') :: m'), st2. split_and!; [|done|by constructor].
  cbn [flat_map print_entry fst snd app]. by rewrite <-app_assoc.
Qed.

(** ** Dictionaries *)
Notation decrypt := (decrypt_tree holder h0 objnum 0).
Definition read_entry : list Z * CPDF_Object → list Z * CPDF_Object := λ '(k, v), (k, as_read v).
Definition visited (kv : list Z * CPDF_Object) : list Z * CPDF_Object * option CPDF_Object :=
  (kv.1, as_read kv.2, decrypt (as_read kv.2)).

Lemma visit_entries m : map (λ '(k, v), (k, v, decrypt v)) (map read_entry m) = map visited m.
Proof. rewrite map_map. apply map_ext. by intros [k v]. Qed.

Lemma mapM_entries (f : list Z * CPDF_Object * option CPDF_Object → option (list Z * CPDF_Object))
    (g : list Z * CPDF_Object → list Z * CPDF_Object → list Z * CPDF_Object) m m' :
  Forall2 (λ kv kv', f (visited kv') = Some (g kv kv')) m m' → mapM f (map visited m') = Some (zip_with g m m').
Proof.
  induction 1 as [|kv kv' m m' E _ IH]; [done|]. cbn. rewrite E. cbn. by rewrite IH.
Qed.

Lemma GetObjectFor_read k (g : list Z * CPDF_Object → list Z * CPDF_Object → list Z * CPDF_Object) m m' :
  Forall2 (λ kv kv', (g kv kv').1 = kv.1 ∧ (kv.1 = k → (g kv kv').2 = as_read kv.2)) m m' →
  GetObjectFor k (zip_with g m m') = as_read <$> GetObjectFor k m.
Proof.
  induction 1 as [|[k1 v1] kv' m m' [H1 H2] _ IH]; [done|]. cbn [zip_with GetObjectFor] in *.
  destruct (g (k1, v1) kv') as [k2 v2]. cbn in *. subst k2. case_bool_decide as E; [|done]. cbn. by rewrite H2.
Qed.

Lemma zip_with_read (g : list Z * CPDF_Object → list Z * CPDF_Object → list Z * CPDF_Object) m m' : Forall2 (λ kv kv', g kv kv' = read_entry kv) m m' → zip_with g m m' = map read_entry m.
Proof. induction 1 as [|kv kv' m m' E _ IH]; [done|]. cbn. by rewrite E, IH. Qed.

Lemma signature_key m :
  IsSignatureDictionary holder m = true → bs "Type" ∈ map fst m ∨ bs "FT" ∈ map fst m.
Proof.
  unfold IsSignatureDictionary, GetDirectObjectFor.
  assert (Hin : ∀ k o, GetObjectFor k m = Some o → k ∈ map fst m).
  { intros k o. induction m as [|[k' v] m' IH]; [done|]. cbn. case_bool_decide as E; [intros _; subst; by left|].
    intros H. right. by apply IH. }
  destruct (GetObjectFor (bs "Type") m) as [o|] eqn:E1; [intros _; left; by eapply Hin|].
  destruct (GetObjectFor (bs "FT") m) as [o|] eqn:E2; [intros _; right; by eapply Hin|done].
Qed.

Lemma decrypt_written_entries d m m' :
  Forall2 (written_entry d (IsSignatureDictionary holder m) true) m m' →
  decrypt_entries holder (map (λ '(k, v), (k, v, decrypt v)) (map read_entry m')) = Some (map read_entry m).
Proof.
  intros Hm. rewrite visit_entries. unfold decrypt_entries.
  assert (Hkeys : map (λ e : list Z * CPDF_Object * option CPDF_Object, e.1.1) (map visited m') = map fst m).
  { rewrite map_map. clear -Hm. induction Hm as [|[k v] [k' v'] l l' [E _] _ IH]; [done|]. cbn in *. by rewrite IH, E. }
  rewrite Hkeys. set (may_be := _ || _).
  assert (Hplain : ∀ k, k = bs "Type" ∨ k = bs "FT" → bool_decide (k = bs "Contents") = false)
    by (intros k [-> | ->]; reflexivity).
  destruct (IsSignatureDictionary holder m) eqn:Esig.
  - assert (may_be = true) as ->.
    { unfold may_be. destruct (signature_key m Esig); apply orb_true_iff; [left|right]; by apply bool_decide_eq_true_2. }
    match goal with |- mapM ?f _ ≫= _ = _ => rewrite (mapM_entries f (λ kv _, read_entry kv) m m') end.
    2: { eapply Forall2_impl; [exact Hm|]. intros [k v] [k' v'] (E & _ & _ & H1 & H2). cbn [fst snd] in *. subst k'.
         unfold entry_enc, visited in *. cbn [andb negb orb fst snd] in *.
         destruct (bool_decide (k = bs "Contents")); cbn [negb] in *; [by rewrite H1 by done|]. by rewrite H2 by done. }
    cbn [mbind option_bind]. rewrite (zip_with_read (λ kv _, read_entry kv)) by (eapply Forall2_impl; [exact Hm|done]).
    assert (E : IsSignatureDictionary holder (map read_entry m) = true).
    { rewrite <-Esig. apply signature_read. intros k _. rewrite <-(zip_with_read (λ kv _, read_entry kv) m m')
        by (eapply Forall2_impl; [exact Hm|done]).
      apply GetObjectFor_read. eapply Forall2_impl; [exact Hm|]. by intros [? ?] ? _. }
    by rewrite E.
  - set (g := λ kv kv' : list Z * CPDF_Object,
      (kv.1, if may_be && bool_decide (kv.1 = bs "Contents") then as_read kv'.2 else as_read kv.2)).
    assert (Hdec : Forall2 (λ kv kv', kv'.1 = kv.1 ∧ decrypt (as_read kv'.2) = Some (as_read kv.2)) m m').
    { eapply Forall2_impl; [exact Hm|]. intros [k v] [k' v'] (E & _ & _ & _ & H2). cbn in *. split; [done|by apply H2]. }
    match goal with |- mapM ?f _ ≫= _ = _ => rewrite (mapM_entries f g m m') end.
    2: { eapply Forall2_impl; [exact Hdec|]. intros [k v] [k' v'] [E H2]. unfold visited, g. cbn [fst snd] in *. subst k'.
         destruct (may_be && bool_decide (k = bs "Contents")); [done|]. by rewrite H2. }
    cbn [mbind option_bind].
    assert (E : IsSignatureDictionary holder (zip_with g m m') = false).
    { rewrite <-Esig. apply signature_read. intros k Hk. apply GetObjectFor_read.
      eapply Forall2_impl; [exact Hdec|]. intros [k1 v1] [k' v'] _. unfold g. cbn [fst snd]. split; [done|]. intros ->.
      by rewrite Hplain, andb_false_r by done. }
    rewrite E. rewrite (mapM_entries _ (λ kv _, read_entry kv) m m').
    2: { eapply Forall2_impl; [exact Hdec|]. intros [k v] [k' v'] [E' H2]. unfold visited. cbn in *. subst k'. by rewrite H2. }
    f_equal. apply zip_with_read. by eapply Forall2_impl; [exact Hm|].
Qed.

Lemma written_entries_ok d sig enc m m' :
  Forall2 (written_entry d sig enc) m m' →
  StronglySorted key_lt m → Forall (λ kv, kv.1 ≠ [] ∧ name_ok kv.1 ∧ obj_ok d kv.2) m →
  StronglySorted key_lt m' ∧ Forall (λ kv, kv.1 ≠ [] ∧ name_ok kv.1 ∧ obj_ok d kv.2) m' ∧
  forallb (λ kv, direct kv.2) m' = true ∧ (enc = false → m' = m).
Proof.
  induction 1 as [|kv kv' l l' (E & Ho & Hd & Hf & _) Hl IH]; intros Hs Hok; [by split_and!|].
  inversion Hs as [|? ? Hs' Hlt]; inversion Hok as [|? ? (H1 & H2 & H3) Hok']; subst.
  destruct (IH Hs' Hok') as (I1 & I2 & I3 & I4). split_and!.
  - constructor; [done|]. clear -Hl Hlt E. induction Hl as [|x x' l l' (E' & _) _ IH]; [constructor|].
    inversion Hlt as [|? ? Hx Hlt']; subst. constructor; [|by apply IH]. unfold key_lt in *. by rewrite E, E'.
  - constructor; [|done]. rewrite E. by split_and!.
  - cbn. by rewrite Hd.
  - intros ->. rewrite I4 by done. f_equal. destruct kv, kv'. cbn in *. subst. f_equal. by apply Hf.
Qed.

Lemma write_reference n : 0 <= n < 2 ^ 31 → 32 :: WriteDWord n ++ [32; 48; 32; 82; 32] = print (CPDF_Reference n).
Proof.
  intros Hn. unfold WriteDWord. rewrite s32_small by lia. cbn [print]. unfold print_ref.
  cbn [app]. rewrite <-app_assoc. cbn [app]. unfold FormatInteger. by destruct (Z.ltb_spec n 0); [lia|].
Qed.

Lemma write_spec d : writes d (write_to holder ivs objnum).
Proof.
  induction d as [|d IH]; intros o enc st Hok Hd Hst; [done|].
  assert (Hself : ∀ o, o = as_read o ∨ (∃ n, o = CPDF_Number n) →
    decrypt (as_read o) = Some (as_read o) → obj_ok (S d) o → direct o = true → written (S d) enc o o).
  { intros o' _ H1 H2 H3. by split_and!. }
  destruct o as [|b|n|s hex|n|n|l|m|m data|n]; cbn [write_to]; try done.
  - exists CPDF_Null, st. split_and!; [done|done|]. apply Hself; auto.
  - exists (CPDF_Boolean b), st. split_and!; [done|done|]. apply Hself; auto.
  - exists (CPDF_Number n), st. split_and!; [done|done|]. apply Hself; eauto.
  - cbn [obj_ok] in Hok. destruct enc; cbn [mbind option_bind].
    + destruct (Encrypt_spec s st Hst Hok) as (ct & st' & -> & Hst' & Hb & Hdec & _). cbn [mbind option_bind].
      exists (CPDF_String ct hex), st'. split_and!; [done|done|]. split_and!; [done|done|done|].
      intros _. cbn [as_read decrypt_tree]. by rewrite Hdec.
    + exists (CPDF_String s hex), st. by split_and!.
  - exists (CPDF_Name n), st. split_and!; [done|done|]. apply Hself; auto.
  - exists (CPDF_Reference n), st. cbn [direct] in Hd. apply Z.ltb_lt in Hd. destruct (Hok). rewrite write_reference by lia.
    split_and!; [done|done|]. apply Hself; auto. cbn. by apply Z.ltb_lt.
  - destruct Hok as [Hne Hok]. destruct (write_elements_spec d _ enc l st IH Hok Hd Hst) as (l' & st' & -> & Hst' & Hl).
    cbn [mbind option_bind]. exists (CPDF_Array l'), st'.
    assert (Hl' : Forall (obj_ok d) l' ∧ forallb direct l' = true ∧ (enc = false → l' = l) ∧
      (enc = true → mapM decrypt (map as_read l') = Some (map as_read l))).
    { clear -Hl. induction Hl as [|o o' l l' (H1 & H2 & H3 & H4) _ (I1 & I2 & I3 & I4)]; [by split_and!|]. split_and!.
      - by constructor.
      - cbn. by rewrite H2.
      - intros E. by rewrite I3, H3.
      - intros E. cbn. rewrite H4 by done. cbn. by rewrite (I4 E). }
    destruct Hl' as (H1 & H2 & H3 & H4). split_and!; [|done|].
    + do 2 f_equal. rewrite print_array. do 2 f_equal. clear -H2. induction l' as [|o l' IH]; [done|]. cbn in *.
      apply andb_prop in H2 as [Ho Hl]. rewrite <-IH by done. by destruct o.
    + split_and!; [done|done|intros E; by rewrite H3|]. intros E. cbn [as_read decrypt_tree]. by rewrite (H4 E).
  - destruct Hok as [Hsort Hok].
    assert (Hok' : Forall (λ kv, obj_ok d kv.2) m) by (eapply Forall_impl; [exact Hok|]; by intros ? (_ & _ & ?)).
    destruct (write_entries_spec d _ (IsSignatureDictionary holder m) enc m st IH Hok' Hd Hst) as (m' & st' & -> & Hst' & Hm).
    cbn [mbind option_bind]. exists (CPDF_Dictionary m'), st'.
    destruct (written_entries_ok _ _ _ _ _ Hm Hsort Hok) as (H1 & H2 & H3 & H4).
    split_and!; [by rewrite print_dict|done|]. split_and!; [done|done|intros E; by rewrite H4|].
    intros ->. cbn [as_read decrypt_tree]. fold read_entry. by rewrite (decrypt_written_entries d m m').
Qed.
End crypt.

(** C14: an object without streams, written with an encryptor, parsed back inside any
    file and decrypted is the object as a parser reads it ([as_read]): its numbers
    are what their texts say.  The strings of nested arrays and dictionaries are
    encrypted one by one, and the [Contents] of a signature is left alone on both
    ways.  The object is one that can be read ([obj_ok]): names of at most 255
    characters in the file, keys that are not empty, and no more levels than the
    parser has; other objects are in it only as references, with numbers below 2^31
    ([direct]). *)
Theorem encrypted_object_roundtrip holder ivs h k objnum o :
  (∀ k, bytes (ivs k) ∧ length (ivs k) = 16%nat) → crypto_ok h →
  obj_ok kParserMaxRecursionDepth o → direct o = true →
  ∃ text st o', write_to holder ivs objnum o true (h, k) = Some (text, st) ∧
    decrypt_tree holder h objnum 0 o' = Some (as_read o) ∧
    ∀ file hdr t s rest, safe rest → At file hdr s (text ++ rest) →
      ∃ s', GetObjectBodyInternal file hdr holder t s = Some (Some o', s') ∧
        (At file hdr s' rest ∨ At file hdr s' (32 :: rest)).
Proof.
  intros Hivs Hh Ho Hd.
  destruct (write_spec holder ivs h objnum Hivs kParserMaxRecursionDepth o true (h, k) Ho Hd)
    as (o' & st & E & _ & Ho' & _ & _ & Hdec); [by split_and!|].
  exists (print o'), st, (as_read o'). split_and!; [done|by apply Hdec|].
  intros file hdr t s rest Hr Hs. apply reads_all; [done|done|by left].
Qed.

Definition signature_example : CPDF_Object :=
  CPDF_Dictionary [(bs "Contents", CPDF_String [1; 2] true); (bs "Reason", CPDF_String [65; 41] false);
                   (bs "Type", CPDF_Name (bs "Sig"))].

Lemma encrypted_object_roundtrip_witness :
  let h := crypto_new kRC4 [1; 2; 3; 4; 5] 5 in
  crypto_ok h ∧
  ∃ text st o', write_to (λ _, None) (λ _, replicate 16 0) 7 signature_example true (h, 0%nat) = Some (text, st) ∧
    decrypt_tree (λ _, None) h 7 0 o' = Some signature_example ∧
    ∀ file hdr t s rest, safe rest → At file hdr s (text ++ rest) →
      ∃ s', GetObjectBodyInternal file hdr (λ _, None) t s = Some (Some o', s') ∧
        (At file hdr s' rest ∨ At file hdr s' (32 :: rest)).
Proof.
  intros h. assert (Hok : crypto_ok h) by (split; [split; discriminate|reflexivity]). split; [exact Hok|].
  refine (encrypted_object_roundtrip (λ _, None) (λ _, replicate 16 0) h 0 7 signature_example _ Hok _ eq_refl).
  - intros k. split; [apply Forall_replicate; unfold fits; lia|reflexivity].
  - apply (obj_ok_mono 2); [unfold kParserMaxRecursionDepth; lia|]. cbn [obj_ok signature_example].
    split; [repeat constructor|].
    assert (Hn : name_ok (bs "Contents") ∧ name_ok (bs "Reason") ∧ name_ok (bs "Type") ∧ name_ok (bs "Sig")).
    { split_and!; (split; [cbn; solve_bytes|vm_compute; discriminate]). }
    destruct Hn as (N1 & N2 & N3 & N4).
    apply List.Forall_cons; [split; [discriminate|split; [exact N1|solve_bytes]]|].
    apply List.Forall_cons; [split; [discriminate|split; [exact N2|solve_bytes]]|].
    apply List.Forall_cons; [split; [discriminate|split; [exact N3|exact N4]]|]. apply List.Forall_nil.
Defined.
