(* ===== verification/DocParser.v ===== *)
(** * The parser of documents

    [CPDF_Parser] ([core/fpdfapi/parser/cpdf_parser.cpp]), [CPDF_ObjectStream]
    and [CPDF_IndirectObjectHolder]: from the header and the last [startxref] to
    the cross-reference table, the trailer and the objects.  Linearized files are
    not here. *)
From Stdlib Require Import String.
From S2P Require Import Prelude Words CharTypes FxNumber Syntax Objects Dict Crypto Security StdMap CrossRef XRef DataDecode WriteTo.
Import String.StringSyntax.

Definition kPDFHeaderSize : Z := 9.
Definition kMinFieldCount : Z := 3.

Inductive Error := SUCCESS | FILE_ERROR | FORMAT_ERROR | PASSWORD_ERROR | HANDLER_ERROR.

(** [CPDF_ObjectStream]; [os_data] is what [data_stream_] holds. *)
Record CPDF_ObjectStream := ObjectStream {
  first_object_offset_ : Z;
  objects_offsets_ : std_map Z;
  os_data : list Z;
}.

(** A pointer to an object: the indirect object that holds it, and the way to it
    through entries of dictionaries, elements of arrays and the dictionary of a
    stream. *)
Inductive step := InDict (key : list Z) | InArray (i : nat) | OfStream.
Definition pointer := (Z * list step)%type.

(** The members of [CPDF_Document] that are not in the holder or the parser. *)
Record CPDF_Document := Document {
  m_pRootDict : option pointer;
  m_pInfoDict : option pointer;
  m_pTreeTraversal : list (pointer * nat);
  m_bHasValidCrossReferenceTable : bool;
  m_bReachedMaxPageLevel : bool;
  m_iNextPageToTraverse : Z;
  m_PageList : list Z;
}.
Definition document_new : CPDF_Document := Document None None [] false false 0 [].

(** The parser with its object holder, whose objects are [m_IndirectObjs]; [None]
    in it is the [nullptr] put there while an object is parsed.  The holder is a
    [CPDF_Document]. *)
Record CPDF_Parser := Parser {
  m_pSyntax : syntax;
  m_bXRefStream : bool;
  m_bXRefTableRebuilt : bool;
  m_FileVersion : Z;
  m_CrossRefTable : CPDF_CrossRefTable;
  m_LastXRefOffset : Z;
  m_pSecurityHandler : option CPDF_SecurityHandler;
  m_ObjectStreamMap : std_map (option CPDF_ObjectStream);
  m_ParsingObjNums : list Z;
  m_MetadataObjnum : Z;
  m_IndirectObjs : std_map (option CPDF_Object);
  m_LastObjNum : Z;
  m_Document : CPDF_Document;
}.

Definition parser_new : CPDF_Parser := Parser syntax_new false false 0 table_new 0 None [] [] 0 [] 0 document_new.

(** Changes of one member. *)
Definition with_syntax s p := Parser s (m_bXRefStream p) (m_bXRefTableRebuilt p) (m_FileVersion p) (m_CrossRefTable p)
  (m_LastXRefOffset p) (m_pSecurityHandler p) (m_ObjectStreamMap p) (m_ParsingObjNums p) (m_MetadataObjnum p)
  (m_IndirectObjs p) (m_LastObjNum p) (m_Document p).
Definition with_xref_stream b p := Parser (m_pSyntax p) b (m_bXRefTableRebuilt p) (m_FileVersion p) (m_CrossRefTable p)
  (m_LastXRefOffset p) (m_pSecurityHandler p) (m_ObjectStreamMap p) (m_ParsingObjNums p) (m_MetadataObjnum p)
  (m_IndirectObjs p) (m_LastObjNum p) (m_Document p).
Definition with_rebuilt b p := Parser (m_pSyntax p) (m_bXRefStream p) b (m_FileVersion p) (m_CrossRefTable p)
  (m_LastXRefOffset p) (m_pSecurityHandler p) (m_ObjectStreamMap p) (m_ParsingObjNums p) (m_MetadataObjnum p)
  (m_IndirectObjs p) (m_LastObjNum p) (m_Document p).
Definition with_version v p := Parser (m_pSyntax p) (m_bXRefStream p) (m_bXRefTableRebuilt p) v (m_CrossRefTable p)
  (m_LastXRefOffset p) (m_pSecurityHandler p) (m_ObjectStreamMap p) (m_ParsingObjNums p) (m_MetadataObjnum p)
  (m_IndirectObjs p) (m_LastObjNum p) (m_Document p).
Definition with_table t p := Parser (m_pSyntax p) (m_bXRefStream p) (m_bXRefTableRebuilt p) (m_FileVersion p) t
  (m_LastXRefOffset p) (m_pSecurityHandler p) (m_ObjectStreamMap p) (m_ParsingObjNums p) (m_MetadataObjnum p)
  (m_IndirectObjs p) (m_LastObjNum p) (m_Document p).
Definition with_last_xref o p := Parser (m_pSyntax p) (m_bXRefStream p) (m_bXRefTableRebuilt p) (m_FileVersion p)
  (m_CrossRefTable p) o (m_pSecurityHandler p) (m_ObjectStreamMap p) (m_ParsingObjNums p) (m_MetadataObjnum p)
  (m_IndirectObjs p) (m_LastObjNum p) (m_Document p).
Definition with_security h p := Parser (m_pSyntax p) (m_bXRefStream p) (m_bXRefTableRebuilt p) (m_FileVersion p)
  (m_CrossRefTable p) (m_LastXRefOffset p) h (m_ObjectStreamMap p) (m_ParsingObjNums p) (m_MetadataObjnum p)
  (m_IndirectObjs p) (m_LastObjNum p) (m_Document p).
Definition with_streams m p := Parser (m_pSyntax p) (m_bXRefStream p) (m_bXRefTableRebuilt p) (m_FileVersion p)
  (m_CrossRefTable p) (m_LastXRefOffset p) (m_pSecurityHandler p) m (m_ParsingObjNums p) (m_MetadataObjnum p)
  (m_IndirectObjs p) (m_LastObjNum p) (m_Document p).
Definition with_parsing l p := Parser (m_pSyntax p) (m_bXRefStream p) (m_bXRefTableRebuilt p) (m_FileVersion p)
  (m_CrossRefTable p) (m_LastXRefOffset p) (m_pSecurityHandler p) (m_ObjectStreamMap p) l (m_MetadataObjnum p)
  (m_IndirectObjs p) (m_LastObjNum p) (m_Document p).
Definition with_metadata n p := Parser (m_pSyntax p) (m_bXRefStream p) (m_bXRefTableRebuilt p) (m_FileVersion p)
  (m_CrossRefTable p) (m_LastXRefOffset p) (m_pSecurityHandler p) (m_ObjectStreamMap p) (m_ParsingObjNums p) n
  (m_IndirectObjs p) (m_LastObjNum p) (m_Document p).
Definition with_holder objs last p := Parser (m_pSyntax p) (m_bXRefStream p) (m_bXRefTableRebuilt p) (m_FileVersion p)
  (m_CrossRefTable p) (m_LastXRefOffset p) (m_pSecurityHandler p) (m_ObjectStreamMap p) (m_ParsingObjNums p)
  (m_MetadataObjnum p) objs last (m_Document p).
Definition with_document d p := Parser (m_pSyntax p) (m_bXRefStream p) (m_bXRefTableRebuilt p) (m_FileVersion p)
  (m_CrossRefTable p) (m_LastXRefOffset p) (m_pSecurityHandler p) (m_ObjectStreamMap p) (m_ParsingObjNums p)
  (m_MetadataObjnum p) (m_IndirectObjs p) (m_LastObjNum p) d.

(** ** The table *)
Definition GetTrailer (p : CPDF_Parser) : option dict := trailer_ (m_CrossRefTable p).
Definition GetLastObjNum (p : CPDF_Parser) : Z := default 0 (last_key (objects_info_ (m_CrossRefTable p))).
Definition IsValidObjectNumber (p : CPDF_Parser) (objnum : Z) : bool := objnum <=? GetLastObjNum p.
Definition GetObjectPositionOrZero (p : CPDF_Parser) (objnum : Z) : Z :=
  match GetObjectInfo (m_CrossRefTable p) objnum with
  | Some info => if decide (type info = kNormal) then pos info else 0
  | None => 0
  end.
Definition GetObjectType (p : CPDF_Parser) (objnum : Z) : ObjectType :=
  match GetObjectInfo (m_CrossRefTable p) objnum with Some info => type info | None => kFree end.
Definition IsObjectFreeOrNull (p : CPDF_Parser) (objnum : Z) : bool :=
  match GetObjectType p objnum with kFree | kObjStream => true | _ => false end.
Definition IsObjectFree (p : CPDF_Parser) (objnum : Z) : bool := bool_decide (GetObjectType p objnum = kFree).

Definition reference_of (o : option CPDF_Object) : Z :=
  match o with Some (CPDF_Reference n) | Some (CPDF_Indirect n) => n | _ => kInvalidObjNum end.
Definition GetRootObjNum (p : CPDF_Parser) : Z := reference_of (GetTrailer p ≫= GetObjectFor (bs "Root")).
Definition GetInfoObjNum (p : CPDF_Parser) : Z := reference_of (GetTrailer p ≫= GetObjectFor (bs "Info")).

(** [GetDirectInteger]: of a number that is not behind a reference. *)
Definition GetDirectInteger (d : dict) (key : list Z) : Z :=
  match GetObjectFor key d with Some (CPDF_Number n) => GetSigned n | _ => 0 end.

(** [GetDict] of an object. *)
Definition dict_of (o : CPDF_Object) : option dict :=
  match o with CPDF_Dictionary d | CPDF_Stream d _ => Some d | _ => None end.

(** ** Object streams *)
Definition is_integer_in (o : option CPDF_Object) (bound : Z) : bool :=
  match o with
  | Some (CPDF_Number n) => IsInteger n && (0 <=? GetSigned n) && (GetSigned n <? bound)
  | _ => false
  end.

Definition IsObjectStream (holder : Z → option CPDF_Object) (o : CPDF_Object) : bool :=
  match o with
  | CPDF_Stream d _ =>
      bool_decide (GetNameFor holder d (bs "Type") = bs "ObjStm") &&
      is_integer_in (GetObjectFor (bs "N") d) kMaxObjectNumber &&
      is_integer_in (GetObjectFor (bs "First") d) (INT_MAX + 1)
  | _ => false
  end.

(** The loop of [Init], [count] rounds. *)
Fixpoint read_offsets (count : nat) (data : list Z) (offsets : std_map Z) (s : syntax) : std_map Z :=
  match count with
  | O => offsets
  | S count' =>
      if zlen data <=? m_Pos s then offsets
      else
        let '(obj_num, s) := GetDirectNum data 0 s in
        let '(obj_offset, s) := GetDirectNum data 0 s in
        read_offsets count' data (if obj_num =? 0 then offsets else put obj_num obj_offset offsets) s
  end.

Section object_stream.
Context `{Inflate} (holder : Z → option CPDF_Object).

(** [CPDF_ObjectStream::Create] *)
Definition CreateObjectStream (o : CPDF_Object) : option CPDF_ObjectStream :=
  match o with
  | CPDF_Stream d raw =>
      if IsObjectStream holder o then
        let data := LoadAllDataFiltered holder d raw in
        let object_count := GetIntegerFor holder d (bs "N") 0 in
        Some (ObjectStream (GetIntegerFor holder d (bs "First") 0)
                (read_offsets (Z.to_nat object_count) data [] syntax_new) data)
      else None
  | _ => None
  end.

(** The parser always returns ([ObjectTotal.parser_terminates]). *)
Definition object_body (file : list Z) (hdr : Z) (s : syntax) : option CPDF_Object * syntax :=
  default (None, s) (GetObjectBody file hdr holder s).

Definition ParseObjectAtOffset (os : CPDF_ObjectStream) (object_offset : Z) : option CPDF_Object :=
  let offset_in_stream := first_object_offset_ os + object_offset in
  if zlen (os_data os) <=? offset_in_stream then None
  else (object_body (os_data os) 0 (SetPos (os_data os) offset_in_stream syntax_new)).1.

Definition ParseObject (os : CPDF_ObjectStream) (obj_number : Z) : option CPDF_Object :=
  offset ← find obj_number (objects_offsets_ os); ParseObjectAtOffset os offset.
End object_stream.

(** ** Objects

    [get n p] is what [GetOrParseIndirectObject(n)] returns in state [p]. *)
Section parser.
Context `{Inflate} (file : list Z) (m_HeaderOffset : Z) (password : list Z).

Section objects.
Context (get : Z → CPDF_Parser → option CPDF_Object).

Definition indirect_object (holder : Z → option CPDF_Object) (t : ParseType) (s : syntax) :
    option (Z * Z * CPDF_Object) * syntax :=
  default (None, s) (GetIndirectObject file m_HeaderOffset holder t s).

(** The object with its number, or [nullptr]; also where decryption would leave
    its arrays. *)
Definition ParseIndirectObjectAt (pos objnum : Z) (p : CPDF_Parser) : option (Z * CPDF_Object) * CPDF_Parser :=
  let saved_pos := m_Pos (m_pSyntax p) in
  let holder := λ n, get n p in
  let '(result, s) := indirect_object holder kLoose (SetPos file pos (m_pSyntax p)) in
  let p := with_syntax (SetPos file saved_pos s) p in
  match result with
  | None => (None, p)
  | Some (n, gen, o) =>
      if negb (objnum =? 0) && negb (n =? objnum) then (None, p)
      else
        match m_pSecurityHandler p ≫= m_pCryptoHandler with
        | Some h =>
            if objnum =? m_MetadataObjnum p then (Some (n, o), p)
            else (pair n <$> decrypt_tree holder h n gen o, p)
        | None => (Some (n, o), p)
        end
  end.

(** [ScopedSetInsertion] *)
Definition while_parsing {A} (objnum : Z) (f : CPDF_Parser → A * CPDF_Parser) (p : CPDF_Parser) : A * CPDF_Parser :=
  let saved := m_ParsingObjNums p in
  let '(r, p) := f (with_parsing (objnum :: saved) p) in (r, with_parsing saved p).

Definition GetObjectStream (object_number : Z) (p : CPDF_Parser) : option CPDF_ObjectStream * CPDF_Parser :=
  if decide (object_number ∈ m_ParsingObjNums p) then (None, p)
  else
    match find object_number (m_ObjectStreamMap p) with
    | Some os => (os, p)
    | None =>
        match GetObjectInfo (m_CrossRefTable p) object_number with
        | None => (None, p)
        | Some info =>
            if negb (bool_decide (type info = kObjStream)) then (None, p)
            else if pos info <=? 0 then (None, p)
            else
              while_parsing object_number (λ p,
                let '(object, p) := ParseIndirectObjectAt (pos info) object_number p in
                match object with
                | None => (None, p)
                | Some (_, o) =>
                    let objs_stream := CreateObjectStream (λ n, get n p) o in
                    (objs_stream, with_streams (put object_number objs_stream (m_ObjectStreamMap p)) p)
                end) p
        end
    end.

Definition ParseIndirectObject (objnum : Z) (p : CPDF_Parser) : option CPDF_Object * CPDF_Parser :=
  if negb (IsValidObjectNumber p objnum) then (None, p)
  else if decide (objnum ∈ m_ParsingObjNums p) then (None, p)
  else
    while_parsing objnum (λ p,
      match GetObjectInfo (m_CrossRefTable p) objnum with
      | None => (None, p)
      | Some info =>
          match type info with
          | kNormal =>
              let pos := GetObjectPositionOrZero p objnum in
              if pos <=? 0 then (None, p)
              else let '(r, p) := ParseIndirectObjectAt pos objnum p in (snd <$> r, p)
          | kCompressed =>
              let '(os, p) := GetObjectStream (archive_obj_num info) p in
              match os with
              | None => (None, p)
              | Some os => (ParseObject (λ n, get n p) os objnum, p)
              end
          | _ => (None, p)
          end
      end) p.
End objects.

(** [CPDF_IndirectObjectHolder::GetOrParseIndirectObject], [depth] calls deep at
    most.  What a look-up inside of a parse leaves behind is not kept: it only
    finds the numbers that are lengths of streams, and finds them again. *)
Fixpoint get_or_parse (depth : nat) (objnum : Z) (p : CPDF_Parser) : option CPDF_Object * CPDF_Parser :=
  match depth with
  | O => (None, p)
  | S depth' =>
      if (objnum =? 0) || (objnum =? kInvalidObjNum) then (None, p)
      else
        match find objnum (m_IndirectObjs p) with
        | Some o => (o, p)
        | None =>
            let p := with_holder (put objnum None (m_IndirectObjs p)) (m_LastObjNum p) p in
            let '(o, p) := ParseIndirectObject (λ n p, (get_or_parse depth' n p).1) objnum p in
            match o with
            | None => (None, with_holder (erase_key objnum (m_IndirectObjs p)) (m_LastObjNum p) p)
            | Some o =>
                (Some o, with_holder (put objnum (Some o) (m_IndirectObjs p)) (Z.max (m_LastObjNum p) objnum) p)
            end
        end
  end.

(** Every call inside of a call is for another entry of the table. *)
Definition depth_for (p : CPDF_Parser) : nat := S (S (length (objects_info_ (m_CrossRefTable p)))).
Definition GetOrParseIndirectObject (objnum : Z) (p : CPDF_Parser) : option CPDF_Object * CPDF_Parser :=
  get_or_parse (depth_for p) objnum p.
Definition holder_in (p : CPDF_Parser) (objnum : Z) : option CPDF_Object := (GetOrParseIndirectObject objnum p).1.
Definition get_in (objnum : Z) (p : CPDF_Parser) : option CPDF_Object := holder_in p objnum.
End parser.
