(* ===== verification/DocLoad.v ===== *)
(** * Loading a document

    The way from a file to its objects in [CPDF_Parser]
    ([core/fpdfapi/parser/cpdf_parser.cpp]): the header, [startxref], the chains
    of cross-reference tables and streams, the rebuilding of a broken table, and
    the security handler. *)
From Stdlib Require Import String.
From S2P Require Import Prelude Words CharTypes FxNumber Syntax Objects Dict Crypto Security StdMap CrossRef XRef DataDecode DocParser.
Import String.StringSyntax.

(** [GetHeaderOffset] *)
Definition header_at (file : list Z) (offset : nat) : bool := bool_decide (take 4 (drop offset file) = bs "%PDF").
Fixpoint header_loop (n offset : nat) (file : list Z) : option Z :=
  match n with
  | O => None
  | S n' =>
      if (length file <? offset + 4)%nat then None
      else if header_at file offset then Some (Z.of_nat offset)
      else header_loop n' (S offset) file
  end.
Definition GetHeaderOffset (file : list Z) : option Z := header_loop 1025 0 file.

(** ** Cross-reference streams *)
Definition GetObjectTypeFromCrossRefStreamType (cross_ref_stream_type : Z) : ObjectType :=
  if cross_ref_stream_type =? 0 then kFree
  else if cross_ref_stream_type =? 1 then kNormal
  else if cross_ref_stream_type =? 2 then kCompressed else kObjStream.

Definition GetVarInt (input : list Z) : Z := fold_left (λ result c, u32 (result * 256 + c)) input 0.

Fixpoint index_pairs (l : list CPDF_Object) : list (Z * Z) :=
  match l with
  | a :: b :: l' =>
      match a, b with
      | CPDF_Number start, CPDF_Number count =>
          if (GetSigned start <? 0) || (GetSigned count <=? 0) then index_pairs l'
          else (GetSigned start, GetSigned count) :: index_pairs l'
      | _, _ => index_pairs l'
      end
  | _ => []
  end.
Definition GetCrossRefV5Indices (array : option (list CPDF_Object)) (size : Z) : list (Z * Z) :=
  match index_pairs (default [] array) with [] => [(0, size)] | indices => indices end.

Definition GetFieldWidths (holder : Z → option CPDF_Object) (array : option (list CPDF_Object)) : list Z :=
  map (λ o, u32 (GetInteger holder o)) (default [] array).

(** [ProcessCrossRefV5Entry]: a 64-bit [FX_FILESIZE] holds every offset. *)
Definition ProcessCrossRefV5Entry (entry_span field_widths : list Z) (obj_num : Z) (t : CPDF_CrossRefTable)
    (existing_type : ObjectType) (last_obj_num : Z) : CPDF_CrossRefTable :=
  let w0 := Z.to_nat field_widths.[0] in
  let type := if field_widths.[0] =? 0 then kNormal
              else GetObjectTypeFromCrossRefStreamType (GetVarInt (take w0 entry_span)) in
  let entry_value := GetVarInt (subspan entry_span w0 (Z.to_nat field_widths.[1])) in
  match type with
  | kObjStream => t
  | _ =>
      match existing_type with
      | kObjStream => AddNormal obj_num 0 entry_value t
      | kFree =>
          match type with
          | kFree => SetFree obj_num t
          | kNormal => AddNormal obj_num 0 entry_value t
          | _ => if entry_value <=? last_obj_num then AddCompressed obj_num entry_value t else t
          end
      | _ => t
      end
  end.

Definition process_entry (entry_span field_widths : list Z) (obj_num : Z) (p : CPDF_Parser) : CPDF_Parser :=
  with_table (ProcessCrossRefV5Entry entry_span field_widths obj_num (m_CrossRefTable p) (GetObjectType p obj_num)
                (GetLastObjNum p)) p.

(** The entries of a segment, [i] of them done. *)
Fixpoint process_segment (count : nat) (i start total_width : Z) (seg_span field_widths : list Z) (p : CPDF_Parser) :
    CPDF_Parser :=
  match count with
  | O => p
  | S count' =>
      let obj_num := u32 (start + i) in
      if kMaxObjectNumber <=? obj_num then p
      else
        let entry_span := subspan seg_span (Z.to_nat (i * total_width)) (Z.to_nat total_width) in
        process_segment count' (i + 1) start total_width seg_span field_widths
          (process_entry entry_span field_widths obj_num p)
  end.

(** [FX_SAFE_UINT32] *)
Definition safe_u32 (z : Z) : option Z := if (0 <=? z) && (z <? 2 ^ 32) then Some z else None.

Fixpoint process_segments (indices : list (Z * Z)) (segindex total_width : Z) (data_span field_widths : list Z)
    (p : CPDF_Parser) : CPDF_Parser :=
  match indices with
  | [] => p
  | (start_obj_num, obj_count) :: indices' =>
      let go := process_segments indices' in
      match e ← safe_u32 (segindex + obj_count); safe_u32 (e * total_width) with
      | None => go segindex total_width data_span field_widths p
      | Some seg_end =>
          if zlen data_span <? seg_end then go segindex total_width data_span field_widths p
          else
            let seg_span := subspan data_span (Z.to_nat (segindex * total_width)) (Z.to_nat (obj_count * total_width)) in
            let dwV5Size := match objects_info_ (m_CrossRefTable p) with [] => 0 | _ => u32 (GetLastObjNum p + 1) end in
            match safe_u32 (start_obj_num + obj_count) with
            | Some dwMaxObjNum =>
                if dwV5Size <? dwMaxObjNum then go segindex total_width data_span field_widths p
                else go (u32 (segindex + obj_count)) total_width data_span field_widths
                       (process_segment (Z.to_nat obj_count) 0 start_obj_num total_width seg_span field_widths p)
            | None => go segindex total_width data_span field_widths p
            end
      end
  end.

Definition sum_widths (field_widths : list Z) : option Z :=
  fold_left (λ acc w, acc ← acc; safe_u32 (acc + w)) field_widths (Some 0).

(** What [MergeUp] gives for two tables that are there. *)
Definition merge_up (current top : CPDF_CrossRefTable) : CPDF_CrossRefTable :=
  default top (MergeUp (Some current) (Some top)).

Section load.
Context `{Inflate} (file : list Z) (m_HeaderOffset : Z) (password : list Z).

Notation ParseIndirectObjectAt := (ParseIndirectObjectAt file m_HeaderOffset (get_in file m_HeaderOffset)).
Notation holder_in := (holder_in file m_HeaderOffset).
Notation GetOrParseIndirectObject := (GetOrParseIndirectObject file m_HeaderOffset).

(** [LoadCrossRefV5]: whether it succeeded, [*pos] and the state. *)
Definition LoadCrossRefV5 (pos : Z) (bMainXRef : bool) (p : CPDF_Parser) : bool * Z * CPDF_Parser :=
  let '(pObject, p) := ParseIndirectObjectAt pos 0 p in
  match pObject with
  | Some (n, CPDF_Stream pDict raw) =>
      if n =? 0 then (false, pos, p)
      else
        let holder := holder_in p in
        let pos := GetIntegerFor holder pDict (bs "Prev") 0 in
        let size := GetIntegerFor holder pDict (bs "Size") 0 in
        if size <? 0 then (false, pos, p)
        else
          let new := table_of_trailer (Some pDict) in
          let p := with_table (if bMainXRef then ShrinkObjectMap size new else merge_up new (m_CrossRefTable p)) p in
          let indices := GetCrossRefV5Indices (GetArrayFor holder pDict (bs "Index")) size in
          let field_widths := GetFieldWidths holder (GetArrayFor holder pDict (bs "W")) in
          if zlen field_widths <? kMinFieldCount then (false, pos, p)
          else
            match sum_widths field_widths with
            | None => (false, pos, p)
            | Some total_width =>
                let data_span := LoadAllDataFiltered holder pDict raw in
                (true, pos, process_segments indices 0 total_width data_span field_widths p)
            end
  | _ => (false, pos, p)
  end.

(** The loop of [LoadAllCrossRefV5], at most [fuel] rounds. *)
Fixpoint xref_stream_loop (fuel : nat) (seen : list Z) (xref_offset : Z) (p : CPDF_Parser) : option (bool * CPDF_Parser) :=
  match fuel with
  | O => None
  | S fuel' =>
      if xref_offset =? 0 then Some (true, p)
      else
        let seen := xref_offset :: seen in
        let '(ok, xref_offset, p) := LoadCrossRefV5 xref_offset false p in
        if negb ok then Some (false, p)
        else if decide (xref_offset ∈ seen) then Some (false, p)
        else xref_stream_loop fuel' seen xref_offset p
  end.

Definition chain_fuel : nat := S (S (length file)).

Definition LoadAllCrossRefV5 (xref_offset : Z) (p : CPDF_Parser) : option (bool * CPDF_Parser) :=
  let '(ok, xref_offset, p) := LoadCrossRefV5 xref_offset true p in
  if negb ok then Some (false, p)
  else
    '(ok, p) ← xref_stream_loop chain_fuel [] xref_offset p;
    Some (if (ok : bool) then (true, with_xref_stream true (with_streams [] p)) else (false, p)).

(** ** Cross-reference tables *)
Definition LoadCrossRefV4 (pos : Z) (bSkip : bool) (p : CPDF_Parser) : bool * CPDF_Parser :=
  match XRef.LoadCrossRefV4 file m_HeaderOffset pos bSkip (m_CrossRefTable p) (m_pSyntax p) with
  | Some (ok, t, s) => (ok, with_syntax s (with_table t p))
  | None => (false, p)
  end.

Definition str_trailer : list Z := [116; 114; 97; 105; 108; 101; 114].

Definition LoadTrailerV4 (p : CPDF_Parser) : option dict * CPDF_Parser :=
  let '(word, s) := GetKeyword file m_HeaderOffset (m_pSyntax p) in
  if negb (bool_decide (word = str_trailer)) then (None, with_syntax s p)
  else
    let '(o, s) := object_body (holder_in p) file m_HeaderOffset s in
    (match o with Some (CPDF_Dictionary d) => Some d | _ => None end, with_syntax s p).

Fixpoint first_nonzero (m : std_map ObjectInfo) : option (Z * Z) :=
  match m with
  | [] => None
  | (n, info) :: m' => if pos info =? 0 then first_nonzero m' else Some (n, pos info)
  end.

Definition VerifyCrossRefV4 (p : CPDF_Parser) : bool * CPDF_Parser :=
  match first_nonzero (objects_info_ (m_CrossRefTable p)) with
  | None => (true, p)
  | Some (n, pos) =>
      let SavedPos := m_Pos (m_pSyntax p) in
      let '(word, is_number, s) := GetNextWord file m_HeaderOffset (SetPos file pos (m_pSyntax p)) in
      let p := with_syntax (SetPos file SavedPos s) p in
      (is_number && negb (zlen word =? 0) && (FXSYS_atoui word =? n), p)
  end.

(** The loop over [Prev], at most [fuel] rounds: the list of tables and the list
    of their streams, oldest first. *)
Fixpoint prev_loop (fuel : nat) (xref_offset : Z) (seen xref_list xref_stream_list : list Z) (p : CPDF_Parser) :
    option (option (list Z * list Z) * CPDF_Parser) :=
  match fuel with
  | O => None
  | S fuel' =>
      if xref_offset =? 0 then Some (Some (xref_list, xref_stream_list), p)
      else if decide (xref_offset ∈ seen) then Some (None, p)
      else
        let p := (LoadCrossRefV4 xref_offset true p).2 in
        let '(pDict, p) := LoadTrailerV4 p in
        match pDict with
        | None => Some (None, p)
        | Some pDict =>
            let stream := GetIntegerFor (holder_in p) pDict (bs "XRefStm") 0 in
            prev_loop fuel' (GetDirectInteger pDict (bs "Prev")) (xref_offset :: seen) (xref_offset :: xref_list)
              (stream :: xref_stream_list) (with_table (merge_up (table_of_trailer (Some pDict)) (m_CrossRefTable p)) p)
        end
  end.

(** The loop over both lists; [first] is whether [i] is 0. *)
Fixpoint load_tables (first : bool) (l : list (Z * Z)) (p : CPDF_Parser) : bool * CPDF_Parser :=
  match l with
  | [] => (true, p)
  | (xref, stream) :: l' =>
      let '(ok, p) := LoadCrossRefV4 xref false p in
      if negb ok then (false, p)
      else
        let '(ok, p) := (if stream =? 0 then (true, p) else let '(ok, _, p) := LoadCrossRefV5 stream false p in (ok, p)) in
        if negb ok then (false, p)
        else
          let '(ok, p) := (if first then VerifyCrossRefV4 p else (true, p)) in
          if negb ok then (false, p) else load_tables false l' p
  end.

Definition LoadAllCrossRefV4 (xref_offset : Z) (p : CPDF_Parser) : option (bool * CPDF_Parser) :=
  let '(ok, p) := LoadCrossRefV4 xref_offset true p in
  if negb ok then Some (false, p)
  else
    let '(trailer, p) := LoadTrailerV4 p in
    match trailer with
    | None => Some (false, p)
    | Some trailer =>
        let p := with_table (SetTrailer (Some trailer) (m_CrossRefTable p)) p in
        let xrefsize := GetDirectInteger trailer (bs "Size") in
        let p := if (0 <? xrefsize) && (xrefsize <=? kMaxXRefSize)
                 then with_table (ShrinkObjectMap xrefsize (m_CrossRefTable p)) p else p in
        '(lists, p) ← prev_loop chain_fuel (GetDirectInteger trailer (bs "Prev")) [xref_offset] [xref_offset]
                        [GetDirectInteger trailer (bs "XRefStm")] p;
        match lists with
        | None => Some (false, p)
        | Some (xref_list, xref_stream_list) => Some (load_tables true (zip xref_list xref_stream_list) p)
        end
    end.

(** ** Rebuilding *)
(** The state of the loop: the last two numbers with their positions, and the new
    table. *)
Definition rebuild_trailer (o : option CPDF_Object) (t : CPDF_CrossRefTable) : CPDF_CrossRefTable :=
  match o with
  | None => t
  | Some o => merge_up t (table_of_trailer (dict_of o))
  end.

Definition rebuild_object (obj_num gen_num obj_pos : Z) (o : option CPDF_Object) (t : CPDF_CrossRefTable) :
    CPDF_CrossRefTable :=
  let t := match o with
           | Some (CPDF_Stream d _) =>
               if bool_decide (GetNameFor (λ _, None) d (bs "Type") = bs "XRef")
               then merge_up t (table_of_trailer (Some d)) else t
           | _ => t
           end in
  if kMaxObjectNumber <=? obj_num then t
  else
    let t := AddNormal obj_num (u16 gen_num) obj_pos t in
    match o ≫= CreateObjectStream (λ _, None) with
    | None => t
    | Some os =>
        fold_left (λ t '(n, _), if n <? kMaxObjectNumber then AddCompressed n obj_num t else t) (objects_offsets_ os) t
    end.

Definition keep_two {A} (l : list A) : list A := drop (length l - 2) l.

Fixpoint rebuild_loop (fuel : nat) (numbers : list (Z * Z)) (t : CPDF_CrossRefTable) (s : syntax) :
    option (CPDF_CrossRefTable * syntax) :=
  match fuel with
  | O => None
  | S fuel' =>
      let '(word, is_number, s) := GetNextWord file m_HeaderOffset s in
      if zlen word =? 0 then Some (t, s)
      else if is_number then
        rebuild_loop fuel' (keep_two (numbers ++ [(FXSYS_atoui word, m_Pos s - zlen word)])) t s
      else if bool_decide (word = [40]) then rebuild_loop fuel' [] t (ReadString file m_HeaderOffset s).2
      else if bool_decide (word = [60]) then rebuild_loop fuel' [] t (ReadHexString file m_HeaderOffset s).2
      else if bool_decide (word = str_trailer) then
        let '(o, s) := object_body (λ _, None) file m_HeaderOffset s in rebuild_loop fuel' [] (rebuild_trailer o t) s
      else
        match bool_decide (word = str_obj), numbers with
        | true, [(obj_num, obj_pos); (gen_num, _)] =>
            let '(r, s) := indirect_object file m_HeaderOffset (λ _, None) kStrict (SetPos file obj_pos s) in
            rebuild_loop fuel' [] (rebuild_object obj_num gen_num obj_pos (snd <$> r) t) s
        | _, _ => rebuild_loop fuel' [] t s
        end
  end.

Definition RebuildCrossRef (p : CPDF_Parser) : option (bool * CPDF_Parser) :=
  '(t, s) ← rebuild_loop (S (length file)) [] table_new (SetPos file 0 (m_pSyntax p));
  let p := with_syntax s (with_table (merge_up (m_CrossRefTable p) t) p) in
  Some (bool_decide (is_Some (GetTrailer p)) && negb (bool_decide (objects_info_ (m_CrossRefTable p) = [])), p).

(** ** The start *)
Definition str_startxref : list Z := [115; 116; 97; 114; 116; 120; 114; 101; 102].

Definition ParseStartXRef (p : CPDF_Parser) : Z * CPDF_Parser :=
  let s := SetPos file (GetDocumentSize file m_HeaderOffset - 9) (m_pSyntax p) in
  let '(found, s) := BackwardsSearchToWord file m_HeaderOffset str_startxref 4096 s in
  if negb found then (0, with_syntax s p)
  else
    let s := (GetKeyword file m_HeaderOffset s).2 in
    let '(word, is_number, s) := GetNextWord file m_HeaderOffset s in
    let p := with_syntax s p in
    if negb is_number || (zlen word =? 0) then (0, p)
    else
      let result := FXSYS_atoi64 word in
      (if GetDocumentSize file m_HeaderOffset <=? result then 0 else result, p).

Definition ParseFileVersion (p : CPDF_Parser) : bool * CPDF_Parser :=
  let digit ch := if isdigit ch then FXSYS_DecimalCharToInt ch else 0 in
  match GetCharAt file m_HeaderOffset 5, GetCharAt file m_HeaderOffset 7 with
  | Some c5, Some c7 => (true, with_version (digit c5 * 10 + digit c7) p)
  | Some c5, None => (false, with_version (digit c5 * 10) p)
  | None, _ => (false, with_version 0 p)
  end.

Definition GetRoot (p : CPDF_Parser) : option dict * CPDF_Parser :=
  let '(o, p) := GetOrParseIndirectObject (GetRootObjNum p) p in
  (o ≫= through_reference (holder_in p) dict_of None, p).

Definition GetEncryptDict (p : CPDF_Parser) : option dict * CPDF_Parser :=
  match GetTrailer p ≫= GetObjectFor (bs "Encrypt") with
  | Some (CPDF_Dictionary d) => (Some d, p)
  | Some (CPDF_Reference n) | Some (CPDF_Indirect n) =>
      let '(o, p) := GetOrParseIndirectObject n p in
      (match o with Some (CPDF_Dictionary d) => Some d | _ => None end, p)
  | _ => (None, p)
  end.

Definition GetIDArray (p : CPDF_Parser) : option (list CPDF_Object) :=
  GetTrailer p ≫= λ d, GetArrayFor (holder_in p) d (bs "ID").

(** [None] where the security handler does not return. *)
Definition SetEncryptHandler (p : CPDF_Parser) : option (Error * CPDF_Parser) :=
  let p := with_security None p in
  match GetTrailer p with
  | None => Some (FORMAT_ERROR, p)
  | Some _ =>
      let '(pEncryptDict, p) := GetEncryptDict p in
      match pEncryptDict with
      | None => Some (SUCCESS, p)
      | Some d =>
          if negb (bool_decide (GetNameFor (holder_in p) d (bs "Filter") = bs "Standard")) then Some (HANDLER_ERROR, p)
          else
            '(ok, h) ← OnInit (holder_in p) d (GetIDArray p) password security_new;
            Some (if (ok : bool) then (SUCCESS, with_security (Some h) p) else (PASSWORD_ERROR, p))
      end
  end.

(** [TryInit] of the object holder. *)
Context (TryInit : CPDF_Parser → bool * CPDF_Parser).

(** [m_MetadataObjnum], if whether the metadata is encrypted is [when]. *)
Definition set_metadata (when : bool) (p : CPDF_Parser) : CPDF_Parser :=
  match m_pSecurityHandler p with
  | Some h =>
      if negb (Bool.eqb (IsMetadataEncrypted (holder_in p) h) when) then p
      else
        let '(root, p) := GetRoot p in
        match root ≫= GetObjectFor (bs "Metadata") with
        | Some (CPDF_Reference n) | Some (CPDF_Indirect n) => with_metadata n p
        | _ => p
        end
  | None => p
  end.

(** The first part: a table, read or rebuilt. *)
Definition load_or_rebuild (p : CPDF_Parser) : option (bool * CPDF_Parser) :=
  let '(offset, p) := ParseStartXRef p in
  let p := with_last_xref offset p in
  if kPDFHeaderSize <=? offset then
    '(ok, p) ← LoadAllCrossRefV4 offset p;
    '(ok, p) ← (if (ok : bool) then Some (true, p) else LoadAllCrossRefV5 offset p);
    if (ok : bool) then Some (true, p)
    else
      '(ok, p) ← RebuildCrossRef p;
      Some (if (ok : bool) then (true, with_last_xref 0 (with_rebuilt true p)) else (false, p))
  else
    '(ok, p) ← RebuildCrossRef p;
    Some (if (ok : bool) then (true, with_rebuilt true p) else (false, p)).

(** A second rebuilding, when there is no catalog. *)
Definition rebuild_for_root (p : CPDF_Parser) : option (Error * CPDF_Parser) :=
  if m_bXRefTableRebuilt p then Some (FORMAT_ERROR, p)
  else
    '(ok, p) ← RebuildCrossRef (with_security None p);
    if negb (ok : bool) then Some (FORMAT_ERROR, p)
    else
      '(eRet, p) ← SetEncryptHandler p;
      match eRet with
      | SUCCESS =>
          let p := (TryInit p).2 in
          let '(root, p) := GetRoot p in
          Some (match root with Some _ => SUCCESS | None => FORMAT_ERROR end, p)
      | _ => Some (eRet, p)
      end.

Definition rebuild_for_number (p : CPDF_Parser) : option (Error * CPDF_Parser) :=
  if negb (GetRootObjNum p =? kInvalidObjNum) then Some (SUCCESS, p)
  else
    '(ok, p) ← RebuildCrossRef (with_security None p);
    if negb (ok : bool) || (GetRootObjNum p =? kInvalidObjNum) then Some (FORMAT_ERROR, p) else SetEncryptHandler p.

(** The second part: the security handler, the holder and the catalog. *)
Definition init_document (p : CPDF_Parser) : option (Error * CPDF_Parser) :=
  '(eRet, p) ← SetEncryptHandler p;
  match eRet with
  | SUCCESS =>
      let '(root, p) := GetRoot p in
      let '(ok, p) := match root with Some _ => TryInit p | None => (false, p) end in
      '(eRet, p) ← (if (ok : bool) then Some (SUCCESS, p) else rebuild_for_root p);
      match eRet with SUCCESS => rebuild_for_number p | _ => Some (eRet, p) end
  | _ => Some (eRet, p)
  end.

Definition StartParseInternal (p : CPDF_Parser) : option (Error * CPDF_Parser) :=
  '(ok, p) ← load_or_rebuild (with_xref_stream false p);
  if negb (ok : bool) then Some (FORMAT_ERROR, p)
  else
    '(eRet, p) ← init_document p;
    Some (eRet, match eRet with SUCCESS => set_metadata false p | _ => p end).
End load.

(** [StartParse] on a file: the header first. *)
Definition StartParse `{Inflate} (file password : list Z) (TryInit : Z → CPDF_Parser → bool * CPDF_Parser) :
    option (Error * CPDF_Parser) :=
  match GetHeaderOffset file with
  | None => Some (FORMAT_ERROR, parser_new)
  | Some header_offset =>
      if zlen file <? header_offset + kPDFHeaderSize then Some (FORMAT_ERROR, parser_new)
      else
        let '(ok, p) := ParseFileVersion file header_offset parser_new in
        if negb ok then Some (FORMAT_ERROR, p)
        else StartParseInternal file header_offset password (TryInit header_offset) p
  end.
