(* ===== verification/DocTotal.v ===== *)
(** * Loading a document terminates

    [StartParse] returns for every file and every password: the chains of
    cross-reference sections visit a position of the file once, and rebuilding
    goes through the file without turning back behind an object. *)
From Stdlib Require Import String.
From S2P Require Import Prelude CharTypes FxNumber Syntax Objects ObjectText ObjectTotal Dict Security SecurityText StdMap CrossRef XRef DataDecode DataPipeline DocParser DocLoad.
Import String.StringSyntax.

Section total.
Context `{Inflate} (file : list Z) (hdr : Z) (password : list Z).
Hypothesis Hhdr : 0 <= hdr.

Notation clip := (clip file hdr).
Definition parser_ok (p : CPDF_Parser) : Prop := state_ok (m_pSyntax p).

(** A position whose byte is in the file. *)
Definition in_file (pos : Z) : Prop := 0 <= pos + hdr < zlen file.

(** ** Objects *)
Lemma word_in_file s w num s' :
  state_ok s → GetNextWord file hdr s = (w, num, s') → state_ok s' ∧ clip s + zlen w <= clip s' ∧
    (w ≠ [] → in_file (m_Pos s)).
Proof.
  intros Hs E. destruct (word_total file hdr s Hs) as (w2 & num2 & s2 & E2 & Hs2 & Hc & Hp & Hin).
  rewrite E in E2. injection E2 as <- <- <-. split_and!; [done|done|]. intros Hne. destruct (Hin Hne).
  assert (1 <= zlen w) by (destruct w; [done|unfold zlen; cbn [length]; lia]).
  unfold in_file, m_FileLen in *. lia.
Qed.

Lemma indirect_total holder t s :
  state_ok s → ∃ r s', GetIndirectObject file hdr holder t s = Some (r, s') ∧ state_ok s' ∧
    (is_Some r → in_file (m_Pos s)).
Proof.
  intros Hs. unfold GetIndirectObject, GetKeyword.
  destruct (GetNextWord file hdr s) as [[w1 n1] s1] eqn:E1. destruct (word_in_file _ _ _ _ Hs E1) as (Hs1 & _ & Hin).
  assert (Hno : ∀ s', state_ok s' → ∃ r s'', Some (None, s') = Some (r, s'') ∧ state_ok s'' ∧
    (is_Some (r : option (Z * Z * CPDF_Object)) → in_file (m_Pos s))).
  { intros s' Hs'. exists None, s'. split_and!; [done|done|by intros [? ?]]. }
  assert (Hback : ∀ s', state_ok s' → state_ok (SetPos file (m_Pos s) s')) by done.
  destruct n1; cbn [negb orb]; [|by apply Hno, Hback]. destruct (Z.eqb_spec (zlen w1) 0) as [|Hz]; [by apply Hno, Hback|].
  specialize (Hin ltac:(by intros ->)).
  destruct (GetNextWord file hdr s1) as [[w2 n2] s2] eqn:E2. destruct (word_in_file _ _ _ _ Hs1 E2) as (Hs2 & _).
  destruct (negb n2 || _); [by apply Hno, Hback|].
  destruct (GetNextWord file hdr s2) as [[w3 n3] s3] eqn:E3. destruct (word_in_file _ _ _ _ Hs2 E3) as (Hs3 & _).
  destruct (negb _); [by apply Hno, Hback|].
  destruct (get_total file hdr holder Hhdr kParserMaxRecursionDepth t s3 Hs3) as (r & s4 & E4 & Hs4 & _).
  unfold GetObjectBodyInternal. rewrite E4. cbn [mbind option_bind].
  destruct r as [o|]; [|by apply Hno]. eexists _, s4. by split_and!.
Qed.

Lemma indirect_object_ok holder t s :
  state_ok s → let '(r, s') := indirect_object file hdr holder t s in state_ok s' ∧ (is_Some r → in_file (m_Pos s)).
Proof. intros Hs. unfold indirect_object. by destruct (indirect_total holder t s Hs) as (r & s' & -> & ? & ?). Qed.

Lemma object_body_ok holder s :
  state_ok s → state_ok (object_body holder file hdr s).2 ∧ clip s <= clip (object_body holder file hdr s).2.
Proof.
  intros Hs. unfold object_body, GetObjectBody, GetObjectBodyInternal.
  by destruct (get_total file hdr holder Hhdr kParserMaxRecursionDepth kLoose s Hs) as (r & s' & -> & ? & ? & _).
Qed.

(** What was set to [pos] and is in the file stands there. *)
Lemma in_file_SetPos pos s : in_file (m_Pos (SetPos file pos s)) → in_file pos.
Proof. unfold in_file, SetPos, m_FileLen. cbn. lia. Qed.

Lemma object_at_ok get pos n p :
  parser_ok p → let '(r, p') := ParseIndirectObjectAt file hdr get pos n p in
  parser_ok p' ∧ (is_Some r → in_file pos).
Proof.
  intros Hp. unfold ParseIndirectObjectAt.
  pose proof (indirect_object_ok (λ n, get n p) kLoose (SetPos file pos (m_pSyntax p)) Hp) as Ho.
  destruct (indirect_object file hdr _ kLoose _) as [[[[k g] o]|] s]; destruct Ho as [Hs Hin]; [|by split; [|intros [? ?]]].
  specialize (Hin ltac:(done)). apply in_file_SetPos in Hin.
  destruct (_ && _); [by split; [|intros [? ?]]|]. destruct (_ ≫= _); [|by split]. by destruct (n =? _).
Qed.

Lemma while_parsing_ok {A} n (f : CPDF_Parser → A * CPDF_Parser) p :
  (∀ p, parser_ok p → parser_ok (f p).2) → parser_ok p → parser_ok (while_parsing n f p).2.
Proof.
  intros Hf Hp. unfold while_parsing. pose proof (Hf (with_parsing (n :: m_ParsingObjNums p) p) Hp) as H1.
  by destruct (f _) as [r p'].
Qed.

Lemma object_stream_ok get n p : parser_ok p → parser_ok (GetObjectStream file hdr get n p).2.
Proof.
  intros Hp. unfold GetObjectStream. destruct (decide _); [done|]. destruct (find n (m_ObjectStreamMap p)); [done|].
  destruct (GetObjectInfo _ _) as [info|]; [|done]. destruct (negb _); [done|]. destruct (_ <=? _); [done|].
  apply while_parsing_ok; [|done]. intros p' Hp'. pose proof (object_at_ok get (pos info) n p' Hp') as Ho.
  destruct (ParseIndirectObjectAt _ _ _ _ _ _) as [[[k o]|] p2]; by destruct Ho.
Qed.

Lemma indirect_ok get n p : parser_ok p → parser_ok (ParseIndirectObject file hdr get n p).2.
Proof.
  intros Hp. unfold ParseIndirectObject. destruct (negb _); [done|]. destruct (decide _); [done|].
  apply while_parsing_ok; [|done]. intros p' Hp'. destruct (GetObjectInfo _ _) as [info|]; [|done].
  destruct (type info); try done.
  - destruct (_ <=? 0); [done|]. pose proof (object_at_ok get (GetObjectPositionOrZero p' n) n p' Hp') as Ho.
    destruct (ParseIndirectObjectAt _ _ _ _ _ _). by destruct Ho.
  - pose proof (object_stream_ok get (archive_obj_num info) p' Hp') as Ho.
    by destruct (GetObjectStream _ _ _ _ _) as [[os|] p2].
Qed.

Lemma get_or_parse_ok n p : parser_ok p → parser_ok (GetOrParseIndirectObject file hdr n p).2.
Proof.
  intros Hp. unfold GetOrParseIndirectObject. generalize (depth_for p). intros d. destruct d as [|d]; cbn [get_or_parse]; [done|].
  destruct (_ || _); [done|]. destruct (find n (m_IndirectObjs p)); [done|].
  match goal with |- context [ParseIndirectObject _ _ ?g n ?p'] => pose proof (indirect_ok g n p' Hp) as Ho;
    destruct (ParseIndirectObject file hdr g n p') as [[o|] p2] end; exact Ho.
Qed.

(** ** Cross-reference sections *)
Lemma segment_ok count : ∀ i start w span ws p, parser_ok p → parser_ok (process_segment count i start w span ws p).
Proof.
  induction count as [|count IH]; intros i start w span ws p Hp; cbn [process_segment]; [done|].
  destruct (_ <=? _); [done|]. by apply IH.
Qed.

Lemma segments_ok l : ∀ i w span ws p, parser_ok p → parser_ok (process_segments l i w span ws p).
Proof.
  induction l as [|[start count] l IH]; intros i w span ws p Hp; cbn [process_segments]; [done|].
  destruct (_ ≫= _); [|by apply IH]. destruct (_ <? _); [by apply IH|]. destruct (safe_u32 _); [|by apply IH].
  destruct (_ <? _); [by apply IH|]. by apply IH, segment_ok.
Qed.

Lemma LoadCrossRefV5_ok pos main p :
  parser_ok p → let '(ok, _, p') := LoadCrossRefV5 file hdr pos main p in parser_ok p' ∧ (ok = true → in_file pos).
Proof.
  intros Hp. unfold LoadCrossRefV5. pose proof (object_at_ok (get_in file hdr) pos 0 p Hp) as Ho.
  destruct (ParseIndirectObjectAt _ _ _ _ _ _) as [[[n o]|] p1]; destruct Ho as [H1 Hin]; [|by split].
  specialize (Hin ltac:(done)). destruct o; try by split.
  destruct (n =? 0); [by split|]. destruct (_ <? 0); [by split|]. destruct (_ <? kMinFieldCount); [by split|].
  destruct (sum_widths _); [|by split]. split; [|done]. by apply segments_ok.
Qed.

Lemma LoadCrossRefV4_ok pos skip p : parser_ok p → parser_ok (LoadCrossRefV4 file hdr pos skip p).2.
Proof.
  intros Hp. unfold LoadCrossRefV4.
  by destruct (LoadCrossRefV4_total file hdr Hhdr pos skip (m_CrossRefTable p) (m_pSyntax p) Hp) as (ok & t & s & -> & ? & _).
Qed.

Lemma LoadTrailerV4_ok p : parser_ok p → parser_ok (LoadTrailerV4 file hdr p).2.
Proof.
  intros Hp. unfold LoadTrailerV4, GetKeyword. destruct (GetNextWord file hdr (m_pSyntax p)) as [[w n] s] eqn:E.
  destruct (word_in_file _ _ _ _ Hp E) as (Hs & _). destruct (negb _); [done|].
  pose proof (object_body_ok (holder_in file hdr p) s Hs) as [Ho _]. destruct (object_body _ _ _ _). exact Ho.
Qed.

(** A trailer is only found behind a section that is in the file. *)
Lemma trailer_in_file pos p :
  parser_ok p → is_Some (LoadTrailerV4 file hdr (LoadCrossRefV4 file hdr pos true p).2).1 → in_file pos.
Proof.
  intros Hp Ht. destruct (decide (in_file pos)) as [|Hout]; [done|]. exfalso. revert Ht.
  assert (Hsuf : suffix file hdr (m_Pos (SetPos file pos (m_pSyntax p))) = []).
  { unfold suffix, in_file, SetPos in *. cbn [m_Pos at_pos]. destruct (Z.leb_spec 0 (Z.min pos (m_FileLen file) + hdr)); [|done].
    apply drop_ge. unfold m_FileLen, zlen in *. lia. }
  assert (Hw : ∀ s, suffix file hdr (m_Pos s) = [] →
    ∃ s', GetNextWord file hdr s = ([], true, s') ∧ suffix file hdr (m_Pos s') = []).
  { intros s E. unfold GetNextWord, GetNextWordInternal, ToNextWord. rewrite E. cbn [to_next_word m_Pos at_pos].
    rewrite E. by eexists. }
  unfold LoadCrossRefV4, XRef.LoadCrossRefV4, ParseCrossRefV4, GetKeyword.
  destruct (Hw _ Hsuf) as (s1 & -> & Hs1). rewrite bool_decide_eq_false_2 by done. cbn [negb mbind option_bind snd].
  unfold LoadTrailerV4, GetKeyword. cbn [m_pSyntax with_syntax].
  destruct (Hw _ Hs1) as (s2 & -> & _). rewrite bool_decide_eq_false_2 by done. cbn. by intros [? ?].
Qed.

(** ** Chains *)
Lemma positions_bound (l : list Z) : NoDup l → Forall in_file l → (length l <= length file)%nat.
Proof.
  intros Hnd Hin.
  assert (Hsub : l ⊆+ seqZ (- hdr) (zlen file)).
  { apply NoDup_submseteq; [done|]. intros x Hx. apply elem_of_seqZ. rewrite Forall_forall in Hin.
    specialize (Hin x Hx). unfold in_file in Hin. lia. }
  apply submseteq_length in Hsub. rewrite length_seqZ in Hsub. unfold zlen in *. lia.
Qed.

Lemma prev_loop_ok fuel : ∀ R o seen l ls p,
  parser_ok p → NoDup R → Forall in_file R → (∀ x, x ∈ R → x ∈ seen) → (length file < fuel + length R)%nat →
  ∃ r p', prev_loop file hdr fuel o seen l ls p = Some (r, p') ∧ parser_ok p'.
Proof.
  induction fuel as [|fuel IH]; intros R o seen l ls p Hp Hnd Hin Hsub Hf.
  { pose proof (positions_bound R Hnd Hin). lia. }
  cbn [prev_loop]. destruct (o =? 0); [by eexists _, _|]. destruct (decide (o ∈ seen)) as [|Hno]; [by eexists _, _|].
  pose proof (LoadCrossRefV4_ok o true p Hp) as H1. pose proof (LoadTrailerV4_ok _ H1) as H2.
  pose proof (trailer_in_file o p Hp) as Ho. destruct (LoadTrailerV4 _ _ _) as [[d|] p2]; [|by eexists _, _].
  specialize (Ho ltac:(done)). apply (IH (o :: R)).
  - exact H2.
  - constructor; [|done]. intros Hx. by apply Hno, Hsub.
  - by constructor.
  - intros x [->|Hx]%elem_of_cons; [left|right; by apply Hsub].
  - cbn [length]. lia.
Qed.

Lemma stream_loop_ok fuel : ∀ seen o p,
  parser_ok p → NoDup seen → Forall in_file seen → o ∉ seen → (length file < fuel + length seen)%nat →
  ∃ r p', xref_stream_loop file hdr fuel seen o p = Some (r, p') ∧ parser_ok p'.
Proof.
  induction fuel as [|fuel IH]; intros seen o p Hp Hnd Hin Hno Hf.
  { pose proof (positions_bound seen Hnd Hin). lia. }
  cbn [xref_stream_loop]. destruct (o =? 0); [by eexists _, _|].
  pose proof (LoadCrossRefV5_ok o false p Hp) as Hl. destruct (LoadCrossRefV5 _ _ o false p) as [[ok o'] p1].
  destruct Hl as [Hp1 Hok]. destruct ok; cbn [negb]; [|by eexists _, _]. specialize (Hok eq_refl).
  destruct (decide _) as [|Hno']; [by eexists _, _|]. apply IH; [done|by constructor|by constructor|done|cbn [length]; lia].
Qed.

Lemma LoadAllCrossRefV5_ok o p :
  parser_ok p → ∃ r p', LoadAllCrossRefV5 file hdr o p = Some (r, p') ∧ parser_ok p'.
Proof.
  intros Hp. unfold LoadAllCrossRefV5. pose proof (LoadCrossRefV5_ok o true p Hp) as Hl.
  destruct (LoadCrossRefV5 _ _ o true p) as [[ok o'] p1]. destruct Hl as [Hp1 _].
  destruct ok; cbn [negb]; [|by eexists _, _].
  destruct (stream_loop_ok (chain_fuel file) [] o' p1 Hp1) as (r & p2 & -> & Hp2);
    [constructor|constructor|by intros ?%elem_of_nil|unfold chain_fuel; cbn; lia|].
  cbn [mbind option_bind]. destruct r; by eexists _, _.
Qed.

Lemma verify_ok p : parser_ok p → parser_ok (VerifyCrossRefV4 file hdr p).2.
Proof.
  intros Hp. unfold VerifyCrossRefV4. destruct (first_nonzero _) as [[n o]|]; [|done].
  assert (Hq : state_ok (SetPos file o (m_pSyntax p))) by exact Hp.
  destruct (GetNextWord file hdr _) as [[w num] s] eqn:E. by destruct (word_in_file _ _ _ _ Hq E) as (Hs & _).
Qed.

Lemma load_tables_ok l : ∀ first p, parser_ok p → parser_ok (load_tables file hdr first l p).2.
Proof.
  induction l as [|[o st] l IH]; intros first p Hp; cbn [load_tables]; [done|].
  pose proof (LoadCrossRefV4_ok o false p Hp) as H1. destruct (LoadCrossRefV4 _ _ o false p) as [ok p1].
  cbn [snd] in H1. destruct ok; cbn [negb]; [|done].
  assert (H2 : parser_ok (if st =? 0 then (true, p1) else let '(ok, _, p) := LoadCrossRefV5 file hdr st false p1 in (ok, p)).2).
  { destruct (st =? 0); [done|]. pose proof (LoadCrossRefV5_ok st false p1 H1) as Hl.
    destruct (LoadCrossRefV5 _ _ st false p1) as [[ok o'] p2]. by destruct Hl. }
  destruct (if st =? 0 then _ else _) as [ok p2]. cbn [snd] in H2. destruct ok; cbn [negb]; [|done].
  assert (H3 : parser_ok (if first then VerifyCrossRefV4 file hdr p2 else (true, p2)).2)
    by (destruct first; [by apply verify_ok|done]).
  destruct (if first then _ else _) as [ok p3]. cbn [snd] in H3. destruct ok; cbn [negb]; [by apply IH|done].
Qed.

Lemma LoadAllCrossRefV4_ok o p :
  parser_ok p → ∃ r p', LoadAllCrossRefV4 file hdr o p = Some (r, p') ∧ parser_ok p'.
Proof.
  intros Hp. unfold LoadAllCrossRefV4. pose proof (LoadCrossRefV4_ok o true p Hp) as H1.
  destruct (LoadCrossRefV4 _ _ o true p) as [ok p1]. cbn [snd] in H1. destruct ok; cbn [negb]; [|by eexists _, _].
  pose proof (LoadTrailerV4_ok p1 H1) as H2. destruct (LoadTrailerV4 _ _ p1) as [[d|] p2]; cbn [snd] in H2; [|by eexists _, _].
  match goal with |- context [prev_loop _ _ _ ?o2 ?s ?l ?ls ?p3] =>
    destruct (prev_loop_ok (chain_fuel file) [] o2 s l ls p3) as (r & p4 & E & Hp4) end;
    [by destruct (_ && _)|constructor|constructor|by intros ? ?%elem_of_nil|unfold chain_fuel; cbn; lia|].
  rewrite E. cbn [mbind option_bind]. destruct r as [[l ls]|]; [|by eexists _, _].
  eexists _, _. split; [f_equal; apply surjective_pairing|]. by apply load_tables_ok.
Qed.

(** ** Rebuilding

    A number that was read is read again from its position, which for a number of
    more than 256 characters is inside of it, and ends at the same place. *)
Lemma span_stops stop l : match (span stop l).2 with c :: _ => stop c = true | [] => True end.
Proof.
  induction l as [|c l IH]; [done|]. cbn [span]. destruct (stop c) eqn:E; [done|]. by destruct (span stop l).
Qed.

Lemma numeric_tail l w r :
  lex l = (w, true, r) → w ≠ [] →
  ∃ a full, l = a ++ full ++ r ∧ full ≠ [] ∧ w = take 256 full ∧ Forall (λ c, PDFCharIsNumeric c = true) full ∧ boundary r.
Proof.
  intros E Hne. destruct (strip_app l) as (a & El & _). unfold lex in E.
  destruct (strip l) as [|ch rest]; [by injection E as <- <-|].
  destruct (PDFCharIsDelimiter ch).
  { destruct (ch =? 47); [destruct (span name_stop rest); discriminate|].
    destruct rest as [|c rest]; [discriminate|]. destruct (_ || _); discriminate. }
  pose proof (span_app word_stop rest) as Hs. pose proof (span_stops word_stop rest) as Hb.
  destruct (span word_stop rest) as [w' r']. cbn [fst snd] in *. injection E as <- Hn <-.
  exists a, (ch :: w'). split_and!; [by rewrite El, <-Hs|done|done| |done].
  apply Forall_forall. intros x Hx. change (forallb PDFCharIsNumeric (ch :: w') = true) in Hn.
  apply (proj1 (forallb_forall _ _) Hn). by apply list_elem_of_In.
Qed.

Definition reread (pos pos' : Z) : Prop :=
  ∀ s, state_ok s → m_Pos s = pos →
  ∃ w s', GetNextWord file hdr s = (w, true, s') ∧ w ≠ [] ∧ m_Pos s' = pos' ∧ state_ok s'.

Lemma reread_lex s l w r :
  At file hdr s l → lex l = (w, true, r) → w ≠ [] → reread (m_Pos s) (m_Pos s + (zlen l - zlen r)).
Proof.
  intros (El & Hp & _) E Hne s2 Hs2 Ep. assert (Hat : At file hdr s2 l) by (by rewrite <-Ep in El, Hp).
  pose proof (GetNextWord_lex file hdr s2 l Hat) as Hl. rewrite E in Hl. destruct Hl as (s' & E' & (_ & _ & Hb) & Hpos & _).
  exists w, s'. split_and!; [done|done|by rewrite Hpos, Ep|done].
Qed.

Lemma reread_word s w s' :
  state_ok s → GetNextWord file hdr s = (w, true, s') → w ≠ [] →
  reread (m_Pos s) (m_Pos s') ∧ reread (m_Pos s' - zlen w) (m_Pos s') ∧ in_file (m_Pos s' - zlen w) ∧ m_Pos s' <= zlen file.
Proof.
  intros Hs E Hne. destruct (word_in_file _ _ _ _ Hs E) as (Hs' & _ & Hin). specialize (Hin Hne). unfold in_file in *.
  assert (Hat : At file hdr s (suffix file hdr (m_Pos s))) by (split_and!; [done|lia|done]).
  pose proof (GetNextWord_lex file hdr s _ Hat) as Hl. pose proof (suffix_length file hdr (m_Pos s)) as Hlen.
  replace (0 <=? _) with true in Hlen by lia. unfold m_FileLen in Hlen.
  destruct (lex (suffix file hdr (m_Pos s))) as [[w2 num] r] eqn:Elex. destruct Hl as (s2 & E2 & _ & Hpos & _).
  rewrite E in E2. injection E2 as <- <- <-.
  destruct (numeric_tail _ _ _ Elex Hne) as (a & full & El & Hfull & Ew & Hnum & Hr).
  set (k := (length full - length w)%nat). set (post := drop k full).
  assert (Hw : (length w <= length full)%nat ∧ (length w <= 256)%nat) by (rewrite Ew, length_take; lia).
  assert (Hpost : length post = length w) by (unfold post, k; rewrite length_drop; lia).
  assert (Epre : suffix file hdr (m_Pos s) = (a ++ take k full) ++ post ++ r)
    by (rewrite El, <-app_assoc, (app_assoc (take k full)); unfold post; by rewrite take_drop).
  assert (Ep : m_Pos s' - zlen w = m_Pos s + zlen (a ++ take k full)).
  { rewrite Hpos, Epre at 1. rewrite !zlen_app. unfold zlen in *. lia. }
  assert (Hne1 : 1 <= zlen w) by (destruct w; [done|unfold zlen; cbn [length]; lia]).
  pose proof (zlen_nonneg (a ++ take k full)). pose proof (zlen_nonneg r).
  assert (Hle : m_Pos s' + hdr <= zlen file) by lia.
  split_and!; [| |lia|lia|lia].
  - rewrite Hpos. by apply (reread_lex s _ w r).
  - rewrite Ep. replace (m_Pos s') with (m_Pos s + zlen (a ++ take k full) + (zlen (post ++ r) - zlen r))
      by (rewrite (zlen_app post); unfold zlen in *; lia).
    apply (reread_lex (at_pos (m_Pos s + zlen (a ++ take k full)) s) _ post r).
    + split_and!; [|cbn [m_Pos at_pos]; lia|done]. apply suffix_app; [done|lia].
    + assert (Hnp : Forall (λ c, PDFCharIsNumeric c = true) post) by (by apply Forall_drop).
      rewrite lex_word; [by rewrite numeric_forallb|by apply numeric_regular| |unfold zlen; lia|done].
      intros Ep0. rewrite Ep0 in Hpost. destruct w; done.
    + intros Ep0. rewrite Ep0 in Hpost. destruct w; done.
Qed.

(** The numbers that are kept, when the parser stands at [pos]. *)
Definition numbers_ok (numbers : list (Z * Z)) (pos : Z) : Prop :=
  Forall (λ n, in_file n.2 ∧ n.2 <= zlen file) numbers ∧
  match numbers with
  | [] => True
  | [(_, p1)] => reread p1 pos
  | [(_, p1); (_, p2)] => reread p2 pos ∧ ∃ q, reread p1 q ∧ reread q pos
  | _ => False
  end.

Lemma numbers_snoc numbers n pos p' pos' :
  numbers_ok numbers pos → reread pos pos' → reread p' pos' → in_file p' → p' <= zlen file →
  numbers_ok (keep_two (numbers ++ [(n, p')])) pos'.
Proof.
  intros [Hf Hn] H1 H2 H3 H4. assert (Hnew : in_file (n, p').2 ∧ (n, p').2 <= zlen file) by done.
  destruct numbers as [|[n1 p1] [|[n2 p2] [|? ?]]]; cbn; split.
  - by apply List.Forall_cons.
  - done.
  - inversion Hf; subst. by repeat (apply List.Forall_cons; [assumption|]).
  - split; [done|]. by exists pos.
  - inversion Hf as [|? ? ? Hf2]; subst. inversion Hf2; subst. by repeat (apply List.Forall_cons; [assumption|]).
  - destruct Hn as [Hn _]. split; [done|]. by exists pos.
  - done.
  - done.
Qed.

(** The object behind two numbers ends behind its keyword. *)
Lemma rebuild_object_forward t n1 p1 n2 p2 s0 w s1 :
  state_ok s0 → numbers_ok [(n1, p1); (n2, p2)] (m_Pos s0) → GetNextWord file hdr s0 = (w, false, s1) → w = str_obj →
  let s' := (indirect_object file hdr (λ _, None) t (SetPos file p1 s1)).2 in state_ok s' ∧ clip s1 <= clip s'.
Proof.
  intros Hs0 [Hf (_ & q & Hr1 & Hr2)] E ->. inversion Hf as [|? ? [Hin Hle] _]; subst. cbn [snd] in *.
  destruct (word_in_file _ _ _ _ Hs0 E) as (Hs1 & _).
  unfold indirect_object, GetIndirectObject, GetKeyword.
  assert (Hp : m_Pos (SetPos file p1 s1) = p1) by (unfold SetPos, m_FileLen; cbn; lia).
  destruct (Hr1 _ (Hs1 : state_ok (SetPos file p1 s1)) Hp) as (w1 & sa & Ea & Hwa & Hqa & Hsa).
  rewrite Ea. cbn [negb orb]. destruct (Z.eqb_spec (zlen w1) 0) as [Hz|_]; [destruct w1; [done|unfold zlen in Hz; cbn in Hz; lia]|].
  destruct (Hr2 _ Hsa Hqa) as (w2 & sb & Eb & Hwb & Hqb & Hsb).
  rewrite Eb. cbn [negb orb]. destruct (Z.eqb_spec (zlen w2) 0) as [Hz|_]; [destruct w2; [done|unfold zlen in Hz; cbn in Hz; lia]|].
  destruct (word_in_file _ _ _ _ Hs0 E) as (_ & _ & Hin0). specialize (Hin0 ltac:(done)). unfold in_file in Hin0.
  assert (Hat0 : At file hdr s0 (suffix file hdr (m_Pos s0))) by (split_and!; [done|lia|done]).
  assert (Hatb : At file hdr sb (suffix file hdr (m_Pos s0))) by (rewrite <-Hqb; split_and!; [done|lia|done]).
  pose proof (GetNextWord_lex file hdr s0 _ Hat0) as L0. pose proof (GetNextWord_lex file hdr sb _ Hatb) as Lb.
  destruct (lex (suffix file hdr (m_Pos s0))) as [[w3 n3] r3]. destruct L0 as (sx & Ex & _ & Hpx & _).
  destruct Lb as (sc & Ec & (_ & _ & Hsc) & Hpc & _). rewrite E in Ex. injection Ex as <- <- <-.
  rewrite Ec. rewrite bool_decide_eq_true_2 by done. cbn [negb].
  destruct (get_total file hdr (λ _, None) Hhdr kParserMaxRecursionDepth t sc Hsc) as (r & s4 & E4 & Hs4 & Hc4 & _).
  unfold GetObjectBodyInternal. rewrite E4. cbn [mbind option_bind].
  assert (Hcc : clip sc = clip s1) by (unfold ObjectTotal.clip; rewrite Hpc, Hpx, Hqb; done).
  destruct r as [o|]; cbn; (split; [done|lia]).
Qed.

Lemma rebuild_loop_total fuel : ∀ numbers t s,
  state_ok s → numbers_ok numbers (m_Pos s) → zlen file - clip s < Z.of_nat fuel →
  ∃ t' s', rebuild_loop file hdr fuel numbers t s = Some (t', s') ∧ state_ok s'.
Proof.
  induction fuel as [|fuel IH]; intros numbers t s Hs Hn Hf.
  { pose proof (clip_nonneg file hdr s). unfold m_FileLen in *. lia. }
  cbn [rebuild_loop]. destruct (GetNextWord file hdr s) as [[w num] s1] eqn:E.
  destruct (word_in_file _ _ _ _ Hs E) as (Hs1 & Hc1 & _). pose proof (zlen_nonneg w) as Hwn.
  destruct (Z.eqb_spec (zlen w) 0) as [|Hz]; [by exists t, s1|].
  assert (Hw : w ≠ []) by (by intros ->).
  assert (Hnext : ∀ t s2, state_ok s2 → clip s1 <= clip s2 →
    ∃ t' s', rebuild_loop file hdr fuel [] t s2 = Some (t', s') ∧ state_ok s').
  { intros t2 s2 Hs2 Hc2. apply IH; [done|by split|lia]. }
  destruct num.
  { destruct (reread_word s w s1 Hs E Hw) as (Hr1 & Hr2 & Hr3 & Hr4). apply IH; [done| |lia].
    apply (numbers_snoc _ _ (m_Pos s)); try done. lia. }
  destruct (bool_decide (w = [40])).
  { unfold ReadString. pose proof (read_string_pos (suffix file hdr (m_Pos s1)) (m_Pos s1) Syntax.kNormal 0 0 []) as Hr.
    destruct (read_string _ _ _ _ _ _) as [str pos]. cbn in Hr.
    destruct (move_total file hdr s1 pos Hs1 ltac:(lia)) as [Hm1 Hm2]. by apply Hnext. }
  destruct (bool_decide (w = [60])).
  { unfold ReadHexString. pose proof (read_hex_pos (suffix file hdr (m_Pos s1)) (m_Pos s1) true 0 []) as Hr.
    destruct (read_hex_string _ _ _ _ _) as [str pos]. cbn in Hr.
    destruct (move_total file hdr s1 pos Hs1 ltac:(lia)) as [Hm1 Hm2]. by apply Hnext. }
  case_bool_decide.
  { pose proof (object_body_ok (λ _, None) s1 Hs1) as [Hm1 Hm2]. destruct (object_body _ _ _ s1) as [o s2]. by apply Hnext. }
  case_bool_decide as Eo; [|by apply Hnext; [|lia]].
  destruct numbers as [|[n1 p1] [|[n2 p2] [|? ?]]]; try (apply Hnext; [done|lia]).
  pose proof (rebuild_object_forward kStrict n1 p1 n2 p2 s w s1 Hs Hn E Eo) as [Ho1 Ho2].
  destruct (indirect_object _ _ _ _ _) as [r s2]. by apply Hnext.
Qed.

Lemma RebuildCrossRef_ok p : parser_ok p → ∃ r p', RebuildCrossRef file hdr p = Some (r, p') ∧ parser_ok p'.
Proof.
  intros Hp. unfold RebuildCrossRef.
  destruct (rebuild_loop_total (S (length file)) [] table_new (SetPos file 0 (m_pSyntax p))) as (t & s & -> & Hs);
    [exact Hp|by split|pose proof (clip_nonneg file hdr (SetPos file 0 (m_pSyntax p))); unfold zlen; lia|].
  cbn [mbind option_bind]. by eexists _, _.
Qed.

(** ** The start *)
Lemma start_xref_ok p : parser_ok p → parser_ok (ParseStartXRef file hdr p).2.
Proof.
  intros Hp. unfold ParseStartXRef, BackwardsSearchToWord. cbn [Z.eqb]. change (zlen str_startxref =? 0) with false. cbn iota.
  destruct (backwards_search _ _ _ _ _ _ _ _) as [pos|]; cbn [negb]; [|done]. unfold GetKeyword.
  match goal with |- context [GetNextWord file hdr ?s] => assert (Hs : state_ok s) by exact Hp;
    destruct (GetNextWord file hdr s) as [[w n] s1] eqn:E1 end.
  destruct (word_in_file _ _ _ _ Hs E1) as (Hs1 & _). cbn [snd].
  destruct (GetNextWord file hdr s1) as [[w2 n2] s2] eqn:E2. destruct (word_in_file _ _ _ _ Hs1 E2) as (Hs2 & _).
  by destruct (_ || _).
Qed.

Lemma get_root_ok p : parser_ok p → parser_ok (GetRoot file hdr p).2.
Proof.
  intros Hp. unfold GetRoot. pose proof (get_or_parse_ok (GetRootObjNum p) p Hp) as H1.
  by destruct (GetOrParseIndirectObject _ _ _ _).
Qed.

Lemma encrypt_dict_ok p : parser_ok p → parser_ok (GetEncryptDict file hdr p).2.
Proof.
  intros Hp. unfold GetEncryptDict.
  assert (Hn : ∀ n, parser_ok (let '(o, p) := GetOrParseIndirectObject file hdr n p in
      (match o with Some (CPDF_Dictionary d) => Some d | _ => None end, p)).2).
  { intros n. pose proof (get_or_parse_ok n p Hp) as H1. by destruct (GetOrParseIndirectObject _ _ _ _). }
  destruct (_ ≫= _) as [[]|]; try done; apply Hn.
Qed.

Lemma OnInit_total holder d ids h : ∃ r, OnInit holder d ids password h = Some r.
Proof.
  unfold OnInit, CheckSecurity. destruct (LoadDict _ _ _ _) as [ok h1]. destruct (negb ok); [by eexists|].
  destruct (decide _); [by eexists|].
  assert (Hf : ∃ ok h2, (if decide (password = []) then Some (false, h1) else CheckPassword holder password true h1) = Some (ok, h2)).
  { destruct (decide _); [by eexists _, _|]. destruct (check_total holder password true h1) as (ok2 & h2 & E & _). by exists ok2, h2. }
  destruct Hf as (ok2 & h2 & ->). cbn [mbind option_bind]. destruct ok2; [by eexists|].
  destruct (check_total holder password false h2) as (ok3 & h3 & -> & _). cbn [mbind option_bind]. by destruct ok3; eexists.
Qed.

Lemma security_ok p : parser_ok p → ∃ r p', SetEncryptHandler file hdr password p = Some (r, p') ∧ parser_ok p'.
Proof.
  intros Hp. unfold SetEncryptHandler. destruct (GetTrailer _); [|by eexists _, _].
  pose proof (encrypt_dict_ok (with_security None p) Hp) as H1.
  destruct (GetEncryptDict _ _ _) as [[d'|] p1]; [|by eexists _, _]. destruct (negb _); [by eexists _, _|].
  destruct (OnInit_total (holder_in file hdr p1) d' (GetIDArray file hdr p1) security_new) as [[ok h] ->].
  cbn [mbind option_bind]. by destruct ok; eexists _, _.
Qed.

Context (TryInit : CPDF_Parser → bool * CPDF_Parser).
Hypothesis HTryInit : ∀ p, parser_ok p → parser_ok (TryInit p).2.

Lemma set_metadata_ok when p : parser_ok p → parser_ok (set_metadata file hdr when p).
Proof.
  intros Hp. unfold set_metadata. destruct (m_pSecurityHandler p); [|done]. destruct (negb _); [done|].
  pose proof (get_root_ok p Hp) as H1. destruct (GetRoot _ _ p) as [root p1]. by destruct (_ ≫= _) as [[]|].
Qed.

Lemma load_or_rebuild_ok p : parser_ok p → ∃ r p', load_or_rebuild file hdr p = Some (r, p') ∧ parser_ok p'.
Proof.
  intros Hp. unfold load_or_rebuild. pose proof (start_xref_ok p Hp) as H1. destruct (ParseStartXRef _ _ _) as [o p1].
  assert (Hre : ∀ p (g : CPDF_Parser → CPDF_Parser), parser_ok p → (∀ p, parser_ok p → parser_ok (g p)) →
    ∃ r p', ('(ok, p) ← RebuildCrossRef file hdr p; Some (if (ok : bool) then (true, g p) else (false, p))) = Some (r, p') ∧ parser_ok p').
  { intros q g Hq Hg. destruct (RebuildCrossRef_ok q Hq) as (r & p2 & -> & Hp2). cbn [mbind option_bind].
    destruct r; eexists _, _; split; try done. by apply Hg. }
  destruct (_ <=? o); [|by apply Hre].
  destruct (LoadAllCrossRefV4_ok o (with_last_xref o p1) H1) as (r & p2 & -> & Hp2). cbn [mbind option_bind].
  assert (H5 : ∃ r5 p5, (if (r : bool) then Some (true, p2) else LoadAllCrossRefV5 file hdr o p2) = Some (r5, p5) ∧ parser_ok p5).
  { destruct r; [by eexists _, _|by apply LoadAllCrossRefV5_ok]. }
  destruct H5 as (r5 & p5 & -> & Hp5). cbn [mbind option_bind]. destruct r5; [by eexists _, _|]. by apply Hre.
Qed.

Lemma rebuild_root_ok p : parser_ok p → ∃ r p', rebuild_for_root file hdr password TryInit p = Some (r, p') ∧ parser_ok p'.
Proof.
  intros Hp. unfold rebuild_for_root. destruct (m_bXRefTableRebuilt p); [by eexists _, _|].
  destruct (RebuildCrossRef_ok (with_security None p) Hp) as (r & p2 & -> & Hp2). cbn [mbind option_bind].
  destruct (negb r); [by eexists _, _|]. destruct (security_ok p2 Hp2) as (e & p3 & -> & Hp3). cbn [mbind option_bind].
  destruct e; try by eexists _, _. pose proof (get_root_ok _ (HTryInit p3 Hp3)) as H4.
  destruct (GetRoot _ _ _) as [root p4]. by eexists _, _.
Qed.

Lemma rebuild_number_ok p : parser_ok p → ∃ r p', rebuild_for_number file hdr password p = Some (r, p') ∧ parser_ok p'.
Proof.
  intros Hp. unfold rebuild_for_number. destruct (negb _); [by eexists _, _|].
  destruct (RebuildCrossRef_ok (with_security None p) Hp) as (r & p2 & -> & Hp2). cbn [mbind option_bind].
  destruct (_ || _); [by eexists _, _|]. by apply security_ok.
Qed.

Lemma init_ok p : parser_ok p → ∃ r p', init_document file hdr password TryInit p = Some (r, p') ∧ parser_ok p'.
Proof.
  intros H1. unfold init_document. destruct (security_ok p H1) as (e & p2 & -> & H2). cbn [mbind option_bind]. destruct e; try by eexists _, _.
  pose proof (get_root_ok p2 H2) as H3. destruct (GetRoot _ _ p2) as [root p3]. cbn [snd] in H3.
  assert (H4 : parser_ok (match root with Some _ => TryInit p3 | None => (false, p3) end).2) by (destruct root; [by apply HTryInit|done]).
  destruct (match root with Some _ => TryInit p3 | None => (false, p3) end) as [ok p4]. cbn [snd] in H4.
  assert (H5 : ∃ e p5, (if (ok : bool) then Some (SUCCESS, p4) else rebuild_for_root file hdr password TryInit p4) = Some (e, p5) ∧ parser_ok p5)
    by (destruct ok; [by eexists _, _|by apply rebuild_root_ok]).
  destruct H5 as (e5 & p5 & -> & H5). cbn [mbind option_bind]. destruct e5; try by eexists _, _. by apply rebuild_number_ok.
Qed.

Lemma start_ok p : parser_ok p → ∃ r p', StartParseInternal file hdr password TryInit p = Some (r, p') ∧ parser_ok p'.
Proof.
  intros Hp. unfold StartParseInternal. destruct (load_or_rebuild_ok (with_xref_stream false p) Hp) as (ok & p1 & -> & H1).
  cbn [mbind option_bind]. destruct ok; cbn [negb]; [|by eexists _, _].
  destruct (init_ok p1 H1) as (e & p2 & -> & H2). cbn [mbind option_bind]. eexists _, _. split; [done|].
  destruct e; try done. by apply set_metadata_ok.
Qed.
End total.

Lemma header_nonneg n : ∀ offset file o, header_loop n offset file = Some o → 0 <= o.
Proof.
  induction n as [|n IH]; intros offset file o; cbn [header_loop]; [done|].
  destruct (_ <? _)%nat; [done|]. destruct (header_at _ _); [intros [= <-]; lia|apply IH].
Qed.

(** C15: a document is loaded or refused: [StartParse] returns on every sequence of
    bytes and every password.  Chains of [Prev] entries, of tables and of streams,
    end; so does the search through the whole file for objects and trailers,
    which jumps back to each object that it finds; and so does the check of the
    password.  The object holder need only leave the parser usable. *)
Theorem document_parse_terminates `{Inflate} file password TryInit :
  (∀ hdr p, parser_ok p → parser_ok (TryInit hdr p).2) →
  ∃ error p, StartParse file password TryInit = Some (error, p).
Proof.
  intros HT. unfold StartParse. destruct (GetHeaderOffset file) as [hdr|] eqn:Eh; [|by eexists _, _].
  apply header_nonneg in Eh. destruct (_ <? _); [by eexists _, _|].
  assert (Hv : parser_ok (ParseFileVersion file hdr parser_new).2).
  { unfold ParseFileVersion. by destruct (GetCharAt file hdr 5), (GetCharAt file hdr 7). }
  destruct (ParseFileVersion file hdr parser_new) as [ok p]. destruct ok; cbn [negb]; [|by eexists _, _].
  destruct (start_ok file hdr password Eh (TryInit hdr) (HT hdr) p Hv) as (e & p' & E & _). by eexists _, _.
Qed.

(** [ObjectsHolderStub] *)
Definition ObjectsHolderStub (hdr : Z) (p : CPDF_Parser) : bool * CPDF_Parser := (true, p).

(** A table whose [Prev] is the table itself. *)
Definition circular_example : list Z :=
  bs "%PDF-1.7" ++ [10] ++ bs "xref 0 0 trailer<</Size 1/Prev 9>>startxref 9 %%EOF".

Lemma document_parse_terminates_witness :
  (∃ p, StartParse (H := zeros_inflate) circular_example [] ObjectsHolderStub = Some (FORMAT_ERROR, p)) ∧
  ∃ error p, StartParse (H := zeros_inflate) circular_example [] ObjectsHolderStub = Some (error, p).
Proof.
  split; [eexists; vm_compute; reflexivity|].
  exact (document_parse_terminates (H := zeros_inflate) circular_example [] ObjectsHolderStub (λ _ _ Hp, Hp)).
Defined.
