(* ===== verification/Linearized.v ===== *)
(** * Linearized files

    [CPDF_LinearizedHeader] ([core/fpdfapi/parser/cpdf_linearized_header.cpp]) and
    the part of [CPDF_Parser] that loads the first page's table before the others,
    for a file whose data are all there. *)
From Stdlib Require Import String.
From S2P Require Import Prelude Words CharTypes FxNumber Syntax Objects ObjectTotal Dict Security StdMap CrossRef XRef DataDecode DataPipeline DocParser DocLoad DocTotal.
Import String.StringSyntax.

(** ** The header *)
Record CPDF_LinearizedHeader := LinearizedHeader {
  m_szFileSize : Z;
  m_dwFirstPageNo : Z;
  m_szMainXRefTableFirstEntryOffset : Z;
  m_PageCount : Z;
  m_szFirstPageEndOffset : Z;
  m_FirstPageObjNum : Z;
  m_szLastXRefOffset : Z;
  m_szHintStart : Z;
  m_HintLength : Z;
}.

Definition kLinearizedHeaderOffset : Z := 9.

(** The type [T] is [uint32_t] if [unsigned], else [FX_FILESIZE]. *)
Definition IsValidNumericDictionaryValue (unsigned : bool) (pDict : dict) (key : list Z) (min_value : Z) (must_exist : bool) : bool :=
  if negb (KeyExist pDict key) then negb must_exist
  else
    match GetObjectFor key pDict with
    | Some (CPDF_Number n) => IsInteger n && (if unsigned then 0 <=? GetSigned n else true) && (min_value <=? GetSigned n)
    | _ => false
    end.

Definition IsLinearizedHeaderValid (h : CPDF_LinearizedHeader) (document_size : Z) : bool :=
  (m_szFileSize h =? document_size) && (m_dwFirstPageNo h <? INT_MAX) && (m_dwFirstPageNo h <? m_PageCount h) &&
  (m_szMainXRefTableFirstEntryOffset h <? document_size) && (m_szFirstPageEndOffset h <? document_size) &&
  (m_szLastXRefOffset h <? document_size) && (m_szHintStart h <? document_size).

(** The constructor; the dictionary was read without a holder. *)
Definition linearized_header (pDict : dict) (szLastXRefOffset : Z) : CPDF_LinearizedHeader :=
  let get key := GetIntegerFor (λ _, None) pDict key 0 in
  let '(start, length) :=
    match GetArrayFor (λ _, None) pDict (bs "H") with
    | Some l =>
        if (zlen l =? 2) || (zlen l =? 4) then
          let safe_hint_length := GetIntegerAt (λ _, None) l 1 in
          (Z.max (GetIntegerAt (λ _, None) l 0) 0, if 0 <=? safe_hint_length then safe_hint_length else 0)
        else (0, 0)
    | None => (0, 0)
    end in
  LinearizedHeader (get (bs "L")) (u32 (get (bs "P"))) (get (bs "T")) (u32 (get (bs "N"))) (get (bs "E")) (u32 (get (bs "O")))
    szLastXRefOffset start length.

Definition HasHintTable (h : CPDF_LinearizedHeader) : bool := (1 <? m_PageCount h) && (0 <? m_szHintStart h) && (0 <? m_HintLength h).

Definition str_endobj : list Z := bs "endobj".

Definition ParseLinearizedHeader (file : list Z) (hdr : Z) (s : syntax) : option CPDF_LinearizedHeader * syntax :=
  let '(o, s) := indirect_object file hdr (λ _, None) kLoose (SetPos file kLinearizedHeaderOffset s) in
  match o with
  | Some (_, _, CPDF_Dictionary pDict) =>
      if negb (KeyExist pDict (bs "Linearized")) ||
         negb (IsValidNumericDictionaryValue false pDict (bs "L") 1 true) ||
         negb (IsValidNumericDictionaryValue true pDict (bs "P") 0 false) ||
         negb (IsValidNumericDictionaryValue false pDict (bs "T") 1 true) ||
         negb (IsValidNumericDictionaryValue true pDict (bs "N") 1 true) ||
         negb (IsValidNumericDictionaryValue false pDict (bs "E") 1 true) ||
         negb (IsValidNumericDictionaryValue true pDict (bs "O") 1 true)
      then (None, s)
      else
        let '(word, _, s) := GetNextWord file hdr s in
        if negb (bool_decide (word = str_endobj)) then (None, s)
        else
          let result := linearized_header pDict (m_Pos s) in
          (if IsLinearizedHeaderValid result (GetDocumentSize file hdr) then Some result else None, s)
  | _ => (None, s)
  end.

(** ** Loading *)
Section load.
Context `{Inflate} (file : list Z) (m_HeaderOffset : Z) (password : list Z).

(** [LoadLinearizedAllCrossRefV4]; [None] is a null pointer that is used. *)
Definition LoadLinearizedAllCrossRefV4 (main_xref_offset : Z) (p : CPDF_Parser) : option (bool * CPDF_Parser) :=
  let '(ok, p) := LoadCrossRefV4 file m_HeaderOffset main_xref_offset false p in
  if negb ok then Some (false, p)
  else
    let '(main_trailer, p) := LoadTrailerV4 file m_HeaderOffset p in
    match main_trailer with
    | None => Some (false, p)
    | Some main_trailer =>
        first ← GetTrailer p;
        if GetDirectInteger first (bs "Size") =? 0 then Some (false, p)
        else
          let p := with_table (merge_up (table_of_trailer (Some main_trailer)) (m_CrossRefTable p)) p in
          trailer ← GetTrailer p;
          '(lists, p) ← prev_loop file m_HeaderOffset (chain_fuel file) (GetDirectInteger trailer (bs "Prev")) [main_xref_offset]
                          [main_xref_offset] [GetDirectInteger first (bs "XRefStm")] p;
          match lists with
          | Some (_ :: xref_list, stream :: xref_stream_list) =>
              let '(ok, p) := (if stream =? 0 then (true, p)
                               else let '(ok, _, p) := LoadCrossRefV5 file m_HeaderOffset stream false p in (ok, p)) in
              if negb ok then Some (false, p)
              else Some (load_tables file m_HeaderOffset false (zip xref_list xref_stream_list) p)
          | _ => Some (false, p)
          end
    end.

(** [LoadLinearizedAllCrossRefV5] *)
Definition LoadLinearizedAllCrossRefV5 (main_xref_offset : Z) (p : CPDF_Parser) : option (bool * CPDF_Parser) :=
  let '(ok, xref_offset, p) := LoadCrossRefV5 file m_HeaderOffset main_xref_offset false p in
  if negb ok then Some (false, p)
  else
    '(ok, p) ← xref_stream_loop file m_HeaderOffset (chain_fuel file) [] xref_offset p;
    Some (if (ok : bool) then (true, with_xref_stream true (with_streams [] p)) else (false, p)).

(** [LoadLinearizedMainXRefTable], after the first page was loaded; [None] also
    where there is no trailer. *)
Definition LoadLinearizedMainXRefTable (p : CPDF_Parser) : option (Error * CPDF_Parser) :=
  trailer ← GetTrailer p;
  let main_xref_offset := GetIntegerFor (holder_in file m_HeaderOffset p) trailer (bs "Prev") 0 in
  if main_xref_offset <? 0 then Some (FORMAT_ERROR, p)
  else if main_xref_offset =? 0 then Some (SUCCESS, p)
  else
    let save_metadata_objnum := m_MetadataObjnum p in
    let p := with_streams [] (with_metadata 0 p) in
    '(ok, p) ← LoadLinearizedAllCrossRefV4 main_xref_offset p;
    '(ok, p) ← (if (ok : bool) then Some (true, p) else LoadLinearizedAllCrossRefV5 main_xref_offset p);
    let p := if (ok : bool) then p else with_last_xref 0 p in
    Some (if (ok : bool) then SUCCESS else FORMAT_ERROR, with_metadata save_metadata_objnum p).

Context (TryInit : option CPDF_LinearizedHeader → CPDF_Parser → bool * CPDF_Parser).

(** The table of the first page. *)
Definition load_first_table (p : CPDF_Parser) : option (option bool * CPDF_Parser) :=
  let dwFirstXRefOffset := m_LastXRefOffset p in
  let '(bLoadV4, p) := LoadCrossRefV4 file m_HeaderOffset dwFirstXRefOffset false p in
  if bLoadV4 then
    let '(trailer, p) := LoadTrailerV4 file m_HeaderOffset p in
    match trailer with
    | None => Some (None, p)
    | Some trailer =>
        let p := with_table (SetTrailer (Some trailer) (m_CrossRefTable p)) p in
        let xrefsize := GetDirectInteger trailer (bs "Size") in
        Some (Some true, if 0 <? xrefsize then with_table (ShrinkObjectMap xrefsize (m_CrossRefTable p)) p else p)
    end
  else
    let '(ok, _, p) := LoadCrossRefV5 file m_HeaderOffset dwFirstXRefOffset true p in
    if (ok : bool) then Some (Some true, p)
    else
      '(ok, p) ← RebuildCrossRef file m_HeaderOffset p;
      Some (if (ok : bool) then (Some true, with_last_xref 0 (with_rebuilt true p)) else (Some false, p)).

(** [StartLinearizedParse] behind the header of the file: the result with
    [m_pLinearized]. *)
Definition StartLinearizedInternal (p : CPDF_Parser) : option (Error * option CPDF_LinearizedHeader * CPDF_Parser) :=
  let '(m_pLinearized, s) := ParseLinearizedHeader file m_HeaderOffset (m_pSyntax p) in
  let p := with_syntax s p in
  match m_pLinearized with
  | None => '(eRet, p) ← StartParseInternal file m_HeaderOffset password (TryInit None) p; Some (eRet, None, p)
  | Some h =>
      '(ok, p) ← load_first_table (with_last_xref (m_szLastXRefOffset h) p);
      match ok with
      | None => Some (SUCCESS, Some h, p)
      | Some false => Some (FORMAT_ERROR, Some h, p)
      | Some true =>
          '(eRet, p) ← init_document file m_HeaderOffset password (TryInit (Some h)) p;
          Some (eRet, Some h, match eRet with SUCCESS => set_metadata file m_HeaderOffset true p | _ => p end)
      end
  end.
End load.

Definition StartLinearizedParse `{Inflate} (file password : list Z)
    (TryInit : Z → option CPDF_LinearizedHeader → CPDF_Parser → bool * CPDF_Parser) :
    option (Error * option CPDF_LinearizedHeader * CPDF_Parser) :=
  match GetHeaderOffset file with
  | None => Some (FORMAT_ERROR, None, parser_new)
  | Some header_offset =>
      if zlen file <? header_offset + kPDFHeaderSize then Some (FORMAT_ERROR, None, parser_new)
      else
        let '(ok, p) := ParseFileVersion file header_offset parser_new in
        if negb ok then Some (FORMAT_ERROR, None, p) else StartLinearizedInternal file header_offset password (TryInit header_offset) p
  end.

(** ** What a header promises *)
Lemma valid_number unsigned d key lo :
  IsValidNumericDictionaryValue unsigned d key lo true = true →
  lo <= GetIntegerFor (λ _, None) d key 0 ∧ (unsigned = true → 0 <= GetIntegerFor (λ _, None) d key 0).
Proof.
  unfold IsValidNumericDictionaryValue, GetIntegerFor, KeyExist. intros Hv.
  destruct (GetObjectFor key d) as [[]|]; try done.
  unfold GetInteger, through_reference, direct_integer. destruct unsigned; cbn in Hv; lia.
Qed.

(** Numbers of a parsed dictionary are [int]s. *)
Definition number_fits (o : CPDF_Object) : Prop :=
  match o with CPDF_Number n => IsInteger n = true → INT_MIN <= GetSigned n <= INT_MAX | _ => True end.

Lemma number_digits_fits strc : ∀ v, (∀ z, v = Some z → fits 32 z) → ∀ z, number_digits strc v = Some z → fits 32 z.
Proof.
  induction strc as [|c rest IH]; intros v Hv z E; cbn [number_digits] in E; [by apply Hv|]. destruct (isdigit c); [|by apply Hv].
  apply (IH _) in E; [done|]. intros z' E'. destruct v as [v|]; [|done]. cbn [mbind option_bind] in E'. by repeat case_decide; simplify_eq.
Qed.

Lemma FX_Number_fits strc : number_fits (CPDF_Number (FX_Number_of strc)).
Proof.
  unfold number_fits, FX_Number_of. case_bool_decide; [done|]. intros _. destruct strc as [|c rest]; [done|].
  assert (Hf : ∀ l, fits 32 (default 0 (number_digits l (Some 0)))).
  { intros l. destruct (number_digits l (Some 0)) as [z|] eqn:E; cbn [default]; [|unfold fits; lia].
    apply (number_digits_fits l (Some 0)) in E; [done|]. intros z' [= <-]. unfold fits. lia. }
  destruct ((c =? 43) || (c =? 45)); cbn [GetSigned]; [|by apply s32_range].
  specialize (Hf rest). unfold fits, INT_MIN, INT_MAX in *. destruct (c =? 45); [destruct (Z.ltb_spec (2 ^ 31 - 1 + 1) (default 0 (number_digits rest (Some 0))))|destruct (Z.ltb_spec (2 ^ 31 - 1) (default 0 (number_digits rest (Some 0))))]; lia.
Qed.

Lemma SetFor_values (P : CPDF_Object → Prop) k o m : P o → Forall (λ kv, P kv.2) m → Forall (λ kv, P kv.2) (SetFor k o m).
Proof.
  intros Ho. induction 1 as [|[k' o'] m Hk Hm IH]; cbn [SetFor]; [by repeat constructor|]. destruct (bytes_lt k k'); [by repeat constructor|].
  destruct (bytes_lt k' k); by constructor.
Qed.

Lemma dict_loop_values file hdr (P : CPDF_Object → Prop) get t n : (∀ s o s', get s = Some (Some o, s') → P o) →
  ∀ m s m' s', Forall (λ kv, P kv.2) m → dict_loop file hdr get t n m s = Some (Some m', s') → Forall (λ kv, P kv.2) m'.
Proof.
  intros Hget. induction n as [|n IH]; intros m s m' s' Hm E; cbn [dict_loop] in E; [done|].
  destruct (GetNextWord file hdr s) as [[w num] s1]. destruct w as [|c w]; [done|].
  destruct (bool_decide (_ = [62; 62])); [by simplify_eq|]. destruct (bool_decide (_ = kEndObjStr)); [by simplify_eq|].
  destruct (negb (c =? 47)); [by apply (IH _ _ _ _ Hm E)|]. destruct (_ && is_loose t); [by apply (IH _ _ _ _ Hm E)|].
  destruct (get s1) as [[[o|] s2]|] eqn:Eg; cbn [mbind option_bind] in E; [| |done].
  - apply (IH _ _ _ _) in E; [done|]. destruct (1 <? _); [|done]. apply SetFor_values; [|done]. by apply (Hget s1 o s2).
  - destruct (is_loose t); [by apply (IH _ _ _ _ Hm E)|done].
Qed.

(** A parsed object: its number, or the numbers that are its entries. *)
Definition numbers_fit (o : CPDF_Object) : Prop :=
  number_fits o ∧ match o with CPDF_Dictionary m => Forall (λ kv, number_fits kv.2) m | _ => True end.

Lemma ReadStream_numbers file hdr holder m s o s' : ReadStream file hdr holder m s = (Some o, s') → numbers_fit o.
Proof. unfold ReadStream. intros E. repeat case_match; by simplify_eq. Qed.

Lemma number_or_reference_numbers file hdr w s o s' : number_or_reference file hdr w s = (Some o, s') → numbers_fit o.
Proof.
  unfold number_or_reference. pose proof (FX_Number_fits w) as Hw. intros E. repeat case_match; simplify_eq; by split.
Qed.

Lemma get_object_numbers file hdr holder loop d : ∀ t s o s', get_object file hdr holder loop d t s = Some (Some o, s') → numbers_fit o.
Proof.
  induction d as [|d IH]; intros t s o s' E; cbn [get_object] in E; [done|]. destruct (GetNextWord file hdr s) as [[w num] s1]. destruct w as [|c w]; [done|].
  destruct num; [injection E as E; by apply number_or_reference_numbers in E|].
  destruct (_ || _); [by simplify_eq|]. destruct (bool_decide (_ = str_null)); [by simplify_eq|].
  destruct (bool_decide (_ = [40])); [destruct (ReadString _ _ _); by simplify_eq|]. destruct (bool_decide (_ = [60])); [destruct (ReadHexString _ _ _); by simplify_eq|].
  destruct (bool_decide (_ = [91])).
  { destruct (array_loop _ _ _ _) as [[l s2]|]; cbn [mbind option_bind] in E; [|done]. destruct (_ || _); by simplify_eq. }
  destruct (c =? 47); [by simplify_eq|]. destruct (bool_decide (_ = [60; 60])); [|destruct (bool_decide _); done].
  destruct (dict_loop _ _ _ _ _ _ _) as [[[m|] s2]|] eqn:Ed; cbn [mbind option_bind] in E; [|done..].
  destruct (GetNextWord file hdr s2) as [[w2 n2] s3]. destruct (bool_decide _).
  - injection E as E. by apply ReadStream_numbers in E.
  - simplify_eq. split; [done|]. refine (dict_loop_values file hdr number_fits _ t loop _ [] s1 m s2 (List.Forall_nil _) Ed).
    intros s4 o' s5 Eg. by apply IH in Eg as [? _].
Qed.

Lemma indirect_numbers file hdr holder t s n g o s' : indirect_object file hdr holder t s = (Some (n, g, o), s') → numbers_fit o.
Proof.
  unfold indirect_object, GetIndirectObject, GetObjectBodyInternal. intros E.
  destruct (GetNextWord file hdr s) as [[w1 n1] s1]. destruct (_ || _); [done|].
  destruct (GetNextWord file hdr s1) as [[w2 n2] s2]. destruct (_ || _); [done|].
  destruct (GetKeyword file hdr s2) as [w3 s3]. destruct (negb _); [done|].
  destruct (get_object _ _ _ _ _ _ _) as [[[o'|] s4]|] eqn:Eg; [|done..].
  injection E as _ _ <- _. exact (get_object_numbers _ _ _ _ _ _ _ _ _ Eg).
Qed.

Lemma integer_fits d key : Forall (λ kv, number_fits kv.2) d → IsValidNumericDictionaryValue true d key 1 true = true →
  1 <= GetIntegerFor (λ _, None) d key 0 <= INT_MAX.
Proof.
  intros Hd Hv. pose proof (valid_number _ _ _ _ Hv) as [Hlo _]. split; [done|]. unfold IsValidNumericDictionaryValue, GetIntegerFor in *.
  destruct (KeyExist d key); cbn [negb] in Hv; [|done]. destruct (GetObjectFor key d) as [o|] eqn:Eo; [|done]. destruct o as [| |n| | | | | | |]; try done.
  assert (Hn : number_fits (CPDF_Number n)).
  { clear -Hd Eo. induction Hd as [|[k o] d Hk Hd IH]; cbn [GetObjectFor] in Eo; [done|]. repeat case_match; simplify_eq; auto. }
  unfold GetInteger, through_reference, direct_integer. apply andb_true_iff in Hv as [Hv _]. apply andb_true_iff in Hv as [Hv _]. by destruct (Hn Hv).
Qed.

Section total.
Context `{Inflate} (file : list Z) (hdr : Z) (password : list Z).
Hypothesis Hhdr : 0 <= hdr.

Lemma header_ok s : state_ok s → state_ok (ParseLinearizedHeader file hdr s).2.
Proof.
  intros Hs. unfold ParseLinearizedHeader.
  pose proof (indirect_object_ok file hdr Hhdr (λ _, None) kLoose (SetPos file kLinearizedHeaderOffset s) Hs) as Ho.
  destruct (indirect_object _ _ _ _ _) as [[[[n g] []]|] s1]; destruct Ho as [Hs1 _]; try done.
  destruct (_ || _); [done|]. destruct (GetNextWord file hdr s1) as [[w num] s2] eqn:E.
  destruct (word_in_file file hdr _ _ _ _ Hs1 E) as (Hs2 & _). by destruct (negb _).
Qed.

Lemma LoadLinearizedAllCrossRefV5_ok o p :
  parser_ok p → ∃ r p', LoadLinearizedAllCrossRefV5 file hdr o p = Some (r, p') ∧ parser_ok p'.
Proof.
  intros Hp. unfold LoadLinearizedAllCrossRefV5. pose proof (LoadCrossRefV5_ok file hdr Hhdr o false p Hp) as Hl.
  destruct (LoadCrossRefV5 _ _ o false p) as [[ok o'] p1]. destruct Hl as [Hp1 _]. destruct ok; cbn [negb]; [|by eexists _, _].
  destruct (stream_loop_ok file hdr Hhdr (chain_fuel file) [] o' p1 Hp1) as (r & p2 & -> & Hp2);
    [constructor|constructor|by intros ?%elem_of_nil|unfold chain_fuel; cbn; lia|].
  cbn [mbind option_bind]. destruct r; by eexists _, _.
Qed.

Lemma merged_trailer t d : is_Some (trailer_ t) → is_Some (trailer_ (merge_up (table_of_trailer (Some d)) t)).
Proof.
  intros [d' Hd]. unfold merge_up, MergeUp, Update, UpdateTrailer. cbn [default from_option id trailer_ table_of_trailer]. rewrite Hd.
  destruct (move_entry _ _ _) as [c1 n1]. destruct (move_entry _ c1 n1). by eexists.
Qed.

Lemma table_trailer pos skip p : GetTrailer (LoadCrossRefV4 file hdr pos skip p).2 = GetTrailer p.
Proof.
  unfold LoadCrossRefV4, XRef.LoadCrossRefV4. destruct (ParseCrossRefV4 _ _ _ _) as [[[l|] s]|]; try done. cbn.
  unfold GetTrailer, MergeCrossRefObjectsData. cbn. generalize (default [] l) (m_CrossRefTable p). clear.
  intros objects. induction objects as [|o l IH]; intros t; cbn [fold_left]; [done|]. rewrite IH. unfold merge_object.
  destruct (type _); try done. by destruct (_ <? _).
Qed.

Lemma LoadTrailerV4_table p : m_CrossRefTable (LoadTrailerV4 file hdr p).2 = m_CrossRefTable p.
Proof.
  unfold LoadTrailerV4. destruct (GetKeyword _ _ _) as [w s]. destruct (negb _); [done|]. by destruct (object_body _ _ _ _) as [[[]|] s2].
Qed.

Lemma LoadLinearizedAllCrossRefV4_ok o p :
  parser_ok p → is_Some (GetTrailer p) → ∃ r p', LoadLinearizedAllCrossRefV4 file hdr o p = Some (r, p') ∧ parser_ok p'.
Proof.
  intros Hp Ht. unfold LoadLinearizedAllCrossRefV4. pose proof (LoadCrossRefV4_ok file hdr Hhdr o false p Hp) as H1.
  pose proof (table_trailer o false p) as Ht1. destruct (LoadCrossRefV4 _ _ o false p) as [ok p1]. cbn [snd] in *.
  destruct ok; cbn [negb]; [|by eexists _, _]. pose proof (LoadTrailerV4_ok file hdr Hhdr p1 H1) as H2.
  pose proof (LoadTrailerV4_table p1) as Ht2. destruct (LoadTrailerV4 _ _ p1) as [[d|] p2]; cbn [snd] in *; [|by eexists _, _].
  unfold GetTrailer in *. rewrite <-Ht1, <-Ht2 in Ht. destruct Ht as [first Ht]. rewrite Ht. cbn [mbind option_bind].
  destruct (_ =? 0); [by eexists _, _|]. destruct (merged_trailer (m_CrossRefTable p2) d) as [d2 Hd2]; [by eexists|].
  cbn [m_CrossRefTable with_table]. rewrite Hd2. cbn [mbind option_bind].
  match goal with |- context [prev_loop _ _ _ ?o2 ?s ?l ?ls ?p3] =>
    destruct (prev_loop_ok file hdr Hhdr (chain_fuel file) [] o2 s l ls p3) as (r & p4 & E & Hp4) end;
    [exact H2|constructor|constructor|by intros ? ?%elem_of_nil|unfold chain_fuel; cbn; lia|].
  rewrite E. cbn [mbind option_bind]. destruct r as [[[|x l] [|st ls]]|]; try by eexists _, _.
  assert (H3 : parser_ok (if st =? 0 then (true, p4) else let '(ok, _, p) := LoadCrossRefV5 file hdr st false p4 in (ok, p)).2).
  { destruct (st =? 0); [done|]. pose proof (LoadCrossRefV5_ok file hdr Hhdr st false p4 Hp4) as Hl.
    destruct (LoadCrossRefV5 _ _ st false p4) as [[ok o'] p5]. by destruct Hl. }
  destruct (if st =? 0 then _ else _) as [ok p5]. cbn [snd] in H3. destruct ok; cbn [negb]; [|by eexists _, _].
  eexists _, _. split; [f_equal; apply surjective_pairing|]. by apply load_tables_ok.
Qed.

Lemma RebuildCrossRef_first p :
  parser_ok p → ∃ r p', ('(ok, p) ← RebuildCrossRef file hdr p;
    Some (if (ok : bool) then (Some true, with_last_xref 0 (with_rebuilt true p)) else (Some false, p))) = Some (r, p') ∧ parser_ok p'.
Proof.
  intros Hp. destruct (RebuildCrossRef_ok file hdr Hhdr p Hp) as (r & p2 & -> & Hp2). cbn [mbind option_bind]. destruct r; by eexists _, _.
Qed.

Lemma first_table_ok p : parser_ok p → ∃ r p', load_first_table file hdr p = Some (r, p') ∧ parser_ok p'.
Proof.
  intros Hp. unfold load_first_table. pose proof (LoadCrossRefV4_ok file hdr Hhdr (m_LastXRefOffset p) false p Hp) as H1.
  destruct (LoadCrossRefV4 _ _ _ false p) as [ok p1]. cbn [snd] in H1. destruct ok.
  - pose proof (LoadTrailerV4_ok file hdr Hhdr p1 H1) as H2. destruct (LoadTrailerV4 _ _ p1) as [[d|] p2]; cbn [snd] in H2; [|by eexists _, _].
    eexists _, _. split; [reflexivity|]. by destruct (_ <? _).
  - pose proof (LoadCrossRefV5_ok file hdr Hhdr (m_LastXRefOffset p) true p1 H1) as H2.
    destruct (LoadCrossRefV5 _ _ _ true p1) as [[ok o] p2]. destruct H2 as [H2 _]. destruct ok; [by eexists _, _|]. by apply RebuildCrossRef_first.
Qed.

Context (TryInit : option CPDF_LinearizedHeader → CPDF_Parser → bool * CPDF_Parser).
Hypothesis HTryInit : ∀ h p, parser_ok p → parser_ok (TryInit h p).2.

Lemma linearized_ok p :
  parser_ok p → ∃ e h p', StartLinearizedInternal file hdr password TryInit p = Some (e, h, p') ∧ parser_ok p'.
Proof.
  intros Hp. unfold StartLinearizedInternal. pose proof (header_ok (m_pSyntax p) Hp) as H1.
  destruct (ParseLinearizedHeader _ _ _) as [[h|] s]; cbn [snd] in H1.
  - destruct (first_table_ok (with_last_xref (m_szLastXRefOffset h) (with_syntax s p)) H1) as (r & p2 & -> & H2).
    cbn [mbind option_bind]. destruct r as [[]|]; try by eexists _, _, _.
    destruct (init_ok file hdr password Hhdr (TryInit (Some h)) (HTryInit (Some h)) p2 H2) as (e & p3 & -> & H3). cbn [mbind option_bind].
    eexists _, _, _. split; [done|]. destruct e; try done. by apply set_metadata_ok.
  - destruct (start_ok file hdr password Hhdr (TryInit None) (HTryInit None) (with_syntax s p) H1) as (e & p2 & -> & H2).
    cbn [mbind option_bind]. by eexists _, _, _.
Qed.

Lemma main_table_ok p :
  parser_ok p → is_Some (GetTrailer p) → ∃ e p', LoadLinearizedMainXRefTable file hdr p = Some (e, p') ∧ parser_ok p'.
Proof.
  intros Hp [d Hd]. unfold LoadLinearizedMainXRefTable. rewrite Hd. cbn [mbind option_bind].
  destruct (_ <? 0); [by eexists _, _|]. destruct (_ =? 0); [by eexists _, _|].
  match goal with |- context [LoadLinearizedAllCrossRefV4 _ _ ?o ?q] => set (o2 := o); set (q2 := q) end.
  destruct (LoadLinearizedAllCrossRefV4_ok o2 q2 Hp) as (r & p2 & -> & H2); [by eexists|]. cbn [mbind option_bind].
  assert (H5 : ∃ r5 p5, (if (r : bool) then Some (true, p2) else LoadLinearizedAllCrossRefV5 file hdr o2 p2) = Some (r5, p5) ∧ parser_ok p5).
  { destruct r; [by eexists _, _|by apply LoadLinearizedAllCrossRefV5_ok]. }
  destruct H5 as (r5 & p5 & -> & H5). cbn [mbind option_bind]. eexists _, _. split; [done|]. by destruct r5.
Qed.
End total.

(** An object is read from at least one byte. *)
Lemma indirect_moves file hdr holder t s : 0 <= hdr → state_ok s →
  ∃ r s', GetIndirectObject file hdr holder t s = Some (r, s') ∧ (is_Some r → clip file hdr s + 1 <= clip file hdr s').
Proof.
  intros Hhdr Hs. unfold GetIndirectObject, GetKeyword.
  assert (Hno : ∀ s', ∃ r s'', Some (None, s') = Some (r, s'') ∧ (is_Some (r : option (Z * Z * CPDF_Object)) → clip file hdr s + 1 <= clip file hdr s'')).
  { intros s'. exists None, s'. split; [done|by intros [? ?]]. }
  destruct (GetNextWord file hdr s) as [[w1 n1] s1] eqn:E1. destruct (word_in_file file hdr _ _ _ _ Hs E1) as (Hs1 & C1 & _).
  destruct (negb n1 || _); [by apply Hno|]. destruct (GetNextWord file hdr s1) as [[w2 n2] s2] eqn:E2. destruct (word_in_file file hdr _ _ _ _ Hs1 E2) as (Hs2 & C2 & _).
  destruct (negb n2 || _); [by apply Hno|]. destruct (GetNextWord file hdr s2) as [[w3 n3] s3] eqn:E3. destruct (word_in_file file hdr _ _ _ _ Hs2 E3) as (Hs3 & C3 & _).
  destruct (negb _); [by apply Hno|]. unfold GetObjectBodyInternal.
  destruct (get_total file hdr holder Hhdr kParserMaxRecursionDepth t s3 Hs3) as (o & s4 & E4 & _ & _ & Hc). rewrite E4. cbn [mbind option_bind].
  destruct o as [o|]; [|by apply Hno]. specialize (Hc ltac:(by eexists)). eexists _, s4. split; [done|]. intros _.
  pose proof (zlen_nonneg w1). pose proof (zlen_nonneg w2). pose proof (zlen_nonneg w3). lia.
Qed.

Lemma indirect_forward file hdr holder t s r s' : 0 <= hdr → state_ok s → indirect_object file hdr holder t s = (Some r, s') →
  state_ok s' ∧ in_file file hdr (m_Pos s) ∧ clip file hdr s + 1 <= clip file hdr s'.
Proof.
  intros Hhdr Hs E. pose proof (indirect_object_ok file hdr Hhdr holder t s Hs) as Hok. rewrite E in Hok. destruct Hok as [Hs' Hin].
  split; [done|]. split; [by apply Hin|]. destruct (indirect_moves file hdr holder t s Hhdr Hs) as (r' & s'' & E' & Hc).
  unfold indirect_object in E. rewrite E' in E. injection E as -> ->. by apply Hc.
Qed.

(** The word behind the header's object ends behind the place the header is
    looked for. *)
Lemma header_end file hdr s r s1 num s2 : 0 <= hdr → state_ok s →
  indirect_object file hdr (λ _, None) kLoose (SetPos file kLinearizedHeaderOffset s) = (Some r, s1) → GetNextWord file hdr s1 = (str_endobj, num, s2) →
  kLinearizedHeaderOffset < m_Pos s2.
Proof.
  intros Hhdr Hs E Ew. destruct (indirect_forward file hdr _ _ _ _ _ Hhdr (Hs : state_ok (SetPos file kLinearizedHeaderOffset s)) E) as (Hs1 & Hin & Hc).
  apply in_file_SetPos in Hin; [|done]. destruct (word_total file hdr s1 Hs1) as (w & num' & s' & E' & _ & _ & Hp & _).
  rewrite Ew in E'. injection E' as <- <- <-. change (zlen str_endobj) with 6 in Hp. unfold clip, SetPos, in_file, m_FileLen, kLinearizedHeaderOffset in *. cbn [m_Pos at_pos] in *. lia.
Qed.

(** C40: the header of a linearized file points into the file: a header that is
    accepted, from any well-formed state of the parser, gives the size of the
    document; the first page is one of the pages,
    and its object number is positive and an [int]; the main table, the end of
    the first page and the hint stream lie before the end of the document, at
    positions that are positive or, for the hint stream, not negative; the first
    table is looked for behind the header itself. *)
Theorem linearized_header_bounds file hdr s h s' :
  0 <= hdr → state_ok s → ParseLinearizedHeader file hdr s = (Some h, s') →
  let size := GetDocumentSize file hdr in
  m_szFileSize h = size ∧ 0 <= m_dwFirstPageNo h < m_PageCount h ∧ m_PageCount h <= INT_MAX ∧
  1 <= m_szMainXRefTableFirstEntryOffset h < size ∧ 1 <= m_szFirstPageEndOffset h < size ∧
  kLinearizedHeaderOffset < m_szLastXRefOffset h < size ∧
  0 <= m_szHintStart h < size ∧ 0 <= m_HintLength h ∧ 1 <= m_FirstPageObjNum h <= INT_MAX.
Proof.
  intros Hhdr Hs. unfold ParseLinearizedHeader. destruct (indirect_object _ _ _ _ _) as [[[[n g] [ | | | | | | |d| |]]|] s1] eqn:Eo; try done. cbv zeta.
  match goal with |- context [if ?b then _ else _] => destruct b eqn:Ev; [done|] end.
  destruct (GetNextWord file hdr s1) as [[w num] s2] eqn:Ew. destruct (bool_decide_reflect (w = str_endobj)) as [->|]; cbn [negb]; [|done].
  destruct (IsLinearizedHeaderValid _ _) eqn:Eh; [|done]. intros [= <- <-].
  rewrite !orb_false_iff, !negb_false_iff in Ev. destruct Ev as [[[[[[_ VL] VP] VT] VN] VE] VO].
  assert (Hpos : kLinearizedHeaderOffset < m_Pos s2) by by apply (header_end file hdr s (n, g, CPDF_Dictionary d) s1 num s2).
  apply indirect_numbers in Eo as [_ Hd]. apply (integer_fits d _ Hd) in VO, VN. apply valid_number in VL, VT, VE. clear VP.
  pose proof (Z.mod_pos_bound (GetIntegerFor (λ _, None) d (bs "P") 0) (2 ^ 32) ltac:(lia)) as B1.
  fold (u32 (GetIntegerFor (λ _, None) d (bs "P") 0)) in B1. unfold INT_MAX in *.
  assert (EN : u32 (GetIntegerFor (λ _, None) d (bs "N") 0) = GetIntegerFor (λ _, None) d (bs "N") 0) by (apply Z.mod_small; lia).
  assert (EO : u32 (GetIntegerFor (λ _, None) d (bs "O") 0) = GetIntegerFor (λ _, None) d (bs "O") 0) by (apply Z.mod_small; lia).
  unfold IsLinearizedHeaderValid, linearized_header in *. rewrite EN, EO in *.
  destruct (GetArrayFor _ _ _) as [l|]; [destruct (_ || _)|]; cbn in *;
    try (destruct (Z.leb_spec 0 (GetIntegerAt (λ _, None) l 1))); lia.
Qed.

(** C11: a linearized file is loaded or refused: [StartLinearizedParse] returns on
    every sequence of bytes and every password.  So does the later loading of the
    table of the other pages, whatever chain of tables or streams it finds, where
    the first loading left a trailer; where it left none,
    [LoadLinearizedMainXRefTable] uses a null pointer ([None]). *)
Theorem linearized_parse_terminates `{Inflate} file password TryInit :
  (∀ hdr h p, parser_ok p → parser_ok (TryInit hdr h p).2) →
  ∃ error h p, StartLinearizedParse file password TryInit = Some (error, h, p) ∧
    ∀ hdr, GetHeaderOffset file = Some hdr →
      match GetTrailer p with
      | Some _ => ∃ error' p', LoadLinearizedMainXRefTable file hdr p = Some (error', p')
      | None => LoadLinearizedMainXRefTable file hdr p = None
      end.
Proof.
  intros HT. unfold StartLinearizedParse. destruct (GetHeaderOffset file) as [hdr|] eqn:Eh; [|by eexists _, _, _].
  apply header_nonneg in Eh.
  assert (Hmain : ∀ p, parser_ok p → ∀ hdr', Some hdr = Some hdr' →
    match GetTrailer p with
    | Some _ => ∃ error' p', LoadLinearizedMainXRefTable file hdr' p = Some (error', p')
    | None => LoadLinearizedMainXRefTable file hdr' p = None
    end).
  { intros p Hp hdr' [= <-]. destruct (GetTrailer p) as [tr|] eqn:Et; [|unfold LoadLinearizedMainXRefTable; by rewrite Et].
    destruct (main_table_ok file hdr Eh p Hp) as (e & p' & E & _); [by rewrite Et|]. by eexists _, _. }
  destruct (_ <? _).
  { exists FORMAT_ERROR, None, parser_new. split; [done|]. by apply Hmain. }
  assert (Hv : parser_ok (ParseFileVersion file hdr parser_new).2).
  { unfold ParseFileVersion. by destruct (GetCharAt file hdr 5), (GetCharAt file hdr 7). }
  destruct (ParseFileVersion file hdr parser_new) as [ok p]. cbn [snd] in Hv. destruct ok; cbn [negb].
  - destruct (linearized_ok file hdr password Eh (TryInit hdr) (HT hdr) p Hv) as (e & h & p' & E & Hp'). exists e, h, p'. split; [done|]. by apply Hmain.
  - eexists _, _, _. split; [done|]. by apply Hmain.
Qed.

(** ** A linearized file

    The table of the first page, at 76, leads to the main table, and this one to
    itself. *)
Definition linearized_example : list Z :=
  bs "%PDF-1.7 1 0 obj<</Linearized 1/L 167/H[100 50]/O 2/E 130/N 1/T 124>>endobj " ++
  bs "xref 0 0 trailer<</Size 3/Root 2 0 R/Prev 124>> xref 0 0 trailer<</Size 3/Prev 124>> %%EOF ".

Definition linearized_example_header : CPDF_LinearizedHeader := LinearizedHeader 167 0 124 1 130 2 75 100 50.

Lemma linearized_header_bounds_witness :
  ∃ s', ParseLinearizedHeader linearized_example 0 syntax_new = (Some linearized_example_header, s') ∧
    m_szLastXRefOffset linearized_example_header < GetDocumentSize linearized_example 0.
Proof.
  destruct (ParseLinearizedHeader linearized_example 0 syntax_new) as [h s'] eqn:E.
  assert (Eh : h = Some linearized_example_header) by (change h with (h, s').1; rewrite <-E; reflexivity).
  subst h. exists s'. split; [done|]. destruct (linearized_header_bounds linearized_example 0 syntax_new _ s' ltac:(lia) eq_refl E) as (_ & _ & _ & _ & _ & Hl & _). exact (proj2 Hl).
Defined.

Definition LinearizedStub (hdr : Z) (h : option CPDF_LinearizedHeader) (p : CPDF_Parser) : bool * CPDF_Parser := (true, p).

Lemma linearized_parse_terminates_witness :
  ∃ error h p, StartLinearizedParse (H := zeros_inflate) linearized_example [] LinearizedStub = Some (error, h, p) ∧
    h = Some linearized_example_header ∧
    ∃ p', LoadLinearizedMainXRefTable (H := zeros_inflate) linearized_example 0 p = Some (FORMAT_ERROR, p').
Proof.
  destruct (linearized_parse_terminates (H := zeros_inflate) linearized_example [] LinearizedStub) as (e & h & p & E & Hmain); [done|].
  assert (Hp : match StartLinearizedParse (H := zeros_inflate) linearized_example [] LinearizedStub with
      Some (_, _, p) => bool_decide (is_Some (GetTrailer p)) | None => false end = true) by (vm_compute; reflexivity).
  rewrite E in Hp. apply bool_decide_eq_true in Hp as [tr Etr]. specialize (Hmain 0 eq_refl). rewrite Etr in Hmain. destruct Hmain as (e' & p' & E').
  exists e, h, p. split; [exact E|]. split.
  - assert (Hh : match StartLinearizedParse (H := zeros_inflate) linearized_example [] LinearizedStub with
        Some (_, h, _) => h | None => None end = Some linearized_example_header) by (vm_compute; reflexivity).
      by rewrite E in Hh.
  - exists p'. assert (He : match StartLinearizedParse (H := zeros_inflate) linearized_example [] LinearizedStub with
        Some (_, _, p) => fst <$> LoadLinearizedMainXRefTable (H := zeros_inflate) linearized_example 0 p | None => None end = Some FORMAT_ERROR)
        by (vm_compute; reflexivity).
      rewrite E, E' in He. cbn in He. by injection He as ->.
Defined.
