(* ===== verification/Holder.v ===== *)
(** * The holder of the objects of a document

    [CPDF_IndirectObjectHolder]
    ([core/fpdfapi/parser/cpdf_indirect_object_holder.cpp]), of a document that is
    made and of one that is loaded. *)
From S2P Require Import Prelude Words Objects Dict StdMap DataDecode DocParser.

(** [CPDF_IndirectObjectHolder::GetIndirectObject] and [DeleteIndirectObject] *)
Definition GetIndirectObject (objnum : Z) (p : CPDF_Parser) : option CPDF_Object := mjoin (find objnum (m_IndirectObjs p)).
Definition DeleteIndirectObject (objnum : Z) (p : CPDF_Parser) : CPDF_Parser :=
  match GetIndirectObject objnum p with
  | Some _ => with_holder (erase_key objnum (m_IndirectObjs p)) (m_LastObjNum p) p
  | None => p
  end.
(** [AddIndirectObject] *)
Definition AddIndirectObject (o : CPDF_Object) (p : CPDF_Parser) : Z * CPDF_Parser :=
  let n := u32 (m_LastObjNum p + 1) in (n, with_holder (put n (Some o) (m_IndirectObjs p)) n p).


(** The virtual [GetOrParseIndirectObject] *)
Class Holder := lookup_object : Z → CPDF_Parser → option CPDF_Object * CPDF_Parser.

(** Of a document that was made, not loaded: [ParseIndirectObject] is [nullptr]. *)
Definition new_holder : Holder := λ objnum p,
  if (objnum =? 0) || (objnum =? kInvalidObjNum) then (None, p)
  else
    match find objnum (m_IndirectObjs p) with
    | Some o => (o, p)
    | None =>
        let p := with_holder (put objnum None (m_IndirectObjs p)) (m_LastObjNum p) p in
        (None, with_holder (erase_key objnum (m_IndirectObjs p)) (m_LastObjNum p) p)
    end.

(** Of a document with a parser. *)
Definition file_holder `{Inflate} (file : list Z) (hdr : Z) : Holder := GetOrParseIndirectObject file hdr.
