(* ===== verification/Creator.v ===== *)
(** * Writing a document

    [CPDF_Creator] ([core/fpdfapi/edit/cpdf_creator.cpp]): the header, the
    objects, the cross-reference section and the trailer, for a new file and for
    an increment of an old one. *)
From Stdlib Require Import String.
From S2P Require Import Prelude Words CharTypes FxNumber TextString Syntax Objects Dict Crypto Security StdMap CrossRef XRef XRefText DataDecode WriteTo DocParser DocLoad Holder.
Import String.StringSyntax.

Definition str_eol : list Z := [13; 10].
(** [WriteFilesize] *)
Definition WriteFilesize (size : Z) : list Z :=
  if size <? 0 then 45 :: dec_digits 20 (- size) else dec_digits 20 size.

(** What is written and where the objects are; [c_doc] is the document: its parser,
    if it has one, and its object holder. *)
Record CPDF_Creator := Creator {
  c_doc : CPDF_Parser;
  m_dwLastObjNum : Z;
  m_Archive : list Z;
  m_ObjectOffsets : std_map Z;
  m_NewObjNumArray : list Z;
  c_crypt : crypt_state;
}.
Definition write (text : list Z) (c : CPDF_Creator) : CPDF_Creator :=
  Creator (c_doc c) (m_dwLastObjNum c) (m_Archive c ++ text) (m_ObjectOffsets c) (m_NewObjNumArray c) (c_crypt c).
Definition with_doc p (c : CPDF_Creator) : CPDF_Creator :=
  Creator p (m_dwLastObjNum c) (m_Archive c) (m_ObjectOffsets c) (m_NewObjNumArray c) (c_crypt c).
Definition with_last n (c : CPDF_Creator) : CPDF_Creator :=
  Creator (c_doc c) n (m_Archive c) (m_ObjectOffsets c) (m_NewObjNumArray c) (c_crypt c).
Definition with_offsets m (c : CPDF_Creator) : CPDF_Creator :=
  Creator (c_doc c) (m_dwLastObjNum c) (m_Archive c) m (m_NewObjNumArray c) (c_crypt c).
Definition with_new l (c : CPDF_Creator) : CPDF_Creator :=
  Creator (c_doc c) (m_dwLastObjNum c) (m_Archive c) (m_ObjectOffsets c) l (c_crypt c).
Definition with_crypt st (c : CPDF_Creator) : CPDF_Creator :=
  Creator (c_doc c) (m_dwLastObjNum c) (m_Archive c) (m_ObjectOffsets c) (m_NewObjNumArray c) st.
Definition CurrentOffset (c : CPDF_Creator) : Z := zlen (m_Archive c).

(** [std::lower_bound] and [insert] *)
Fixpoint insert_sorted (n : Z) (l : list Z) : list Z :=
  match l with
  | [] => [n]
  | k :: l' => if k <? n then k :: insert_sorted n l' else n :: l
  end.

Section creator.
Context `{Inflate} (compress : list Z → list Z) (ivs : nat → list Z).

(** The file of the parser, the parser itself, if there is one, and the numbers
    of the catalog and of the information dictionary. *)
Context (file : list Z) (m_HeaderOffset : Z) (has_parser : bool) (root_num : Z) (info_num : option Z).
(** The flags of [Create], the version that was set, the encryption dictionary
    with its number, 0 if it is inline, and whether there is a crypto handler. *)
Context (incremental m_IsOriginal m_bSecurityChanged : bool) (m_FileVersion_ : Z).
Context (m_pEncryptDict_ : option (Z * dict)) (encrypting : bool) (m_pIDArray : list CPDF_Object).

Notation GetOrParse := (GetOrParseIndirectObject file m_HeaderOffset).

Definition m_IsIncremental : bool := incremental && has_parser && negb (m_bSecurityChanged && m_IsOriginal).

Definition is_encrypt_dict (objnum : Z) : bool :=
  match m_pEncryptDict_ with Some (n, _) => negb (n =? 0) && (n =? objnum) | None => false end.

Definition write_object (objnum : Z) (o : CPDF_Object) (enc : bool) (c : CPDF_Creator) : option CPDF_Creator :=
  '(text, st) ← WriteTo (holder_in file m_HeaderOffset (c_doc c)) ivs objnum compress o enc (c_crypt c);
  Some (with_crypt st (write (WriteDWord objnum ++ bs " 0 obj" ++ str_eol ++ text ++ str_eol ++ bs "endobj" ++ str_eol) c)).

Definition WriteIndirectObj (objnum : Z) (o : CPDF_Object) (c : CPDF_Creator) : option CPDF_Creator :=
  write_object objnum o (encrypting && negb (is_encrypt_dict objnum)) c.

Definition WriteOldIndirectObject (objnum : Z) (c : CPDF_Creator) : option CPDF_Creator :=
  if IsObjectFreeOrNull (c_doc c) objnum then Some c
  else
    let c := with_offsets (put objnum (CurrentOffset c) (m_ObjectOffsets c)) c in
    let bExistInMap := bool_decide (is_Some (GetIndirectObject objnum (c_doc c))) in
    let '(pObj, p) := GetOrParse objnum (c_doc c) in
    let c := with_doc p c in
    match pObj with
    | None => Some (with_offsets (erase_key objnum (m_ObjectOffsets c)) c)
    | Some o =>
        c ← WriteIndirectObj objnum o c;
        Some (if bExistInMap then c else with_doc (DeleteIndirectObject objnum (c_doc c)) c)
    end.

Definition WriteOldObjs (c : CPDF_Creator) : option CPDF_Creator :=
  fold_left (λ c n, c ← c; WriteOldIndirectObject n c) (seqZ 0 (GetLastObjNum (c_doc c) + 1)) (Some c).

Definition WriteNewObj (c : option CPDF_Creator) (objnum : Z) : option CPDF_Creator :=
  c ← c;
  match GetIndirectObject objnum (c_doc c) with
  | None => Some c
  | Some o => WriteIndirectObj objnum o (with_offsets (put objnum (CurrentOffset c) (m_ObjectOffsets c)) c)
  end.
Definition WriteNewObjs (c : CPDF_Creator) : option CPDF_Creator := fold_left WriteNewObj (m_NewObjNumArray c) (Some c).

Definition is_new (p : CPDF_Parser) (objnum : Z) : bool :=
  negb m_IsIncremental && negb (has_parser && IsValidObjectNumber p objnum && negb (IsObjectFree p objnum)).
Definition InitNewObjNumOffsets (c : CPDF_Creator) : CPDF_Creator :=
  with_new (fold_left (λ l '(n, o), if bool_decide (is_Some (o : option CPDF_Object)) && is_new (c_doc c) n then insert_sorted n l else l)
              (m_IndirectObjs (c_doc c)) (m_NewObjNumArray c)) c.

(** ["%PDF-1.<version>"] and a comment of four bytes that are not text. *)
Definition header_text (p : CPDF_Parser) : list Z :=
  let version := if negb (m_FileVersion_ =? 0) then m_FileVersion_ else if has_parser then m_FileVersion p else 7 in
  bs "%PDF-1." ++ WriteDWord (version mod 10) ++ str_eol ++ [37; 161; 179; 197; 215] ++ str_eol.

Definition WriteDoc_Stage1 (c : CPDF_Creator) : CPDF_Creator :=
  let c :=
    if negb m_IsIncremental then write (header_text (c_doc c)) c
    else
      let c := if m_IsOriginal then write (drop (Z.to_nat m_HeaderOffset) file) c else c in
      if m_IsOriginal && (m_LastXRefOffset (c_doc c) =? 0) then
        with_offsets
          (fold_left (λ m n, if IsObjectFreeOrNull (c_doc c) n then m else put n (GetObjectPositionOrZero (c_doc c) n) m)
             (seqZ 0 (GetLastObjNum (c_doc c) + 1)) (m_ObjectOffsets c)) c
      else c in
  InitNewObjNumOffsets c.

Definition WriteDoc_Stage2 (c : CPDF_Creator) : option CPDF_Creator :=
  c ← (if negb m_IsIncremental && has_parser then WriteOldObjs c else Some c);
  c ← WriteNewObjs c;
  match m_pEncryptDict_ with
  | Some (n, d) =>
      if n =? 0 then
        let c := with_last (u32 (m_dwLastObjNum c + 1)) c in
        let saveOffset := CurrentOffset c in
        c ← write_object (m_dwLastObjNum c) (CPDF_Dictionary d) false c;
        let c := with_offsets (put (m_dwLastObjNum c) saveOffset (m_ObjectOffsets c)) c in
        Some (if m_IsIncremental then with_new (m_NewObjNumArray c ++ [m_dwLastObjNum c]) c else c)
      else Some c
  | None => Some c
  end.

Definition WriteDoc_Stage3 (c : CPDF_Creator) : CPDF_Creator :=
  if m_IsIncremental && m_bXRefStream (c_doc c) then c
  else if negb m_IsIncremental || (m_LastXRefOffset (c_doc c) =? 0)
  then write (WriteXrefsNotIncremental (m_ObjectOffsets c) (m_dwLastObjNum c)) c
  else write (WriteXrefsIncremental (m_ObjectOffsets c) (m_NewObjNumArray c)) c.

(** ** The trailer *)
Definition dropped_keys : list (list Z) :=
  [bs "Encrypt"; bs "Size"; bs "Filter"; bs "Index"; bs "Length"; bs "Prev"; bs "W"; bs "XRefStm"; bs "ID";
   bs "DecodeParms"; bs "Type"].

(** The entries that are kept of the old trailer. *)
Fixpoint kept_entries (holder : Z → option CPDF_Object) (m : dict) (st : crypt_state) : option (list Z) :=
  match m with
  | [] => Some []
  | (key, v) :: m' =>
      if decide (key ∈ dropped_keys) then kept_entries holder m' st
      else
        '(t, _) ← WriteTo holder ivs 0 compress v false st;
        t' ← kept_entries holder m' st; Some (47 :: PDF_NameEncode key ++ t ++ t')
  end.

Definition new_entries : list Z :=
  str_eol ++ bs "/Root " ++ WriteDWord root_num ++ bs " 0 R" ++ str_eol ++
  match info_num with Some n => bs "/Info " ++ WriteDWord n ++ bs " 0 R" ++ str_eol | None => [] end.

Definition OutputIndex (offset : Z) : list Z :=
  [u8 (offset .>> 24); u8 (offset .>> 16); u8 (offset .>> 8); u8 offset; 0].

(** The cross-reference stream of an increment. *)
Definition xref_stream_text (c : CPDF_Creator) : list Z :=
  let item n := WriteDWord n ++ bs " 1 " in
  let numbers := filter (λ n, contains (m_ObjectOffsets c) n = true) (seqZ 0 (m_dwLastObjNum c)) in
  let '(l, size) := if m_LastXRefOffset (c_doc c) =? 0 then (numbers, m_dwLastObjNum c)
                    else (m_NewObjNumArray c, zlen (m_NewObjNumArray c)) in
  bs "/W[0 4 1]/Index[" ++ flat_map item l ++ bs "]/Length " ++ WriteDWord (size * 5) ++ bs ">>stream" ++ str_eol ++
  flat_map OutputIndex (offsets (m_ObjectOffsets c) l) ++ str_eol ++ bs "endstream".

Definition WriteDoc_Stage4 (xref_start : Z) (c : CPDF_Creator) : option CPDF_Creator :=
  let holder := holder_in file m_HeaderOffset (c_doc c) in
  let bXRefStream := m_IsIncremental && m_bXRefStream (c_doc c) in
  entries ← (if has_parser then kept_entries holder (default [] (GetTrailer (c_doc c))) (c_crypt c) else Some new_entries);
  '(ids, _) ← write_to holder ivs 0 (CPDF_Array m_pIDArray) false (c_crypt c);
  Some (write
    ((if bXRefStream then WriteDWord (m_LastObjNum (c_doc c) + 1) ++ bs " 0 obj <<" else bs "trailer" ++ str_eol ++ bs "<<") ++
     entries ++
     match m_pEncryptDict_ with
     | Some (n, _) => bs "/Encrypt " ++ WriteDWord (if n =? 0 then m_LastObjNum (c_doc c) + 1 else n) ++ bs " 0 R "
     | None => []
     end ++
     bs "/Size " ++ WriteDWord (m_dwLastObjNum c + (if bXRefStream then 2 else 1)) ++
     (if m_IsIncremental && negb (m_LastXRefOffset (c_doc c) =? 0)
      then bs "/Prev " ++ WriteFilesize (m_LastXRefOffset (c_doc c)) else []) ++
     bs "/ID" ++ ids ++
     (if bXRefStream then xref_stream_text c else bs ">>") ++
     str_eol ++ bs "startxref" ++ str_eol ++ WriteFilesize xref_start ++ str_eol ++ bs "%%EOF" ++ str_eol) c).

(** [Continue]: the stages in their order. *)
Definition Continue (c : CPDF_Creator) : option CPDF_Creator :=
  c ← WriteDoc_Stage2 (WriteDoc_Stage1 c);
  WriteDoc_Stage4 (CurrentOffset c) (WriteDoc_Stage3 c).
End creator.

(** [Create] with [InitID]; [new_id] is what [GenerateFileID] makes.  The security
    handler of an old revision is made anew for a new identifier. *)
Definition init_ids (holder : Z → option CPDF_Object) (new_id : list Z) (old : option (list CPDF_Object))
    (keep_second : bool) : list CPDF_Object :=
  let generated := CPDF_String new_id true in
  match old with
  | Some l =>
      [match l with o :: _ => o | [] => generated end;
       match l with _ :: o :: _ => if keep_second then o else generated | _ => generated end]
  | None => [generated; generated]
  end.

Section create.
Context `{Inflate} (compress : list Z → list Z) (ivs : nat → list Z) (file : list Z) (hdr : Z).

Definition encrypt_dict_of (p : CPDF_Parser) : option (Z * dict) * CPDF_Parser :=
  let '(d, p) := GetEncryptDict file hdr p in
  let n := match GetTrailer p ≫= GetObjectFor (bs "Encrypt") with
           | Some (CPDF_Reference n) | Some (CPDF_Indirect n) => n | _ => 0 end in
  (pair n <$> d, p).

Definition Create (has_parser : bool) (root_num : Z) (info_num : option Z) (incremental original : bool) (version : Z)
    (new_id random random2 password : list Z) (p : CPDF_Parser) : option (list Z) :=
  let '(encrypt, p) := if has_parser then encrypt_dict_of p else (None, p) in
  let security := if has_parser then m_pSecurityHandler p else None in
  let old := if has_parser then GetIDArray file hdr p else None in
  let ids := init_ids (holder_in file hdr p) new_id old (incremental && bool_decide (is_Some encrypt)) in
  let holder := holder_in file hdr p in
  '(encrypt, security, changed) ←
    match old, encrypt with
    | None, Some (n, d) =>
        let revision := GetIntegerFor holder d (bs "R") 0 in
        if ((revision =? 2) || (revision =? 3)) && bool_decide (GetStringFor holder d (bs "Filter") = bs "Standard") then
          old_handler ← security;
          h ← OnCreateUser holder d (Some ids) (GetEncodedPassword password old_handler) random random2 security_new;
          Some (Some (0, m_pEncryptDict h), Some h, true)
        else Some (encrypt, security, false)
    | _, _ => Some (encrypt, security, false)
    end;
  let handler := security ≫= m_pCryptoHandler in
  let c := Creator p (m_LastObjNum p) [] [] [] (default (crypto_new Crypto.kNone [] 0) handler, 0%nat) in
  c ← Continue compress ivs file hdr has_parser root_num info_num incremental original changed version encrypt
        (bool_decide (is_Some handler)) ids c;
  Some (m_Archive c).
End create.
