(* ===== verification/Pointer.v ===== *)
(** * Pointers into the objects of a document

    The methods of [CPDF_Array] and [CPDF_Dictionary]
    ([core/fpdfapi/parser/cpdf_array.cpp], [cpdf_dictionary.cpp]) on objects that
    are shared: they are reached by pointers, references are followed through the
    holder, and changes are seen through every pointer. *)
From S2P Require Import Prelude Words Objects Dict StdMap DataDecode DocParser Holder.

#[global] Instance step_eq_dec : EqDecision step.
Proof. solve_decision. Defined.

Definition child (s : step) (o : CPDF_Object) : option CPDF_Object :=
  match s, o with
  | InDict key, CPDF_Dictionary m => GetObjectFor key m
  | InArray i, CPDF_Array l => l !! i
  | OfStream, CPDF_Stream m _ => Some (CPDF_Dictionary m)
  | _, _ => None
  end.
Definition change_child (f : CPDF_Object → CPDF_Object) (s : step) (o : CPDF_Object) : CPDF_Object :=
  let in_map key m := match GetObjectFor key m with Some c => SetFor key (f c) m | None => m end in
  match s, o with
  | InDict key, CPDF_Dictionary m => CPDF_Dictionary (in_map key m)
  | InArray i, CPDF_Array l => CPDF_Array (alter f i l)
  | OfStream, CPDF_Stream m data =>
      match f (CPDF_Dictionary m) with CPDF_Dictionary m => CPDF_Stream m data | _ => o end
  | _, _ => o
  end.

Fixpoint walk (path : list step) (o : CPDF_Object) : option CPDF_Object :=
  match path with [] => Some o | s :: path' => child s o ≫= walk path' end.
Fixpoint change (f : CPDF_Object → CPDF_Object) (path : list step) (o : CPDF_Object) : CPDF_Object :=
  match path with [] => f o | s :: path' => change_child (change f path') s o end.

Definition object_at (q : pointer) (p : CPDF_Parser) : option CPDF_Object := GetIndirectObject q.1 p ≫= walk q.2.
Definition change_at (f : CPDF_Object → CPDF_Object) (q : pointer) (p : CPDF_Parser) : CPDF_Parser :=
  match GetIndirectObject q.1 p with
  | Some o => with_holder (put q.1 (Some (change f q.2 o)) (m_IndirectObjs p)) (m_LastObjNum p) p
  | None => p
  end.

(** [GetObjNum]: 0 for an inline object. *)
Definition GetObjNum (q : pointer) : Z := match q.2 with [] => q.1 | _ => 0 end.

Definition dict_at (q : pointer) (p : CPDF_Parser) : option dict :=
  match object_at q p with Some (CPDF_Dictionary m) => Some m | _ => None end.
Definition array_at (q : pointer) (p : CPDF_Parser) : option (list CPDF_Object) :=
  match object_at q p with Some (CPDF_Array l) => Some l | _ => None end.

(** Changes of a dictionary and of an array. *)
Definition in_dict (f : dict → dict) (o : CPDF_Object) : CPDF_Object :=
  match o with CPDF_Dictionary m => CPDF_Dictionary (f m) | o => o end.
Definition in_array (f : list CPDF_Object → list CPDF_Object) (o : CPDF_Object) : CPDF_Object :=
  match o with CPDF_Array l => CPDF_Array (f l) | o => o end.
Definition SetNewFor (q : pointer) (key : list Z) (o : CPDF_Object) : CPDF_Parser → CPDF_Parser :=
  change_at (in_dict (SetFor key o)) q.

(** [CPDF_Array::InsertAt] before the end, [RemoveAt] and [Append] *)
Definition InsertNewAt (q : pointer) (i : nat) (o : CPDF_Object) : CPDF_Parser → CPDF_Parser :=
  change_at (in_array (λ l, take i l ++ o :: drop i l)) q.
Definition RemoveAt (q : pointer) (i : nat) : CPDF_Parser → CPDF_Parser := change_at (in_array (delete i)) q.
Definition AppendNew (q : pointer) (o : CPDF_Object) : CPDF_Parser → CPDF_Parser := change_at (in_array (λ l, l ++ [o])) q.

Section access.
Context `{Holder}.

(** [GetDirect] of the object [q] points to. *)
Definition direct_at (q : pointer) (p : CPDF_Parser) : option pointer * CPDF_Parser :=
  match object_at q p with
  | Some (CPDF_Reference n) | Some (CPDF_Indirect n) =>
      let '(o, p) := lookup_object n p in ((λ _, (n, [])) <$> o, p)
  | Some _ => (Some q, p)
  | None => (None, p)
  end.

(** Of a stream, its dictionary. *)
Definition dict_pointer (r : option pointer * CPDF_Parser) : option pointer * CPDF_Parser :=
  let '(q, p) := r in
  (q ≫= λ q, match object_at q p with
             | Some (CPDF_Dictionary _) => Some q
             | Some (CPDF_Stream _ _) => Some (q.1, q.2 ++ [OfStream])
             | _ => None
             end, p).
Definition array_pointer (r : option pointer * CPDF_Parser) : option pointer * CPDF_Parser :=
  let '(q, p) := r in (q ≫= λ q, (λ _, q) <$> array_at q p, p).

Definition GetDictAt (q : pointer) (index : nat) (p : CPDF_Parser) := dict_pointer (direct_at (q.1, q.2 ++ [InArray index]) p).
Definition GetDictFor (q : pointer) (key : list Z) (p : CPDF_Parser) := dict_pointer (direct_at (q.1, q.2 ++ [InDict key]) p).
Definition GetArrayFor (q : pointer) (key : list Z) (p : CPDF_Parser) := array_pointer (direct_at (q.1, q.2 ++ [InDict key]) p).

Definition GetIntegerFor (q : pointer) (key : list Z) (p : CPDF_Parser) : Z * CPDF_Parser :=
  match dict_at q p ≫= GetObjectFor key with
  | Some (CPDF_Reference n) | Some (CPDF_Indirect n) =>
      let '(o, p) := lookup_object n p in
      (match o with Some (CPDF_Reference _) | None => 0 | Some o => direct_integer o end, p)
  | Some o => (direct_integer o, p)
  | None => (0, p)
  end.
Definition KeyExist (q : pointer) (key : list Z) (p : CPDF_Parser) : bool :=
  match dict_at q p with Some m => Dict.KeyExist m key | None => false end.
(** [GetNameFor], which does not follow references. *)
Definition GetNameFor (q : pointer) (key : list Z) (p : CPDF_Parser) : list Z :=
  match dict_at q p ≫= GetObjectFor key with Some (CPDF_Name s) => s | _ => [] end.

End access.

(** [CPDF_Array::ConvertToIndirectObjectAt]; [None] is the failed [CHECK] of
    [AddIndirectObject], for an element that has a number. *)
Definition ConvertToIndirectObjectAt (q : pointer) (i : nat) (p : CPDF_Parser) : option CPDF_Parser :=
  match object_at (q.1, q.2 ++ [InArray i]) p with
  | None | Some (CPDF_Reference _) => Some p
  | Some (CPDF_Indirect _) => None
  | Some o =>
      let '(n, p) := AddIndirectObject o p in
      Some (change_at (in_array (alter (λ _, CPDF_Reference n) i)) q p)
  end.
