(* ===== verification/DocText.v ===== *)
(** * The text of a new document

    What [CPDF_Creator] writes for a document that has no parser: every object at
    the offset that the table gives it. *)
From Stdlib Require Import Sorted String.
From stdpp Require Import gmap.
From S2P Require Import Prelude Words CharTypes FxNumber TextString Syntax Objects ObjectText Dict Crypto Security StdMap CrossRef XRef XRefText DataDecode WriteTo WriteText DocParser DocLoad Holder Creator.
Import String.StringSyntax.

(** ** Objects without encryption *)
Lemma write_plain holder ivs objnum d : ∀ o st,
  obj_ok d o → direct o = true → write_to holder ivs objnum o false st = Some (print o, st).
Proof.
  induction d as [|d IH]; intros o st Hok Hd; [done|].
  destruct o as [|b|n|s hex|n|n|l|m|m data|n]; try done.
  - cbn [direct write_to] in *. apply Z.ltb_lt in Hd. destruct Hok. by rewrite write_reference.
  - destruct Hok as [_ Hok]. cbn [direct] in Hd. rewrite print_array. cbn [write_to].
    assert (E : write_elements (write_to holder ivs objnum) false l st = Some (flat_map print_elem l, st)).
    { induction Hok as [|o l Ho _ IHl]; [done|]. cbn [forallb] in Hd. apply andb_prop in Hd as [Hd1 Hd2].
      cbn [write_elements flat_map]. rewrite (IH o st Ho Hd1). cbn [mbind option_bind]. rewrite IHl by done.
      cbn [mbind option_bind]. by destruct o. }
    by rewrite E.
  - destruct Hok as [_ Hok]. cbn [direct] in Hd. rewrite print_dict. cbn [write_to].
    assert (E : ∀ sig, write_entries (write_to holder ivs objnum) sig false m st = Some (flat_map print_entry m, st)).
    { intros sig. induction Hok as [|[k v] m (_ & _ & Ho) _ IHm]; [done|]. cbn [forallb snd] in Hd. apply andb_prop in Hd as [Hd1 Hd2].
      cbn [write_entries flat_map andb]. rewrite (IH v st Ho Hd1). cbn [mbind option_bind]. rewrite IHm by done.
      cbn [mbind option_bind print_entry fst snd app]. by rewrite <-app_assoc. }
    by rewrite E.
Qed.

(** ** Dictionaries that can be written *)
Lemma sorted_key_lt m : StronglySorted key_lt m ↔ sorted_dict m.
Proof.
  induction m as [|[k o] m IH]; [split; constructor|]. rewrite sorted_cons, <-IH. split.
  - intros H. by apply StronglySorted_inv in H.
  - intros [H1 H2]. by constructor.
Qed.

Lemma SetFor_Forall (P : list Z * CPDF_Object → Prop) k o m : P (k, o) → Forall P m → Forall P (SetFor k o m).
Proof.
  intros Hk. induction 1 as [|[k' o'] m Hk' Hm IH]; cbn [SetFor]; [by constructor|].
  destruct (bytes_lt k k') eqn:E1; [by repeat constructor|]. destruct (bytes_lt k' k) eqn:E2; [by constructor|].
  rewrite <-(bytes_lt_total _ _ E1 E2). by constructor.
Qed.

Lemma erase_Forall (P : list Z * CPDF_Object → Prop) k m : Forall P m → Forall P (erase k m).
Proof. induction 1 as [|[k' o'] m Hk' Hm IH]; cbn [erase]; [done|]. destruct (bool_decide _); [done|by constructor]. Qed.

Definition dict_ok (m : dict) : Prop :=
  obj_ok kParserMaxRecursionDepth (CPDF_Dictionary m) ∧ direct (CPDF_Dictionary m) = true.

Lemma dict_ok_depth d m : obj_ok (S d) (CPDF_Dictionary m) ∧ direct (CPDF_Dictionary m) = true ↔
  sorted_dict m ∧ Forall (λ kv, kv.1 ≠ [] ∧ name_ok kv.1 ∧ obj_ok d kv.2 ∧ direct kv.2 = true) m.
Proof.
  cbn [obj_ok direct]. rewrite sorted_key_lt.
  assert (E : forallb (λ kv : list Z * CPDF_Object, direct kv.2) m = true ↔ Forall (λ kv, direct kv.2 = true) m).
  { rewrite Forall_forall, forallb_forall. split; intros H x Hx; apply H; by apply list_elem_of_In. }
  rewrite E, !Forall_forall. split.
  - intros [[Hs Hm] Hd]. split; [done|]. intros x Hx. destruct (Hm x Hx) as (H1 & H2 & H3). split_and!; [done..|by apply Hd].
  - intros [Hs Hm]. split; [split; [done|]|]; intros x Hx; destruct (Hm x Hx) as (H1 & H2 & H3 & H4); [by split_and!|done].
Qed.
Lemma dict_ok_iff m : dict_ok m ↔ sorted_dict m ∧
  Forall (λ kv, kv.1 ≠ [] ∧ name_ok kv.1 ∧ obj_ok 63 kv.2 ∧ direct kv.2 = true) m.
Proof. apply (dict_ok_depth 63). Qed.

Lemma dict_ok_SetFor k o m :
  k ≠ [] → name_ok k → obj_ok 63 o → direct o = true → dict_ok m → dict_ok (SetFor k o m).
Proof.
  rewrite !dict_ok_iff. intros H1 H2 H3 H4 [Hs Hm]. split; [by apply SetFor_sorted|]. by apply SetFor_Forall.
Qed.
Lemma dict_ok_number k n m : k ≠ [] → name_ok k → dict_ok m → dict_ok (SetFor k (CPDF_Number n) m).
Proof. intros H1 H2. exact (dict_ok_SetFor k (CPDF_Number n) m H1 H2 I eq_refl). Qed.
Lemma dict_ok_name k n m : k ≠ [] → name_ok k → name_ok n → dict_ok m → dict_ok (SetFor k (CPDF_Name n) m).
Proof. intros H1 H2 H3. exact (dict_ok_SetFor k (CPDF_Name n) m H1 H2 H3 eq_refl). Qed.
Lemma dict_ok_erase k m : dict_ok m → dict_ok (erase k m).
Proof. rewrite !dict_ok_iff. intros [Hs Hm]. split; [by apply erase_sorted|by apply erase_Forall]. Qed.

(** ** What is stored of an object

    A stream may be compressed and gets the length of its data; a metadata stream
    is written without its filter. *)
Section stored.
Context `{Inflate} (holder : Z → option CPDF_Object) (compress : list Z → list Z).

Definition stored_parts (m : dict) (data : list Z) : dict * list Z :=
  flate_encoder holder compress m data (negb (IsMetaDataStreamDictionary holder m)).
Definition with_length (m : dict) (data : list Z) : dict :=
  if u64 (GetIntegerFor holder m (bs "Length") 0) =? zlen data then m
  else SetFor (bs "Length") (CPDF_Number (FxSigned (zlen data))) m.
Definition stored_text (o : CPDF_Object) : list Z :=
  match o with
  | CPDF_Stream m data => let '(m, data) := stored_parts m data in print (CPDF_Stream (with_length m data) data)
  | o => print o
  end.

(** The object that is read from it. *)
Definition stored (o : CPDF_Object) : CPDF_Object :=
  match o with
  | CPDF_Stream m data =>
      let '(m, data) := stored_parts m data in
      CPDF_Stream (SetFor (bs "Length") (CPDF_Number (FxSigned (zlen data))) (map read_entry m)) data
  | o => as_read o
  end.

Definition length_ok (m : dict) : Prop :=
  match GetObjectFor (bs "Length") m with
  | Some (CPDF_Number n) => IsInteger n = true ∧ INT_MIN <= GetSigned n <= INT_MAX
  | _ => False
  end.

(** Objects of a document: their children are direct or references, and the
    length of a stream is an integer of its dictionary. *)
Definition doc_obj_ok (o : CPDF_Object) : Prop :=
  match o with
  | CPDF_Stream m data => dict_ok m ∧ length_ok m
  | o => obj_ok kParserMaxRecursionDepth o ∧ direct o = true
  end.

Lemma names_ok : name_ok (bs "Length") ∧ name_ok (bs "Filter") ∧ name_ok (bs "FlateDecode").
Proof. split_and!; (split; [cbn; solve_bytes|vm_compute; discriminate]). Qed.

Lemma length_ok_erase k m : k ≠ bs "Length" → sorted_dict m → length_ok m → length_ok (erase k m).
Proof. unfold length_ok. intros Hne Hs. by rewrite !GetObjectFor_map, erase_map, lookup_delete_ne by done. Qed.

Lemma stored_parts_ok m data m' data' : stored_parts m data = (m', data') → dict_ok m → dict_ok m'.
Proof.
  destruct names_ok as (N1 & N2 & N3). unfold stored_parts, flate_encoder. intros E Hm.
  destruct (_ && _); [injection E as <- <-; by apply dict_ok_erase|].
  destruct (_ || _); [by injection E as <- <-|]. injection E as <- <-.
  by apply dict_ok_erase, dict_ok_name, dict_ok_number.
Qed.

Lemma stored_length_ok m data m' data' :
  stored_parts m data = (m', data') → dict_ok m → length_ok m → zlen data' < 2 ^ 31 → length_ok m'.
Proof.
  unfold stored_parts, flate_encoder. intros E Hm Hl Hz. destruct (proj1 (dict_ok_iff m) Hm) as [Hs _].
  destruct (_ && _); [injection E as <- <-; by apply length_ok_erase|].
  destruct (_ || _); [by injection E as <- <-|]. injection E as <- <-.
  apply length_ok_erase; [done|by do 2 apply SetFor_sorted|]. unfold length_ok. rewrite !GetObjectFor_SetFor.
  change (bool_decide (bs "Length" = bs "Filter")) with false. change (bool_decide (bs "Length" = bs "Length")) with true.
  cbv iota. split; [done|]. cbn [GetSigned]. unfold INT_MIN, INT_MAX. pose proof (zlen_nonneg (compress data)). lia.
Qed.

Lemma with_length_ok m data : dict_ok m → dict_ok (with_length m data).
Proof.
  intros Hm. unfold with_length. destruct (_ =? _); [done|]. destruct names_ok as (N1 & _).
  by apply dict_ok_number.
Qed.

Lemma WriteTo_stored ivs n o st : doc_obj_ok o → WriteTo holder ivs n compress o false st = Some (stored_text o, st).
Proof.
  intros Ho. assert (Hplain : write_to holder ivs n o false st = Some (print o, st) ∨ ∃ m data, o = CPDF_Stream m data).
  { destruct o as [|b|k|s hex|k|k|l|m|m data|k]; try (left; destruct Ho as [H1 H2]; exact (write_plain _ _ _ _ _ _ H1 H2)).
    right. by exists m, data. }
  destruct Hplain as [Hp|(m & data & ->)]; [by destruct o|]. cbn [WriteTo stored_text]. unfold write_stream.
  fold (stored_parts m data). destruct (stored_parts m data) as [m' data'] eqn:E. cbn [andb mbind option_bind].
  fold (with_length m' data'). destruct Ho as [Hm _].
  destruct (with_length_ok m' data' (stored_parts_ok _ _ _ _ E Hm)) as [H1 H2].
  rewrite (write_plain _ _ _ _ _ _ H1 H2). cbn [mbind option_bind]. do 2 f_equal. cbn [print app].
  by rewrite <-!app_assoc.
Qed.
End stored.

(** ** The objects of a new document *)
Lemma insert_sorted_elem n k l : n ∈ insert_sorted k l ↔ n = k ∨ n ∈ l.
Proof.
  induction l as [|x l IH]; cbn [insert_sorted]; [by rewrite elem_of_cons|].
  destruct (x <? k); rewrite !elem_of_cons, ?IH; tauto.
Qed.
Lemma insert_sorted_nodup k l : k ∉ l → NoDup l → NoDup (insert_sorted k l).
Proof.
  induction l as [|x l IH]; intros Hk Hl; cbn [insert_sorted]; [by apply NoDup_singleton|].
  apply NoDup_cons in Hl as [Hx Hl]. rewrite not_elem_of_cons in Hk. destruct Hk as [Hk1 Hk2]. destruct (x <? k).
  - apply NoDup_cons. split; [|by apply IH]. rewrite insert_sorted_elem. naive_solver.
  - apply NoDup_cons. split; [by rewrite not_elem_of_cons|]. by apply NoDup_cons.
Qed.

Definition new_number (l : list Z) (e : Z * option CPDF_Object) : list Z :=
  if bool_decide (is_Some e.2) then insert_sorted e.1 l else l.

Lemma new_numbers_spec m : ∀ l, sorted m → NoDup l → (∀ n, n ∈ l → find n m = None) →
  NoDup (fold_left new_number m l) ∧
  ∀ n, n ∈ fold_left new_number m l ↔ n ∈ l ∨ is_Some (mjoin (find n m)).
Proof.
  induction m as [|[k o] m IH]; intros l Hs Hl Hd; cbn [fold_left find].
  { split; [done|]. intros n. split; [by left|]. intros [Hn|[o Ho]]; [exact Hn|discriminate Ho]. }
  destruct (proj1 (sorted_inv _ _ _) Hs) as [Hm Hab]. pose proof (find_below k m Hab) as Hk.
  assert (Hkl : k ∉ l) by (intros Hin; specialize (Hd k Hin); cbn in Hd; by rewrite Z.eqb_refl in Hd).
  assert (Hd' : ∀ n, n ∈ l → find n m = None).
  { intros n Hn. specialize (Hd n Hn). cbn in Hd. by destruct (k =? n). }
  change (new_number l (k, o)) with (if bool_decide (is_Some o) then insert_sorted k l else l). destruct (bool_decide_reflect (is_Some o)) as [[o' ->]|Ho].
  - destruct (IH (insert_sorted k l)) as [H1 H2]; [done|by apply insert_sorted_nodup| |].
    { intros n Hn. apply insert_sorted_elem in Hn as [->|Hn]; [done|by apply Hd']. }
    split; [done|]. intros n. rewrite H2, insert_sorted_elem. destruct (Z.eqb_spec k n) as [->|Hne]; [|naive_solver].
    split; [intros _; right; by exists o'|by left; left].
  - destruct (IH l) as [H1 H2]; [done..|]. split; [done|]. intros n. rewrite H2.
    destruct (Z.eqb_spec k n) as [->|Hne]; [|reflexivity]. rewrite Hk. destruct o as [o|]; [destruct Ho; by exists o|]. reflexivity.
Qed.

(** A document without a parser: the numbers of its objects are from 1 to the
    last one, which a table can hold. *)
Record new_doc (p : CPDF_Parser) : Prop := {
  nd_sorted : sorted (m_IndirectObjs p);
  nd_objs n o : GetIndirectObject n p = Some o → 1 <= n <= m_LastObjNum p ∧ doc_obj_ok o;
  nd_last : 0 <= m_LastObjNum p < kMaxXRefSize - 1;
}.

Definition trailer_text (root_num : Z) (info_num : option Z) (last xref_start : Z) (ids : list CPDF_Object) : list Z :=
  bs "trailer" ++ str_eol ++ bs "<<" ++ new_entries root_num info_num ++ bs "/Size " ++ WriteDWord (last + 1) ++
  bs "/ID" ++ print (CPDF_Array ids) ++ bs ">>" ++ str_eol ++ bs "startxref" ++ str_eol ++
  WriteFilesize xref_start ++ str_eol ++ bs "%%EOF" ++ str_eol.

Section new.
Context `{Inflate} (compress : list Z → list Z) (ivs : nat → list Z) (file : list Z) (hdr : Z) (p : CPDF_Parser).
Notation holder := (holder_in file hdr p).

Definition object_text (n : Z) (o : CPDF_Object) : list Z :=
  WriteDWord n ++ bs " 0 obj" ++ str_eol ++ stored_text holder compress o ++ str_eol ++ bs "endobj" ++ str_eol.

Lemma WriteNewObj_spec c n o :
  c_doc c = p → GetIndirectObject n p = Some o → doc_obj_ok o →
  WriteNewObj compress ivs file hdr None false (Some c) n =
    Some (write (object_text n o) (with_offsets (put n (CurrentOffset c) (m_ObjectOffsets c)) c)).
Proof.
  intros Hc Ho Hok. unfold WriteNewObj. cbn [mbind option_bind]. rewrite Hc, Ho.
  unfold WriteIndirectObj, write_object. cbn [andb c_doc c_crypt with_offsets].
  rewrite Hc, WriteTo_stored by done. by cbn [mbind option_bind].
Qed.

(** Where the object [n] is in [text]. *)
Definition placed (text : list Z) (n : Z) (o : CPDF_Object) (offset : Z) : Prop :=
  ∃ a b, text = a ++ object_text n o ++ b ∧ offset = zlen a.

Lemma placed_after a text b n o offset : placed text n o offset → placed (a ++ text ++ b) n o (zlen a + offset).
Proof.
  intros (a' & b' & -> & ->). exists (a ++ a'), (b' ++ b). rewrite zlen_app. split; [|done]. by rewrite <-!app_assoc.
Qed.

Lemma WriteNewObjs_spec l : ∀ c,
  c_doc c = p → NoDup l → (∀ n, n ∈ l → ∃ o, GetIndirectObject n p = Some o ∧ doc_obj_ok o) →
  ∃ body offs,
    fold_left (WriteNewObj compress ivs file hdr None false) l (Some c) = Some (write body (with_offsets offs c)) ∧
    ∀ n, (n ∈ l → ∃ o off, GetIndirectObject n p = Some o ∧ find n offs = Some (CurrentOffset c + off) ∧ placed body n o off) ∧
         (n ∉ l → find n offs = find n (m_ObjectOffsets c)).
Proof.
  induction l as [|k l IH]; intros c Hc Hl Ho; cbn [fold_left].
  { exists [], (m_ObjectOffsets c). split; [|split; [by intros ?%elem_of_nil|done]].
    unfold write. cbn. rewrite app_nil_r. by destruct c. }
  apply NoDup_cons in Hl as [Hk Hl]. destruct (Ho k ltac:(left)) as (o & Ek & Hok).
  rewrite (WriteNewObj_spec c k o Hc Ek Hok). set (c1 := write _ _).
  destruct (IH c1 Hc Hl) as (body & offs & E & Hp); [intros n Hn; apply Ho; by right|]. rewrite E.
  assert (Hcur : CurrentOffset c1 = CurrentOffset c + zlen (object_text k o)) by (unfold CurrentOffset, c1; cbn; by rewrite zlen_app).
  exists (object_text k o ++ body), offs. split; [unfold write, c1; cbn; by rewrite app_assoc|].
  intros n. destruct (Hp n) as [Hin Hout]. split.
  - intros Hn. destruct (decide (n ∈ l)) as [Hnl|Hnl].
    + destruct (Hin Hnl) as (o' & off & E1 & E2 & E3). exists o', (zlen (object_text k o) + off).
      split_and!; [done|rewrite E2, Hcur; f_equal; lia|]. rewrite <-(app_nil_r body). by apply placed_after.
    + apply elem_of_cons in Hn as [->|Hn]; [|done]. exists o, 0. split_and!; [done| |by exists [], body].
      rewrite Hout by done. cbn. by rewrite find_put, Z.eqb_refl, Z.add_0_r.
  - intros Hn. rewrite not_elem_of_cons in Hn. destruct Hn as [Hne Hn]. rewrite Hout by done. cbn.
    rewrite find_put. by replace (k =? n) with false by lia.
Qed.

Lemma Create_text root_num info_num incremental original version new_id random random2 password :
  new_doc p →
  let header := header_text false version p in
  let ids := [CPDF_String new_id true; CPDF_String new_id true] in
  ∃ body offs,
    Create compress ivs file hdr false root_num info_num incremental original version new_id random random2 password p =
      Some (header ++ body ++ WriteXrefsNotIncremental offs (m_LastObjNum p) ++
            trailer_text root_num info_num (m_LastObjNum p) (zlen (header ++ body)) ids) ∧
    ∀ n, match GetIndirectObject n p with
         | Some o => ∃ off, find n offs = Some (zlen header + off) ∧ placed body n o off
         | None => find n offs = None
         end.
Proof.
  intros Hp header ids.
  assert (Hi : m_IsIncremental false incremental original false = false) by (by destruct incremental).
  unfold Create. cbn [mbind option_bind]. unfold Continue, WriteDoc_Stage1. rewrite Hi. cbn [negb].
  set (c1 := InitNewObjNumOffsets _ _ _ _ _).
  assert (Ec1 : c1 = with_new (fold_left new_number (m_IndirectObjs p) [])
    (write header (Creator p (m_LastObjNum p) [] [] [] (crypto_new Crypto.kNone [] 0, 0%nat)))).
  { unfold c1, InitNewObjNumOffsets. cbn [c_doc write m_NewObjNumArray m_IndirectObjs]. f_equal.
    unfold is_new. rewrite Hi. cbn [andb negb]. generalize (@nil Z).
    induction (m_IndirectObjs p) as [|[k o] m IH]; intros l; [done|]. cbn [fold_left]. rewrite IH.
    change (new_number l (k, o)) with (if bool_decide (is_Some o) then insert_sorted k l else l). by rewrite andb_true_r. }
  destruct (new_numbers_spec (m_IndirectObjs p) [] (nd_sorted p Hp)) as [Hnd Hin]; [constructor|by intros ? ?%elem_of_nil|].
  unfold WriteDoc_Stage2, WriteNewObjs. rewrite Hi. cbn [negb andb mbind option_bind].
  destruct (WriteNewObjs_spec (m_NewObjNumArray c1) c1) as (body & offs & E & Hpl).
  { by rewrite Ec1. }
  { by rewrite Ec1. }
  { rewrite Ec1. cbn [m_NewObjNumArray with_new]. intros n Hn. apply Hin in Hn as [Hn|[o Ho]]; [by apply elem_of_nil in Hn|].
    exists o. split; [done|]. by apply (nd_objs p Hp n). }
  repeat match goal with |- context [bool_decide (is_Some (@None ?T))] => change (bool_decide (is_Some (@None T))) with false end.
  rewrite E. cbn [mbind option_bind]. change (init_ids _ _ None _) with ids. set (c2 := write body (with_offsets offs c1)).
  unfold WriteDoc_Stage3, WriteDoc_Stage4. rewrite Hi. cbn [andb negb orb mbind option_bind].
  assert (Eids : ∀ st, write_to (holder_in file hdr (c_doc (write (WriteXrefsNotIncremental (m_ObjectOffsets c2) (m_dwLastObjNum c2)) c2)))
    ivs 0 (CPDF_Array ids) false st = Some (print (CPDF_Array ids), st)) by done.
  rewrite Eids. cbn [mbind option_bind]. exists body, offs. split.
  - f_equal. unfold c2. rewrite Ec1. unfold trailer_text, CurrentOffset. cbn [write m_Archive with_new with_offsets m_ObjectOffsets m_dwLastObjNum app].
    by rewrite <-!app_assoc.
  - intros n. destruct (Hpl n) as [H1 H2]. rewrite Ec1 in H1, H2. cbn [m_NewObjNumArray with_new m_ObjectOffsets write] in H1, H2.
    specialize (Hin n). unfold GetIndirectObject in *. destruct (mjoin (find n (m_IndirectObjs p))) as [o|].
    + destruct H1 as (o' & off & E1 & E2 & E3); [apply Hin; right; by eexists|]. injection E1 as <-. by exists off.
    + apply H2. intros Hn. apply Hin in Hn as [Hn|[? Hn]]; [by apply elem_of_nil in Hn|discriminate Hn].
Qed.
End new.
