(* ===== verification/DocRead.v ===== *)
(** * A new document is read back

    [CPDF_Parser] on the text of [CPDF_Creator]: from the header and [startxref]
    through the table and the trailer to every object. *)
From Stdlib Require Import Sorted String.
From stdpp Require Import gmap.
From S2P Require Import Prelude Words CharTypes FxNumber TextString Syntax Objects ObjectText ObjectTotal StreamText Dict Crypto Security StdMap CrossRef XRef XRefText XRefTable DataDecode DataPipeline WriteTo WriteText DocParser DocLoad DocTotal Holder Creator DocText.
Import String.StringSyntax.

(** ** Positions *)
Lemma At_set file a l s : file = a ++ l → state_ok s → At file 0 (SetPos file (zlen a) s) l.
Proof.
  intros -> Hs. unfold SetPos, m_FileLen. rewrite Z.min_l by (rewrite zlen_app; pose proof (zlen_nonneg l); lia).
  pose proof (zlen_nonneg a). split; [|split; [cbn; lia|done]]. unfold suffix. cbn [m_Pos at_pos].
  replace (0 <=? zlen a + 0) with true by lia. replace (Z.to_nat (zlen a + 0)) with (length a) by (unfold zlen; lia).
  apply drop_app_length.
Qed.

Lemma At_state_ok file hdr s l : At file hdr s l → state_ok s.
Proof. by intros (_ & _ & H). Qed.

(** ** White space before an object *)
Lemma to_next_word_blanks sp l : ∀ pos, blanks sp → to_next_word false (sp ++ l) pos = to_next_word false l (pos + zlen sp).
Proof.
  intros pos Hsp. revert pos. induction Hsp as [|c sp Hc _ IH]; intros pos; cbn [app to_next_word].
  - rewrite (@zlen_nil Z). f_equal. lia.
  - rewrite Hc, IH, zlen_cons. f_equal. lia.
Qed.

Lemma GetNextWord_blanks file hdr s sp l :
  At file hdr s (sp ++ l) → blanks sp → GetNextWord file hdr s = GetNextWord file hdr (at_pos (m_Pos s + zlen sp) s).
Proof.
  intros Hs Hsp. pose proof (At_move file hdr s sp l Hs) as Hs'. destruct Hs as (E & _), Hs' as (E' & _).
  assert (Et : ToNextWord file hdr s = ToNextWord file hdr (at_pos (m_Pos s + zlen sp) s)).
  { unfold ToNextWord. cbn [m_Pos at_pos] in *. rewrite E, E', to_next_word_blanks by done. reflexivity. }
  unfold GetNextWord, GetNextWordInternal. by rewrite Et.
Qed.

Lemma get_blanks file hdr holder loop d t s sp l o s' :
  At file hdr s (sp ++ l) → blanks sp →
  get_object file hdr holder loop d t (at_pos (m_Pos s + zlen sp) s) = Some (Some o, s') →
  get_object file hdr holder loop d t s = Some (Some o, s').
Proof.
  intros Hs Hsp. destruct d as [|d]; [done|]. cbn [get_object]. rewrite (GetNextWord_blanks file hdr s sp l Hs Hsp).
  destruct (GetNextWord file hdr (at_pos _ s)) as [[w num] s1]. destruct w as [|c w]; [done|].
  repeat (case_match; try done).
Qed.

(** One word; the position does not go back. *)
Lemma word_at file hdr s l w num r :
  At file hdr s l → lex l = (w, num, r) →
  ∃ s', GetNextWord file hdr s = (w, num, s') ∧ At file hdr s' r ∧ m_Pos s <= m_Pos s'.
Proof.
  intros Hs El. pose proof (GetNextWord_lex file hdr s l Hs) as H. pose proof (lex_length l) as [Hl _]. rewrite El in H, Hl.
  destruct H as (s' & E & Hs' & Hp & _). exists s'. cbn [snd] in Hl. split_and!; [done|done|lia].
Qed.

(** ** Lengths of streams *)
Lemma GetObjectFor_read_map k m : GetObjectFor k (map read_entry m) = as_read <$> GetObjectFor k m.
Proof. induction m as [|[k' v] m IH]; [done|]. cbn [map read_entry GetObjectFor]. by case_bool_decide. Qed.

Lemma SetFor_read_map k o m : map read_entry (SetFor k o m) = SetFor k (as_read o) (map read_entry m).
Proof.
  induction m as [|[k' v] m IH]; [done|]. cbn [map read_entry SetFor]. destruct (bytes_lt k k'); [done|].
  destruct (bytes_lt k' k); [|done]. cbn [map read_entry]. by rewrite IH.
Qed.

Lemma SetFor_twice k o o' m : SetFor k o (SetFor k o' m) = SetFor k o m.
Proof.
  induction m as [|[k' v] m IH]; cbn [SetFor]; [by rewrite bytes_lt_irrefl|].
  destruct (bytes_lt k k') eqn:E1; cbn [SetFor]; [by rewrite bytes_lt_irrefl|].
  destruct (bytes_lt k' k) eqn:E2; cbn [SetFor]; rewrite E1, E2; [by rewrite IH|done].
Qed.

Lemma s32_of_u32 n : 0 <= n < 2 ^ 31 → s32 n = n.
Proof. intros Hn. unfold s32. by replace (2 ^ 31 <=? n) with false by lia. Qed.

Lemma u64_size n z : INT_MIN <= n <= INT_MAX → 0 <= z < 2 ^ 31 → u64 n = z → n = z.
Proof.
  unfold INT_MIN, INT_MAX. intros Hn Hz E. destruct (Z.lt_ge_cases n 0).
  - rewrite <-(Z_mod_plus_full n 1), Z.mod_small in E by lia. lia.
  - by rewrite Z.mod_small in E by lia.
Qed.

Lemma stream_length_read whold hold m data :
  length_ok m → zlen data < 2 ^ 31 → stream_length hold (map read_entry (with_length whold m data)) = zlen data.
Proof.
  intros Hl Hz. pose proof (zlen_nonneg data) as H0. unfold stream_length. rewrite GetObjectFor_read_map.
  change str_Length with (bs "Length").
  assert (Hnum : ∀ n, IsInteger n = true → GetSigned n = zlen data →
    match as_read <$> Some (CPDF_Number n) with
    | Some o => match GetDirect hold o with Some (CPDF_Number n) => GetSigned n | _ => -1 end
    | None => -1 end = zlen data).
  { intros n Hi En. cbn [fmap option_fmap option_map as_read GetDirect]. unfold NumberGetString. rewrite Hi, En.
    rewrite FX_Number_Format by (unfold INT_MIN, UINT_MAX; lia). replace (zlen data <? 0) with false by lia.
    by apply s32_of_u32. }
  unfold with_length. destruct (Z.eqb_spec (u64 (GetIntegerFor whold m (bs "Length") 0)) (zlen data)) as [E|E].
  - unfold GetIntegerFor in E. unfold length_ok in Hl. destruct (GetObjectFor (bs "Length") m) as [o|]; [|done].
    destruct o as [| |n| | | | | | |]; try done. destruct Hl as [Hi Hr]. apply Hnum; [done|].
    by apply u64_size.
  - rewrite GetObjectFor_SetFor, bool_decide_eq_true_2 by done. by apply Hnum.
Qed.

(** The stream that is read from the text. *)
Lemma stored_dict whold m data :
  SetFor (bs "Length") (CPDF_Number (FxSigned (zlen data))) (map read_entry (with_length whold m data)) =
  SetFor (bs "Length") (CPDF_Number (FxSigned (zlen data))) (map read_entry m).
Proof. unfold with_length. destruct (_ =? _); [done|]. by rewrite SetFor_read_map, SetFor_twice. Qed.

(** ** Objects *)
Lemma WriteDWord_dec n : 0 <= n < 2 ^ 31 → WriteDWord n = FormatInteger n.
Proof. intros Hn. unfold WriteDWord. by rewrite s32_small. Qed.

Lemma safe_endobj b : safe (str_eol ++ bs "endobj" ++ str_eol ++ b).
Proof.
  assert (E : lex (str_eol ++ bs "endobj" ++ str_eol ++ b) = (kEndObjStr, false, str_eol ++ b)).
  { rewrite lex_blanks by (by repeat constructor). change (bs "endobj") with kEndObjStr.
    apply lex_word; [by repeat constructor|done|done|done]. }
  unfold safe. rewrite E. by split_and!.
Qed.

Section objects.
Context `{Inflate} (file : list Z) (whold hold : Z → option CPDF_Object) (compress : list Z → list Z).

Definition data_small (o : CPDF_Object) : Prop :=
  match o with CPDF_Stream m data => zlen (stored_parts whold compress m data).2 < 2 ^ 31 | _ => True end.

Lemma body_reads o s b :
  doc_obj_ok o → data_small o → 0 <= m_Pos s →
  At file 0 s (str_eol ++ stored_text whold compress o ++ str_eol ++ bs "endobj" ++ str_eol ++ b) →
  ∃ s', GetObjectBodyInternal file 0 hold kLoose s = Some (Some (stored whold compress o), s').
Proof.
  intros Ho Hd Hp Hs. unfold GetObjectBodyInternal.
  assert (Hbl : blanks str_eol) by (by repeat constructor).
  pose proof (At_move file 0 s _ _ Hs) as Hs1. set (s1 := at_pos _ s) in Hs1.
  assert (Hget : ∃ s', get_object file 0 hold (S (length file)) kParserMaxRecursionDepth kLoose s1 =
    Some (Some (stored whold compress o), s')).
  { assert (Hplain : (obj_ok kParserMaxRecursionDepth o ∧ stored_text whold compress o = print o ∧
        stored whold compress o = as_read o) ∨ ∃ m data, o = CPDF_Stream m data).
    { destruct o as [|v|k|t hex|k|k|l|m|m data|k]; try (left; destruct Ho as [H1 _]; split_and!; [exact H1|reflexivity|reflexivity]).
      right. by exists m, data. }
    destruct Hplain as [(H1 & E1 & E2)|(m & data & ->)].
    - rewrite E1 in Hs1. rewrite E2.
      destruct (reads_all file 0 hold kParserMaxRecursionDepth o kLoose H1 s1 _ (safe_endobj b) (or_introl Hs1)) as (s' & E & _).
      by exists s'.
    - cbn [stored_text stored data_small] in *. destruct Ho as [Hm Hl].
      destruct (stored_parts whold compress m data) as [m' data'] eqn:E. cbn [snd] in Hd.
      pose proof (stored_parts_ok whold compress m data m' data' E Hm) as Hm'.
      pose proof (stored_length_ok whold compress m data m' data' E Hm Hl Hd) as Hl'.
      destruct (with_length_ok whold m' data' Hm') as [H1 _].
      destruct (stream_reads file 0 hold 63 kLoose (with_length whold m' data') data' s1 (str_eol ++ b)) as (s' & Eg & _).
      + lia.
      + unfold s1. cbn [m_Pos at_pos]. pose proof (zlen_nonneg str_eol). lia.
      + exact H1.
      + by apply stream_length_read.
      + by left.
      + unfold str_eol at 1 in Hs1. exact Hs1.
      + exists s'. fold read_entry in Eg. change str_Length with (bs "Length") in Eg. rewrite stored_dict in Eg. exact Eg. }
  destruct Hget as [s' E]. exists s'. by apply (get_blanks file 0 hold _ _ kLoose s str_eol _ _ _ Hs Hbl).
Qed.

Lemma object_at n o s b :
  0 <= n < 2 ^ 31 → doc_obj_ok o → data_small o → 0 <= m_Pos s →
  At file 0 s (WriteDWord n ++ bs " 0 obj" ++ str_eol ++ stored_text whold compress o ++ str_eol ++ bs "endobj" ++ str_eol ++ b) →
  ∃ s', Objects.GetIndirectObject file 0 hold kLoose s = Some (Some (n, 0, stored whold compress o), s').
Proof.
  intros Hn Ho Hd Hp Hs. rewrite WriteDWord_dec in Hs by done.
  destruct (numeric_Format n) as (N1 & N2 & N3).
  assert (Hnum : numeric_text (FormatInteger n)) by (split_and!; [done..|unfold zlen; lia]).
  change (bs " 0 obj") with ([32; 48; 32] ++ str_obj) in Hs. rewrite <-app_assoc in Hs.
  set (tl := str_eol ++ stored_text whold compress o ++ str_eol ++ bs "endobj" ++ str_eol ++ b) in *.
  assert (L1 : lex (FormatInteger n ++ [32; 48; 32] ++ str_obj ++ tl) = (FormatInteger n, true, [32; 48; 32] ++ str_obj ++ tl))
    by (by apply lex_number).
  destruct (word_at file 0 s _ _ _ _ Hs L1) as (s1 & E1 & Hs1 & P1).
  destruct (word_at file 0 s1 _ _ _ _ Hs1 (lex_zero _)) as (s2 & E2 & Hs2 & P2).
  assert (L3 : lex (32 :: str_obj ++ tl) = (str_obj, false, tl))
    by (rewrite lex_space; apply lex_word; [by repeat constructor|done|done|done]).
  destruct (word_at file 0 s2 _ _ _ _ Hs2 L3) as (s3 & E3 & Hs3 & P3).
  assert (Hp3 : 0 <= m_Pos s3) by lia.
  destruct (body_reads o s3 b Ho Hd Hp3 Hs3) as (s4 & E4). exists s4.
  unfold Objects.GetIndirectObject, GetKeyword. rewrite E1. cbn [negb orb].
  assert (Hz : zlen (FormatInteger n) =? 0 = false) by (apply Z.eqb_neq; unfold zlen; destruct (FormatInteger n); [done|cbn; lia]).
  rewrite Hz, E2. cbn [negb orb]. change (zlen [48] =? 0) with false. cbv iota. rewrite E3.
  rewrite bool_decide_eq_true_2 by done. cbn [negb]. rewrite E4. cbn [mbind option_bind].
  rewrite atoui_Format by (unfold UINT_MAX; lia). done.
Qed.
End objects.

(** ** [startxref] *)
Section startxref.
Context (file : list Z).

Lemma GetCharAt_rd pos : 0 <= pos < zlen file → GetCharAt file 0 pos = Some file.[pos].
Proof.
  intros Hp. unfold GetCharAt, suffix. rewrite Z.add_0_r. replace (0 <=? pos) with true by lia.
  by rewrite (drop_S _ _ _ (rd_lookup_lt file pos Hp)).
Qed.

Notation search start pos offset := (backwards_search file 0 (S (Z.to_nat pos)) str_startxref 4096 start pos offset).

(** One character that is not the one looked for, and one that is. *)
Lemma search_step start pos offset :
  1 <= pos < zlen file → start - 4096 < pos → 0 <= offset <= 8 →
  search start pos offset =
    if file.[pos] =? str_startxref.[offset] then
      if 0 <=? offset - 1 then search start (pos - 1) (offset - 1)
      else if IsWholeWord file 0 pos 4096 str_startxref false then Some pos
      else search start (pos - 1) (if file.[pos] =? 102 then 7 else 8)
    else search start (pos - 1) (if file.[pos] =? 102 then 7 else 8).
Proof.
  intros Hp Hs Ho. cbn [backwards_search]. replace (pos <=? start - 4096) with false by lia.
  change (negb (4096 =? 0) && false) with false. cbv iota. rewrite GetCharAt_rd by lia. cbv zeta.
  change (zlen str_startxref) with 9. change (str_startxref.[9 - 1]) with 102. change (9 - 2) with 7. change (9 - 1) with 8.
  replace (pos - 1 <? 0) with false by lia. by replace (Z.to_nat pos) with (S (Z.to_nat (pos - 1))) by lia.
Qed.

Lemma search_skip a l r start :
  file = a ++ l ++ r → 1 <= zlen a → Forall (λ c, c ≠ 102) l → start - 4096 < zlen a →
  search start (zlen a + zlen l - 1) 8 = search start (zlen a - 1) 8.
Proof.
  revert r. induction l as [|c l IH] using rev_ind; intros r Hf Ha Hl Hs.
  { rewrite (@zlen_nil Z). f_equal; [do 2 f_equal; lia|lia]. }
  apply Forall_app in Hl as [Hl Hc]. rewrite Forall_singleton in Hc. pose proof (zlen_nonneg l).
  rewrite zlen_app. change (zlen [c]) with 1. replace (zlen a + (zlen l + 1) - 1) with (zlen a + zlen l) by lia.
  assert (Hz : zlen file = zlen a + (zlen l + 1 + zlen r)) by (rewrite Hf, !zlen_app; done). pose proof (zlen_nonneg r).
  assert (Ec : file.[zlen a + zlen l] = c).
  { rewrite Hf, rd_app_r by lia. rewrite <-app_assoc. replace (zlen l) with (zlen l + 0) by lia. by rewrite rd_app_r. }
  rewrite search_step by lia. rewrite Ec. change (str_startxref.[8]) with 102. replace (c =? 102) with false by lia.
  apply (IH ([c] ++ r)); [by rewrite Hf, <-!app_assoc|done..].
Qed.

Lemma search_match a r start (k : nat) :
  file = a ++ str_startxref ++ r → 1 <= zlen a → start - 4096 < zlen a → (k <= 8)%nat →
  search start (zlen a + Z.of_nat k) (Z.of_nat k) = search start (zlen a) 0.
Proof.
  intros Hf Ha Hs. assert (Hz : zlen file = zlen a + (9 + zlen r)) by (rewrite Hf, !zlen_app; done). pose proof (zlen_nonneg r).
  induction k as [|k IH]; intros Hk; [f_equal; [do 2 f_equal; lia|lia]|].
  assert (Ec : file.[zlen a + Z.of_nat (S k)] = str_startxref.[Z.of_nat (S k)]).
  { rewrite Hf, rd_app_r by lia. apply rd_app_l. change (zlen str_startxref) with 9. lia. }
  rewrite search_step by lia. rewrite Ec, Z.eqb_refl. replace (0 <=? Z.of_nat (S k) - 1) with true by lia.
  rewrite <-IH by lia. replace (zlen a + Z.of_nat (S k) - 1) with (zlen a + Z.of_nat k) by lia.
  by replace (Z.of_nat (S k) - 1) with (Z.of_nat k) by lia.
Qed.

Lemma search_whole a r start :
  file = (a ++ [10]) ++ str_startxref ++ 13 :: r → start - 4096 < zlen (a ++ [10]) →
  search start (zlen (a ++ [10])) 0 = Some (zlen (a ++ [10])).
Proof.
  intros Hf Hs. set (b := a ++ [10]) in *. assert (Hb : zlen b = zlen a + 1) by (unfold b; by rewrite zlen_app). pose proof (zlen_nonneg a).
  assert (Hz : zlen file = zlen b + (9 + (1 + zlen r))) by (rewrite Hf, !zlen_app, zlen_cons; done). pose proof (zlen_nonneg r).
  assert (E0 : file.[zlen b] = 115).
  { replace (zlen b) with (zlen b + 0) by lia. by rewrite Hf, rd_app_r. }
  assert (E9 : file.[zlen b + 9] = 13) by (by rewrite Hf, rd_app_r).
  assert (E1 : file.[zlen b - 1] = 10).
  { rewrite Hf, Hb, rd_app_l by lia. unfold b. replace (zlen a + 1 - 1) with (zlen a) by lia. apply rd_snoc. }
  rewrite search_step by lia. rewrite E0. change (str_startxref.[0]) with 115. rewrite Z.eqb_refl.
  change (0 <=? 0 - 1) with false. cbv iota.
  assert (E : IsWholeWord file 0 (zlen b) 4096 str_startxref false = true); [|by rewrite E].
  unfold IsWholeWord. change (zlen str_startxref) with 9. rewrite !GetCharAt_rd, E9, E1 by lia.
  change (PDFCharIsNumeric 13 || PDFCharIsOther 13 || (false && PDFCharIsDelimiter 13)) with false.
  change (PDFCharIsNumeric 10 || PDFCharIsOther 10 || (false && PDFCharIsDelimiter 10)) with false.
  by rewrite !andb_false_r.
Qed.

(** [startxref] is found from the last nine bytes. *)
Definition str_end : list Z := str_eol ++ bs "%%EOF" ++ str_eol.
Lemma search_found a w s :
  file = (a ++ [10]) ++ str_startxref ++ str_eol ++ w ++ str_end → Forall (λ c, c ≠ 102) w → zlen w <= 20 →
  m_Pos s = zlen file - 9 →
  BackwardsSearchToWord file 0 str_startxref 4096 s = (true, at_pos (zlen (a ++ [10])) s).
Proof.
  intros Hf Hw Hlen Hs. unfold BackwardsSearchToWord. change (zlen str_startxref =? 0) with false. cbv iota.
  set (b := a ++ [10]) in *. pose proof (zlen_nonneg w).
  assert (Hb : 1 <= zlen b) by (unfold b; rewrite zlen_app; pose proof (zlen_nonneg a); change (zlen [10]) with 1; lia).
  assert (Hz : zlen file = zlen b + (9 + (2 + (zlen w + 9)))) by (rewrite Hf, !zlen_app; done).
  rewrite Hs, Z.add_0_r. change (9 - 1) with 8 in *.
  assert (E : search (zlen file - 9) (zlen file - 9) 8 = Some (zlen b)).
  { pose proof (search_skip (b ++ str_startxref) (str_eol ++ w ++ [13]) (drop 1 str_end) (zlen file - 9)) as H1.
    rewrite !zlen_app in H1. change (zlen str_startxref) with 9 in H1. change (zlen str_eol) with 2 in H1. change (zlen [13]) with 1 in H1.
    replace (zlen b + 9 + (2 + (zlen w + 1)) - 1) with (zlen file - 9) in H1 by lia.
    rewrite H1; [|by rewrite Hf, <-!app_assoc|lia| |lia].
    2: { apply Forall_app. split; [by repeat constructor|]. apply Forall_app. split; [done|by apply Forall_singleton]. }
    pose proof (search_match b (str_eol ++ w ++ str_end) (zlen file - 9) 8 Hf Hb ltac:(lia) ltac:(lia)) as H2.
    change (Z.of_nat 8) with 8 in H2. replace (zlen b + 9 - 1) with (zlen b + 8) by lia. rewrite H2.
    by apply (search_whole a (10 :: w ++ str_end)); [rewrite Hf|fold b; lia]. }
  change (zlen str_startxref - 1) with 8. by rewrite E.
Qed.
End startxref.

Lemma filesize_text n : 0 <= n < 2 ^ 31 →
  let w := WriteFilesize n in
  numeric_text w ∧ FXSYS_atoi64 w = n ∧ Forall (λ c, c ≠ 102) w.
Proof.
  intros Hn. unfold WriteFilesize. replace (n <? 0) with false by lia.
  destruct (dec_digits_spec 20 n) as (Hd & Hv & Hne); [lia|done|]. destruct (numeric_dec 20 n) as [N1 N2].
  cbv zeta. split; [split; [exact Hne|split; [exact N1|unfold zlen; lia]]|split].
  - unfold FXSYS_atoi64. destruct (dec_digits 20 n) as [|c w]; [done|]. pose proof (List.Forall_inv Hd) as Hc. cbv beta in Hc.
    unfold str_sign. destruct (digit_facts c Hc) as (_ & _ & _ & _ & -> & ->). cbn [orb].
    rewrite str_digits_spec by (done || (unfold INT64_MAX; lia)). rewrite Hv.
    by replace (n <=? INT64_MAX) with true by (unfold INT64_MAX; lia).
  - eapply Forall_impl; [exact Hd|]. intros c. cbv beta. lia.
Qed.

Lemma lex_filesize n r : 0 <= n < 2 ^ 31 → boundary r → lex (str_eol ++ WriteFilesize n ++ r) = (WriteFilesize n, true, r).
Proof.
  intros Hn Hr. destruct (filesize_text n Hn) as (Hw & _ & _). rewrite lex_blanks by (by repeat constructor). by apply lex_number.
Qed.

Lemma ParseStartXRef_found file p a n :
  file = (a ++ [10]) ++ str_startxref ++ str_eol ++ WriteFilesize n ++ str_end → 0 <= n < 2 ^ 31 → n < zlen file →
  parser_ok p → ∃ s, ParseStartXRef file 0 p = (n, with_syntax s p) ∧ state_ok s.
Proof.
  intros Hf Hn Hlt Hp. destruct (filesize_text n Hn) as (Hw & Ev & Hne). unfold ParseStartXRef.
  unfold GetDocumentSize. rewrite Z.sub_0_r. change (m_FileLen file) with (zlen file).
  set (s0 := SetPos file (zlen file - 9) (m_pSyntax p)).
  assert (Hpos : m_Pos s0 = zlen file - 9) by (unfold s0, SetPos, m_FileLen; cbn; lia).
  rewrite (search_found file a (WriteFilesize n) s0 Hf Hne (proj2 (proj2 Hw)) Hpos). cbn [negb].
  assert (Hs1 : At file 0 (at_pos (zlen (a ++ [10])) s0) (str_startxref ++ str_eol ++ WriteFilesize n ++ str_end)).
  { pose proof (At_set file _ _ s0 Hf Hp) as H1. unfold SetPos in H1. rewrite Z.min_l in H1; [exact H1|].
    unfold m_FileLen. rewrite Hf, (zlen_app (a ++ [10])). set (t := _ ++ str_eol ++ _). pose proof (zlen_nonneg t). lia. }
  assert (L1 : lex (str_startxref ++ str_eol ++ WriteFilesize n ++ str_end) = (str_startxref, false, str_eol ++ WriteFilesize n ++ str_end))
    by (apply lex_word; [by repeat constructor|done|done|done]).
  destruct (word_at file 0 _ _ _ _ _ Hs1 L1) as (s2 & E2 & Hs2 & _). unfold GetKeyword. rewrite E2. cbn [snd].
  destruct (word_at file 0 s2 _ _ _ _ Hs2 (lex_filesize n str_end Hn eq_refl)) as (s3 & E3 & Hs3 & _). rewrite E3.
  cbn [negb orb]. assert (Hz : (zlen (WriteFilesize n) =? 0) = false).
  { apply Z.eqb_neq. destruct Hw as [Hw _]. destruct (WriteFilesize n); [done|rewrite zlen_cons; pose proof (zlen_nonneg l); lia]. }
  rewrite Hz, Ev. replace (zlen file <=? n) with false by lia. exists s3. split; [done|]. by eapply At_state_ok.
Qed.

(** ** The trailer *)
Section trailer.
Context (file : list Z) (hold : Z → option CPDF_Object) (d : nat).
Notation get := (get_object file 0 hold (S (length file))).
Notation loop := (dict_loop file 0 (get (S d) kLoose) kLoose).

(** One entry of a dictionary after white space. *)
Lemma dict_entry n m s sp key v o r :
  Near file 0 s (sp ++ 47 :: PDF_NameEncode key ++ v ++ r) → blanks sp → key ≠ [] → name_ok key → boundary (v ++ r) →
  (∀ s1, At file 0 s1 (v ++ r) → ∃ s2, get (S d) kLoose s1 = Some (Some o, s2) ∧ Near file 0 s2 r) →
  ∃ s2, loop (S n) m s = loop n (SetFor key o m) s2 ∧ Near file 0 s2 r.
Proof.
  intros Hs Hsp Hk [Hkb Hkl] Hb Hget. rewrite PDF_NameEncode_eq in *.
  assert (Hreg : regular (name_escape key)).
  { apply Forall_forall. intros c Hc. destruct (name_escape_no_hash key c Hc Hkb) as [H1 H2].
    unfold word_stop. by rewrite H1, H2. }
  assert (El : lex (sp ++ 47 :: name_escape key ++ v ++ r) = (47 :: name_escape key, false, v ++ r))
    by (rewrite lex_blanks by done; by apply lex_name).
  destruct (Near_word file 0 s _ _ _ _ Hs El) as (s1 & E1 & Hs1 & _).
  destruct (Hget s1 Hs1) as (s2 & E2 & Hs2). exists s2. split; [|done].
  assert (Ekey : PDF_NameDecode (47 :: name_escape key) = 47 :: key).
  { cbn [PDF_NameDecode]. rewrite name_decode_escape by done. by destruct (name_escape key) as [|? [|? ?]]. }
  cbn [dict_loop]. rewrite E1. rewrite !bool_decide_eq_false_2 by done. cbn [Z.eqb Pos.eqb negb]. rewrite Ekey.
  pose proof (zlen_nonneg key). assert (zlen key ≠ 0) by (destruct key; [done|rewrite zlen_cons in *; pose proof (zlen_nonneg key); lia]).
  rewrite zlen_cons. replace (1 + zlen key =? 0) with false by lia. cbn [andb]. rewrite E2. cbn [mbind option_bind].
  by replace (1 <? 1 + zlen key) with true by lia.
Qed.

Lemma dict_end n m s sp r :
  Near file 0 s (sp ++ 62 :: 62 :: r) → blanks sp →
  ∃ s2, loop (S n) m s = Some (Some m, s2) ∧ At file 0 s2 r.
Proof.
  intros Hs Hsp. assert (El : lex (sp ++ 62 :: 62 :: r) = ([62; 62], false, r)) by (rewrite lex_blanks by done; by apply lex_angle; auto).
  destruct (Near_word file 0 s _ _ _ _ Hs El) as (s1 & E1 & Hs1 & _). exists s1. split; [|done].
  cbn [dict_loop]. rewrite E1. by rewrite bool_decide_eq_true_2.
Qed.

Definition trailer_dict (root_num : Z) (info_num : option Z) (last : Z) (ids : list CPDF_Object) : dict :=
  let m := SetFor (bs "Root") (CPDF_Reference root_num) [] in
  let m := match info_num with Some n => SetFor (bs "Info") (CPDF_Reference n) m | None => m end in
  SetFor (bs "ID") (CPDF_Array ids) (SetFor (bs "Size") (CPDF_Number (FxUnsigned (last + 1))) m).

(** An entry that is a reference. *)
Lemma ref_entry n m s key k r :
  Near file 0 s (str_eol ++ 47 :: PDF_NameEncode key ++ (32 :: WriteDWord k ++ bs " 0 R") ++ r) →
  key ≠ [] → name_ok key → 0 <= k < 2 ^ 31 → boundary r →
  ∃ s2, loop (S n) m s = loop n (SetFor key (CPDF_Reference k) m) s2 ∧ Near file 0 s2 r.
Proof.
  intros Hs Hk Hn Hk2 Hr. rewrite WriteDWord_dec in Hs by done.
  assert (Ev : 32 :: FormatInteger k ++ bs " 0 R" = print_ref k).
  { unfold print_ref, FormatInteger. by replace (k <? 0) with false by lia. }
  rewrite Ev in Hs. eapply dict_entry; [exact Hs|by repeat constructor|done|done|done|].
  intros s1 Hs1. destruct (reads_ref file 0 hold (S (length file)) d kLoose k s1 r) as (s2 & E & Hs2);
    [unfold ref_ok, kInvalidObjNum; lia|done|by left|]. exists s2. split; [done|by left].
Qed.

Lemma names_trailer : name_ok (bs "Root") ∧ name_ok (bs "Info") ∧ name_ok (bs "Size") ∧ name_ok (bs "ID").
Proof. split_and!; (split; [cbn; solve_bytes|vm_compute; discriminate]). Qed.

Lemma trailer_loop n s root_num info_num last ids r :
  At file 0 s (new_entries root_num info_num ++ bs "/Size " ++ WriteDWord (last + 1) ++ bs "/ID" ++
               print (CPDF_Array ids) ++ bs ">>" ++ r) →
  0 <= root_num < 2 ^ 31 → match info_num with Some n => 0 <= n < 2 ^ 31 | None => True end → 0 <= last < 2 ^ 31 - 1 →
  obj_ok (S d) (CPDF_Array ids) → (5 <= n)%nat →
  ∃ s2, loop n [] s = Some (Some (trailer_dict root_num info_num last (map as_read ids)), s2) ∧ At file 0 s2 r.
Proof.
  intros Hs Hroot Hinfo Hlast Hids Hn. destruct names_trailer as (N1 & N2 & N3 & N4).
  destruct n as [|[|[|[|[|n]]]]]; try lia.
  set (r4 := bs ">>" ++ r) in *. set (r3 := bs "/ID" ++ print (CPDF_Array ids) ++ r4) in *.
  set (r2 := str_eol ++ bs "/Size " ++ WriteDWord (last + 1) ++ r3).
  (* the entries before Size *)
  assert (H2 : ∃ k m s2, (3 <= k)%nat ∧ loop (S (S (S (S (S n))))) [] s = loop k m s2 ∧ Near file 0 s2 r2 ∧
    m = match info_num with Some n => SetFor (bs "Info") (CPDF_Reference n) | None => id end
          (SetFor (bs "Root") (CPDF_Reference root_num) [])).
  { unfold new_entries in Hs. destruct info_num as [i|].
    - set (r1 := str_eol ++ 47 :: PDF_NameEncode (bs "Info") ++ (32 :: WriteDWord i ++ bs " 0 R") ++ r2).
      destruct (ref_entry (S (S (S (S n)))) [] s (bs "Root") root_num r1) as (s1 & E1 & Hs1); [left|done..|].
      { unfold r1, r2. change (PDF_NameEncode (bs "Root")) with (bs "Root"). change (PDF_NameEncode (bs "Info")) with (bs "Info").
        rewrite <-!app_assoc in Hs. cbn [app] in Hs |- *. rewrite <-!app_assoc. exact Hs. }
      destruct (ref_entry (S (S (S n))) (SetFor (bs "Root") (CPDF_Reference root_num) []) s1 (bs "Info") i r2) as (s2 & E2 & Hs2); [exact Hs1|done..|].
      eexists _, _, s2. split; [|split; [rewrite E1, E2; reflexivity|by split]]. lia.
    - destruct (ref_entry (S (S (S (S n)))) [] s (bs "Root") root_num r2) as (s1 & E1 & Hs1); [left|done..|].
      { unfold r2. change (PDF_NameEncode (bs "Root")) with (bs "Root"). rewrite app_nil_r in Hs.
        rewrite <-!app_assoc in Hs. cbn [app] in Hs |- *. rewrite <-!app_assoc. exact Hs. }
      eexists _, _, s1. split; [|split; [rewrite E1; reflexivity|by split]]. lia. }
  destruct H2 as (k & m & s2 & Hk & -> & Hs2 & Em). destruct k as [|[|[|k]]]; try lia.
  (* Size *)
  assert (Esz : WriteDWord (last + 1) = NumberGetString (FxSigned (last + 1))) by (rewrite WriteDWord_dec by lia; done).
  destruct (dict_entry (S (S k)) m s2 str_eol (bs "Size") (32 :: WriteDWord (last + 1)) (CPDF_Number (FxUnsigned (last + 1))) r3)
    as (s3 & E3 & Hs3); [|by repeat constructor|done|done|done| |].
  { unfold r2 in Hs2. change (PDF_NameEncode (bs "Size")) with (bs "Size"). cbn [app] in *. exact Hs2. }
  { intros s1 Hs1. rewrite Esz in Hs1.
    destruct (reads_number file 0 hold (S (length file)) d kLoose (FxSigned (last + 1)) s1 r3 (safe_slash _) (or_introl Hs1)) as (s4 & E4 & Hs4).
    exists s4. split; [|done]. rewrite E4. change (NumberGetString (FxSigned (last + 1))) with (FormatInteger (last + 1)).
    rewrite FX_Number_Format by (unfold INT_MIN, UINT_MAX; lia). by replace (last + 1 <? 0) with false by lia. }
  rewrite E3.
  (* ID *)
  destruct (dict_entry (S k) (SetFor (bs "Size") (CPDF_Number (FxUnsigned (last + 1))) m) s3 [] (bs "ID") (print (CPDF_Array ids))
    (CPDF_Array (map as_read ids)) r4) as (s4 & E4 & Hs4); [exact Hs3|constructor|done|done|done| |].
  { intros s1 Hs1. apply (reads_all file 0 hold (S d) (CPDF_Array ids) kLoose Hids s1 r4); [apply safe_dict_end|by left]. }
  rewrite E4. destruct (dict_end k (SetFor (bs "ID") (CPDF_Array (map as_read ids)) (SetFor (bs "Size") (CPDF_Number (FxUnsigned (last + 1))) m)) s4 [] r Hs4) as (s5 & E5 & Hs5); [constructor|].
  exists s5. split; [|done]. rewrite E5. unfold trailer_dict. rewrite Em. by destruct info_num.
Qed.
End trailer.

Lemma get_trailer file hold d s sp root_num info_num last ids r :
  At file 0 s (sp ++ bs "<<" ++ new_entries root_num info_num ++ bs "/Size " ++ WriteDWord (last + 1) ++ bs "/ID" ++
               print (CPDF_Array ids) ++ bs ">>" ++ str_eol ++ str_startxref ++ str_eol ++ r) → blanks sp →
  0 <= root_num < 2 ^ 31 → match info_num with Some n => 0 <= n < 2 ^ 31 | None => True end → 0 <= last < 2 ^ 31 - 1 →
  obj_ok (S d) (CPDF_Array ids) →
  ∃ s', get_object file 0 hold (S (length file)) (S (S d)) kLoose s =
    Some (Some (CPDF_Dictionary (trailer_dict root_num info_num last (map as_read ids))), s') ∧ state_ok s'.
Proof.
  intros Hs Hsp Hroot Hinfo Hlast Hids.
  set (tl := new_entries root_num info_num ++ bs "/Size " ++ WriteDWord (last + 1) ++ bs "/ID" ++
             print (CPDF_Array ids) ++ bs ">>" ++ str_eol ++ str_startxref ++ str_eol ++ r) in *.
  assert (El : lex (sp ++ bs "<<" ++ tl) = ([60; 60], false, tl)) by (rewrite lex_blanks by done; by apply lex_angle; auto).
  destruct (word_at file 0 s _ _ _ _ Hs El) as (s1 & E1 & Hs1 & _).
  assert (Hlen : (5 <= S (length file))%nat).
  { apply At_length in Hs. rewrite !length_app in Hs. cbn [length app bs] in Hs.
    assert (Hr : (9 <= length str_startxref)%nat) by (cbn; lia).
    assert (Htl : (length str_startxref <= length tl)%nat) by (unfold tl; rewrite !length_app; lia). lia. }
  destruct (trailer_loop file hold d (S (length file)) s1 root_num info_num last ids (str_eol ++ str_startxref ++ str_eol ++ r) Hs1 Hroot Hinfo Hlast Hids Hlen)
    as (s2 & E2 & Hs2).
  assert (El3 : lex (str_eol ++ str_startxref ++ str_eol ++ r) = (str_startxref, false, str_eol ++ r)).
  { rewrite lex_blanks by (by repeat constructor). apply lex_word; [by repeat constructor|done|done|done]. }
  destruct (word_at file 0 s2 _ _ _ _ Hs2 El3) as (s3 & E3 & Hs3 & _).
  exists (at_pos (m_Pos s2) s3). split; [|exact (At_state_ok _ _ _ _ Hs3)].
  generalize dependent (S d). intros d1 _ E2. cbn [get_object]. rewrite E1. rewrite !bool_decide_eq_false_2 by done.
  cbn [orb Z.eqb Pos.eqb]. rewrite bool_decide_eq_true_2 by done. rewrite E2. cbn [mbind option_bind app]. rewrite E3.
  by rewrite bool_decide_eq_false_2.
Qed.

Lemma ids_ok d new_id :
  bytes new_id → obj_ok (S (S d)) (CPDF_Array [CPDF_String new_id true; CPDF_String new_id true]).
Proof. intros H. split; [done|]. apply List.Forall_cons; [exact H|apply List.Forall_cons; [exact H|constructor]]. Qed.

Lemma depth_eq : ∃ d, kParserMaxRecursionDepth = S (S (S d)).
Proof. by exists 61%nat. Qed.

Lemma LoadTrailerV4_found `{Inflate} file p sp root_num info_num last xref_start new_id :
  let ids := [CPDF_String new_id true; CPDF_String new_id true] in
  At file 0 (m_pSyntax p) (sp ++ trailer_text root_num info_num last xref_start ids) → blanks sp →
  0 <= root_num < 2 ^ 31 → match info_num with Some n => 0 <= n < 2 ^ 31 | None => True end → 0 <= last < 2 ^ 31 - 1 →
  bytes new_id →
  ∃ s, LoadTrailerV4 file 0 p = (Some (trailer_dict root_num info_num last ids), with_syntax s p) ∧ state_ok s.
Proof.
  intros ids Hs Hsp Hroot Hinfo Hlast Hid. unfold trailer_text in Hs.
  set (tl := str_eol ++ bs "<<" ++ _) in Hs.
  assert (El : lex (sp ++ bs "trailer" ++ tl) = (str_trailer, false, tl)).
  { rewrite lex_blanks by done. apply (lex_word (bs "trailer")); [by repeat constructor|done|done|done]. }
  destruct (word_at file 0 (m_pSyntax p) _ _ _ _ Hs El) as (s1 & E1 & Hs1 & _).
  destruct depth_eq as [d Ed].
  destruct (get_trailer file (holder_in file 0 p) (S d) s1 str_eol root_num info_num last ids (WriteFilesize xref_start ++ str_end) Hs1)
    as (s2 & E2 & Hs2); [by repeat constructor|done..|by apply ids_ok|].
  exists s2. split; [|done]. unfold LoadTrailerV4, GetKeyword. rewrite E1. rewrite bool_decide_eq_true_2 by done. cbn [negb].
  unfold object_body, GetObjectBody, GetObjectBodyInternal. rewrite Ed. rewrite E2. done.
Qed.

(** ** The table *)
Lemma merge_sorted l : ∀ t, sorted (objects_info_ t) → sorted (objects_info_ (MergeCrossRefObjectsData l t)).
Proof.
  unfold MergeCrossRefObjectsData. induction l as [|o l IH]; intros t Ht; [done|]. cbn [fold_left]. apply IH.
  destruct (sorted_ops (objects_info_ t) Ht) as (H1 & H2 & H3 & _). unfold merge_object.
  destruct (type (obj_info o)); cbn [AddNormal AddCompressed objects_info_ with_objects]; try done.
  destruct (0 <? _); [apply H3|done].
Qed.

Lemma first_nonzero_find m n q :
  sorted m → first_nonzero m = Some (n, q) → ∃ info, find n m = Some info ∧ pos info = q ∧ q ≠ 0.
Proof.
  induction m as [|[k i] m IH]; intros Hs E; [done|]. cbn [first_nonzero] in E.
  destruct (proj1 (sorted_inv _ _ _) Hs) as [Hm Hab]. cbn [find]. destruct (Z.eqb_spec (pos i) 0) as [Ez|Ez].
  - destruct (IH Hm E) as (info & Ei & Hi). exists info. split; [|done].
    destruct (Z.eqb_spec k n) as [->|]; [|done]. by rewrite (find_below n m Hab) in Ei.
  - injection E as <- <-. exists i. by rewrite Z.eqb_refl.
Qed.

(** Where the table points to an object there is its number. *)
Definition points_to (file : list Z) (n q : Z) : Prop :=
  ∃ a r, file = a ++ WriteDWord n ++ 32 :: r ∧ q = zlen a ∧ 0 <= n < 2 ^ 31.

Lemma VerifyCrossRefV4_found file p :
  parser_ok p → sorted (objects_info_ (m_CrossRefTable p)) →
  (∀ n info, GetObjectInfo (m_CrossRefTable p) n = Some info → pos info ≠ 0 → points_to file n (pos info)) →
  ∃ s, VerifyCrossRefV4 file 0 p = (true, with_syntax s p) ∧ state_ok s.
Proof.
  intros Hp Hs Hpt. unfold VerifyCrossRefV4. destruct (first_nonzero _) as [[n q]|] eqn:E.
  2: { exists (m_pSyntax p). split; [by destruct p|done]. }
  destruct (first_nonzero_find _ n q Hs E) as (info & Ei & <- & Hne).
  destruct (Hpt n info Ei Hne) as (a & r & Hf & -> & Hn). rewrite WriteDWord_dec in Hf by done.
  pose proof (At_set file a _ (m_pSyntax p) Hf Hp) as Hat. destruct (numeric_Format n) as (N1 & N2 & N3).
  assert (El : lex (FormatInteger n ++ 32 :: r) = (FormatInteger n, true, 32 :: r))
    by (apply lex_number; [split; [exact N1|split; [exact N2|unfold zlen; lia]]|done]).
  destruct (word_at file 0 _ _ _ _ _ Hat El) as (s1 & E1 & Hs1 & _). rewrite E1. cbn [andb].
  exists (SetPos file (m_Pos (m_pSyntax p)) s1). split; [|exact (At_state_ok _ _ _ _ Hs1)].
  rewrite atoui_Format, Z.eqb_refl by (unfold UINT_MAX; lia).
  assert (Hz : (zlen (FormatInteger n) =? 0) = false) by (apply Z.eqb_neq; unfold zlen; destruct (FormatInteger n); [done|cbn; lia]).
  by rewrite Hz.
Qed.

Section table.
Context `{Inflate} (file pre : list Z) (offs : std_map Z) (last : Z) (root_num : Z) (info_num : option Z) (new_id : list Z).
Let ids := [CPDF_String new_id true; CPDF_String new_id true].
Let tail := trailer_text root_num info_num last (zlen pre) ids.
Hypothesis Hfile : file = pre ++ WriteXrefsNotIncremental offs last ++ tail.
Hypothesis Hlast : 0 <= last < kMaxXRefSize - 1.
Hypothesis Hroot : 0 <= root_num < 2 ^ 31.
Hypothesis Hinfo : match info_num with Some n => 0 <= n < 2 ^ 31 | None => True end.
Hypothesis Hid : bytes new_id.
Hypothesis Hoffs : ∀ n o, find n offs = Some o → 0 < o < 2 ^ 31 ∧ points_to file n o.

Lemma LoadCrossRefV4_found skip p :
  parser_ok p → ∃ s sp,
    DocLoad.LoadCrossRefV4 file 0 (zlen pre) skip p =
      (true, with_syntax s (with_table (if skip then m_CrossRefTable p
         else MergeCrossRefObjectsData (flat_map section_objs (written_sections offs last)) (m_CrossRefTable p)) p)) ∧
    At file 0 s (sp ++ tail) ∧ blanks sp.
Proof.
  intros Hp. pose proof (At_set file pre _ (m_pSyntax p) Hfile Hp) as Hat.
  destruct (written_parse file 0 ltac:(lia) offs last (SetPos file (zlen pre) (m_pSyntax p)) tail skip Hlast) as (s & sp & E & Hs & Hsp).
  - intros n o _ Ho. destruct (Hoffs n o Ho). lia.
  - unfold SetPos, m_FileLen. cbn. pose proof (zlen_nonneg pre). pose proof (zlen_nonneg file). lia.
  - exact Hat.
  - assert (El : lex tail = (str_trailer, false, drop 7 tail)).
    { unfold tail, trailer_text. apply (lex_word (bs "trailer")); [by repeat constructor|done|done|done]. }
    unfold is_word. rewrite El. done.
  - exists s, sp. split; [|done]. unfold DocLoad.LoadCrossRefV4, XRef.LoadCrossRefV4. rewrite E.
    cbn [mbind option_bind]. by destruct skip.
Qed.

Lemma trailer_entries :
  let td := trailer_dict root_num info_num last ids in
  GetDirectInteger td (bs "Size") = last + 1 ∧ GetDirectInteger td (bs "Prev") = 0 ∧ GetDirectInteger td (bs "XRefStm") = 0 ∧
  GetObjectFor (bs "Root") td = Some (CPDF_Reference root_num) ∧ GetObjectFor (bs "Encrypt") td = None.
Proof using Hlast.
  clear -Hlast. assert (Es : GetSigned (FxUnsigned (last + 1)) = last + 1) by (apply s32_of_u32; unfold kMaxXRefSize in Hlast; lia).
  cbv zeta. unfold GetDirectInteger, trailer_dict. destruct info_num; split_and!; first [exact Es|reflexivity].
Qed.

(** What is in the table. *)
Definition table_ok (t : CPDF_CrossRefTable) : Prop :=
  trailer_ t = Some (trailer_dict root_num info_num last ids) ∧ sorted (objects_info_ t) ∧
  ∀ n, GetObjectInfo t n =
    match loaded offs last n with Some q => Some (in_use q) | None => if n =? last then Some ObjectInfo_new else None end.

Lemma LoadAllCrossRefV4_found p :
  parser_ok p → m_CrossRefTable p = table_new →
  ∃ s t, LoadAllCrossRefV4 file 0 (zlen pre) p = Some (true, with_syntax s (with_table t p)) ∧ state_ok s ∧ table_ok t.
Proof.
  intros Hp Ht. unfold LoadAllCrossRefV4. unfold kMaxXRefSize in Hlast.
  destruct (LoadCrossRefV4_found true p Hp) as (s1 & sp1 & -> & Hs1 & Hsp1). cbn [negb].
  set (p1 := with_syntax s1 _). destruct (LoadTrailerV4_found file p1 sp1 root_num info_num last (zlen pre) new_id) as (s2 & E2 & Hs2);
    [exact Hs1|done|done|done|lia|done|]. fold ids in E2. rewrite E2. set (td := trailer_dict _ _ _ ids).
  destruct trailer_entries as (T1 & T2 & T3 & _ & _). fold td in T1, T2, T3. rewrite T1, T2, T3.
  replace ((0 <? last + 1) && (last + 1 <=? kMaxXRefSize)) with true by (unfold kMaxXRefSize; lia).
  set (p2 := with_table (ShrinkObjectMap _ _) _).
  assert (Et2 : m_CrossRefTable p2 = CrossRefTable (Some td) [(last, ObjectInfo_new)]).
  { unfold p2, p1. cbn [m_CrossRefTable with_table with_syntax]. rewrite Ht. unfold ShrinkObjectMap, shrink.
    cbn [objects_info_ SetTrailer table_new with_objects trailer_]. replace (last + 1 =? 0) with false by lia.
    cbn [erase_from find]. by replace (last + 1 - 1) with last by lia. }
  unfold chain_fuel. cbn [prev_loop Z.eqb mbind option_bind zip zip_with].
  assert (Hp2 : parser_ok p2) by exact Hs2.
  cbn [load_tables]. destruct (LoadCrossRefV4_found false p2 Hp2) as (s3 & sp3 & -> & Hs3 & _). cbn [negb Z.eqb].
  set (t := MergeCrossRefObjectsData _ _). set (p3 := with_syntax s3 (with_table t p2)).
  assert (Htab : table_ok t).
  { assert (Hpl : plain (m_CrossRefTable p2)).
    { rewrite Et2. intros n i. cbn. destruct (last =? n); [|done]. intros [= <-]. split; [done|by right]. }
    assert (Hw : ∀ n, trailer_ t = trailer_ (m_CrossRefTable p2) ∧
      GetObjectInfo t n = match loaded offs last n with Some p => Some (in_use p) | None => GetObjectInfo (m_CrossRefTable p2) n end).
    { intros n. destruct (written_table offs last (m_CrossRefTable p2) n) as (_ & H1 & H2); [done| |done|by split].
      intros k o _ Ho. destruct (Hoffs k o Ho). lia. }
    split_and!.
    - destruct (Hw 0) as [-> _]. by rewrite Et2.
    - apply merge_sorted. rewrite Et2. repeat constructor.
    - intros n. destruct (Hw n) as [_ ->]. rewrite Et2. unfold GetObjectInfo. cbn [objects_info_ find].
      by rewrite (Z.eqb_sym n last). }
  destruct (VerifyCrossRefV4_found file p3) as (s4 & E4 & Hs4).
  - exact (At_state_ok _ _ _ _ Hs3).
  - apply Htab.
  - intros n info Ei Hne. destruct Htab as (_ & _ & Htab). change (GetObjectInfo t n = Some info) in Ei. rewrite Htab in Ei.
    unfold loaded in Ei. destruct ((1 <=? n) && (n <=? last)).
    + destruct (find n offs) as [q|] eqn:Eq; [injection Ei as <-; cbn; by apply Hoffs|]. destruct (n =? last); [|done].
      by injection Ei as <-.
    + destruct (n =? last); [|done]. by injection Ei as <-.
  - rewrite E4. cbn [negb]. exists s4, t. split_and!; [done|done|exact Htab].
Qed.
End table.

(** ** The whole document

    [doc] is written with the header [header] and the objects [body]. *)
Section document.
Context `{Inflate} (compress : list Z → list Z) (file0 : list Z) (hdr0 : Z) (doc : CPDF_Parser).
Context (header body : list Z) (offs : std_map Z) (root_num : Z) (info_num : option Z) (new_id : list Z).
Let last := m_LastObjNum doc.
Let ids := [CPDF_String new_id true; CPDF_String new_id true].
Let pre := header ++ body.
Let file := pre ++ WriteXrefsNotIncremental offs last ++ trailer_text root_num info_num last (zlen pre) ids.
Notation stored := (stored (holder_in file0 hdr0 doc) compress).
Hypothesis Hdoc : new_doc doc.
Hypothesis Hheader : 9 <= zlen header.
Hypothesis Hplaced : ∀ n, match GetIndirectObject n doc with
  | Some o => ∃ off, find n offs = Some (zlen header + off) ∧ placed compress file0 hdr0 doc body n o off
  | None => find n offs = None
  end.
Hypothesis Hsmall : zlen file < 2 ^ 31.
Hypothesis Hinfo : match info_num with Some n => is_Some (GetIndirectObject n doc) | None => True end.
Hypothesis Hid : bytes new_id.
Context (root_dict : dict).
Hypothesis Hroot : GetIndirectObject root_num doc = Some (CPDF_Dictionary root_dict).

Lemma number_small n o : GetIndirectObject n doc = Some o → 1 <= n <= last ∧ last < kMaxXRefSize - 1.
Proof. intros Ho. destruct (nd_objs doc Hdoc n o Ho) as [Hn _]. destruct (nd_last doc Hdoc). by split. Qed.

(** The text of an object in the file. *)
Lemma offset_found n q :
  find n offs = Some q → ∃ o a b, GetIndirectObject n doc = Some o ∧
    file = a ++ object_text compress file0 hdr0 doc n o ++ b ∧ q = zlen a ∧ 0 < q < 2 ^ 31.
Proof.
  intros Hq. pose proof (Hplaced n) as Hn. destruct (GetIndirectObject n doc) as [o|]; [|congruence].
  destruct Hn as (off & E & a & b & Eb & ->). assert (q = zlen header + zlen a) as -> by congruence.
  set (X := WriteXrefsNotIncremental offs last ++ trailer_text root_num info_num last (zlen pre) ids).
  assert (Ef : file = (header ++ a) ++ object_text compress file0 hdr0 doc n o ++ b ++ X).
  { unfold file. fold X. unfold pre. rewrite Eb. by rewrite <-!app_assoc. }
  exists o, (header ++ a), (b ++ X). pose proof (zlen_nonneg a). split_and!; [done|exact Ef|by rewrite zlen_app|lia|].
  pose proof Hsmall as Hs. rewrite Ef, !zlen_app in Hs.
  pose proof (zlen_nonneg (object_text compress file0 hdr0 doc n o)). pose proof (zlen_nonneg b). pose proof (zlen_nonneg X). lia.
Qed.

Lemma offsets_point n q : find n offs = Some q → 0 < q < 2 ^ 31 ∧ points_to file n q.
Proof.
  intros Hq. destruct (offset_found n q Hq) as (o & a & b & Ho & Ef & -> & Hr). split; [done|].
  destruct (number_small n o Ho).
  exists a, (bs "0 obj" ++ str_eol ++ stored_text (holder_in file0 hdr0 doc) compress o ++ str_eol ++ bs "endobj" ++ str_eol ++ b).
  split_and!; [|done|lia|unfold kMaxXRefSize in *; lia]. rewrite Ef. unfold object_text. by rewrite <-!app_assoc.
Qed.

Lemma loaded_iff n : loaded offs last n = find n offs.
Proof.
  unfold loaded. destruct ((1 <=? n) && (n <=? last)) eqn:E; [done|]. pose proof (Hplaced n) as Hn.
  destruct (GetIndirectObject n doc) as [o|] eqn:Ho; [|done]. destruct (number_small n o Ho). lia.
Qed.

(** A parser that has loaded the table. *)
Record ready (p : CPDF_Parser) : Prop := {
  rd_ok : parser_ok p;
  rd_table : table_ok offs last root_num info_num new_id (m_CrossRefTable p);
  rd_security : m_pSecurityHandler p = None;
  rd_parsing : m_ParsingObjNums p = [];
}.
(** What it finds under a number. *)
Definition original (n : Z) : option CPDF_Object := stored <$> GetIndirectObject n doc.

(** All that it keeps are objects of [doc]. *)
Record opened (p : CPDF_Parser) : Prop := {
  op_ready : ready p;
  op_sorted : sorted (m_IndirectObjs p);
  op_objs n c : find n (m_IndirectObjs p) = Some c → c = original n;
}.

Lemma parse_found get n o p :
  parser_ok p → table_ok offs last root_num info_num new_id (m_CrossRefTable p) → m_pSecurityHandler p = None → m_ParsingObjNums p = [] →
  GetIndirectObject n doc = Some o →
  ∃ s, ParseIndirectObject file 0 get n p = (Some (stored o), with_syntax s p) ∧ state_ok s.
Proof.
  intros Hp (_ & Hsorted & Htab) Hsec Hpar Ho. pose proof (Hplaced n) as Hn. rewrite Ho in Hn.
  destruct Hn as (off & Eq & _). destruct (offset_found n _ Eq) as (o' & a & b & Ho' & Ef & Eoff & Hr). rewrite Ho in Ho'. injection Ho' as <-.
  destruct (number_small n o Ho) as [Hn1 Hn2]. unfold kMaxXRefSize in Hn2.
  pose proof (Htab n) as Hi. rewrite loaded_iff, Eq in Hi.
  assert (Hvalid : IsValidObjectNumber p n = true).
  { unfold IsValidObjectNumber, GetLastObjNum. pose proof (last_key_spec _ Hsorted) as Hk.
    destruct (last_key _) as [k|]; [|by unfold GetObjectInfo in Hi; rewrite Hk in Hi].
    destruct Hk as [_ Hk]. apply Z.leb_le, Hk. by eexists. }
  unfold ParseIndirectObject. rewrite Hvalid. cbn [negb]. rewrite decide_False by (rewrite Hpar; apply not_elem_of_nil).
  unfold while_parsing. set (p1 := with_parsing _ p). change (m_CrossRefTable p1) with (m_CrossRefTable p). rewrite Hi. cbn [type in_use].
  unfold GetObjectPositionOrZero. change (m_CrossRefTable p1) with (m_CrossRefTable p). rewrite Hi, decide_True by done.
  cbn [pos in_use]. replace (zlen header + off <=? 0) with false by lia.
  unfold ParseIndirectObjectAt. set (s0 := SetPos file _ _).
  assert (Hs0 : At file 0 s0 (object_text compress file0 hdr0 doc n o ++ b)).
  { unfold s0. rewrite Eoff. by apply At_set. }
  destruct (object_at file (holder_in file0 hdr0 doc) (λ k, get k p1) compress n o s0 b) as (s1 & E1).
  - lia.
  - by apply (nd_objs doc Hdoc n).
  - destruct o as [| | | | | | | |m data|]; try done. cbn [data_small].
    pose proof Hsmall as Hs. rewrite Ef in Hs. unfold object_text in Hs. cbn [stored_text] in Hs.
    destruct (stored_parts _ _ m data) as [m' data']. cbn [snd]. rewrite !zlen_app in Hs. cbn [print] in Hs. rewrite !zlen_app in Hs.
    repeat match type of Hs with context [zlen ?l] => lazymatch goal with H : 0 <= zlen l |- _ => fail | _ => pose proof (zlen_nonneg l) end end. lia.
  - unfold s0, SetPos. cbn. pose proof (zlen_nonneg a). unfold m_FileLen. pose proof (zlen_nonneg file). lia.
  - unfold object_text in Hs0. rewrite <-!app_assoc in Hs0. exact Hs0.
  - assert (Hok : state_ok s1).
    { pose proof (indirect_object_ok file 0 ltac:(lia) (λ k, get k p1) kLoose s0 (At_state_ok _ _ _ _ Hs0)) as Hok.
      unfold indirect_object in Hok. rewrite E1 in Hok. by destruct Hok. }
    unfold indirect_object. rewrite E1. cbn [default from_option id].
    rewrite Z.eqb_refl, andb_false_r. cbn [m_pSecurityHandler with_syntax]. change (m_pSecurityHandler p1) with (m_pSecurityHandler p). rewrite Hsec.
    cbn [mbind option_bind fmap option_fmap option_map snd]. exists (SetPos file (m_Pos (m_pSyntax p1)) s1). split; [by destruct p|exact Hok].
Qed.

Lemma parse_missing get n p :
  table_ok offs last root_num info_num new_id (m_CrossRefTable p) → m_ParsingObjNums p = [] →
  GetIndirectObject n doc = None → ParseIndirectObject file 0 get n p = (None, p).
Proof.
  intros (_ & _ & Htab) Hpar Hn. pose proof (Hplaced n) as Hq. rewrite Hn in Hq.
  pose proof (Htab n) as Hi. rewrite loaded_iff, Hq in Hi.
  unfold ParseIndirectObject. destruct (negb _); [done|]. rewrite decide_False by (rewrite Hpar; apply not_elem_of_nil).
  unfold while_parsing. set (p1 := with_parsing _ p). change (m_CrossRefTable p1) with (m_CrossRefTable p).
  rewrite Hi. unfold p1. destruct (n =? last); cbn [type ObjectInfo_new]; by destruct p.
Qed.

(** A look-up gives what is kept, or else the object of [doc]. *)
Lemma get_ready n p :
  ready p → sorted (m_IndirectObjs p) →
  ∃ p', GetOrParseIndirectObject file 0 n p =
      (if (n =? 0) || (n =? kInvalidObjNum) then None else match find n (m_IndirectObjs p) with Some c => c | None => original n end, p') ∧
    ready p' ∧ m_Document p' = m_Document p ∧ m_bXRefTableRebuilt p' = m_bXRefTableRebuilt p ∧ m_FileVersion p' = m_FileVersion p ∧
    match find n (m_IndirectObjs p), original n with
    | None, Some o => m_LastObjNum p' = Z.max (m_LastObjNum p) n ∧ m_IndirectObjs p' = put n (Some o) (m_IndirectObjs p)
    | _, _ => m_LastObjNum p' = m_LastObjNum p ∧ m_IndirectObjs p' = m_IndirectObjs p
    end.
Proof.
  intros Hr Hsort. pose proof Hr as [Hok Htab Hsec Hpar]. unfold GetOrParseIndirectObject, depth_for.
  generalize (S (length (objects_info_ (m_CrossRefTable p)))) as depth; intros depth. cbn [get_or_parse].
  assert (Hedge : (n =? 0) || (n =? kInvalidObjNum) = true → original n = None).
  { intros E. unfold original. destruct (GetIndirectObject n doc) as [o|] eqn:Ho; [|done]. destruct (number_small n o Ho).
    unfold kInvalidObjNum, kMaxXRefSize in *. lia. }
  destruct (_ || _); [exists p; rewrite Hedge by done; by destruct (find n _)|].
  destruct (find n (m_IndirectObjs p)) as [c|] eqn:Ec; [by exists p|].
  set (p1 := with_holder (put n None (m_IndirectObjs p)) (m_LastObjNum p) p). set (get := λ n p, (get_or_parse file 0 depth n p).1).
  unfold original. destruct (GetIndirectObject n doc) as [o|] eqn:Ho; cbn [fmap option_fmap option_map].
  - destruct (parse_found get n o p1 Hok Htab Hsec Hpar Ho) as (s & -> & Hs). eexists. split; [reflexivity|].
    split_and!; try done. cbn [m_IndirectObjs with_holder with_syntax p1].
    apply sorted_eq; [by do 2 apply sorted_put|by apply sorted_put|]. intros k. rewrite !find_put. by destruct (n =? k).
  - rewrite (parse_missing get n p1 Htab Hpar Ho). eexists. split; [reflexivity|]. split_and!; try done.
    cbn [m_IndirectObjs with_holder p1]. apply sorted_eq; [by apply sorted_erase_key, sorted_put|done|]. intros k.
    rewrite find_erase_key, find_put by (by apply sorted_put). by destruct (Z.eqb_spec n k) as [->|].
Qed.

(** Every look-up, in any order, gives the object of [doc]. *)
Lemma get_opened n p :
  opened p → ∃ p', GetOrParseIndirectObject file 0 n p = (original n, p') ∧ opened p' ∧
    m_Document p' = m_Document p ∧ m_bXRefTableRebuilt p' = m_bXRefTableRebuilt p ∧ m_FileVersion p' = m_FileVersion p.
Proof.
  intros [Hr Hsort Hobjs]. destruct (get_ready n p Hr Hsort) as (p' & -> & Hr' & Hd & Hb & Hv & Hm). exists p'.
  assert (Ho : match find n (m_IndirectObjs p) with Some c => c | None => original n end = original n).
  { destruct (find n (m_IndirectObjs p)) as [c|] eqn:Ec; [by apply Hobjs|done]. }
  rewrite Ho. split_and!; try done.
  - f_equal. destruct (_ || _) eqn:E; [|done]. unfold original. destruct (GetIndirectObject n doc) as [o|] eqn:En; [|done].
    destruct (number_small n o En). unfold kInvalidObjNum, kMaxXRefSize in *. lia.
  - assert (Hm' : m_IndirectObjs p' = m_IndirectObjs p ∨ ∃ o, original n = Some o ∧ m_IndirectObjs p' = put n (Some o) (m_IndirectObjs p)).
    { destruct (find n (m_IndirectObjs p)), (original n); destruct Hm as [_ ->]; eauto. }
    constructor; [done|..].
    + destruct Hm' as [->|(o & _ & ->)]; [done|by apply sorted_put].
    + intros k c. destruct Hm' as [->|(o & En & ->)]; [apply Hobjs|]. rewrite find_put. destruct (Z.eqb_spec n k) as [<-|]; [|apply Hobjs].
      by intros [= <-].
Qed.

Lemma SetEncryptHandler_none password p :
  ready p → SetEncryptHandler file 0 password p = Some (SUCCESS, p).
Proof.
  intros [Hok (Ht & _) Hsec Hpar]. unfold SetEncryptHandler.
  assert (Ep : with_security None p = p) by (rewrite <-Hsec; by destruct p). rewrite Ep.
  unfold GetEncryptDict, GetTrailer. rewrite Ht. cbn [mbind option_bind].
  destruct (trailer_entries last root_num info_num new_id) as (_ & _ & _ & _ & ->); [by apply nd_last|done].
Qed.

Lemma root_number p : ready p → GetRootObjNum p = root_num.
Proof.
  intros [_ (Ht & _) _ _]. unfold GetRootObjNum, GetTrailer. rewrite Ht. cbn [mbind option_bind].
  by destruct (trailer_entries last root_num info_num new_id) as (_ & _ & _ & -> & _); [by apply nd_last|].
Qed.

Lemma GetRoot_opened p :
  opened p → ∃ d p', GetRoot file 0 p = (Some d, p') ∧ opened p' ∧ m_Document p' = m_Document p ∧
    m_bXRefTableRebuilt p' = m_bXRefTableRebuilt p ∧ m_FileVersion p' = m_FileVersion p.
Proof.
  intros Hp. unfold GetRoot. rewrite (root_number p (op_ready p Hp)). destruct (get_opened root_num p Hp) as (p' & -> & Hp' & Ed & E1 & E2).
  unfold original. rewrite Hroot. by eexists _, p'.
Qed.

(** Loading, with a [TryInit] that succeeds. *)
Context (TryInit : CPDF_Parser → bool * CPDF_Parser).
Hypothesis Htry : ∀ p, opened p → m_Document p = document_new → ∃ p', TryInit p = (true, p') ∧ ready p'.

Lemma StartParseInternal_ready password p :
  parser_ok p → m_CrossRefTable p = table_new → m_pSecurityHandler p = None → m_ParsingObjNums p = [] → m_IndirectObjs p = [] →
  m_bXRefTableRebuilt p = false → m_Document p = document_new →
  ∃ p' p'', StartParseInternal file 0 password TryInit p = Some (SUCCESS, p'') ∧ TryInit p' = (true, p'') ∧ opened p' ∧
    m_Document p' = document_new ∧ m_bXRefTableRebuilt p' = false ∧ m_FileVersion p' = m_FileVersion p.
Proof.
  intros Hp Ht Hsec Hpar Hobjs Hreb Hdoc'. unfold StartParseInternal, init_document, load_or_rebuild. set (p1 := with_xref_stream false p).
  pose proof (nd_last doc Hdoc) as Hl. fold last in Hl. unfold kMaxXRefSize in Hl.
  assert (Hpre : 0 <= zlen pre < 2 ^ 31 ∧ zlen pre < zlen file ∧ 9 <= zlen pre).
  { unfold file in *. rewrite zlen_app in *. rewrite (zlen_app (WriteXrefsNotIncremental offs last)) in *.
    pose proof (zlen_nonneg (WriteXrefsNotIncremental offs last)). unfold trailer_text in *. rewrite (zlen_app (bs "trailer")) in *.
    set (t := str_eol ++ _) in *. pose proof (zlen_nonneg t). change (zlen (bs "trailer")) with 7 in *.
    unfold pre in *. rewrite zlen_app in *. pose proof (zlen_nonneg body). lia. }
  assert (Hx : ∃ a, file = (a ++ [10]) ++ str_startxref ++ str_eol ++ WriteFilesize (zlen pre) ++ str_end).
  { exists (pre ++ WriteXrefsNotIncremental offs last ++ bs "trailer" ++ str_eol ++ bs "<<" ++ new_entries root_num info_num ++ bs "/Size " ++
      WriteDWord (last + 1) ++ bs "/ID" ++ print (CPDF_Array ids) ++ bs ">>" ++ [13]).
    unfold file, trailer_text, str_end. rewrite <-!app_assoc. reflexivity. }
  destruct Hx as [a Hx]. destruct (ParseStartXRef_found file p1 a (zlen pre) Hx) as (s1 & E1 & Hs1); [lia|lia|done|].
  rewrite E1. set (p2 := with_last_xref _ _). replace (kPDFHeaderSize <=? zlen pre) with true by (unfold kPDFHeaderSize; lia).
  destruct (LoadAllCrossRefV4_found file pre offs last root_num info_num new_id) with (p := p2) as (s2 & t & E2 & Hs2 & Htab).
  - reflexivity.
  - unfold kMaxXRefSize. lia.
  - destruct (number_small _ _ Hroot). unfold kMaxXRefSize in *. lia.
  - destruct info_num as [i|]; [|done]. destruct Hinfo as [o Ho]. destruct (number_small _ _ Ho). unfold kMaxXRefSize in *. lia.
  - done.
  - intros n o Ho. by apply offsets_point.
  - exact Hs1.
  - exact Ht.
  - rewrite E2. cbn [mbind option_bind negb]. set (p3 := with_syntax s2 _).
    assert (Hr3 : opened p3).
    { constructor; [by constructor|change (sorted (m_IndirectObjs p)); rewrite Hobjs; apply sorted_nil|].
      intros n c. change (find n (m_IndirectObjs p) = Some c → c = original n). by rewrite Hobjs. }
    rewrite (SetEncryptHandler_none password p3 (op_ready p3 Hr3)). cbn [mbind option_bind].
    destruct (GetRoot_opened p3 Hr3) as (d & p4 & E4 & Hr4 & D4 & B4 & V4). rewrite E4.
    destruct (Htry p4 Hr4) as (p5 & E5 & Hr5); [by rewrite D4|]. rewrite E5. cbn [mbind option_bind].
    unfold rebuild_for_number. rewrite (root_number p5 Hr5).
    destruct (number_small _ _ Hroot). replace (root_num =? kInvalidObjNum) with false by (unfold kInvalidObjNum, kMaxXRefSize in *; lia).
    cbn [negb mbind option_bind].
    assert (Em : set_metadata file 0 false p5 = p5) by (unfold set_metadata; by rewrite (rd_security p5 Hr5)).
    rewrite Em. exists p4, p5. split_and!; [done|done|done|by rewrite D4|by rewrite B4|by rewrite V4].
Qed.
End document.

(** ** Written, then read *)
Lemma header_text_ok `{Inflate} version p :
  version = 0 ∨ 10 <= version <= 17 →
  ∃ tail, header_text false version p = bs "%PDF-1." ++ [48 + (if version =? 0 then 7 else version mod 10)] ++ tail ∧ zlen tail = 9.
Proof.
  intros Hv. unfold header_text. destruct (Z.eqb_spec version 0) as [->|Hn]; cbn [negb].
  - eexists. split; [reflexivity|done].
  - assert (Hd : WriteDWord (version mod 10) = [48 + version mod 10]).
    { assert (Hc : version mod 10 ∈ seqZ 0 10) by (apply elem_of_seqZ; pose proof (Z.mod_pos_bound version 10); lia).
      revert Hc. generalize (version mod 10) as k. intros k Hk. assert (Ha : Forall (λ k, WriteDWord k = [48 + k]) (seqZ 0 10)) by (by repeat constructor).
      rewrite Forall_forall in Ha. by apply Ha. }
    rewrite Hd. eexists. split; [reflexivity|done].
Qed.

Lemma header_version version :
  version = 0 ∨ 10 <= version <= 17 → 10 + (if version =? 0 then 7 else version mod 10) = if version =? 0 then 17 else version.
Proof.
  intros Hv. destruct (Z.eqb_spec version 0); [done|]. rewrite Z.mod_eq by done.
  assert (version / 10 = 1) as -> by (symmetry; apply Z.div_unique with (version - 10); lia). lia.
Qed.

Section open.
Context (header rest : list Z) (tail : list Z) (v : Z).
Hypothesis Hv : 0 <= v <= 9.
Hypothesis Hh : header = bs "%PDF-1." ++ [48 + v] ++ tail.
Hypothesis Ht : zlen tail = 9.
Let text := header ++ rest.

Lemma open_offset : GetHeaderOffset text = Some 0.
Proof.
  unfold GetHeaderOffset, text. rewrite Hh. change 1025%nat with (S 1024). generalize 1024%nat. intros k. cbn [header_loop].
  destruct (Nat.ltb_spec (length ((bs "%PDF-1." ++ [48 + v] ++ tail) ++ rest)) (0 + 4)) as [Hl|_].
  - rewrite !length_app in Hl. change (length (bs "%PDF-1.")) with 7%nat in Hl. lia.
  - reflexivity.
Qed.

Lemma open_size : 17 <= zlen text.
Proof.
  unfold text. rewrite Hh, !zlen_app. change (zlen (bs "%PDF-1.")) with 7. change (zlen [48 + v]) with 1. pose proof (zlen_nonneg rest). lia.
Qed.

Lemma open_version p : ParseFileVersion text 0 p = (true, with_version (10 + v) p).
Proof.
  pose proof open_size. unfold ParseFileVersion. rewrite !GetCharAt_rd by lia.
  assert (E5 : text.[5] = 49) by (unfold text; by rewrite Hh).
  assert (E7 : text.[7] = 48 + v) by (unfold text; by rewrite Hh).
  rewrite E5, E7. cbv zeta. f_equal. f_equal. assert (Hc : v ∈ seqZ 0 10) by (apply elem_of_seqZ; lia).
  assert (Ha : Forall (λ v, (if isdigit 49 then FXSYS_DecimalCharToInt 49 else 0) * 10 +
    (if isdigit (48 + v) then FXSYS_DecimalCharToInt (48 + v) else 0) = 10 + v) (seqZ 0 10)) by (by repeat constructor).
  rewrite Forall_forall in Ha. by apply Ha.
Qed.
End open.

(** The parts of a written file, and what [StartParse] makes of it. *)
Lemma StartParse_created `{Inflate} compress ivs file0 hdr0 doc root d info incremental original_ version new_id r r2 password :
  new_doc doc → Holder.GetIndirectObject root doc = Some (CPDF_Dictionary d) →
  match info with Some n => is_Some (Holder.GetIndirectObject n doc) | None => True end →
  bytes new_id → version = 0 ∨ 10 <= version <= 17 →
  ∃ header body offs, let text := (header ++ body) ++ WriteXrefsNotIncremental offs (m_LastObjNum doc) ++
      trailer_text root info (m_LastObjNum doc) (zlen (header ++ body)) [CPDF_String new_id true; CPDF_String new_id true] in
    Create compress ivs file0 hdr0 false root info incremental original_ version new_id r r2 password doc = Some text ∧
    9 <= zlen header ∧
    (∀ n, match Holder.GetIndirectObject n doc with
          | Some o => ∃ off, find n offs = Some (zlen header + off) ∧ placed compress file0 hdr0 doc body n o off
          | None => find n offs = None
          end) ∧
    (zlen text < 2 ^ 31 → ∀ password2 TryInit,
      (∀ p, opened compress file0 hdr0 doc offs root info new_id p → m_Document p = document_new →
         ∃ p', TryInit 0 p = (true, p') ∧ ready doc offs root info new_id p') →
      ∃ p p', StartParse text password2 TryInit = Some (SUCCESS, p') ∧ TryInit 0 p = (true, p') ∧
        opened compress file0 hdr0 doc offs root info new_id p ∧ m_Document p = document_new ∧
        m_bXRefTableRebuilt p = false ∧ m_FileVersion p = (if version =? 0 then 17 else version)).
Proof.
  intros Hdoc Hroot Hinfo Hid Hv.
  destruct (Create_text compress ivs file0 hdr0 doc root info incremental original_ version new_id r r2 password Hdoc) as (body & offs & E & Hpl).
  destruct (header_text_ok version doc Hv) as (tail & Eh & Et).
  set (header := header_text false version doc) in *. set (v := if version =? 0 then 7 else version mod 10) in *.
  assert (H09 : 0 <= v <= 9) by (unfold v; destruct (version =? 0); [lia|pose proof (Z.mod_pos_bound version 10); lia]).
  assert (Hh9 : 9 <= zlen header).
  { rewrite Eh, !zlen_app. change (zlen (bs "%PDF-1.")) with 7. pose proof (zlen_nonneg tail). pose proof (zlen_nonneg [48 + v]). lia. }
  exists header, body, offs. cbv zeta. rewrite app_assoc in E. split_and!; [exact E|exact Hh9|exact Hpl|]. intros Hsmall password2 TryInit Htry.
  set (rest := WriteXrefsNotIncremental _ _ ++ _) in *. unfold StartParse.
  assert (Htext : (header ++ body) ++ rest = header ++ body ++ rest) by (by rewrite <-app_assoc).
  pose proof (open_size header (body ++ rest) tail v Eh Et) as Hs. pose proof (open_version header (body ++ rest) tail v H09 Eh Et) as Hver.
  pose proof (open_offset header (body ++ rest) tail v Eh) as Hoff. rewrite <-Htext in Hs, Hver, Hoff. rewrite Hoff, Hver.
  replace (zlen _ <? 0 + kPDFHeaderSize) with false by (unfold kPDFHeaderSize; lia). cbn [negb].
  destruct (StartParseInternal_ready compress file0 hdr0 doc header body offs root info new_id Hdoc Hh9 Hpl Hsmall Hinfo Hid d Hroot
    (TryInit 0) Htry password2 (with_version (10 + v) parser_new)) as (p & p' & E' & Etry & Hop & Hd & Hb & HV); try reflexivity.
  exists p, p'. split_and!; [exact E'|done|done|done|done|]. rewrite HV. cbn [m_FileVersion with_version]. by apply header_version.
Qed.

(** C1: [CPDF_Creator] and [CPDF_Parser] are inverse on new documents: the file
    that [Create] writes for a document that was made from scratch is loaded by
    [StartParse] at the first attempt (no rebuilding of the table), with the
    document's version and root, and every object that is then looked up, by
    whatever number, is the document's object of that number with the data of
    its streams encoded as they are written; a number without an object gives
    no object. *)
Theorem document_roundtrip `{Inflate} compress ivs file0 hdr0 doc root d info incremental original_ version new_id r r2 password password2 :
  new_doc doc → Holder.GetIndirectObject root doc = Some (CPDF_Dictionary d) →
  match info with Some n => is_Some (Holder.GetIndirectObject n doc) | None => True end →
  bytes new_id → version = 0 ∨ 10 <= version <= 17 →
  ∃ text, Create compress ivs file0 hdr0 false root info incremental original_ version new_id r r2 password doc = Some text ∧
    (zlen text < 2 ^ 31 → ∃ p,
      StartParse text password2 ObjectsHolderStub = Some (SUCCESS, p) ∧
      m_bXRefTableRebuilt p = false ∧ m_FileVersion p = (if version =? 0 then 17 else version) ∧ GetRootObjNum p = root ∧
      ∀ n, holder_in text 0 p n = stored (holder_in file0 hdr0 doc) compress <$> Holder.GetIndirectObject n doc).
Proof.
  intros Hdoc Hroot Hinfo Hid Hv.
  destruct (StartParse_created compress ivs file0 hdr0 doc root d info incremental original_ version new_id r r2 password Hdoc Hroot Hinfo Hid Hv)
    as (header & body & offs & E & Hh & Hpl & Hload).
  eexists. split; [exact E|]. intros Hsmall. destruct (Hload Hsmall password2 ObjectsHolderStub) as (p & p' & Es & [= <-] & Hop & _ & Hb & HV).
  { intros p Hp _. exists p. split; [done|]. by destruct Hp. }
  exists p. split_and!; [exact Es|done|done| |].
  - by eapply root_number; try apply Hop.
  - intros n. unfold holder_in. edestruct get_opened as (p3 & -> & _); done.
Qed.

Definition small_doc : CPDF_Parser :=
  with_holder [(1, Some (CPDF_Dictionary [(bs "Type", CPDF_Name (bs "Catalog"))]));
               (3, Some (CPDF_Stream [(bs "Length", CPDF_Number (FxSigned 2))] [104; 105]))] 3 parser_new.
Definition small_file : option (list Z) :=
  Create (H := zeros_inflate) reverse (λ _, []) [] 0 false 1 (Some 3) false false 0 [65; 66] [] [] [] small_doc.

Lemma one_entry k o : k ≠ [] → name_ok k → obj_ok 63 o → direct o = true → dict_ok [(k, o)].
Proof.
  intros H1 H2 H3 H4. refine (proj2 (dict_ok_iff _) (conj _ _)).
  - apply SSorted_cons; constructor.
  - by apply List.Forall_cons; [split_and!|constructor].
Qed.

Lemma small_doc_ok : new_doc small_doc.
Proof.
  constructor.
  - repeat constructor; cbn; lia.
  - intros n o. unfold GetIndirectObject. cbn [m_IndirectObjs small_doc with_holder find m_LastObjNum].
    destruct (Z.eqb_spec 1 n) as [<-|]; [|destruct (Z.eqb_spec 3 n) as [<-|]; [|discriminate]]; intros [= <-]; (split; [lia|]).
    + refine (one_entry (bs "Type") (CPDF_Name (bs "Catalog")) _ _ _ eq_refl); [done|..].
      all: split; [cbn; solve_bytes|vm_compute; discriminate].
    + destruct names_ok as (N1 & _).
      refine (conj (one_entry (bs "Length") (CPDF_Number (FxSigned 2)) _ N1 I eq_refl) (conj eq_refl _)); [done|vm_compute; by split].
  - done.
Qed.

Lemma document_roundtrip_witness :
  ∃ text p, small_file = Some text ∧
    StartParse (H := zeros_inflate) text [] ObjectsHolderStub = Some (SUCCESS, p) ∧ GetRootObjNum p = 1 ∧
    ∀ n, holder_in (H := zeros_inflate) text 0 p n =
      stored (H := zeros_inflate) (holder_in (H := zeros_inflate) [] 0 small_doc) reverse <$> GetIndirectObject n small_doc.
Proof.
  destruct (document_roundtrip (H := zeros_inflate) reverse (λ _, []) [] 0 small_doc 1 [(bs "Type", CPDF_Name (bs "Catalog"))] (Some 3) false false 0
    [65; 66] [] [] [] []) as (text & E & Hp).
  - exact small_doc_ok.
  - reflexivity.
  - by eexists.
  - solve_bytes.
  - by left.
  - assert (Hl : match small_file with Some t => zlen t <? 2 ^ 31 | None => false end = true) by (vm_compute; reflexivity).
    change (small_file = Some text) in E. rewrite E in Hl. apply Z.ltb_lt in Hl. destruct (Hp Hl) as (p & H1 & _ & _ & H2 & H3).
    exists text, p. by split_and!.
Defined.
