(* ===== verification/Store.v ===== *)
(** * The objects of a document as a store

    What the code that works on a document relies on, whether the document was
    made or loaded: a look-up finds the object that the store holds under a number
    and changes nothing of it, and a change of an object changes no other.  The
    interface is [HolderLaws]; [original] is what an object is before it has been
    parsed. *)
From Stdlib Require Import Sorted String.
From stdpp Require Import gmap.
From S2P Require Import Prelude Words FxNumber Objects Dict StdMap Security DocParser Holder Pointer.
Import String.StringSyntax.

Section store.
Context (original : Z → option CPDF_Object) (base : CPDF_Parser → Prop).

(** The object with a number. *)
Definition object_in (p : CPDF_Parser) (n : Z) : option CPDF_Object :=
  match find n (m_IndirectObjs p) with Some o => o | None => original n end.

Record held (p : CPDF_Parser) : Prop := {
  held_sorted : sorted (m_IndirectObjs p);
  held_base : base p;
  held_range n : is_Some (object_in p n) → 1 <= n <= m_LastObjNum p;
  held_original n : is_Some (original n) → n <= m_LastObjNum p;
  held_last : 0 <= m_LastObjNum p < kInvalidObjNum;
}.

(** [p'] after a look-up of [n]. *)
Record looked_up (n : Z) (p p' : CPDF_Parser) : Prop := {
  lu_base : base p';
  lu_document : m_Document p' = m_Document p;
  lu_last : m_LastObjNum p' = m_LastObjNum p;
  lu_objs : m_IndirectObjs p' =
    match find n (m_IndirectObjs p), original n with
    | None, Some o => put n (Some o) (m_IndirectObjs p)
    | _, _ => m_IndirectObjs p
    end;
}.

Class HolderLaws `{Holder} : Prop := {
  lookup_law n p : held p → ∃ p', lookup_object n p = (object_in p n, p') ∧ looked_up n p p';
  base_holder objs last p : base p → base (with_holder objs last p);
  base_document d p : base p → base (with_document d p);
}.

Definition loaded (p : CPDF_Parser) (n : Z) : Prop := is_Some (GetIndirectObject n p).

Lemma loaded_in p n : loaded p n → GetIndirectObject n p = object_in p n.
Proof. unfold loaded, GetIndirectObject, object_in. destruct (find n _) as [o|]; [done|]. by intros []. Qed.

(** [p'] has the objects of [p], and what was loaded still is. *)
Record same (p p' : CPDF_Parser) : Prop := {
  same_held : held p';
  same_objects n : object_in p' n = object_in p n;
  same_document : m_Document p' = m_Document p;
  same_last : m_LastObjNum p' = m_LastObjNum p;
  same_loaded n : loaded p n → loaded p' n;
}.

Lemma same_refl p : held p → same p p.
Proof. by constructor. Qed.
Lemma same_trans p1 p2 p3 : same p1 p2 → same p2 p3 → same p1 p3.
Proof. intros [A1 A2 A3 A4 A5] [B1 B2 B3 B4 B5]. constructor; [done|congruence..|eauto]. Qed.

Context `{HolderLaws}.

Lemma lookup_same n p :
  held p → ∃ p', lookup_object n p = (object_in p n, p') ∧ same p p' ∧ (is_Some (object_in p n) → loaded p' n).
Proof.
  intros Hp. destruct (lookup_law n p Hp) as (p' & E & [L1 L2 L3 L4]). exists p'. split; [exact E|].
  destruct Hp as [Hs Hb Hr Ho Hl].
  assert (Hf : ∀ k, find k (m_IndirectObjs p') = match find n (m_IndirectObjs p), original n with
                      | None, Some o => if n =? k then Some (Some o) else find k (m_IndirectObjs p)
                      | _, _ => find k (m_IndirectObjs p) end).
  { intros k. rewrite L4. destruct (find n _), (original n); try done. apply find_put. }
  assert (Hobj : ∀ k, object_in p' k = object_in p k).
  { intros k. unfold object_in. rewrite Hf. destruct (find n _) as [o|] eqn:En; [done|].
    destruct (original n) as [o|] eqn:Eo; [|done]. destruct (Z.eqb_spec n k) as [<-|]; [|done]. by rewrite En. }
  split.
  - constructor; [|exact Hobj|done|done|].
    + constructor; [rewrite L4|done| |by rewrite L3|by rewrite L3].
      * destruct (find n _), (original n); try done. by apply sorted_put.
      * intros k. rewrite Hobj, L3. apply Hr.
    + intros k. unfold loaded, GetIndirectObject. rewrite Hf. destruct (find n (m_IndirectObjs p)) as [c|]; [done|]. destruct (original n); [|done].
      destruct (Z.eqb_spec n k) as [<-|]; [by eexists|done].
  - unfold loaded, GetIndirectObject, object_in. rewrite Hf. destruct (find n (m_IndirectObjs p)) as [c|]; [done|].
    destruct (original n); [|by intros []]. rewrite Z.eqb_refl. by eexists.
Qed.

(** ** Changes *)

(** [p'] is [p] with [o] as the object [n]. *)
Record changed (n : Z) (o : CPDF_Object) (p p' : CPDF_Parser) : Prop := {
  ch_held : held p';
  ch_objects k : object_in p' k = if n =? k then Some o else object_in p k;
  ch_document : m_Document p' = m_Document p;
  ch_loaded k : loaded p k → loaded p' k;
  ch_there : loaded p' n;
}.

Lemma put_changed n o last p :
  held p → 1 <= n <= last → m_LastObjNum p <= last < kInvalidObjNum →
  changed n o p (with_holder (put n (Some o) (m_IndirectObjs p)) last p).
Proof.
  intros [Hs Hb Hr Ho Hl] Hn Hlast. set (p' := with_holder _ _ p).
  assert (Hf : ∀ k, find k (m_IndirectObjs p') = if n =? k then Some (Some o) else find k (m_IndirectObjs p)) by (intros; apply find_put).
  assert (Hobj : ∀ k, object_in p' k = if n =? k then Some o else object_in p k).
  { intros k. unfold object_in. rewrite Hf. by destruct (n =? k). }
  constructor; [|exact Hobj|done| |].
  - constructor; [by apply sorted_put|by apply base_holder| | |cbn; lia].
    + intros k. rewrite Hobj. cbn [m_LastObjNum with_holder p']. destruct (Z.eqb_spec n k) as [<-|]; [done|].
      intros Hk. specialize (Hr k Hk). lia.
    + intros k Hk. cbn. specialize (Ho k Hk). lia.
  - intros k. unfold loaded, GetIndirectObject. rewrite Hf. destruct (Z.eqb_spec n k) as [<-|]; [by eexists|done].
  - unfold loaded, GetIndirectObject. rewrite Hf, Z.eqb_refl. by eexists.
Qed.

Lemma change_at_changed f n path o p :
  held p → loaded p n → object_in p n = Some o → changed n (change f path o) p (change_at f (n, path) p).
Proof.
  intros Hp Hl Ho. unfold change_at. cbn [fst snd]. rewrite (loaded_in p n Hl), Ho. apply put_changed; [done|..].
  - apply (held_range p Hp). by eexists.
  - by destruct (held_last p Hp).
Qed.

Lemma AddIndirectObject_changed o p :
  held p → m_LastObjNum p + 1 < kInvalidObjNum →
  let n := m_LastObjNum p + 1 in
  ∃ p', AddIndirectObject o p = (n, p') ∧ changed n o p p' ∧ object_in p n = None ∧ m_LastObjNum p' = n ∧ 1 <= n.
Proof.
  intros Hp Hlast. cbv zeta. unfold AddIndirectObject. destruct (held_last p Hp).
  assert (E : u32 (m_LastObjNum p + 1) = m_LastObjNum p + 1).
  { apply Z.mod_small. unfold kInvalidObjNum in *. lia. }
  rewrite E. eexists. split; [reflexivity|]. split_and!; [apply put_changed; [done|lia..]| |done|lia].
  destruct (object_in p (m_LastObjNum p + 1)) as [c|] eqn:Ec; [|done].
  destruct (held_range p Hp (m_LastObjNum p + 1)); [by eexists|lia].
Qed.

Lemma held_with_document d p : held p → held (with_document d p).
Proof. intros [Hs Hb Hr Ho Hl]. by constructor; [|apply base_document|..]. Qed.

(** ** Access to entries

    Of an object that is in the store as a whole. *)
Lemma object_at_loaded n path p o : loaded p n → object_in p n = Some o → object_at (n, path) p = walk path o.
Proof. intros Hl Ho. unfold object_at. cbn. by rewrite loaded_in, Ho by done. Qed.

Lemma dict_at_loaded n p m : loaded p n → object_in p n = Some (CPDF_Dictionary m) → dict_at (n, []) p = Some m.
Proof. intros Hl Ho. unfold dict_at. by rewrite (object_at_loaded n [] p _ Hl Ho). Qed.

Lemma GetArrayFor_direct n key p m l :
  held p → loaded p n → object_in p n = Some (CPDF_Dictionary m) → GetObjectFor key m = Some (CPDF_Array l) →
  GetArrayFor (n, []) key p = (Some (n, [InDict key]), p) ∧ array_at (n, [InDict key]) p = Some l.
Proof.
  intros Hp Hl Ho Hk. assert (E : object_at (n, [InDict key]) p = Some (CPDF_Array l)).
  { rewrite (object_at_loaded n _ p _ Hl Ho). cbn. by rewrite Hk. }
  unfold GetArrayFor, array_pointer, direct_at. cbn [fst snd app]. rewrite E. cbn. unfold array_at. by rewrite E.
Qed.

Lemma GetIntegerFor_direct n key p m k :
  loaded p n → object_in p n = Some (CPDF_Dictionary m) → GetObjectFor key m = Some (CPDF_Number k) →
  GetIntegerFor (n, []) key p = (GetSigned k, p).
Proof. intros Hl Ho Hk. unfold GetIntegerFor. rewrite (dict_at_loaded n p m Hl Ho). cbn. by rewrite Hk. Qed.

(** A dictionary behind a reference. *)
Lemma dict_behind q k p m :
  held p → object_at q p = Some (CPDF_Reference k) → object_in p k = Some (CPDF_Dictionary m) →
  ∃ p', dict_pointer (direct_at q p) = (Some (k, []), p') ∧ same p p' ∧ loaded p' k.
Proof.
  intros Hp Hq Hk. unfold direct_at. rewrite Hq. destruct (lookup_same k p Hp) as (p' & -> & Hs & Hl).
  rewrite Hk in *. specialize (Hl (mk_is_Some _ _ eq_refl)). exists p'. split_and!; [|done..]. cbn.
  rewrite (object_at_loaded k [] p' (CPDF_Dictionary m) Hl); [done..|]. by rewrite (same_objects _ _ Hs).
Qed.

Lemma GetDictAt_behind n key l i k p m m' :
  held p → loaded p n → object_in p n = Some (CPDF_Dictionary m') → GetObjectFor key m' = Some (CPDF_Array l) →
  l !! i = Some (CPDF_Reference k) → object_in p k = Some (CPDF_Dictionary m) →
  ∃ p', GetDictAt (n, [InDict key]) i p = (Some (k, []), p') ∧ same p p' ∧ loaded p' k.
Proof.
  intros Hp Hl Ho Hkey Hi Hk. unfold GetDictAt. cbn [fst snd app]. apply (dict_behind _ k p m Hp); [|done].
  rewrite (object_at_loaded n _ p _ Hl Ho). cbn. rewrite Hkey. cbn. by rewrite Hi.
Qed.

Lemma GetDictFor_behind n key k p m m' :
  held p → loaded p n → object_in p n = Some (CPDF_Dictionary m') → GetObjectFor key m' = Some (CPDF_Reference k) →
  object_in p k = Some (CPDF_Dictionary m) →
  ∃ p', GetDictFor (n, []) key p = (Some (k, []), p') ∧ same p p' ∧ loaded p' k.
Proof.
  intros Hp Hl Ho Hkey Hk. unfold GetDictFor. cbn [fst snd app]. apply (dict_behind _ k p m Hp); [|done].
  rewrite (object_at_loaded n _ p _ Hl Ho). cbn. by rewrite Hkey.
Qed.
End store.
