(* ===== verification/PageTree.v ===== *)
(** * Documents and their pages

    [CPDF_Document] ([core/fpdfapi/parser/cpdf_document.cpp]): loading, the page
    tree with its list of pages, and the changes of both.  Of functions that
    return [option], [None] is undefined behaviour of the code (an index out of a
    vector, a null pointer that is used) or a failed [CHECK]. *)
From Stdlib Require Import String.
From S2P Require Import Prelude Words FxNumber Objects Dict StdMap Security CrossRef DataDecode DocParser DocLoad DocTotal Linearized Holder Pointer.
Import String.StringSyntax.

(** An [int], in which the code's additions are done. *)
Definition int32 (z : Z) : Z := s32 (u32 z).

Definition kPageMaxNum : Z := 0xFFFFF.
Definition kMaxPageLevel : nat := 1024.

(** Changes of one member. *)
Definition on_document (f : CPDF_Document → CPDF_Document) (p : CPDF_Parser) : CPDF_Parser := with_document (f (m_Document p)) p.
Definition with_root r := on_document (λ d, Document r (m_pInfoDict d) (m_pTreeTraversal d) (m_bHasValidCrossReferenceTable d)
  (m_bReachedMaxPageLevel d) (m_iNextPageToTraverse d) (m_PageList d)).
Definition with_info r := on_document (λ d, Document (m_pRootDict d) r (m_pTreeTraversal d) (m_bHasValidCrossReferenceTable d)
  (m_bReachedMaxPageLevel d) (m_iNextPageToTraverse d) (m_PageList d)).
Definition with_traversal (f : list (pointer * nat) → list (pointer * nat)) := on_document (λ d, Document (m_pRootDict d) (m_pInfoDict d)
  (f (m_pTreeTraversal d)) (m_bHasValidCrossReferenceTable d) (m_bReachedMaxPageLevel d) (m_iNextPageToTraverse d) (m_PageList d)).
Definition with_valid_table b := on_document (λ d, Document (m_pRootDict d) (m_pInfoDict d) (m_pTreeTraversal d) b
  (m_bReachedMaxPageLevel d) (m_iNextPageToTraverse d) (m_PageList d)).
Definition with_reached b := on_document (λ d, Document (m_pRootDict d) (m_pInfoDict d) (m_pTreeTraversal d)
  (m_bHasValidCrossReferenceTable d) b (m_iNextPageToTraverse d) (m_PageList d)).
Definition with_next n := on_document (λ d, Document (m_pRootDict d) (m_pInfoDict d) (m_pTreeTraversal d)
  (m_bHasValidCrossReferenceTable d) (m_bReachedMaxPageLevel d) n (m_PageList d)).
Definition with_pages (f : list Z → list Z) := on_document (λ d, Document (m_pRootDict d) (m_pInfoDict d) (m_pTreeTraversal d)
  (m_bHasValidCrossReferenceTable d) (m_bReachedMaxPageLevel d) (m_iNextPageToTraverse d) (f (m_PageList d))).

Definition pages (p : CPDF_Parser) : list Z := m_PageList (m_Document p).
Definition traversal (p : CPDF_Parser) : list (pointer * nat) := m_pTreeTraversal (m_Document p).
Definition GetPageCount (p : CPDF_Parser) : Z := zlen (pages p).
Definition IsPageLoaded (iPage : Z) (p : CPDF_Parser) : option bool :=
  n ← pages p !! Z.to_nat iPage; Some (negb (n =? 0)).

(** [m_PageList[iPage] = objNum] *)
Definition SetPageObjNum (iPage objNum : Z) (p : CPDF_Parser) : option CPDF_Parser :=
  if (0 <=? iPage) && (iPage <? GetPageCount p) then Some (with_pages <[Z.to_nat iPage := objNum]> p) else None.

Definition ResetTraversal (p : CPDF_Parser) : CPDF_Parser := with_traversal (λ _, []) (with_reached false (with_next 0 p)).

Definition array_size (q : pointer) (p : CPDF_Parser) : nat := length (default [] (array_at q p)).

Section document.
Context `{Holder}.

Definition GetPagesDict (p : CPDF_Parser) : option pointer * CPDF_Parser :=
  match m_pRootDict (m_Document p) with Some root => GetDictFor root (bs "Pages") p | None => (None, p) end.

(** ** Counting

    The loops over the kids go on while [i] is less than the size of the array,
    which does not change in them; [n] is what is left of it. *)
Fixpoint count_kids (visit : pointer → list pointer → CPDF_Parser → option (Z * CPDF_Parser)) (pKidList : pointer)
    (visited_pages : list pointer) (n i : nat) (count : Z) (p : CPDF_Parser) : option (Z * CPDF_Parser) :=
  match n with
  | O => Some (count, p)
  | S n' =>
      let next := count_kids visit pKidList visited_pages n' (S i) in
      let '(pKid, p) := GetDictAt pKidList i p in
      match pKid with
      | None => next count p
      | Some pKid =>
          if decide (pKid ∈ visited_pages) then next count p
          else if KeyExist pKid (bs "Kids") p then
            '(c, p) ← visit pKid (pKid :: visited_pages) p; next (int32 (count + c)) p
          else next (int32 (count + 1)) p
      end
  end.

Fixpoint CountPages (fuel : nat) (pPages : pointer) (visited_pages : list pointer) (p : CPDF_Parser) :
    option (Z * CPDF_Parser) :=
  match fuel with
  | O => None
  | S fuel' =>
      let '(count, p) := GetIntegerFor pPages (bs "Count") p in
      if (0 <? count) && (count <? kPageMaxNum) then Some (count, p)
      else
        let '(pKidList, p) := GetArrayFor pPages (bs "Kids") p in
        match pKidList with
        | None => Some (0, p)
        | Some pKidList =>
            '(count, p) ← count_kids (CountPages fuel') pKidList visited_pages (array_size pKidList p) 0 0 p;
            Some (count, SetNewFor pPages (bs "Count") (CPDF_Number (FxSigned count)) p)
        end
  end.

Definition RetrievePageCount (fuel : nat) (p : CPDF_Parser) : option (Z * CPDF_Parser) :=
  let '(pPages, p) := GetPagesDict p in
  match pPages with
  | None => Some (0, p)
  | Some pPages => if negb (KeyExist pPages (bs "Kids") p) then Some (1, p) else CountPages fuel pPages [pPages] p
  end.

(** ** The object number of a page *)
Fixpoint traverse_kids (visit : Z → nat → CPDF_Parser → option (option pointer * Z * CPDF_Parser)) (iPage : Z)
    (pPages pKidList : pointer) (level n i : nat) (nPagesToGo : Z) (p : CPDF_Parser) :
    option (option pointer * Z * CPDF_Parser) :=
  match n with
  | O => Some (None, nPagesToGo, p)
  | S n' =>
      let next := traverse_kids visit iPage pPages pKidList level n' (S i) in
      let done_with_kid := with_traversal (alter (λ '(q, k), (q, S k)) level) in
      if nPagesToGo =? 0 then Some (None, nPagesToGo, p)
      else
        p ← ConvertToIndirectObjectAt pKidList i p;
        let '(pKid, p) := GetDictAt pKidList i p in
        match pKid with
        | None => next (nPagesToGo - 1) (done_with_kid p)
        | Some pKid =>
            if decide (pKid = pPages) then next nPagesToGo (done_with_kid p)
            else if negb (KeyExist pKid (bs "Kids") p) then
              p ← SetPageObjNum (iPage - nPagesToGo + 1) (GetObjNum pKid) p;
              let p := done_with_kid p in
              if nPagesToGo - 1 =? 0 then Some (Some pKid, 0, p) else next (nPagesToGo - 1) p
            else
              let p := if (length (traversal p) =? S level)%nat then with_traversal (λ l, l ++ [(pKid, 0%nat)]) p else p in
              '(pageKid, nPagesToGo, p) ← visit nPagesToGo (S level) p;
              let finished := (length (traversal p) =? S level)%nat in
              let p := if finished then done_with_kid p else p in
              if negb finished || (nPagesToGo =? 0) || m_bReachedMaxPageLevel (m_Document p) then Some (pageKid, nPagesToGo, p)
              else next nPagesToGo p
        end
  end.

(** [depth] more levels may follow. *)
Fixpoint TraversePDFPages (depth : nat) (iPage nPagesToGo : Z) (level : nat) (p : CPDF_Parser) :
    option (option pointer * Z * CPDF_Parser) :=
  match depth with
  | O => None
  | S depth' =>
      let pop := with_traversal (@removelast _) in
      if (nPagesToGo <? 0) || m_bReachedMaxPageLevel (m_Document p) then Some (None, nPagesToGo, p)
      else
        '(pPages, second) ← traversal p !! level;
        let '(pKidList, p) := GetArrayFor pPages (bs "Kids") p in
        match pKidList with
        | None =>
            let p := pop p in
            if negb (nPagesToGo =? 1) then Some (None, nPagesToGo, p)
            else p ← SetPageObjNum iPage (GetObjNum pPages) p; Some (Some pPages, nPagesToGo, p)
        | Some pKidList =>
            if (kMaxPageLevel <=? level)%nat then Some (None, nPagesToGo, with_reached true (pop p))
            else
              '(page, nPagesToGo, p) ←
                traverse_kids (λ n, TraversePDFPages depth' iPage n) iPage pPages pKidList level
                  (array_size pKidList p - second) second nPagesToGo p;
              '(_, second) ← traversal p !! level;
              Some (page, nPagesToGo, if (second =? array_size pKidList p)%nat then pop p else p)
        end
  end.

(** [ToDictionary] of an object of the holder *)
Definition dictionary_of (objnum : Z) (p : CPDF_Parser) : option pointer * CPDF_Parser :=
  let '(o, p) := lookup_object objnum p in
  (match o with Some (CPDF_Dictionary _) => Some (objnum, []) | _ => None end, p).

Definition GetPageDictionary (iPage : Z) (p : CPDF_Parser) : option (option pointer * CPDF_Parser) :=
  if negb ((0 <=? iPage) && (iPage <? GetPageCount p)) then Some (None, p)
  else
    let objnum := default 0 (pages p !! Z.to_nat iPage) in
    let '(result, p) := if objnum =? 0 then (None, p) else dictionary_of objnum p in
    match result with
    | Some q => Some (Some q, p)
    | None =>
        let '(pPages, p) := GetPagesDict p in
        match pPages with
        | None => Some (None, p)
        | Some pPages =>
            let p := if bool_decide (traversal p = []) then with_traversal (λ _, [(pPages, 0%nat)]) (ResetTraversal p) else p in
            let nPagesToGo := iPage - m_iNextPageToTraverse (m_Document p) + 1 in
            '(pPage, _, p) ← TraversePDFPages (S kMaxPageLevel) iPage nPagesToGo 0 p;
            Some (pPage, with_next (iPage + 1) p)
        end
    end.

(** ** The index of a page *)
Fixpoint find_reference (l : list CPDF_Object) (i objnum : Z) : option Z :=
  match l with
  | [] => None
  | CPDF_Reference n :: l' => if n =? objnum then Some i else find_reference l' (i + 1) objnum
  | _ :: l' => find_reference l' (i + 1) objnum
  end.

(** The result with [*skip_count] and [*index]. *)
Fixpoint find_kids (visit : pointer → Z → Z → CPDF_Parser → Z * Z * Z * CPDF_Parser) (pNode pKidList : pointer) (n i : nat)
    (skip_count index : Z) (p : CPDF_Parser) : Z * Z * Z * CPDF_Parser :=
  match n with
  | O => (-1, skip_count, index, p)
  | S n' =>
      let next := find_kids visit pNode pKidList n' (S i) in
      let '(pKid, p) := GetDictAt pKidList i p in
      match pKid with
      | None => next skip_count index p
      | Some pKid =>
          if decide (pKid = pNode) then next skip_count index p
          else
            let '(found_index, skip_count, index, p) := visit pKid skip_count index p in
            if 0 <=? found_index then (found_index, skip_count, index, p) else next skip_count index p
      end
  end.

Fixpoint FindPageIndex (depth : nat) (pNode : pointer) (skip_count objnum index : Z) (p : CPDF_Parser) : Z * Z * Z * CPDF_Parser :=
  if negb (KeyExist pNode (bs "Kids") p) then
    if objnum =? GetObjNum pNode then (index, skip_count, index, p)
    else (-1, if skip_count =? 0 then 0 else skip_count - 1, int32 (index + 1), p)
  else
    let '(pKidList, p) := GetArrayFor pNode (bs "Kids") p in
    match pKidList, depth with
    | None, _ | _, O => (-1, skip_count, index, p)
    | Some pKidList, S depth' =>
        let '(count, p) := GetIntegerFor pNode (bs "Count") p in
        let count := u64 count in
        if count <=? skip_count then (-1, skip_count - count, int32 (index + count), p)
        else
          let size := array_size pKidList p in
          match
            (if negb (count =? 0) && (count =? Z.of_nat size)
             then find_reference (default [] (array_at pKidList p)) 0 objnum else None)
          with
          | Some i => (int32 (index + i), skip_count, index, p)
          | None => find_kids (λ q skip index, FindPageIndex depth' q skip objnum index) pNode pKidList size 0 skip_count index p
          end
    end.

(** The first index with [m_PageList[i] == objnum]. *)
Fixpoint index_of (n : Z) (l : list Z) (i : Z) : option Z :=
  match l with [] => None | m :: l' => if m =? n then Some i else index_of n l' (i + 1) end.

Definition IsValidPageObject (o : option CPDF_Object) : bool :=
  match o with
  | Some (CPDF_Dictionary m) => match GetObjectFor (bs "Type") m with Some (CPDF_Name s) => bool_decide (s = bs "Page") | _ => false end
  | _ => false
  end.

Definition GetPageIndex (objnum : Z) (p : CPDF_Parser) : option (Z * CPDF_Parser) :=
  match index_of objnum (pages p) 0 with
  | Some i => Some (i, p)
  | None =>
      let skip_count := default 0 (index_of 0 (pages p) 0) in
      let '(pPages, p) := GetPagesDict p in
      match pPages with
      | None => Some (-1, p)
      | Some pPages =>
          let '(found_index, _, _, p) := FindPageIndex kMaxPageLevel pPages skip_count objnum 0 p in
          if negb ((0 <=? found_index) && (found_index <? GetPageCount p)) then Some (-1, p)
          else
            let '(o, p) := lookup_object objnum p in
            p ← (if IsValidPageObject o then SetPageObjNum found_index objnum p else Some p);
            Some (found_index, p)
      end
  end.

(** ** Changes *)
Definition number (n : Z) : CPDF_Object := CPDF_Number (FxSigned n).
Definition change_count (pPages : pointer) (by_ : Z) (p : CPDF_Parser) : CPDF_Parser :=
  let '(count, p) := GetIntegerFor pPages (bs "Count") p in SetNewFor pPages (bs "Count") (number (int32 (count + by_))) p.

Fixpoint change_kids (visit : pointer → Z → list pointer → CPDF_Parser → option (bool * CPDF_Parser)) (pPages pKidList : pointer)
    (pPageDict : pointer) (bInsert : bool) (visited : list pointer) (n i : nat) (nPagesToGo : Z) (p : CPDF_Parser) :
    option (bool * CPDF_Parser) :=
  match n with
  | O => Some (true, p)
  | S n' =>
      let next := change_kids visit pPages pKidList pPageDict bInsert visited n' (S i) in
      let '(pKid, p) := GetDictAt pKidList i p in
      pKid ← pKid;
      if bool_decide (GetNameFor pKid (bs "Type") p = bs "Page") then
        if negb (nPagesToGo =? 0) then next (nPagesToGo - 1) p
        else
          let p :=
            if bInsert then
              SetNewFor pPageDict (bs "Parent") (CPDF_Reference (GetObjNum pPages))
                (InsertNewAt pKidList i (CPDF_Reference (GetObjNum pPageDict)) p)
            else RemoveAt pKidList i p in
          Some (true, ResetTraversal (change_count pPages (if bInsert then 1 else -1) p))
      else
        let '(nPages, p) := GetIntegerFor pKid (bs "Count") p in
        if nPages <=? nPagesToGo then next (int32 (nPagesToGo - nPages)) p
        else if decide (pKid ∈ visited) then Some (false, p)
        else
          '(ok, p) ← visit pKid nPagesToGo (pKid :: visited) p;
          if negb ok then Some (false, p) else Some (true, change_count pPages (if bInsert then 1 else -1) p)
  end.

(** [pPageDict] is not used when a page is deleted. *)
Fixpoint InsertDeletePDFPage (fuel : nat) (pPages : pointer) (nPagesToGo : Z) (pPageDict : pointer) (bInsert : bool)
    (pVisited : list pointer) (p : CPDF_Parser) : option (bool * CPDF_Parser) :=
  match fuel with
  | O => None
  | S fuel' =>
      let '(pKidList, p) := GetArrayFor pPages (bs "Kids") p in
      match pKidList with
      | None => Some (false, p)
      | Some pKidList =>
          change_kids (λ q n, InsertDeletePDFPage fuel' q n pPageDict bInsert) pPages pKidList pPageDict bInsert pVisited
            (array_size pKidList p) 0 nPagesToGo p
      end
  end.

(** [m_PageList.insert] and [erase] *)
Definition insert_page (i n : Z) (l : list Z) : list Z := take (Z.to_nat i) l ++ n :: drop (Z.to_nat i) l.

Definition InsertNewPage (fuel : nat) (iPage : Z) (pPageDict : pointer) (p : CPDF_Parser) : option (bool * CPDF_Parser) :=
  let '(pPages, p) := GetPagesDict p in
  match pPages with
  | None => Some (false, p)
  | Some pPages =>
      let nPages := GetPageCount p in
      if (iPage <? 0) || (nPages <? iPage) then Some (false, p)
      else
        '(ok, p) ←
          (if iPage =? nPages then
             let '(pPagesList, p) := GetArrayFor pPages (bs "Kids") p in
             let '(pPagesList, p) :=
               match pPagesList with
               | Some q => (q, p)
               | None => ((pPages.1, pPages.2 ++ [InDict (bs "Kids")]), SetNewFor pPages (bs "Kids") (CPDF_Array []) p)
               end in
             let p := AppendNew pPagesList (CPDF_Reference (GetObjNum pPageDict)) p in
             let p := SetNewFor pPages (bs "Count") (number (int32 (nPages + 1))) p in
             Some (true, ResetTraversal (SetNewFor pPageDict (bs "Parent") (CPDF_Reference (GetObjNum pPages)) p))
           else InsertDeletePDFPage fuel pPages iPage pPageDict true [pPages] p);
        if negb ok then Some (false, p) else Some (true, with_pages (insert_page iPage (GetObjNum pPageDict)) p)
  end.

Definition CreateNewPage (fuel : nat) (iPage : Z) (p : CPDF_Parser) : option (option pointer * CPDF_Parser) :=
  let '(dwObjNum, p) := AddIndirectObject (CPDF_Dictionary []) p in
  let pDict := (dwObjNum, []) in
  let p := SetNewFor pDict (bs "Type") (CPDF_Name (bs "Page")) p in
  '(ok, p) ← InsertNewPage fuel iPage pDict p;
  if negb ok then Some (None, DeleteIndirectObject dwObjNum p) else Some (Some pDict, p).

Definition DeletePage (fuel : nat) (iPage : Z) (p : CPDF_Parser) : option CPDF_Parser :=
  let '(pPages, p) := GetPagesDict p in
  match pPages with
  | None => Some p
  | Some pPages =>
      let '(nPages, p) := GetIntegerFor pPages (bs "Count") p in
      if (iPage <? 0) || (nPages <=? iPage) then Some p
      else
        '(ok, p) ← InsertDeletePDFPage fuel pPages iPage pPages false [pPages] p;
        if negb ok then Some p
        else if iPage <? GetPageCount p then Some (with_pages (delete (Z.to_nat iPage)) p) else None
  end.

Definition CreateNewDoc (p : CPDF_Parser) : CPDF_Parser :=
  let '(root, p) := AddIndirectObject (CPDF_Dictionary []) p in
  let p := SetNewFor (root, []) (bs "Type") (CPDF_Name (bs "Catalog")) (with_root (Some (root, [])) p) in
  let '(n, p) := AddIndirectObject (CPDF_Dictionary []) p in
  let p := SetNewFor (n, []) (bs "Type") (CPDF_Name (bs "Pages")) p in
  let p := SetNewFor (n, []) (bs "Count") (number 0) p in
  let p := SetNewFor (n, []) (bs "Kids") (CPDF_Array []) p in
  let p := SetNewFor (root, []) (bs "Pages") (CPDF_Reference n) p in
  let '(info, p) := AddIndirectObject (CPDF_Dictionary []) p in
  with_info (Some (info, [])) p.

(** A document that was made has no parser. *)
Definition GetInfo (has_parser : bool) (p : CPDF_Parser) : option pointer * CPDF_Parser :=
  match m_pInfoDict (m_Document p) with
  | Some q => (Some q, p)
  | None =>
      if negb has_parser || (GetInfoObjNum p =? 0) then (None, p)
      else let '(q, p) := dictionary_of (GetInfoObjNum p) p in (q, with_info q p)
  end.

(** ** Loading *)

(** [m_PageList.resize] *)
Definition resize_pages (n : Z) : CPDF_Parser → CPDF_Parser := with_pages (resize (Z.to_nat n) 0).

Definition LoadPages (fuel : nat) (linearized_header : option CPDF_LinearizedHeader) (p : CPDF_Parser) : option CPDF_Parser :=
  let count_pages p := '(count, p) ← RetrievePageCount fuel p; Some (resize_pages count p) in
  match linearized_header with
  | None => count_pages p
  | Some h =>
      let objnum := m_FirstPageObjNum h in
      let '(o, p) := lookup_object objnum p in
      if negb (IsValidPageObject o) then count_pages p
      else SetPageObjNum (m_dwFirstPageNo h) objnum (resize_pages (m_PageCount h) p)
  end.

(** [m_pRootDict.Reset(pRootObj->GetDict())] *)
Definition dict_of_object (n : Z) (p : CPDF_Parser) : option pointer * CPDF_Parser :=
  let '(o, p) := lookup_object n p in
  match o with
  | Some (CPDF_Reference k) =>
      let '(o, p) := lookup_object k p in
      (match o with
       | Some (CPDF_Dictionary _) => Some (k, [])
       | Some (CPDF_Stream _ _) => Some (k, [OfStream])
       | _ => None
       end, p)
  | Some (CPDF_Dictionary _) => (Some (n, []), p)
  | Some (CPDF_Stream _ _) => (Some (n, [OfStream]), p)
  | _ => (None, p)
  end.

Definition TryInit (fuel : nat) (linearized_header : option CPDF_LinearizedHeader) (p : CPDF_Parser) : option (bool * CPDF_Parser) :=
  let p := with_holder (m_IndirectObjs p) (GetLastObjNum p) p in
  let '(pRootObj, p) := lookup_object (GetRootObjNum p) p in
  let p := match pRootObj with
           | Some _ => let '(root, p) := dict_of_object (GetRootObjNum p) p in with_root root p
           | None => p
           end in
  p ← LoadPages fuel linearized_header p;
  Some (bool_decide (is_Some (m_pRootDict (m_Document p))) && (0 <? GetPageCount p), p).
End document.

Definition HandleLoadResult (error : Error) (p : CPDF_Parser) : CPDF_Parser :=
  match error with SUCCESS => with_valid_table (negb (m_bXRefTableRebuilt p)) p | _ => p end.

(** [TryInit] as the parser calls it: it fails where it has no result. *)
Definition init_pages `{Inflate} (fuel : nat) (file : list Z) (hdr : Z) (h : option CPDF_LinearizedHeader) (p : CPDF_Parser) :
    bool * CPDF_Parser := default (false, p) (TryInit (H := file_holder file hdr) fuel h p).

Definition LoadDoc `{Inflate} (fuel : nat) (file password : list Z) : option (Error * CPDF_Parser) :=
  '(error, p) ← StartParse file password (λ hdr, init_pages fuel file hdr None); Some (error, HandleLoadResult error p).

Definition LoadLinearizedDoc `{Inflate} (fuel : nat) (file password : list Z) : option (Error * option CPDF_LinearizedHeader * CPDF_Parser) :=
  '(error, h, p) ← StartLinearizedParse file password (init_pages fuel file); Some (error, h, HandleLoadResult error p).
