(* ===== verification/ReadValidator.v ===== *)
(** * Files that arrive in pieces

    [CPDF_ReadValidator] ([core/fpdfapi/parser/cpdf_read_validator.cpp]): a file of
    which parts may be missing; a read of what is missing fails and asks for it.
    Which ranges are there ([CPDF_DataAvail::FileAvail]) and what a read of the
    stream returns are answered by the program that embeds the library. *)
From S2P Require Import Prelude Words Reader.

(** [FX_SAFE_FILESIZE], 64 bits, and [FX_SAFE_SIZE_T]. *)
Definition safe_filesize (z : Z) : option Z := if (- 2 ^ 63 <=? z) && (z <? 2 ^ 63) then Some z else None.
Definition safe_size (z : Z) : option Z := if (0 <=? z) && (z <? 2 ^ 64) then Some z else None.

Definition kAlignBlockValue : Z := kFileBufSize.

Definition AlignDown (offset : Z) : Z := if 0 <? offset then offset - offset mod kAlignBlockValue else 0.
Definition AlignUp (offset : Z) : Z := default offset (safe_filesize (AlignDown offset + kAlignBlockValue)).

(** The members that change; [hints_segments] is what [hints_->AddSegment] was
    called with, the last one first. *)
Record CPDF_ReadValidator := ReadValidator {
  read_error_ : bool;
  has_unavailable_data_ : bool;
  whole_file_already_available_ : bool;
  hints_segments : list (Z * Z);
}.
Definition validator_new : CPDF_ReadValidator := ReadValidator false false false [].

Definition has_read_problems (v : CPDF_ReadValidator) : bool := read_error_ v || has_unavailable_data_ v.
Definition ResetErrors (v : CPDF_ReadValidator) : CPDF_ReadValidator :=
  ReadValidator false false (whole_file_already_available_ v) (hints_segments v).
Definition with_unavailable (v : CPDF_ReadValidator) : CPDF_ReadValidator :=
  ReadValidator (read_error_ v) true (whole_file_already_available_ v) (hints_segments v).
Definition with_read_error (v : CPDF_ReadValidator) : CPDF_ReadValidator :=
  ReadValidator true (has_unavailable_data_ v) (whole_file_already_available_ v) (hints_segments v).
Definition with_whole_file (b : bool) (v : CPDF_ReadValidator) : CPDF_ReadValidator :=
  ReadValidator (read_error_ v) (has_unavailable_data_ v) b (hints_segments v).
Definition AddSegment (offset size : Z) (v : CPDF_ReadValidator) : CPDF_ReadValidator :=
  ReadValidator (read_error_ v) (has_unavailable_data_ v) (whole_file_already_available_ v) ((offset, size) :: hints_segments v).

(** [ScopedSession] *)
Definition session {A} (f : CPDF_ReadValidator → A * CPDF_ReadValidator) (v : CPDF_ReadValidator) : A * CPDF_ReadValidator :=
  let '(r, v') := f (ResetErrors v) in
  (r, ReadValidator (read_error_ v' || read_error_ v) (has_unavailable_data_ v' || has_unavailable_data_ v)
        (whole_file_already_available_ v') (hints_segments v')).

Section validator.
(** [file_avail_], [hints_] and the stream, now. *)
Context (file_size_ : Z) (file_avail_ : option (Z → Z → bool)) (hints_ : bool) (read_block : Z → Z → option (list Z)).

Definition ScheduleDownload (offset size : Z) (v : CPDF_ReadValidator) : CPDF_ReadValidator :=
  let v := with_unavailable v in
  if negb hints_ || (size =? 0) then v
  else
    let start_segment_offset := AlignDown offset in
    match safe_filesize (offset + size) with
    | None => v
    | Some end_segment_offset =>
        let end_segment_offset := Z.min file_size_ (AlignUp end_segment_offset) in
        match safe_size (end_segment_offset - start_segment_offset) with
        | None => v
        | Some segment_size => AddSegment start_segment_offset segment_size v
        end
    end.

Definition IsDataRangeAvailable (offset size : Z) (v : CPDF_ReadValidator) : bool :=
  whole_file_already_available_ v || match file_avail_ with None => true | Some avail => avail offset size end.

Definition ReadBlockAtOffset (offset size : Z) (v : CPDF_ReadValidator) : option (list Z) * CPDF_ReadValidator :=
  match safe_filesize (offset + size) with
  | None => (None, v)
  | Some end_offset =>
      if file_size_ <? end_offset then (None, v)
      else if negb (IsDataRangeAvailable offset size v) then (None, ScheduleDownload offset size v)
      else
        match read_block offset size with
        | Some data => (Some data, v)
        | None => (None, ScheduleDownload offset size (with_read_error v))
        end
  end.

Definition IsWholeFileAvailable (v : CPDF_ReadValidator) : bool * CPDF_ReadValidator :=
  let b := whole_file_already_available_ v ||
           match safe_size file_size_ with Some size => IsDataRangeAvailable 0 size v | None => false end in
  (b, with_whole_file b v).

Definition CheckDataRangeAndRequestIfUnavailable (offset size : Z) (v : CPDF_ReadValidator) : bool * CPDF_ReadValidator :=
  if file_size_ <? offset then (true, v)
  else
    match safe_filesize (offset + size) ≫= λ e, safe_filesize (e + kFileBufSize) with
    | None => (false, v)
    | Some end_segment_offset =>
        match safe_size (Z.min file_size_ end_segment_offset - offset) with
        | None => (false, v)
        | Some segment_size =>
            if IsDataRangeAvailable offset segment_size v then (true, v) else (false, ScheduleDownload offset segment_size v)
        end
    end.

Definition CheckWholeFileAndRequestIfUnavailable (v : CPDF_ReadValidator) : bool * CPDF_ReadValidator :=
  let '(b, v) := IsWholeFileAvailable v in
  if b then (true, v)
  else (false, match safe_size file_size_ with Some size => ScheduleDownload 0 size v | None => v end).
End validator.

(** ** What is asked for *)

(** [avail] answers for all of the segments. *)
Definition serves (avail : Z → Z → bool) (segments : list (Z * Z)) : Prop :=
  ∀ o s, (o, s) ∈ segments → ∀ a n, 0 <= n → o <= a → a + n <= o + s → avail a n = true.

Lemma AlignDown_spec o : 0 <= o → 0 <= AlignDown o <= o ∧ o < AlignDown o + 512 ∧ AlignDown o mod 512 = 0.
Proof.
  intros Ho. unfold AlignDown, kAlignBlockValue, kFileBufSize. destruct (Z.ltb_spec 0 o); [|split_and!; [lia..|done]].
  pose proof (Z.mod_pos_bound o 512 ltac:(lia)). pose proof (Z.mod_le o 512). split_and!; [lia..|].
  by rewrite Zminus_mod_idemp_r, Z.sub_diag.
Qed.

Lemma AlignUp_spec o : 0 <= o < 2 ^ 62 → o < AlignUp o <= o + 512 ∧ AlignUp o mod 512 = 0.
Proof.
  intros Ho. unfold AlignUp. destruct (AlignDown_spec o ltac:(lia)) as (H1 & H2 & H3). unfold kAlignBlockValue, kFileBufSize, safe_filesize.
  replace (_ && _) with true by lia. cbn [default from_option id]. split; [lia|]. rewrite Z.add_mod, H3 by lia. done.
Qed.

Section checks.
Context (file_size : Z) (avail : Z → Z → bool).
Notation Check := (CheckDataRangeAndRequestIfUnavailable file_size (Some avail) true).
Hypothesis Hsize : 0 <= file_size < 2 ^ 60.

(** The segment that is asked for covers the range. *)
Lemma ScheduleDownload_covers o n v : 0 <= o → 0 < n → o + n <= file_size →
  ∃ start size, ScheduleDownload file_size true o n v = AddSegment start size (with_unavailable v) ∧
    0 <= start <= o ∧ start mod 512 = 0 ∧ o + n <= start + size <= file_size.
Proof.
  intros Ho Hn Hle. unfold ScheduleDownload. cbn [negb orb]. replace (n =? 0) with false by lia. unfold safe_filesize at 1.
  replace (_ && _) with true by lia. destruct (AlignDown_spec o Ho) as (D1 & D2 & D3). destruct (AlignUp_spec (o + n) ltac:(lia)) as (U1 & U2).
  unfold safe_size. replace (_ && _) with true by lia. eexists _, _. split; [done|]. split_and!; [lia..|done|lia|lia].
Qed.

Lemma check_result o n v : 0 <= o → 0 <= n < 2 ^ 60 →
  let '(ok, v') := Check o n v in
  let len := Z.min file_size (o + n + 512) - o in
  if ok then v' = v ∧ (file_size < o ∨ whole_file_already_available_ v = true ∨ avail o len = true)
  else o <= file_size ∧ avail o len = false ∧ whole_file_already_available_ v' = false ∧
    (0 < len → ∃ start size, v' = AddSegment start size (with_unavailable v) ∧ 0 <= start <= o ∧ start mod 512 = 0 ∧ o + len <= start + size <= file_size).
Proof.
  intros Ho Hn. unfold CheckDataRangeAndRequestIfUnavailable. destruct (Z.ltb_spec file_size o) as [|Hle]; [by split; [|left]|].
  unfold safe_filesize, kFileBufSize. replace (_ && _) with true by lia. cbn [mbind option_bind]. replace (_ && _) with true by lia.
  unfold safe_size. replace (_ && _) with true by lia. set (len := Z.min _ _ - o). unfold IsDataRangeAvailable.
  destruct (whole_file_already_available_ v) eqn:Ew; cbn [orb]; [by split; [|auto]|].
  destruct (avail o len) eqn:Ea; [by split; [|auto]|]. split; [done|]. split; [done|]. split.
  { unfold ScheduleDownload. destruct (_ || _); [done|]. destruct (safe_filesize _); [|done]. by destruct (safe_size _). }
  intros Hlen. apply ScheduleDownload_covers; lia.
Qed.
End checks.

(** C38: a range that is missing is asked for once: when
    [CheckDataRangeAndRequestIfUnavailable] fails, it has added one segment, within
    the file and aligned to blocks, and as soon as the data of this segment have
    arrived the same check succeeds. *)
Theorem request_is_enough file_size avail o n v v' :
  0 <= file_size < 2 ^ 60 → 0 <= o < file_size → 0 <= n < 2 ^ 60 →
  CheckDataRangeAndRequestIfUnavailable file_size (Some avail) true o n v = (false, v') →
  ∃ start size, hints_segments v' = (start, size) :: hints_segments v ∧ start mod 512 = 0 ∧ 0 <= start ∧ start + size <= file_size ∧
    ∀ avail', serves avail' (hints_segments v') →
      CheckDataRangeAndRequestIfUnavailable file_size (Some avail') true o n v' = (true, v').
Proof.
  intros Hf Ho Hn E. pose proof (check_result file_size avail Hf o n v ltac:(lia) Hn) as Hc. rewrite E in Hc.
  destruct Hc as (Hle & Ha & Hw & Hseg). destruct Hseg as (start & size & -> & Hs1 & Hs2 & Hs3); [lia|]. exists start, size.
  split; [done|]. split; [done|]. split; [lia|]. split; [lia|]. intros avail' Hs.
  pose proof (check_result file_size avail' Hf o n (AddSegment start size (with_unavailable v)) ltac:(lia) Hn) as Hc'.
  destruct (CheckDataRangeAndRequestIfUnavailable file_size (Some avail') true o n _) as [[] v2]; [by destruct Hc' as [-> _]|].
  destruct Hc' as (_ & Hf' & _). exfalso. rewrite (Hs start size) in Hf'; [done|cbn; apply list_elem_of_here|lia|lia|lia].
Qed.

(** Of 10000 bytes the first 2048 are there; 300 bytes at 3000 are asked for, with the
    512 bytes behind them. *)
Lemma request_is_enough_witness :
  let avail a n := a + n <=? 2048 in
  let v' := ReadValidator false true false [(2560, 1536)] in
  CheckDataRangeAndRequestIfUnavailable 10000 (Some avail) true 3000 300 validator_new = (false, v') ∧
  CheckDataRangeAndRequestIfUnavailable 10000 (Some (λ a n, a + n <=? 4096)) true 3000 300 v' = (true, v').
Proof.
  intros avail v'. split; [reflexivity|].
  destruct (request_is_enough 10000 avail 3000 300 validator_new v') as (start & size & E & _ & _ & _ & H); [lia..|reflexivity|].
  apply H. intros o s Hin. apply list_elem_of_singleton in Hin as [= -> ->]. intros. lia.
Defined.
