(* ===== verification/HintTables.v ===== *)
(** * Hint tables

    [CPDF_HintTables] ([core/fpdfapi/parser/cpdf_hint_tables.cpp]): where the pages
    of a linearized file and the objects that they share lie, read from a stream of
    bits.  A table that is not valid is dropped, so that only complete tables are
    kept. *)
From Stdlib Require Import String.
From S2P Require Import Prelude Words FxNumber Syntax Objects Dict Security CrossRef XRef DataDecode DocParser DocLoad Linearized BitStream ReadValidator PageTree.
Import String.StringSyntax.

(** [if (!b) return false;] *)
Local Notation "'ensure' b ; e" := (if (b : bool) then e else None) (at level 100, b at level 90, e at level 200, right associativity).

Record SharedObjGroupInfo := SharedGroup {
  sg_szOffset : Z;
  sg_dwLength : Z;
  sg_dwObjectsCount : Z;
  sg_dwStartObjNum : Z;
}.

Record PageInfo := Page {
  pi_dwObjectsCount : Z;
  pi_szOffset : Z;
  pi_dwLength : Z;
  pi_dwStartObjNum : Z;
  pi_dwIdentifierArray : list Z;
}.
Definition page_new : PageInfo := Page 0 0 0 0 [].

Definition set_objects_count n p := Page n (pi_szOffset p) (pi_dwLength p) (pi_dwStartObjNum p) (pi_dwIdentifierArray p).
Definition set_page_offset o p := Page (pi_dwObjectsCount p) o (pi_dwLength p) (pi_dwStartObjNum p) (pi_dwIdentifierArray p).
Definition set_page_length n p := Page (pi_dwObjectsCount p) (pi_szOffset p) n (pi_dwStartObjNum p) (pi_dwIdentifierArray p).
Definition set_start_obj_num n p := Page (pi_dwObjectsCount p) (pi_szOffset p) (pi_dwLength p) n (pi_dwIdentifierArray p).
Definition AddIdentifiers l p := Page (pi_dwObjectsCount p) (pi_szOffset p) (pi_dwLength p) (pi_dwStartObjNum p) (pi_dwIdentifierArray p ++ l).

Record CPDF_HintTables := Hints {
  m_nFirstPageSharedObjs : Z;
  m_szFirstPageObjOffset : Z;
  m_PageInfos : list PageInfo;
  m_SharedObjGroupInfos : list SharedObjGroupInfo;
}.

Definition CanReadFromBitStream (hStream : CFX_BitStream) (bits : option Z) : bool :=
  match bits with Some bits => bits <=? BitsRemaining hStream | None => false end.
Definition IsValidPageOffsetHintTableBitCount (bits : Z) : bool := (0 <? bits) && (bits <=? 32).

Section tables.
Context (m_pLinearized : CPDF_LinearizedHeader).

Definition HintsOffsetToFileOffset (hints_offset : Z) : Z :=
  if m_szHintStart m_pLinearized <=? hints_offset
  then default 0 (safe_filesize (hints_offset + m_HintLength m_pLinearized)) else hints_offset.

(** ** The page offset hint table

    The loops over the pages, from page [i] on. *)
Fixpoint objects_loop (n i : nat) (dwDeltaObjectsBits dwObjLeastNum dwStartObjNum : Z) (infos : list PageInfo) (s : CFX_BitStream) :
    option (list PageInfo * CFX_BitStream) :=
  match n with
  | O => Some (infos, s)
  | S n' =>
      let '(delta, s) := GetBits dwDeltaObjectsBits s in
      count ← safe_u32 (delta + dwObjLeastNum);
      let infos := alter (set_objects_count count) i infos in
      if Z.of_nat i =? m_dwFirstPageNo m_pLinearized then objects_loop n' (S i) dwDeltaObjectsBits dwObjLeastNum dwStartObjNum infos s
      else objects_loop n' (S i) dwDeltaObjectsBits dwObjLeastNum (u32 (dwStartObjNum + count)) (alter (set_start_obj_num dwStartObjNum) i infos) s
  end.

Fixpoint lengths_loop (n i : nat) (dwDeltaPageLenBits dwPageLeastLen : Z) (infos : list PageInfo) (s : CFX_BitStream) :
    option (list PageInfo * CFX_BitStream) :=
  match n with
  | O => Some (infos, s)
  | S n' =>
      let '(delta, s) := GetBits dwDeltaPageLenBits s in
      len ← safe_u32 (delta + dwPageLeastLen);
      lengths_loop n' (S i) dwDeltaPageLenBits dwPageLeastLen (alter (set_page_length len) i infos) s
  end.

(** At most 2^20 lengths of 32 bits: the 64-bit sum does not overflow. *)
Fixpoint offsets_loop (n i : nat) (prev_page_end : Z) (infos : list PageInfo) : list PageInfo :=
  match n with
  | O => infos
  | S n' =>
      if Z.of_nat i =? m_dwFirstPageNo m_pLinearized then offsets_loop n' (S i) prev_page_end infos
      else
        let len := match infos !! i with Some p => pi_dwLength p | None => 0 end in
        offsets_loop n' (S i) (prev_page_end + len) (alter (set_page_offset prev_page_end) i infos)
  end.

(** [n] numbers of [bits] bits. *)
Fixpoint read_numbers (n : nat) (bits : Z) (s : CFX_BitStream) : list Z * CFX_BitStream :=
  match n with
  | O => ([], s)
  | S n' => let '(x, s) := GetBits bits s in let '(l, s) := read_numbers n' bits s in (x :: l, s)
  end.

Fixpoint identifiers_loop (i : nat) (dwSharedIdBits : Z) (dwNSharedObjsArray : list Z) (infos : list PageInfo) (s : CFX_BitStream) :
    option (list PageInfo * CFX_BitStream) :=
  match dwNSharedObjsArray with
  | [] => Some (infos, s)
  | n :: rest =>
      if negb (CanReadFromBitStream s (safe_u32 (dwSharedIdBits * n))) then None
      else
        let '(l, s) := read_numbers (Z.to_nat n) dwSharedIdBits s in
        identifiers_loop (S i) dwSharedIdBits rest (alter (AddIdentifiers l) i infos) s
  end.

Fixpoint numerators_loop (dwSharedNumeratorBits : Z) (dwNSharedObjsArray : list Z) (s : CFX_BitStream) : option CFX_BitStream :=
  match dwNSharedObjsArray with
  | [] => Some s
  | n :: rest =>
      let size := safe_u32 (n * dwSharedNumeratorBits) in
      if negb (CanReadFromBitStream s size) then None else numerators_loop dwSharedNumeratorBits rest (SkipBits (default 0 size) s)
  end.

Definition ReadPageHintTable (s : CFX_BitStream) : option (CPDF_HintTables * CFX_BitStream) :=
  let nPages := m_PageCount m_pLinearized in
  let nFirstPageNum := m_dwFirstPageNo m_pLinearized in
  let n := Z.to_nat nPages in
  ensure (1 <=? nPages) && (nPages <? kPageMaxNum);
  ensure nFirstPageNum <? nPages;
  ensure negb (IsEOF s) && (288 <=? BitsRemaining s);
  let '(dwObjLeastNum, s) := GetBits 32 s in
  ensure negb (dwObjLeastNum =? 0);
  let '(loc, s) := GetBits 32 s in
  let szFirstObjLoc := HintsOffsetToFileOffset loc in
  ensure negb (szFirstObjLoc =? 0);
  let '(dwDeltaObjectsBits, s) := GetBits 16 s in
  ensure IsValidPageOffsetHintTableBitCount dwDeltaObjectsBits;
  let '(dwPageLeastLen, s) := GetBits 32 s in
  ensure negb (dwPageLeastLen =? 0);
  let '(dwDeltaPageLenBits, s) := GetBits 16 s in
  ensure IsValidPageOffsetHintTableBitCount dwDeltaPageLenBits;
  let '(dwSharedObjBits, s) := GetBits 16 (SkipBits 96 s) in
  ensure IsValidPageOffsetHintTableBitCount dwSharedObjBits;
  let '(dwSharedIdBits, s) := GetBits 16 s in
  ensure IsValidPageOffsetHintTableBitCount dwSharedIdBits;
  let '(dwSharedNumeratorBits, s) := GetBits 16 s in
  ensure dwSharedNumeratorBits <=? 32;
  let s := SkipBits 16 s in
  ensure CanReadFromBitStream s (safe_u32 (dwDeltaObjectsBits * nPages));
  let infos := alter (set_start_obj_num (m_FirstPageObjNum m_pLinearized)) (Z.to_nat nFirstPageNum) (replicate n page_new) in
  '(infos, s) ← objects_loop n 0 dwDeltaObjectsBits dwObjLeastNum 1 infos s;
  let s := ByteAlign s in
  ensure CanReadFromBitStream s (safe_u32 (dwDeltaPageLenBits * nPages));
  '(infos, s) ← lengths_loop n 0 dwDeltaPageLenBits dwPageLeastLen infos s;
  let infos := alter (set_page_offset szFirstObjLoc) (Z.to_nat nFirstPageNum) infos in
  let infos := offsets_loop n 0 (m_szFirstPageEndOffset m_pLinearized) infos in
  let s := ByteAlign s in
  ensure CanReadFromBitStream s (safe_u32 (dwSharedObjBits * nPages));
  let '(dwNSharedObjsArray, s) := read_numbers n dwSharedObjBits s in
  '(infos, s) ← identifiers_loop 0 dwSharedIdBits dwNSharedObjsArray infos (ByteAlign s);
  let s := ByteAlign s in
  s ← (if dwSharedNumeratorBits =? 0 then Some s
       else s ← numerators_loop dwSharedNumeratorBits dwNSharedObjsArray s; Some (ByteAlign s));
  let total := safe_u32 (nPages * dwDeltaPageLenBits) in
  ensure CanReadFromBitStream s total;
  Some (Hints 0 szFirstObjLoc infos [], ByteAlign (SkipBits (default 0 total) s)).

(** ** The shared object hint table *)

(** The lengths of the groups; [prev] is [prev_shared_group_end_offset]. *)
Fixpoint groups_loop (n i : nat) (dwDeltaGroupLen dwGroupLeastLen szFirstSharedObjLoc first prev : Z) (s : CFX_BitStream) :
    option (list SharedObjGroupInfo * CFX_BitStream) :=
  match n with
  | O => Some ([], s)
  | S n' =>
      let prev := if Z.of_nat i =? first then szFirstSharedObjLoc else prev in
      let '(delta, s) := GetBits dwDeltaGroupLen s in
      len ← safe_u32 (delta + dwGroupLeastLen);
      next ← safe_filesize (prev + len);
      '(l, s) ← groups_loop n' (S i) dwDeltaGroupLen dwGroupLeastLen szFirstSharedObjLoc first next s;
      Some (SharedGroup prev len 0 0 :: l, s)
  end.

(** The numbers of the objects. *)
Fixpoint numbers_loop (groups : list SharedObjGroupInfo) (i : nat) (dwSharedObjNumBits dwFirstSharedObjNum first cur_obj_num : Z)
    (s : CFX_BitStream) : option (list SharedObjGroupInfo * CFX_BitStream) :=
  match groups with
  | [] => Some ([], s)
  | g :: groups' =>
      let cur_obj_num := if Z.of_nat i =? first then dwFirstSharedObjNum else cur_obj_num in
      let '(count, s) := if dwSharedObjNumBits =? 0 then (0, s) else GetBits dwSharedObjNumBits s in
      obj_count ← safe_u32 (count + 1);
      next ← safe_u32 (cur_obj_num + obj_count);
      '(l, s) ← numbers_loop groups' (S i) dwSharedObjNumBits dwFirstSharedObjNum first next s;
      Some (SharedGroup (sg_szOffset g) (sg_dwLength g) obj_count cur_obj_num :: l, s)
  end.

Definition ReadSharedObjHintTable (t : CPDF_HintTables) (offset : Z) (s : CFX_BitStream) : option (CPDF_HintTables * CFX_BitStream) :=
  ensure negb (IsEOF s);
  bit_offset ← safe_u32 (offset * 8);
  ensure m_BitPos s <=? bit_offset;
  let s := SkipBits (bit_offset - m_BitPos s) s in
  ensure 192 <=? BitsRemaining s;
  let '(dwFirstSharedObjNum, s) := GetBits 32 s in
  ensure negb (dwFirstSharedObjNum =? 0);
  let '(loc, s) := GetBits 32 s in
  let szFirstSharedObjLoc := HintsOffsetToFileOffset loc in
  ensure negb (szFirstSharedObjLoc =? 0);
  let '(nFirstPageSharedObjs, s) := GetBits 32 s in
  let '(dwSharedObjTotal, s) := GetBits 32 s in
  let '(dwSharedObjNumBits, s) := GetBits 16 s in
  ensure dwSharedObjNumBits <=? 32;
  let '(dwGroupLeastLen, s) := GetBits 32 s in
  let '(dwDeltaGroupLen, s) := GetBits 16 s in
  ensure IsValidPageOffsetHintTableBitCount dwDeltaGroupLen;
  ensure (dwFirstSharedObjNum <? kMaxObjectNumber) && (nFirstPageSharedObjs <? kMaxObjectNumber) && (dwSharedObjTotal <? kMaxObjectNumber);
  ensure CanReadFromBitStream s (safe_u32 (dwSharedObjTotal * dwDeltaGroupLen));
  let n := Z.to_nat dwSharedObjTotal in
  let dwLastSharedObj := dwSharedObjTotal - 1 in
  ensure (dwSharedObjTotal =? 0) || (dwLastSharedObj <=? nFirstPageSharedObjs) ||
        bool_decide (is_Some (safe_u32 (dwFirstSharedObjNum + (dwLastSharedObj - nFirstPageSharedObjs))));
  '(groups, s) ← groups_loop n 0 dwDeltaGroupLen dwGroupLeastLen szFirstSharedObjLoc nFirstPageSharedObjs (m_szFirstPageObjOffset t) s;
  let '(flags, s) := read_numbers n 1 (ByteAlign s) in
  let signature_count := foldr Z.add 0 flags in
  let s := ByteAlign s in
  let bits := safe_u32 (signature_count * 128) in
  s ← (if signature_count =? 0 then Some s
       else if CanReadFromBitStream s bits then Some (ByteAlign (SkipBits (default 0 bits) s)) else None);
  '(groups, s) ← numbers_loop groups 0 dwSharedObjNumBits dwFirstSharedObjNum nFirstPageSharedObjs (m_FirstPageObjNum m_pLinearized) s;
  Some (Hints nFirstPageSharedObjs (m_szFirstPageObjOffset t) (m_PageInfos t) groups, ByteAlign s).

(** ** Both *)

(** [data] is what [LoadAllDataFiltered] gives. *)
Definition LoadHintStream (pDict : dict) (data : list Z) : option CPDF_HintTables :=
  ensure HasHintTable m_pLinearized;
  match GetObjectFor (bs "S") pDict with
  | Some (CPDF_Number n) =>
      let shared_hint_table_offset := GetSigned n in
      let size := u32 (zlen data) in
      ensure 0 <? shared_hint_table_offset;
      ensure 60 <=? size;
      offset ← safe_u32 shared_hint_table_offset;
      ensure offset <=? size;
      '(t, s) ← ReadPageHintTable (bits_of (take (Z.to_nat size) data));
      '(t, _) ← ReadSharedObjHintTable t offset s;
      Some t
  | _ => None
  end.

(** ** Questions *)

(** The position, the length and the object number of a page; [None] is an index
    out of [m_PageInfos]. *)
Definition GetPagePos (t : CPDF_HintTables) (index : Z) : option (option (Z * Z * Z)) :=
  if m_PageCount m_pLinearized <=? index then Some None
  else p ← m_PageInfos t !! Z.to_nat index; Some (Some (pi_szOffset p, pi_dwLength p, pi_dwStartObjNum p)).

Inductive DocAvailStatus := kDataError | kDataNotAvailable | kDataAvailable.

Section check.
Context (file_size : Z) (avail : option (Z → Z → bool)) (hints : bool).
Notation CheckRange := (CheckDataRangeAndRequestIfUnavailable file_size avail hints).

Fixpoint check_groups (groups : list SharedObjGroupInfo) (ids : list Z) (v : CPDF_ReadValidator) : DocAvailStatus * CPDF_ReadValidator :=
  match ids with
  | [] => (kDataAvailable, v)
  | dwIndex :: ids' =>
      match groups !! Z.to_nat dwIndex with
      | None => check_groups groups ids' v
      | Some g =>
          if (sg_szOffset g =? 0) || (sg_dwLength g =? 0) then (kDataError, v)
          else
            let '(ok, v) := CheckRange (sg_szOffset g) (sg_dwLength g) v in
            if (ok : bool) then check_groups groups ids' v else (kDataNotAvailable, v)
      end
  end.

Definition CheckPage (t : CPDF_HintTables) (index : Z) (v : CPDF_ReadValidator) : option (DocAvailStatus * CPDF_ReadValidator) :=
  if index =? m_dwFirstPageNo m_pLinearized then Some (kDataAvailable, v)
  else if m_PageCount m_pLinearized <=? index then Some (kDataError, v)
  else
    p ← m_PageInfos t !! Z.to_nat index;
    if pi_dwLength p =? 0 then Some (kDataError, v)
    else
      let '(ok, v) := CheckRange (pi_szOffset p) (pi_dwLength p) v in
      Some (if (ok : bool) then check_groups (m_SharedObjGroupInfos t) (pi_dwIdentifierArray p) v else (kDataNotAvailable, v)).
End check.
End tables.

(** [CPDF_HintTables::Parse] *)
Definition ParseHintTables `{Inflate} (file : list Z) (hdr : Z) (avail : option (Z → Z → bool)) (hints : bool)
    (pLinearized : CPDF_LinearizedHeader) (s : syntax) (v : CPDF_ReadValidator) : option CPDF_HintTables * syntax * CPDF_ReadValidator :=
  if (m_PageCount pLinearized <=? 1) || negb (HasHintTable pLinearized) then (None, s, v)
  else
    let '(ok, v) := CheckDataRangeAndRequestIfUnavailable (zlen file) avail hints (m_szHintStart pLinearized) (m_HintLength pLinearized) v in
    if negb ok then (None, s, v)
    else
      let '(o, s) := indirect_object file hdr (λ _, None) kLoose (SetPos file (m_szHintStart pLinearized) s) in
      (match o with
       | Some (_, _, CPDF_Stream d raw) => LoadHintStream pLinearized d (LoadAllDataFiltered (λ _, None) d raw)
       | _ => None
       end, s, v).
