(* ===== verification/HintText.v ===== *)
(** * Hint tables as they are written

    The bits of the hint tables of a linearized file, as the format describes
    them, are read back. *)
From Stdlib Require Import String.
From S2P Require Import Prelude Words FxNumber Syntax Objects Dict Security CrossRef XRef DataDecode DocParser DocLoad Linearized BitStream ReadValidator PageTree HintTables.
Import String.StringSyntax.

(** ** Bits in bytes *)
Fixpoint pack (n : nat) (l : list bool) : list Z :=
  match n with O => [] | S n' => bits_value (take 8 l) :: pack n' (drop 8 l) end.

Lemma put_bits_low n v w : (∀ i, 0 <= i < Z.of_nat n → Z.testbit v i = Z.testbit w i) → put_bits n v = put_bits n w.
Proof. induction n as [|n IH]; intros H; [done|]. cbn. f_equal; [apply H; lia|]. apply IH. intros i Hi. apply H. lia. Qed.

Lemma put_bits_of_value l : put_bits (length l) (bits_value l) = l.
Proof.
  induction l as [|b l IH]; [done|]. cbn [length put_bits]. rewrite bits_value_cons. pose proof (bits_value_range l) as Hr. unfold zlen in *.
  assert (Hlow : ∀ i, 0 <= i < Z.of_nat (length l) → Z.testbit (Z.b2z b * 2 ^ Z.of_nat (length l) + bits_value l) i = Z.testbit (bits_value l) i).
  { intros i Hi. rewrite <-(Z.mod_pow2_bits_low _ (Z.of_nat (length l))), Z.add_comm, Z.mod_add by lia. by rewrite Z.mod_small. }
  f_equal; [|by rewrite (put_bits_low _ _ _ Hlow)].
  apply Z.b2z_inj. rewrite Z.testbit_spec' by lia. rewrite Z.add_comm, Z.div_add, Z.div_small by lia. by destruct b.
Qed.

Lemma stream_bits_pack n l : length l = (8 * n)%nat → stream_bits (pack n l) = l.
Proof.
  revert l. induction n as [|n IH]; intros l Hl; [by destruct l|]. cbn [pack stream_bits flat_map]. fold (stream_bits (pack n (drop 8 l))).
  rewrite IH by (rewrite length_drop; lia). assert (E : length (take 8 l) = 8%nat) by (rewrite length_take; lia). rewrite <-E at 1.
  rewrite put_bits_of_value. apply take_drop.
Qed.

Lemma pack_ok n l : length l = (8 * n)%nat → length (pack n l) = n ∧ bytes (pack n l).
Proof.
  revert l. induction n as [|n IH]; intros l Hl; [by split; [|constructor]|]. cbn [pack length].
  destruct (IH (drop 8 l)) as [H1 H2]; [rewrite length_drop; lia|]. split; [lia|]. constructor; [|done].
  pose proof (bits_value_range (take 8 l)) as Hr. unfold zlen in Hr. rewrite length_take in Hr. by replace (8 `min` length l)%nat with 8%nat in Hr by lia.
Qed.

(** A section of a table ends with a byte. *)
Definition padding (n : nat) : nat := ((8 - n mod 8) mod 8)%nat.
Definition pad8 (l : list bool) : list bool := l ++ replicate (padding (length l)) false.

Lemma pad8_length l : ∃ n, length (pad8 l) = (8 * n)%nat ∧ (8 * n = 8 * ((length l + 7) / 8))%nat.
Proof.
  unfold pad8, padding. rewrite length_app, length_replicate. exists ((length l + 7) / 8)%nat. split; [|done].
  pose proof (Nat.div_mod (length l + 7) 8 ltac:(lia)). pose proof (Nat.div_mod (length l) 8 ltac:(lia)).
  pose proof (Nat.mod_upper_bound (length l) 8 ltac:(lia)). pose proof (Nat.mod_upper_bound (length l + 7) 8 ltac:(lia)).
  destruct (decide (length l mod 8 = 0)%nat) as [E|E].
  - rewrite E. change ((8 - 0) mod 8)%nat with 0%nat. lia.
  - rewrite (Nat.mod_small (8 - length l mod 8)) by lia. lia.
Qed.

(** [s] stands before the bits [l]. *)
Record before (l : list bool) (s : CFX_BitStream) : Prop := {
  bf_ok : stream_ok s;
  bf_ahead : ahead s = l;
  bf_inside : m_BitPos s + zlen l = 8 * zlen (m_pData s);
}.

Lemma before_small l s : before l s → 0 <= m_BitPos s ∧ m_BitPos s + zlen l < 2 ^ 32.
Proof. intros [(_ & H & Hp) _ Hi]. lia. Qed.

Lemma before_skip a l s : before (a ++ l) s → before l (SkipBits (zlen a) s) ∧ m_BitPos (SkipBits (zlen a) s) = m_BitPos s + zlen a.
Proof.
  intros Hb. pose proof (before_small _ _ Hb) as Hs. destruct Hb as [Hok Ha Hi]. rewrite zlen_app in *. pose proof (zlen_nonneg l). pose proof (zlen_nonneg a).
  assert (Ep : m_BitPos (SkipBits (zlen a) s) = m_BitPos s + zlen a) by (apply skip_pos; [done|lia..]). split; [|done].
  constructor; [by apply skip_ok| |cbn [m_pData SkipBits at_bit] in *; lia]. apply (ahead_skip _ _ l a); [done..|lia].
Qed.

Lemma before_bits n v l s : (1 <= n <= 32)%nat → 0 <= v < 2 ^ Z.of_nat n → before (put_bits n v ++ l) s →
  ∃ s', GetBits (Z.of_nat n) s = (v, s') ∧ before l s' ∧ m_BitPos s' = m_BitPos s + Z.of_nat n.
Proof.
  intros Hn Hv Hb. destruct (GetBits_put n v s l (bf_ok _ _ Hb) Hn (bf_ahead _ _ Hb)) as (s' & E & -> & _). rewrite Z.mod_small in E by done.
  pose proof (before_skip (put_bits n v) l s Hb) as [H1 H2]. unfold zlen in H1, H2. rewrite length_put_bits in H1, H2. by eexists.
Qed.

Lemma before_remaining l s : before l s → BitsRemaining s = zlen l.
Proof.
  intros [Hok Ha Hi]. unfold BitsRemaining. rewrite size_bits by done. pose proof (zlen_nonneg l). destruct (Z.leb_spec (m_BitPos s) (8 * zlen (m_pData s))); lia.
Qed.

Lemma before_more l s : before l s → IsEOF s = bool_decide (l = []).
Proof.
  intros [Hok Ha Hi]. unfold IsEOF. rewrite size_bits by done. destruct l as [|b l].
  - rewrite bool_decide_eq_true_2 by done. rewrite zlen_nil in Hi. lia.
  - rewrite bool_decide_eq_false_2 by done. rewrite zlen_cons in Hi. pose proof (zlen_nonneg l). lia.
Qed.

(** Behind the section [a], from its padding to the next one. *)
Lemma before_align a l s pos : m_BitPos s = pos + zlen a → pos mod 8 = 0 → 0 <= pos → before (replicate (padding (length a)) false ++ l) s →
  before l (ByteAlign s) ∧ m_BitPos (ByteAlign s) = pos + zlen (pad8 a).
Proof.
  intros Hp H8 H0 Hb. pose proof (before_small _ _ Hb) as Hs. pose proof (bf_ok _ _ Hb) as Hok.
  assert (E : m_BitPos (ByteAlign s) = pos + zlen (pad8 a)).
  { destruct Hb as [_ _ Hi]. destruct Hok as (Hbytes & Hlen & Hpos). rewrite zlen_app in *.
    assert (Hle : m_BitPos s + 7 < 2 ^ 32).
    { pose proof (zlen_nonneg l). pose proof (zlen_nonneg (replicate (padding (length a)) false)). Z.div_mod_to_equations. lia. }
    rewrite align_pos by done. destruct (pad8_length a) as (n & E1 & E2). unfold zlen at 1. rewrite E1, E2, Hp. rewrite Nat2Z.inj_mul, Nat2Z.inj_div, Nat2Z.inj_add.
    fold (zlen a). change (Z.of_nat 8) with 8. change (Z.of_nat 7) with 7. clear -H8. Z.div_mod_to_equations. lia. }
  split; [|done]. constructor; [by apply align_ok| |].
  - unfold ahead. rewrite E. change (m_pData (ByteAlign s)) with (m_pData s). pose proof (bf_ahead _ _ Hb) as Ha. unfold ahead in Ha.
    unfold pad8. rewrite zlen_app, Z.add_assoc, <-Hp. pose proof (zlen_nonneg (replicate (padding (length a)) false)).
    rewrite Z2Nat.inj_add by lia. rewrite <-drop_drop, Ha. unfold zlen. by rewrite Nat2Z.id, drop_app_length.
  - rewrite E. change (m_pData (ByteAlign s)) with (m_pData s). destruct Hb as [_ _ Hi]. rewrite <-Hi, zlen_app, Hp. unfold pad8. rewrite zlen_app. lia.
Qed.

(** [s] stands at [pos], before the bits [l]. *)
Definition stands (l : list bool) (pos : Z) (s : CFX_BitStream) : Prop := before l s ∧ m_BitPos s = pos.

Lemma stands_bits n v l pos s : (1 <= n <= 32)%nat → 0 <= v < 2 ^ Z.of_nat n → stands (put_bits n v ++ l) pos s →
  ∃ s', GetBits (Z.of_nat n) s = (v, s') ∧ stands l (pos + Z.of_nat n) s'.
Proof. intros Hn Hv [Hb <-]. destruct (before_bits n v l s Hn Hv Hb) as (s' & E & H1 & H2). by exists s'. Qed.

Lemma stands_skip a l pos s n : zlen a = n → stands (a ++ l) pos s → stands l (pos + n) (SkipBits n s).
Proof. intros <- [Hb <-]. destruct (before_skip a l s Hb). by split. Qed.

Lemma stands_align a l pos s : pos mod 8 = 0 → 0 <= pos → stands (replicate (padding (length a)) false ++ l) (pos + zlen a) s →
  stands l (pos + zlen (pad8 a)) (ByteAlign s).
Proof. intros H8 H0 [Hb Hp]. by apply (before_align a l s pos Hp H8 H0 Hb). Qed.

Lemma pad8_mod a pos : pos mod 8 = 0 → 0 <= pos → (pos + zlen (pad8 a)) mod 8 = 0 ∧ 0 <= pos + zlen (pad8 a).
Proof.
  intros H8 H0. destruct (pad8_length a) as (n & E & _). unfold zlen. rewrite E. split; [|lia]. Z.div_mod_to_equations. lia.
Qed.

Lemma stands_can_read a l pos s bits : stands (a ++ l) pos s → zlen a = bits → CanReadFromBitStream s (safe_u32 bits) = true.
Proof.
  intros [Hb _] <-. pose proof (before_remaining _ _ Hb) as Hr. destruct (before_small _ _ Hb). rewrite zlen_app in *.
  pose proof (zlen_nonneg a). pose proof (zlen_nonneg l). unfold CanReadFromBitStream, safe_u32. replace (_ && _) with true by lia. lia.
Qed.

Lemma safe_u32_in z : 0 <= z < 2 ^ 32 → safe_u32 z = Some z.
Proof. intros Hz. unfold safe_u32. by replace (_ && _) with true by lia. Qed.

(** Numbers of the same width. *)
Notation put_all b := (flat_map (put_bits b)).

Lemma put_all_length b l : zlen (put_all b l) = Z.of_nat b * zlen l.
Proof.
  induction l as [|x l IH]; [unfold zlen; cbn; lia|]. cbn [flat_map]. rewrite zlen_app, IH, zlen_cons. unfold zlen at 1. rewrite length_put_bits. lia.
Qed.

Definition fit (b : nat) (x : Z) : Prop := 0 <= x < 2 ^ Z.of_nat b.

Lemma read_numbers_spec b l rest : (1 <= b <= 32)%nat → Forall (fit b) l → ∀ pos s,
  stands (put_all b l ++ rest) pos s → ∃ s', read_numbers (length l) (Z.of_nat b) s = (l, s') ∧ stands rest (pos + zlen (put_all b l)) s'.
Proof.
  intros Hb. induction 1 as [|x l Hx Hl IH]; intros pos s Hs; cbn [read_numbers length flat_map].
  { exists s. by rewrite zlen_nil, Z.add_0_r. }
  cbn [flat_map] in Hs. rewrite <-app_assoc in Hs. destruct (stands_bits b x _ pos s Hb Hx Hs) as (s1 & -> & H1).
  destruct (IH _ s1 H1) as (s2 & -> & H2). exists s2. split; [done|]. rewrite zlen_app. unfold zlen at 1. rewrite length_put_bits.
  by rewrite Z.add_assoc.
Qed.

(** ** Pages *)

(** A page: its objects, its bytes, the shared objects that it uses. *)
Record hint_page := HintPage { hp_objects : Z; hp_length : Z; hp_shared : list Z }.

(** The fields of the header. *)
Record page_header := PageHeader {
  ph_least_objects : Z;
  ph_location : Z;
  ph_objects_bits : nat;
  ph_least_length : Z;
  ph_length_bits : nat;
  ph_content : list bool;
  ph_shared_bits : nat;
  ph_id_bits : nat;
  ph_numerator_bits : nat;
  ph_denominator : list bool;
}.

Definition header_bits (h : page_header) : list bool :=
  put_bits 32 (ph_least_objects h) ++ put_bits 32 (ph_location h) ++ put_bits 16 (Z.of_nat (ph_objects_bits h)) ++
  put_bits 32 (ph_least_length h) ++ put_bits 16 (Z.of_nat (ph_length_bits h)) ++ ph_content h ++
  put_bits 16 (Z.of_nat (ph_shared_bits h)) ++ put_bits 16 (Z.of_nat (ph_id_bits h)) ++ put_bits 16 (Z.of_nat (ph_numerator_bits h)) ++
  ph_denominator h.

(** The table; [numerators] and [contents] are not used by the code. *)
Definition page_bits (h : page_header) (pages : list hint_page) (numerators contents : list bool) : list bool :=
  header_bits h ++
  pad8 (put_all (ph_objects_bits h) (map (λ p, hp_objects p - ph_least_objects h) pages)) ++
  pad8 (put_all (ph_length_bits h) (map (λ p, hp_length p - ph_least_length h) pages)) ++
  pad8 (put_all (ph_shared_bits h) (map (λ p, zlen (hp_shared p)) pages)) ++
  pad8 (flat_map (λ p, put_all (ph_id_bits h) (hp_shared p)) pages) ++
  (match ph_numerator_bits h with O => [] | _ => pad8 numerators end) ++
  pad8 contents.

(** The infos of the pages from page [i] on: the pages but the first one follow
    each other in the file, and so do the numbers of their objects. *)
Section layout.
Context (first : Z) (first_number first_location : Z) (len : hint_page → Z) (ids : hint_page → list Z).
Fixpoint layout (offsets : bool) (i : nat) (number offset : Z) (pages : list hint_page) : list PageInfo :=
  match pages with
  | [] => []
  | p :: rest =>
      if Z.of_nat i =? first then Page (hp_objects p) first_location (len p) first_number (ids p) :: layout offsets (S i) number offset rest
      else Page (hp_objects p) (if offsets then offset else 0) (len p) number (ids p) ::
           layout offsets (S i) (u32 (number + hp_objects p)) (offset + len p) rest
  end.
End layout.

Section loops.
Context (lin : CPDF_LinearizedHeader).
Notation first := (m_dwFirstPageNo lin).
Notation lay := (layout first (m_FirstPageObjNum lin)).

Fixpoint fresh (i n : nat) : list PageInfo :=
  match n with
  | O => []
  | S n' => (if Z.of_nat i =? first then set_start_obj_num (m_FirstPageObjNum lin) page_new else page_new) :: fresh (S i) n'
  end.

Lemma alter_middle {A} (f : A → A) l x r : alter f (length l) (l ++ x :: r) = l ++ f x :: r.
Proof. induction l as [|y l IH]; [done|]. cbn. by f_equal. Qed.

Lemma alter_next {A} (f : A → A) l x r i : i = length l → alter f i (l ++ x :: r) = l ++ f x :: r.
Proof. intros ->. apply alter_middle. Qed.

Lemma objects_loop_spec b least rest : (1 <= b <= 32)%nat → ∀ pages done_ number pos s offset,
  Forall (λ p, fit b (hp_objects p - least) ∧ 0 <= hp_objects p < 2 ^ 32) pages →
  stands (put_all b (map (λ p, hp_objects p - least) pages) ++ rest) pos s →
  ∃ s', objects_loop lin (length pages) (length done_) (Z.of_nat b) least number (done_ ++ fresh (length done_) (length pages)) s =
      Some (done_ ++ lay 0 (λ _, 0) (λ _, []) false (length done_) number offset pages, s') ∧
    stands rest (pos + zlen (put_all b (map (λ p, hp_objects p - least) pages))) s'.
Proof.
  intros Hb. induction pages as [|p pages IH]; intros done_ number pos s offset Hf Hs; cbn [objects_loop length map flat_map fresh layout].
  { exists s. by rewrite zlen_nil, Z.add_0_r. }
  apply Forall_cons in Hf as [[Hp Hp2] Hf]. cbn [map flat_map] in Hs. rewrite <-app_assoc in Hs.
  destruct (stands_bits b _ _ pos s Hb Hp Hs) as (s1 & -> & H1). rewrite Z.sub_add. unfold safe_u32. replace (_ && _) with true by lia. cbn [mbind option_bind].
  rewrite zlen_app. replace (zlen (put_bits b (hp_objects p - least))) with (Z.of_nat b) by (unfold zlen; by rewrite length_put_bits).
  rewrite Z.add_assoc. destruct (Z.of_nat (length done_) =? first).
  - rewrite (alter_next _ done_) by done. set (x := Page _ _ _ _ _).
    specialize (IH (done_ ++ [x]) number _ s1 offset Hf H1). rewrite length_app, Nat.add_1_r, <-!app_assoc in IH. exact IH.
  - rewrite !(alter_next _ done_) by done. set (x := Page _ _ _ _ _).
    specialize (IH (done_ ++ [x]) (u32 (number + hp_objects p)) _ s1 (offset + 0) Hf H1).
    rewrite length_app, Nat.add_1_r, <-!app_assoc in IH. exact IH.
Qed.

Lemma lengths_loop_spec b least rest : (1 <= b <= 32)%nat → ∀ pages done_ number pos s o1 o2,
  Forall (λ p, fit b (hp_length p - least) ∧ 0 <= hp_length p < 2 ^ 32) pages →
  stands (put_all b (map (λ p, hp_length p - least) pages) ++ rest) pos s →
  ∃ s', lengths_loop (length pages) (length done_) (Z.of_nat b) least (done_ ++ lay 0 (λ _, 0) (λ _, []) false (length done_) number o1 pages) s =
      Some (done_ ++ lay 0 hp_length (λ _, []) false (length done_) number o2 pages, s') ∧
    stands rest (pos + zlen (put_all b (map (λ p, hp_length p - least) pages))) s'.
Proof.
  intros Hb. induction pages as [|p pages IH]; intros done_ number pos s o1 o2 Hf Hs; cbn [lengths_loop length map flat_map layout].
  { exists s. by rewrite zlen_nil, Z.add_0_r. }
  apply Forall_cons in Hf as [[Hp Hp2] Hf]. cbn [map flat_map] in Hs. rewrite <-app_assoc in Hs.
  destruct (stands_bits b _ _ pos s Hb Hp Hs) as (s1 & -> & H1). rewrite Z.sub_add. unfold safe_u32. replace (_ && _) with true by lia. cbn [mbind option_bind].
  rewrite zlen_app. replace (zlen (put_bits b (hp_length p - least))) with (Z.of_nat b) by (unfold zlen; by rewrite length_put_bits).
  rewrite Z.add_assoc. destruct (Z.of_nat (length done_) =? first); rewrite (alter_next _ done_) by done; unfold set_page_length;
    cbn [pi_dwObjectsCount pi_szOffset pi_dwLength pi_dwStartObjNum pi_dwIdentifierArray]; set (x := Page _ _ _ _ _).
  - specialize (IH (done_ ++ [x]) number _ s1 o1 o2 Hf H1). rewrite length_app, Nat.add_1_r, <-!app_assoc in IH. exact IH.
  - specialize (IH (done_ ++ [x]) (u32 (number + hp_objects p)) _ s1 (o1 + 0) (o2 + hp_length p) Hf H1).
    rewrite length_app, Nat.add_1_r, <-!app_assoc in IH. exact IH.
Qed.

(** The first page's place. *)
Lemma layout_behind loc loc' len ids offs pages : ∀ i number o, first < Z.of_nat i →
  lay loc len ids offs i number o pages = lay loc' len ids offs i number o pages.
Proof.
  induction pages as [|p pages IH]; intros i number o Hi; cbn [layout]; [done|]. replace (_ =? _) with false by lia. f_equal. apply IH. lia.
Qed.

Lemma layout_first loc len ids pages : ∀ i number o, Z.of_nat i <= first →
  alter (set_page_offset loc) (Z.to_nat first - i)%nat (lay 0 len ids false i number o pages) = lay loc len ids false i number o pages.
Proof.
  induction pages as [|p pages IH]; intros i number o Hi; cbn [layout]; [done|]. destruct (Z.eqb_spec (Z.of_nat i) first) as [E|Hne].
  - replace (Z.to_nat first - i)%nat with 0%nat by lia. cbn. f_equal. apply layout_behind. lia.
  - replace (Z.to_nat first - i)%nat with (S (Z.to_nat first - S i)) by lia. cbn. f_equal. apply IH. lia.
Qed.

Lemma offsets_loop_spec loc ids pages : ∀ done_ number o prev,
  offsets_loop lin (length pages) (length done_) prev (done_ ++ lay loc hp_length ids false (length done_) number o pages) =
    done_ ++ lay loc hp_length ids true (length done_) number prev pages.
Proof.
  induction pages as [|p pages IH]; intros done_ number o prev; cbn [offsets_loop length layout]; [done|].
  destruct (Z.of_nat (length done_) =? first).
  - set (x := Page _ _ _ _ _). specialize (IH (done_ ++ [x]) number o prev). rewrite length_app, Nat.add_1_r, <-!app_assoc in IH. exact IH.
  - rewrite list_lookup_middle by done. rewrite (alter_next _ done_) by done. unfold set_page_offset.
    cbn [pi_dwObjectsCount pi_szOffset pi_dwLength pi_dwStartObjNum pi_dwIdentifierArray]. set (x := Page _ _ _ _ _).
    specialize (IH (done_ ++ [x]) (u32 (number + hp_objects p)) (o + hp_length p) (prev + hp_length p)).
    rewrite length_app, Nat.add_1_r, <-!app_assoc in IH. exact IH.
Qed.

Lemma identifiers_loop_spec b loc rest : (1 <= b <= 32)%nat → ∀ pages done_ number pos s o,
  Forall (λ p, Forall (fit b) (hp_shared p)) pages →
  stands (flat_map (λ p, put_all b (hp_shared p)) pages ++ rest) pos s →
  ∃ s', identifiers_loop (length done_) (Z.of_nat b) (map (λ p, zlen (hp_shared p)) pages) (done_ ++ lay loc hp_length (λ _, []) true (length done_) number o pages) s =
      Some (done_ ++ lay loc hp_length hp_shared true (length done_) number o pages, s') ∧
    stands rest (pos + zlen (flat_map (λ p, put_all b (hp_shared p)) pages)) s'.
Proof.
  intros Hb. induction pages as [|p pages IH]; intros done_ number pos s o Hf Hs; cbn [identifiers_loop map flat_map layout].
  { exists s. by rewrite zlen_nil, Z.add_0_r. }
  apply Forall_cons in Hf as [Hp Hf]. cbn [flat_map] in Hs. rewrite <-app_assoc in Hs.
  rewrite (stands_can_read _ _ _ _ _ Hs (put_all_length b (hp_shared p))). cbn [negb].
  destruct (read_numbers_spec b (hp_shared p) _ Hb Hp pos s Hs) as (s1 & E1 & H1). unfold zlen at 1. rewrite Nat2Z.id, E1.
  rewrite zlen_app, Z.add_assoc. destruct (Z.of_nat (length done_) =? first); rewrite (alter_next _ done_) by done; unfold AddIdentifiers;
    cbn [pi_dwObjectsCount pi_szOffset pi_dwLength pi_dwStartObjNum pi_dwIdentifierArray app]; set (x := Page _ _ _ _ _).
  - specialize (IH (done_ ++ [x]) number _ s1 o Hf H1). rewrite length_app, Nat.add_1_r, <-!app_assoc in IH. exact IH.
  - specialize (IH (done_ ++ [x]) (u32 (number + hp_objects p)) _ s1 (o + hp_length p) Hf H1).
    rewrite length_app, Nat.add_1_r, <-!app_assoc in IH. exact IH.
Qed.

Lemma numerators_loop_spec b rest : ∀ counts numerators pos s,
  Forall (λ n, 0 <= n) counts → zlen numerators = b * foldr Z.add 0 counts → 0 <= b → stands (numerators ++ rest) pos s →
  ∃ s', numerators_loop b counts s = Some s' ∧ stands rest (pos + zlen numerators) s'.
Proof.
  induction counts as [|n counts IH]; intros numerators pos s Hf Hlen Hb Hs; cbn [numerators_loop foldr] in *.
  { rewrite Z.mul_0_r in Hlen. destruct numerators; [|by rewrite zlen_cons in Hlen; pose proof (zlen_nonneg numerators); lia].
    exists s. by rewrite zlen_nil, Z.add_0_r. }
  apply Forall_cons in Hf as [Hn Hf].
  assert (Hsum : 0 <= foldr Z.add 0 counts) by (clear -Hf; induction Hf; cbn; lia).
  set (k := Z.to_nat (n * b)). assert (Ek : zlen (take k numerators) = n * b) by (unfold zlen in *; rewrite length_take; unfold k; nia).
  rewrite <-(take_drop k numerators), <-app_assoc in Hs. rewrite (stands_can_read _ _ _ _ _ Hs Ek). cbn [negb].
  assert (Es : default 0 (safe_u32 (n * b)) = n * b).
  { destruct (proj1 Hs) as [_ _ _]. destruct (before_small _ _ (proj1 Hs)) as [Hs1 Hs2]. rewrite zlen_app, Ek in Hs2.
    pose proof (zlen_nonneg (drop k numerators ++ rest)). unfold safe_u32. replace (_ && _) with true by nia. done. }
  rewrite Es. pose proof (stands_skip _ _ _ _ _ Ek Hs) as H1.
  assert (Hrest : zlen (drop k numerators) = b * foldr Z.add 0 counts) by (rewrite <-(take_drop k numerators), zlen_app, Ek in Hlen; lia).
  destruct (IH (drop k numerators) (pos + n * b) (SkipBits (n * b) s) Hf Hrest Hb H1) as (s2 & E2 & H2).
  exists s2. split; [exact E2|]. rewrite <-Z.add_assoc, <-Ek, <-(zlen_app (take k numerators)), take_drop in H2. exact H2.
Qed.
End loops.

Lemma stands_32 v l pos s : stands (put_bits 32 v ++ l) pos s → fit 32 v → ∃ s', GetBits 32 s = (v, s') ∧ stands l (pos + 32) s'.
Proof. intros Hs Hv. apply (stands_bits 32 v l pos s); [lia|done|done]. Qed.
Lemma stands_width b l pos s : stands (put_bits 16 (Z.of_nat b) ++ l) pos s → (b <= 32)%nat →
  ∃ s', GetBits 16 s = (Z.of_nat b, s') ∧ stands l (pos + 16) s'.
Proof. intros Hs Hb. apply (stands_bits 16 (Z.of_nat b) l pos s); [lia| |done]. lia. Qed.

(** The next field of a header. *)
Ltac read_field lem := lazymatch goal with
  | H : stands _ _ ?s |- context [GetBits _ ?s] => destruct (lem _ _ _ _ H ltac:(first [eassumption | lia])) as (?t & -> & ?Ht); clear H; cbv beta iota end.

Section pages.
Context (lin : CPDF_LinearizedHeader).

Definition page_ok (h : page_header) (p : hint_page) : Prop :=
  fit (ph_objects_bits h) (hp_objects p - ph_least_objects h) ∧ 0 <= hp_objects p < 2 ^ 32 ∧
  fit (ph_length_bits h) (hp_length p - ph_least_length h) ∧ 0 <= hp_length p < 2 ^ 32 ∧
  fit (ph_shared_bits h) (zlen (hp_shared p)) ∧ Forall (fit (ph_id_bits h)) (hp_shared p).

Record pages_ok (h : page_header) (pages : list hint_page) (numerators contents : list bool) : Prop := {
  po_count : m_PageCount lin = zlen pages;
  po_max : 1 <= zlen pages < kPageMaxNum;
  po_first : 0 <= m_dwFirstPageNo lin < zlen pages;
  po_least : fit 32 (ph_least_objects h) ∧ ph_least_objects h ≠ 0;
  po_location : fit 32 (ph_location h) ∧ HintsOffsetToFileOffset lin (ph_location h) ≠ 0;
  po_least_length : fit 32 (ph_least_length h) ∧ ph_least_length h ≠ 0;
  po_widths : Forall (λ b, 1 <= b <= 32)%nat [ph_objects_bits h; ph_length_bits h; ph_shared_bits h; ph_id_bits h];
  po_numerator : (ph_numerator_bits h <= 32)%nat;
  po_unused : zlen (ph_content h) = 96 ∧ zlen (ph_denominator h) = 16;
  po_pages : Forall (page_ok h) pages;
  po_numerators : zlen numerators = Z.of_nat (ph_numerator_bits h) * foldr Z.add 0 (map (λ p, zlen (hp_shared p)) pages);
  po_contents : zlen contents = zlen pages * Z.of_nat (ph_length_bits h);
}.

Definition page_infos (h : page_header) (pages : list hint_page) : list PageInfo :=
  layout (m_dwFirstPageNo lin) (m_FirstPageObjNum lin) (HintsOffsetToFileOffset lin (ph_location h)) hp_length hp_shared true 0 1
    (m_szFirstPageEndOffset lin) pages.

Lemma width_valid b : (1 <= b <= 32)%nat → IsValidPageOffsetHintTableBitCount (Z.of_nat b) = true.
Proof. intros Hb. unfold IsValidPageOffsetHintTableBitCount. lia. Qed.

Lemma fresh_behind n : ∀ i, m_dwFirstPageNo lin < Z.of_nat i → replicate n page_new = fresh lin i n.
Proof. induction n as [|n IH]; intros i Hi; cbn; [done|]. replace (_ =? _) with false by lia. f_equal. apply IH. lia. Qed.

Lemma fresh_infos n : ∀ i, Z.of_nat i <= m_dwFirstPageNo lin →
  alter (set_start_obj_num (m_FirstPageObjNum lin)) (Z.to_nat (m_dwFirstPageNo lin) - i)%nat (replicate n page_new) = fresh lin i n.
Proof.
  induction n as [|n IH]; intros i Hi; cbn [replicate fresh]; [done|]. destruct (Z.eqb_spec (Z.of_nat i) (m_dwFirstPageNo lin)) as [E|Hne].
  - replace (Z.to_nat (m_dwFirstPageNo lin) - i)%nat with 0%nat by lia. cbn. f_equal. apply fresh_behind. lia.
  - replace (Z.to_nat (m_dwFirstPageNo lin) - i)%nat with (S (Z.to_nat (m_dwFirstPageNo lin) - S i)) by lia. cbn. f_equal. apply IH. lia.
Qed.

Lemma next_section a l pos s : pos mod 8 = 0 ∧ 0 <= pos → stands (replicate (padding (length a)) false ++ l) (pos + zlen a) s →
  ((pos + zlen (pad8 a)) mod 8 = 0 ∧ 0 <= pos + zlen (pad8 a)) ∧ stands l (pos + zlen (pad8 a)) (ByteAlign s).
Proof. intros [H8 H0] Hs. split; [by apply pad8_mod|by apply stands_align]. Qed.

Lemma put_all_map_length {A} b (f : A → Z) l : zlen (put_all b (map f l)) = Z.of_nat b * zlen l.
Proof. rewrite put_all_length. unfold zlen. by rewrite length_map. Qed.

Lemma header_bits_length h : zlen (ph_content h) = 96 → zlen (ph_denominator h) = 16 → zlen (header_bits h) = 288.
Proof.
  intros Hc Hd. unfold header_bits. rewrite !zlen_app, Hc, Hd. unfold zlen. by rewrite !length_put_bits.
Qed.

Lemma numerators_spec b pages numerators rest pos s : (b <= 32)%nat →
  zlen numerators = Z.of_nat b * foldr Z.add 0 (map (λ p, zlen (hp_shared p)) pages) → pos mod 8 = 0 ∧ 0 <= pos →
  stands (match b with O => [] | S _ => pad8 numerators end ++ rest) pos s →
  let pos' := pos + zlen (match b with O => [] | S _ => pad8 numerators end) in
  (pos' mod 8 = 0 ∧ 0 <= pos') ∧
  ∃ s', (if Z.of_nat b =? 0 then Some s else s ← numerators_loop (Z.of_nat b) (map (λ p, zlen (hp_shared p)) pages) s; Some (ByteAlign s)) = Some s' ∧
    stands rest pos' s'.
Proof.
  intros Hb Hlen H8 Hs. destruct b as [|b]; cbv zeta.
  { rewrite zlen_nil, Z.add_0_r. split; [done|]. by exists s. }
  replace (Z.of_nat (S b) =? 0) with false by lia. set (c := Z.of_nat (S b)) in *. unfold pad8 at 1 in Hs. rewrite <-app_assoc in Hs.
  destruct (numerators_loop_spec c _ (map (λ p, zlen (hp_shared p)) pages) numerators _ _ ltac:(apply Forall_map, Forall_forall; intros p _; apply zlen_nonneg) Hlen ltac:(lia) Hs) as (s1 & -> & H1).
  apply (next_section _ _ _ _ H8) in H1 as [H8' H1]. split; [done|]. by eexists.
Qed.

Lemma page_table_spec h pages numerators contents rest s : pages_ok h pages numerators contents →
  stands (page_bits h pages numerators contents ++ rest) 0 s →
  ∃ s', ReadPageHintTable lin s = Some (Hints 0 (HintsOffsetToFileOffset lin (ph_location h)) (page_infos h pages) [], s') ∧
    stands rest (zlen (page_bits h pages numerators contents)) s'.
Proof.
  intros [Hcount Hmax Hfirst [Hl1 Hl2] [Ho1 Ho2] [Hn1 Hn2] Hw Hnum [Hc96 Hd16] Hpages Hnums Hconts] Hs.
  apply Forall_cons in Hw as [Hw1 Hw]. apply Forall_cons in Hw as [Hw2 Hw]. apply Forall_cons in Hw as [Hw3 Hw]. apply Forall_cons in Hw as [Hw4 _].
  unfold ReadPageHintTable. rewrite Hcount. replace ((1 <=? zlen pages) && (zlen pages <? kPageMaxNum)) with true by lia.
  replace (m_dwFirstPageNo lin <? zlen pages) with true by lia.
  assert (En : Z.to_nat (zlen pages) = length pages) by (unfold zlen; lia). rewrite En.
  pose proof (header_bits_length h Hc96 Hd16) as Hlen.
  assert (Hbig : (negb (IsEOF s) && (288 <=? BitsRemaining s)) = true).
  { rewrite (before_more _ s (proj1 Hs)), (before_remaining _ s (proj1 Hs)). unfold page_bits. rewrite <-!app_assoc, zlen_app, Hlen.
    match goal with |- context [header_bits h ++ ?l] => pose proof (zlen_nonneg l) end. rewrite bool_decide_eq_false_2; [cbn; lia|].
    intros E%app_eq_nil. rewrite (proj1 E) in Hlen. done. }
  rewrite Hbig. clear Hbig. assert (Hend : zlen (page_bits h pages numerators contents) = zlen (page_bits h pages numerators contents)) by done.
  unfold page_bits at 2 in Hend. rewrite !zlen_app, Hlen in Hend.
  unfold page_bits, header_bits in Hs. rewrite <-!app_assoc in Hs.
  read_field stands_32.
  replace (negb (ph_least_objects h =? 0)) with true by lia.
  read_field stands_32.
  replace (negb (HintsOffsetToFileOffset lin (ph_location h) =? 0)) with true by lia.
  read_field stands_width. rewrite width_valid by done.
  read_field stands_32. replace (negb (ph_least_length h =? 0)) with true by lia.
  read_field stands_width. rewrite width_valid by done.
  match goal with H : stands _ _ ?s |- _ => apply (stands_skip _ _ _ _ 96 Hc96) in H end.
  read_field stands_width. rewrite width_valid by done.
  read_field stands_width. rewrite width_valid by done.
  read_field stands_width. replace (Z.of_nat (ph_numerator_bits h) <=? 32) with true by lia.
  match goal with H : stands _ _ ?s |- _ => apply (stands_skip _ _ _ _ 16 Hd16) in H; rename H into Hs end.
  change (0 + 32 + 32 + 16 + 32 + 16 + 96 + 16 + 16 + 16 + 16) with 288 in Hs.
  assert (H8 : 288 mod 8 = 0 ∧ 0 <= 288) by done. unfold pad8 at 1 in Hs. rewrite <-app_assoc in Hs.
  rewrite (stands_can_read _ _ _ _ _ Hs (put_all_map_length _ _ _)).
  pose proof (fresh_infos (length pages) 0 ltac:(lia)) as Ef. rewrite Nat.sub_0_r in Ef. rewrite Ef. clear Ef.
  destruct (objects_loop_spec lin (ph_objects_bits h) (ph_least_objects h) _ Hw1 pages [] 1 _ _ 0 ltac:(eapply Forall_impl; [exact Hpages|unfold page_ok; tauto]) Hs)
    as (s1 & E1 & H1).
  cbn [app length] in E1. rewrite E1. cbn [mbind option_bind]. clear E1 Hs. rename H1 into Hs.
  apply (next_section _ _ _ _ H8) in Hs as [H8' Hs]. clear H8. unfold pad8 at 1 in Hs. rewrite <-app_assoc in Hs.
  rewrite (stands_can_read _ _ _ _ _ Hs (put_all_map_length _ _ _)).
  destruct (lengths_loop_spec lin (ph_length_bits h) (ph_least_length h) _ Hw2 pages [] 1 _ _ 0 0 ltac:(eapply Forall_impl; [exact Hpages|unfold page_ok; tauto]) Hs)
    as (s2 & E2 & H2).
  cbn [app length] in E2. rewrite E2. cbn [mbind option_bind]. clear E2 Hs. rename H2 into Hs.
  pose proof (layout_first lin (HintsOffsetToFileOffset lin (ph_location h)) hp_length (λ _, []) pages 0 1 0 ltac:(lia)) as Ef.
  rewrite Nat.sub_0_r in Ef. rewrite Ef. clear Ef.
  pose proof (offsets_loop_spec lin (HintsOffsetToFileOffset lin (ph_location h)) (λ _, []) pages [] 1 0 (m_szFirstPageEndOffset lin)) as Ef.
  cbn [app length] in Ef. rewrite Ef. clear Ef.
  apply (next_section _ _ _ _ H8') in Hs as [H8 Hs]. clear H8'. unfold pad8 at 1 in Hs. rewrite <-app_assoc in Hs.
  rewrite (stands_can_read _ _ _ _ _ Hs (put_all_map_length _ _ _)).
  destruct (read_numbers_spec (ph_shared_bits h) (map (λ p, zlen (hp_shared p)) pages) _ Hw3 ltac:(apply Forall_map; eapply Forall_impl; [exact Hpages|cbn; unfold page_ok; tauto]) _ _ Hs)
    as (s3 & E3 & H3).
  rewrite length_map in E3. rewrite E3. cbv beta iota. clear E3 Hs. rename H3 into Hs.
  apply (next_section _ _ _ _ H8) in Hs as [H8' Hs]. clear H8. unfold pad8 at 1 in Hs. rewrite <-app_assoc in Hs.
  destruct (identifiers_loop_spec lin (ph_id_bits h) (HintsOffsetToFileOffset lin (ph_location h)) _ Hw4 pages [] 1 _ _ (m_szFirstPageEndOffset lin)
    ltac:(eapply Forall_impl; [exact Hpages|cbn; unfold page_ok; tauto]) Hs) as (s4 & E4 & H4).
  cbn [app length] in E4. rewrite E4. cbn [mbind option_bind]. clear E4 Hs. rename H4 into Hs.
  apply (next_section _ _ _ _ H8') in Hs as [H8 Hs]. clear H8'.
  apply (numerators_spec _ _ _ _ _ _ Hnum Hnums H8) in Hs as (H8' & s5 & E5 & Hs). clear H8. rewrite E5. cbn [mbind option_bind]. clear E5.
  unfold pad8 at 1 in Hs. rewrite <-app_assoc in Hs. rewrite (stands_can_read _ _ _ _ _ Hs Hconts).
  assert (Et : default 0 (safe_u32 (zlen pages * Z.of_nat (ph_length_bits h))) = zlen contents).
  { pose proof (before_small _ _ (proj1 Hs)) as [Hs1 Hs2]. rewrite zlen_app in Hs2. match type of Hs2 with context [_ + (_ + zlen ?l) < _] => pose proof (zlen_nonneg l) end.
    rewrite <-Hconts. pose proof (zlen_nonneg contents). unfold safe_u32. replace (_ && _) with true; [done|]. lia. }
  rewrite Et. apply (stands_skip _ _ _ _ _ eq_refl) in Hs. apply (next_section _ _ _ _ H8') in Hs as [_ Hs].
  eexists. split; [reflexivity|]. rewrite Hend, !Z.add_assoc. rewrite <-!Z.add_assoc in Hs. rewrite <-!Z.add_assoc. exact Hs.
Qed.
End pages.

(** ** Shared objects *)

(** A group: its bytes, its objects, its signature if it has one. *)
Record hint_group := HintGroup { hg_length : Z; hg_objects : Z; hg_signature : option (list bool) }.

Record shared_header := SharedHeader {
  sh_first_number : Z;
  sh_location : Z;
  sh_first_page : Z;
  sh_objects_bits : nat;
  sh_least_length : Z;
  sh_length_bits : nat;
}.

Definition shared_header_bits (h : shared_header) (total : Z) : list bool :=
  put_bits 32 (sh_first_number h) ++ put_bits 32 (sh_location h) ++ put_bits 32 (sh_first_page h) ++ put_bits 32 total ++
  put_bits 16 (Z.of_nat (sh_objects_bits h)) ++ put_bits 32 (sh_least_length h) ++ put_bits 16 (Z.of_nat (sh_length_bits h)).

Definition group_flag (g : hint_group) : Z := if hg_signature g is Some _ then 1 else 0.
Definition signatures (groups : list hint_group) : list bool := flat_map (λ g, default [] (hg_signature g)) groups.

Definition shared_bits (h : shared_header) (groups : list hint_group) : list bool :=
  shared_header_bits h (zlen groups) ++
  pad8 (put_all (sh_length_bits h) (map (λ g, hg_length g - sh_least_length h) groups)) ++
  pad8 (put_all 1 (map group_flag groups)) ++
  signatures groups ++
  pad8 (put_all (sh_objects_bits h) (map (λ g, hg_objects g - 1) groups)).

(** The groups follow each other, and again from the first one that the first page
    does not use. *)
Section group_layout.
Context (first location first_number : Z).
Fixpoint group_layout (i : nat) (prev cur : Z) (groups : list hint_group) : list SharedObjGroupInfo :=
  match groups with
  | [] => []
  | g :: rest =>
      let prev := if Z.of_nat i =? first then location else prev in
      let cur := if Z.of_nat i =? first then first_number else cur in
      SharedGroup prev (hg_length g) (hg_objects g) cur :: group_layout (S i) (prev + hg_length g) (cur + hg_objects g) rest
  end.

Definition placed (g : SharedObjGroupInfo) : Prop :=
  - 2 ^ 63 <= sg_szOffset g + sg_dwLength g < 2 ^ 63 ∧ 0 <= sg_dwStartObjNum g + sg_dwObjectsCount g < 2 ^ 32.

Lemma groups_loop_spec b least rest : (1 <= b <= 32)%nat → ∀ groups i prev cur pos s,
  Forall (λ g, fit b (hg_length g - least) ∧ 0 <= hg_length g < 2 ^ 32) groups → Forall placed (group_layout i prev cur groups) →
  stands (put_all b (map (λ g, hg_length g - least) groups) ++ rest) pos s →
  ∃ s', groups_loop (length groups) i (Z.of_nat b) least location first prev s =
      Some (map (λ g, SharedGroup (sg_szOffset g) (sg_dwLength g) 0 0) (group_layout i prev cur groups), s') ∧
    stands rest (pos + zlen (put_all b (map (λ g, hg_length g - least) groups))) s'.
Proof.
  intros Hb. induction groups as [|g groups IH]; intros i prev cur pos s Hf Hpl Hs; cbn [groups_loop length map flat_map group_layout].
  { exists s. by rewrite zlen_nil, Z.add_0_r. }
  apply Forall_cons in Hf as [[Hg Hg2] Hf]. cbn [map flat_map group_layout] in Hs, Hpl. rewrite <-app_assoc in Hs.
  apply Forall_cons in Hpl as [[Hp1 _] Hpl]. cbn [sg_szOffset sg_dwLength] in Hp1.
  destruct (stands_bits b _ _ pos s Hb Hg Hs) as (s1 & -> & H1). rewrite Z.sub_add. unfold safe_u32. replace (_ && _) with true by lia.
  cbn [mbind option_bind]. unfold safe_filesize. replace (_ && _) with true by lia. cbn [mbind option_bind].
  destruct (IH (S i) _ _ _ s1 Hf Hpl H1) as (s2 & E2 & H2). rewrite E2. cbn [mbind option_bind]. exists s2. split; [done|].
  rewrite zlen_app. unfold zlen at 1. rewrite length_put_bits, Z.add_assoc. exact H2.
Qed.

Lemma numbers_loop_spec b rest : (b <= 32)%nat → ∀ groups i prev cur pos s,
  Forall (λ g, fit b (hg_objects g - 1) ∧ 0 <= hg_objects g < 2 ^ 32) groups → Forall placed (group_layout i prev cur groups) →
  stands (put_all b (map (λ g, hg_objects g - 1) groups) ++ rest) pos s →
  ∃ s', numbers_loop (map (λ g, SharedGroup (sg_szOffset g) (sg_dwLength g) 0 0) (group_layout i prev cur groups)) i (Z.of_nat b) first_number first cur s =
      Some (group_layout i prev cur groups, s') ∧
    stands rest (pos + zlen (put_all b (map (λ g, hg_objects g - 1) groups))) s'.
Proof.
  intros Hb. induction groups as [|g groups IH]; intros i prev cur pos s Hf Hpl Hs; cbn [numbers_loop map flat_map group_layout].
  { exists s. by rewrite zlen_nil, Z.add_0_r. }
  apply Forall_cons in Hf as [[Hg Hg2] Hf]. cbn [map flat_map group_layout] in Hs, Hpl. rewrite <-app_assoc in Hs.
  apply Forall_cons in Hpl as [[_ Hp1] Hpl]. cbn [sg_dwStartObjNum sg_dwObjectsCount] in Hp1.
  assert (Hread : ∃ s1, (if Z.of_nat b =? 0 then (0, s) else GetBits (Z.of_nat b) s) = (hg_objects g - 1, s1) ∧
    stands (put_all b (map (λ g, hg_objects g - 1) groups) ++ rest) (pos + Z.of_nat b) s1).
  { destruct b as [|b]; cbn [Z.of_nat].
    - exists s. unfold fit in Hg. cbn in Hg. split; [f_equal; lia|]. by rewrite Z.add_0_r.
    - change (Z.pos (Pos.of_succ_nat b)) with (Z.of_nat (S b)). replace (Z.of_nat (S b) =? 0) with false by lia.
      apply (stands_bits (S b)); [lia|done..]. }
  destruct Hread as (s1 & -> & H1). rewrite Z.sub_add, safe_u32_in by done. cbn [mbind option_bind]. rewrite safe_u32_in by done. cbn [mbind option_bind].
  destruct (IH (S i) _ _ _ s1 Hf Hpl H1) as (s2 & E2 & H2). rewrite E2. cbn [mbind option_bind sg_szOffset sg_dwLength]. exists s2. split; [done|].
  rewrite zlen_app. unfold zlen at 1. rewrite length_put_bits, Z.add_assoc. exact H2.
Qed.
End group_layout.

Section shared.
Context (lin : CPDF_LinearizedHeader).

Definition group_ok (h : shared_header) (g : hint_group) : Prop :=
  fit (sh_length_bits h) (hg_length g - sh_least_length h) ∧ 0 <= hg_length g < 2 ^ 32 ∧
  fit (sh_objects_bits h) (hg_objects g - 1) ∧ 0 <= hg_objects g < 2 ^ 32 ∧
  match hg_signature g with Some b => zlen b = 128 | None => True end.

(** The groups behind the place [start] of the page objects of the first page. *)
Definition group_infos (start : Z) (h : shared_header) (groups : list hint_group) : list SharedObjGroupInfo :=
  group_layout (sh_first_page h) (HintsOffsetToFileOffset lin (sh_location h)) (sh_first_number h) 0 start (m_FirstPageObjNum lin) groups.

Record groups_ok (start : Z) (h : shared_header) (groups : list hint_group) : Prop := {
  go_first : 1 <= sh_first_number h < kMaxObjectNumber;
  go_location : fit 32 (sh_location h) ∧ HintsOffsetToFileOffset lin (sh_location h) ≠ 0;
  go_first_page : 0 <= sh_first_page h < kMaxObjectNumber;
  go_total : zlen groups < kMaxObjectNumber;
  go_objects_bits : (sh_objects_bits h <= 32)%nat;
  go_least : fit 32 (sh_least_length h);
  go_length_bits : (1 <= sh_length_bits h <= 32)%nat;
  go_groups : Forall (group_ok h) groups;
  go_placed : Forall placed (group_infos start h groups);
}.

Lemma signatures_length h groups : Forall (group_ok h) groups → zlen (signatures groups) = foldr Z.add 0 (map group_flag groups) * 128.
Proof.
  induction 1 as [|g groups Hg _ IH]; [done|]. unfold signatures. cbn [flat_map map foldr]. rewrite zlen_app. fold (signatures groups). rewrite IH.
  destruct Hg as (_ & _ & _ & _ & Hs). unfold group_flag. destruct (hg_signature g); cbn [default from_option id]; [|rewrite zlen_nil]; lia.
Qed.

Lemma signature_count_nonneg groups : 0 <= foldr Z.add 0 (map group_flag groups).
Proof. induction groups as [|g groups IH]; cbn; [done|]. unfold group_flag at 1. destruct (hg_signature g); lia. Qed.

Lemma signatures_spec h groups rest pos s : Forall (group_ok h) groups → pos mod 8 = 0 ∧ 0 <= pos → stands (signatures groups ++ rest) pos s →
  let signature_count := foldr Z.add 0 (map group_flag groups) in
  let bits := safe_u32 (signature_count * 128) in
  let pos' := pos + zlen (signatures groups) in
  (pos' mod 8 = 0 ∧ 0 <= pos') ∧
  ∃ s', (if signature_count =? 0 then Some s
         else if CanReadFromBitStream s bits then Some (ByteAlign (SkipBits (default 0 bits) s)) else None) = Some s' ∧ stands rest pos' s'.
Proof.
  intros Hg [H8 H0] Hs. cbv zeta. pose proof (signatures_length h groups Hg) as El. pose proof (signature_count_nonneg groups) as Hn.
  set (c := foldr Z.add 0 (map group_flag groups)) in *. split; [rewrite El; split; [|lia]; Z.div_mod_to_equations; lia|].
  destruct (Z.eqb_spec c 0) as [E0|Hne].
  { exists s. split; [done|]. rewrite E0 in El. destruct (signatures groups) as [|b l]; [by rewrite zlen_nil, Z.add_0_r|].
    rewrite zlen_cons in El. pose proof (zlen_nonneg l). lia. }
  rewrite (stands_can_read _ _ _ _ _ Hs El). eexists. split; [done|].
  rewrite safe_u32_in; [cbn [default from_option id]|].
  - apply (stands_skip _ _ _ _ _ El) in Hs. replace (pos + c * 128) with (pos + c * 128 + zlen (@nil bool)) in Hs by (rewrite zlen_nil; lia).
    change rest with (replicate (padding (length (@nil bool))) false ++ rest) in Hs.
    apply next_section in Hs as [_ Hs]; [|split; [|lia]; Z.div_mod_to_equations; lia]. rewrite El. change (pad8 []) with (@nil bool) in Hs. by rewrite zlen_nil, Z.add_0_r in Hs.
  - pose proof (before_small _ _ (proj1 Hs)) as [Hs1 Hs2]. rewrite zlen_app in Hs2. pose proof (zlen_nonneg rest). lia.
Qed.

Lemma shared_header_length h total : zlen (shared_header_bits h total) = 192.
Proof. unfold shared_header_bits. rewrite !zlen_app. unfold zlen. by rewrite !length_put_bits. Qed.

Lemma shared_bits_long h groups : 192 <= zlen (shared_bits h groups).
Proof. unfold shared_bits. rewrite zlen_app, shared_header_length. match goal with |- _ <= _ + zlen ?l => pose proof (zlen_nonneg l) end. lia. Qed.

Lemma shared_table_spec t h groups offset rest s : groups_ok (m_szFirstPageObjOffset t) h groups → 0 <= offset →
  stands (shared_bits h groups ++ rest) (8 * offset) s →
  ∃ s', ReadSharedObjHintTable lin t offset s =
    Some (Hints (sh_first_page h) (m_szFirstPageObjOffset t) (m_PageInfos t) (group_infos (m_szFirstPageObjOffset t) h groups), s').
Proof.
  intros [[Hf1 Hf2] [Hl1 Hl2] [Hp1 Hp2] Htot Hob Hleast Hlb Hg Hpl] Hoff Hs. unfold ReadSharedObjHintTable.
  assert (Hmax : kMaxObjectNumber = 4 * 1024 * 1024) by done.
  pose proof (shared_header_length h (zlen groups)) as Hlen. pose proof (before_small _ _ (proj1 Hs)) as [Hs1 Hs2].
  assert (Hlong : 192 <= zlen (shared_bits h groups ++ rest)).
  { rewrite zlen_app. pose proof (shared_bits_long h groups). pose proof (zlen_nonneg rest). lia. }
  rewrite (before_more _ s (proj1 Hs)), bool_decide_eq_false_2 by (intros E; rewrite E, zlen_nil in Hlong; lia). cbn [negb]. destruct Hs as [Hb Hpos].
  rewrite safe_u32_in by lia. cbn [mbind option_bind].
  replace (m_BitPos s <=? offset * 8) with true by lia. replace (offset * 8 - m_BitPos s) with 0 by lia.
  pose proof (stands_skip [] _ (8 * offset) s 0 eq_refl (conj Hb Hpos)) as Hs. rewrite Z.add_0_r in Hs. rewrite (before_remaining _ _ (proj1 Hs)).
  replace (192 <=? zlen (shared_bits h groups ++ rest)) with true by lia.
  unfold shared_bits, shared_header_bits in Hs. rewrite <-!app_assoc in Hs.
  assert (Hff : fit 32 (sh_first_number h) ∧ fit 32 (sh_first_page h) ∧ fit 32 (zlen groups)) by (unfold fit; pose proof (zlen_nonneg groups); lia).
  destruct Hff as (Hff1 & Hff2 & Hff3).
  read_field stands_32. replace (negb (sh_first_number h =? 0)) with true by lia.
  read_field stands_32. replace (negb (HintsOffsetToFileOffset lin (sh_location h) =? 0)) with true by lia.
  read_field stands_32. read_field stands_32. read_field stands_width. replace (Z.of_nat (sh_objects_bits h) <=? 32) with true by lia.
  read_field stands_32. read_field stands_width. rewrite width_valid by done.
  match goal with H : stands _ _ ?s |- _ => rename H into Hs end.
  replace ((sh_first_number h <? kMaxObjectNumber) && (sh_first_page h <? kMaxObjectNumber) && (zlen groups <? kMaxObjectNumber)) with true by lia.
  match type of Hs with stands _ ?p _ => assert (H8 : p mod 8 = 0 ∧ 0 <= p) by (split; [Z.div_mod_to_equations|]; lia); generalize dependent p end.
  intros pos Hs H8. unfold pad8 at 1 in Hs. rewrite <-app_assoc in Hs. rewrite (Z.mul_comm (zlen groups)).
  rewrite (stands_can_read _ _ _ _ _ Hs (put_all_map_length _ _ _)).
  match goal with |- context [if ?b then _ else None] => replace b with true end.
  2: { symmetry. rewrite !orb_true_iff. destruct (Z.leb_spec (zlen groups - 1) (sh_first_page h)); [auto|]. right. apply bool_decide_eq_true_2. rewrite safe_u32_in by lia. done. }
  replace (Z.to_nat (zlen groups)) with (length groups) by (unfold zlen; lia).
  destruct (groups_loop_spec _ (HintsOffsetToFileOffset lin (sh_location h)) (sh_first_number h) (sh_length_bits h) (sh_least_length h) _ Hlb groups 0 _ (m_FirstPageObjNum lin) _ _
    ltac:(eapply Forall_impl; [exact Hg|cbn; unfold group_ok; tauto]) Hpl Hs) as (s1 & E1 & H1).
  rewrite E1. cbn [mbind option_bind]. clear E1 Hs. rename H1 into Hs.
  apply (next_section _ _ _ _ H8) in Hs as [H8' Hs]. clear H8. unfold pad8 at 1 in Hs. rewrite <-app_assoc in Hs.
  destruct (read_numbers_spec 1 (map group_flag groups) _ ltac:(lia) ltac:(apply Forall_map, Forall_forall; intros g _; unfold fit; cbn; unfold group_flag; destruct (hg_signature g); lia) _ _ Hs)
    as (s2 & E2 & H2).
  rewrite length_map in E2. change (Z.of_nat 1) with 1 in E2. rewrite E2. cbv beta iota. clear E2 Hs. rename H2 into Hs.
  apply (next_section _ _ _ _ H8') in Hs as [H8 Hs]. clear H8'.
  apply (signatures_spec h) in Hs as (H8' & s3 & E3 & Hs); [|done..]. rewrite E3. cbn [mbind option_bind]. clear E3 H8.
  unfold pad8 at 1 in Hs. rewrite <-app_assoc in Hs.
  destruct (numbers_loop_spec _ (HintsOffsetToFileOffset lin (sh_location h)) (sh_first_number h) (sh_objects_bits h) _ Hob groups 0 (m_szFirstPageObjOffset t) (m_FirstPageObjNum lin) _ _
    ltac:(eapply Forall_impl; [exact Hg|cbn; unfold group_ok; tauto]) Hpl Hs) as (s4 & E4 & H4).
  rewrite E4. cbn [mbind option_bind]. by eexists.
Qed.
End shared.

(** ** The stream *)
Definition bytes_of (l : list bool) : list Z := pack (length l / 8) l.

(** The bytes of the page offset table and of the whole stream. *)
Definition hint_data (h : page_header) (pages : list hint_page) (numerators contents : list bool) (sh : shared_header) (groups : list hint_group) : list Z :=
  bytes_of (page_bits h pages numerators contents) ++ bytes_of (shared_bits sh groups).

Lemma bytes_of_whole l : zlen l mod 8 = 0 → stream_bits (bytes_of l) = l ∧ 8 * zlen (bytes_of l) = zlen l ∧ bytes (bytes_of l).
Proof.
  intros H. assert (E : length l = (8 * (length l / 8))%nat).
  { assert (Hm : (length l mod 8 = 0)%nat) by (apply Nat2Z.inj; rewrite Nat2Z.inj_mod; exact H).
    pose proof (Nat.div_mod (length l) 8 ltac:(lia)) as Hd. rewrite Hm in Hd. lia. }
  unfold bytes_of. destruct (pack_ok _ _ E) as [H1 H2]. split; [by apply stream_bits_pack|]. split; [unfold zlen; rewrite H1; lia|done].
Qed.

Lemma pad8_whole a : zlen (pad8 a) mod 8 = 0.
Proof. by apply (pad8_mod a 0). Qed.

Lemma mod8_add a b : a mod 8 = 0 → b mod 8 = 0 → (a + b) mod 8 = 0.
Proof. intros. Z.div_mod_to_equations. lia. Qed.

Lemma page_bits_whole lin h pages numerators contents : pages_ok lin h pages numerators contents → zlen (page_bits h pages numerators contents) mod 8 = 0.
Proof.
  intros [_ _ _ _ _ _ _ _ [H1 H2] _ _ _]. unfold page_bits. rewrite !zlen_app, header_bits_length by done.
  repeat apply mod8_add; try apply pad8_whole; [done|]. destruct (ph_numerator_bits h); [done|apply pad8_whole].
Qed.

Lemma shared_bits_whole lin start h groups : groups_ok lin start h groups → zlen (shared_bits h groups) mod 8 = 0.
Proof.
  intros [_ _ _ _ _ _ _ Hg _]. unfold shared_bits. rewrite !zlen_app, shared_header_length.
  repeat apply mod8_add; try apply pad8_whole; [done|]. rewrite (signatures_length h) by done. Z.div_mod_to_equations. lia.
Qed.

Lemma stream_bits_app a b : stream_bits (a ++ b) = stream_bits a ++ stream_bits b.
Proof. apply flat_map_app. Qed.

(** C8: the hint tables that are written in a stream, the page offset table and
    then the shared object table, are read back: [LoadHintStream] gives for each
    page the number of its objects, the place, the length, the number of its first
    object and the shared objects that it uses, and the place, the length, the
    number of objects and the number of the first object of each shared group,
    where pages and groups follow each other in the file, the first page apart, and
    places behind the hint stream are moved by its length. *)
Theorem hint_tables_roundtrip lin h pages numerators contents sh groups d n :
  let start := HintsOffsetToFileOffset lin (ph_location h) in
  HasHintTable lin = true → pages_ok lin h pages numerators contents → groups_ok lin start sh groups →
  8 * zlen (hint_data h pages numerators contents sh groups) < 2 ^ 32 →
  GetObjectFor (bs "S") d = Some (CPDF_Number n) → GetSigned n = zlen (bytes_of (page_bits h pages numerators contents)) →
  LoadHintStream lin d (hint_data h pages numerators contents sh groups) =
    Some (Hints (sh_first_page sh) start (page_infos lin h pages) (group_infos lin start sh groups)).
Proof.
  intros start Hhas Hp Hg Hsize Hd Hn. subst start. unfold LoadHintStream. rewrite Hhas, Hd, Hn.
  destruct (bytes_of_whole _ (page_bits_whole _ _ _ _ _ Hp)) as (Ep & Lp & Bp). destruct (bytes_of_whole _ (shared_bits_whole _ _ _ _ Hg)) as (Es & Ls & Bs).
  pose proof (shared_bits_long sh groups) as Hlong.
  assert (Hlp : 288 <= zlen (page_bits h pages numerators contents)).
  { destruct Hp as [_ _ _ _ _ _ _ _ [H1 H2] _ _ _]. unfold page_bits. rewrite zlen_app, header_bits_length by done.
    match goal with |- _ <= _ + zlen ?l => pose proof (zlen_nonneg l) end. lia. }
  set (data := hint_data _ _ _ _ _ _) in *. assert (El : zlen data = zlen (bytes_of (page_bits h pages numerators contents)) + zlen (bytes_of (shared_bits sh groups))) by apply zlen_app.
  assert (Eu : u32 (zlen data) = zlen data) by (apply Z.mod_small; lia). rewrite Eu.
  replace (0 <? _) with true by lia. replace (60 <=? _) with true by lia. rewrite safe_u32_in by lia. cbn [mbind option_bind].
  replace (_ <=? zlen data) with true by lia. rewrite take_ge by (unfold zlen; lia).
  assert (Hs : stands (page_bits h pages numerators contents ++ shared_bits sh groups ++ []) 0 (bits_of data)).
  { split; [|done]. rewrite app_nil_r. constructor.
    - split_and!; [|cbn [bits_of m_pData]; lia|done]. cbn [bits_of m_pData]. apply Forall_app; by split.
    - unfold ahead. cbn [bits_of m_pData m_BitPos]. change (drop (Z.to_nat 0) ?l) with l. unfold data, hint_data. by rewrite stream_bits_app, Ep, Es.
    - cbn [bits_of m_pData m_BitPos]. rewrite zlen_app. lia. }
  destruct (page_table_spec lin h pages numerators contents _ _ Hp Hs) as (s1 & -> & H1). cbn [mbind option_bind]. rewrite <-Lp in H1.
  destruct (shared_table_spec lin (Hints 0 (HintsOffsetToFileOffset lin (ph_location h)) (page_infos lin h pages) []) sh groups _ [] s1 Hg (zlen_nonneg _) H1) as (s2 & ->). done.
Qed.

Lemma hint_tables_roundtrip_witness :
  let lin := LinearizedHeader 90000 1 1000 3 5000 12 80000 600 200 in
  let h := PageHeader 2 700 3 1000 10 (replicate 96 false) 2 3 1 (replicate 16 false) in
  let pages := [HintPage 4 1500 [0; 2]; HintPage 5 1000 []; HintPage 2 2023 [1]] in
  let sh := SharedHeader 30 6000 1 2 100 7 in
  let groups := [HintGroup 100 1 None; HintGroup 227 3 (Some (replicate 128 true)); HintGroup 150 2 None] in
  LoadHintStream lin [(bs "S", CPDF_Number (FxSigned 50))] (hint_data h pages (replicate 3 true) (replicate 30 false) sh groups) =
    Some (Hints 1 900
      [Page 4 5000 1500 1 [0; 2]; Page 5 900 1000 12 []; Page 2 6500 2023 5 [1]]
      [SharedGroup 900 100 1 12; SharedGroup 6200 227 3 30; SharedGroup 6427 150 2 33]).
Proof.
  intros lin h pages sh groups. apply (hint_tables_roundtrip lin h pages (replicate 3 true) (replicate 30 false) sh groups _ (FxSigned 50));
    [reflexivity| | |reflexivity|reflexivity|reflexivity].
  - split; try done.
    + repeat constructor; cbn; lia.
    + cbn. lia.
    + repeat (apply Forall_cons; split); try apply List.Forall_nil; unfold page_ok; split_and!; try done; repeat (apply Forall_cons; split); try apply List.Forall_nil; done.
  - split; try done.
    + cbn. lia.
    + cbn. lia.
    + repeat (apply Forall_cons; split); try apply List.Forall_nil; unfold group_ok; split_and!; done.
    + repeat (apply Forall_cons; split); try apply List.Forall_nil; unfold placed; split_and!; done.
Defined.
