(* ===== verification/HintCheck.v ===== *)
(** * What hint tables answer

    Tables that are accepted are complete: every page has its entry, and the
    questions of [GetPagePos] and [CheckPage] stay within them.  A page that is
    asked for again and again becomes available. *)
From Stdlib Require Import String.
From S2P Require Import Prelude Words FxNumber Syntax Objects Dict Security CrossRef XRef DataDecode DocParser DocLoad Linearized BitStream ReadValidator PageTree HintTables.
Import String.StringSyntax.

Record page_info_ok (p : PageInfo) : Prop := {
  pi_offset_ok : 0 <= pi_szOffset p;
  pi_length_ok : 0 < pi_dwLength p < 2 ^ 32;
  pi_objects_ok : 0 < pi_dwObjectsCount p < 2 ^ 32;
}.

Definition group_info_ok (g : SharedObjGroupInfo) : Prop := 0 <= sg_szOffset g ∧ 0 <= sg_dwLength g < 2 ^ 32.

Record tables_ok (lin : CPDF_LinearizedHeader) (t : CPDF_HintTables) : Prop := {
  to_count : zlen (m_PageInfos t) = m_PageCount lin;
  to_pages : Forall page_info_ok (m_PageInfos t);
  to_groups : Forall group_info_ok (m_SharedObjGroupInfos t);
}.

(** ** The loops *)
Lemma GetBits_range n s v s' : stream_ok s → 1 <= n <= 32 → GetBits n s = (v, s') → 0 <= v < 2 ^ n ∧ stream_ok s'.
Proof.
  intros Hs Hn E. destruct (Z.leb_spec (m_BitPos s + n) (8 * zlen (m_pData s))) as [Hle|Hgt].
  - rewrite GetBits_chunk in E by done. injection E as <- <-. split; [apply chunk_range; lia|by apply skip_ok].
  - unfold GetBits in E. rewrite size_bits in E by done. replace (_ || _) with true in E by lia. injection E as <- <-. split; [|done].
    pose proof (Z.pow_pos_nonneg 2 n). lia.
Qed.

Lemma safe_u32_inv z x : safe_u32 z = Some x → x = z ∧ 0 <= z < 2 ^ 32.
Proof. unfold safe_u32. destruct (_ && _) eqn:E; [|done]. intros [= <-]. lia. Qed.

(** The pages before [i] satisfy [P], all of them [Q]. *)
Definition upto (P : PageInfo → Prop) (i : nat) (infos : list PageInfo) : Prop := ∀ j p, (j < i)%nat → infos !! j = Some p → P p.

Lemma upto_alter (P : PageInfo → Prop) f i infos : upto P i infos → (∀ p, infos !! i = Some p → P (f p)) → upto P (S i) (alter f i infos).
Proof.
  intros Hu Hf j p Hj Hp. destruct (decide (j = i)) as [->|Hne].
  - rewrite list_lookup_alter_eq in Hp. apply fmap_Some in Hp as (q & Hq & ->). by apply Hf.
  - rewrite list_lookup_alter_ne in Hp by done. apply (Hu j p); [lia|done].
Qed.

Lemma upto_all (P : PageInfo → Prop) infos : upto P (length infos) infos → Forall P infos.
Proof. intros Hu. apply Forall_lookup. intros j p Hp. apply (Hu j p); [|done]. by apply lookup_lt_Some in Hp. Qed.

Lemma Forall_alter_ok (P : PageInfo → Prop) f i infos : Forall P infos → (∀ p, P p → P (f p)) → Forall P (alter f i infos).
Proof. intros Hi Hf. apply Forall_alter; [done|]. intros p _ Hp. by apply Hf. Qed.

Lemma forall_upto (P : PageInfo → Prop) i infos : Forall P infos → upto P i infos.
Proof. intros Hf j p _ Hp. by apply (Forall_lookup_1 _ _ _ _ Hf Hp). Qed.

Lemma upto_keep (P : PageInfo → Prop) f i k infos : upto P i infos → (∀ p, P p → P (f p)) → upto P i (alter f k infos).
Proof.
  intros Hu Hf j p Hj Hp. destruct (decide (j = k)) as [->|Hne].
  - rewrite list_lookup_alter_eq in Hp. apply fmap_Some in Hp as (q & Hq & ->). by apply Hf, (Hu k).
  - rewrite list_lookup_alter_ne in Hp by done. by apply (Hu j p).
Qed.

Section loops.
Context (lin : CPDF_LinearizedHeader).
Notation objects_ok p := (0 < pi_dwObjectsCount p < 2 ^ 32).
Notation lengths_ok p := (0 < pi_dwLength p < 2 ^ 32).

Lemma objects_loop_ok b least n : 1 <= b <= 32 → 0 < least → ∀ i number infos s infos' s',
  objects_loop lin n i b least number infos s = Some (infos', s') → stream_ok s → Forall (λ p, 0 <= pi_szOffset p) infos →
  (i + n)%nat = length infos → upto (λ p, objects_ok p) i infos →
  stream_ok s' ∧ length infos' = length infos ∧ Forall (λ p, 0 <= pi_szOffset p ∧ objects_ok p) infos'.
Proof.
  intros Hb Hleast. induction n as [|n IH]; intros i number infos s infos' s' E Hs Ho Hlen Hu; cbn [objects_loop] in E.
  { injection E as <- <-. split; [done|]. split; [done|]. rewrite Nat.add_0_r in Hlen. subst i. apply Forall_and. split; [done|by apply upto_all]. }
  destruct (GetBits b s) as [delta s1] eqn:Eb. apply GetBits_range in Eb as [Hd Hs1]; [|done..].
  destruct (safe_u32 (delta + least)) as [count|] eqn:Ec; [|done]. cbn [mbind option_bind] in E. apply safe_u32_inv in Ec as [-> Hc].
  assert (Hu1 : upto (λ p, objects_ok p) (S i) (alter (set_objects_count (delta + least)) i infos)) by (apply upto_alter; [done|cbn; lia]).
  assert (Ho1 : Forall (λ p, 0 <= pi_szOffset p) (alter (set_objects_count (delta + least)) i infos)) by (by apply Forall_alter_ok).
  destruct (_ =? _).
  - destruct (IH _ _ _ _ _ _ E Hs1 Ho1) as (H1 & H2 & H3); [rewrite length_alter; lia|done|]. by rewrite length_alter in H2.
  - destruct (IH _ _ _ _ _ _ E Hs1) as (H1 & H2 & H3); [by apply Forall_alter_ok|rewrite !length_alter; lia|by apply upto_keep|].
    by rewrite !length_alter in H2.
Qed.

Lemma lengths_loop_ok b least n : 1 <= b <= 32 → 0 < least → ∀ i infos s infos' s',
  lengths_loop n i b least infos s = Some (infos', s') → stream_ok s → Forall (λ p, 0 <= pi_szOffset p ∧ objects_ok p) infos →
  (i + n)%nat = length infos → upto (λ p, lengths_ok p) i infos →
  stream_ok s' ∧ length infos' = length infos ∧ Forall page_info_ok infos'.
Proof.
  intros Hb Hleast. induction n as [|n IH]; intros i infos s infos' s' E Hs Ho Hlen Hu; cbn [lengths_loop] in E.
  { injection E as <- <-. split; [done|]. split; [done|]. rewrite Nat.add_0_r in Hlen. subst i. apply upto_all in Hu.
    apply (Forall_impl (λ p, (0 <= pi_szOffset p ∧ objects_ok p) ∧ lengths_ok p)); [by apply Forall_and|]. intros p [[H1 H2] H3]. by split. }
  destruct (GetBits b s) as [delta s1] eqn:Eb. apply GetBits_range in Eb as [Hd Hs1]; [|done..].
  destruct (safe_u32 (delta + least)) as [len|] eqn:Ec; [|done]. cbn [mbind option_bind] in E. apply safe_u32_inv in Ec as [-> Hc].
  destruct (IH _ _ _ _ _ E Hs1) as (H1 & H2 & H3); [by apply Forall_alter_ok|rewrite length_alter; lia|apply upto_alter; [done|cbn; lia]|].
  by rewrite length_alter in H2.
Qed.

Lemma offsets_loop_ok n : ∀ i prev infos, Forall page_info_ok infos → 0 <= prev →
  length (offsets_loop lin n i prev infos) = length infos ∧ Forall page_info_ok (offsets_loop lin n i prev infos).
Proof.
  induction n as [|n IH]; intros i prev infos Hi Hp; cbn [offsets_loop]; [done|]. destruct (_ =? _); [by apply IH|].
  destruct (IH (S i) (prev + match infos !! i with Some p => pi_dwLength p | None => 0 end) (alter (set_page_offset prev) i infos)) as [H1 H2].
  - apply Forall_alter_ok; [done|]. intros p [H1 H2 H3]. by split.
  - destruct (infos !! i) as [p|] eqn:E; [|lia]. apply (Forall_lookup_1 _ _ _ _ Hi) in E as [_ H2 _]. lia.
  - by rewrite length_alter in H1.
Qed.

Lemma read_numbers_ok b n : 1 <= b <= 32 → ∀ s l s', read_numbers n b s = (l, s') → stream_ok s → stream_ok s' ∧ length l = n.
Proof.
  intros Hb. induction n as [|n IH]; intros s l s' E Hs; cbn [read_numbers] in E; [by injection E as <- <-|].
  destruct (GetBits b s) as [x s1] eqn:Eb. apply GetBits_range in Eb as [_ Hs1]; [|done..].
  destruct (read_numbers n b s1) as [l2 s2] eqn:El. injection E as <- <-. destruct (IH _ _ _ El Hs1). cbn. by split; [|f_equal].
Qed.

Lemma identifiers_loop_ok b : 1 <= b <= 32 → ∀ counts i infos s infos' s',
  identifiers_loop i b counts infos s = Some (infos', s') → stream_ok s → Forall page_info_ok infos →
  stream_ok s' ∧ length infos' = length infos ∧ Forall page_info_ok infos'.
Proof.
  intros Hb. induction counts as [|n counts IH]; intros i infos s infos' s' E Hs Hi; cbn [identifiers_loop] in E; [by injection E as <- <-|].
  destruct (negb _); [done|]. destruct (read_numbers _ b s) as [l s1] eqn:El. apply read_numbers_ok in El as [Hs1 _]; [|done..].
  destruct (IH _ _ _ _ _ E Hs1) as (H1 & H2 & H3); [|by rewrite length_alter in H2].
  apply Forall_alter_ok; [done|]. intros p [H1 H2 H3]. by split.
Qed.

Lemma numerators_loop_ok b counts : ∀ s s', numerators_loop b counts s = Some s' → stream_ok s → stream_ok s'.
Proof.
  induction counts as [|n counts IH]; intros s s' E Hs; cbn [numerators_loop] in E; [by injection E as <-|].
  destruct (negb _); [done|]. by apply (IH _ _ E), skip_ok.
Qed.
End loops.

(** One [ensure] of [E], one field of it. *)
Ltac passed H := match type of H with (if ?b then _ else None) = Some _ => destruct b eqn:?; [|discriminate H] end.
Ltac field_of H x Hx Hs := match type of H with context [GetBits _ ?s] =>
  let s1 := fresh "s" in let E := fresh "E" in let Ht := fresh in
  rename Hs into Ht; destruct (GetBits _ s) as [x s1] eqn:E; apply GetBits_range in E as [Hx Hs]; [|exact Ht|done]; cbv beta iota in H; clear Ht end.

Section accepted.
Context (lin : CPDF_LinearizedHeader).
Hypothesis Hhint : 0 <= m_HintLength lin.
Hypothesis Hend : 0 <= m_szFirstPageEndOffset lin.

Lemma HintsOffset_nonneg o : 0 <= o → 0 <= HintsOffsetToFileOffset lin o.
Proof.
  intros Ho. unfold HintsOffsetToFileOffset. destruct (_ <=? o); [|done]. unfold safe_filesize. destruct (_ && _); cbn; lia.
Qed.

Lemma width_in_range b : IsValidPageOffsetHintTableBitCount b = true → 1 <= b <= 32.
Proof. unfold IsValidPageOffsetHintTableBitCount. lia. Qed.

Lemma page_table_ok s t s' : stream_ok s → ReadPageHintTable lin s = Some (t, s') →
  stream_ok s' ∧ tables_ok lin t ∧ 0 <= m_szFirstPageObjOffset t.
Proof.
  intros Hs E. unfold ReadPageHintTable in E. passed E. passed E. passed E. field_of E least Hl Hs. passed E. field_of E loc Hloc Hs. passed E.
  field_of E b1 Hb1 Hs. passed E. field_of E least_len Hll Hs. passed E. field_of E b2 Hb2 Hs. passed E. apply (skip_ok 96) in Hs.
  field_of E b3 Hb3 Hs. passed E. field_of E b4 Hb4 Hs. passed E. field_of E b5 Hb5 Hs. passed E. passed E.
  repeat match goal with H : IsValidPageOffsetHintTableBitCount _ = true |- _ => apply width_in_range in H end.
  apply (skip_ok 16) in Hs. set (n := Z.to_nat (m_PageCount lin)) in *.
  destruct (objects_loop _ _ _ _ _ _ _ _) as [[infos1 q1]|] eqn:E1; [|discriminate E]. cbn [mbind option_bind] in E.
  eapply objects_loop_ok in E1 as (Hs1 & Hn1 & Hi1); [|done|lia|done| | |].
  2: { apply Forall_alter_ok; [|done]. apply Forall_replicate. done. }
  2: { rewrite length_alter, length_replicate. lia. }
  2: { intros j p Hj. lia. }
  passed E. destruct (lengths_loop _ _ _ _ _ _) as [[infos2 q2]|] eqn:E2; [|discriminate E]. cbn [mbind option_bind] in E.
  eapply lengths_loop_ok in E2 as (Hs2 & Hn2 & Hi2); [|done|lia|by apply align_ok|done| |].
  2: { rewrite Hn1, length_alter, length_replicate. lia. }
  2: { intros j p Hj. lia. }
  assert (Hi2' : Forall page_info_ok (alter (set_page_offset (HintsOffsetToFileOffset lin loc)) (Z.to_nat (m_dwFirstPageNo lin)) infos2)).
  { apply Forall_alter_ok; [done|]. intros p [H1 H2 H3]. split; [|done..]. apply HintsOffset_nonneg. lia. }
  destruct (offsets_loop_ok lin n 0 _ _ Hi2' Hend) as [Hn3 Hi3].
  passed E. destruct (read_numbers n b3 _) as [counts q3] eqn:E3. apply read_numbers_ok in E3 as [Hs3 _]; [|done|by apply align_ok].
  destruct (identifiers_loop _ _ _ _ _) as [[infos4 q4]|] eqn:E4; [|discriminate E]. cbn [mbind option_bind] in E.
  apply identifiers_loop_ok in E4 as (Hs4 & Hn4 & Hi4); [|done|by apply align_ok|done]. apply align_ok in Hs4.
  match type of E with (_ ≫= _) = _ => destruct (if b5 =? 0 then Some (ByteAlign q4) else _) as [q5|] eqn:E5; [|discriminate E] end. cbn [mbind option_bind] in E.
  assert (Hs5 : stream_ok q5).
  { destruct (b5 =? 0); [by injection E5 as <-|]. destruct (numerators_loop _ _ _) as [q6|] eqn:E6; [|discriminate E5]. injection E5 as <-.
    by apply align_ok, (numerators_loop_ok _ _ _ _ E6). }
  passed E. injection E as <- <-. split; [by apply align_ok, skip_ok|]. split; [|apply HintsOffset_nonneg; lia].
  split; [|done|by constructor]. cbn [m_PageInfos]. unfold zlen. rewrite Hn4, Hn3, length_alter, Hn2, Hn1, length_alter, length_replicate. lia.
Qed.

Lemma groups_loop_ok b least location first n : 1 <= b <= 32 → 0 <= location → ∀ i prev s groups s',
  groups_loop n i b least location first prev s = Some (groups, s') → stream_ok s → 0 <= prev → stream_ok s' ∧ Forall group_info_ok groups.
Proof.
  intros Hb Hl. induction n as [|n IH]; intros i prev s groups s' E Hs Hp; cbn [groups_loop] in E; [by injection E as <- <-|].
  cbv zeta in E. set (p := if Z.of_nat i =? first then location else prev) in *. assert (Hp2 : 0 <= p) by (unfold p; destruct (_ =? _); lia).
  destruct (GetBits b s) as [delta s1] eqn:Eb. apply GetBits_range in Eb as [_ Hs1]; [|done..].
  destruct (safe_u32 (delta + least)) as [len|] eqn:Ec; [|done]. cbn [mbind option_bind] in E. apply safe_u32_inv in Ec as [-> Hc].
  unfold safe_filesize in E. destruct (_ && _); [|done]. cbn [mbind option_bind] in E.
  destruct (groups_loop n _ _ _ _ _ _ _) as [[l s2]|] eqn:E2; [|done]. injection E as <- <-.
  apply IH in E2 as [H1 H2]; [|done|lia]. split; [done|]. by constructor.
Qed.

Lemma numbers_loop_ok b number first groups : ∀ i cur s groups' s',
  numbers_loop groups i b number first cur s = Some (groups', s') → Forall group_info_ok groups → Forall group_info_ok groups'.
Proof.
  induction groups as [|g groups IH]; intros i cur s groups' s' E Hg; cbn [numbers_loop] in E; [by injection E as <- <-|].
  apply Forall_cons in Hg as [Hg1 Hg]. cbv zeta in E. destruct (if b =? 0 then _ else _) as [count s1].
  destruct (safe_u32 (count + 1)); [|done]. cbn [mbind option_bind] in E. destruct (safe_u32 _); [|done]. cbn [mbind option_bind] in E.
  destruct (numbers_loop groups _ _ _ _ _ _) as [[l s2]|] eqn:E2; [|done]. injection E as <- <-. apply IH in E2; [|done]. by constructor.
Qed.

Lemma shared_table_ok t offset s t' s' : stream_ok s → 0 <= offset → tables_ok lin t → 0 <= m_szFirstPageObjOffset t →
  ReadSharedObjHintTable lin t offset s = Some (t', s') → tables_ok lin t'.
Proof.
  intros Hs Hoff Ht Hfirst E. unfold ReadSharedObjHintTable in E. passed E. destruct (safe_u32 (offset * 8)) as [bo|]; [|discriminate E].
  cbn [mbind option_bind] in E. passed E. apply (skip_ok (bo - m_BitPos s)) in Hs. passed E.
  field_of E num Hnum Hs. passed E. field_of E loc Hloc Hs. passed E. field_of E np Hnp Hs. field_of E tot Htot Hs. field_of E b1 Hb1 Hs. passed E.
  field_of E least Hleast Hs. field_of E b2 Hb2 Hs. passed E. passed E. passed E. passed E.
  destruct (groups_loop _ _ _ _ _ _ _ _) as [[groups q1]|] eqn:E1; [|discriminate E]. cbn [mbind option_bind] in E.
  apply groups_loop_ok in E1 as [_ Hg]; [|by apply width_in_range|apply HintsOffset_nonneg; lia|done..].
  destruct (read_numbers _ 1 _) as [flags q2]. match type of E with (?m ≫= _) = _ => destruct m as [q3|]; [|discriminate E] end. cbn [mbind option_bind] in E.
  destruct (numbers_loop _ _ _ _ _ _ _) as [[groups' q4]|] eqn:E4; [|discriminate E]. injection E as <- _. destruct Ht as [Hc Hp _].
  split; [done|done|]. by apply (numbers_loop_ok _ _ _ _ _ _ _ _ _ E4).
Qed.

Lemma accepted_tables_ok d data t : bytes data → 8 * zlen data < 2 ^ 32 → LoadHintStream lin d data = Some t → tables_ok lin t.
Proof.
  intros Hb Hlen E. unfold LoadHintStream in E. passed E. destruct (GetObjectFor _ d) as [[]|]; try discriminate E. cbv zeta in E.
  passed E. passed E. destruct (safe_u32 _) as [offset|] eqn:Eo; [|discriminate E]. cbn [mbind option_bind] in E. apply safe_u32_inv in Eo as [-> Ho]. passed E.
  destruct (ReadPageHintTable _ _) as [[t1 s1]|] eqn:E1; [|discriminate E]. cbn [mbind option_bind] in E.
  apply page_table_ok in E1 as (Hs1 & Ht1 & Hf1).
  2: { split_and!; [by apply Forall_take| |done]. cbn [bits_of m_pData]. unfold zlen in *. rewrite length_take. lia. }
  destruct (ReadSharedObjHintTable _ _ _ _) as [[t2 s2]|] eqn:E2; [|discriminate E]. injection E as <-.
  apply (shared_table_ok _ _ _ _ _ Hs1 (proj1 Ho) Ht1 Hf1 E2).
Qed.
End accepted.

Lemma tables_lookup lin t index : tables_ok lin t → 0 <= index < m_PageCount lin → ∃ p, m_PageInfos t !! Z.to_nat index = Some p ∧ page_info_ok p.
Proof.
  intros [Hc Hp _] Hi. destruct (m_PageInfos t !! Z.to_nat index) as [p|] eqn:E.
  - exists p. split; [done|]. by apply (Forall_lookup_1 _ _ _ _ Hp E).
  - apply lookup_ge_None in E. unfold zlen in Hc. lia.
Qed.

(** A stream of three pages and three shared groups, of which the second page is the
    first one of the file. *)
Definition sample_header : CPDF_LinearizedHeader := LinearizedHeader 90000 1 1000 3 5000 12 80000 600 200.
Definition sample_data : list Z :=
  [0; 0; 0; 2; 0; 0; 2; 188; 0; 3; 0; 0; 3; 232; 0; 10; 0; 0; 0; 0; 0; 0; 0; 0; 0; 0; 0; 0; 0; 2; 0; 3; 0; 1; 0; 0;
   76; 0; 125; 0; 15; 252; 132; 8; 128; 224; 0; 0; 0; 0;
   0; 0; 0; 30; 0; 0; 23; 112; 0; 0; 0; 1; 0; 0; 0; 3; 0; 2; 0; 0; 0; 100; 0; 7; 1; 253; 144; 0; 36].
Definition sample_dict : dict := [(bs "S", CPDF_Number (FxSigned 50))].
Definition sample_tables : CPDF_HintTables :=
  Hints 1 900 [Page 4 5000 1500 1 [0; 2]; Page 5 900 1000 12 []; Page 2 6500 2023 5 [1]]
    [SharedGroup 900 100 1 12; SharedGroup 6200 227 3 30; SharedGroup 6427 150 2 33].

Lemma sample_bytes : bytes sample_data.
Proof. solve_bytes. Qed.

(** C10: hint tables that are accepted have an entry for every page, with a place, a
    length and a number of objects that are not zero, so that [GetPagePos] and
    [CheckPage] never leave them, and [CheckPage] reports no error for a page of
    the file but where a shared group that it uses has no place or no length. *)
Theorem hint_tables_complete lin d data t index : 0 <= m_HintLength lin → 0 <= m_szFirstPageEndOffset lin → bytes data → 8 * zlen data < 2 ^ 32 →
  LoadHintStream lin d data = Some t → 0 <= index →
  tables_ok lin t ∧
  (GetPagePos lin t index = Some None ↔ m_PageCount lin <= index) ∧
  (∃ r, GetPagePos lin t index = Some r) ∧
  ∀ file_size avail hints v, ∃ status v', CheckPage lin file_size avail hints t index v = Some (status, v') ∧
    (status = kDataError → m_PageCount lin <= index ∨
      ∃ p i g, m_PageInfos t !! Z.to_nat index = Some p ∧ i ∈ pi_dwIdentifierArray p ∧ m_SharedObjGroupInfos t !! Z.to_nat i = Some g ∧
        (sg_szOffset g = 0 ∨ sg_dwLength g = 0)).
Proof.
  intros Hh He Hb Hlen E Hi. pose proof (accepted_tables_ok lin Hh He d data t Hb Hlen E) as Ht. split; [done|].
  assert (Hgroups : ∀ file_size avail hints ids v, (check_groups file_size avail hints (m_SharedObjGroupInfos t) ids v).1 = kDataError →
    ∃ i g, i ∈ ids ∧ m_SharedObjGroupInfos t !! Z.to_nat i = Some g ∧ (sg_szOffset g = 0 ∨ sg_dwLength g = 0)).
  { intros file_size avail hints. induction ids as [|i ids IH]; intros v; cbn [check_groups]; [done|].
    assert (Hrest : ∀ v, (check_groups file_size avail hints (m_SharedObjGroupInfos t) ids v).1 = kDataError →
      ∃ j g, j ∈ i :: ids ∧ m_SharedObjGroupInfos t !! Z.to_nat j = Some g ∧ (sg_szOffset g = 0 ∨ sg_dwLength g = 0)).
    { intros v2 H2. destruct (IH v2 H2) as (j & g & Hj & Hg). exists j, g. split; [by apply list_elem_of_further|done]. }
    destruct (_ !! _) as [g|] eqn:Eg; [|apply Hrest]. destruct (_ || _) eqn:Ez.
    { intros _. exists i, g. split; [apply list_elem_of_here|]. split; [done|lia]. }
    destruct (CheckDataRangeAndRequestIfUnavailable _ _ _ _ _ _) as [[] v2]; [apply Hrest|done]. }
  unfold GetPagePos, CheckPage. destruct (Z.leb_spec (m_PageCount lin) index) as [Hge|Hlt].
  { split; [done|]. split; [by eexists|]. intros file_size avail hints v. destruct (_ =? _); [by eexists _, _|]. eexists _, _. split; [done|]. auto. }
  destruct (tables_lookup lin t index Ht ltac:(lia)) as (p & -> & Hp). cbn [mbind option_bind]. split; [split; [done|lia]|]. split; [by eexists|].
  intros file_size avail hints v. destruct (_ =? _); [by eexists _, _|]. pose proof (pi_length_ok p Hp). replace (pi_dwLength p =? 0) with false by lia.
  destruct (CheckDataRangeAndRequestIfUnavailable _ _ _ _ _ _) as [[] v2]; [|by eexists _, _].
  destruct (check_groups _ _ _ _ _ _) as [status v3] eqn:Es. eexists _, _. split; [done|]. intros ->. right.
  specialize (Hgroups file_size avail hints (pi_dwIdentifierArray p) v2). rewrite Es in Hgroups. destruct (Hgroups eq_refl) as (i & g & H1 & H2). by exists p, i, g.
Qed.

Lemma hint_tables_complete_witness :
  LoadHintStream sample_header sample_dict sample_data = Some sample_tables ∧
  tables_ok sample_header sample_tables ∧ GetPagePos sample_header sample_tables 2 = Some (Some (6500, 2023, 5)) ∧
  GetPagePos sample_header sample_tables 3 = Some None.
Proof.
  assert (E : LoadHintStream sample_header sample_dict sample_data = Some sample_tables) by (vm_compute; reflexivity).
  destruct (hint_tables_complete sample_header sample_dict sample_data sample_tables 2 ltac:(done) ltac:(done) sample_bytes ltac:(done) E ltac:(done)) as (Ht & _).
  destruct (hint_tables_complete sample_header sample_dict sample_data sample_tables 3 ltac:(done) ltac:(done) sample_bytes ltac:(done) E ltac:(done)) as (_ & H3 & _).
  split; [exact E|]. split; [exact Ht|]. split; [reflexivity|]. by apply H3.
Defined.

(** ** Asking again *)
Section again.
Context (lin : CPDF_LinearizedHeader) (file_size : Z) (t : CPDF_HintTables) (index : Z).
(** What has arrived when the question is put for the [k]-th time. *)
Context (avails : nat → Z → Z → bool).

Fixpoint CheckPageAgain (k : nat) (v : CPDF_ReadValidator) : option (DocAvailStatus * CPDF_ReadValidator) :=
  match k with
  | O => CheckPage lin file_size (Some (avails 0%nat)) true t index v
  | S k' => '(_, v) ← CheckPageAgain k' v; CheckPage lin file_size (Some (avails k)) true t index v
  end.

Hypothesis Hsize : 0 <= file_size < 2 ^ 60.
Hypothesis Hzero : ∀ k a, avails k a 0 = true.

(** The segments cover what is asked for with the range. *)
Definition covered (segments : list (Z * Z)) (r : Z * Z) : Prop :=
  ∃ seg, seg ∈ segments ∧ seg.1 <= r.1 ∧ Z.min file_size (r.1 + r.2 + 512) <= seg.1 + seg.2.

Definition range_ok (r : Z * Z) : Prop := 0 <= r.1 ∧ 0 <= r.2 < 2 ^ 32.

(** A question that is answered [kDataNotAvailable] has asked for one of [ranges]
    that was not asked for before. *)
Definition asked (ranges : list (Z * Z)) (v v' : CPDF_ReadValidator) : Prop :=
  ∃ r, r ∈ ranges ∧ ¬ covered (hints_segments v) r ∧ covered (hints_segments v') r ∧ hints_segments v ⊆ hints_segments v'.

Lemma check_asks k r v v' : serves (avails k) (hints_segments v) → range_ok r →
  CheckDataRangeAndRequestIfUnavailable file_size (Some (avails k)) true r.1 r.2 v = (false, v') → asked [r] v v'.
Proof.
  intros Hserve [Hr1 Hr2] E. pose proof (check_result file_size (avails k) Hsize r.1 r.2 v Hr1 ltac:(lia)) as Hc. rewrite E in Hc.
  destruct Hc as (Hle & Ha & _ & Hseg). set (len := Z.min file_size (r.1 + r.2 + 512) - r.1) in *.
  destruct (decide (len = 0)) as [E0|Hne]; [rewrite E0, Hzero in Ha; discriminate|].
  destruct Hseg as (start & size & -> & H1 & _ & H3); [unfold len in *; lia|]. exists r. split_and!; [apply list_elem_of_here| | |].
  - intros ([o s] & Hin & Ho & Hcov). cbn [fst snd] in *. rewrite (Hserve o s Hin) in Ha; [discriminate|unfold len in *; lia..].
  - exists (start, size). cbn. split; [apply list_elem_of_here|]. unfold len in *. lia.
  - intros x Hx. by apply list_elem_of_further.
Qed.

Lemma check_passes k r v v' : range_ok r →
  CheckDataRangeAndRequestIfUnavailable file_size (Some (avails k)) true r.1 r.2 v = (true, v') → v' = v.
Proof.
  intros [Hr1 Hr2] E. pose proof (check_result file_size (avails k) Hsize r.1 r.2 v Hr1 ltac:(lia)) as Hc. rewrite E in Hc. apply Hc.
Qed.

Definition group_ranges (ids : list Z) : list (Z * Z) :=
  omap (λ i, (λ g, (sg_szOffset g, sg_dwLength g)) <$> m_SharedObjGroupInfos t !! Z.to_nat i) ids.
Definition page_ranges (p : PageInfo) : list (Z * Z) := (pi_szOffset p, pi_dwLength p) :: group_ranges (pi_dwIdentifierArray p).

Lemma group_ranges_length ids : (length (group_ranges ids) <= length ids)%nat.
Proof.
  unfold group_ranges. induction ids as [|i ids IH]; [done|]. cbn [omap list_omap]. destruct (_ !! _); cbn [fmap option_fmap option_map length]; [|lia].
  by apply le_n_S.
Qed.

Lemma asked_more ranges r v v' : asked ranges v v' → asked (r :: ranges) v v'.
Proof. intros (x & Hx & H). exists x. split; [by apply list_elem_of_further|done]. Qed.

Hypothesis Htables : tables_ok lin t.

Lemma check_groups_asks k ids : ∀ v v', serves (avails k) (hints_segments v) →
  check_groups file_size (Some (avails k)) true (m_SharedObjGroupInfos t) ids v = (kDataNotAvailable, v') → asked (group_ranges ids) v v'.
Proof.
  induction ids as [|i ids IH]; intros v v' Hs E; cbn [check_groups] in E; [done|]. unfold group_ranges. cbn [omap list_omap].
  destruct (_ !! _) as [g|] eqn:Eg; cbn [fmap option_fmap option_map]; [|by apply IH]. destruct (_ || _); [done|].
  apply (Forall_lookup_1 _ _ _ _ (to_groups _ _ Htables)) in Eg. change (range_ok (sg_szOffset g, sg_dwLength g)) in Eg.
  destruct (CheckDataRangeAndRequestIfUnavailable _ _ _ _ _ _) as [[] v2] eqn:Ec.
  - apply (check_passes k (sg_szOffset g, sg_dwLength g)) in Ec as ->; [|done]. apply asked_more. by apply IH.
  - injection E as <-. apply (check_asks k (sg_szOffset g, sg_dwLength g)) in Ec as (x & Hx & H); [|done..]. apply list_elem_of_singleton in Hx as ->.
    eexists. split; [apply list_elem_of_here|exact H].
Qed.

Lemma CheckPage_asks k p v v' : serves (avails k) (hints_segments v) → m_PageInfos t !! Z.to_nat index = Some p →
  CheckPage lin file_size (Some (avails k)) true t index v = Some (kDataNotAvailable, v') → asked (page_ranges p) v v'.
Proof.
  intros Hs Ep E. unfold CheckPage in E. destruct (_ =? _); [done|]. destruct (_ <=? _); [done|]. rewrite Ep in E. cbn [mbind option_bind] in E.
  destruct (_ =? 0); [done|]. apply (Forall_lookup_1 _ _ _ _ (to_pages _ _ Htables)) in Ep as [Hp1 Hp2 _].
  assert (Hr : range_ok (pi_szOffset p, pi_dwLength p)) by (split; cbn; lia).
  destruct (CheckDataRangeAndRequestIfUnavailable _ _ _ _ _ _) as [[] v2] eqn:Ec; injection E as E.
  - apply (check_passes k (pi_szOffset p, pi_dwLength p)) in Ec as ->; [|done]. apply asked_more. by apply (check_groups_asks k).
  - subst v2. apply (check_asks k (pi_szOffset p, pi_dwLength p)) in Ec as (x & Hx & H); [|done..]. apply list_elem_of_singleton in Hx as ->.
    eexists. split; [apply list_elem_of_here|exact H].
Qed.

Context (v : CPDF_ReadValidator).
Hypothesis Hfirst : serves (avails 0%nat) (hints_segments v).
(** What has been asked for is there at the next question. *)
Hypothesis Hserved : ∀ k status v', CheckPageAgain k v = Some (status, v') → serves (avails (S k)) (hints_segments v').

Lemma covered_mono segs segs' r : segs ⊆ segs' → covered segs r → covered segs' r.
Proof. intros Hsub (seg & Hin & H). exists seg. split; [by apply Hsub|done]. Qed.

(** As long as the answer is [kDataNotAvailable], the ranges that have been asked
    for are different. *)
Lemma again_asks p k v' : m_PageInfos t !! Z.to_nat index = Some p →
  (∀ j status w, (j <= k)%nat → CheckPageAgain j v = Some (status, w) → status = kDataNotAvailable) →
  (∃ status, CheckPageAgain k v = Some (status, v')) →
  ∃ l, NoDup l ∧ length l = S k ∧ l ⊆ page_ranges p ∧ Forall (covered (hints_segments v')) l.
Proof.
  intros Ep. revert v'. induction k as [|k IH]; intros v' Hall [status E].
  - pose proof (Hall _ _ _ (Nat.le_refl _) E) as ->. apply (CheckPage_asks _ p) in E as (r & Hr & _ & Hc & _); [|done..].
    exists [r]. split_and!; [apply NoDup_singleton|done| |by constructor]. intros x Hx%list_elem_of_singleton. by subst.
  - pose proof (Hall _ _ _ (Nat.le_refl _) E) as ->. cbn [CheckPageAgain] in E. destruct (CheckPageAgain k v) as [[status w]|] eqn:Ek; [|done].
    cbn [mbind option_bind] in E. destruct (IH w) as (l & Hnd & Hl & Hsub & Hcov); [|by eexists|].
    { intros j st u Hj. apply Hall. lia. }
    apply (CheckPage_asks _ p) in E as (r & Hr & Hnew & Hc & Hmono); [|by apply (Hserved _ _ _ Ek)|done].
    exists (r :: l). split_and!.
    + apply NoDup_cons. split; [|done]. intros Hin. by apply Hnew, (Forall_forall (covered _) l).
    + cbn. by rewrite Hl.
    + intros x [->|Hx]%elem_of_cons; [done|by apply Hsub].
    + constructor; [done|]. eapply Forall_impl; [exact Hcov|]. intros x. by apply covered_mono.
Qed.

Hypothesis Hindex : 0 <= index.

Lemma CheckPage_some k w : ∃ status w', CheckPage lin file_size (Some (avails k)) true t index w = Some (status, w').
Proof.
  unfold CheckPage. destruct (_ =? _); [by eexists _, _|]. destruct (Z.leb_spec (m_PageCount lin) index); [by eexists _, _|].
  destruct (tables_lookup lin t index Htables ltac:(lia)) as (p & -> & _). cbn [mbind option_bind]. destruct (_ =? 0); [by eexists _, _|].
  destruct (CheckDataRangeAndRequestIfUnavailable _ _ _ _ _ _) as [[] w2]; [|by eexists _, _]. destruct (check_groups _ _ _ _ _ _). by eexists _, _.
Qed.

Lemma again_some k : ∃ status w, CheckPageAgain k v = Some (status, w).
Proof.
  induction k as [|k (status & w & IH)]; cbn [CheckPageAgain]; [apply CheckPage_some|]. rewrite IH. apply CheckPage_some.
Qed.

Lemma again_search n : (∃ k status w, (k <= n)%nat ∧ CheckPageAgain k v = Some (status, w) ∧ status ≠ kDataNotAvailable) ∨
  (∀ k status w, (k <= n)%nat → CheckPageAgain k v = Some (status, w) → status = kDataNotAvailable).
Proof.
  assert (Hone : ∀ k, (∃ status w, CheckPageAgain k v = Some (status, w) ∧ status ≠ kDataNotAvailable) ∨
    (∀ status w, CheckPageAgain k v = Some (status, w) → status = kDataNotAvailable)).
  { intros k. destruct (again_some k) as (status & w & E). destruct status; [by left; eexists _, _|right|by left; eexists _, _]. intros st u E2. congruence. }
  induction n as [|n [(k & status & w & Hk & H)|IH]].
  - destruct (Hone 0%nat) as [(status & w & H)|H]; [by left; exists 0%nat, status, w|right]. intros k status w Hk. replace k with 0%nat by lia. apply H.
  - left. exists k, status, w. split; [lia|done].
  - destruct (Hone (S n)) as [(status & w & H)|H]; [left; exists (S n), status, w; by split|right].
    intros k status w Hk. destruct (decide (k = S n)) as [->|Hne]; [apply H|]. apply IH. lia.
Qed.

Lemma again_ends : ∃ k status w, (k <= match m_PageInfos t !! Z.to_nat index with Some p => S (length (pi_dwIdentifierArray p)) | None => 0 end)%nat ∧
  CheckPageAgain k v = Some (status, w) ∧ status ≠ kDataNotAvailable.
Proof.
  destruct (again_search (match m_PageInfos t !! Z.to_nat index with Some p => S (length (pi_dwIdentifierArray p)) | None => 0 end)) as [H|Hall]; [done|exfalso].
  destruct (m_PageInfos t !! Z.to_nat index) as [p|] eqn:Ep.
  - destruct (again_some (S (length (pi_dwIdentifierArray p)))) as (status & w & E).
    destruct (again_asks p _ w Ep Hall ltac:(by eexists)) as (l & Hnd & Hl & Hsub & _).
    pose proof (NoDup_submseteq l (page_ranges p) Hnd Hsub) as Hle%submseteq_length. rewrite Hl in Hle. unfold page_ranges in Hle. cbn in Hle.
    pose proof (group_ranges_length (pi_dwIdentifierArray p)). lia.
  - destruct (again_some 0) as (status & w & E). pose proof (Hall 0%nat status w (Nat.le_refl _) E) as ->. cbn [CheckPageAgain] in E.
    unfold CheckPage in E. destruct (_ =? _); [done|]. destruct (Z.leb_spec (m_PageCount lin) index); [done|].
    destruct (tables_lookup lin t index Htables ltac:(lia)) as (p & Ep2 & _). by rewrite Ep in Ep2.
Qed.
End again.

(** C9: a page that is waited for becomes available: if after each answer of
    [CheckPage] the data that the validator has asked for arrive (a range of no
    bytes being always there), [CheckPage] answers something else than
    [kDataNotAvailable] in the end, at the latest when it has been asked once for
    each range of the page, which are its own and its shared groups, and once more. *)
Theorem page_becomes_available lin d data t file_size index avails v :
  0 <= m_HintLength lin → 0 <= m_szFirstPageEndOffset lin → bytes data → 8 * zlen data < 2 ^ 32 → LoadHintStream lin d data = Some t →
  0 <= file_size < 2 ^ 60 → 0 <= index → (∀ k a, avails k a 0 = true) → serves (avails 0%nat) (hints_segments v) →
  (∀ k status v', CheckPageAgain lin file_size t index avails k v = Some (status, v') → serves (avails (S k)) (hints_segments v')) →
  ∃ k status v', (k <= match m_PageInfos t !! Z.to_nat index with Some p => S (length (pi_dwIdentifierArray p)) | None => 0 end)%nat ∧
    CheckPageAgain lin file_size t index avails k v = Some (status, v') ∧ status ≠ kDataNotAvailable.
Proof.
  intros Hh He Hb Hlen E Hfs Hi Hz Hs0 Hserved. pose proof (accepted_tables_ok lin Hh He d data t Hb Hlen E) as Ht.
  by apply again_ends.
Qed.

(** Nothing has arrived at first, then everything. *)
Lemma page_becomes_available_witness :
  let avails (k : nat) (_ n : Z) := match k with O => n =? 0 | S _ => true end in
  CheckPageAgain sample_header 90000 sample_tables 0 avails 0 validator_new =
    Some (kDataNotAvailable, ReadValidator false true false [(4608, 2560)]) ∧
  ∃ k status v', (k <= 3)%nat ∧ CheckPageAgain sample_header 90000 sample_tables 0 avails k validator_new = Some (status, v') ∧ status ≠ kDataNotAvailable.
Proof.
  intros avails. split; [vm_compute; reflexivity|].
  apply (page_becomes_available sample_header sample_dict sample_data sample_tables 90000 0 avails validator_new); try done.
  - apply sample_bytes.
  - by intros [|k] a.
  - intros o s Hin. by apply elem_of_nil in Hin.
Defined.
