(* ===== verification/PageList.v ===== *)
(** * The page tree as a list of pages

    What the operations of [PageTree.v] mean: the tree of a document stands for
    the list of its leaves, [m_PageList] is a part of that list that is already
    known, and [m_pTreeTraversal] a position in it. *)
From Stdlib Require Import Sorted String.
From stdpp Require Import gmap.
From S2P Require Import Prelude Words FxNumber Objects Dict StdMap Security DocParser Holder Pointer Store PageTree.
Import String.StringSyntax.

(** ** Trees *)
Inductive tree := Leaf (n : Z) | Node (n : Z) (kids : list tree).

Section induction.
Context (P : tree → Prop) (HL : ∀ n, P (Leaf n)) (HN : ∀ n kids, Forall P kids → P (Node n kids)).
Fixpoint tree_ind' (t : tree) : P t :=
  match t with
  | Leaf n => HL n
  | Node n kids => HN n kids ((fix go (l : list tree) : Forall P l := match l with
                               | [] => @List.Forall_nil _ P
                               | t :: l => @List.Forall_cons _ P t l (tree_ind' t) (go l)
                               end) kids)
  end.
End induction.

Definition num (t : tree) : Z := match t with Leaf n | Node n _ => n end.
Fixpoint leaves (t : tree) : list Z := match t with Leaf n => [n] | Node _ kids => flat_map leaves kids end.
Fixpoint nodes (t : tree) : list Z := match t with Leaf n => [n] | Node n kids => n :: flat_map nodes kids end.
Fixpoint height (t : tree) : nat :=
  match t with Leaf _ => 0 | Node _ kids => S (list_max (map height kids)) end.
Notation size t := (length (leaves t)).

(** The tree in the store. *)
Section represents.
Context (obj : Z → option CPDF_Object).

Definition is_leaf (n : Z) : Prop :=
  ∃ m, obj n = Some (CPDF_Dictionary m) ∧ Dict.KeyExist m (bs "Kids") = false ∧ GetObjectFor (bs "Type") m = Some (CPDF_Name (bs "Page")).
Definition is_node (n : Z) (kids : list Z) (count : nat) : Prop :=
  ∃ m k, obj n = Some (CPDF_Dictionary m) ∧
    GetObjectFor (bs "Kids") m = Some (CPDF_Array (map CPDF_Reference kids)) ∧
    GetObjectFor (bs "Count") m = Some (CPDF_Number k) ∧ GetSigned k = Z.of_nat count ∧ IsInteger k = true ∧
    match GetObjectFor (bs "Type") m with Some (CPDF_Name s) => s ≠ bs "Page" | _ => True end.

Fixpoint represents (t : tree) : Prop :=
  match t with
  | Leaf n => is_leaf n
  | Node n kids =>
      is_node n (map num kids) (length (flat_map leaves kids)) ∧
      (fix all l := match l with [] => True | t :: l => represents t ∧ all l end) kids
  end.

Lemma represents_node n kids :
  represents (Node n kids) ↔ is_node n (map num kids) (length (flat_map leaves kids)) ∧ Forall represents kids.
Proof.
  cbn. split; intros [H1 H2]; (split; [done|]); clear H1.
  - induction kids as [|t l IH]; constructor; naive_solver.
  - induction H2; naive_solver.
Qed.

Lemma represents_dict t : represents t → ∃ m, obj (num t) = Some (CPDF_Dictionary m).
Proof. destruct t as [n|n kids]; [intros (m & Hm & _)|intros [(m & k & Hm & _) _]]; by exists m. Qed.
End represents.

Lemma in_flat_map' {A B} (f : A → list B) l x : x ∈ flat_map f l ↔ ∃ t, t ∈ l ∧ x ∈ f t.
Proof. rewrite list_elem_of_In, in_flat_map. by setoid_rewrite list_elem_of_In. Qed.

(** Only the objects of the tree matter. *)
Lemma represents_ext obj obj' t : (∀ n, n ∈ nodes t → obj' n = obj n) → represents obj t → represents obj' t.
Proof.
  revert t. apply (tree_ind' (λ t, _ → _ → _)).
  - intros n He (m & Hm & Hr). exists m. rewrite He by (cbn; set_solver). by split.
  - intros n kids IH He. rewrite !represents_node. intros [(m & k & Hm & Hr) Hk]. cbn in He. split.
    + exists m, k. rewrite He by set_solver. by split.
    + rewrite Forall_forall in IH, Hk |- *. intros t Ht. apply IH; [done| |by apply Hk].
      intros x Hx. apply He. apply elem_of_cons. right. apply in_flat_map'. by exists t.
Qed.

Lemma kid_split {B} (f : tree → list B) k kids kid :
  kids !! k = Some kid → flat_map f kids = flat_map f (take k kids) ++ f kid ++ flat_map f (drop (S k) kids).
Proof. intros Hk. rewrite <-(take_drop_middle kids k kid Hk) at 1. by rewrite flat_map_app. Qed.

Lemma kid_take {B} (f : tree → list B) k kids kid :
  kids !! k = Some kid → flat_map f (take (S k) kids) = flat_map f (take k kids) ++ f kid.
Proof. intros Hk. rewrite (take_S_r _ _ _ Hk), flat_map_app. cbn. by rewrite app_nil_r. Qed.

Lemma height_kid k kids kid n : kids !! k = Some kid → (height kid < height (Node n kids))%nat.
Proof.
  intros Hk. cbn. apply Nat.lt_succ_r. assert (Hin : In (height kid) (map height kids)).
  { apply in_map, list_elem_of_In, list_elem_of_lookup. by exists k. }
  pose proof (proj1 (list_max_le (map height kids) (list_max (map height kids))) (Nat.le_refl _)) as Hall.
  rewrite List.Forall_forall in Hall. by apply Hall.
Qed.

Lemma num_in t : num t ∈ nodes t.
Proof. destruct t; cbn; set_solver. Qed.

Lemma nodup_kid k kids kid n :
  NoDup (nodes (Node n kids)) → kids !! k = Some kid → NoDup (nodes kid) ∧ n ∉ nodes kid.
Proof.
  intros Hn Hk. cbn in Hn. apply NoDup_cons in Hn as [Hn Hd]. rewrite (kid_split nodes _ _ _ Hk) in Hn, Hd.
  apply NoDup_app in Hd as (_ & _ & Hd). apply NoDup_app in Hd as (Hd & _). split; [done|]. set_solver.
Qed.

(** ** Positions

    [b] pages of the tree [t] are before the position that [stack] describes. *)
Fixpoint at_position (t : tree) (stack : list (pointer * nat)) (b : nat) : Prop :=
  match stack, t with
  | (q, k) :: rest, Node n kids =>
      q = (n, []) ∧ (k <= length kids)%nat ∧
      match rest with
      | [] => b = length (flat_map leaves (take k kids))
      | _ => ∃ kid b', kids !! k = Some kid ∧ at_position kid rest b' ∧ b = (length (flat_map leaves (take k kids)) + b')%nat
      end
  | _, _ => False
  end.

Lemma position_below t : ∀ stack b, at_position t stack b → (b <= size t)%nat.
Proof.
  apply (tree_ind' (λ t, ∀ stack b, at_position t stack b → (b <= size t)%nat)).
  - intros n [|[q k] rest] b; cbn; by intros.
  - intros n kids IH [|[q k] rest] b; cbn; [done|]. intros (_ & Hk & Hr). destruct rest as [|x rest].
    + subst b. rewrite <-(take_drop k kids) at 2. rewrite flat_map_app, length_app. lia.
    + destruct Hr as (kid & b' & Hkid & Hp & ->). rewrite (kid_split leaves _ _ _ Hkid), !length_app.
      rewrite Forall_forall in IH. assert (kid ∈ kids) as Hin by (apply list_elem_of_lookup; by exists k).
      specialize (IH kid Hin _ _ Hp). lia.
Qed.

Section pages.
Context (original : Z → option CPDF_Object) (base : CPDF_Parser → Prop) `{HolderLaws original base}.
Notation object_in := (object_in original).
Notation held := (held original base).
Notation same := (same original base).

(** Only the traversal and the list of pages have changed. *)
Record moved (p p' : CPDF_Parser) : Prop := {
  mv_held : held p';
  mv_objects n : object_in p' n = object_in p n;
  mv_last : m_LastObjNum p' = m_LastObjNum p;
  mv_loaded n : loaded p n → loaded p' n;
  mv_document : m_Document p' = Document (m_pRootDict (m_Document p)) (m_pInfoDict (m_Document p)) (traversal p')
    (m_bHasValidCrossReferenceTable (m_Document p)) (m_bReachedMaxPageLevel (m_Document p))
    (m_iNextPageToTraverse (m_Document p)) (pages p');
}.

Lemma moved_same p p' : same p p' → moved p p' ∧ traversal p' = traversal p ∧ pages p' = pages p.
Proof.
  intros [H1 H2 H3 H4 H5]. unfold traversal, pages. rewrite H3. split_and!; [|done..].
  constructor; try done. unfold traversal, pages. rewrite H3. by destruct (m_Document p).
Qed.
Lemma moved_trans p1 p2 p3 : moved p1 p2 → moved p2 p3 → moved p1 p3.
Proof.
  intros [A1 A2 A3 A4 A5] [B1 B2 B3 B4 B5]. constructor; [done|congruence|congruence|eauto|]. rewrite B5, A5. done.
Qed.

Lemma moved_traversal f p : held p → moved p (with_traversal f p) ∧ traversal (with_traversal f p) = f (traversal p) ∧
  pages (with_traversal f p) = pages p.
Proof. intros Hp. split_and!; [|done..]. constructor; try done. by apply (held_with_document original base). Qed.

Lemma moved_page s n p :
  held p → (s < length (pages p))%nat → ∃ p', SetPageObjNum (Z.of_nat s) n p = Some p' ∧ moved p p' ∧
    traversal p' = traversal p ∧ pages p' = <[s := n]> (pages p).
Proof.
  intros Hp Hs. unfold SetPageObjNum, GetPageCount, zlen.
  replace ((0 <=? Z.of_nat s) && (Z.of_nat s <? Z.of_nat (length (pages p)))) with true by lia. rewrite Nat2Z.id.
  eexists. split; [reflexivity|]. split_and!; [|done..]. constructor; try done. by apply (held_with_document original base).
Qed.

Lemma represents_moved p p' t : moved p p' → represents (object_in p) t → represents (object_in p') t.
Proof. intros Hm. apply represents_ext. intros n _. apply (mv_objects _ _ Hm). Qed.

(** The kid [t] after the kids [done_], as the code finds it. *)
Lemma next_kid n kids done_ t l p :
  kids = done_ ++ t :: l → held p → loaded p n → represents (object_in p) (Node n kids) →
  ∃ p', GetDictAt (n, [InDict (bs "Kids")]) (length done_) p = (Some (num t, []), p') ∧ same p p' ∧ loaded p' (num t) ∧
    bool_decide (GetNameFor (num t, []) (bs "Type") p' = bs "Page") = (match t with Leaf _ => true | Node _ _ => false end) ∧
    (∀ y ts, t = Node y ts → GetIntegerFor (num t, []) (bs "Count") p' = (Z.of_nat (size t), p')).
Proof.
  intros Hkids Hp Hl Hr. destruct (proj1 (represents_node _ _ _) Hr) as [(m & c & Hm & Hk & _) Hall].
  assert (Ht : represents (object_in p) t) by (rewrite Forall_forall in Hall; apply Hall; rewrite Hkids; set_solver).
  destruct (represents_dict _ _ Ht) as [m' Hm'].
  assert (Hi : map CPDF_Reference (map num kids) !! length done_ = Some (CPDF_Reference (num t))).
  { change (map CPDF_Reference) with (fmap (M := list) CPDF_Reference). change (map num) with (fmap (M := list) num).
    rewrite !list_lookup_fmap, Hkids. by rewrite list_lookup_middle. }
  destruct (GetDictAt_behind original base n _ _ _ (num t) p m' m Hp Hl Hm Hk Hi Hm') as (p' & E & Hs & Hl').
  exists p'. assert (Hd : dict_at (num t, []) p' = Some m').
  { apply (dict_at_loaded original); [done|]. by rewrite (same_objects _ _ _ _ Hs). }
  split_and!; [done..| |].
  - unfold GetNameFor. rewrite Hd. cbn [mbind option_bind]. destruct t as [y|y ts]; cbn [num] in *.
    + destruct Ht as (m2 & Hm2 & _ & Ht). rewrite Hm' in Hm2. injection Hm2 as <-. by rewrite Ht.
    + destruct (proj1 (represents_node _ _ _) Ht) as [(m2 & c2 & Hm2 & _ & _ & _ & _ & Ht2) _]. rewrite Hm' in Hm2. injection Hm2 as <-.
      destruct (GetObjectFor (bs "Type") m') as [[]|]; try done. by apply bool_decide_eq_false_2.
  - intros y ts ->. cbn [num] in *. destruct (proj1 (represents_node _ _ _) Ht) as [(m2 & c2 & Hm2 & _ & Hc2 & Hs2 & _) _]. rewrite Hm' in Hm2. injection Hm2 as <-.
    rewrite (GetIntegerFor_direct original y _ p' m' c2 Hl'); [by rewrite Hs2|by rewrite (same_objects _ _ _ _ Hs)|done].
Qed.
End pages.
