(* ===== verification/PageWalk.v ===== *)
(** * The traversal of the page tree

    [TraversePDFPages] goes from one position of the tree to another, and enters
    the pages on its way into [m_PageList]. *)
From Stdlib Require Import Sorted String.
From stdpp Require Import gmap.
From S2P Require Import Prelude Words FxNumber Objects Dict StdMap Security DocParser Holder Pointer Store PageTree PageList.
Import String.StringSyntax.

Section walk.
Context (original : Z → option CPDF_Object) (base : CPDF_Parser → Prop) `{HolderLaws original base}.
Notation object_in := (object_in original).
Notation held := (held original base).
Notation moved := (moved original base).
Notation size t := (length (leaves t)).

Definition stack_loaded (p : CPDF_Parser) (stack : list (pointer * nat)) : Prop := Forall (λ e, loaded p e.1.1) stack.

Lemma stack_loaded_moved p p' s : moved p p' → stack_loaded p s → stack_loaded p' s.
Proof. intros Hm Hs. eapply Forall_impl; [exact Hs|]. intros e. apply (mv_loaded _ _ _ _ Hm). Qed.

(** What a traversal does from position [b] of the tree [t], when [g] pages are
    asked for: the pages [take g (drop b (leaves t))] are entered from index
    [start] on. *)
Definition walked (t : tree) (pre : list (pointer * nat)) (b g start : nat) (p : CPDF_Parser) (popped : bool)
    (res : option (option pointer * Z * CPDF_Parser)) : Prop :=
  let rem := drop b (leaves t) in
  let found := take g rem in
  ∃ r p' s', res = Some (r, Z.of_nat (g - length found), p') ∧ moved p p' ∧
    traversal p' = pre ++ s' ∧ stack_loaded p' s' ∧ pages p' = list_inserts start found (pages p) ∧
    ((g <= length rem)%nat → ∃ n, rem !! (g - 1)%nat = Some n ∧ r = Some (n, [])) ∧
    if popped then s' = [] ∧ (b + length found = size t)%nat ∨ at_position t s' (b + length found) ∧ (g <= length rem)%nat
    else at_position t s' (b + length found) ∧ ((g <= length rem)%nat ∨ (∃ q, s' = [(q, match t with Node _ kids => length kids | _ => 0%nat end)])).

Definition walk_ok (t : tree) : Prop :=
  ∀ depth p level pre s b g start,
    held p → represents (object_in p) t → NoDup (nodes t) → (height t + level <= kMaxPageLevel)%nat → (height t <= depth)%nat →
    m_bReachedMaxPageLevel (m_Document p) = false → traversal p = pre ++ s → length pre = level →
    at_position t s b → stack_loaded p s → (1 <= g)%nat → (start + g <= length (pages p))%nat →
    walked t pre b g start p true (TraversePDFPages depth (Z.of_nat (start + g - 1)) (Z.of_nat g) level p).

Lemma walked_step t pre b g start p found p2 res :
  drop b (leaves t) = found ++ drop (b + length found) (leaves t) → (length found < g)%nat → moved p p2 →
  pages p2 = list_inserts start found (pages p) →
  walked t pre (b + length found) (g - length found) (start + length found) p2 false res → walked t pre b g start p false res.
Proof.
  intros Hd Hlt Hm Hpages (r & p' & s' & E & Hm' & Ht & Hl & Hp & Hr & Hpos). unfold walked. rewrite Hd.
  set (rem := drop (b + length found) (leaves t)) in *.
  assert (Et : take g (found ++ rem) = found ++ take (g - length found) rem) by (rewrite take_app_ge by lia; done).
  exists r, p', s'. rewrite Et, !length_app. split_and!; try done.
  - rewrite E. do 3 f_equal. lia.
  - by apply (moved_trans original base p p2 p').
  - rewrite Hp, Hpages. rewrite list_inserts_app_l. by rewrite (Nat.add_comm start).
  - intros Hg. destruct Hr as (x & Hx & ->); [lia|]. exists x. split; [|done]. rewrite lookup_app_r by lia. rewrite <-Hx. f_equal. lia.
  - destruct Hpos as [Hpos _]. by rewrite Nat.add_assoc.
  - destruct Hpos as [_ [Hg|Hg]]; [left; lia|by right].
Qed.

(** ** The kids of a node *)
Section kids.
Context (n : Z) (kids : list tree) (pre : list (pointer * nat)) (level depth : nat).
Hypothesis Hpre : length pre = level.
Hypothesis Hheight : (height (Node n kids) + level <= kMaxPageLevel)%nat.
Hypothesis Hdepth : (height (Node n kids) <= S depth)%nat.
Hypothesis Hnodup : NoDup (nodes (Node n kids)).
Hypothesis IH : Forall walk_ok kids.
Notation visit iPage := (λ n, TraversePDFPages depth iPage n).

Lemma alter_top k rest : alter (λ '(q, k), (q, S k)) level (pre ++ ((n, @nil step), k) :: rest) = pre ++ ((n, []), S k) :: rest.
Proof. rewrite <-Hpre. replace (length pre) with (length pre + 0)%nat by lia. by rewrite alter_app_r. Qed.

(** The kid with index [k] as the code finds it. *)
Lemma kid_found k kid p :
  held p → loaded p n → represents (object_in p) (Node n kids) → kids !! k = Some kid →
  ConvertToIndirectObjectAt (n, [InDict (bs "Kids")]) k p = Some p ∧
  ∃ p', GetDictAt (n, [InDict (bs "Kids")]) k p = (Some (num kid, []), p') ∧ same original base p p' ∧ loaded p' (num kid) ∧
    num kid ≠ n ∧ KeyExist (num kid, []) (bs "Kids") p' = match kid with Node _ _ => true | Leaf _ => false end.
Proof.
  intros Hp Hl Hr Hk. destruct (proj1 (represents_node _ _ _) Hr) as [(m & c & Hm & Hkids & _) Hall].
  assert (Hkid : represents (object_in p) kid) by (rewrite Forall_forall in Hall; apply Hall, list_elem_of_lookup; by exists k).
  destruct (represents_dict _ _ Hkid) as [m' Hm'].
  assert (Hi : map CPDF_Reference (map num kids) !! k = Some (CPDF_Reference (num kid))).
  { change (map CPDF_Reference) with (fmap (M := list) CPDF_Reference). change (map num) with (fmap (M := list) num).
    by rewrite !list_lookup_fmap, Hk. }
  split.
  - unfold ConvertToIndirectObjectAt. cbn [fst snd app]. rewrite (object_at_loaded original n _ p _ Hl Hm). cbn [walk child].
    rewrite Hkids. cbn [mbind option_bind walk child]. by rewrite Hi.
  - destruct (GetDictAt_behind original base n _ _ k (num kid) p m' m Hp Hl Hm Hkids Hi Hm') as (p' & E & Hs & Hl').
    exists p'. split_and!; [done..| |].
    + destruct (nodup_kid _ _ _ _ Hnodup Hk) as [_ Hn]. intros E'. apply Hn. rewrite <-E'. apply num_in.
    + unfold KeyExist. rewrite (dict_at_loaded original (num kid) p' m' Hl') by (by rewrite (same_objects _ _ _ _ Hs)).
      destruct kid as [x|x l]; cbn [num] in *.
      * destruct Hkid as (m2 & Hm2 & Hk2 & _). rewrite Hm' in Hm2. by injection Hm2 as ->.
      * destruct (proj1 (represents_node _ _ _) Hkid) as [(m2 & c2 & Hm2 & Hk2 & _) _]. rewrite Hm' in Hm2. injection Hm2 as ->.
        unfold Dict.KeyExist. by rewrite Hk2.
Qed.

Lemma kid_size k kid : kids !! k = Some kid → (length (flat_map leaves (take k kids)) + size kid <= size (Node n kids))%nat.
Proof. intros Hk. cbn [leaves]. rewrite (kid_split leaves _ _ _ Hk), !length_app. lia. Qed.

Lemma kid_rest k kid b' :
  kids !! k = Some kid → (b' <= size kid)%nat →
  let b := (length (flat_map leaves (take k kids)) + b')%nat in
  drop b (leaves (Node n kids)) = drop b' (leaves kid) ++ drop (length (flat_map leaves (take (S k) kids))) (leaves (Node n kids)).
Proof.
  intros Hk Hb. cbv zeta. cbn [leaves]. rewrite (kid_take leaves _ _ _ Hk), length_app.
  rewrite (kid_split leaves _ _ _ Hk). rewrite drop_app_add. rewrite drop_app_le by lia. f_equal.
  rewrite app_assoc, drop_app_length' by (by rewrite length_app). done.
Qed.

Lemma kids_walk todo : ∀ k rest b g start p,
  held p → represents (object_in p) (Node n kids) → m_bReachedMaxPageLevel (m_Document p) = false →
  traversal p = pre ++ ((n, []), k) :: rest → at_position (Node n kids) (((n, []), k) :: rest) b →
  stack_loaded p (((n, []), k) :: rest) → (1 <= g)%nat → (start + g <= length (pages p))%nat → todo = (length kids - k)%nat →
  let iPage := Z.of_nat (start + g - 1) in
  walked (Node n kids) pre b g start p false
    (traverse_kids (visit iPage) iPage (n, []) (n, [InDict (bs "Kids")]) level todo k (Z.of_nat g) p).
Proof.
  induction todo as [|todo IHt]; intros k rest b g start p Hp Hrep Hreach Htrav Hpos Hload Hg Hlen Htodo; cbv zeta.
  - destruct Hpos as (_ & Hk & Hr). assert (k = length kids) as -> by lia.
    destruct rest as [|e rest]; [|destruct Hr as (kid & b' & Hkid & _); by rewrite lookup_ge_None_2 in Hkid by lia].
    rewrite take_ge in Hr by lia. assert (Ed : drop b (leaves (Node n kids)) = []) by (apply drop_ge; cbn [leaves]; lia).
    unfold walked. rewrite Ed, take_nil. exists None, p, [((n, []), length kids)]. cbn [traverse_kids length].
    split_and!; try done.
    + do 3 f_equal. lia.
    + by apply moved_same, same_refl.
    + intros Hx. cbn in Hx. lia.
    + cbn. rewrite take_ge by lia. split_and!; [done..|lia].
    + right. by exists (n, []).
  - pose proof Hpos as (_ & Hk & _). destruct (lookup_lt_is_Some_2 kids k) as [kid Hkid]; [lia|].
    assert (Hl : loaded p n) by (by apply List.Forall_inv in Hload).
    destruct (kid_found k kid p Hp Hl Hrep Hkid) as (Ec & p1 & Ed & Hs1 & Hl1 & Hne & Ek).
    destruct (moved_same _ _ _ _ Hs1) as (Hm1 & Ht1 & Hp1).
    cbn [traverse_kids]. replace (Z.of_nat g =? 0) with false by lia. rewrite Ec. cbn [mbind option_bind]. rewrite Ed.
    rewrite decide_False by congruence. rewrite Ek. pose proof (represents_moved _ _ _ _ _ Hm1 Hrep) as Hrep1.
    assert (Hkrep : represents (object_in p1) kid).
    { apply represents_node in Hrep1 as [_ Hall]. rewrite Forall_forall in Hall. apply Hall, list_elem_of_lookup. by exists k. }
    destruct kid as [x|x l]; cbn [negb num].
    + (* a page *)
      destruct rest as [|e rest]; [|destruct Hpos as (_ & _ & kid & b' & Hkid' & Hq & _); rewrite Hkid in Hkid'; injection Hkid' as <-; by destruct e].
      destruct Hpos as (_ & _ & ->).
      destruct (moved_page original base start x p1 (mv_held _ _ _ _ Hm1)) as (p2 & E2 & Hm2 & Ht2 & Hp2); [rewrite Hp1; lia|].
      replace (Z.of_nat (start + g - 1) - Z.of_nat g + 1) with (Z.of_nat start) by lia. cbn [GetObjNum snd fst]. rewrite E2.
      cbn [mbind option_bind].
      set (p3 := with_traversal _ p2). destruct (moved_traversal original base (alter (λ '(q, k), (q, S k)) level) p2 (mv_held _ _ _ _ Hm2)) as (Hm3 & Ht3 & Hp3).
      fold p3 in Hm3, Ht3, Hp3. assert (Hm : moved p p3) by eauto using moved_trans.
      assert (Et : traversal p3 = pre ++ [((n, []), S k)]) by (by rewrite Ht3, Ht2, Ht1, Htrav, alter_top).
      assert (Ep : pages p3 = list_inserts start [x] (pages p)) by (by rewrite Hp3, Hp2, Hp1).
      set (b := length (flat_map leaves (take k kids))).
      assert (Hd : drop b (leaves (Node n kids)) = [x] ++ drop (b + 1) (leaves (Node n kids))).
      { pose proof (kid_rest k _ 0 Hkid ltac:(lia)) as Hr. cbv zeta in Hr. rewrite Nat.add_0_r in Hr. fold b in Hr. rewrite Hr.
        by rewrite (kid_take leaves _ _ _ Hkid), length_app. }
      assert (Hpos3 : at_position (Node n kids) [((n, []), S k)] (b + 1)).
      { split_and!; [done|lia|]. by rewrite (kid_take leaves _ _ _ Hkid), length_app. }
      assert (Hload3 : stack_loaded p3 [((n, []), S k)]).
      { constructor; [|constructor]. cbn. by apply (mv_loaded _ _ _ _ Hm). }
      destruct (Z.eqb_spec (Z.of_nat g - 1) 0) as [Hg1|Hg1].
      * assert (g = 1%nat) as -> by lia. unfold walked. rewrite Hd. cbn [app take].
        exists (Some (x, [])), p3, [((n, []), S k)]. cbn [length]. split_and!; try done.
        -- intros _. by exists x.
        -- left. lia.
      * replace (Z.of_nat g - 1) with (Z.of_nat (g - 1)) by lia.
        apply (walked_step _ _ _ _ _ _ [x] p3); [done|cbn; lia|done|done|]. cbn [length].
        replace (start + g - 1)%nat with (start + 1 + (g - 1) - 1)%nat by lia.
        apply (IHt (S k) []); try done; try lia.
        -- apply (mv_held _ _ _ _ Hm).
        -- by apply (represents_moved _ _ _ _ _ Hm).
        -- by rewrite (mv_document _ _ _ _ Hm).
        -- rewrite Ep, length_inserts. lia.
    + (* a node *)
      set (base_ := length (flat_map leaves (take k kids))).
      set (pre' := pre ++ [((n, @nil step), k)]).
      set (p2 := if (length (traversal p1) =? S level)%nat then _ else p1).
      assert (Hin : ∃ s b', traversal p2 = pre' ++ s ∧ at_position (Node x l) s b' ∧ b = (base_ + b')%nat ∧ stack_loaded p2 s ∧
                moved p p2 ∧ pages p2 = pages p ∧ m_bReachedMaxPageLevel (m_Document p2) = false).
      { destruct rest as [|e rest].
        - destruct Hpos as (_ & _ & ->). exists [((x, []), 0%nat)], 0%nat. 
          assert (Ef : (length (traversal p1) =? S level)%nat = true) by (apply Nat.eqb_eq; rewrite Ht1, Htrav, length_app; cbn; lia).
          unfold p2. rewrite Ef.
          match goal with |- context [with_traversal ?f p1] =>
            destruct (moved_traversal original base f p1 (mv_held _ _ _ _ Hm1)) as (Hm2 & Ht2 & Hp2);
            assert (Hm : moved p (with_traversal f p1)) by eauto using moved_trans; clear p2 Ef; set (p2 := with_traversal f p1) in *
          end.
          split_and!; try done.
          + etransitivity; [exact Ht2|]. by rewrite Ht1, Htrav.
          + cbn. split_and!; [done|lia|done].
          + constructor; [|constructor]. exact Hl1.
          + by rewrite (mv_document _ _ _ _ Hm).
        - destruct Hpos as (_ & _ & kid & b' & Hkid' & Hq & Hb). rewrite Hkid in Hkid'. injection Hkid' as <-.
          exists (e :: rest), b'. 
          assert (Ef : (length (traversal p1) =? S level)%nat = false) by (apply Nat.eqb_neq; rewrite Ht1, Htrav, length_app; cbn; lia).
          unfold p2. rewrite Ef.
          split_and!; try done.
          + unfold pre'. by rewrite Ht1, Htrav, <-app_assoc.
          + apply (stack_loaded_moved p); [done|]. by apply List.Forall_inv_tail in Hload.
          + by rewrite (mv_document _ _ _ _ Hm1). }
      destruct Hin as (s & b' & Ht2 & Hpos2 & -> & Hload2 & Hm2 & Hp2 & Hr2).
      assert (Hwk : walk_ok (Node x l)) by (rewrite Forall_forall in IH; apply IH, list_elem_of_lookup; by exists k).
      pose proof (height_kid _ _ _ n Hkid) as Hh.
      destruct (Hwk depth p2 (S level) pre' s b' g start) as (r & p3 & s' & E3 & Hm3 & Ht3 & Hl3 & Hp3 & Hr3 & Hend); try done.
      * apply (mv_held _ _ _ _ Hm2).
      * apply (represents_moved _ _ _ _ _ Hm2). apply represents_node in Hrep as [_ Hall]. rewrite Forall_forall in Hall.
        apply Hall, list_elem_of_lookup. by exists k.
      * by destruct (nodup_kid _ _ _ _ Hnodup Hkid).
      * lia.
      * lia.
      * unfold pre'. rewrite length_app. cbn. lia.
      * by rewrite Hp2.
      * rewrite E3. cbn [mbind option_bind].
        assert (Hb' : (b' <= size (Node x l))%nat) by (by apply (position_below _ s)).
        pose proof (kid_rest k _ b' Hkid Hb') as Hrest. cbv zeta in Hrest. fold base_ in Hrest.
        set (rem := drop b' (leaves (Node x l))) in *.
        assert (Hm03 : moved p p3) by eauto using moved_trans.
        assert (Hlast : (base_ + size (Node x l) = length (flat_map leaves (take (S k) kids)))%nat).
        { by rewrite (kid_take leaves _ _ _ Hkid), length_app. }
        assert (Hlrem : length rem = (size (Node x l) - b')%nat) by (unfold rem; by rewrite length_drop).
        destruct Hend as [[-> Hdone]|[Hpos3 Hgle]].
        -- (* the kid is done *)
           assert (Hlt3 : length (traversal p3) = S level) by (rewrite Ht3; unfold pre'; rewrite !length_app; cbn; lia).
           rewrite Hlt3, Nat.eqb_refl. cbn [negb orb].
           set (p4 := with_traversal _ p3).
           destruct (moved_traversal original base (alter (λ '(q, k), (q, S k)) level) p3 (mv_held _ _ _ _ Hm3)) as (Hm4 & Ht4 & Hp4).
           fold p4 in Hm4, Ht4, Hp4. assert (Hm04 : moved p p4) by eauto using moved_trans.
           assert (Et : traversal p4 = pre ++ [((n, []), S k)]).
           { rewrite Ht4, Ht3. unfold pre'. by rewrite app_nil_r, alter_top. }
           assert (Hpos4 : at_position (Node n kids) [((n, []), S k)] (base_ + size (Node x l))) by (split_and!; [done|lia|done]).
           assert (Hload4 : stack_loaded p4 [((n, []), S k)]) by (constructor; [cbn; by apply (mv_loaded _ _ _ _ Hm04)|constructor]).
           assert (Hp04 : pages p4 = list_inserts start (take g rem) (pages p)) by (by rewrite Hp4, Hp3, Hp2).
           assert (Hrb : m_bReachedMaxPageLevel (m_Document p4) = false) by (by rewrite (mv_document _ _ _ _ Hm04)).
           rewrite Hrb. rewrite orb_false_r. destruct (Z.eqb_spec (Z.of_nat (g - length (take g rem))) 0) as [Hz|Hz].
           ++ assert (Hfull : length (take g rem) = g) by (rewrite length_take in *; lia).
              assert (Hgr : (g <= length rem)%nat) by (rewrite length_take in Hfull; lia).
              assert (Htk : take g (drop (base_ + b') (leaves (Node n kids))) = take g rem) by (rewrite Hrest; by rewrite take_app_le by lia).
              unfold walked. rewrite Htk. exists r, p4, [((n, []), S k)]. split_and!; try done.
              ** intros _. destruct Hr3 as (y & Hy & ->); [done|]. exists y. split; [|done]. rewrite Hrest. by rewrite lookup_app_l by lia.
              ** replace (base_ + b' + length (take g rem))%nat with (base_ + size (Node x l))%nat by lia. exact Hpos4.
              ** left. rewrite Hrest, length_app. lia.
           ++ assert (Hall : take g rem = rem) by (apply take_ge; rewrite length_take in Hz; lia). rewrite Hall in *.
              apply (walked_step _ _ _ _ _ _ rem p4); try done.
              ** rewrite Hrest at 1. do 2 f_equal. lia.
              ** lia.
              ** replace (start + g - 1)%nat with (start + length rem + (g - length rem) - 1)%nat by lia.
                 replace (base_ + b' + length rem)%nat with (base_ + size (Node x l))%nat by lia.
                 apply (IHt (S k) []); try done; try lia.
                 --- apply (mv_held _ _ _ _ Hm04).
                 --- by apply (represents_moved _ _ _ _ _ Hm04).
                 --- rewrite Hp04, length_inserts. lia.
        -- (* the page is in the kid *)
           assert (Hfull : length (take g rem) = g) by (rewrite length_take; lia).
           assert (Htk : take g (drop (base_ + b') (leaves (Node n kids))) = take g rem) by (rewrite Hrest; by rewrite take_app_le by lia).
           assert (Hne' : length (traversal p3) ≠ S level).
           { rewrite Ht3. unfold pre'. rewrite !length_app. destruct s'; [done|]. cbn. lia. }
           apply Nat.eqb_neq in Hne'. rewrite Hne'. cbn [negb orb].
           unfold walked. rewrite Htk. exists r, p3, (((n, []), k) :: s'). split_and!; try done.
           ++ rewrite Ht3. unfold pre'. by rewrite <-app_assoc.
           ++ constructor; [cbn; by apply (mv_loaded _ _ _ _ Hm03)|done].
           ++ by rewrite Hp3, Hp2.
           ++ intros _. destruct Hr3 as (y & Hy & ->); [done|]. exists y. split; [|done]. rewrite Hrest. by rewrite lookup_app_l by lia.
           ++ split_and!; [done|lia|]. destruct s' as [|e s']; [done|]. exists (Node x l), (b' + length (take g rem))%nat.
              split_and!; [done|done|]. fold base_. lia.
           ++ left. rewrite Hrest, length_app. lia.
Qed.
End kids.

Lemma position_end n kids s b q :
  at_position (Node n kids) s b → s = [(q, length kids)] → b = size (Node n kids).
Proof. intros Hp ->. destruct Hp as (_ & _ & Hb). by rewrite take_ge in Hb by done. Qed.

Lemma walk_all t : walk_ok t.
Proof.
  revert t. apply tree_ind'.
  - intros n depth p level pre [|[q k] rest] b g start; cbn; by intros.
  - intros n kids IH depth p level pre s b g start Hp Hrep Hnd Hh Hd Hr Ht Hpre Hpos Hload Hg Hlen.
    destruct s as [|[q k] rest]; [done|]. pose proof Hpos as (-> & Hk & _).
    destruct depth as [|depth]; [cbn in Hd; lia|]. cbn [TraversePDFPages].
    replace (Z.of_nat g <? 0) with false by lia. rewrite Hr. cbn [orb].
    assert (Elev : traversal p !! level = Some ((n, []) : pointer, k)) by (rewrite Ht; by apply list_lookup_middle).
    rewrite Elev. cbn [mbind option_bind].
    assert (Hl : loaded p n) by (by apply List.Forall_inv in Hload).
    destruct (proj1 (represents_node _ _ _) Hrep) as [(m & c & Hm & Hkids & _) _].
    destruct (GetArrayFor_direct original base n _ p m _ Hp Hl Hm Hkids) as [Ea El]. rewrite Ea.
    assert (Hlv : (level < kMaxPageLevel)%nat) by (cbn [height] in Hh; lia).
    replace (kMaxPageLevel <=? level)%nat with false by (symmetry; by apply Nat.leb_gt).
    assert (Esz : ∀ p', moved p p' → array_size (n, [InDict (bs "Kids")]) p' = length kids).
    { intros p' Hm'. destruct (GetArrayFor_direct original base n (bs "Kids") p' m (map CPDF_Reference (map num kids))) as [_ El'].
      - by apply (mv_held _ _ _ _ Hm').
      - by apply (mv_loaded _ _ _ _ Hm').
      - rewrite (mv_objects _ _ _ _ Hm'). exact Hm.
      - exact Hkids.
      - unfold array_size. rewrite El'. cbn. by rewrite !length_map. }
    rewrite (Esz p) by (by apply moved_same, same_refl).
    destruct (kids_walk n kids pre level depth Hpre Hh Hd Hnd IH (length kids - k) k rest b g start p) as
      (r & p' & s' & E & Hm' & Ht' & Hl' & Hp' & Hr' & Hpos' & Hend); try done.
    rewrite E. cbn [mbind option_bind].
    destruct s' as [|[q' k'] rest']; [done|]. pose proof Hpos' as (-> & Hk' & Hrest').
    assert (Elev' : traversal p' !! level = Some ((n, []) : pointer, k')) by (rewrite Ht'; by apply list_lookup_middle).
    rewrite Elev'. cbn [mbind option_bind]. rewrite (Esz p' Hm').
    destruct (Nat.eqb_spec k' (length kids)) as [->|Hne].
    + assert (rest' = []) as ->.
      { destruct rest' as [|e rest']; [done|]. destruct Hrest' as (kid & b' & Hkid & _). by rewrite lookup_ge_None_2 in Hkid by lia. }
      destruct (moved_traversal original base (@removelast _) p' (mv_held _ _ _ _ Hm')) as (Hm2 & Ht2 & Hp2).
      exists r, (with_traversal (@removelast _) p'), []. split_and!; try done.
      * by apply (moved_trans _ _ _ p').
      * by rewrite Ht2, Ht', removelast_last, app_nil_r.
      * constructor.
      * left. split; [done|]. by apply (position_end n kids _ _ (n, []) Hpos').
    + exists r, p', (((n, []), k') :: rest'). split_and!; try done. right. split; [done|].
      destruct Hend as [|[q E']]; [done|]. injection E' as _ -> _. done.
Qed.
End walk.
