(* ===== verification/PageDoc.v ===== *)
(** * Documents as lists of pages

    The invariant of [CPDF_Document] and the effect of its operations on the list
    of its pages. *)
From Stdlib Require Import Sorted String.
From stdpp Require Import gmap.
From S2P Require Import Prelude Words FxNumber Objects Dict StdMap Security DocParser Holder Pointer Store PageTree PageList PageWalk.
Import String.StringSyntax.

Section document.
Context (original : Z → option CPDF_Object) (base : CPDF_Parser → Prop) `{HolderLaws original base}.
Notation object_in := (object_in original).
Notation held := (held original base).
Notation same := (same original base).
Notation moved := (moved original base).
Notation size t := (length (leaves t)).

Record page_doc (t : tree) (p : CPDF_Parser) : Prop := {
  pd_held : held p;
  pd_root : ∃ r m, m_pRootDict (m_Document p) = Some (r, []) ∧ loaded p r ∧ object_in p r = Some (CPDF_Dictionary m) ∧
    GetObjectFor (bs "Pages") m = Some (CPDF_Reference (num t)) ∧ r ∉ nodes t;
  pd_tree : represents (object_in p) t;
  pd_nodup : NoDup (nodes t);
  pd_height : (height t <= kMaxPageLevel)%nat;
  pd_node : ∃ n kids, t = Node n kids;
  pd_length : length (pages p) = size t;
  pd_pages i n : pages p !! i = Some n → n = 0 ∨ leaves t !! i = Some n;
  pd_reached : m_bReachedMaxPageLevel (m_Document p) = false;
  pd_traversal : traversal p = [] ∨ ∃ b, at_position t (traversal p) b ∧ stack_loaded p (traversal p) ∧
    m_iNextPageToTraverse (m_Document p) = Z.of_nat b ∧ ∀ i, (i < b)%nat → pages p !! i ≠ Some 0;
}.

Lemma page_doc_same t p p' : same p p' → page_doc t p → page_doc t p'.
Proof.
  intros Hs Hd. destruct (moved_same _ _ _ _ Hs) as (Hm & Ht & Hp). pose proof (same_document _ _ _ _ Hs) as Ed.
  destruct Hd as [D1 D2 D3 D4 D5 D6 D7 D8 D9 D10]. constructor; rewrite ?Ht, ?Hp, ?Ed; try done.
  - apply (mv_held _ _ _ _ Hm).
  - destruct D2 as (r & m & R1 & R2 & R3 & R4). exists r, m. rewrite (mv_objects _ _ _ _ Hm). split_and!; try done; [|apply R4..].
    by apply (mv_loaded _ _ _ _ Hm).
  - by apply (represents_moved _ _ _ _ _ Hm).
  - destruct D10 as [?|(b & B1 & B2 & B3)]; [by left|]. right. exists b. split_and!; [done| |apply B3..]. exact (stack_loaded_moved original base p p' _ Hm B2).
Qed.

Lemma pages_dict t p :
  page_doc t p → ∃ p', GetPagesDict p = (Some (num t, []), p') ∧ same p p' ∧ loaded p' (num t).
Proof.
  intros Hd. destruct (pd_root t p Hd) as (r & m & R1 & R2 & R3 & R4 & _). destruct (represents_dict _ _ (pd_tree t p Hd)) as [m' Hm'].
  unfold GetPagesDict. rewrite R1. by apply (GetDictFor_behind _ _ _ _ _ _ m' m (pd_held t p Hd)).
Qed.

Lemma dictionary_found n p m :
  held p → object_in p n = Some (CPDF_Dictionary m) → ∃ p', dictionary_of n p = (Some (n, []), p') ∧ same p p'.
Proof.
  intros Hp Hn. unfold dictionary_of. destruct (lookup_same original base n p Hp) as (p' & -> & Hs & _). rewrite Hn. by exists p'.
Qed.

Lemma leaf_object obj t n : represents obj t → n ∈ leaves t → is_leaf obj n.
Proof.
  revert t. apply (tree_ind' (λ t, _ → _ → _)).
  - intros k Hk Hn. cbn in Hn. apply list_elem_of_singleton in Hn as ->. exact Hk.
  - intros k kids IH [_ Hall]%represents_node Hn. cbn in Hn. apply in_flat_map' in Hn as (t & Ht & Hn).
    rewrite Forall_forall in IH, Hall. by apply (IH t); [|apply Hall|].
Qed.

Lemma leaf_positive t p i n : page_doc t p → leaves t !! i = Some n → 1 <= n.
Proof.
  intros Hd Hn. assert (n ∈ leaves t) by (apply list_elem_of_lookup; by exists i).
  destruct (leaf_object _ _ _ (pd_tree t p Hd) ltac:(eassumption)) as (m & Hm & _).
  destruct (held_range _ _ _ (pd_held t p Hd) n); [by eexists|done].
Qed.

(** The traversal is started again if it is over. *)
Lemma traversal_ready t p :
  page_doc t p → loaded p (num t) →
  let p' := if bool_decide (traversal p = []) then with_traversal (λ _, [((num t, []), 0%nat)]) (ResetTraversal p) else p in
  page_doc t p' ∧ traversal p' ≠ [] ∧ pages p' = pages p ∧ m_LastObjNum p' = m_LastObjNum p ∧ ∀ n, object_in p' n = object_in p n.
Proof.
  intros Hd Hl. cbv zeta. destruct (bool_decide_reflect (traversal p = [])) as [He|He]; [|by split_and!].
  split_and!; try done. destruct Hd as [D1 D2 D3 D4 D5 D6 D7 D8 D9 D10]. constructor; try done.
  - by do 4 apply (held_with_document original base).
  - right. exists 0%nat. split_and!; try done.
    + destruct D6 as (n & kids & ->). cbn. split_and!; [done|lia|done].
    + constructor; [exact Hl|constructor].
    + lia.
Qed.

(** The invariant after a traversal of [g] pages. *)
Lemma page_doc_walked t p p' b g s' :
  page_doc t p → moved p p' → (b + g <= size t)%nat → (∀ i, (i < b)%nat → pages p !! i ≠ Some 0) →
  pages p' = list_inserts b (take g (drop b (leaves t))) (pages p) → traversal p' = s' → stack_loaded p' s' →
  s' = [] ∨ at_position t s' (b + g) → page_doc t (with_next (Z.of_nat (b + g)) p').
Proof.
  intros Hd Hm Hg Hbefore Hp Ht Hl Hpos. set (found := take g (drop b (leaves t))) in *.
  assert (Hlen : length found = g) by (unfold found; rewrite length_take, length_drop; lia).
  assert (Hfound : ∀ i, (b <= i < b + g)%nat → found !! (i - b)%nat = leaves t !! i).
  { intros i Hi. unfold found. rewrite lookup_take_lt, lookup_drop by lia. f_equal. lia. }
  assert (Hnew : ∀ i n, pages p' !! i = Some n → (b <= i < b + g)%nat ∧ leaves t !! i = Some n ∨ ¬ (b <= i < b + g)%nat ∧ pages p !! i = Some n).
  { intros i n. rewrite Hp. destruct (decide (b <= i < b + g)%nat) as [Hi|Hi].
    - rewrite list_lookup_inserts by (rewrite ?(pd_length t p Hd); lia). rewrite Hfound by done. by left.
    - intros Hn. right. split; [done|]. rewrite <-Hn. destruct (decide (i < b)%nat).
      + by rewrite list_lookup_inserts_lt by lia.
      + by rewrite list_lookup_inserts_ge by lia. }
  pose proof (mv_document _ _ _ _ Hm) as Ed. destruct Hm as [M1 M2 M3 M4 _]. pose proof Hd as [D1 D2 D3 D4 D5 D6 D7 D8 D9 D10].
  constructor; try done.
  - by apply (held_with_document original base).
  - destruct D2 as (r & m & R1 & R2 & R3 & R4). exists r, m. cbn. rewrite Ed. split_and!; try done; [by apply M4| |apply R4..].
    change (object_in p' r = Some (CPDF_Dictionary m)). by rewrite M2.
  - change (represents (object_in p') t). by apply (represents_ext (object_in p)).
  - change (length (pages p') = size t). by rewrite Hp, length_inserts.
  - intros i n Hn. change (pages p' !! i = Some n) in Hn. destruct (Hnew i n Hn) as [[_ ?]|[_ ?]]; [by right|by apply D8].
  - cbn. by rewrite Ed.
  - change (traversal (with_next (Z.of_nat (b + g)) p')) with (traversal p'). rewrite Ht. destruct Hpos as [->|Hpos]; [by left|right].
    exists (b + g)%nat. split_and!; [done|done|done|]. intros i Hi Hz. change (pages p' !! i = Some 0) in Hz.
    destruct (Hnew i 0 Hz) as [[_ Hn]|[Hi' Hn]]; [|by apply (Hbefore i); [lia|]].
    pose proof (leaf_positive t p i 0 Hd Hn). lia.
Qed.

Lemma GetPageDictionary_spec t p i :
  page_doc t p → ∃ p', GetPageDictionary i p =
      Some (if 0 <=? i then (λ n, (n, [])) <$> leaves t !! Z.to_nat i else None, p') ∧
    page_doc t p' ∧ m_LastObjNum p' = m_LastObjNum p ∧ ∀ n, object_in p' n = object_in p n.
Proof.
  intros Hd. unfold GetPageDictionary, GetPageCount, zlen. rewrite (pd_length t p Hd).
  destruct (Z.leb_spec 0 i) as [Hi|Hi]; cbn [andb negb]; [|by exists p].
  destruct (Z.ltb_spec i (Z.of_nat (size t))) as [Hlt|Hge]; cbn [negb]; [|rewrite lookup_ge_None_2 by lia; by exists p].
  destruct (lookup_lt_is_Some_2 (leaves t) (Z.to_nat i)) as [n Hn]; [lia|].
  destruct (lookup_lt_is_Some_2 (pages p) (Z.to_nat i)) as [c Hc]; [rewrite (pd_length t p Hd); lia|].
  rewrite Hn, Hc. cbn [default from_option id fmap option_fmap option_map].
  destruct (Z.eqb_spec c 0) as [->|Hc0].
  - (* not known yet *)
    destruct (pages_dict t p Hd) as (p1 & -> & Hs1 & Hl1). pose proof (page_doc_same _ _ _ Hs1 Hd) as Hd1.
    destruct (traversal_ready t p1 Hd1 Hl1) as (Hd2 & Hne & Hp2 & Hlast2 & Ho2). set (p2 := if bool_decide _ then _ else _) in *.
    destruct (moved_same _ _ _ _ Hs1) as (_ & _ & Hp1). rewrite Hp1 in Hp2.
    destruct (pd_traversal t p2 Hd2) as [?|(b & Hpos & Hload & Hnext & Hbefore)]; [done|]. rewrite Hnext.
    assert (Hbi : (b <= Z.to_nat i)%nat).
    { destruct (Nat.le_gt_cases b (Z.to_nat i)) as [|Hgt]; [done|]. exfalso. apply (Hbefore _ Hgt). by rewrite Hp2. }
    set (g := (Z.to_nat i - b + 1)%nat). replace (i - Z.of_nat b + 1) with (Z.of_nat g) by lia.
    assert (Hgl : (b + g = S (Z.to_nat i))%nat) by lia.
    destruct (walk_all original base t (S kMaxPageLevel) p2 0%nat [] (traversal p2) b g b) as (r & p3 & s' & E3 & Hm3 & Ht3 & Hl3 & Hp3 & Hr3 & Hend); try done.
    { apply (pd_held t p2 Hd2). }
    { apply (pd_tree t p2 Hd2). }
    { apply (pd_nodup t p2 Hd2). }
    { pose proof (pd_height t p2 Hd2). lia. }
    { pose proof (pd_height t p2 Hd2). lia. }
    { apply (pd_reached t p2 Hd2). }
    { lia. }
    { rewrite (pd_length t p2 Hd2). lia. }
    replace (Z.of_nat (b + g - 1)) with i in E3 by lia. rewrite E3. cbn [mbind option_bind].
    destruct Hr3 as (x & Hx & ->); [rewrite length_drop; lia|]. rewrite lookup_drop in Hx.
    replace (b + (g - 1))%nat with (Z.to_nat i) in Hx by lia. rewrite Hn in Hx. injection Hx as <-.
    eexists. split; [reflexivity|].
    assert (Hlen : length (take g (drop b (leaves t))) = g) by (rewrite length_take, length_drop; lia).
    split_and!.
    + rewrite Hlen in Hend. replace (i + 1) with (Z.of_nat (b + g)) by lia.
      apply (page_doc_walked t p2 p3 b g s'); try done; [lia|]. destruct Hend as [[-> _]|[Hend _]]; [by left|by right].
    + cbn. rewrite (mv_last _ _ _ _ Hm3), Hlast2. apply (same_last _ _ _ _ Hs1).
    + intros k. change (object_in p3 k = object_in p k). rewrite (mv_objects _ _ _ _ Hm3), Ho2. apply (same_objects _ _ _ _ Hs1).
  - destruct (pd_pages t p Hd _ _ Hc) as [|Hc']; [done|]. rewrite Hn in Hc'. injection Hc' as <-.
    destruct (leaf_object _ _ n (pd_tree t p Hd)) as (m & Hm & _); [apply list_elem_of_lookup; by exists (Z.to_nat i)|].
    destruct (dictionary_found n p m (pd_held t p Hd) Hm) as (p' & -> & Hs). exists p'. split_and!; [done|by apply (page_doc_same _ p)| |].
    + apply (same_last _ _ _ _ Hs).
    + apply (same_objects _ _ _ _ Hs).
Qed.
End document.
