(* ===== verification/PageEdit.v ===== *)
(** * Insertion and removal of pages

    [InsertDeletePDFPage] and its callers, on the tree and on the list of pages. *)
From Stdlib Require Import Sorted String.
From stdpp Require Import gmap.
From S2P Require Import Prelude Words FxNumber Objects Dict StdMap Security DocParser Holder Pointer Store PageTree PageList PageWalk PageDoc.
Import String.StringSyntax.

Notation size t := (length (leaves t)).

(** ** Changes of trees

    [Some n] inserts the page [n] before the page with index [k], [None] removes
    that page. *)
Section edit_kids.
Context (edit : tree → nat → tree) (x : option Z).
Fixpoint edit_kids (l : list tree) (k : nat) : list tree :=
  match l with
  | [] => []
  | t :: l' =>
      match t with
      | Leaf _ =>
          match k with
          | O => match x with Some c => Leaf c :: l | None => l' end
          | S k' => t :: edit_kids l' k'
          end
      | Node _ _ => if (size t <=? k)%nat then t :: edit_kids l' (k - size t) else edit t k :: l'
      end
  end.
End edit_kids.
Fixpoint edit (x : option Z) (t : tree) (k : nat) : tree :=
  match t with
  | Leaf _ => t
  | Node n kids => Node n (edit_kids (edit x) x kids k)
  end.

(** The same on lists. *)
Definition edit_list (x : option Z) (l : list Z) (k : nat) : list Z :=
  match x with Some c => take k l ++ c :: drop k l | None => delete k l end.

Lemma edit_list_app_l x l l' k : (k < length l)%nat → edit_list x (l ++ l') k = edit_list x l k ++ l'.
Proof.
  intros Hk. destruct x; cbn.
  - rewrite take_app_le, drop_app_le by lia. by rewrite <-app_assoc.
  - rewrite !delete_take_drop, take_app_le, drop_app_le by lia. by rewrite <-app_assoc.
Qed.
Lemma edit_list_app_r x l l' k : (length l <= k)%nat → edit_list x (l ++ l') k = l ++ edit_list x l' (k - length l).
Proof.
  intros Hk. destruct x; cbn.
  - rewrite take_app_ge, drop_app_ge by lia. by rewrite <-app_assoc.
  - rewrite !delete_take_drop, take_app_ge, drop_app_ge by lia. rewrite <-app_assoc. do 3 f_equal. lia.
Qed.

Lemma edit_num x t k : num (edit x t k) = num t.
Proof. by destruct t. Qed.

Lemma edit_leaves x t : ∀ k, (k < size t)%nat → (∃ n kids, t = Node n kids) → leaves (edit x t k) = edit_list x (leaves t) k.
Proof.
  revert t. apply (tree_ind' (λ t, ∀ k, _ → _ → _)); [by intros n k _ (? & ? & ?)|].
  intros n kids IH k Hk _. cbn [edit leaves] in *. revert k Hk. induction kids as [|t kids IHk]; intros k Hk; [cbn in Hk; lia|].
  apply Forall_cons in IH as [IHt IH]. cbn [flat_map edit_kids] in *. rewrite length_app in Hk. destruct t as [m|m l].
  - cbn [leaves] in *. destruct k as [|k].
    + by destruct x.
    + rewrite (edit_list_app_r x [m]) by (cbn; lia). cbn [flat_map leaves length]. rewrite IHk by (done || cbn in Hk; lia). by rewrite Nat.sub_1_r.
  - destruct (Nat.leb_spec (size (Node m l)) k) as [Hle|Hgt]; cbn [flat_map].
    + rewrite edit_list_app_r by done. by rewrite IHk by (done || lia).
    + rewrite edit_list_app_l by done. rewrite IHt; [done|done|by exists m, l].
Qed.

Lemma edit_height x t : ∀ k, (height (edit x t k) <= height t)%nat.
Proof.
  revert t. apply (tree_ind' (λ t, ∀ k, (height (edit x t k) <= height t)%nat)); [intros; cbn; lia|]. intros n kids IH k. cbn [edit height]. apply le_n_S. revert k.
  induction IH as [|t kids IHt _ IHk]; intros k; [done|]. cbn [edit_kids]. destruct t as [m|m l].
  - destruct k as [|k]; [destruct x|specialize (IHk k)]; unfold list_max in *; cbn [map foldr height] in *; lia.
  - destruct (_ <=? _)%nat; cbn [map list_max foldr]; [specialize (IHk (k - size (Node m l))%nat)|specialize (IHt k)]; unfold list_max in *; cbn [map foldr]; lia.
Qed.

(** No number comes in but [x]. *)
Lemma edit_nodes x t : ∀ k, NoDup (nodes t) → (∀ c, x = Some c → c ∉ nodes t) →
  NoDup (nodes (edit x t k)) ∧ (∀ n, n ∈ nodes (edit x t k) → n ∈ nodes t ∨ x = Some n).
Proof.
  revert t. apply (tree_ind' (λ t, ∀ k, _ → _ → _)).
  - intros n k Hd Hx. split; [done|]. by left.
  - intros n kids IH k Hd Hx. cbn [edit nodes] in *. apply NoDup_cons in Hd as [Hn Hd].
    assert (Hkids : NoDup (flat_map nodes (edit_kids (edit x) x kids k)) ∧
      ∀ m, m ∈ flat_map nodes (edit_kids (edit x) x kids k) → m ∈ flat_map nodes kids ∨ x = Some m).
    { assert (Hx' : ∀ c, x = Some c → c ∉ flat_map nodes kids) by (intros c Hc; specialize (Hx c Hc); set_solver). clear Hn Hx.
      revert k. induction kids as [|t kids IHk]; intros k; [split; [constructor|by left]|].
      apply Forall_cons in IH as [IHt IH]. cbn [flat_map edit_kids] in *. apply NoDup_app in Hd as (Hd1 & Hd2 & Hd3).
      assert (Hxt : ∀ c, x = Some c → c ∉ nodes t ∧ c ∉ flat_map nodes kids) by (intros c Hc; specialize (Hx' c Hc); set_solver).
      specialize (IHk IH Hd3 ltac:(intros c Hc; by apply Hxt)).
      assert (Hrest : ∀ j, NoDup (flat_map nodes (t :: edit_kids (edit x) x kids j)) ∧
        ∀ m, m ∈ flat_map nodes (t :: edit_kids (edit x) x kids j) → m ∈ nodes t ++ flat_map nodes kids ∨ x = Some m).
      { intros j. destruct (IHk j) as [K1 K2]. cbn [flat_map]. split.
        - apply NoDup_app. split_and!; [done| |done]. intros m Hm Hm'. destruct (K2 m Hm') as [|Hxm]; [by apply (Hd2 m)|]. by destruct (Hxt m Hxm).
        - intros m Hm. apply elem_of_app in Hm as [Hm|Hm]; [left; set_solver|]. destruct (K2 m Hm); [left; set_solver|by right]. }
      destruct t as [m|m l].
      - destruct k as [|k]; [|apply Hrest]. destruct x as [c|].
        + cbn [flat_map nodes app]. split.
          * apply NoDup_cons. split; [destruct (Hxt c eq_refl); cbn [nodes] in *; set_solver|]. apply NoDup_cons. split; [|done]. apply Hd2. cbn. set_solver.
          * intros j Hj. apply elem_of_cons in Hj as [->|Hj]; [by right|by left].
        + split; [done|]. intros j Hj. left. set_solver.
      - destruct (_ <=? _)%nat; [apply Hrest|]. cbn [flat_map]. destruct (IHt k Hd1) as [T1 T2]; [intros c Hc; by apply Hxt|]. split.
        + apply NoDup_app. split_and!; [done| |done]. intros j Hj Hj'. destruct (T2 j Hj) as [Hj2|Hxj]; [by apply (Hd2 j)|]. by destruct (Hxt j Hxj).
        + intros j Hj. apply elem_of_app in Hj as [Hj|Hj]; [|left; set_solver]. destruct (T2 j Hj); [left; set_solver|by right]. }
    destruct Hkids as [K1 K2]. split.
    + apply NoDup_cons. split; [|done]. intros Hn'. destruct (K2 n Hn') as [|Hxn]; [done|]. specialize (Hx n Hxn). set_solver.
    + intros m Hm. apply elem_of_cons in Hm as [->|Hm]; [left; set_solver|]. destruct (K2 m Hm); [left; set_solver|by right].
Qed.

(** ** Changes of the objects of a tree *)
Lemma is_node_kids obj obj' n kids kids' count m :
  obj n = Some (CPDF_Dictionary m) → is_node obj n kids count →
  obj' n = Some (CPDF_Dictionary (SetFor (bs "Kids") (CPDF_Array (map CPDF_Reference kids')) m)) → is_node obj' n kids' count.
Proof.
  intros Hm (m' & c & Hm' & _ & Hc & Hs & Hi & Ht) Hn. rewrite Hm in Hm'. injection Hm' as <-.
  exists (SetFor (bs "Kids") (CPDF_Array (map CPDF_Reference kids')) m), c. rewrite !GetObjectFor_SetFor. by split_and!.
Qed.

Lemma is_node_count obj obj' n kids count count' m :
  obj n = Some (CPDF_Dictionary m) → is_node obj n kids count → Z.of_nat count' < 2 ^ 31 →
  obj' n = Some (CPDF_Dictionary (SetFor (bs "Count") (number (Z.of_nat count')) m)) → is_node obj' n kids count'.
Proof.
  intros Hm (m' & c & Hm' & Hk & Hc & Hs & _ & Ht) Hlt Hn. rewrite Hm in Hm'. injection Hm' as <-.
  exists (SetFor (bs "Count") (number (Z.of_nat count')) m), (FxSigned (Z.of_nat count')). rewrite !GetObjectFor_SetFor. by split_and!.
Qed.

Lemma is_leaf_parent obj obj' n m o :
  obj n = Some (CPDF_Dictionary m) → is_leaf obj n → obj' n = Some (CPDF_Dictionary (SetFor (bs "Parent") o m)) → is_leaf obj' n.
Proof.
  intros Hm (m' & Hm' & Hk & Ht) Hn. rewrite Hm in Hm'. injection Hm' as <-.
  exists (SetFor (bs "Parent") o m). split; [done|]. unfold Dict.KeyExist in *. by rewrite !GetObjectFor_SetFor.
Qed.

Section edit.
Context (original : Z → option CPDF_Object) (base : CPDF_Parser → Prop) `{HolderLaws original base}.
Notation object_in := (object_in original).
Notation held := (held original base).
Notation same := (same original base).
Notation changed := (changed original base).

Lemma last_change_at f q p : m_LastObjNum (change_at f q p) = m_LastObjNum p.
Proof. unfold change_at. by destruct (GetIndirectObject _ _). Qed.

Lemma change_count_changed n d p m kids count :
  held p → loaded p n → object_in p n = Some (CPDF_Dictionary m) → is_node (object_in p) n kids count →
  changed n (CPDF_Dictionary (SetFor (bs "Count") (number (int32 (Z.of_nat count + d))) m)) p (change_count (n, []) d p) ∧
  m_LastObjNum (change_count (n, []) d p) = m_LastObjNum p.
Proof.
  intros Hp Hl Hm (m' & c & Hm' & _ & Hc & Hs & _). rewrite Hm in Hm'. injection Hm' as <-. unfold change_count.
  rewrite (GetIntegerFor_direct original n _ p m c Hl Hm Hc), Hs. split; [|apply last_change_at].
  exact (change_at_changed original base (in_dict (SetFor (bs "Count") (number (int32 (Z.of_nat count + d))))) n [] _ p Hp Hl Hm).
Qed.

(** The array of the kids is changed by [f]. *)
Lemma kids_changed n (f : list CPDF_Object → list CPDF_Object) kids kids' count p m :
  held p → loaded p n → object_in p n = Some (CPDF_Dictionary m) → is_node (object_in p) n kids count →
  f (map CPDF_Reference kids) = map CPDF_Reference kids' →
  changed n (CPDF_Dictionary (SetFor (bs "Kids") (CPDF_Array (map CPDF_Reference kids')) m)) p
    (change_at (in_array f) (n, [InDict (bs "Kids")]) p).
Proof.
  intros Hp Hl Hm (m' & c & Hm' & Hk & _) Hf. rewrite Hm in Hm'. injection Hm' as <-.
  pose proof (change_at_changed original base (in_array f) n [InDict (bs "Kids")] _ p Hp Hl Hm) as Hch.
  cbn [change change_child] in Hch. rewrite Hk in Hch. cbn [in_array] in Hch. by rewrite Hf in Hch.
Qed.

(** What the change of the tree [t] keeps. *)
Record edited (t : tree) (x : option Z) (k : nat) (p p' : CPDF_Parser) : Prop := {
  ed_held : held p';
  ed_tree : represents (object_in p') (edit x t k);
  ed_keep j : j ∉ nodes t → Some j ≠ x → object_in p' j = object_in p j;
  ed_last : m_LastObjNum p' = m_LastObjNum p;
  ed_loaded j : loaded p j → loaded p' j;
  ed_document : m_Document p' = m_Document (ResetTraversal p);
}.

Lemma reset_document p p' : m_Document p = m_Document p' → m_Document (ResetTraversal p) = m_Document (ResetTraversal p').
Proof. intros E. cbn. by rewrite E. Qed.

Lemma edited_same t x k p p1 p' : same p p1 → edited t x k p1 p' → edited t x k p p'.
Proof.
  intros [S1 S2 S3 S4 S5] [E1 E2 E3 E4 E5 E6]. constructor; [done|done| |congruence|auto|].
  - intros j Hj Hx. by rewrite E3, S2.
  - rewrite E6. by apply reset_document.
Qed.

Context (x : option Z) (page : pointer).
Hypothesis Hpage : ∀ c, x = Some c → page = (c, []).
Notation bInsert := (bool_decide (is_Some x)).

(** The new page is a page that is not in the tree. *)
Definition new_page (t : tree) (p : CPDF_Parser) : Prop :=
  ∀ c, x = Some c → c ∉ nodes t ∧ loaded p c ∧ is_leaf (object_in p) c.

Lemma new_page_same t p p' : same p p' → new_page t p → new_page t p'.
Proof.
  intros Hs Hn c Hc. destruct (Hn c Hc) as (H1 & H2 & m & Hm & H3). split_and!; [done|by apply (same_loaded _ _ _ _ Hs)|].
  exists m. by rewrite (same_objects _ _ _ _ Hs).
Qed.

Definition edit_ok (t : tree) : Prop :=
  ∀ fuel k visited p,
    held p → represents (object_in p) t → NoDup (nodes t) → loaded p (num t) → (∃ n kids, t = Node n kids) →
    (height t <= fuel)%nat → (k < size t)%nat → Z.of_nat (size t) + 1 < 2 ^ 31 →
    (∀ q, q ∈ visited → q.1 ∈ nodes t → q.1 = num t) → new_page t p →
    ∃ p', InsertDeletePDFPage fuel (num t, []) (Z.of_nat k) page bInsert visited p = Some (true, p') ∧ edited t x k p p'.

(** The new number of pages *)
Definition new_count (count : nat) : nat := if bInsert then S count else pred count.
Lemma int32_new_count count : (0 < count)%nat → Z.of_nat count + 1 < 2 ^ 31 →
  int32 (Z.of_nat count + (if bInsert then 1 else -1)) = Z.of_nat (new_count count).
Proof.
  intros H1 H2. unfold new_count. destruct bInsert; unfold int32; rewrite s32_small; lia.
Qed.
Lemma edit_size t k : (k < size t)%nat → (∃ n kids, t = Node n kids) → size (edit x t k) = new_count (size t).
Proof.
  intros Hk Hn. rewrite edit_leaves by done. unfold new_count, edit_list. destruct x as [c|]; cbn.
  - rewrite length_app, length_take. cbn. rewrite length_drop. lia.
  - rewrite length_delete by (by apply lookup_lt_is_Some_2). lia.
Qed.

Section node.
Context (n : Z) (kids : list tree) (visited : list pointer).
Hypothesis Hnodup : NoDup (nodes (Node n kids)).
Hypothesis Hsize : Z.of_nat (size (Node n kids)) + 1 < 2 ^ 31.
Hypothesis Hvisited : ∀ q, q ∈ visited → q.1 ∈ nodes (Node n kids) → q.1 = n.
Notation array := (n, [InDict (bs "Kids")]).

(** The node after its kids were edited: [p1] has the new array and the new
    objects of the kids, and only the count is missing. *)
Lemma recounted k kids' p p1 m :
  held p1 → loaded p1 n → object_in p1 n = Some (CPDF_Dictionary m) → is_node (object_in p1) n (map num kids') (size (Node n kids)) →
  Forall (represents (object_in p1)) kids' → edit_kids (edit x) x kids k = kids' → (k < size (Node n kids))%nat →
  n ∉ flat_map nodes kids' →
  (∀ j, j ∉ nodes (Node n kids) → Some j ≠ x → object_in p1 j = object_in p j) → m_LastObjNum p1 = m_LastObjNum p →
  (∀ j, loaded p j → loaded p1 j) →
  let p' := change_count (n, []) (if bInsert then 1 else -1) p1 in
  m_Document p' = m_Document p1 ∧
  held p' ∧ represents (object_in p') (edit x (Node n kids) k) ∧
  (∀ j, j ∉ nodes (Node n kids) → Some j ≠ x → object_in p' j = object_in p j) ∧ m_LastObjNum p' = m_LastObjNum p ∧
  (∀ j, loaded p j → loaded p' j).
Proof.
  intros Hp Hl Hm Hnode Hall Hedit Hk Hn Hkeep Hlast Hload. cbv zeta.
  destruct (change_count_changed n (if bInsert then 1 else -1) p1 m _ _ Hp Hl Hm Hnode) as [[C1 C2 C3 C4 C5] Elast].
  rewrite int32_new_count in * by (done || lia). set (p' := change_count _ _ _) in *.
  split; [done|]. split; [done|]. split_and!.
  - cbn [edit]. rewrite Hedit. apply represents_node.
    assert (Es : length (flat_map leaves kids') = new_count (size (Node n kids))).
    { rewrite <-(edit_size (Node n kids) k Hk) by (by exists n, kids). cbn [edit leaves]. by rewrite Hedit. }
    split.
    + rewrite Es. eapply (is_node_count (object_in p1) _ _ _ _ _ m Hm Hnode); [unfold new_count; destruct bInsert; lia|].
      by rewrite C2, Z.eqb_refl.
    + rewrite Forall_forall in Hall |- *. intros t Ht. apply (represents_ext (object_in p1)); [|by apply Hall].
      intros j Hj. rewrite C2. destruct (Z.eqb_spec n j) as [<-|]; [|done]. exfalso. apply Hn, in_flat_map'. by exists t.
  - intros j Hj Hjx. rewrite C2. destruct (Z.eqb_spec n j) as [<-|]; [|by apply Hkeep]. exfalso. apply Hj. cbn. set_solver.
  - by rewrite Elast.
  - auto.
Qed.

Lemma is_node_ext obj obj' kids' count : obj' n = obj n → is_node obj n kids' count → is_node obj' n kids' count.
Proof. intros E (m & c & Hm & Hr). exists m, c. by rewrite E. Qed.

Lemma edited_reset k p p' :
  m_Document p' = m_Document p →
  held p' ∧ represents (object_in p') (edit x (Node n kids) k) ∧
  (∀ j, j ∉ nodes (Node n kids) → Some j ≠ x → object_in p' j = object_in p j) ∧ m_LastObjNum p' = m_LastObjNum p ∧
  (∀ j, loaded p j → loaded p' j) → edited (Node n kids) x k p (ResetTraversal p').
Proof.
  intros Ed (H1 & H2 & H3 & H4 & H5). constructor; try done.
  - by do 3 apply (held_with_document original base).
  - by apply reset_document.
Qed.

(** The page with index 0 of the remaining kids is the first of them. *)
Lemma edit_here done_ y l k p m :
  kids = done_ ++ Leaf y :: l → edit_kids (edit x) x kids k = done_ ++ edit_kids (edit x) x (Leaf y :: l) 0 → (k < size (Node n kids))%nat →
  held p → loaded p n → object_in p n = Some (CPDF_Dictionary m) → represents (object_in p) (Node n kids) → new_page (Node n kids) p →
  let p1 := if bInsert then
              SetNewFor page (bs "Parent") (CPDF_Reference n) (InsertNewAt array (length done_) (CPDF_Reference (GetObjNum page)) p)
            else RemoveAt array (length done_) p in
  edited (Node n kids) x k p (ResetTraversal (change_count (n, []) (if bInsert then 1 else -1) p1)).
Proof.
  intros Hkids Hedit Hk Hp Hl Hm Hr Hnew. pose proof Hnodup as Hnd. cbn [nodes] in Hnd. apply NoDup_cons in Hnd as [Hn Hnd].
  destruct (proj1 (represents_node _ _ _) Hr) as [Hnode Hall]. cbv zeta.
  assert (Hreps : map CPDF_Reference (map num kids) =
    map CPDF_Reference (map num done_) ++ CPDF_Reference y :: map CPDF_Reference (map num l)) by (rewrite Hkids, !map_app; done).
  assert (Hlen : length done_ = length (map CPDF_Reference (map num done_))) by (by rewrite !length_map).
  (* the state with the new array *)
  set (kids' := done_ ++ edit_kids (edit x) x (Leaf y :: l) 0) in *.
  set (f := match x with Some c => λ l, take (length done_) l ++ CPDF_Reference c :: drop (length done_) l | None => delete (length done_) end).
  assert (Hf : f (map CPDF_Reference (map num kids)) = map CPDF_Reference (map num kids')).
  { unfold f, kids'. rewrite Hreps, Hlen. cbn [edit_kids]. destruct x as [c|]; rewrite !map_app; cbn [map num].
    - by rewrite take_app_length, drop_app_length.
    - by rewrite delete_take_drop, take_app_length, drop_app_ge, Nat.sub_succ_l, Nat.sub_diag by lia. }
  destruct (kids_changed n f (map num kids) (map num kids') _ p m Hp Hl Hm Hnode Hf) as [C1 C2 C3 C4 C5].
  set (p2 := change_at _ _ _) in *.
  assert (Hmem : ∀ t, t ∈ kids' → t ∈ kids ∨ ∃ c, x = Some c ∧ t = Leaf c).
  { intros t. unfold kids'. rewrite Hkids. cbn [edit_kids]. destruct x as [c|]; rewrite !elem_of_app, ?elem_of_cons; naive_solver. }
  assert (Hn' : n ∉ flat_map nodes kids').
  { intros Hin. apply in_flat_map' in Hin as (t & Ht & Hin). destruct (Hmem t Ht) as [Ht'|(c & Hc & ->)].
    - apply Hn, in_flat_map'. by exists t.
    - cbn in Hin. apply list_elem_of_singleton in Hin as ->. destruct (Hnew c Hc) as [Hc' _]. apply Hc'. cbn. set_solver. }
  assert (Hkept : ∀ t, t ∈ kids → represents (object_in p2) t).
  { intros t Ht. rewrite Forall_forall in Hall. apply (represents_ext (object_in p)); [|by apply Hall]. intros j Hj. rewrite C2.
    destruct (Z.eqb_spec n j) as [<-|]; [|done]. exfalso. apply Hn, in_flat_map'. by exists t. }
  assert (Hnode2 : is_node (object_in p2) n (map num kids') (size (Node n kids))).
  { eapply (is_node_kids (object_in p)); [exact Hm|exact Hnode|]. by rewrite C2, Z.eqb_refl. }
  assert (Hobj2 : object_in p2 n = Some (CPDF_Dictionary (SetFor (bs "Kids") (CPDF_Array (map CPDF_Reference (map num kids'))) m))) by (by rewrite C2, Z.eqb_refl).
  assert (Hkeep2 : ∀ j, j ∉ nodes (Node n kids) → object_in p2 j = object_in p j).
  { intros j Hj. rewrite C2. destruct (Z.eqb_spec n j) as [<-|]; [|done]. exfalso. apply Hj. cbn. set_solver. }
  assert (Hlast2 : m_LastObjNum p2 = m_LastObjNum p) by apply last_change_at.
  assert (Hx : (∃ c, x = Some c) ∨ x = None) by (destruct x as [c|]; [left; by exists c|by right]). destruct Hx as [[c Ex]|Ex].
  - (* a new page *)
    assert (Eb : bInsert = true) by (by rewrite Ex). rewrite Eb. destruct (Hnew c Ex) as (Hc & Hlc & Hleaf).
    rewrite (Hpage c Ex). change (GetObjNum (c, [])) with c.
    assert (E2 : InsertNewAt array (length done_) (CPDF_Reference c) p = p2) by (unfold p2, f; by rewrite Ex). rewrite E2.
    assert (Hcn : n ≠ c) by (intros ->; apply Hc; cbn; set_solver).
    pose proof Hleaf as (mc & Hmc & _). assert (Hmc2 : object_in p2 c = Some (CPDF_Dictionary mc)) by (by rewrite Hkeep2).
    pose proof (change_at_changed original base (in_dict (SetFor (bs "Parent") (CPDF_Reference n))) c [] _ p2 C1 (C4 c Hlc) Hmc2) as [D1 D2 D3 D4 D5].
    fold (SetNewFor (c, []) (bs "Parent") (CPDF_Reference n) p2) in *. set (p3 := SetNewFor _ _ _ p2) in *.
    assert (Hn3 : object_in p3 n = object_in p2 n) by (rewrite D2; by destruct (Z.eqb_spec c n)).
    assert (Hall3 : Forall (represents (object_in p3)) kids').
    { rewrite Forall_forall. intros t Ht. destruct (Hmem t Ht) as [Ht'|(c' & Ec' & ->)]; [|rewrite Ex in Ec'; injection Ec' as <-].
      - apply (represents_ext (object_in p2)); [|by apply Hkept]. intros j Hj. rewrite D2. destruct (Z.eqb_spec c j) as [<-|]; [|done].
        exfalso. apply Hc. cbn. apply elem_of_cons. right. apply in_flat_map'. by exists t.
      - eapply (is_leaf_parent (object_in p2) _ c mc _ Hmc2); [|by rewrite D2, Z.eqb_refl].
        destruct Hleaf as (mc' & Hmc' & Hr'). exists mc'. by rewrite Hkeep2. }
    pose proof (recounted k kids' p p3) as Hrec.
    rewrite Eb, Hn3 in Hrec.
    destruct (Hrec _ D1 (D4 n C5) Hobj2 (is_node_ext _ _ _ _ Hn3 Hnode2) Hall3 Hedit Hk Hn') as [R1 R2].
    + intros j Hj Hjc. rewrite D2. destruct (Z.eqb_spec c j) as [<-|]; [congruence|]. by apply Hkeep2.
    + unfold p3, SetNewFor. by rewrite last_change_at.
    + auto.
    + apply edited_reset; [by rewrite R1, D3, C3|exact R2].
  - (* a page less *)
    assert (Eb : bInsert = false) by (rewrite Ex; apply bool_decide_eq_false_2; by intros []). rewrite Eb.
    assert (E2 : RemoveAt array (length done_) p = p2) by (unfold p2, f; by rewrite Ex). rewrite E2.
    pose proof (recounted k kids' p p2) as Hrec. rewrite Eb in Hrec.
    destruct (Hrec _ C1 C5 Hobj2 Hnode2) as [R1 R2]; try done.
    + rewrite Forall_forall. intros t Ht. destruct (Hmem t Ht) as [Ht'|(c & Hc & _)]; [by apply Hkept|congruence].
    + intros j Hj _. by apply Hkeep2.
    + apply edited_reset; [by rewrite R1, C3|exact R2].
Qed.

(** The page is in the kid [Node y ts]. *)
Lemma edit_inside done_ y ts l k j fuel p m :
  kids = done_ ++ Node y ts :: l → edit_kids (edit x) x kids k = done_ ++ edit x (Node y ts) j :: l →
  (k < size (Node n kids))%nat → (j < size (Node y ts))%nat → edit_ok (Node y ts) → (height (Node y ts) <= fuel)%nat →
  held p → loaded p n → loaded p y → object_in p n = Some (CPDF_Dictionary m) → represents (object_in p) (Node n kids) → new_page (Node n kids) p →
  ∃ p1, InsertDeletePDFPage fuel (y, []) (Z.of_nat j) page bInsert ((y, []) :: visited) p = Some (true, p1) ∧
    edited (Node n kids) x k p (change_count (n, []) (if bInsert then 1 else -1) p1).
Proof.
  intros Hkids Hedit Hk Hj Hok Hfuel Hp Hl Hly Hm Hr Hnew.
  assert (Hkid : kids !! length done_ = Some (Node y ts)) by (by rewrite Hkids, list_lookup_middle).
  destruct (nodup_kid _ _ _ _ Hnodup Hkid) as [Hnd Hn]. pose proof Hnodup as Hnd0. cbn [nodes] in Hnd0. apply NoDup_cons in Hnd0 as [Hn0 Hnd0].
  destruct (proj1 (represents_node _ _ _) Hr) as [Hnode Hall]. rewrite Forall_forall in Hall.
  assert (Hin : Node y ts ∈ kids) by (rewrite Hkids; set_solver).
  assert (Hsub : ∀ i, i ∈ nodes (Node y ts) → i ∈ nodes (Node n kids)).
  { intros i Hi. cbn [nodes]. apply elem_of_cons. right. apply in_flat_map'. by exists (Node y ts). }
  assert (Hks : (size (Node y ts) <= size (Node n kids))%nat).
  { change (leaves (Node n kids)) with (flat_map leaves kids). rewrite (kid_split leaves _ _ _ Hkid), !length_app. lia. }
  destruct (Hok fuel j ((y, []) :: visited) p) as (p1 & E & [D1 D2 D3 D4 D5 D6]); try done.
  - by apply Hall.
  - by exists y, ts.
  - lia.
  - intros q Hq Hqn. apply elem_of_cons in Hq as [->|Hq]; [done|]. specialize (Hvisited q Hq (Hsub _ Hqn)). congruence.
  - intros c Hc. destruct (Hnew c Hc) as (H1 & H2). split; [|done]. intros Hin'. by apply H1, Hsub.
  - exists p1. split; [exact E|].
    assert (Hobj : object_in p1 n = object_in p n).
    { apply D3; [done|]. intros Ex. destruct (Hnew n (eq_sym Ex)) as [Hc _]. apply Hc. cbn. set_solver. }
    assert (Hrec : ∃ kids', kids' = done_ ++ edit x (Node y ts) j :: l ∧ map num kids' = map num kids).
    { eexists. split; [reflexivity|]. rewrite Hkids, !map_app. cbn [map]. by rewrite edit_num. }
    destruct Hrec as (kids' & Ekids' & Enum).
    destruct (recounted k kids' p p1 m) as [R1 R2]; try done.
    + by apply D5.
    + by rewrite Hobj.
    + rewrite Enum. by apply (is_node_ext (object_in p)).
    + rewrite Ekids', Forall_app, Forall_cons. assert (Hothers : ∀ t, t ∈ kids → (∀ i, i ∈ nodes t → i ∉ nodes (Node y ts)) → represents (object_in p1) t).
      { intros t Ht Hdis. apply (represents_ext (object_in p)); [|by apply Hall]. intros i Hi. apply D3; [by apply Hdis|].
        intros Ex. destruct (Hnew i (eq_sym Ex)) as [Hc _]. apply Hc. cbn [nodes]. apply elem_of_cons. right. apply in_flat_map'. by exists t. }
      rewrite (kid_split nodes _ _ _ Hkid) in Hnd0. apply NoDup_app in Hnd0 as (_ & N2 & N3). apply NoDup_app in N3 as (_ & N4 & _).
      assert (Etake : take (length done_) kids = done_) by (by rewrite Hkids, take_app_length).
      assert (Edrop : drop (S (length done_)) kids = l).
      { rewrite Hkids, drop_app_ge by lia. by rewrite Nat.sub_succ_l, Nat.sub_diag by done. }
      rewrite Etake in N2. rewrite Edrop in N2, N4.
      split_and!; [|done|]; rewrite Forall_forall; intros t Ht; (apply Hothers; [rewrite Hkids; set_solver|]); intros i Hi Hi'.
      * apply (N2 i); [apply in_flat_map'; by exists t|set_solver].
      * apply (N4 i); [done|apply in_flat_map'; by exists t].
    + by rewrite Hedit.
    + rewrite Ekids'. intros Hin'. rewrite flat_map_app in Hin'. cbn [flat_map] in Hin'.
      rewrite !elem_of_app in Hin'. apply Hn0. rewrite Hkids, flat_map_app. cbn [flat_map]. rewrite !elem_of_app.
      destruct Hin' as [?|[Hin'|?]]; [by left| |by right; right].
      destruct (edit_nodes x (Node y ts) j Hnd) as [_ Hed].
      { intros c Hc Hc'. destruct (Hnew c Hc) as [H1 _]. by apply H1, Hsub. }
      destruct (Hed n Hin') as [?|Ex]; [done|]. destruct (Hnew n Ex) as [Hc _]. exfalso. apply Hc. cbn. set_solver.
    + intros i Hi Hix. apply D3; [|done]. intros Hi'. by apply Hi, Hsub.
    + destruct R2 as (R2 & R3 & R4 & R5 & R6). constructor; try done. by rewrite R1.
Qed.

Lemma change_kids_ok fuel k0 :
  Forall edit_ok kids → Forall (λ t, height t <= fuel)%nat kids → (k0 < size (Node n kids))%nat →
  ∀ l done_ k p, kids = done_ ++ l → edit_kids (edit x) x kids k0 = done_ ++ edit_kids (edit x) x l k →
  (k < length (flat_map leaves l))%nat → held p → loaded p n → represents (object_in p) (Node n kids) → new_page (Node n kids) p →
  ∃ p', change_kids (λ q m, InsertDeletePDFPage fuel q m page bInsert) (n, []) array page bInsert visited (length l) (length done_)
      (Z.of_nat k) p = Some (true, p') ∧ edited (Node n kids) x k0 p p'.
Proof.
  intros Hoks Hfuel Hk0 l. induction l as [|t l IHl]; intros done_ k p Hkids Hedit Hk Hp Hl Hr Hnew; [cbn in Hk; lia|].
  destruct (next_kid original base n kids done_ t l p Hkids Hp Hl Hr) as (p1 & E1 & Hs & Hl1 & Etype & Ecount).
  cbn [length change_kids]. rewrite E1. cbn [mbind option_bind]. rewrite Etype.
  assert (Hr1 : represents (object_in p1) (Node n kids)) by (apply (represents_ext (object_in p)); [intros; apply (same_objects _ _ _ _ Hs)|done]).
  pose proof (same_held _ _ _ _ Hs) as Hp1. pose proof (same_loaded _ _ _ _ Hs n Hl) as Hln.
  pose proof (new_page_same _ _ _ Hs Hnew) as Hnew1.
  destruct (proj1 (represents_node _ _ _) Hr1) as [(m & c & Hm & _) _].
  assert (Hskip : ∀ k', edit_kids (edit x) x (t :: l) k = t :: edit_kids (edit x) x l k' → (k' < length (flat_map leaves l))%nat →
    ∃ p', change_kids (λ q m, InsertDeletePDFPage fuel q m page bInsert) (n, []) array page bInsert visited (length l) (S (length done_))
      (Z.of_nat k') p1 = Some (true, p') ∧ edited (Node n kids) x k0 p p').
  { intros k' Ek' Hk'. destruct (IHl (done_ ++ [t]) k' p1) as (p' & E' & He); try done.
    - by rewrite <-app_assoc.
    - by rewrite Hedit, Ek', <-app_assoc.
    - exists p'. split; [|by apply (edited_same _ _ _ _ p1)]. rewrite <-E'. rewrite length_app. cbn [length]. by rewrite Nat.add_1_r. }
  cbn [flat_map] in Hk. rewrite length_app in Hk. destruct t as [y|y ts]; cbn [leaves num] in *.
  - destruct k as [|k]; cbn [negb].
    + change (Z.of_nat 0 =? 0) with true. cbn [negb]. eexists. split; [reflexivity|]. apply (edited_same _ _ _ _ p1); [done|].
      by apply (edit_here done_ y l k0 p1 m).
    + replace (Z.of_nat (S k) =? 0) with false by lia. cbn [negb]. replace (Z.of_nat (S k) - 1) with (Z.of_nat k) by lia.
      apply Hskip; [done|cbn in Hk; lia].
  - rewrite (Ecount y ts eq_refl). cbn [leaves]. destruct (Nat.leb_spec (size (Node y ts)) k) as [Hle|Hgt].
    + cbn [leaves] in Hle. replace (Z.of_nat _ <=? Z.of_nat k) with true by lia.
      assert (Ek : int32 (Z.of_nat k - Z.of_nat (length (flat_map leaves ts))) = Z.of_nat (k - length (flat_map leaves ts))).
      { unfold int32. assert (Hkk : (k < length (flat_map leaves kids))%nat).
        { rewrite Hkids, flat_map_app, length_app. cbn [flat_map]. rewrite length_app. cbn [leaves]. lia. }
        rewrite s32_small; lia. }
      rewrite Ek. apply Hskip; [|lia]. cbn [edit_kids leaves]. by replace (length (flat_map leaves ts) <=? k)%nat with true by (symmetry; by apply Nat.leb_le).
    + cbn [leaves] in Hgt. replace (Z.of_nat _ <=? Z.of_nat k) with false by lia.
      rewrite decide_False.
      2: { intros Hin. assert (Hyn : (y, @nil step).1 = n).
           { apply Hvisited; [done|]. cbn [fst nodes]. rewrite Hkids, flat_map_app. cbn [flat_map nodes]. set_solver. }
           cbn in Hyn. subst y. pose proof Hnodup as Hnd. cbn [nodes] in Hnd. apply NoDup_cons in Hnd as [Hn _]. apply Hn.
           rewrite Hkids, flat_map_app. cbn [flat_map nodes]. set_solver. }
      rewrite Forall_forall in Hoks, Hfuel. assert (Hin : Node y ts ∈ kids) by (rewrite Hkids; set_solver).
      destruct (edit_inside done_ y ts l k0 k fuel p1 m) as (p2 & E2 & He); try done.
      * rewrite Hedit. cbn [edit_kids leaves]. by replace (length (flat_map leaves ts) <=? k)%nat with false by (symmetry; apply Nat.leb_gt; lia).
      * by apply Hoks.
      * by apply Hfuel.
      * match goal with |- context [InsertDeletePDFPage fuel ?q ?a page ?b ?v p1] =>
          replace (InsertDeletePDFPage fuel q a page b v p1) with (Some (true, p2)) by (symmetry; exact E2) end.
        cbn [mbind option_bind negb]. eexists. split; [reflexivity|]. by apply (edited_same _ _ _ _ p1).
Qed.
End node.

Lemma edit_all t : edit_ok t.
Proof.
  revert t. apply tree_ind'; [by intros y fuel k visited p _ _ _ _ (? & ? & ?)|].
  intros n kids IH fuel k visited p Hp Hr Hnd Hl _ Hfuel Hk Hsize Hvis Hnew. destruct fuel as [|fuel]; [cbn in Hfuel; lia|].
  cbn [InsertDeletePDFPage num]. destruct (proj1 (represents_node _ _ _) Hr) as [(m & c & Hm & Hkids & _) _].
  cbn [num] in Hl. destruct (GetArrayFor_direct original base n _ p m _ Hp Hl Hm Hkids) as [-> El].
  unfold array_size. rewrite El. cbn [default from_option id]. rewrite !length_map.
  apply (change_kids_ok n kids visited Hnd Hsize Hvis fuel k IH) with (done_ := []); try done.
  apply Forall_forall. intros t Ht. apply list_elem_of_lookup in Ht as [i Hi]. pose proof (height_kid _ _ _ n Hi). lia.
Qed.
End edit.
