(* ===== verification/PageSpec.v ===== *)
(** * [CPDF_Document] implements a list of pages

    The operations on pages, in any order, are those of a list of object numbers:
    the tree, the partly known [m_PageList] and the position of the traversal are
    not observable. *)
From Stdlib Require Import Sorted String.
From stdpp Require Import gmap.
From S2P Require Import Prelude Words FxNumber Objects Dict StdMap Security DocParser Holder Pointer Store PageTree PageList PageWalk PageDoc PageEdit.
Import String.StringSyntax.

(** ** The specification *)
Inductive op := Count | Get (i : Z) | Create (i : Z) | Delete (i : Z).
Inductive result := IsCount (n : Z) | IsPage (page : option Z) | Done.

(** The pages and the last object number. *)
Definition spec_step (o : op) (s : list Z * Z) : result * (list Z * Z) :=
  let '(l, last) := s in
  match o with
  | Count => (IsCount (zlen l), (l, last))
  | Get i => (IsPage (if 0 <=? i then l !! Z.to_nat i else None), (l, last))
  | Create i =>
      if (0 <=? i) && (i <=? zlen l) then (IsPage (Some (last + 1)), (insert_page i (last + 1) l, last + 1)) else (IsPage None, (l, last + 1))
  | Delete i => (Done, (if (0 <=? i) && (i <? zlen l) then delete (Z.to_nat i) l else l, last))
  end.

Section code.
Context `{Holder}.
Definition page_number (r : option (option pointer * CPDF_Parser)) : option (result * CPDF_Parser) :=
  '(q, p) ← r; Some (IsPage (GetObjNum <$> q), p).
Definition code_step (o : op) (p : CPDF_Parser) : option (result * CPDF_Parser) :=
  match o with
  | Count => Some (IsCount (GetPageCount p), p)
  | Get i => page_number (GetPageDictionary i p)
  | Create i => page_number (CreateNewPage kMaxPageLevel i p)
  | Delete i => p ← DeletePage kMaxPageLevel i p; Some (Done, p)
  end.
Fixpoint code_run (ops : list op) (p : CPDF_Parser) : option (list result * CPDF_Parser) :=
  match ops with
  | [] => Some ([], p)
  | o :: ops' => '(r, p) ← code_step o p; '(rs, p) ← code_run ops' p; Some (r :: rs, p)
  end.
End code.
Fixpoint spec_run (ops : list op) (s : list Z * Z) : list result * (list Z * Z) :=
  match ops with
  | [] => ([], s)
  | o :: ops' => let '(r, s) := spec_step o s in let '(rs, s) := spec_run ops' s in (r :: rs, s)
  end.

Lemma node_object obj t : represents obj t → ∀ n, n ∈ nodes t → is_Some (obj n).
Proof.
  revert t. apply (tree_ind' (λ t, represents obj t → ∀ n, n ∈ nodes t → is_Some (obj n))).
  - intros n (m & Hm & _) k Hk. cbn in Hk. apply list_elem_of_singleton in Hk as ->. by eexists.
  - intros n kids IH [(m & c & Hm & _) Hall]%represents_node k Hk. cbn in Hk. apply elem_of_cons in Hk as [->|Hk]; [by eexists|].
    apply in_flat_map' in Hk as (t' & Ht' & Hk). rewrite Forall_forall in IH, Hall. by apply (IH t' Ht' (Hall t' Ht')).
Qed.

Lemma position_nodes t : ∀ s b, at_position t s b → Forall (λ e, e.1.1 ∈ nodes t) s.
Proof.
  revert t. apply (tree_ind' (λ t, ∀ s b, at_position t s b → Forall (λ e, e.1.1 ∈ nodes t) s)).
  - intros n [|[q k] rest] b; cbn; [done|by intros].
  - intros n kids IH [|[q k] rest] b; [done|]. intros (-> & _ & Hrest). constructor; [cbn; set_solver|].
    destruct rest as [|e rest]; [constructor|]. destruct Hrest as (kid & b' & Hkid & Hpos & _). rewrite Forall_forall in IH.
    assert (Hin : kid ∈ kids) by (apply list_elem_of_lookup; by exists k). eapply Forall_impl; [exact (IH kid Hin _ _ Hpos)|].
    intros x Hx. cbn. apply elem_of_cons. right. apply in_flat_map'. by exists kid.
Qed.

Section refinement.
Context (original : Z → option CPDF_Object) (base : CPDF_Parser → Prop) `{HolderLaws original base}.
Notation object_in := (object_in original).
Notation held := (held original base).
Notation same := (same original base).
Notation changed := (changed original base).
Notation page_doc := (page_doc original base).

(** Objects that are not in the tree do not matter. *)
Lemma page_doc_store t p p' :
  page_doc t p → held p' → (∀ n, is_Some (object_in p n) → object_in p' n = object_in p n) → m_Document p' = m_Document p →
  (∀ n, is_Some (object_in p n) → loaded p n → loaded p' n) → page_doc t p'.
Proof.
  intros [D1 D2 D3 D4 D5 D6 D7 D8 D9 D10] Hp Ho Hd Hl. unfold pages, traversal in *.
  pose proof (node_object _ t D3) as Hnode.
  constructor; unfold pages, traversal; rewrite ?Hd; try done.
  - destruct D2 as (r & m & R1 & R2 & R3 & R4 & R5). assert (Hr : is_Some (object_in p r)) by (by eexists).
    exists r, m. split_and!; try done; [by apply Hl|by rewrite Ho].
  - apply (represents_ext (object_in p)); [|done]. intros n Hn. by apply Ho, Hnode.
  - destruct D10 as [?|(b & B1 & B2 & B3)]; [by left|]. right. exists b. split_and!; [done| |apply B3..].
    pose proof (position_nodes _ _ _ B1) as Hst. unfold stack_loaded in *. rewrite Forall_forall in B2, Hst |- *. intros e He. apply Hl; [by apply Hnode, Hst|by apply B2].
Qed.

(** ** The list of pages follows the tree *)
Definition known (l known : list Z) : Prop := length known = length l ∧ ∀ i n, known !! i = Some n → n = 0 ∨ l !! i = Some n.

Lemma known_edit x l m k : known l m → (k <= length l)%nat → known (edit_list x l k) (edit_list x m k).
Proof.
  intros [Hl Hm] Hk. destruct x as [c|]; cbn.
  - split; [rewrite !length_app, !length_take; cbn; rewrite !length_drop; lia|]. intros i n Hi.
    destruct (Nat.lt_total i k) as [Hlt|[->|Hgt]].
    + rewrite lookup_app_l in Hi by (rewrite length_take; lia). rewrite lookup_take_lt in Hi by done.
      rewrite lookup_app_l by (rewrite length_take; lia). rewrite lookup_take_lt by done. by apply Hm.
    + rewrite list_lookup_middle in Hi by (rewrite length_take; lia). rewrite list_lookup_middle by (rewrite length_take; lia). by right.
    + rewrite lookup_app_r in Hi by (rewrite length_take; lia). rewrite lookup_app_r by (rewrite length_take; lia).
      rewrite !length_take in *. replace (k `min` length m)%nat with k in Hi by lia. replace (k `min` length l)%nat with k by lia.
      destruct (i - k)%nat as [|j] eqn:Ej; [lia|]. change (drop k m !! j = Some n) in Hi. change (n = 0 ∨ drop k l !! j = Some n).
      rewrite lookup_drop in *. by apply Hm.
  - destruct (decide (k < length l)%nat) as [Hlt|Hge].
    + split; [rewrite !length_delete by (apply lookup_lt_is_Some_2; lia); lia|]. intros i n Hi.
      destruct (decide (i < k)%nat).
      * rewrite list_lookup_delete_lt in * by done. by apply Hm.
      * rewrite list_lookup_delete_ge in * by lia. by apply Hm.
    + rewrite !delete_take_drop, !take_ge, !drop_ge, !app_nil_r by lia. by split.
Qed.

Lemma page_doc_known t p : page_doc t p → known (leaves t) (pages p).
Proof. intros Hd. split; [apply (pd_length _ _ _ _ Hd)|apply (pd_pages _ _ _ _ Hd)]. Qed.

(** The document after a change of its tree. *)
Lemma page_doc_changed t t' p p' f :
  page_doc t p → held p' → represents (object_in p') t' → NoDup (nodes t') → (height t' <= kMaxPageLevel)%nat →
  num t' = num t → (∃ n kids, t' = Node n kids) →
  (∀ r, m_pRootDict (m_Document p) = Some (r, []) → r ∉ nodes t → r ∉ nodes t' ∧ object_in p' r = object_in p r) →
  (∀ n, loaded p n → loaded p' n) → m_Document p' = m_Document (ResetTraversal p) → known (leaves t') (f (pages p)) →
  page_doc t' (with_pages f p').
Proof.
  intros [D1 D2 D3 D4 D5 D6 D7 D8 D9 D10] Hp Hr Hn Hh Hnum Hnode Hroot Hl Hd [K1 K2].
  destruct D2 as (r & m & R1 & R2 & R3 & R4 & R5). destruct (Hroot r R1 R5) as [R6 R7].
  assert (Ep : pages (with_pages f p') = f (pages p)) by (unfold pages; cbn; by rewrite Hd).
  constructor; try done.
  - by apply (held_with_document original base).
  - exists r, m. split_and!; [cbn; by rewrite Hd|by apply Hl| |by rewrite Hnum|done].
    change (object_in p' r = Some (CPDF_Dictionary m)). by rewrite R7.
  - by rewrite Ep.
  - intros i n. rewrite Ep. apply K2.
  - cbn. by rewrite Hd.
  - left. cbn. by rewrite Hd.
Qed.

Lemma page_doc_edited x t k p p' :
  page_doc t p → edited original base t x k p p' → (k < length (leaves t))%nat → (∀ c, x = Some c → c ∉ nodes t ∧ m_pRootDict (m_Document p) ≠ Some (c, [])) →
  page_doc (edit x t k) (with_pages (λ l, edit_list x l k) p').
Proof.
  intros Hd [E1 E2 E3 E4 E5 E6] Hk Hx. destruct (edit_nodes x t k (pd_nodup _ _ _ _ Hd)) as [N1 N2]; [intros c Hc; by apply Hx|].
  apply (page_doc_changed t (edit x t k) p p'); try done.
  - pose proof (edit_height x t k). pose proof (pd_height _ _ _ _ Hd). lia.
  - apply edit_num.
  - destruct (pd_node _ _ _ _ Hd) as (n & kids & ->). cbn. by eexists _, _.
  - intros r Hr Hrn. assert (Hrx : x ≠ Some r) by (intros Hrx; by destruct (Hx r Hrx)).
    split; [intros Hin; by destruct (N2 r Hin)|]. apply E3; congruence.
  - rewrite edit_leaves by (done || apply (pd_node _ _ _ _ Hd)). apply known_edit; [by apply page_doc_known|lia].
Qed.

(** ** Insertion *)
Definition append (t : tree) (c : Z) : tree := match t with Leaf n => Leaf n | Node n kids => Node n (kids ++ [Leaf c]) end.

Lemma append_nodes n kids c : nodes (append (Node n kids) c) = nodes (Node n kids) ++ [c].
Proof. cbn. by rewrite flat_map_app. Qed.
Lemma append_height t c : (height (append t c) <= height t)%nat.
Proof.
  destruct t as [n|n kids]; [done|]. cbn. apply le_n_S. rewrite map_app, list_max_app. cbn. lia.
Qed.

Lemma set_changed n key o p m :
  held p → loaded p n → object_in p n = Some (CPDF_Dictionary m) →
  changed n (CPDF_Dictionary (SetFor key o m)) p (SetNewFor (n, []) key o p).
Proof. intros Hp Hl Hm. exact (change_at_changed original base (in_dict (SetFor key o)) n [] _ p Hp Hl Hm). Qed.

(** [t] with the page [c] behind its last kid, as [InsertNewPage] makes it. *)
Definition appended (n c count : Z) (p : CPDF_Parser) : CPDF_Parser :=
  ResetTraversal (SetNewFor (c, []) (bs "Parent") (CPDF_Reference n)
    (SetNewFor (n, []) (bs "Count") (number count) (AppendNew (n, [InDict (bs "Kids")]) (CPDF_Reference c) p))).

Lemma append_changed n kids c p :
  held p → loaded p n → represents (object_in p) (Node n kids) → NoDup (nodes (Node n kids)) → c ∉ nodes (Node n kids) →
  loaded p c → is_leaf (object_in p) c → Z.of_nat (size (Node n kids)) + 1 < 2 ^ 31 →
  let p' := appended n c (int32 (Z.of_nat (size (Node n kids)) + 1)) p in
  held p' ∧ represents (object_in p') (append (Node n kids) c) ∧ (∀ j, j ∉ nodes (Node n kids) → j ≠ c → object_in p' j = object_in p j) ∧
  (∀ j, loaded p j → loaded p' j) ∧ m_Document p' = m_Document (ResetTraversal p) ∧ m_LastObjNum p' = m_LastObjNum p.
Proof.
  intros Hp Hl Hr Hnd Hc Hlc Hleaf Hsize. cbv zeta. unfold appended. set (p1 := AppendNew _ _ p).
  destruct (proj1 (represents_node _ _ _) Hr) as [Hnode Hall]. pose proof Hnode as (m & k & Hm & _).
  assert (Hcn : n ≠ c) by (intros ->; apply Hc; cbn; set_solver).
  assert (Hn0 : n ∉ flat_map nodes kids) by (cbn in Hnd; by apply NoDup_cons in Hnd as [? _]).
  assert (Hf : map CPDF_Reference (map num kids) ++ [CPDF_Reference c] = map CPDF_Reference (map num kids ++ [c])) by (by rewrite map_app).
  destruct (kids_changed original base n (λ l, l ++ [CPDF_Reference c]) (map num kids) _ _ p m Hp Hl Hm Hnode Hf) as [A1 A2 A3 A4 A5].
  fold (AppendNew (n, [InDict (bs "Kids")]) (CPDF_Reference c) p) in *. fold p1 in A1, A2, A3, A4, A5.
  set (m1 := SetFor (bs "Kids") _ m) in *. assert (Hm1 : object_in p1 n = Some (CPDF_Dictionary m1)) by (by rewrite A2, Z.eqb_refl).
  assert (Hnode1 : is_node (object_in p1) n (map num kids ++ [c]) (size (Node n kids))) by (by apply (is_node_kids (object_in p) _ _ (map num kids) _ _ m)).
  destruct (set_changed n (bs "Count") (number (int32 (Z.of_nat (size (Node n kids)) + 1))) p1 m1 A1 A5 Hm1) as [B1 B2 B3 B4 B5].
  set (p2 := SetNewFor _ _ _ p1) in *. destruct Hleaf as (mc & Hmc & Hleaf).
  assert (Hmc2 : object_in p2 c = Some (CPDF_Dictionary mc)) by (rewrite B2, A2; by destruct (Z.eqb_spec n c)).
  destruct (set_changed c (bs "Parent") (CPDF_Reference n) p2 mc B1 (B4 c (A4 c Hlc)) Hmc2) as [C1 C2 C3 C4 C5].
  set (p3 := SetNewFor _ _ _ p2) in *. change (object_in (ResetTraversal p3)) with (object_in p3).
  assert (Hobj : ∀ j, j ≠ n → j ≠ c → object_in p3 j = object_in p j).
  { intros j H1 H2. rewrite C2, B2, A2. by destruct (Z.eqb_spec c j), (Z.eqb_spec n j); try congruence. }
  split_and!.
  - by do 3 apply (held_with_document original base).
  - apply represents_node. split.
    + rewrite map_app, flat_map_app, length_app. cbn [map num flat_map leaves app length].
      assert (E : int32 (Z.of_nat (size (Node n kids)) + 1) = Z.of_nat (length (flat_map leaves kids) + 1)).
      { unfold int32. cbn [leaves] in *. rewrite s32_small; lia. }
      apply (is_node_count (object_in p1) _ _ _ (size (Node n kids)) _ m1); [done|done|cbn [leaves] in *; lia|].
      rewrite C2, B2, Z.eqb_refl, <-E. by destruct (Z.eqb_spec c n); try congruence.
    + apply Forall_app. split; [|constructor; [|constructor]].
      * rewrite Forall_forall in Hall |- *. intros t Ht. apply (represents_ext (object_in p)); [|by apply Hall]. intros j Hj.
        assert (j ∈ flat_map nodes kids) by (apply in_flat_map'; by exists t). apply Hobj; [set_solver|]. intros ->. apply Hc. cbn. set_solver.
      * apply (is_leaf_parent (object_in p2) _ c mc (CPDF_Reference n)); [done|by exists mc|]. by rewrite C2, Z.eqb_refl.
  - intros j Hj Hjc. change (object_in p3 j = object_in p j). apply Hobj; [|done]. intros ->. apply Hj. cbn. set_solver.
  - intros j Hj. change (loaded p3 j). auto.
  - apply reset_document. congruence.
  - change (m_LastObjNum p3 = m_LastObjNum p). unfold p3, p2, p1, SetNewFor, AppendNew. by rewrite !last_change_at.
Qed.

Lemma InsertNewPage_spec t p c fuel i :
  page_doc t p → c ∉ nodes t → m_pRootDict (m_Document p) ≠ Some (c, []) → loaded p c → is_leaf (object_in p) c →
  (height t <= fuel)%nat → Z.of_nat (size t) + 1 < 2 ^ 31 →
  ∃ p', InsertNewPage fuel i (c, []) p = Some ((0 <=? i) && (i <=? Z.of_nat (size t)), p') ∧ m_LastObjNum p' = m_LastObjNum p ∧
    if (0 <=? i) && (i <=? Z.of_nat (size t)) then ∃ t', page_doc t' p' ∧ leaves t' = insert_page i c (leaves t)
    else same p p'.
Proof.
  intros Hd Hc Hroot Hlc Hleaf Hfuel Hsize. unfold InsertNewPage. destruct (pages_dict _ _ t p Hd) as (p1 & -> & Hs & Hl).
  pose proof (page_doc_same _ _ _ _ _ Hs Hd) as Hd1. pose proof (same_last _ _ _ _ Hs) as Hlast.
  assert (Ecount : GetPageCount p1 = Z.of_nat (size t)) by (unfold GetPageCount, zlen; by rewrite (pd_length _ _ _ _ Hd1)).
  rewrite Ecount. destruct (Z.ltb_spec i 0) as [Hi|Hi]; cbn [orb].
  { replace (0 <=? i) with false by lia. cbn. by exists p1. }
  replace (0 <=? i) with true by lia. destruct (Z.ltb_spec (Z.of_nat (size t)) i) as [Hi2|Hi2].
  { replace (i <=? Z.of_nat (size t)) with false by lia. cbn. by exists p1. }
  replace (i <=? Z.of_nat (size t)) with true by lia. cbn [andb].
  destruct (pd_node _ _ _ _ Hd1) as (n & kids & ->). cbn [num] in Hl.
  assert (Hleaf1 : is_leaf (object_in p1) c) by (destruct Hleaf as (m & Hm & Hr); exists m; by rewrite (same_objects _ _ _ _ Hs)).
  assert (Hlc1 : loaded p1 c) by (by apply (same_loaded _ _ _ _ Hs)).
  assert (Hroot1 : m_pRootDict (m_Document p1) ≠ Some (c, [])) by (by rewrite (same_document _ _ _ _ Hs)).
  destruct (Z.eqb_spec i (Z.of_nat (size (Node n kids)))) as [->|Hne].
  - (* at the end *)
    pose proof (pd_tree _ _ _ _ Hd1) as Hr. destruct (proj1 (represents_node _ _ _) Hr) as [(m & k & Hm & Hk & _) _].
    destruct (GetArrayFor_direct original base n _ p1 m _ (pd_held _ _ _ _ Hd1) Hl Hm Hk) as [Ea _]. cbn [num]. rewrite Ea.
    change (GetObjNum (n, [])) with n. change (GetObjNum (c, [])) with c.
    destruct (append_changed n kids c p1 (pd_held _ _ _ _ Hd1) Hl Hr (pd_nodup _ _ _ _ Hd1) Hc Hlc1 Hleaf1 Hsize) as (A1 & A2 & A3 & A4 & A5 & A6).
    fold (appended n c (int32 (Z.of_nat (size (Node n kids)) + 1)) p1). set (p2 := appended _ _ _ p1) in *.
    cbn [mbind option_bind negb]. eexists. split; [reflexivity|]. split; [change (m_LastObjNum p2 = m_LastObjNum p); congruence|].
    assert (El : leaves (append (Node n kids) c) = insert_page (Z.of_nat (size (Node n kids))) c (leaves (Node n kids))).
    { unfold insert_page. rewrite Nat2Z.id, take_ge, drop_ge by lia. cbn. by rewrite flat_map_app. }
    exists (append (Node n kids) c). split; [|exact El].
    apply (page_doc_changed (Node n kids) _ p1 p2); try done.
    + rewrite append_nodes. apply NoDup_app. split_and!; [apply (pd_nodup _ _ _ _ Hd1)|set_solver|apply NoDup_singleton].
    + pose proof (append_height (Node n kids) c). pose proof (pd_height _ _ _ _ Hd1). lia.
    + by exists n, (kids ++ [Leaf c]).
    + intros r Hr1 Hr2. rewrite append_nodes. assert (r ≠ c) by congruence. split; [set_solver|by apply A3].
    + rewrite El. unfold insert_page. apply (known_edit (Some c)); [by apply page_doc_known|lia].
  - (* before a page *)
    destruct (edit_all original base (Some c) (c, []) ltac:(by intros ? [= <-]) (Node n kids) fuel (Z.to_nat i) [(n, []) : pointer] p1) as (p2 & E & He); try done.
    + apply (pd_held _ _ _ _ Hd1).
    + apply (pd_tree _ _ _ _ Hd1).
    + apply (pd_nodup _ _ _ _ Hd1).
    + by exists n, kids.
    + lia.
    + intros q Hq _. by apply list_elem_of_singleton in Hq as ->.
    + by intros c' [= <-].
    + rewrite bool_decide_eq_true_2, Z2Nat.id in E by (done || lia). cbn [num]. change (num (Node n kids)) with n in E.
      match goal with |- context [InsertDeletePDFPage ?f ?q ?a ?g ?b ?v p1] => replace (InsertDeletePDFPage f q a g b v p1) with (Some (true, p2)) by (symmetry; exact E) end.
      cbn [mbind option_bind negb].
      eexists. split; [reflexivity|]. split; [change (m_LastObjNum p2 = m_LastObjNum p); rewrite (ed_last _ _ _ _ _ _ _ He); congruence|].
      exists (edit (Some c) (Node n kids) (Z.to_nat i)). split.
      * apply (page_doc_edited (Some c) (Node n kids) (Z.to_nat i) p1 p2); [done|done|lia|]. by intros c' [= <-].
      * rewrite edit_leaves; [done|lia|by exists n, kids].
Qed.

(** A new object is not in the tree. *)
Lemma new_object t p c : page_doc t p → object_in p c = None → c ∉ nodes t ∧ m_pRootDict (m_Document p) ≠ Some (c, []).
Proof.
  intros Hd Hc. split.
  - intros Hin. destruct (node_object _ t (pd_tree _ _ _ _ Hd) c Hin). congruence.
  - intros Hr. destruct (pd_root _ _ _ _ Hd) as (r & m & R1 & R2 & R3 & _). rewrite Hr in R1. injection R1 as <-. congruence.
Qed.

(** What is made for a page that is then not inserted goes away. *)
Lemma deleted t p p' c :
  page_doc t p → held p' → object_in p c = None → original c = None → (∀ n, n ≠ c → object_in p' n = object_in p n) →
  m_Document p' = m_Document p → (∀ n, loaded p n → loaded p' n) → loaded p' c →
  page_doc t (DeleteIndirectObject c p') ∧ m_LastObjNum (DeleteIndirectObject c p') = m_LastObjNum p'.
Proof.
  intros Hd Hp Hc Horig Ho Hdoc Hl Hlc. unfold DeleteIndirectObject. destruct Hlc as [o Ho']. rewrite Ho'. split; [|done].
  pose proof Hp as [H1 H2 H3 H4 H5]. set (p2 := with_holder _ _ p').
  assert (Hf : ∀ n, find n (m_IndirectObjs p2) = if c =? n then None else find n (m_IndirectObjs p')) by (intros; by apply find_erase_key).
  assert (Hobj : ∀ n, object_in p2 n = if c =? n then None else object_in p' n).
  { intros n. unfold object_in. rewrite Hf. destruct (Z.eqb_spec c n) as [<-|]; [|done]. exact Horig. }
  apply (page_doc_store t p); try done.
  - constructor; [by apply sorted_erase_key|by apply (@base_holder original base _ _)| |done|done]. intros n. rewrite Hobj. destruct (c =? n); [by intros []|apply H3].
  - intros n Hn. rewrite Hobj. destruct (Z.eqb_spec c n) as [<-|]; [|by apply Ho]. rewrite Hc in Hn. by destruct Hn.
  - intros n Hn Hln. destruct (Z.eqb_spec c n) as [<-|Hne]; [rewrite Hc in Hn; by destruct Hn|]. specialize (Hl n Hln).
    unfold loaded, GetIndirectObject in *. rewrite Hf. by replace (c =? n) with false by lia.
Qed.

Lemma CreateNewPage_spec t p fuel i :
  page_doc t p → (height t <= fuel)%nat → Z.of_nat (size t) + 1 < 2 ^ 31 → m_LastObjNum p + 1 < kInvalidObjNum →
  let c := m_LastObjNum p + 1 in
  ∃ p', CreateNewPage fuel i p = Some (if (0 <=? i) && (i <=? Z.of_nat (size t)) then Some (c, []) else None, p') ∧ m_LastObjNum p' = c ∧ 1 <= c ∧
    ∃ t', page_doc t' p' ∧ leaves t' = if (0 <=? i) && (i <=? Z.of_nat (size t)) then insert_page i c (leaves t) else leaves t.
Proof.
  intros Hd Hfuel Hsize Hlast. cbv zeta. unfold CreateNewPage. pose proof (pd_held _ _ _ _ Hd) as Hp.
  destruct (AddIndirectObject_changed original base (CPDF_Dictionary []) p Hp Hlast) as (p1 & -> & [A1 A2 A3 A4 A5] & Hnone & Hl1 & Hpos).
  set (c := m_LastObjNum p + 1) in *.
  assert (Hc1 : object_in p1 c = Some (CPDF_Dictionary [])) by (by rewrite A2, Z.eqb_refl).
  destruct (set_changed c (bs "Type") (CPDF_Name (bs "Page")) p1 [] A1 A5 Hc1) as [B1 B2 B3 B4 B5].
  pose proof (last_change_at (in_dict (SetFor (bs "Type") (CPDF_Name (bs "Page")))) (c, []) p1) as Hl2.
  fold (SetNewFor (c, []) (bs "Type") (CPDF_Name (bs "Page")) p1) in Hl2. set (p2 := SetNewFor _ _ _ p1) in *.
  assert (Hobj : ∀ n, n ≠ c → object_in p2 n = object_in p n).
  { intros n Hn. rewrite B2, A2. by destruct (Z.eqb_spec c n) as [E|]. }
  destruct (new_object t p c Hd Hnone) as [Hnot Hroot].
  assert (Hd2 : page_doc t p2).
  { apply (page_doc_store t p); [done|done| |congruence|auto]. intros n [o Ho]. apply Hobj. congruence. }
  assert (Hleaf : is_leaf (object_in p2) c) by (exists [(bs "Type", CPDF_Name (bs "Page"))]; rewrite B2, Z.eqb_refl; by split_and!).
  destruct (InsertNewPage_spec t p2 c fuel i Hd2 Hnot) as (p3 & E3 & Hl3 & Hres); [by rewrite B3, A3|done..|]. rewrite E3. cbn [mbind option_bind].
  destruct ((0 <=? i) && (i <=? Z.of_nat (size t))); cbn [negb].
  - destruct Hres as (t' & Ht' & El). exists p3. split_and!; [done|congruence|done|by exists t'].
  - destruct Hres as [S1 S2 S3 S4 S5]. destruct (deleted t p p3 c) as [D1 D2]; try done.
    + destruct (original c) as [o|] eqn:Eo; [|done]. pose proof (held_original _ _ _ Hp c ltac:(by eexists)). lia.
    + intros n Hn. by rewrite S2, Hobj.
    + congruence.
    + auto.
    + auto.
    + eexists. split; [reflexivity|]. split_and!; [congruence|done|by exists t].
Qed.

Lemma DeletePage_spec t p fuel i :
  page_doc t p → (height t <= fuel)%nat → Z.of_nat (size t) + 1 < 2 ^ 31 →
  ∃ p', DeletePage fuel i p = Some p' ∧ m_LastObjNum p' = m_LastObjNum p ∧
    ∃ t', page_doc t' p' ∧ leaves t' = if (0 <=? i) && (i <? Z.of_nat (size t)) then delete (Z.to_nat i) (leaves t) else leaves t.
Proof.
  intros Hd Hfuel Hsize. unfold DeletePage. destruct (pages_dict _ _ t p Hd) as (p1 & -> & Hs & Hl).
  pose proof (page_doc_same _ _ _ _ _ Hs Hd) as Hd1. pose proof (same_last _ _ _ _ Hs) as Hlast.
  destruct (pd_node _ _ _ _ Hd1) as (n & kids & ->). cbn [num] in *. set (t := Node n kids) in *.
  destruct (proj1 (represents_node _ _ _) (pd_tree _ _ _ _ Hd1)) as [(m & k & Hm & _ & Hk & Hsz & _) _].
  rewrite (GetIntegerFor_direct original n _ p1 m k Hl Hm Hk), Hsz. change (length (flat_map leaves kids)) with (size t).
  destruct (Z.ltb_spec i 0) as [Hi|Hi]; cbn [orb].
  { replace (0 <=? i) with false by lia. exists p1. split_and!; [done..|by exists t]. }
  replace (0 <=? i) with true by lia. destruct (Z.leb_spec (Z.of_nat (size t)) i) as [Hi2|Hi2].
  { replace (i <? Z.of_nat (size t)) with false by lia. exists p1. split_and!; [done..|by exists t]. }
  replace (i <? Z.of_nat (size t)) with true by lia. cbn [andb].
  destruct (edit_all original base None (n, []) ltac:(done) t fuel (Z.to_nat i) [(n, []) : pointer] p1) as (p2 & E & He); try done.
  - apply (pd_held _ _ _ _ Hd1).
  - apply (pd_tree _ _ _ _ Hd1).
  - apply (pd_nodup _ _ _ _ Hd1).
  - by exists n, kids.
  - lia.
  - intros q Hq _. by apply list_elem_of_singleton in Hq as ->.
  - rewrite bool_decide_eq_false_2, Z2Nat.id in E by (lia || by intros []). change (num t) with n in E.
    match goal with |- context [InsertDeletePDFPage ?f ?q ?a ?g ?b ?v p1] => replace (InsertDeletePDFPage f q a g b v p1) with (Some (true, p2)) by (symmetry; exact E) end.
    cbn [mbind option_bind negb].
    assert (Ecount : GetPageCount p2 = Z.of_nat (size t)).
    { unfold GetPageCount, zlen, pages. rewrite (ed_document _ _ _ _ _ _ _ He). cbn. f_equal. apply (pd_length _ _ _ _ Hd1). }
    rewrite Ecount. replace (i <? Z.of_nat (size t)) with true by lia. eexists. split; [reflexivity|]. split.
    + change (m_LastObjNum p2 = m_LastObjNum p). rewrite (ed_last _ _ _ _ _ _ _ He). congruence.
    + exists (edit None t (Z.to_nat i)). split.
      * apply (page_doc_edited None t (Z.to_nat i) p1 p2); [done|done|lia|done].
      * rewrite edit_leaves; [done|lia|by exists n, kids].
Qed.

(** ** Refinement *)
Definition doc_pages (l : list Z) (p : CPDF_Parser) : Prop := ∃ t, page_doc t p ∧ leaves t = l.

Lemma step_refines o l p :
  doc_pages l p → zlen l + 1 < 2 ^ 31 → m_LastObjNum p + 1 < kInvalidObjNum →
  let '(r, (l', last')) := spec_step o (l, m_LastObjNum p) in
  ∃ p', code_step o p = Some (r, p') ∧ doc_pages l' p' ∧ m_LastObjNum p' = last' ∧
    zlen l' <= zlen l + 1 ∧ last' <= m_LastObjNum p + 1.
Proof.
  intros (t & Hd & <-) Hl Hlast. unfold zlen in *. pose proof (pd_height _ _ _ _ Hd) as Hh. destruct o as [|i|i|i]; cbn [spec_step code_step].
  - exists p. unfold GetPageCount, zlen. rewrite (pd_length _ _ _ _ Hd). split_and!; [done|by exists t|done|lia..].
  - destruct (GetPageDictionary_spec original base t p i Hd) as (p' & -> & Hd' & Hlast' & _). exists p'. cbn [page_number mbind option_bind].
    split_and!; [|by exists t|done|lia..]. do 3 f_equal. destruct (0 <=? i); [|done]. by destruct (leaves t !! Z.to_nat i).
  - destruct (CreateNewPage_spec t p kMaxPageLevel i Hd Hh Hl Hlast) as (p' & -> & Hlast' & _ & t' & Ht' & El). cbn [page_number mbind option_bind].
    unfold zlen. destruct ((0 <=? i) && (i <=? Z.of_nat (size t))); exists p'.
    + split_and!; [done|by exists t'|done| |lia]. unfold insert_page. rewrite length_app, length_take. cbn. rewrite length_drop. lia.
    + split_and!; [done|by exists t'|done|lia..].
  - destruct (DeletePage_spec t p kMaxPageLevel i Hd Hh Hl) as (p' & -> & Hlast' & t' & Ht' & El). exists p'. cbn [mbind option_bind]. unfold zlen.
    split_and!; [done|by exists t'|done| |lia]. destruct (_ && _); [|lia]. rewrite delete_take_drop, length_app, length_take, length_drop. lia.
Qed.
End refinement.

Lemma run_refines `{HolderLaws original base} ops : ∀ l p,
  doc_pages original base l p → zlen l + Z.of_nat (length ops) < 2 ^ 31 → m_LastObjNum p + Z.of_nat (length ops) < kInvalidObjNum →
  ∃ p', code_run ops p = Some ((spec_run ops (l, m_LastObjNum p)).1, p') ∧
    doc_pages original base (spec_run ops (l, m_LastObjNum p)).2.1 p' ∧ m_LastObjNum p' = (spec_run ops (l, m_LastObjNum p)).2.2.
Proof.
  induction ops as [|o ops IH]; intros l p Hd Hl Hlast; cbn [spec_run code_run length] in *; [by exists p|].
  pose proof (step_refines original base o l p Hd ltac:(lia) ltac:(lia)) as Hstep.
  destruct (spec_step o (l, m_LastObjNum p)) as [r [l' last']]. destruct Hstep as (p1 & -> & Hd1 & <- & H1 & H2). cbn [mbind option_bind].
  destruct (IH l' p1 Hd1 ltac:(lia) ltac:(lia)) as (p2 & -> & Hd2 & Hl2). cbn [mbind option_bind].
  destruct (spec_run ops (l', m_LastObjNum p1)) as [rs s]. by exists p2.
Qed.

(** C2: [CPDF_Document] implements a list of pages: whatever sequence of
    [GetPageCount], [GetPageDictionary], [CreateNewPage] and [DeletePage] is
    called on a document whose page tree is well formed, with whatever indices,
    every call returns what the same call on the list of the tree's leaves does,
    none runs into undefined behaviour, and the document stays well formed. *)
Theorem pages_refine `{HolderLaws original base} ops l p :
  doc_pages original base l p → zlen l + Z.of_nat (length ops) < 2 ^ 31 → m_LastObjNum p + Z.of_nat (length ops) < kInvalidObjNum →
  ∃ p', code_run ops p = Some ((spec_run ops (l, m_LastObjNum p)).1, p') ∧
    doc_pages original base (spec_run ops (l, m_LastObjNum p)).2.1 p' ∧ m_LastObjNum p' = (spec_run ops (l, m_LastObjNum p)).2.2.
Proof. apply run_refines. Qed.

(** ** New documents *)
Definition nothing : Z → option CPDF_Object := λ _, None.
Definition any (p : CPDF_Parser) : Prop := True.

#[export] Instance new_holder_laws : @HolderLaws nothing any new_holder.
Proof.
  constructor; [|done..]. intros n p [Hs Hb Hr Ho Hl]. unfold lookup_object, new_holder. destruct (_ || _) eqn:E.
  - exists p. split.
    + f_equal. destruct (object_in nothing p n) as [o|] eqn:En; [|done]. specialize (Hr n ltac:(by eexists)). apply orb_true_iff in E. unfold kInvalidObjNum in *. lia.
    + constructor; try done. unfold nothing. by destruct (find n _).
  - unfold object_in. destruct (find n (m_IndirectObjs p)) as [o|] eqn:En.
    + exists p. split; [done|]. by constructor; [..|rewrite En].
    + eexists. split; [reflexivity|]. constructor; [done..|]. rewrite En. cbn [m_IndirectObjs with_holder nothing].
      apply sorted_eq; [by apply sorted_erase_key, sorted_put|done|]. intros k.
      rewrite find_erase_key, find_put by (by apply sorted_put). destruct (Z.eqb_spec n k) as [->|]; done.
Qed.

Lemma new_objects : m_IndirectObjs (CreateNewDoc parser_new) =
  [(1, Some (CPDF_Dictionary [(bs "Pages", CPDF_Reference 2); (bs "Type", CPDF_Name (bs "Catalog"))]));
   (2, Some (CPDF_Dictionary [(bs "Count", number 0); (bs "Kids", CPDF_Array []); (bs "Type", CPDF_Name (bs "Pages"))]));
   (3, Some (CPDF_Dictionary []))].
Proof. reflexivity. Qed.

Lemma CreateNewDoc_pages : doc_pages nothing any [] (CreateNewDoc parser_new).
Proof.
  exists (Node 2 []). split; [|done].
  assert (Hobj : ∀ n o, object_in nothing (CreateNewDoc parser_new) n = Some o →
    n = 1 ∨ n = 2 ∨ n = 3).
  { intros n o. unfold object_in, nothing. rewrite new_objects. cbn [find].
    destruct (Z.eqb_spec 1 n), (Z.eqb_spec 2 n), (Z.eqb_spec 3 n); auto; discriminate. }
  constructor; try done.
  - constructor; try done.
    + repeat constructor; cbn; lia.
    + intros n [o Ho]. assert (El : m_LastObjNum (CreateNewDoc parser_new) = 3) by reflexivity. rewrite El. destruct (Hobj n o Ho) as [->|[->| ->]]; lia.
    + by intros n [].
  - exists 1, [(bs "Pages", CPDF_Reference 2); (bs "Type", CPDF_Name (bs "Catalog"))]. repeat split; try done; [by eexists|]. cbn. set_solver.
  - apply represents_node. split; [|constructor]. 
    exists [(bs "Count", number 0); (bs "Kids", CPDF_Array []); (bs "Type", CPDF_Name (bs "Pages"))], (FxSigned 0). by repeat split.
  - apply NoDup_singleton.
  - by apply Nat.leb_le.
  - by eexists _, _.
  - by left.
Qed.

Definition example_run : list op :=
  [Create 0; Create 0; Create 5; Count; Get 0; Get 1; Create 1; Get 2; Delete 0; Delete 9; Count; Get 0; Get (-1)].

Lemma pages_refine_witness :
  ∃ p', code_run (H := new_holder) example_run (CreateNewDoc parser_new) = Some ((spec_run example_run ([], 3)).1, p') ∧
    (spec_run example_run ([], 3)).1 = [IsPage (Some 4); IsPage (Some 5); IsPage None; IsCount 2; IsPage (Some 5); IsPage (Some 4);
      IsPage (Some 7); IsPage (Some 4); Done; Done; IsCount 2; IsPage (Some 7); IsPage None].
Proof.
  destruct (pages_refine (H0 := new_holder_laws) example_run [] (CreateNewDoc parser_new) CreateNewDoc_pages) as (p' & E & _); [done|done|].
  exists p'. split; [exact E|reflexivity].
Defined.
