(* ===== verification/PageFind.v ===== *)
(** * The index of a page

    [GetPageIndex] on trees without empty nodes, and what it gives on others. *)
From Stdlib Require Import Sorted String.
From stdpp Require Import gmap.
From S2P Require Import Prelude Words FxNumber Objects Dict StdMap Security DocParser Holder Pointer Store PageTree PageList PageWalk PageDoc PageEdit PageSpec.
Import String.StringSyntax.

(** Every node has a page below it. *)
Fixpoint inhabited (t : tree) : Prop :=
  match t with
  | Leaf _ => True
  | Node _ kids => kids ≠ [] ∧ (fix all l := match l with [] => True | t :: l => inhabited t ∧ all l end) kids
  end.

Lemma inhabited_node n kids : inhabited (Node n kids) ↔ kids ≠ [] ∧ Forall inhabited kids.
Proof.
  cbn. split; intros [H1 H2]; (split; [done|]); clear H1.
  - induction kids as [|t l IH]; constructor; naive_solver.
  - induction H2; naive_solver.
Qed.

Lemma inhabited_size t : inhabited t → (1 <= size t)%nat.
Proof.
  revert t. apply (tree_ind' (λ t, inhabited t → (1 <= size t)%nat)); [done|]. intros n kids IH [Hne Hall]%inhabited_node.
  destruct kids as [|t kids]; [done|]. apply List.Forall_inv in IH. apply List.Forall_inv in Hall. cbn [leaves flat_map].
  rewrite length_app. specialize (IH Hall). lia.
Qed.

(** With as many pages as kids, every kid has one page. *)
Lemma one_page_each kids i : Forall inhabited kids → length (flat_map leaves kids) = length kids → (i <= length kids)%nat →
  length (flat_map leaves (take i kids)) = i.
Proof.
  intros Hall Hlen Hi. assert (Hge : ∀ l, Forall inhabited l → (length l <= length (flat_map leaves l))%nat).
  { induction l as [|t l IH]; intros Hl; [done|]. apply Forall_cons in Hl as [Ht Hl]. cbn. rewrite length_app.
    pose proof (inhabited_size t Ht). specialize (IH Hl). lia. }
  pose proof (Hge (take i kids) ltac:(by apply Forall_take)) as H1. pose proof (Hge (drop i kids) ltac:(by apply Forall_drop)) as H2.
  rewrite length_take in H1. rewrite length_drop in H2. rewrite <-(take_drop i kids) in Hlen at 1. rewrite flat_map_app, length_app in Hlen. lia.
Qed.

Lemma find_reference_spec l objnum : ∀ i, 0 <= i →
  match find_reference (map CPDF_Reference l) i objnum with
  | Some j => ∃ k, l !! k = Some objnum ∧ j = i + Z.of_nat k
  | None => objnum ∉ l
  end.
Proof.
  induction l as [|n l IH]; intros i Hi; cbn [map find_reference]; [apply not_elem_of_nil|].
  destruct (Z.eqb_spec n objnum) as [->|Hne]; [exists 0%nat; cbn; split; [done|lia]|].
  specialize (IH (i + 1) ltac:(lia)). destruct (find_reference _ _ _) as [j|].
  - destruct IH as (k & Hk & ->). exists (S k). split; [done|lia].
  - rewrite not_elem_of_cons. split; [congruence|done].
Qed.

Lemma leaves_nodes t : ∀ x, x ∈ leaves t → x ∈ nodes t.
Proof.
  revert t. apply (tree_ind' (λ t, ∀ x, x ∈ leaves t → x ∈ nodes t)); [done|]. intros n kids IH x Hx. cbn [leaves nodes] in *.
  apply elem_of_cons. right. apply in_flat_map' in Hx as (t & Ht & Hx). apply in_flat_map'. exists t. split; [done|].
  rewrite Forall_forall in IH. by apply IH.
Qed.

Section find.
Context (original : Z → option CPDF_Object) (base : CPDF_Parser → Prop) `{HolderLaws original base}.
Notation object_in := (object_in original).
Notation held := (held original base).
Notation same := (same original base).

(** What [FindPageIndex] returns on [t]: the pages before [skip] are not asked
    for, [index] is the index of the first page of [t]. *)
Definition found (t : tree) (skip : nat) (objnum : Z) (index : nat) (p : CPDF_Parser) (res : Z * Z * Z * CPDF_Parser) : Prop :=
  let '(r, skip', index', p') := res in
  same p p' ∧
  ((∃ j, leaves t !! j = Some objnum ∧ r = Z.of_nat (index + j)) ∨
   objnum ∉ leaves t ∧ r = -1 ∧ skip' = Z.of_nat (skip - size t) ∧ index' = Z.of_nat (index + size t)).

(** A page that is asked for is not the number of a node, nor skipped. *)
Definition asked (t : tree) (skip : nat) (objnum : Z) : Prop :=
  (objnum ∈ nodes t → objnum ∈ leaves t) ∧ ∀ j, leaves t !! j = Some objnum → (skip <= j)%nat.

Definition find_ok (t : tree) : Prop :=
  ∀ depth skip objnum index p,
    held p → represents (object_in p) t → NoDup (nodes t) → loaded p (num t) → inhabited t → (height t <= depth)%nat →
    Z.of_nat (index + size t) < 2 ^ 31 → Z.of_nat skip < 2 ^ 31 → asked t skip objnum →
    found t skip objnum index p (FindPageIndex depth (num t, []) (Z.of_nat skip) objnum (Z.of_nat index) p).

Lemma has_kids t p : represents (object_in p) t → loaded p (num t) →
  KeyExist (num t, []) (bs "Kids") p = match t with Leaf _ => false | Node _ _ => true end.
Proof.
  intros Hr Hl. unfold KeyExist. destruct (represents_dict _ _ Hr) as [m Hm]. rewrite (dict_at_loaded original _ p m Hl Hm).
  destruct t as [n|n kids]; cbn [num] in *.
  - destruct Hr as (m' & Hm' & Hk & _). rewrite Hm in Hm'. by injection Hm' as <-.
  - destruct (proj1 (represents_node _ _ _) Hr) as [(m' & c & Hm' & Hk & _) _]. rewrite Hm in Hm'. injection Hm' as <-.
    unfold Dict.KeyExist. by rewrite Hk.
Qed.

Lemma int32_id n : 0 <= n < 2 ^ 31 → int32 n = n.
Proof. intros Hn. unfold int32. by apply s32_small. Qed.

(** The remaining kids, before which [done_] has no page that is asked for. *)
Lemma find_kids_ok depth n objnum l : ∀ done_ skip index p,
  let kids := done_ ++ l in
  Forall find_ok l → Forall (λ t, height t <= depth)%nat l →
  held p → represents (object_in p) (Node n kids) → NoDup (nodes (Node n kids)) → loaded p n → Forall inhabited l →
  Z.of_nat (index + length (flat_map leaves l)) < 2 ^ 31 → Z.of_nat skip < 2 ^ 31 →
  (objnum ∈ flat_map nodes l → objnum ∈ flat_map leaves l) → (∀ j, flat_map leaves l !! j = Some objnum → (skip <= j)%nat) →
  let '(r, skip', index', p') :=
    find_kids (λ q skip index, FindPageIndex depth q skip objnum index) (n, []) (n, [InDict (bs "Kids")]) (length l) (length done_)
      (Z.of_nat skip) (Z.of_nat index) p in
  same p p' ∧
  ((∃ j, flat_map leaves l !! j = Some objnum ∧ r = Z.of_nat (index + j)) ∨
   objnum ∉ flat_map leaves l ∧ r = -1 ∧ skip' = Z.of_nat (skip - length (flat_map leaves l)) ∧ index' = Z.of_nat (index + length (flat_map leaves l))).
Proof.
  induction l as [|t l IH]; intros done_ skip index p kids Hok Hh Hp Hr Hnd Hl Hin Hsz Hsk Hnodes Hskip; cbn [flat_map length find_kids].
  { split; [by apply same_refl|]. right. split_and!; [apply not_elem_of_nil|done|lia|lia]. }
  apply Forall_cons in Hok as [Hokt Hok]. apply Forall_cons in Hh as [Hht Hh]. apply Forall_cons in Hin as [Hint Hin].
  cbn [flat_map] in *. rewrite length_app in *.
  destruct (next_kid original base n kids done_ t l p eq_refl Hp Hl Hr) as (p1 & E1 & Hs1 & Hl1 & _ & _).
  rewrite E1. assert (Hkid : kids !! length done_ = Some t) by (unfold kids; by rewrite list_lookup_middle).
  destruct (nodup_kid _ _ _ _ Hnd Hkid) as [Hndt Hn]. rewrite decide_False.
  2: { intros [= E]. apply Hn. rewrite <-E. apply num_in. }
  pose proof (same_held _ _ _ _ Hs1) as Hp1.
  assert (Hr1 : represents (object_in p1) (Node n kids)) by (apply (represents_ext (object_in p)); [intros; apply (same_objects _ _ _ _ Hs1)|done]).
  assert (Hrt : represents (object_in p1) t).
  { apply represents_node in Hr1 as [_ Hall]. rewrite Forall_forall in Hall. apply Hall. unfold kids. set_solver. }
  pose proof Hnd as Hnd0. cbn [nodes] in Hnd0. apply NoDup_cons in Hnd0 as [_ Hnd0]. unfold kids in Hnd0. rewrite flat_map_app in Hnd0.
  apply NoDup_app in Hnd0 as (_ & _ & Hnd0). cbn [flat_map] in Hnd0. apply NoDup_app in Hnd0 as (_ & Hdis & _).
  assert (Hleaf : ∀ x ts, x ∈ flat_map leaves ts → x ∈ flat_map nodes ts).
  { intros x ts. rewrite !in_flat_map'. intros (t' & Ht' & Hx). exists t'. split; [done|]. by apply leaves_nodes. }
  assert (Hask : asked t skip objnum).
  { split.
    - intros Ho. assert (Hoo : objnum ∈ leaves t ++ flat_map leaves l) by (apply Hnodes; set_solver).
      apply elem_of_app in Hoo as [?|Hoo]; [done|]. exfalso. apply (Hdis objnum Ho), Hleaf, Hoo.
    - intros j Hj. apply Hskip. rewrite lookup_app_l; [done|]. by apply lookup_lt_Some in Hj. }
  pose proof (Hokt depth skip objnum index p1 Hp1 Hrt Hndt Hl1 Hint Hht ltac:(lia) Hsk Hask) as Hf. unfold found in Hf.
  destruct (FindPageIndex depth (num t, []) (Z.of_nat skip) objnum (Z.of_nat index) p1) as [[[r skip'] index'] p2].
  destruct Hf as [Hs2 [(j & Hj & ->)|(Hno & -> & -> & ->)]].
  - replace (0 <=? Z.of_nat (index + j)) with true by lia. split; [by apply (same_trans _ _ _ p1)|]. left. exists j. split; [|done].
    rewrite lookup_app_l; [done|]. by apply lookup_lt_Some in Hj.
  - cbn [Z.leb]. change (0 <=? -1) with false. cbv iota.
    specialize (IH (done_ ++ [t]) (skip - size t)%nat (index + size t)%nat p2). cbv zeta in IH. rewrite <-app_assoc in IH. cbn [app] in IH.
    rewrite length_app, Nat.add_1_r in IH. fold kids in IH.
    pose proof (same_trans _ _ _ _ _ Hs1 Hs2) as Hs.
    assert (Hres : let '(r, skip', index', p') :=
      find_kids (λ q skip index, FindPageIndex depth q skip objnum index) (n, []) (n, [InDict (bs "Kids")]) (length l) (S (length done_))
        (Z.of_nat (skip - size t)) (Z.of_nat (index + size t)) p2 in
      same p2 p' ∧ ((∃ j, flat_map leaves l !! j = Some objnum ∧ r = Z.of_nat (index + size t + j)) ∨
        objnum ∉ flat_map leaves l ∧ r = -1 ∧ skip' = Z.of_nat (skip - size t - length (flat_map leaves l)) ∧
        index' = Z.of_nat (index + size t + length (flat_map leaves l)))).
    { apply IH; try done; try lia.
      - apply (same_held _ _ _ _ Hs).
      - apply (represents_ext (object_in p)); [intros; apply (same_objects _ _ _ _ Hs)|done].
      - by apply (same_loaded _ _ _ _ Hs).
      - intros Ho. assert (Hoo : objnum ∈ leaves t ++ flat_map leaves l) by (apply Hnodes; set_solver).
        apply elem_of_app in Hoo as [?|?]; done.
      - intros j Hj. specialize (Hskip (size t + j)%nat). rewrite lookup_app_r in Hskip by lia.
        replace (size t + j - size t)%nat with j in Hskip by lia. specialize (Hskip Hj). lia. }
    clear IH. destruct (find_kids _ _ _ _ _ _ _ p2) as [[[r skip''] index''] p3]. destruct Hres as [Hs3 Hres].
    split; [by apply (same_trans _ _ _ p2)|]. destruct Hres as [(j & Hj & ->)|(Hno' & -> & -> & ->)].
    + left. exists (size t + j)%nat. split; [|lia]. rewrite lookup_app_r by lia. by replace (size t + j - size t)%nat with j by lia.
    + right. split_and!; [rewrite elem_of_app; tauto|done|lia|lia].
Qed.

(** A page that is a kid is a leaf. *)
Lemma page_kid n kids k t : NoDup (nodes (Node n kids)) → kids !! k = Some t → num t ∈ flat_map leaves kids → leaves t = [num t].
Proof.
  intros Hnd Hk Hin. destruct t as [y|y ts]; [done|]. exfalso. cbn [nodes] in Hnd. apply NoDup_cons in Hnd as [_ Hnd].
  rewrite (kid_split nodes _ _ _ Hk) in Hnd. rewrite (kid_split leaves _ _ _ Hk) in Hin.
  apply NoDup_app in Hnd as (_ & Hd1 & Hnd). apply NoDup_app in Hnd as (Hy & Hd2 & _). cbn [num nodes leaves] in *.
  apply NoDup_cons in Hy as [Hy _].
  assert (Hleaf : ∀ ts, y ∈ flat_map leaves ts → y ∈ flat_map nodes ts).
  { intros ts'. rewrite !in_flat_map'. intros (t' & Ht' & Hx). exists t'. split; [done|]. by apply leaves_nodes. }
  apply elem_of_app in Hin as [Hin|Hin]; [|apply elem_of_app in Hin as [Hin|Hin]].
  - apply (Hd1 y); [by apply Hleaf|]. set_solver.
  - apply Hy. by apply Hleaf.
  - apply (Hd2 y); [set_solver|]. by apply Hleaf.
Qed.

(** The short cut for a node that has as many pages as kids. *)
Lemma find_direct n kids objnum : NoDup (nodes (Node n kids)) → Forall inhabited kids → length (flat_map leaves kids) = length kids →
  (objnum ∈ nodes (Node n kids) → objnum ∈ flat_map leaves kids) →
  ∀ i, find_reference (map CPDF_Reference (map num kids)) 0 objnum = Some i →
  ∃ j, flat_map leaves kids !! j = Some objnum ∧ i = Z.of_nat j.
Proof.
  intros Hnd Hin Hlen Hleaf i Hi. pose proof (find_reference_spec (map num kids) objnum 0 ltac:(lia)) as Hf. rewrite Hi in Hf.
  destruct Hf as (k & Hk & ->). exists k. split; [|lia]. change (map num) with (fmap (M := list) num) in Hk.
  rewrite list_lookup_fmap in Hk. destruct (kids !! k) as [t|] eqn:Et; [|done]. injection Hk as <-.
  assert (Ht : num t ∈ flat_map leaves kids).
  { apply Hleaf. cbn. apply elem_of_cons. right. apply in_flat_map'. exists t. split; [by apply list_elem_of_lookup; exists k|]. apply num_in. }
  pose proof (page_kid n kids k t Hnd Et Ht) as El. pose proof (one_page_each kids k Hin Hlen) as Hpre.
  apply lookup_lt_Some in Et as Hlt. specialize (Hpre ltac:(lia)). rewrite (kid_split leaves _ _ _ Et), El. by apply list_lookup_middle.
Qed.

Lemma find_all t : find_ok t.
Proof.
  apply (tree_ind' find_ok); unfold find_ok.
  - intros n depth skip objnum index p Hp Hr Hnd Hl _ _ Hsz Hsk _. pose proof (has_kids (Leaf n) p Hr Hl) as Hk. cbn [num] in *.
    assert (E : FindPageIndex depth (n, []) (Z.of_nat skip) objnum (Z.of_nat index) p =
      if objnum =? n then (Z.of_nat index, Z.of_nat skip, Z.of_nat index, p)
      else (-1, if Z.of_nat skip =? 0 then 0 else Z.of_nat skip - 1, int32 (Z.of_nat index + 1), p)) by (destruct depth; cbn [FindPageIndex]; by rewrite Hk).
    rewrite E. clear E. cbn [leaves length] in *. rewrite int32_id by lia. destruct (Z.eqb_spec objnum n) as [->|Hne]; cbn.
    + split; [by apply same_refl|]. left. exists 0%nat. split; [done|lia].
    + split; [by apply same_refl|]. right. split_and!; [by rewrite list_elem_of_singleton|done| |lia]. destruct (Z.eqb_spec (Z.of_nat skip) 0); lia.
  - intros n kids IH depth skip objnum index p Hp Hr Hnd Hl Hin Hh Hsz Hsk [Hnodes Hskip].
    pose proof (has_kids (Node n kids) p Hr Hl) as Hk. destruct (proj1 (represents_node _ _ _) Hr) as [(m & c & Hm & Hkey & Hc & Hs & _) Hall].
    destruct depth as [|depth]; [cbn in Hh; lia|]. cbn [num leaves FindPageIndex] in *. rewrite Hk. cbn [negb].
    destruct (GetArrayFor_direct original base n _ p m _ Hp Hl Hm Hkey) as [-> Ea]. rewrite (GetIntegerFor_direct original n _ p m c Hl Hm Hc), Hs.
    set (count := length (flat_map leaves kids)) in *. assert (Eu : u64 (Z.of_nat count) = Z.of_nat count) by (apply Z.mod_small; lia).
    rewrite Eu. destruct (Z.leb_spec (Z.of_nat count) (Z.of_nat skip)) as [Hle|Hgt].
    { split; [by apply same_refl|]. right. cbn [leaves]. fold count. rewrite int32_id by lia. split_and!; [|done|lia|lia].
      intros (j & Hj)%list_elem_of_lookup. apply lookup_lt_Some in Hj as Hlt. specialize (Hskip j Hj). fold count in Hlt. lia. }
    unfold array_size. rewrite Ea. cbn [default from_option id]. rewrite !length_map.
    apply inhabited_node in Hin as [_ Hin].
    destruct (if negb (Z.of_nat count =? 0) && (Z.of_nat count =? Z.of_nat (length kids)) then _ else None) as [i|] eqn:Ei.
    + destruct (Z.of_nat count =? 0); cbn [negb andb] in Ei; [done|].
      destruct (Z.eqb_spec (Z.of_nat count) (Z.of_nat (length kids))) as [Elen|]; [|done].
      destruct (find_direct n kids objnum Hnd Hin ltac:(lia) Hnodes i Ei) as (j & Hj & ->).
      split; [by apply same_refl|]. left. exists j. split; [done|]. apply lookup_lt_Some in Hj as Hlt. fold count in Hlt. rewrite int32_id; lia.
    + apply (find_kids_ok depth n objnum kids [] skip index p); try done.
      * rewrite Forall_forall. intros t' (k & Hk')%list_elem_of_lookup. pose proof (height_kid k kids t' n Hk'). lia.
      * intros Ho. apply Hnodes. cbn. set_solver.
Qed.

(** ** [GetPageIndex] *)
Lemma index_of_spec n l : ∀ i, match index_of n l i with
  | Some j => ∃ k, l !! k = Some n ∧ j = i + Z.of_nat k ∧ ∀ k', (k' < k)%nat → l !! k' ≠ Some n
  | None => n ∉ l
  end.
Proof.
  induction l as [|m l IH]; intros i; cbn [index_of]; [apply not_elem_of_nil|]. destruct (Z.eqb_spec m n) as [->|Hne].
  - exists 0%nat. split_and!; [done|lia|lia].
  - specialize (IH (i + 1)). destruct (index_of n l (i + 1)) as [j|].
    + destruct IH as (k & Hk & -> & Hmin). exists (S k). split_and!; [done|lia|]. intros [|k'] Hlt; cbn; [congruence|]. apply Hmin. lia.
    + apply not_elem_of_cons. by split.
Qed.

Notation page_doc := (page_doc original base).

(** A page whose number becomes known. *)
Lemma page_doc_found t p n i :
  page_doc t p → leaves t !! i = Some n → ∃ p', SetPageObjNum (Z.of_nat i) n p = Some p' ∧ page_doc t p'.
Proof.
  intros Hd Hn. pose proof (leaf_positive _ _ t p i n Hd Hn) as Hpos. apply lookup_lt_Some in Hn as Hlt.
  destruct (moved_page original base i n p (pd_held _ _ _ _ Hd)) as (p' & E & Hm & Ht & Hp); [by rewrite (pd_length _ _ _ _ Hd)|].
  exists p'. split; [exact E|]. pose proof (mv_document _ _ _ _ Hm) as Ed. destruct Hd as [D1 D2 D3 D4 D5 D6 D7 D8 D9 D10].
  constructor; rewrite ?Ht, ?Hp; try done.
  - apply (mv_held _ _ _ _ Hm).
  - destruct D2 as (r & m & R1 & R2 & R3 & R4 & R5). exists r, m. rewrite (mv_objects _ _ _ _ Hm), Ed.
    split_and!; try done. by apply (mv_loaded _ _ _ _ Hm).
  - by apply (represents_moved _ _ _ _ _ Hm).
  - by rewrite length_insert.
  - intros j k Hk. destruct (decide (i = j)) as [<-|Hne].
    + rewrite list_lookup_insert_eq in Hk by lia. injection Hk as <-. by right.
    + rewrite list_lookup_insert_ne in Hk by done. by apply D8.
  - by rewrite Ed.
  - destruct D10 as [?|(b & B1 & B2 & B3 & B4)]; [by left|]. right. exists b. rewrite Ed. split_and!; [done| |done|].
    + exact (stack_loaded_moved original base p p' _ Hm B2).
    + intros j Hj Hz. destruct (decide (i = j)) as [<-|Hne].
      * rewrite list_lookup_insert_eq in Hz by lia. injection Hz as ->. lia.
      * rewrite list_lookup_insert_ne in Hz by done. by apply (B4 j).
Qed.

(** The pages that are skipped are known and not the one that is asked for. *)
Lemma pages_asked t p n : page_doc t p → n ∉ pages p → (n ∈ nodes t → n ∈ leaves t) →
  ∃ skip, default 0 (index_of 0 (pages p) 0) = Z.of_nat skip ∧ (skip <= size t)%nat ∧ asked t skip n.
Proof.
  intros Hd Hn Hleaf. pose proof (index_of_spec 0 (pages p) 0) as Hi. destruct (index_of 0 (pages p) 0) as [j|]; cbn.
  - destruct Hi as (k & Hk & -> & Hmin). exists k. split; [lia|]. apply lookup_lt_Some in Hk. rewrite (pd_length _ _ _ _ Hd) in Hk.
    split; [lia|]. split; [done|]. intros j Hj. destruct (Nat.le_gt_cases k j) as [|Hgt]; [done|]. exfalso.
    destruct (lookup_lt_is_Some_2 (pages p) j) as [x Hx]; [rewrite (pd_length _ _ _ _ Hd); lia|].
    destruct (pd_pages _ _ _ _ Hd j x Hx) as [->|Hx']; [by apply (Hmin j)|]. rewrite Hj in Hx'. injection Hx' as <-.
    apply Hn, list_elem_of_lookup. by exists j.
  - exists 0%nat. split; [done|]. split; [lia|]. split; [done|]. intros; lia.
Qed.

Lemma leaves_nodup t : NoDup (nodes t) → NoDup (leaves t).
Proof.
  revert t. apply (tree_ind' (λ t, NoDup (nodes t) → NoDup (leaves t))); [done|]. intros n kids IH Hnd. cbn in *.
  apply NoDup_cons in Hnd as [_ Hnd]. induction kids as [|t kids IHk]; [constructor|]. cbn in *. apply Forall_cons in IH as [IHt IH].
  apply NoDup_app in Hnd as (H1 & H2 & H3). apply NoDup_app. split_and!; [by apply IHt| |by apply IHk].
  intros x Hx Hin. apply (H2 x); [by apply leaves_nodes|]. apply in_flat_map' in Hin as (t' & Ht' & Hx').
  apply in_flat_map'. exists t'. split; [done|]. by apply leaves_nodes.
Qed.

(** [GetPageIndex] of a number that is not that of a node: the index of the page
    with that number, or -1. *)
Lemma GetPageIndex_spec t p n :
  page_doc t p → inhabited t → Z.of_nat (size t) < 2 ^ 31 → (n = 0 → index_of 0 (pages p) 0 = None) → (n ∈ nodes t → n ∈ leaves t) →
  ∃ r p', GetPageIndex n p = Some (r, p') ∧ page_doc t p' ∧
    (r = -1 ∧ n ∉ leaves t ∨ ∃ j, r = Z.of_nat j ∧ leaves t !! j = Some n).
Proof.
  intros Hd Hin Hsz Hn0 Hleaf. unfold GetPageIndex. pose proof (index_of_spec n (pages p) 0) as Hi.
  destruct (index_of n (pages p) 0) as [j|] eqn:Ej.
  { destruct Hi as (k & Hk & -> & _). eexists _, p. split; [done|]. split; [done|]. destruct (pd_pages _ _ _ _ Hd k n Hk) as [->|Hk']; [by rewrite Hn0 in Ej|].
    right. by exists k. }
  destruct (pages_asked t p n Hd Hi Hleaf) as (skip & -> & Hsk & Hask).
  destruct (pages_dict _ _ t p Hd) as (p1 & -> & Hs1 & Hl1). pose proof (page_doc_same _ _ _ _ _ Hs1 Hd) as Hd1.
  pose proof (find_all t kMaxPageLevel skip n 0%nat p1 (pd_held _ _ _ _ Hd1) (pd_tree _ _ _ _ Hd1) (pd_nodup _ _ _ _ Hd1) Hl1 Hin
    (pd_height _ _ _ _ Hd1) ltac:(lia) ltac:(lia) Hask) as Hf. unfold found in Hf. change (Z.of_nat 0) with 0 in Hf.
  destruct (FindPageIndex _ _ _ _ _ p1) as [[[r skip'] index'] p2]. destruct Hf as [Hs2 Hf].
  pose proof (page_doc_same _ _ _ _ _ Hs2 Hd1) as Hd2. unfold GetPageCount, zlen. rewrite (pd_length _ _ _ _ Hd2).
  destruct Hf as [(j & Hj & ->)|(Hno & -> & _)].
  - cbn [Nat.add]. apply lookup_lt_Some in Hj as Hlt. replace ((0 <=? Z.of_nat j) && (Z.of_nat j <? Z.of_nat (size t))) with true by lia. cbn [negb].
    destruct (leaf_object _ _ n (pd_tree _ _ _ _ Hd2)) as (m & Hm & _ & Htype); [apply list_elem_of_lookup; by exists j|].
    destruct (lookup_same original base n p2 (pd_held _ _ _ _ Hd2)) as (p3 & -> & Hs3 & _). rewrite Hm. cbn [IsValidPageObject].
    rewrite Htype, bool_decide_eq_true_2 by done. destruct (page_doc_found t p3 n j) as (p4 & -> & Hd4); [by apply (page_doc_same _ _ _ p2)|done|].
    eexists _, p4. split; [done|]. split; [done|]. right. by exists j.
  - exists (-1), p2. split; [done|]. split; [done|]. by left.
Qed.
End find.

(** C4: on a document whose page tree has no empty node and fewer than 2^31 nodes,
    and for a number that is that of a page or of no object of the tree,
    [GetPageIndex] returns the index at which the number is in the list of the pages,
    or -1 if it is not there, whatever part of the list is cached; the document stays
    well formed.  The number 0, which is no object's, is different: the cache has it
    where a page has not been looked up, and the first such index is returned, if
    there is one. *)
Theorem page_index `{HolderLaws original base} t p n :
  page_doc original base t p → inhabited t → Z.of_nat (size t) < 2 ^ 31 → (n ∈ nodes t → n ∈ leaves t) →
  let page := default (-1) (index_of n (leaves t) 0) in
  ∃ p', GetPageIndex n p = Some (if n =? 0 then default page (index_of 0 (pages p) 0) else page, p') ∧ page_doc original base t p'.
Proof.
  intros Hd Hin Hsz Hleaf page. destruct (decide (n = 0 ∧ is_Some (index_of 0 (pages p) 0))) as [[-> [i Ei]]|Hno0].
  { exists p. unfold GetPageIndex. by rewrite Ei. }
  assert (Hn0 : n = 0 → index_of 0 (pages p) 0 = None).
  { intros ->. destruct (index_of 0 (pages p) 0) as [i|]; [|done]. destruct Hno0. split; [done|]. by exists i. }
  destruct (GetPageIndex_spec original base t p n Hd Hin Hsz Hn0 Hleaf) as (r & p' & -> & Hd' & Hr). exists p'. split; [|done].
  assert (Epage : (if n =? 0 then default page (index_of 0 (pages p) 0) else page) = page) by (destruct (Z.eqb_spec n 0) as [->|]; [by rewrite Hn0|done]).
  rewrite Epage. unfold page. clear Epage page.
  pose proof (index_of_spec n (leaves t) 0) as Hi. destruct (index_of n (leaves t) 0) as [j|]; cbn.
  - destruct Hi as (k & Hk & -> & _). destruct Hr as [[_ Hno]|(j & -> & Hj)].
    + destruct Hno. apply list_elem_of_lookup. by exists k.
    + rewrite (NoDup_lookup _ _ _ _ (leaves_nodup t (pd_nodup _ _ _ _ Hd)) Hk Hj). done.
  - destruct Hr as [[-> _]|(j & _ & Hj)]; [done|]. destruct Hi. apply list_elem_of_lookup. by exists j.
Qed.

(** ** A document with a node in it *)
Definition a_kid (parent : Z) : CPDF_Object :=
  CPDF_Dictionary [(bs "Parent", CPDF_Reference parent); (bs "Type", CPDF_Name (bs "Page"))].
Definition a_tree (kids : list Z) (count : Z) : CPDF_Object :=
  CPDF_Dictionary [(bs "Count", number count); (bs "Kids", CPDF_Array (map CPDF_Reference kids)); (bs "Type", CPDF_Name (bs "Pages"))].
Definition nested : CPDF_Parser :=
  with_pages (λ _, [0; 0; 0; 0]) (with_root (Some (1, [])) (with_holder
    [(1, Some (CPDF_Dictionary [(bs "Pages", CPDF_Reference 2); (bs "Type", CPDF_Name (bs "Catalog"))])); (2, Some (a_tree [3; 6; 7] 4));
     (3, Some (a_tree [4; 5] 2)); (4, Some (a_kid 3)); (5, Some (a_kid 3)); (6, Some (a_kid 2)); (7, Some (a_tree [8] 1)); (8, Some (a_kid 7))] 8 parser_new)).
Definition nested_tree : tree := Node 2 [Node 3 [Leaf 4; Leaf 5]; Leaf 6; Node 7 [Leaf 8]].

Lemma a_kid_leaf obj n parent : obj n = Some (a_kid parent) → is_leaf obj n.
Proof. intros E. by eexists. Qed.
Lemma a_tree_node obj n kids count : obj n = Some (a_tree kids (Z.of_nat count)) → Z.of_nat count < 2 ^ 31 → is_node obj n kids count.
Proof.
  intros E Hc. eexists _, _. split; [exact E|]. do 2 (split; [reflexivity|]). split; [|by split]. cbn. done.
Qed.

Lemma nested_pages : page_doc nothing any nested_tree nested.
Proof.
  assert (Hobj : ∀ n, is_Some (object_in nothing nested n) → 1 <= n <= 8).
  { intros n. unfold object_in, nothing, nested. cbn [m_IndirectObjs with_pages with_root with_holder on_document with_document find].
    destruct (Z.eqb_spec 1 n), (Z.eqb_spec 2 n), (Z.eqb_spec 3 n), (Z.eqb_spec 4 n), (Z.eqb_spec 5 n), (Z.eqb_spec 6 n), (Z.eqb_spec 7 n), (Z.eqb_spec 8 n);
      intros Hs; try lia; by destruct Hs. }
  constructor; try done.
  - constructor; [|done|exact Hobj|by intros n []|done]. repeat constructor; cbn; lia.
  - exists 1. eexists. repeat split; [by eexists|]. cbn. rewrite !not_elem_of_cons. split_and!; try lia. apply not_elem_of_nil.
  - repeat (apply represents_node; split; [by apply a_tree_node|]; repeat apply List.Forall_cons; try apply List.Forall_nil); by eapply a_kid_leaf.
  - cbn. repeat constructor; rewrite ?not_elem_of_cons; split_and?; try lia; apply not_elem_of_nil.
  - by apply Nat.leb_le.
  - by eexists _, _.
  - intros i n Hi. left. do 4 (destruct i as [|i]; [by injection Hi as <-|]). by destruct i.
  - by left.
Qed.

Lemma page_index_witness :
  ∃ p' p'' p''', GetPageIndex (H := new_holder) 6 nested = Some (2, p') ∧ GetPageIndex (H := new_holder) 8 p' = Some (3, p'') ∧
    GetPageIndex (H := new_holder) 1 p'' = Some (-1, p''').
Proof.
  assert (Hin : inhabited nested_tree) by done.
  destruct (page_index (H0 := new_holder_laws) nested_tree nested 6 nested_pages Hin) as (p' & E' & Hd'); [done|intros _; by apply list_elem_of_In; cbn; auto|].
  destruct (page_index (H0 := new_holder_laws) nested_tree p' 8 Hd' Hin) as (p'' & E'' & Hd''); [done|intros _; apply list_elem_of_In; cbn; auto|].
  destruct (page_index (H0 := new_holder_laws) nested_tree p'' 1 Hd'' Hin) as (p''' & E''' & _); [done| |].
  { cbn. rewrite !elem_of_cons. intros Hx. destruct_or! Hx; try lia. by apply elem_of_nil in Hx. }
  exists p', p'', p'''. exact (conj E' (conj E'' E''')).
Defined.

(** A node that [DeletePage] leaves empty breaks the short cut of
    [FindPageIndex]: the page 6, whose index is 2, is found at 1. *)
Definition emptied : option CPDF_Parser := DeletePage (H := new_holder) kMaxPageLevel 3 nested.
Definition index_in (n : Z) (p : option CPDF_Parser) : option Z := p ← p; '(i, _) ← GetPageIndex (H := new_holder) n p; Some i.
Definition page_in (i : Z) (p : option CPDF_Parser) : option result :=
  p ← p; '(r, _) ← code_step (H := new_holder) (Get i) p; Some r.

Lemma empty_node_index : page_in 2 emptied = Some (IsPage (Some 6)) ∧ index_in 6 emptied = Some 1 ∧ index_in 6 (Some nested) = Some 2.
Proof. split_and!; reflexivity. Qed.
