(* ===== verification/DocPages.v ===== *)
(** * A document is saved and loaded

    The pages of a new document after [CPDF_Creator] has written it and
    [CPDF_Document::LoadDoc] has loaded it again. *)
From Stdlib Require Import Sorted String.
From stdpp Require Import gmap.
From S2P Require Import Prelude Words CharTypes FxNumber Syntax Objects ObjectText Dict Crypto Security StdMap CrossRef XRef XRefText XRefTable DataDecode DataPipeline WriteTo WriteText StreamText DocParser DocLoad DocTotal Holder Creator Pointer DocText DocRead Store PageTree PageList PageWalk PageDoc PageEdit PageSpec.
Import String.StringSyntax.

(** ** The tree as it is read *)
Lemma number_read k n : GetSigned k = Z.of_nat n → Z.of_nat n < 2 ^ 31 → IsInteger k = true →
  as_read (CPDF_Number k) = CPDF_Number (FxUnsigned (Z.of_nat n)).
Proof.
  intros Hk Hn Hi. cbn [as_read]. unfold NumberGetString. rewrite Hi, Hk.
  rewrite FX_Number_Format by (unfold INT_MIN, UINT_MAX; lia). by replace (Z.of_nat n <? 0) with false by lia.
Qed.

Lemma represents_read (whold : Z → option CPDF_Object) `{Inflate} compress obj obj' t :
  (∀ n, obj' n = stored whold compress <$> obj n) → Z.of_nat (length (leaves t)) < 2 ^ 31 → represents obj t → represents obj' t.
Proof.
  intros Ho. revert t. apply (tree_ind' (λ t, _ → represents obj t → represents obj' t)).
  - intros n _ (m & Hm & Hk & Ht). exists (map read_entry m). rewrite Ho, Hm. split_and!; [done| |].
    + unfold Dict.KeyExist in *. rewrite GetObjectFor_read_map. by destruct (GetObjectFor _ m).
    + by rewrite GetObjectFor_read_map, Ht.
  - intros n kids IH Hsz. rewrite !represents_node. intros [(m & k & Hm & Hk & Hc & Hs & Hi & Ht) Hall]. cbn [leaves] in Hsz. split.
    + exists (map read_entry m), (FxUnsigned (Z.of_nat (length (flat_map leaves kids)))). rewrite Ho, Hm, !GetObjectFor_read_map, Hk, Hc.
      cbn [fmap option_fmap option_map]. rewrite (number_read _ _ Hs Hsz Hi). split_and!; try done.
      * cbn [as_read]. do 2 f_equal. rewrite !map_map. by apply map_ext.
      * cbn [GetSigned]. apply s32_of_u32. lia.
      * destruct (GetObjectFor (bs "Type") m) as [[]|]; cbn; try done.
    + rewrite Forall_forall in IH, Hall |- *. intros t Hin. apply IH; [done| |by apply Hall].
      apply list_elem_of_lookup in Hin as [i Hin]. rewrite (kid_split leaves _ _ _ Hin), !length_app in Hsz. lia.
Qed.

(** ** The loaded document *)
Section loaded.
Context `{Inflate} (compress : list Z → list Z) (file0 : list Z) (hdr0 : Z) (doc : CPDF_Parser).
Context (header body : list Z) (offs : std_map Z) (root_num : Z) (info_num : option Z) (new_id : list Z).
Notation last := (m_LastObjNum doc).
Notation ids := [CPDF_String new_id true; CPDF_String new_id true].
Notation file := ((header ++ body) ++ WriteXrefsNotIncremental offs last ++ trailer_text root_num info_num last (zlen (header ++ body)) ids).
Hypothesis Hdoc : new_doc doc.
Hypothesis Hheader : 9 <= zlen header.
Hypothesis Hplaced : ∀ n, match Holder.GetIndirectObject n doc with
  | Some o => ∃ off, find n offs = Some (zlen header + off) ∧ placed compress file0 hdr0 doc body n o off
  | None => find n offs = None
  end.
Hypothesis Hsmall : zlen file < 2 ^ 31.
Notation original := (DocRead.original compress file0 hdr0 doc).
Notation ready := (ready doc offs root_num info_num new_id).
Notation opened := (opened compress file0 hdr0 doc offs root_num info_num new_id).

Lemma original_range n : is_Some (original n) → 1 <= n <= last.
Proof.
  unfold DocRead.original. intros [o Ho]. destruct (Holder.GetIndirectObject n doc) as [o'|] eqn:E; [|done].
  by destruct (nd_objs doc Hdoc n o' E).
Qed.

Lemma file_holder_laws : @HolderLaws original ready (file_holder file 0).
Proof.
  constructor.
  - intros n p [Hs Hb Hr Ho Hl].
    destruct (get_ready compress file0 hdr0 doc header body offs root_num info_num new_id Hdoc Hheader Hplaced Hsmall n p Hb Hs) as
      (p' & E & Hb' & Hd & _ & _ & Hm).
    assert (Hn : (n =? 0) || (n =? kInvalidObjNum) = true → object_in original p n = None).
    { intros En. destruct (object_in original p n) as [o|] eqn:Eo; [|done]. specialize (Hr n ltac:(by eexists)).
      apply orb_true_iff in En. lia. }
    exists p'. split.
    + unfold lookup_object, file_holder. rewrite E. unfold object_in in *. destruct (_ || _); [by rewrite Hn|done].
    + pose proof (Ho n) as Hon. destruct (find n (m_IndirectObjs p)) as [c|] eqn:Ec, (original n) as [o|] eqn:Eo; destruct Hm as [Hm1 Hm2];
        (constructor; [done|done| |by rewrite ?Ec, ?Eo]); rewrite Hm1; try done.
      specialize (Hon ltac:(by eexists)). lia.
  - intros objs l p [R1 R2 R3 R4]. by constructor.
  - intros d p [R1 R2 R3 R4]. by constructor.
Qed.

(** The last number of the table *)
Lemma table_last p : ready p → GetLastObjNum p = last.
Proof.
  intros [_ (_ & Hs & Ht) _ _]. unfold GetLastObjNum. pose proof (last_key_spec _ Hs) as Hk.
  assert (Hlast : is_Some (find last (objects_info_ (m_CrossRefTable p)))).
  { specialize (Ht last). unfold GetObjectInfo in Ht. rewrite Ht. destruct (XRefTable.loaded offs last last); [by eexists|].
    rewrite Z.eqb_refl. by eexists. }
  destruct (last_key _) as [k|]; [|rewrite Hk in Hlast; by destruct Hlast]. destruct Hk as [Hk1 Hk2]. cbn.
  specialize (Hk2 _ Hlast). destruct (Z.eq_dec k last) as [|Hne]; [done|]. exfalso.
  specialize (Ht k). unfold GetObjectInfo in Ht. rewrite Ht in Hk1. unfold XRefTable.loaded in Hk1.
  replace ((1 <=? k) && (k <=? last)) with false in Hk1 by lia. replace (k =? last) with false in Hk1 by lia. by destruct Hk1.
Qed.

(** [TryInit] on it, when [t] is the page tree of [doc]. *)
Context (t : tree) (root_dict : dict).
Hypothesis Hroot : Holder.GetIndirectObject root_num doc = Some (CPDF_Dictionary root_dict).
Hypothesis Hpages : GetObjectFor (bs "Pages") root_dict = Some (CPDF_Reference (num t)).
Hypothesis Hrootnode : root_num ∉ nodes t.
Hypothesis Htree : represents (λ n, Holder.GetIndirectObject n doc) t.
Hypothesis Hnodup : NoDup (nodes t).
Hypothesis Hheight : (height t <= kMaxPageLevel)%nat.
Hypothesis Hnode : ∃ n kids, t = Node n kids.
Hypothesis Hsize : (0 < length (leaves t))%nat ∧ Z.of_nat (length (leaves t)) < kPageMaxNum.
Let holder : Holder := file_holder file 0.
Existing Instance holder.
Let laws : HolderLaws original ready := file_holder_laws.
Existing Instance laws.

Lemma opened_held p : opened p → held original ready (with_holder (m_IndirectObjs p) (GetLastObjNum p) p) ∧
  ∀ n, object_in original (with_holder (m_IndirectObjs p) (GetLastObjNum p) p) n = original n.
Proof.
  intros [Hr Hs Ho]. rewrite (table_last p Hr). pose proof (nd_last doc Hdoc) as Hl. unfold kMaxXRefSize in Hl.
  assert (Hobj : ∀ n, object_in original (with_holder (m_IndirectObjs p) last p) n = original n).
  { intros n. unfold object_in. cbn [m_IndirectObjs with_holder]. destruct (find n (m_IndirectObjs p)) as [c|] eqn:Ec; [by apply Ho|done]. }
  split; [|exact Hobj]. constructor; cbn [m_IndirectObjs m_LastObjNum with_holder].
  - done.
  - destruct Hr. by constructor.
  - intros n Hn. rewrite Hobj in Hn. by apply original_range.
  - intros n Hn. by apply original_range.
  - unfold kInvalidObjNum. lia.
Qed.

Lemma TryInit_ok p fuel :
  opened p → m_Document p = document_new →
  ∃ p', TryInit (H := file_holder file 0) (S fuel) None p = Some (true, p') ∧ page_doc original ready t p' ∧ m_LastObjNum p' = last.
Proof.
  change (file_holder file 0) with holder. intros Hop Hdn. destruct (opened_held p Hop) as [Hh Ho]. set (p1 := with_holder (m_IndirectObjs p) (GetLastObjNum p) p) in *.
  assert (Eroot : ∀ q, ready q → GetRootObjNum q = root_num) by (intros q Hq; exact (root_number doc offs root_num info_num new_id Hdoc q Hq)).
  pose proof (represents_read (holder_in file0 hdr0 doc) compress _ original t ltac:(done) ltac:(unfold kPageMaxNum in *; lia) Htree) as Htree'.
  assert (Hroot' : original root_num = Some (CPDF_Dictionary (map read_entry root_dict))) by (unfold DocRead.original; by rewrite Hroot).
  assert (Hpages' : GetObjectFor (bs "Pages") (map read_entry root_dict) = Some (CPDF_Reference (num t))) by (by rewrite GetObjectFor_read_map, Hpages).
  unfold TryInit. fold p1. rewrite (Eroot p1) by apply (held_base _ _ _ Hh).
  destruct (lookup_same original ready root_num p1 Hh) as (p2 & -> & S2 & L2). rewrite Ho, Hroot' in *.
  rewrite (Eroot p2) by apply (held_base _ _ _ (same_held _ _ _ _ S2)).
  unfold dict_of_object. destruct (lookup_same original ready root_num p2 (same_held _ _ _ _ S2)) as (p3 & -> & S3 & L3).
  rewrite (same_objects _ _ _ _ S2), Ho, Hroot' in *. specialize (L3 ltac:(by eexists)).
  set (p4 := with_root (Some (root_num, [])) p3). pose proof (same_trans _ _ _ _ _ S2 S3) as S13. clear S2 S3 L2.
  assert (Hh4 : held original ready p4) by (apply (held_with_document original ready), (same_held _ _ _ _ S13)).
  assert (Ho4 : ∀ n, object_in original p4 n = original n) by (intros n; change (object_in original p3 n = original n); by rewrite (same_objects _ _ _ _ S13), Ho).
  assert (Hd4 : m_Document p4 = Document (Some (root_num, [])) None [] false false 0 []).
  { unfold p4, with_root, on_document. cbn [m_Document with_document]. rewrite (same_document _ _ _ _ S13).
    change (m_Document p1) with (m_Document p). by rewrite Hdn. }
  destruct (represents_dict _ _ Htree') as [mt Hmt].
  unfold LoadPages, RetrievePageCount, GetPagesDict. rewrite Hd4. cbn [m_pRootDict].
  destruct (GetDictFor_behind original ready root_num (bs "Pages") (num t) p4 mt (map read_entry root_dict) Hh4) as (p5 & -> & S5 & L5);
    [exact L3|by rewrite Ho4|done|by rewrite Ho4|].
  assert (Ho5 : ∀ n, object_in original p5 n = original n) by (intros n; by rewrite (same_objects _ _ _ _ S5), Ho4).
  destruct Hnode as (n & kids & Et). pose proof Htree' as Hrep. rewrite Et in Hrep. apply represents_node in Hrep as [(m & k & Hm & Hk & Hc & Hs & _) _].
  assert (En : num t = n) by (by rewrite Et). rewrite En in *. rewrite Hmt in Hm. injection Hm as <-.
  assert (Edict : dict_at (n, []) p5 = Some mt) by (apply (dict_at_loaded original); [done|by rewrite Ho5]).
  assert (Ekids : KeyExist (n, []) (bs "Kids") p5 = true) by (unfold KeyExist; rewrite Edict; unfold Dict.KeyExist; by rewrite Hk).
  rewrite Ekids. cbn [negb CountPages]. rewrite (GetIntegerFor_direct original n (bs "Count") p5 mt k L5) by (by rewrite ?Ho5).
  rewrite Hs. assert (Esz : length (flat_map leaves kids) = length (leaves t)) by (by rewrite Et). rewrite Esz.
  destruct Hsize as [H1 H2]. replace ((0 <? Z.of_nat (length (leaves t))) && (Z.of_nat (length (leaves t)) <? kPageMaxNum)) with true by lia.
  cbn [mbind option_bind]. set (p6 := resize_pages _ p5).
  assert (Hd6 : m_Document p6 = Document (Some (root_num, [])) None [] false false 0 (replicate (length (leaves t)) 0)).
  { unfold p6, resize_pages, with_pages, on_document. cbn [m_Document with_document]. rewrite (same_document _ _ _ _ S5), Hd4.
    cbn [m_pRootDict m_pInfoDict m_pTreeTraversal m_bHasValidCrossReferenceTable m_bReachedMaxPageLevel m_iNextPageToTraverse m_PageList].
    f_equal. rewrite Nat2Z.id. by rewrite resize_nil. }
  exists p6. split_and!.
  - unfold GetPageCount, pages. rewrite Hd6. cbn [m_pRootDict m_PageList]. unfold zlen. rewrite length_replicate.
    by replace (0 <? Z.of_nat (length (leaves t))) with true by lia.
  - constructor; unfold pages, traversal; rewrite ?Hd6; try done.
    + apply (held_with_document original ready), (same_held _ _ _ _ S5).
    + exists root_num, (map read_entry root_dict). split_and!; [done| | |by rewrite En|done].
      * by apply (same_loaded _ _ _ _ S5).
      * change (object_in original p5 root_num = Some (CPDF_Dictionary (map read_entry root_dict))). by rewrite Ho5.
    + apply (represents_ext original); [intros j _; apply Ho5|done].
    + cbn. by rewrite length_replicate.
    + intros i c Hic. left. cbn in Hic. by apply lookup_replicate in Hic as [-> _].
    + by left.
  - change (m_LastObjNum p5 = last). rewrite (same_last _ _ _ _ S5). change (m_LastObjNum p3 = last). rewrite (same_last _ _ _ _ S13).
    apply (table_last p). by destruct Hop.
Qed.
End loaded.

(** A page of the invariant that does not depend on the holder. *)
Lemma new_objects_in p n : object_in nothing p n = Holder.GetIndirectObject n p.
Proof. unfold object_in, nothing, Holder.GetIndirectObject. by destruct (find n (m_IndirectObjs p)). Qed.

(** C3: a document with pages that is made, saved and loaded again cannot be told
    from the one in memory: [LoadDoc] succeeds on the file that [CPDF_Creator]
    writes, and whatever sequence of [GetPageCount], [GetPageDictionary],
    [CreateNewPage] and [DeletePage] is then called, every call returns the same on
    the loaded document, whose objects are still in the file, as on the one that was
    saved.  The document has at least one page, since [TryInit] refuses a file
    without pages, and fewer than [kPageMaxNum]; its file is shorter than 2^31 bytes,
    the version is the default or 1.0 to 1.7, and the pages the calls may add find
    numbers. *)
Theorem saved_pages `{Inflate} compress ivs doc root l info incremental original_ version new_id r r2 password password2 fuel ops :
  new_doc doc → doc_pages nothing any l doc → m_pRootDict (m_Document doc) = Some (root, []) →
  match info with Some n => is_Some (Holder.GetIndirectObject n doc) | None => True end →
  bytes new_id → version = 0 ∨ 10 <= version <= 17 → 0 < zlen l < kPageMaxNum →
  zlen l + Z.of_nat (length ops) < 2 ^ 31 → m_LastObjNum doc + Z.of_nat (length ops) < kInvalidObjNum →
  ∃ text, Creator.Create compress ivs [] 0 false root info incremental original_ version new_id r r2 password doc = Some text ∧
    (zlen text < 2 ^ 31 → ∃ p rs doc' p', LoadDoc (S fuel) text password2 = Some (SUCCESS, p) ∧
      code_run (H := new_holder) ops doc = Some (rs, doc') ∧ code_run (H := file_holder text 0) ops p = Some (rs, p')).
Proof.
  intros Hdoc Hpages Hrootp Hinfo Hid Hv Hl Hops Hlast. pose proof Hpages as (t & Ht & El).
  destruct (pd_root _ _ _ _ Ht) as (r' & d & R1 & R2 & R3 & R4 & R5). rewrite Hrootp in R1. injection R1 as <-. rewrite new_objects_in in R3.
  destruct (StartParse_created compress ivs [] 0 doc root d info incremental original_ version new_id r r2 password Hdoc R3 Hinfo Hid Hv)
    as (header & body & offs & E & Hh & Hpl & Hload).
  eexists. split; [exact E|]. intros Hsmall. set (text := (header ++ body) ++ _) in *.
  assert (Hsize : (0 < length (leaves t))%nat ∧ Z.of_nat (length (leaves t)) < kPageMaxNum) by (rewrite El; unfold zlen in Hl; lia).
  assert (Htree : represents (λ n, Holder.GetIndirectObject n doc) t).
  { apply (represents_ext (object_in nothing doc)); [intros; by rewrite new_objects_in|apply (pd_tree _ _ _ _ Ht)]. }
  set (init := λ hdr, init_pages (S fuel) text hdr None).
  assert (Hinit : ∀ p, opened compress [] 0 doc offs root info new_id p → m_Document p = document_new →
    ∃ p', init 0 p = (true, p') ∧ page_doc (DocRead.original compress [] 0 doc) (ready doc offs root info new_id) t p' ∧ m_LastObjNum p' = m_LastObjNum doc).
  { intros p Hop Hdn. unfold init, init_pages.
    destruct (TryInit_ok compress [] 0 doc header body offs root info new_id Hdoc Hh Hpl Hsmall t d R3 R4 R5 Htree (pd_nodup _ _ _ _ Ht)
      (pd_height _ _ _ _ Ht) (pd_node _ _ _ _ Ht) Hsize p fuel Hop Hdn) as (p' & Ep & Hp' & Hlp). fold text in Ep. rewrite Ep. by exists p'. }
  destruct (Hload Hsmall password2 init) as (p & p' & Es & Ei & Hop & Hdn & _).
  { intros p Hop Hdn. destruct (Hinit p Hop Hdn) as (p' & Ep & Hp' & _). exists p'. split; [done|]. apply (held_base _ _ _ (pd_held _ _ _ _ Hp')). }
  destruct (Hinit p Hop Hdn) as (p2 & Ep & Hp2 & Hl2). rewrite Ei in Ep. injection Ep as <-.
  set (p3 := with_valid_table (negb (m_bXRefTableRebuilt p')) p').
  pose proof (file_holder_laws compress [] 0 doc header body offs root info new_id Hdoc Hh Hpl Hsmall) as Hlaws. fold text in Hlaws.
  assert (Hp3 : page_doc (DocRead.original compress [] 0 doc) (ready doc offs root info new_id) t p3).
  { destruct Hp2. constructor; try done. by apply (@held_with_document _ _ _ Hlaws). }
  destruct (run_refines (H0 := new_holder_laws) ops l doc Hpages Hops Hlast) as (doc' & Ed & _).
  destruct (run_refines (H0 := Hlaws) ops l p3) as (p4 & E4 & _); [by exists t|done|change (m_LastObjNum p3) with (m_LastObjNum p'); by rewrite Hl2|].
  change (m_LastObjNum p3) with (m_LastObjNum p') in E4. rewrite Hl2 in E4.
  exists p3, (spec_run ops (l, m_LastObjNum doc)).1, doc', p4. split_and!; [|exact Ed|exact E4].
  unfold LoadDoc. fold init. rewrite Es. done.
Qed.

Definition two_pages : CPDF_Parser :=
  match code_run (H := new_holder) [Create 0; Create 0] (CreateNewDoc parser_new) with Some (_, p) => p | None => parser_new end.

Lemma find_in {A} k (v : A) m : find k m = Some v → (k, v) ∈ m.
Proof.
  induction m as [|[k' v'] m IH]; cbn [find]; [done|]. destruct (Z.eqb_spec k' k) as [<-|]; [intros [= <-]; apply list_elem_of_here|].
  intros Hk. by apply list_elem_of_further, IH.
Qed.

(** Entries whose keys are in order. *)
Lemma entries_ok m : StronglySorted (λ a b, bytes_lt a b = true) (map fst m) →
  Forall (λ kv, kv.1 ≠ [] ∧ name_ok kv.1 ∧ obj_ok 63 kv.2 ∧ direct kv.2 = true) m → doc_obj_ok (CPDF_Dictionary m).
Proof. intros H1 H2. exact (proj2 (dict_ok_iff m) (conj H1 H2)). Qed.

Lemma entry_ok k o : k ≠ [] → name_ok k → obj_ok 63 o → direct o = true →
  (λ kv, kv.1 ≠ [] ∧ name_ok kv.1 ∧ obj_ok 63 kv.2 ∧ direct kv.2 = true) (k, o).
Proof. by intros H1 H2 H3 H4. Qed.
Lemma name_value d n : name_ok n → obj_ok (S d) (CPDF_Name n).
Proof. done. Qed.
Lemma reference_value d n : 0 <= n < 6 → obj_ok (S d) (CPDF_Reference n).
Proof. intros Hn. cbn. unfold ref_ok, kInvalidObjNum. lia. Qed.
Lemma number_value d n : obj_ok (S d) (CPDF_Number n).
Proof. done. Qed.
Lemma references_value d l : Forall (λ n, 0 <= n < 6) l → obj_ok (S (S d)) (CPDF_Array (map CPDF_Reference l)).
Proof. intros Hl. split; [done|]. apply Forall_map. eapply Forall_impl; [exact Hl|]. intros n Hn. by apply reference_value. Qed.

Lemma page_names : name_ok (bs "Type") ∧ name_ok (bs "Pages") ∧ name_ok (bs "Page") ∧ name_ok (bs "Catalog") ∧ name_ok (bs "Count") ∧
  name_ok (bs "Kids") ∧ name_ok (bs "Parent").
Proof. split_and!; (split; [cbn; solve_bytes|vm_compute; discriminate]). Qed.

Definition a_catalog : dict := [(bs "Pages", CPDF_Reference 2); (bs "Type", CPDF_Name (bs "Catalog"))].
Definition a_node : dict :=
  [(bs "Count", number 2); (bs "Kids", CPDF_Array [CPDF_Reference 5; CPDF_Reference 4]); (bs "Type", CPDF_Name (bs "Pages"))].
Definition a_page : dict := [(bs "Parent", CPDF_Reference 2); (bs "Type", CPDF_Name (bs "Page"))].

Lemma catalog_ok : doc_obj_ok (CPDF_Dictionary a_catalog).
Proof.
  destruct page_names as (N1 & N2 & N3 & N4 & N5 & N6 & N7).
  apply entries_ok; [by repeat constructor|]. repeat apply List.Forall_cons; [| |apply List.Forall_nil].
  - refine (entry_ok (bs "Pages") (CPDF_Reference 2) _ N2 (reference_value 62 2 _) eq_refl); [discriminate|lia].
  - refine (entry_ok (bs "Type") (CPDF_Name (bs "Catalog")) _ N1 (name_value 62 _ N4) eq_refl); discriminate.
Qed.
Lemma node_ok : doc_obj_ok (CPDF_Dictionary a_node).
Proof.
  destruct page_names as (N1 & N2 & N3 & N4 & N5 & N6 & N7).
  apply entries_ok; [by repeat constructor|]. repeat apply List.Forall_cons; [| | |apply List.Forall_nil].
  - refine (entry_ok (bs "Count") (number 2) _ N5 (number_value 62 _) eq_refl); discriminate.
  - refine (entry_ok (bs "Kids") (CPDF_Array [CPDF_Reference 5; CPDF_Reference 4]) _ N6 (references_value 61 [5; 4] _) eq_refl);
      [discriminate|by repeat constructor].
  - refine (entry_ok (bs "Type") (CPDF_Name (bs "Pages")) _ N1 (name_value 62 _ N2) eq_refl); discriminate.
Qed.
Lemma page_ok : doc_obj_ok (CPDF_Dictionary a_page).
Proof.
  destruct page_names as (N1 & N2 & N3 & N4 & N5 & N6 & N7).
  apply entries_ok; [by repeat constructor|]. repeat apply List.Forall_cons; [| |apply List.Forall_nil].
  - refine (entry_ok (bs "Parent") (CPDF_Reference 2) _ N7 (reference_value 62 2 _) eq_refl); [discriminate|lia].
  - refine (entry_ok (bs "Type") (CPDF_Name (bs "Page")) _ N1 (name_value 62 _ N3) eq_refl); discriminate.
Qed.

Lemma two_pages_objects : m_IndirectObjs two_pages =
  [(1, Some (CPDF_Dictionary a_catalog)); (2, Some (CPDF_Dictionary a_node)); (3, Some (CPDF_Dictionary []));
   (4, Some (CPDF_Dictionary a_page)); (5, Some (CPDF_Dictionary a_page))].
Proof. reflexivity. Qed.

Lemma two_pages_ok : new_doc two_pages.
Proof.
  assert (El : m_LastObjNum two_pages = 5) by reflexivity.
  constructor; [rewrite two_pages_objects; by repeat constructor| |rewrite El; unfold kMaxXRefSize; lia].
  intros n o. unfold Holder.GetIndirectObject. rewrite El. clear El. destruct (find n (m_IndirectObjs two_pages)) as [o'|] eqn:En; [|discriminate].
  intros Ho. cbn in Ho. subst o'. apply find_in in En. rewrite two_pages_objects in En.
  apply elem_of_cons in En as [[= -> ->]|En]; [split; [lia|exact catalog_ok]|].
  apply elem_of_cons in En as [[= -> ->]|En]; [split; [lia|exact node_ok]|].
  apply elem_of_cons in En as [[= -> ->]|En]; [split; [lia|apply entries_ok; [constructor|apply List.Forall_nil]]|].
  apply elem_of_cons in En as [[= -> ->]|En]; [split; [lia|exact page_ok]|].
  apply elem_of_cons in En as [[= -> ->]|En]; [split; [lia|exact page_ok]|].
  by apply elem_of_nil in En.
Qed.

Lemma two_pages_pages : doc_pages nothing any [5; 4] two_pages.
Proof.
  destruct (run_refines (H0 := new_holder_laws) [Create 0; Create 0] [] (CreateNewDoc parser_new) CreateNewDoc_pages) as (p & E & Hp & _); [done|done|].
  unfold two_pages. rewrite E. exact Hp.
Qed.

Notation saved_two_pages :=
  (Creator.Create (H := zeros_inflate) (λ l, l) (λ _, []) [] 0 false 1 (Some 3) false false 0 [65; 66] [] [] [] two_pages).

Lemma saved_pages_witness :
  ∃ text p rs doc' p', saved_two_pages = Some text ∧ LoadDoc (H := zeros_inflate) 1 text [] = Some (SUCCESS, p) ∧
    code_run (H := new_holder) example_run two_pages = Some (rs, doc') ∧
    code_run (H := file_holder (H := zeros_inflate) text 0) example_run p = Some (rs, p').
Proof.
  destruct (saved_pages (H := zeros_inflate) (λ l, l) (λ _, []) two_pages 1 [5; 4] (Some 3) false false 0 [65; 66] [] [] [] [] 0 example_run
    two_pages_ok two_pages_pages) as (text & E & Hp).
  - reflexivity.
  - by exists (CPDF_Dictionary []).
  - solve_bytes.
  - by left.
  - done.
  - done.
  - done.
  - assert (Hl : match saved_two_pages with Some t => zlen t <? 2 ^ 31 | None => false end = true) by (vm_compute; reflexivity).
    rewrite E in Hl. apply Z.ltb_lt in Hl. destruct (Hp Hl) as (p & rs & doc' & p' & H1 & H2 & H3).
    exists text, p, rs, doc', p'. exact (conj E (conj H1 (conj H2 H3))).
Defined.
