(* ===== verification/ReedSolomon.v ===== *)
(** * The field of 256 elements, and Reed-Solomon codes

    [CBC_ReedSolomonGF256], [CBC_ReedSolomonGF256Poly] and [CBC_ReedSolomonEncoder]
    ([fxbarcode/common/reedsolomon]): multiplication by tables of powers and
    logarithms, and the check bytes of a block of data. *)
From S2P Require Import Prelude.

Record GF256 := MkGF256 { m_expTable : list Z; m_logTable : list Z }.

(** The constructor.  What an entry of [m_logTable] is before it is set is not
    read: it is 0 here. *)
Definition exp_next (primitive x : Z) : Z := let x := x .<< 1 in if 0x100 <=? x then x .^ primitive else x.
Fixpoint exp_loop (n : nat) (primitive x : Z) : list Z :=
  match n with O => [] | S n' => x :: exp_loop n' primitive (exp_next primitive x) end.
Definition CBC_ReedSolomonGF256 (primitive : Z) : GF256 :=
  let expTable := exp_loop 256 primitive 1 in
  MkGF256 expTable (wr (for_loop 255 (λ i t, wr t expTable.[i] i) (replicate 256 0)) 0 0).

Definition AddOrSubtract (a b : Z) : Z := a .^ b.
Definition Exp (field : GF256) (a : Z) : Z := (m_expTable field).[a].
Definition Inverse (field : GF256) (a : Z) : option Z :=
  if a =? 0 then None else Some (m_expTable field).[255 - (m_logTable field).[a]].
Definition Multiply (field : GF256) (a b : Z) : Z :=
  if (a =? 0) || (b =? 0) then 0
  else if a =? 1 then b
  else if b =? 1 then a
  else (m_expTable field).[((m_logTable field).[a] + (m_logTable field).[b]) mod 255].

(** ** Tables that are those of a generator of the field *)
Definition table_check (primitive : Z) (field : GF256) : bool :=
  (Exp field 0 =? 1) && (Exp field 255 =? 1) &&
  forallb (λ i, (Exp field (i + 1) =? exp_next primitive (Exp field i)) && (1 <=? Exp field i) && (Exp field i <=? 255) &&
    ((m_logTable field).[Exp field i] =? i)) (seqZ 0 255) &&
  forallb (λ a, (0 <=? (m_logTable field).[a]) && ((m_logTable field).[a] <? 255) && (Exp field (m_logTable field).[a] =? a)) (seqZ 1 255).

Lemma in_seqZ m n i : m <= i < m + n → In i (seqZ m n).
Proof. intros Hi. apply list_elem_of_In, elem_of_seqZ. lia. Qed.

Section field.
Context (primitive : Z) (field : GF256) (Hfield : table_check primitive field = true).
Notation "a ⊗ b" := (Multiply field a b) (at level 40, left associativity).
Notation log a := ((m_logTable field).[a]).

Lemma check_parts : Exp field 0 = 1 ∧ Exp field 255 = 1 ∧
  (∀ i, 0 <= i < 255 → Exp field (i + 1) = exp_next primitive (Exp field i) ∧ 1 <= Exp field i <= 255 ∧ log (Exp field i) = i) ∧
  (∀ a, 1 <= a <= 255 → 0 <= log a < 255 ∧ Exp field (log a) = a).
Proof.
  pose proof Hfield as Hf. unfold table_check in Hf. rewrite !andb_true_iff, !forallb_forall in Hf. destruct Hf as [[[H0 H255] Hexp] Hlog].
  split_and!; [lia|lia| |].
  - intros i Hi. specialize (Hexp i (in_seqZ 0 255 i ltac:(lia))). lia.
  - intros a Ha. specialize (Hlog a (in_seqZ 1 255 a ltac:(lia))). lia.
Qed.

Definition nz (a : Z) : Prop := 1 <= a <= 255.

(** The powers of the generator, for all exponents. *)
Definition power (n : Z) : Z := Exp field (n mod 255).

Lemma power_nz n : nz (power n).
Proof. destruct check_parts as (_ & _ & H & _). apply H. apply Z.mod_pos_bound. lia. Qed.

Lemma power_log n : log (power n) = n mod 255.
Proof. destruct check_parts as (_ & _ & H & _). apply H. apply Z.mod_pos_bound. lia. Qed.

Lemma log_power a : nz a → power (log a) = a.
Proof. intros Ha. destruct check_parts as (_ & _ & _ & H). destruct (H a Ha) as [Hl E]. unfold power. by rewrite Z.mod_small. Qed.

Lemma power_mod n : power (n mod 255) = power n.
Proof. unfold power. by rewrite Z.mod_mod. Qed.

Lemma power_0 : power 0 = 1.
Proof. apply check_parts. Qed.

Lemma Exp_power i : 0 <= i <= 255 → Exp field i = power i.
Proof.
  intros Hi. destruct (decide (i = 255)) as [->|]; [|unfold power; by rewrite Z.mod_small by lia].
  destruct check_parts as (H0 & H255 & _). unfold power. change (255 mod 255) with 0. congruence.
Qed.

Lemma power_succ n : power (n + 1) = exp_next primitive (power n).
Proof.
  destruct check_parts as (_ & _ & H & _). pose proof (Z.mod_pos_bound n 255 ltac:(lia)) as Hm. unfold power at 2. rewrite <-(proj1 (H _ Hm)).
  rewrite (Exp_power (n mod 255 + 1)) by lia. unfold power. f_equal. by rewrite Z.add_mod_idemp_l.
Qed.

Lemma mul_0_l a : 0 ⊗ a = 0.
Proof. done. Qed.
Lemma mul_0_r a : a ⊗ 0 = 0.
Proof. unfold Multiply. by rewrite orb_true_r. Qed.

Lemma mul_power m n : power m ⊗ power n = power (m + n).
Proof.
  pose proof (power_nz m) as Hm. pose proof (power_nz n) as Hn. unfold nz in *. unfold Multiply. replace (_ || _) with false by lia.
  assert (H1 : ∀ k, power k = 1 → k mod 255 = 0).
  { intros k Hk. rewrite <-power_log, Hk, <-power_0. apply power_log. }
  assert (Hadd : ∀ k l, k mod 255 = 0 → power (k + l) = power l).
  { intros k l Hk. unfold power. by rewrite <-Z.add_mod_idemp_l, Hk by lia. }
  destruct (Z.eqb_spec (power m) 1) as [E|]; [symmetry; by apply Hadd, H1|].
  destruct (Z.eqb_spec (power n) 1) as [E|]; [rewrite Z.add_comm; symmetry; by apply Hadd, H1|].
  rewrite !power_log. unfold power, Exp. by rewrite <-Z.add_mod by lia.
Qed.

Lemma nz_power a : nz a → ∃ n, a = power n.
Proof. intros Ha. exists (log a). by rewrite log_power. Qed.

Lemma byte_cases a : byte a → a = 0 ∨ ∃ n, a = power n.
Proof. unfold fits. intros Ha. destruct (decide (a = 0)); [by left|right]. apply nz_power. unfold nz. lia. Qed.

Lemma mul_byte a b : byte a → byte b → byte (a ⊗ b).
Proof.
  intros [->|[m ->]]%byte_cases [->|[n ->]]%byte_cases; rewrite ?mul_0_l, ?mul_0_r, ?mul_power; try (unfold fits; lia).
  pose proof (power_nz (m + n)). unfold nz, fits in *. lia.
Qed.

Lemma mul_comm a b : byte a → byte b → a ⊗ b = b ⊗ a.
Proof.
  intros [->|[m ->]]%byte_cases [->|[n ->]]%byte_cases; rewrite ?mul_0_l, ?mul_0_r, ?mul_power; [done..|]. by rewrite Z.add_comm.
Qed.

Lemma mul_assoc a b c : byte a → byte b → byte c → a ⊗ (b ⊗ c) = a ⊗ b ⊗ c.
Proof.
  intros [->|[m ->]]%byte_cases [->|[n ->]]%byte_cases [->|[k ->]]%byte_cases; rewrite ?mul_power, ?mul_0_l, ?mul_0_r, ?mul_power, ?mul_0_l; [done..|].
  by rewrite Z.add_assoc.
Qed.

Lemma mul_1_l a : byte a → 1 ⊗ a = a.
Proof. intros Ha. unfold Multiply. cbn [Z.eqb orb]. by destruct (Z.eqb_spec a 0) as [->|]. Qed.

Lemma mul_zero a b : byte a → byte b → a ⊗ b = 0 → a = 0 ∨ b = 0.
Proof.
  intros [->|[m ->]]%byte_cases [->|[n ->]]%byte_cases; [by left|by left|by right|]. rewrite mul_power. pose proof (power_nz (m + n)). unfold nz in *. lia.
Qed.

(** ** Distributivity: a product with a power is a repeated doubling *)
Lemma exp_next_xor a b : byte a → byte b → exp_next primitive (a .^ b) = exp_next primitive a .^ exp_next primitive b.
Proof.
  intros Ha Hb. assert (Hs : ∀ x, byte x → exp_next primitive x = (x .<< 1) .^ (if Z.testbit x 7 then primitive else 0)).
  { intros x Hx. unfold exp_next, fits in *. assert (E : Z.testbit x 7 = (128 <=? x)).
    { destruct (Z.leb_spec 128 x).
      - rewrite Z.testbit_true by lia. change (2 ^ 7) with 128. assert (x / 128 = 1) as -> by (Z.div_mod_to_equations; lia). done.
      - apply Z.testbit_false; [lia|]. change (2 ^ 7) with 128. by rewrite Z.div_small by lia. }
    rewrite E, Z.shiftl_mul_pow2 by lia. change (2 ^ 1) with 2. destruct (Z.leb_spec 128 x); destruct (Z.leb_spec 256 (x * 2)); try lia. by rewrite Z.lxor_0_r. }
  rewrite !Hs by (try apply fits_lxor; done || lia). rewrite Z.lxor_spec, Z.shiftl_lxor.
  destruct (Z.testbit a 7), (Z.testbit b 7); cbn [xorb]; rewrite ?Z.lxor_0_r; [|by rewrite !Z.lxor_assoc, ?(Z.lxor_comm primitive)..|done].
  rewrite <-(Z.lxor_assoc (_ .^ _)), (Z.lxor_assoc (a .<< 1) primitive), (Z.lxor_comm primitive (b .<< 1)), <-Z.lxor_assoc, Z.lxor_assoc, Z.lxor_nilpotent. by rewrite Z.lxor_0_r.
Qed.

Lemma exp_next_byte a : byte a → byte (exp_next primitive a).
Proof.
  intros [->|[n ->]]%byte_cases; [done|]. rewrite <-power_succ. pose proof (power_nz (n + 1)). unfold nz, fits in *. lia.
Qed.

Lemma mul_next n a : byte a → power (n + 1) ⊗ a = exp_next primitive (power n ⊗ a).
Proof.
  intros [->|[m ->]]%byte_cases; [by rewrite !mul_0_r|]. rewrite !mul_power, <-power_succ. f_equal. lia.
Qed.

Lemma mul_xor_r c a b : byte c → byte a → byte b → c ⊗ (a .^ b) = c ⊗ a .^ c ⊗ b.
Proof.
  intros Hc Ha Hb. apply byte_cases in Hc as [->|[n ->]]; [done|]. rewrite <-(power_mod n).
  pose proof (Z.mod_pos_bound n 255 ltac:(lia)) as Hm. rewrite <-(Z2Nat.id (n mod 255)) by lia. induction (Z.to_nat (n mod 255)) as [|k IH].
  - change (power (Z.of_nat 0)) with (power 0). rewrite power_0, !mul_1_l; [done|done|done|by apply fits_lxor].
  - rewrite Nat2Z.inj_succ, <-Z.add_1_r, !mul_next, IH by (try apply fits_lxor; done || lia).
    assert (Hp : byte (power (Z.of_nat k))) by (pose proof (power_nz (Z.of_nat k)); unfold nz, fits in *; lia). apply exp_next_xor; by apply mul_byte.
Qed.

Lemma mul_xor_l a b c : byte a → byte b → byte c → (a .^ b) ⊗ c = a ⊗ c .^ b ⊗ c.
Proof.
  intros Ha Hb Hc. rewrite (mul_comm (a .^ b) c), mul_xor_r, (mul_comm c a), (mul_comm c b) by (try apply fits_lxor; done || lia). done.
Qed.

Lemma inverse_spec a : byte a → match Inverse field a with None => a = 0 | Some b => nz b ∧ a ⊗ b = 1 end.
Proof.
  intros Ha. unfold Inverse. destruct (Z.eqb_spec a 0) as [|Hne]; [done|]. assert (Hnz : nz a) by (unfold nz, fits in *; lia).
  destruct check_parts as (_ & _ & _ & H). destruct (H a Hnz) as [Hl _]. change ((m_expTable field).[255 - log a]) with (Exp field (255 - log a)).
  rewrite Exp_power by lia. split; [apply power_nz|]. rewrite <-(log_power a Hnz) at 1. rewrite mul_power. replace (log a + (255 - log a)) with 255 by lia.
  rewrite <-Exp_power by lia. apply check_parts.
Qed.

Lemma power_inj m n : 0 <= m < 255 → 0 <= n < 255 → power m = power n → m = n.
Proof. intros Hm Hn E. apply (f_equal (λ a, log a)) in E. rewrite !power_log in E. by rewrite !Z.mod_small in E. Qed.
End field.

(** The field of the QR code: [g_QRCodeField]. *)
Definition g_QRCodeField : GF256 := CBC_ReedSolomonGF256 0x011D.

Lemma qr_field_check : table_check 0x11D g_QRCodeField = true.
Proof. vm_compute. reflexivity. Qed.

(** ** Reed-Solomon codes

    [CBC_ReedSolomonGF256Poly] and [CBC_ReedSolomonEncoder]
    ([fxbarcode/common/reedsolomon]): polynomials over the field of 256 elements,
    the highest coefficient first, and the check bytes of a block of data. *)

Section polynomials.
Context (field : GF256).
Notation "a ⊗ b" := (Multiply field a b) (at level 40, left associativity).

(** The constructor drops zeros in front; the zero polynomial is [[0]]. *)
Fixpoint drop_zeros (l : list Z) : list Z :=
  match l with [] => [0] | c :: l' => if c =? 0 then drop_zeros l' else l end.
Definition Poly (coefficients : list Z) : list Z :=
  match coefficients with
  | [_] => coefficients
  | c :: rest => if negb (c =? 0) then coefficients else drop_zeros rest
  | [] => []
  end.

Definition GetDegree (p : list Z) : Z := zlen p - 1.
Definition IsZero (p : list Z) : bool := p.[0] =? 0.
Definition GetCoefficient (p : list Z) (degree : Z) : Z := p.[zlen p - 1 - degree].

Definition BuildMonomial (degree coefficient : Z) : option (list Z) :=
  if degree <? 0 then None
  else if coefficient =? 0 then Some [0] else Some (Poly (coefficient :: replicate (Z.to_nat degree) 0)).

Definition poly_AddOrSubtract (this other : list Z) : list Z :=
  if IsZero this then other
  else if IsZero other then this
  else
    let '(smaller, larger) := if zlen other <? zlen this then (other, this) else (this, other) in
    let lengthDiff := (length larger - length smaller)%nat in
    Poly (take lengthDiff larger ++ zip_with AddOrSubtract smaller (drop lengthDiff larger)).

(** The products of one coefficient, from place [k] on. *)
Fixpoint multiply_row (aCoeff : Z) (bCoefficients : list Z) (k : Z) (product : list Z) : list Z :=
  match bCoefficients with
  | [] => product
  | b :: bs => multiply_row aCoeff bs (k + 1) (wr product k (AddOrSubtract product.[k] (aCoeff ⊗ b)))
  end.
Fixpoint multiply_rows (aCoefficients bCoefficients : list Z) (i : Z) (product : list Z) : list Z :=
  match aCoefficients with
  | [] => product
  | a :: aa => multiply_rows aa bCoefficients (i + 1) (multiply_row a bCoefficients i product)
  end.
Definition poly_Multiply (this other : list Z) : list Z :=
  if IsZero this || IsZero other then [0]
  else Poly (multiply_rows this other 0 (replicate (length this + length other - 1) 0)).

Definition MultiplyByMonomial (p : list Z) (degree coefficient : Z) : option (list Z) :=
  if degree <? 0 then None
  else if coefficient =? 0 then Some [0]
  else Some (Poly (map (λ c, c ⊗ coefficient) p ++ replicate (Z.to_nat degree) 0)).

(** Quotient and remainder; a round makes the remainder shorter. *)
Fixpoint divide_loop (fuel : nat) (other : list Z) (inverse : Z) (quotient remainder : list Z) : option (list Z * list Z) :=
  match fuel with
  | O => None
  | S fuel' =>
      if (GetDegree other <=? GetDegree remainder) && negb (IsZero remainder) then
        let degreeDifference := GetDegree remainder - GetDegree other in
        let scale := GetCoefficient remainder (GetDegree remainder) ⊗ inverse in
        term ← MultiplyByMonomial other degreeDifference scale;
        iteratorQuotient ← BuildMonomial degreeDifference scale;
        divide_loop fuel' other inverse (poly_AddOrSubtract quotient iteratorQuotient) (poly_AddOrSubtract remainder term)
      else Some (quotient, remainder)
  end.
Definition Divide (this other : list Z) : option (list Z) :=
  if IsZero other then None
  else
    inverse ← Inverse field (GetCoefficient other (GetDegree other));
    '(_, remainder) ← divide_loop (S (length this)) other inverse [0] this;
    Some remainder.

(** ** The encoder; its state is [m_cachedGenerators]. *)
Definition m_cachedGenerators_init : list (list Z) := [Poly [1]].

Fixpoint build_generators (n : nat) (cached : list (list Z)) : list (list Z) :=
  match n with
  | O => cached
  | S n' => build_generators n' (cached ++ [poly_Multiply (List.last cached []) (Poly [1; Exp field (zlen cached - 1)])])
  end.
Definition BuildGenerator (degree : nat) (cached : list (list Z)) : list Z * list (list Z) :=
  let cached := build_generators (S degree - length cached) cached in (nth degree cached [], cached).

Definition rs_Encode (toEncode : list Z) (ecBytes : nat) (cached : list (list Z)) : option (list Z * list (list Z)) :=
  if (ecBytes =? 0)%nat then None
  else if (length toEncode <=? ecBytes)%nat then None
  else
    let '(generator, cached) := BuildGenerator ecBytes cached in
    let dataBytes := (length toEncode - ecBytes)%nat in
    infoTemp ← MultiplyByMonomial (Poly (take dataBytes toEncode)) (Z.of_nat ecBytes) 1;
    coefficients ← Divide infoTemp generator;
    Some (take dataBytes toEncode ++ replicate (ecBytes - length coefficients) 0 ++ coefficients, cached).
End polynomials.

(** ** Values of polynomials *)
Lemma fits_1 : byte 1.
Proof. unfold fits. lia. Qed.
Lemma fits_0 : byte 0.
Proof. unfold fits. lia. Qed.
Lemma xor_byte a b : byte a → byte b → byte (a .^ b).
Proof. apply fits_lxor. lia. Qed.

Lemma bytes_zeros n : bytes (replicate n 0).
Proof. apply Forall_replicate. apply fits_0. Qed.

Lemma length_pos (l : list Z) : l ≠ [] → (0 < length l)%nat.
Proof. destruct l; [done|cbn; lia]. Qed.

Section values.
Context (primitive : Z) (field : GF256) (Hfield : table_check primitive field = true).
Notation "a ⊗ b" := (Multiply field a b) (at level 40, left associativity).
Let mul_byte := mul_byte primitive field Hfield.
Let mul_comm := mul_comm primitive field Hfield.
Let mul_assoc := mul_assoc primitive field Hfield.
Let mul_xor_l := mul_xor_l primitive field Hfield.
Let mul_xor_r := mul_xor_r primitive field Hfield.

Fixpoint xpow (x : Z) (n : nat) : Z := match n with O => 1 | S n' => xpow x n' ⊗ x end.
Definition value (p : list Z) (x : Z) : Z := fold_left (λ acc c, acc ⊗ x .^ c) p 0.

#[local] Hint Resolve mul_byte xor_byte fits_0 fits_1 : gf.
Ltac gf := eauto 6 with gf.

Lemma xpow_byte x n : byte x → byte (xpow x n).
Proof. intros Hx. induction n; cbn [xpow]; gf. Qed.
#[local] Hint Resolve xpow_byte : gf.

Lemma xpow_add x m n : byte x → xpow x (m + n) = xpow x m ⊗ xpow x n.
Proof.
  intros Hx. induction n as [|n IH]; cbn [xpow].
  - rewrite Nat.add_0_r, mul_comm by gf. by rewrite mul_1_l by gf.
  - rewrite Nat.add_succ_r. cbn [xpow]. rewrite IH, mul_assoc by gf. done.
Qed.

Lemma horner_byte x l : ∀ acc, byte x → bytes l → byte acc → byte (fold_left (λ acc c, acc ⊗ x .^ c) l acc).
Proof. induction l as [|c l IH]; intros acc Hx Hl Ha; cbn [fold_left]; [done|]. apply Forall_cons in Hl as [Hc Hl]. apply IH; gf. Qed.

Lemma value_byte p x : byte x → bytes p → byte (value p x).
Proof. intros. apply horner_byte; gf. Qed.
#[local] Hint Resolve value_byte : gf.

Lemma horner_acc x l : ∀ acc, byte x → bytes l → byte acc →
  fold_left (λ acc c, acc ⊗ x .^ c) l acc = acc ⊗ xpow x (length l) .^ value l x.
Proof.
  unfold value. induction l as [|c l IH]; intros acc Hx Hl Ha; cbn [fold_left length].
  - cbn [xpow]. rewrite mul_comm, mul_1_l, Z.lxor_0_r by gf. done.
  - apply Forall_cons in Hl as [Hc Hl]. rewrite (IH (acc ⊗ x .^ c)), (IH (0 ⊗ x .^ c)) by gf. rewrite mul_0_l, Z.lxor_0_l, mul_xor_l by gf.
    rewrite Z.lxor_assoc. f_equal. cbn [xpow]. rewrite (mul_comm (xpow x (length l)) x), mul_assoc by gf. done.
Qed.

Lemma value_cons c l x : byte x → byte c → bytes l → value (c :: l) x = c ⊗ xpow x (length l) .^ value l x.
Proof. intros Hx Hc Hl. unfold value at 1. cbn [fold_left]. rewrite mul_0_l, Z.lxor_0_l. by apply horner_acc. Qed.

Lemma value_app p q x : byte x → bytes p → bytes q → value (p ++ q) x = value p x ⊗ xpow x (length q) .^ value q x.
Proof. intros Hx Hp Hq. unfold value at 1. rewrite fold_left_app. apply horner_acc; gf. Qed.

Lemma value_zeros n x : value (replicate n 0) x = 0.
Proof. unfold value. induction n as [|n IH]; cbn [replicate fold_left]; [done|]. by rewrite mul_0_l, Z.lxor_0_l. Qed.

#[local] Hint Resolve bytes_zeros : gf.

Lemma value_drop_zeros p x : value (drop_zeros p) x = value p x.
Proof.
  induction p as [|c p IH]; cbn [drop_zeros]; [done|]. destruct (Z.eqb_spec c 0) as [->|]; [|done]. rewrite IH. unfold value. cbn [fold_left]. by rewrite mul_0_l.
Qed.

Lemma value_Poly p x : value (Poly p) x = value p x.
Proof.
  destruct p as [|c [|d p]]; [done..|]. cbn [Poly]. destruct (Z.eqb_spec c 0) as [->|]; [|done]. cbn [negb]. rewrite value_drop_zeros.
  unfold value. cbn [fold_left]. by rewrite !mul_0_l.
Qed.

(** ** Polynomials in normal form *)
Definition normal (p : list Z) : Prop := p ≠ [] ∧ bytes p ∧ (length p = 1%nat ∨ p.[0] ≠ 0).

Lemma drop_zeros_normal p : bytes p → normal (drop_zeros p) ∧ (length (drop_zeros p) <= Nat.max 1 (length p))%nat.
Proof.
  induction 1 as [|c p Hc Hp IH]; cbn [drop_zeros]; [split; [split_and!; [done|gf|by left]|cbn; lia]|]. destruct (Z.eqb_spec c 0) as [->|Hne].
  - destruct IH as [H1 H2]. split; [done|]. cbn [length]. lia.
  - split; [split_and!; [done|by constructor|by right]|cbn [length]; lia].
Qed.

Lemma Poly_normal p : bytes p → p ≠ [] → normal (Poly p) ∧ (length (Poly p) <= length p)%nat.
Proof.
  intros Hp Hne. destruct p as [|c [|d p]]; [done| |].
  - split; [split_and!; [done|done|by left]|done].
  - cbn [Poly]. destruct (Z.eqb_spec c 0) as [->|Hc]; cbn [negb]; [|split; [split_and!; [done|done|by right]|done]].
    apply Forall_cons in Hp as [_ Hp]. destruct (drop_zeros_normal _ Hp) as [H1 H2]. split; [done|]. cbn [length] in *. lia.
Qed.

Lemma Poly_keep p : p.[0] ≠ 0 → Poly p = p.
Proof. destruct p as [|c [|d p]]; [done..|]. cbn [Poly]. rewrite rd_cons_0. intros Hc. by destruct (Z.eqb_spec c 0). Qed.

(** A leading zero is dropped. *)
Lemma Poly_shorter p : bytes p → p.[0] = 0 → p ≠ [] → (length (Poly p) < length p)%nat ∨ Poly p = [0].
Proof.
  intros Hp H0 Hne. destruct p as [|c [|d p]]; [done|right|left].
  - cbn. f_equal. done.
  - rewrite rd_cons_0 in H0. subst c. cbn [Poly Z.eqb negb]. apply Forall_cons in Hp as [_ Hp]. destruct (drop_zeros_normal _ Hp) as [_ H2]. cbn [length] in *. lia.
Qed.

Lemma IsZero_value p x : normal p → IsZero p = true → value p x = 0.
Proof.
  unfold IsZero. intros (Hne & _ & Hn) H0. destruct p as [|c p]; [done|]. rewrite rd_cons_0 in *. assert (c = 0) as -> by lia.
  destruct Hn as [Hn|Hn]; [|done]. destruct p; [|done]. unfold value. cbn [fold_left]. by rewrite mul_0_l.
Qed.

(** ** Sums *)
Lemma zip_bytes a b : bytes a → bytes b → bytes (zip_with AddOrSubtract a b).
Proof. intros Ha. revert b. induction Ha as [|x a Hx Ha IH]; intros [|y b] Hb; cbn; [gf..|]. apply Forall_cons in Hb as [Hy Hb]. constructor; [by apply xor_byte|by apply IH]. Qed.

Lemma value_zip a b x : byte x → bytes a → bytes b → length a = length b → value (zip_with AddOrSubtract a b) x = value a x .^ value b x.
Proof.
  intros Hx Ha. revert b. induction Ha as [|y a Hy Ha IH]; intros [|z b] Hb Hl; [done..|]. cbn [length zip_with] in *.
  apply Forall_cons in Hb as [Hz Hb]. injection Hl as Hl. rewrite !value_cons by (try apply zip_bytes; unfold AddOrSubtract; gf). rewrite IH by done.
  rewrite length_zip_with, Hl, Nat.min_id. unfold AddOrSubtract. rewrite mul_xor_l by gf.
  rewrite !Z.lxor_assoc. f_equal. rewrite <-!Z.lxor_assoc. f_equal. apply Z.lxor_comm.
Qed.

Lemma value_add a b x : byte x → normal a → normal b → value (poly_AddOrSubtract a b) x = value a x .^ value b x.
Proof.
  intros Hx Ha Hb. unfold poly_AddOrSubtract. destruct (IsZero a) eqn:Ea; [by rewrite (IsZero_value a)|].
  destruct (IsZero b) eqn:Eb; [by rewrite (IsZero_value b), Z.lxor_0_r|].
  assert (Hs : ∀ s l, normal s → normal l → (length s <= length l)%nat →
    value (Poly (take (length l - length s) l ++ zip_with AddOrSubtract s (drop (length l - length s) l))) x = value s x .^ value l x).
  { intros s l (_ & Hs & _) (_ & Hl & _) Hle. rewrite value_Poly.
    assert (Hd : length (drop (length l - length s) l) = length s) by (rewrite length_drop; lia).
    rewrite value_app by (try apply zip_bytes; try apply Forall_take; try apply Forall_drop; gf).
    rewrite value_zip by (try apply Forall_drop; done). rewrite length_zip_with, Hd, Nat.min_id.
    assert (E : value l x = value (take (length l - length s) l) x ⊗ xpow x (length s) .^ value (drop (length l - length s) l) x).
    { pose proof (value_app (take (length l - length s) l) (drop (length l - length s) l) x Hx) as E. rewrite Hd, take_drop in E.
      apply E; [by apply Forall_take|by apply Forall_drop]. }
    rewrite E, <-!Z.lxor_assoc. f_equal. apply Z.lxor_comm. }
  destruct (Z.ltb_spec (zlen b) (zlen a)); [|apply Hs; unfold zlen in *; done || lia].
  rewrite Z.lxor_comm. apply Hs; unfold zlen in *; done || lia.
Qed.

Lemma normal_add a b : normal a → normal b → normal (poly_AddOrSubtract a b).
Proof.
  intros Ha Hb. unfold poly_AddOrSubtract. destruct (IsZero a); [done|]. destruct (IsZero b); [done|].
  destruct Ha as (Hna & Ha & _), Hb as (Hnb & Hb & _). destruct (_ <? _); apply Poly_normal.
  1, 3: apply Forall_app; split; [by apply Forall_take|]; apply zip_bytes; [done|by apply Forall_drop].
  all: apply length_pos in Hna, Hnb; intros E; apply (f_equal length) in E; rewrite length_app, length_take, length_zip_with, length_drop in E; cbn [length] in E; lia.
Qed.

(** ** Products *)
Lemma value_wr x v : byte x → byte v → ∀ p k, bytes p → 0 <= k < zlen p →
  value (wr p k (AddOrSubtract p.[k] v)) x = value p x .^ v ⊗ xpow x (length p - 1 - Z.to_nat k).
Proof.
  intros Hx Hv. induction p as [|c p IH]; intros k Hp Hk; [unfold zlen in Hk; cbn in Hk; lia|]. apply Forall_cons in Hp as [Hc Hp]. rewrite zlen_cons in Hk.
  destruct (decide (k = 0)) as [->|Hne].
  - rewrite rd_cons_0. change (wr (c :: p) 0 ?z) with (z :: p). unfold AddOrSubtract. rewrite !value_cons, mul_xor_l by gf. cbn [length].
    replace (S (length p) - 1 - Z.to_nat 0)%nat with (length p) by lia. rewrite !Z.lxor_assoc. f_equal. apply Z.lxor_comm.
  - assert (Hk' : 0 <= k - 1 < zlen p) by lia. assert (Ew : ∀ z, wr (c :: p) k z = c :: wr p (k - 1) z).
    { intros z. unfold wr. by replace (Z.to_nat k) with (S (Z.to_nat (k - 1))) by lia. }
    assert (Er : (c :: p).[k] = p.[k - 1]) by (rewrite <-(rd_cons c p (k - 1)) by lia; f_equal; lia). rewrite Ew, Er.
    assert (Hw : bytes (wr p (k - 1) (AddOrSubtract p.[k - 1] v))) by (apply Forall_insert; [done|apply xor_byte; [by apply bytes_rd|done]]).
    rewrite !value_cons, IH, length_wr by done. rewrite Z.lxor_assoc. do 4 f_equal. cbn [length]. lia.
Qed.

Lemma row_spec x a : byte x → byte a → ∀ bs k p, bytes bs → bytes p → 0 <= k → k + zlen bs <= zlen p →
  let q := multiply_row field a bs k p in
  length q = length p ∧ bytes q ∧ (∀ j, 0 <= j < k → q.[j] = p.[j]) ∧
  value q x = value p x .^ a ⊗ (value bs x ⊗ xpow x (length p - Z.to_nat k - length bs)).
Proof.
  intros Hx Ha. induction bs as [|b bs IH]; intros k p Hbs Hp Hk Hle; cbv zeta; cbn [multiply_row].
  - split_and!; [done|done|done|]. change (value [] x) with 0. by rewrite mul_0_l, mul_0_r, Z.lxor_0_r.
  - apply Forall_cons in Hbs as [Hb Hbs]. rewrite zlen_cons in Hle. pose proof (zlen_nonneg bs). assert (Hab : byte (a ⊗ b)) by gf.
    set (p' := wr p k _). assert (Hp' : bytes p') by (apply Forall_insert; [done|apply xor_byte; [by apply bytes_rd|done]]).
    assert (Hl : length p' = length p) by apply length_wr.
    destruct (IH (k + 1) p' Hbs Hp' ltac:(lia) ltac:(unfold zlen in *; lia)) as (H1 & H2 & H3 & H4). split_and!; [lia|done| |].
    + intros j Hj. rewrite H3 by lia. unfold p'. by rewrite rd_wr_ne by lia.
    + rewrite H4. unfold p'. rewrite value_wr by (done || lia). fold p'. rewrite Hl, Z.lxor_assoc. f_equal.
      rewrite value_cons, (mul_xor_l _ _ (xpow _ _)), mul_xor_r by gf. cbn [length]. unfold zlen in *.
      replace (length p - Z.to_nat k - S (length bs))%nat with (length p - Z.to_nat (k + 1) - length bs)%nat by lia. f_equal.
      rewrite <-(mul_assoc b), <-xpow_add, mul_assoc by gf. do 2 f_equal. lia.
Qed.

Lemma rows_spec x bs : byte x → bytes bs → bs ≠ [] → ∀ aa i p, bytes aa → bytes p → 0 <= i → i + zlen aa + zlen bs - 1 <= zlen p →
  let q := multiply_rows field aa bs i p in
  length q = length p ∧ bytes q ∧ (∀ j, 0 <= j < i → q.[j] = p.[j]) ∧
  value q x = value p x .^ value aa x ⊗ (value bs x ⊗ xpow x (length p + 1 - Z.to_nat i - length aa - length bs)).
Proof.
  intros Hx Hbs Hne. assert (Hpos : 0 < zlen bs) by (destruct bs; [done|rewrite zlen_cons; pose proof (zlen_nonneg bs); lia]).
  induction aa as [|a aa IH]; intros i p Haa Hp Hi Hle; cbv zeta; cbn [multiply_rows].
  - split_and!; [done|done|done|]. change (value [] x) with 0. by rewrite mul_0_l, Z.lxor_0_r.
  - apply Forall_cons in Haa as [Ha Haa]. rewrite zlen_cons in Hle. pose proof (zlen_nonneg aa).
    destruct (row_spec x a Hx Ha bs i p Hbs Hp Hi ltac:(lia)) as (R1 & R2 & R3 & R4). set (p' := multiply_row _ _ _ _ _) in *.
    destruct (IH (i + 1) p' Haa R2 ltac:(lia) ltac:(unfold zlen in *; lia)) as (H1 & H2 & H3 & H4). split_and!; [lia|done| |].
    + intros j Hj. rewrite H3, R3 by lia. done.
    + rewrite H4, R4, R1, Z.lxor_assoc. f_equal. rewrite value_cons, mul_xor_l by gf. cbn [length]. unfold zlen in *.
      replace (length p + 1 - Z.to_nat i - S (length aa) - length bs)%nat with (length p + 1 - Z.to_nat (i + 1) - length aa - length bs)%nat by lia. f_equal.
      rewrite <-(mul_assoc a), (mul_assoc (xpow _ _) (value bs x)), (mul_comm (xpow _ _) (value bs x)), <-mul_assoc, <-xpow_add by gf. do 3 f_equal. lia.
Qed.

Lemma value_multiply a b x : byte x → normal a → normal b → value (poly_Multiply field a b) x = value a x ⊗ value b x.
Proof.
  intros Hx Ha Hb. unfold poly_Multiply. destruct (IsZero a) eqn:Ea; [by rewrite (IsZero_value a)|].
  destruct (IsZero b) eqn:Eb; [by rewrite (IsZero_value b), mul_0_r|]. cbn [orb]. rewrite value_Poly.
  destruct Ha as (Hna & Ha & _), Hb as (Hnb & Hb & _). apply length_pos in Hna as Hla. apply length_pos in Hnb as Hlb.
  destruct (rows_spec x b Hx Hb Hnb a 0 (replicate (length a + length b - 1) 0) Ha ltac:(gf) ltac:(lia)) as (_ & _ & _ & ->).
  { unfold zlen. rewrite length_replicate. lia. }
  rewrite value_zeros, Z.lxor_0_l, length_replicate. change (Z.to_nat 0) with 0%nat.
  replace (_ - _)%nat with 0%nat by lia. cbn [xpow]. rewrite (mul_comm (value b x) 1), mul_1_l by gf. done.
Qed.

(** A product of monic polynomials. *)
Definition monic (p : list Z) : Prop := bytes p ∧ p.[0] = 1.

Lemma monic_normal p : monic p → normal p.
Proof. intros [H1 H2]. split_and!; [by intros ->|done|right; lia]. Qed.

Lemma monic_multiply a b : monic a → monic b → monic (poly_Multiply field a b) ∧ length (poly_Multiply field a b) = (length a + length b - 1)%nat.
Proof.
  intros Ha Hb. pose proof (monic_normal a Ha) as (Hna & _). pose proof (monic_normal b Hb) as (Hnb & _). destruct Ha as [Ha Ha0], Hb as [Hb Hb0].
  unfold poly_Multiply, IsZero. rewrite Ha0, Hb0. cbn [Z.eqb orb]. set (n := (length a + length b - 1)%nat).
  destruct a as [|a0 a]; [done|]. destruct b as [|b0 b]; [done|]. rewrite rd_cons_0 in *. subst a0 b0. cbn [multiply_rows].
  apply Forall_cons in Ha as [_ Ha]. assert (Hz : byte 0) by gf.
  destruct (row_spec 0 1 Hz fits_1 (1 :: b) 0 (replicate n 0) Hb ltac:(gf) ltac:(lia)) as (R1 & R2 & _).
  { unfold zlen. rewrite length_replicate. unfold n. cbn [length]. lia. }
  assert (R3 : (multiply_row field 1 (1 :: b) 0 (replicate n 0)).[0] = 1).
  { cbn [multiply_row]. assert (Hn : (0 < n)%nat) by (unfold n; cbn; lia). set (p' := wr _ 0 _).
    assert (Hp' : bytes p') by (apply Forall_insert; [gf|apply xor_byte; [apply bytes_rd; gf|by apply mul_byte; gf]]). apply Forall_cons in Hb as [_ Hb].
    destruct (row_spec 0 1 Hz fits_1 b 1 p' Hb Hp' ltac:(lia)) as (_ & _ & R & _).
    { unfold zlen, p'. rewrite length_wr, length_replicate. unfold n. cbn [length]. lia. }
    rewrite Z.add_0_l, R by lia. unfold p'. rewrite rd_wr_eq by (unfold zlen; rewrite length_replicate; lia). unfold AddOrSubtract. rewrite rd_replicate. done. }
  set (p := multiply_row _ _ _ _ _) in *.
  destruct (rows_spec 0 (1 :: b) Hz Hb Hnb a 1 p Ha R2 ltac:(lia)) as (S1 & S2 & S3 & _).
  { unfold zlen. rewrite R1, length_replicate. unfold n. cbn [length]. lia. }
  rewrite length_replicate in R1. rewrite Z.add_0_l. rewrite Poly_keep; [|rewrite S3 by lia; lia]. split; [split; [done|rewrite S3 by lia; done]|lia].
Qed.

(** ** Division *)
Lemma value_map c p x : byte x → byte c → bytes p → value (map (λ a, a ⊗ c) p) x = value p x ⊗ c.
Proof.
  intros Hx Hc. induction 1 as [|a p Ha Hp IH]; [done|]. cbn [map].
  assert (Hm : bytes (map (λ a, a ⊗ c) p)) by (apply Forall_fmap; eapply Forall_impl; [exact Hp|intros b Hb; cbn; gf]).
  rewrite !value_cons, IH, length_map, mul_xor_l by gf. f_equal. rewrite <-!mul_assoc by gf. f_equal. apply mul_comm; gf.
Qed.

Lemma monomial_spec p d c x : byte x → normal p → 0 <= d → byte c →
  ∃ q, MultiplyByMonomial field p d c = Some q ∧ normal q ∧ value q x = value p x ⊗ c ⊗ xpow x (Z.to_nat d).
Proof.
  intros Hx (Hne & Hp & _) Hd Hc. unfold MultiplyByMonomial. replace (d <? 0) with false by lia. destruct (Z.eqb_spec c 0) as [->|Hc0].
  - eexists. split; [done|]. split; [split_and!; [done|gf|by left]|]. rewrite mul_0_r, mul_0_l. change (value [0] x) with (value (replicate 1 0) x). apply value_zeros.
  - eexists. split; [done|]. assert (Hm : bytes (map (λ a, a ⊗ c) p)) by (apply Forall_fmap; eapply Forall_impl; [exact Hp|intros b Hb; cbn; gf]).
    split; [apply Poly_normal; [by apply Forall_app; split; [|apply bytes_zeros]|by destruct p]|].
    rewrite value_Poly, value_app, value_map, value_zeros, Z.lxor_0_r, length_replicate by gf. done.
Qed.

Lemma divide_loop_spec other inverse : monic other → inverse = 1 → ∀ fuel quotient remainder, normal remainder → ((if IsZero remainder then 0 else length remainder) < fuel)%nat →
  ∃ q r, divide_loop field fuel other inverse quotient remainder = Some (q, r) ∧ normal r ∧ (IsZero r = true ∨ length r < length other)%nat ∧
    ∀ x, byte x → value other x = 0 → value r x = value remainder x.
Proof.
  intros Ho ->. pose proof (monic_normal other Ho) as Hno. destruct Ho as [Ho Ho1]. pose proof (length_pos other ltac:(apply Hno)) as Hlo.
  induction fuel as [|fuel IH]; intros quotient remainder Hr Hf; [lia|]. cbn [divide_loop]. unfold GetDegree.
  assert (Hlr := length_pos remainder ltac:(apply Hr)). destruct (IsZero remainder) eqn:Ez; [rewrite andb_false_r; eexists _, _; split; [done|]; split_and!; [done|by left|done]|]. rewrite andb_true_r.
  destruct (Z.leb_spec (zlen other - 1) (zlen remainder - 1)) as [Hle|Hlt]; [|eexists _, _; split; [done|]; split_and!; [done|right; unfold zlen in *; lia|done]].
  set (d := zlen remainder - 1 - (zlen other - 1)). unfold GetCoefficient. rewrite Z.sub_diag. unfold IsZero in Ez.
  assert (Hrb : bytes remainder) by apply Hr. pose proof (bytes_rd remainder 0 Hrb) as Hb0. set (lead := remainder.[0]) in *.
  assert (Escale : lead ⊗ 1 = lead) by (rewrite mul_comm, mul_1_l by gf; done). rewrite Escale.
  assert (Hd : 0 <= d) by (unfold d; lia). unfold MultiplyByMonomial, BuildMonomial. replace (d <? 0) with false by lia. rewrite Ez. cbn [mbind option_bind].
  set (term := Poly (map _ _ ++ _)). assert (Et : term = map (λ c, c ⊗ lead) other ++ replicate (Z.to_nat d) 0).
  { unfold term. apply Poly_keep. destruct other as [|o other]; [done|]. rewrite rd_cons_0 in Ho1. subst o. cbn [map app]. rewrite rd_cons_0, mul_1_l by gf. lia. }
  assert (Hm : bytes (map (λ a, a ⊗ lead) other)) by (apply Forall_fmap; eapply Forall_impl; [exact Ho|intros b Hb; cbn; gf]).
  assert (Htb : bytes term) by (rewrite Et; by apply Forall_app; split; [|apply bytes_zeros]).
  assert (Htl : length term = length remainder) by (rewrite Et, length_app, length_map, length_replicate; unfold d, zlen in *; lia).
  assert (Ht0 : term.[0] = lead).
  { rewrite Et. destruct other as [|o other]; [done|]. rewrite rd_cons_0 in Ho1. subst o. cbn [map app]. by rewrite rd_cons_0, mul_1_l by gf. }
  assert (Htn : normal term) by (split_and!; [intros E; rewrite E in Htl; destruct Hr as (Hne & _); by destruct remainder|done|right; lia]).
  pose proof (normal_add remainder term Hr Htn) as Hn'.
  assert (Hshort : (length (poly_AddOrSubtract remainder term) < length remainder)%nat ∨ poly_AddOrSubtract remainder term = [0]).
  { unfold poly_AddOrSubtract, IsZero. fold lead. rewrite Ez, Ht0, Ez. replace (zlen term <? zlen remainder) with false by (unfold zlen; lia).
    rewrite Htl, Nat.sub_diag, drop_0, take_0. cbn [app].
    assert (El : length (zip_with AddOrSubtract remainder term) = length remainder) by (rewrite length_zip_with; lia). rewrite <-El.
    apply Poly_shorter; [by apply zip_bytes| |].
    - destruct remainder as [|a rr]; [by destruct Hr|]. destruct term as [|t tt]; [by destruct Htn|]. cbn [zip_with]. rewrite rd_cons_0 in *. rewrite Ht0. apply Z.lxor_nilpotent.
    - intros E. rewrite E in El. destruct Hr as (Hne & _). by destruct remainder. }
  destruct (IH (poly_AddOrSubtract quotient (Poly (lead :: replicate (Z.to_nat d) 0))) (poly_AddOrSubtract remainder term) Hn') as (q & r & E & H1 & H2 & H3).
  { destruct Hshort as [Hs|E0]; [|rewrite E0; change (IsZero [0]) with true; cbv iota; lia].
 destruct (IsZero (poly_AddOrSubtract remainder term)); lia. }
  exists q, r. split; [exact E|]. split; [done|]. split; [done|]. intros x Hx Hox. rewrite H3, value_add by done.
  rewrite Et, value_app, value_map, value_zeros, Hox by gf.
  by rewrite !mul_0_l, !Z.lxor_0_r.
Qed.

(** ** Generators *)
Notation power := (power field).
Lemma power_byte n : byte (power n).
Proof. pose proof (power_nz primitive field Hfield n) as H. unfold nz, fits in *. lia. Qed.
#[local] Hint Resolve power_byte : gf.

(** The generator of degree [d] is monic and vanishes at the first [d] powers. *)
Record generator (d : nat) (g : list Z) : Prop := {
  gen_monic : monic g;
  gen_length : length g = S d;
  gen_zeros : ∀ i, (i < d)%nat → value g (power (Z.of_nat i)) = 0;
}.
Definition cache_ok (cached : list (list Z)) : Prop := cached ≠ [] ∧ ∀ d g, cached !! d = Some g → generator d g.

Lemma cache_init : cache_ok m_cachedGenerators_init.
Proof. split; [done|]. intros [|d] g E; [|done]. injection E as <-. split; [split; [solve_bytes|done]|done|lia]. Qed.

Lemma generator_next d g : (d <= 255)%nat → generator d g → generator (S d) (poly_Multiply field g (Poly [1; Exp field (Z.of_nat d)])).
Proof.
  intros Hd [H1 H2 H3]. rewrite (Exp_power primitive field Hfield) by lia. change (Poly [1; power (Z.of_nat d)]) with [1; power (Z.of_nat d)].
  assert (Hf : monic [1; power (Z.of_nat d)]) by (split; [repeat first [apply List.Forall_nil|apply List.Forall_cons]; gf|done]). destruct (monic_multiply _ _ H1 Hf) as [Hm Hl].
  split; [done|rewrite Hl, H2; cbn; lia|]. intros i Hi. rewrite value_multiply by (try apply monic_normal; gf). destruct (decide (i = d)) as [->|].
  - assert (E : value [1; power (Z.of_nat d)] (power (Z.of_nat d)) = 0).
    { unfold value. cbn [fold_left]. rewrite mul_0_l, Z.lxor_0_l, mul_1_l by gf. apply Z.lxor_nilpotent. }
    by rewrite E, mul_0_r.
  - rewrite H3 by lia. apply mul_0_l.
Qed.

Lemma last_cached cached : cache_ok cached → generator (length cached - 1) (List.last cached []).
Proof.
  intros [Hne H]. apply H. destruct (exists_last Hne) as (l & g & ->). rewrite List.last_last, length_app. cbn [length].
  replace (length l + 1 - 1)%nat with (length l) by lia. by apply list_lookup_middle.
Qed.

Lemma build_generators_ok n : ∀ cached, cache_ok cached → (n + length cached <= 256)%nat →
  cache_ok (build_generators field n cached) ∧ length (build_generators field n cached) = (n + length cached)%nat.
Proof.
  induction n as [|n IH]; intros cached Hc Hl; cbn [build_generators]; [done|].
  assert (Hpos : (0 < length cached)%nat) by (destruct Hc as [Hne _]; destruct cached; [done|cbn; lia]).
  destruct (IH (cached ++ [poly_Multiply field (List.last cached []) (Poly [1; Exp field (zlen cached - 1)])])) as [H1 H2].
  - split; [by destruct cached|]. intros d g E. apply lookup_app_Some in E as [E|[Hle E]]; [by apply Hc|].
    apply list_lookup_singleton_Some in E as [Hd <-]. replace d with (S (length cached - 1)) by lia.
    replace (zlen cached - 1) with (Z.of_nat (length cached - 1)) by (unfold zlen; lia). apply generator_next; [lia|]. by apply last_cached.
  - rewrite length_app. cbn. lia.
  - split; [done|]. rewrite H2, length_app. cbn. lia.
Qed.

Lemma BuildGenerator_ok degree cached : cache_ok cached → (degree <= 255)%nat → (length cached <= 256)%nat →
  ∃ g cached', BuildGenerator field degree cached = (g, cached') ∧ generator degree g ∧ cache_ok cached' ∧ (length cached' <= 256)%nat.
Proof.
  intros Hc Hd Hl. unfold BuildGenerator. destruct (build_generators_ok (S degree - length cached) cached Hc ltac:(lia)) as [H1 H2].
  eexists _, _. split; [done|]. split; [|split; [done|lia]]. apply H1. rewrite nth_lookup.
  destruct (build_generators _ _ _ !! degree) eqn:E; [done|]. apply lookup_ge_None in E. lia.
Qed.

(** ** The code word *)
Definition codeword (ecBytes : nat) (w : list Z) : Prop := bytes w ∧ ∀ i, (i < ecBytes)%nat → value w (Exp field (Z.of_nat i)) = 0.

Lemma rs_Encode_spec toEncode ecBytes cached : cache_ok cached → (length cached <= 256)%nat → bytes toEncode → (0 < ecBytes < length toEncode)%nat → (ecBytes <= 255)%nat →
  ∃ check cached', rs_Encode field toEncode ecBytes cached = Some (take (length toEncode - ecBytes) toEncode ++ check, cached') ∧
    length check = ecBytes ∧ bytes check ∧ codeword ecBytes (take (length toEncode - ecBytes) toEncode ++ check) ∧
    cache_ok cached' ∧ (length cached' <= 256)%nat.
Proof.
  intros Hc Hcl Hb Hec Hec2. unfold rs_Encode. replace (ecBytes =? 0)%nat with false by lia. replace (length toEncode <=? ecBytes)%nat with false by lia.
  destruct (BuildGenerator_ok ecBytes cached Hc Hec2 Hcl) as (g & cached' & -> & Hg & Hc' & Hcl'). destruct Hg as [Hm Hgl Hgz].
  set (data := take (length toEncode - ecBytes) toEncode). assert (Hdb : bytes data) by by apply Forall_take.
  assert (Hdl : length data = (length toEncode - ecBytes)%nat) by (unfold data; rewrite length_take; lia).
  assert (Hpn : normal (Poly data)) by (apply Poly_normal; [done|intros E; rewrite E in Hdl; cbn in Hdl; lia]).
  destruct (monomial_spec (Poly data) (Z.of_nat ecBytes) 1 0 fits_0 Hpn ltac:(lia) fits_1) as (info & E & Hn & _). rewrite E. cbn [mbind option_bind].
  assert (Hv : ∀ x, byte x → value info x = value data x ⊗ xpow x ecBytes).
  { intros x Hx. destruct (monomial_spec (Poly data) (Z.of_nat ecBytes) 1 x Hx Hpn ltac:(lia) fits_1) as (q & E' & _ & Ev). rewrite E in E'. injection E' as <-.
    rewrite Ev, value_Poly, Nat2Z.id. f_equal. rewrite mul_comm, mul_1_l by gf. done. }
  unfold Divide, GetCoefficient, GetDegree. rewrite Z.sub_diag. unfold IsZero. pose proof Hm as [Hgb Hg1]. rewrite Hg1. cbn [Z.eqb].
  assert (Ei : Inverse field 1 = Some 1).
  { unfold Inverse. cbn [Z.eqb]. f_equal. pose proof (inverse_spec primitive field Hfield 1 fits_1) as Hi. unfold Inverse in Hi. cbn [Z.eqb] in Hi.
    destruct Hi as [Hnz Hi]. rewrite mul_1_l in Hi; [done|]. unfold nz, fits in *. lia. }
  rewrite Ei. cbn [mbind option_bind]. change 1 with 1 in Hm.
  destruct (divide_loop_spec g 1 Hm eq_refl (S (length info)) [0] info Hn ltac:(destruct (IsZero info); lia)) as (q & r & -> & Hr & Hrl & Hrv). cbn [mbind option_bind].
  assert (Hl : (length r <= ecBytes)%nat).
  { destruct Hrl as [Hz|]; [|lia]. destruct Hr as (_ & _ & [Hr|Hr]); [lia|]. unfold IsZero in Hz. lia. }
  assert (Hrb : bytes r) by apply Hr. exists (replicate (ecBytes - length r) 0 ++ r), cached'. split; [done|].
  assert (Hcb : bytes (replicate (ecBytes - length r) 0 ++ r)) by (apply Forall_app; split; [apply bytes_zeros|done]).
  assert (Hcl2 : length (replicate (ecBytes - length r) 0 ++ r) = ecBytes) by (rewrite length_app, length_replicate; lia).
  split_and!; [done|done| |done|done]. split; [by apply Forall_app|]. intros i Hi. rewrite (Exp_power primitive field Hfield) by lia.
  rewrite value_app, Hcl2 by gf. rewrite <-Hv by gf. rewrite value_app, value_zeros by gf. rewrite mul_0_l, Z.lxor_0_l, Hrv by gf. apply Z.lxor_nilpotent.
Qed.

(** ** The distance of code words *)

(** Sums of [c * x^r] over pairs of a coefficient [c] and a place [x]. *)
Fixpoint power_sum (l : list (Z * Z)) (r : nat) : Z :=
  match l with [] => 0 | (c, x) :: l' => c ⊗ xpow x r .^ power_sum l' r end.

Definition terms (l : list (Z * Z)) : Prop := Forall (λ t, byte t.1 ∧ byte t.2 ∧ t.1 ≠ 0) l.

Lemma power_sum_byte l r : terms l → byte (power_sum l r).
Proof. induction 1 as [|[c x] l (Hc & Hx & _) Hl IH]; cbn [power_sum fst snd] in *; gf. Qed.
#[local] Hint Resolve power_sum_byte : gf.

(** The place [x0] is eliminated. *)
Definition eliminate (x0 : Z) (l : list (Z * Z)) : list (Z * Z) := map (λ t, (t.1 ⊗ (t.2 .^ x0), t.2)) l.

Lemma power_sum_eliminate x0 l r : byte x0 → terms l → power_sum (eliminate x0 l) r = power_sum l (S r) .^ x0 ⊗ power_sum l r.
Proof.
  intros Hx0. induction 1 as [|[c x] l (Hc & Hx & _) Hl IH]; cbn [power_sum eliminate map fst snd] in *; [by rewrite mul_0_r|].
  change (map _ l) with (eliminate x0 l). rewrite IH. cbn [xpow].
  assert (Hs : byte (xpow x r)) by gf. assert (H1 : byte (power_sum l (S r))) by gf. assert (H2 : byte (power_sum l r)) by gf.
  rewrite mul_xor_r, mul_xor_l, (mul_xor_r x0) by gf.
  replace (c ⊗ x ⊗ xpow x r) with (c ⊗ (xpow x r ⊗ x)) by (rewrite <-mul_assoc, (mul_comm x) by gf; done).
  replace (c ⊗ x0 ⊗ xpow x r) with (x0 ⊗ (c ⊗ xpow x r)) by (rewrite (mul_comm c x0), mul_assoc by gf; done).
  rewrite !Z.lxor_assoc. f_equal. rewrite <-!Z.lxor_assoc. f_equal. apply Z.lxor_comm.
Qed.

Lemma eliminate_places x0 l : (eliminate x0 l).*2 = l.*2.
Proof. unfold eliminate. induction l as [|t l IH]; [done|]. cbn. by f_equal. Qed.

Lemma no_short_sum k : ∀ l, (length l <= k)%nat → terms l → NoDup l.*2 → (∀ r, (r < k)%nat → power_sum l r = 0) → l = [].
Proof.
  induction k as [|k IH]; intros l Hl Ht Hnd Hs; [destruct l; [done|cbn in Hl; lia]|]. destruct l as [|[c0 x0] l]; [done|exfalso].
  apply Forall_cons in Ht as [(Hc0 & Hx0 & Hne) Ht]. cbn [fst snd fmap list_fmap length] in *. apply NoDup_cons in Hnd as [Hnin Hnd].
  assert (Hr : ∀ r, (r < S k)%nat → power_sum l r = c0 ⊗ xpow x0 r) by (intros r Hr; symmetry; apply Z.lxor_eq; by apply Hs).
  assert (E : eliminate x0 l = []).
  { apply IH; [unfold eliminate; rewrite length_map; lia| |by rewrite eliminate_places|].
    - apply Forall_forall. intros t Hin. apply list_elem_of_fmap in Hin as ([c x] & -> & Hin). pose proof (proj1 (Forall_forall _ _) Ht _ Hin) as (Hc & Hx & Hcn). cbn [fst snd] in *.
      split_and!; [gf|done|]. intros Hz.
 destruct (mul_zero primitive field Hfield c (x .^ x0) Hc (xor_byte _ _ Hx Hx0) Hz) as [|E%Z.lxor_eq]; [done|].
      subst x. apply Hnin, list_elem_of_fmap. by exists (c, x0).
    - intros r Hrk. rewrite power_sum_eliminate, !Hr by (done || lia). cbn [xpow]. rewrite (mul_comm (xpow x0 r) x0), !mul_assoc, (mul_comm c0 x0) by gf. apply Z.lxor_nilpotent. }
  apply (f_equal length) in E. unfold eliminate in E. rewrite length_map in E. destruct l; [|done]. specialize (Hs 0%nat ltac:(lia)). cbn in Hs.
  rewrite Z.lxor_0_r, mul_comm, mul_1_l in Hs by gf. done.
Qed.

(** The places of the bytes of a word that are not zero. *)
Fixpoint places (w : list Z) : list (Z * Z) :=
  match w with [] => [] | c :: w' => if c =? 0 then places w' else (c, power (zlen w')) :: places w' end.
Definition weight (w : list Z) : nat := length (filter (λ c, c ≠ 0) w).

Lemma length_places w : length (places w) = weight w.
Proof.
  unfold weight. induction w as [|c w IH]; [done|]. cbn [places]. rewrite filter_cons. destruct (Z.eqb_spec c 0) as [->|Hne].
  - rewrite decide_False by (intros H; by apply H). done.
  - rewrite decide_True by done. cbn [length]. by rewrite IH.
Qed.

Lemma places_terms w : bytes w → terms (places w).
Proof.
  induction 1 as [|c w Hc Hw IH]; [constructor|]. cbn [places]. destruct (Z.eqb_spec c 0); [done|]. constructor; [|done]. cbn [fst snd]. split_and!; [done|gf|done].
Qed.

Lemma places_below w x : x ∈ (places w).*2 → ∃ m, 0 <= m < zlen w ∧ x = power m.
Proof.
  induction w as [|c w IH]; cbn [places]; [by intros ?%elem_of_nil|]. rewrite zlen_cons. pose proof (zlen_nonneg w).
  intros Hin. assert (Hc : x = power (zlen w) ∨ x ∈ (places w).*2).
  { destruct (c =? 0); [by right|]. cbn in Hin. apply elem_of_cons in Hin as [->|]; [by left|by right]. }
  destruct Hc as [->|Hc]; [exists (zlen w); lia|]. destruct (IH Hc) as (m & Hm & ->). exists m. lia.
Qed.

Lemma places_NoDup w : zlen w <= 255 → NoDup (places w).*2.
Proof.
  induction w as [|c w IH]; intros Hl; [constructor|]. rewrite zlen_cons in Hl. cbn [places]. destruct (c =? 0); [apply IH; lia|]. cbn. constructor; [|apply IH; lia].
  intros (m & Hm & E)%places_below. apply (power_inj primitive field Hfield) in E; lia.
Qed.

Lemma xpow_power m i : 0 <= m → xpow (power (Z.of_nat i)) (Z.to_nat m) = xpow (power m) i.
Proof.
  intros Hm. assert (Hp : ∀ a n, xpow (power a) n = power (a * Z.of_nat n)).
  { intros a n. induction n as [|n IH]; cbn [xpow]; [rewrite Z.mul_0_r; symmetry; apply (power_0 primitive field Hfield)|].
    rewrite IH, (mul_power primitive field Hfield). f_equal. lia. }
  rewrite !Hp. f_equal. lia.
Qed.

Lemma value_places w i : bytes w → value w (power (Z.of_nat i)) = power_sum (places w) i.
Proof.
  induction 1 as [|c w Hc Hw IH]; [done|]. rewrite value_cons, IH by gf. cbn [places]. destruct (Z.eqb_spec c 0) as [->|]; [by rewrite mul_0_l|].
  cbn [power_sum]. rewrite <-(xpow_power (zlen w)) by apply zlen_nonneg. unfold zlen. by rewrite Nat2Z.id.
Qed.

(** A word that is a code word and not zero has more than [ecBytes] bytes that are not zero. *)
Lemma codeword_weight ecBytes w : codeword ecBytes w → zlen w <= 255 → (ecBytes <= 255)%nat → (weight w <= ecBytes)%nat → Forall (.= 0) w.
Proof.
  intros [Hb Hz] Hl Hec Hw. assert (E : places w = []).
  { apply (no_short_sum ecBytes); [by rewrite length_places|by apply places_terms|by apply places_NoDup|].
    intros r Hr. rewrite <-value_places, <-(Exp_power primitive field Hfield) by (done || lia). by apply Hz. }
  clear Hz Hb Hl Hw. induction w as [|c w IH]; [constructor|]. cbn [places] in E. destruct (Z.eqb_spec c 0); [|done]. constructor; [done|by apply IH].
Qed.

(** How many places two words differ in. *)
Definition distance (v w : list Z) : nat := weight (zip_with AddOrSubtract v w).

Lemma codewords_apart ecBytes v w : codeword ecBytes v → codeword ecBytes w → length v = length w → zlen v <= 255 → (ecBytes <= 255)%nat →
  v ≠ w → (ecBytes < distance v w)%nat.
Proof.
  intros [Hv Hzv] [Hw Hzw] Hl Hlen Hec Hne. destruct (decide (ecBytes < distance v w)%nat) as [|Hge]; [done|]. exfalso. apply Hne.
  assert (H0 : Forall (.= 0) (zip_with AddOrSubtract v w)).
  { apply (codeword_weight ecBytes); [|unfold zlen in *; rewrite length_zip_with; lia|done|unfold distance in Hge; lia]. split; [by apply zip_bytes|].
    intros i Hi. specialize (Hzv i Hi). specialize (Hzw i Hi). rewrite (Exp_power primitive field Hfield) in * by lia. rewrite value_zip, Hzv, Hzw by gf. done. }
  clear -Hl H0. revert w Hl H0. induction v as [|a v IH]; intros [|b w] Hl H0; [done..|]. cbn [zip_with] in H0. apply Forall_cons in H0 as [E H0].
  f_equal; [by apply Z.lxor_eq|]. apply IH; [by injection Hl|done].
Qed.
End values.

(** C7: blocks of data of at most 255 bytes with their check bytes, in the field of
    the QR code: the check bytes complete the data to a word that vanishes at the
    first [ecBytes] powers of the generator, and the words of different data
    differ in more than [ecBytes] places. *)
Theorem reed_solomon_distance data1 data2 ecBytes : bytes data1 → bytes data2 → length data1 = length data2 → data1 ≠ data2 →
  (0 < ecBytes)%nat → (length data1 + ecBytes <= 255)%nat →
  ∃ check1 check2 cached1 cached2,
    rs_Encode g_QRCodeField (data1 ++ replicate ecBytes 0) ecBytes m_cachedGenerators_init = Some (data1 ++ check1, cached1) ∧
    rs_Encode g_QRCodeField (data2 ++ replicate ecBytes 0) ecBytes cached1 = Some (data2 ++ check2, cached2) ∧
    codeword g_QRCodeField ecBytes (data1 ++ check1) ∧ codeword g_QRCodeField ecBytes (data2 ++ check2) ∧
    length check1 = ecBytes ∧ length check2 = ecBytes ∧ (ecBytes < distance (data1 ++ check1) (data2 ++ check2))%nat.
Proof.
  intros H1 H2 Hl Hne Hec Hlen. assert (Hpos : (0 < length data1)%nat) by (destruct data1, data2; [done..|cbn; lia]).
  assert (He : ∀ data cached, bytes data → length data = length data1 → cache_ok g_QRCodeField cached → (length cached <= 256)%nat →
    ∃ check cached', rs_Encode g_QRCodeField (data ++ replicate ecBytes 0) ecBytes cached = Some (data ++ check, cached') ∧ length check = ecBytes ∧
      codeword g_QRCodeField ecBytes (data ++ check) ∧ cache_ok g_QRCodeField cached' ∧ (length cached' <= 256)%nat).
  { intros data cached Hd Hdl Hc Hcl.
    destruct (rs_Encode_spec 0x11D g_QRCodeField qr_field_check (data ++ replicate ecBytes 0) ecBytes cached Hc Hcl) as (check & cached' & E & Hcl' & _ & Hw & Hc');
      [apply Forall_app; split; [done|apply Forall_replicate, fits_0]|rewrite length_app, length_replicate; lia|lia|].
    rewrite length_app, length_replicate in E, Hw. replace (length data + ecBytes - ecBytes)%nat with (length data) in E, Hw by lia.
    rewrite take_app_length in E, Hw. by exists check, cached'. }
  destruct (He data1 m_cachedGenerators_init H1 eq_refl (cache_init 0x11D g_QRCodeField)) as (c1 & k1 & E1 & L1 & W1 & K1 & K1'); [cbn; lia|].
  destruct (He data2 k1 H2 (eq_sym Hl) K1 K1') as (c2 & k2 & E2 & L2 & W2 & _).
  exists c1, c2, k1, k2. split_and!; [done..|]. apply (codewords_apart 0x11D g_QRCodeField qr_field_check); [done|done| | |lia|].
  - rewrite !length_app. lia.
  - unfold zlen. rewrite length_app. lia.
  - intros E. apply app_inj_1 in E as [? _]; [done|lia].
Qed.

Lemma reed_solomon_distance_witness : ∃ check1 check2 : list Z,
  fst <$> rs_Encode g_QRCodeField [0x40; 0x56; 0; 0; 0] 3 m_cachedGenerators_init = Some ([0x40; 0x56] ++ check1) ∧ lt 3 (distance ([0x40; 0x56] ++ check1) ([0x40; 0x57] ++ check2)).
Proof.
  destruct (reed_solomon_distance [0x40; 0x56] [0x40; 0x57] 3) as (c1 & c2 & k1 & k2 & E & _ & _ & _ & _ & _ & H); [solve_bytes|solve_bytes|done|done|lia|cbn; lia|].
  exists c1, c2. cbn [app replicate] in E. rewrite E. split; [done|exact H].
Defined.
