(* ===== verification/QrTables.v ===== *)
(** * Tables of the QR code

    The numbers of blocks and code words of every version and level
    ([fxbarcode/qrcode/BC_QRCoderECBlocksData.cpp]), the codes of the alphanumeric
    mode ([BC_QRCoderEncoder.cpp]), and the patterns and places of a symbol
    ([BC_QRCoderMatrixUtil.cpp]). *)
From S2P Require Import Prelude.

Record CBC_QRCoderECBlockData := ECB { ecCodeWordsPerBlock : Z; count1 : Z; dataCodeWords1 : Z; count2 : Z; dataCodeWords2 : Z }.

Definition kECBData : list (list CBC_QRCoderECBlockData) := [
  [ECB 7 1 19 0 0; ECB 10 1 16 0 0; ECB 13 1 13 0 0; ECB 17 1 9 0 0];
  [ECB 10 1 34 0 0; ECB 16 1 28 0 0; ECB 22 1 22 0 0; ECB 28 1 16 0 0];
  [ECB 15 1 55 0 0; ECB 26 1 44 0 0; ECB 18 2 17 0 0; ECB 22 2 13 0 0];
  [ECB 20 1 80 0 0; ECB 18 2 32 0 0; ECB 26 2 24 0 0; ECB 16 4 9 0 0];
  [ECB 26 1 108 0 0; ECB 24 2 43 0 0; ECB 18 2 15 2 16; ECB 22 2 11 2 12];
  [ECB 18 2 68 0 0; ECB 16 4 27 0 0; ECB 24 4 19 0 0; ECB 28 4 15 0 0];
  [ECB 20 2 78 0 0; ECB 18 4 31 0 0; ECB 18 2 14 4 15; ECB 26 4 13 1 14];
  [ECB 24 2 97 0 0; ECB 22 2 38 2 39; ECB 22 4 18 2 19; ECB 26 4 14 2 15];
  [ECB 30 2 116 0 0; ECB 22 3 36 2 37; ECB 20 4 16 4 17; ECB 24 4 12 4 13];
  [ECB 18 2 68 2 69; ECB 26 4 43 1 44; ECB 24 6 19 2 20; ECB 28 6 15 2 16];
  [ECB 20 4 81 0 0; ECB 30 1 50 4 51; ECB 28 4 22 4 23; ECB 24 3 12 8 13];
  [ECB 24 2 92 2 93; ECB 22 6 36 2 37; ECB 26 4 20 6 21; ECB 28 7 14 4 15];
  [ECB 26 4 107 0 0; ECB 22 8 37 1 38; ECB 24 8 20 4 21; ECB 22 12 11 4 12];
  [ECB 30 3 115 1 116; ECB 24 4 40 5 41; ECB 20 11 16 5 17; ECB 24 11 12 5 13];
  [ECB 22 5 87 1 88; ECB 24 5 41 5 42; ECB 30 5 24 7 25; ECB 24 11 12 7 13];
  [ECB 24 5 98 1 99; ECB 28 7 45 3 46; ECB 24 15 19 2 20; ECB 30 3 15 13 16];
  [ECB 28 1 107 5 108; ECB 28 10 46 1 47; ECB 28 1 22 15 23; ECB 28 2 14 17 15];
  [ECB 30 5 120 1 121; ECB 26 9 43 4 44; ECB 28 17 22 1 23; ECB 28 2 14 19 15];
  [ECB 28 3 113 4 114; ECB 26 3 44 11 45; ECB 26 17 21 4 22; ECB 26 9 13 16 14];
  [ECB 28 3 107 5 108; ECB 26 3 41 13 42; ECB 30 15 24 5 25; ECB 28 15 15 10 16];
  [ECB 28 4 116 4 117; ECB 26 17 42 0 0; ECB 28 17 22 6 23; ECB 30 19 16 6 17];
  [ECB 28 2 111 7 112; ECB 28 17 46 0 0; ECB 30 7 24 16 25; ECB 24 34 13 0 0];
  [ECB 30 4 121 5 122; ECB 28 4 47 14 48; ECB 30 11 24 14 25; ECB 30 16 15 14 16];
  [ECB 30 6 117 4 118; ECB 28 6 45 14 46; ECB 30 11 24 16 25; ECB 30 30 16 2 17];
  [ECB 26 8 106 4 107; ECB 28 8 47 13 48; ECB 30 7 24 22 25; ECB 30 22 15 13 16];
  [ECB 28 10 114 2 115; ECB 28 19 46 4 47; ECB 28 28 22 6 23; ECB 30 33 16 4 17];
  [ECB 30 8 122 4 123; ECB 28 22 45 3 46; ECB 30 8 23 26 24; ECB 30 12 15 28 16];
  [ECB 30 3 117 10 118; ECB 28 3 45 23 46; ECB 30 4 24 31 25; ECB 30 11 15 31 16];
  [ECB 30 7 116 7 117; ECB 28 21 45 7 46; ECB 30 1 23 37 24; ECB 30 19 15 26 16];
  [ECB 30 5 115 10 116; ECB 28 19 47 10 48; ECB 30 15 24 25 25; ECB 30 23 15 25 16];
  [ECB 30 13 115 3 116; ECB 28 2 46 29 47; ECB 30 42 24 1 25; ECB 30 23 15 28 16];
  [ECB 30 17 115 0 0; ECB 28 10 46 23 47; ECB 30 10 24 35 25; ECB 30 19 15 35 16];
  [ECB 30 17 115 1 116; ECB 28 14 46 21 47; ECB 30 29 24 19 25; ECB 30 11 15 46 16];
  [ECB 30 13 115 6 116; ECB 28 14 46 23 47; ECB 30 44 24 7 25; ECB 30 59 16 1 17];
  [ECB 30 12 121 7 122; ECB 28 12 47 26 48; ECB 30 39 24 14 25; ECB 30 22 15 41 16];
  [ECB 30 6 121 14 122; ECB 28 6 47 34 48; ECB 30 46 24 10 25; ECB 30 2 15 64 16];
  [ECB 30 17 122 4 123; ECB 28 29 46 14 47; ECB 30 49 24 10 25; ECB 30 24 15 46 16];
  [ECB 30 4 122 18 123; ECB 28 13 46 32 47; ECB 30 48 24 14 25; ECB 30 42 15 32 16];
  [ECB 30 20 117 4 118; ECB 28 40 47 7 48; ECB 30 43 24 22 25; ECB 30 10 15 67 16];
  [ECB 30 19 118 6 119; ECB 28 18 47 31 48; ECB 30 34 24 34 25; ECB 30 20 15 61 16]].

(** From 32 on. *)
Definition kAlphaNumericTable : list Z := [
  36; -1; -1; -1; 37; 38; -1; -1; -1; -1; 39; 40; -1; 41; 42; 43;
  0; 1; 2; 3; 4; 5; 6; 7; 8; 9; 44; -1; -1; -1; -1; -1;
  -1; 10; 11; 12; 13; 14; 15; 16; 17; 18; 19; 20; 21; 22; 23; 24;
  25; 26; 27; 28; 29; 30; 31; 32; 33; 34; 35].

Definition POSITION_DETECTION_PATTERN : list (list Z) := [
  [1; 1; 1; 1; 1; 1; 1];
  [1; 0; 0; 0; 0; 0; 1];
  [1; 0; 1; 1; 1; 0; 1];
  [1; 0; 1; 1; 1; 0; 1];
  [1; 0; 1; 1; 1; 0; 1];
  [1; 0; 0; 0; 0; 0; 1];
  [1; 1; 1; 1; 1; 1; 1]].

Definition POSITION_ADJUSTMENT_PATTERN : list (list Z) := [
  [1; 1; 1; 1; 1];
  [1; 0; 0; 0; 1];
  [1; 0; 1; 0; 1];
  [1; 0; 0; 0; 1];
  [1; 1; 1; 1; 1]].

(** From version 2 on; the places behind the last one are 0. *)
Definition kPositionAdjustmentPatternCoordinates : list (list Z) := [
  [6; 18; 0; 0; 0; 0; 0];
  [6; 22; 0; 0; 0; 0; 0];
  [6; 26; 0; 0; 0; 0; 0];
  [6; 30; 0; 0; 0; 0; 0];
  [6; 34; 0; 0; 0; 0; 0];
  [6; 22; 38; 0; 0; 0; 0];
  [6; 24; 42; 0; 0; 0; 0];
  [6; 26; 46; 0; 0; 0; 0];
  [6; 28; 50; 0; 0; 0; 0];
  [6; 30; 54; 0; 0; 0; 0];
  [6; 32; 58; 0; 0; 0; 0];
  [6; 34; 62; 0; 0; 0; 0];
  [6; 26; 46; 66; 0; 0; 0];
  [6; 26; 48; 70; 0; 0; 0];
  [6; 26; 50; 74; 0; 0; 0];
  [6; 30; 54; 78; 0; 0; 0];
  [6; 30; 56; 82; 0; 0; 0];
  [6; 30; 58; 86; 0; 0; 0];
  [6; 34; 62; 90; 0; 0; 0];
  [6; 28; 50; 72; 94; 0; 0];
  [6; 26; 50; 74; 98; 0; 0];
  [6; 30; 54; 78; 102; 0; 0];
  [6; 28; 54; 80; 106; 0; 0];
  [6; 32; 58; 84; 110; 0; 0];
  [6; 30; 58; 86; 114; 0; 0];
  [6; 34; 62; 90; 118; 0; 0];
  [6; 26; 50; 74; 98; 122; 0];
  [6; 30; 54; 78; 102; 126; 0];
  [6; 26; 52; 78; 104; 130; 0];
  [6; 30; 56; 82; 108; 134; 0];
  [6; 34; 60; 86; 112; 138; 0];
  [6; 30; 58; 86; 114; 142; 0];
  [6; 34; 62; 90; 118; 146; 0];
  [6; 30; 54; 78; 102; 126; 150];
  [6; 24; 50; 76; 102; 128; 154];
  [6; 28; 54; 80; 106; 132; 158];
  [6; 32; 58; 84; 110; 136; 162];
  [6; 26; 54; 82; 110; 138; 166];
  [6; 30; 58; 86; 114; 142; 170]].

Definition TYPE_INFO_COORDINATES : list (list Z) := [
  [8; 0];
  [8; 1];
  [8; 2];
  [8; 3];
  [8; 4];
  [8; 5];
  [8; 7];
  [8; 8];
  [7; 8];
  [5; 8];
  [4; 8];
  [3; 8];
  [2; 8];
  [1; 8];
  [0; 8]].

Definition VERSION_INFO_POLY : Z := 0x1f25.
Definition TYPE_INFO_POLY : Z := 0x0537.
Definition TYPE_INFO_MASK_PATTERN : Z := 0x5412.

(** An entry of a table with two indices. *)
Definition entry (t : list (list Z)) (i j : Z) : Z := (nth (Z.to_nat i) t []).[j].
