(* ===== verification/QrBits.v ===== *)
(** * Vectors of bits

    [CBC_QRCoderBitVector] ([fxbarcode/qrcode/BC_QRCoderBitVector.cpp]): bits are
    appended to an array of bytes, the most significant bit first. *)
From S2P Require Import Prelude BitStream FaxTables Fax FaxBits FaxCodes.

Record CBC_QRCoderBitVector := BitVector { m_sizeInBits : Z; m_array : list Z }.
Definition bit_vector_new : CBC_QRCoderBitVector := BitVector 0 [].

(** The [CHECK] of the index holds wherever it is called. *)
Definition At (index : Z) (v : CBC_QRCoderBitVector) : Z := ((m_array v).[index .>> 3] .>> (7 - (index .& 7))) .& 1.
Definition sizeInBytes (v : CBC_QRCoderBitVector) : Z := (m_sizeInBits v + 7) .>> 3.

Definition AppendByte (value : Z) (v : CBC_QRCoderBitVector) : CBC_QRCoderBitVector :=
  let array := if m_sizeInBits v .>> 3 =? zlen (m_array v) then m_array v ++ [0] else m_array v in
  BitVector (m_sizeInBits v + 8) (wr array (m_sizeInBits v .>> 3) (u8 value)).

Definition AppendBit (bit : Z) (v : CBC_QRCoderBitVector) : CBC_QRCoderBitVector :=
  let numBitsInLastByte := m_sizeInBits v .& 7 in
  let array := if numBitsInLastByte =? 0 then m_array (AppendByte 0 v) else m_array v in
  let i := m_sizeInBits v .>> 3 in
  BitVector (m_sizeInBits v + 1) (wr array i (u8 (array.[i] .| (bit .<< (7 - numBitsInLastByte))))).

Fixpoint append_bits (fuel : nat) (value numBitsLeft : Z) (v : CBC_QRCoderBitVector) : CBC_QRCoderBitVector :=
  match fuel with
  | O => v
  | S fuel' =>
      if numBitsLeft <=? 0 then v
      else if (m_sizeInBits v .& 7 =? 0) && (8 <=? numBitsLeft)
      then append_bits fuel' value (numBitsLeft - 8) (AppendByte ((value .>> (numBitsLeft - 8)) .& 0xff) v)
      else append_bits fuel' value (numBitsLeft - 1) (AppendBit ((value .>> (numBitsLeft - 1)) .& 1) v)
  end.
Definition AppendBits (value numBits : Z) (v : CBC_QRCoderBitVector) : CBC_QRCoderBitVector :=
  append_bits (Z.to_nat numBits) value numBits v.

Definition AppendBitVector (bits v : CBC_QRCoderBitVector) : CBC_QRCoderBitVector :=
  fold_left (λ v i, AppendBit (At i bits) v) (seqZ 0 (m_sizeInBits bits)) v.

Definition XOR (other v : CBC_QRCoderBitVector) : option CBC_QRCoderBitVector :=
  if negb (m_sizeInBits v =? m_sizeInBits other) then None
  else Some (BitVector (m_sizeInBits v) (zip_with Z.lxor (m_array v) (m_array other))).

(** ** The bits that a vector holds *)
Record holds (v : CBC_QRCoderBitVector) (l : list bool) : Prop := {
  holds_size : m_sizeInBits v = zlen l;
  holds_bytes : bytes (m_array v);
  holds_length : zlen (m_array v) = (zlen l + 7) / 8;
  holds_bits : ∀ i, 0 <= i → bit_at (m_array v) i = default false (l !! Z.to_nat i);
}.

Lemma holds_new : holds bit_vector_new [].
Proof. split; [done|constructor|done|]. intros i Hi. rewrite bit_at_testbit by done. unfold rd. cbn [m_array bit_vector_new]. destruct (Z.to_nat (i / 8)); apply Z.bits_0. Qed.

Lemma shr3 z : z .>> 3 = z / 8.
Proof. by rewrite Z.shiftr_div_pow2 by lia. Qed.
Lemma and7 z : z .& 7 = z mod 8.
Proof. change 7 with (2 ^ 3 - 1). by rewrite land_ones_mod. Qed.

Lemma bit_at_zero_end a i : 0 <= i → bit_at (a ++ [0]) i = bit_at a i.
Proof.
  intros Hi. rewrite !bit_at_testbit by done. f_equal. pose proof (Z.div_pos i 8 Hi ltac:(lia)) as Hq. set (q := i / 8) in *. destruct (decide (q < zlen a)); [by rewrite rd_app_l by lia|].
  replace q with (zlen a + (q - zlen a)) at 1 by lia. rewrite rd_app_r by lia. unfold rd at 2. rewrite nth_overflow by (unfold zlen in *; lia).
  unfold rd. destruct (Z.to_nat (q - zlen a)) as [|[|?]]; done.
Qed.

Lemma AppendBit_holds b v l : holds v l → holds (AppendBit (Z.b2z b) v) (l ++ [b]).
Proof.
  intros [H1 H2 H3 H4]. pose proof (zlen_nonneg l) as Hl. unfold AppendBit. rewrite shr3, and7.
  set (array := if _ =? 0 then _ else _).
  assert (Ha : bytes array ∧ zlen array = (zlen l + 8) / 8 ∧ ∀ i, 0 <= i → bit_at array i = bit_at (m_array v) i).
  { unfold array. rewrite H1. destruct (Z.eqb_spec (zlen l mod 8) 0) as [E|E]; [|split_and!; [done|rewrite H3; Z.div_mod_to_equations; lia|done]].
    unfold AppendByte. rewrite shr3, H1, H3. replace (zlen l / 8 =? (zlen l + 7) / 8) with true by (symmetry; apply Z.eqb_eq; Z.div_mod_to_equations; lia). cbn [m_array].
    assert (Ew : wr (m_array v ++ [0]) (zlen l / 8) (u8 0) = m_array v ++ [0]).
    { unfold wr. apply list_insert_id. rewrite lookup_app_r by (unfold zlen in *; Z.div_mod_to_equations; lia).
      replace (_ - _)%nat with 0%nat; [done|]. unfold zlen in *. Z.div_mod_to_equations; lia. }
    rewrite Ew. split_and!; [apply Forall_app; split; [done|solve_bytes]|rewrite zlen_app, H3; change (zlen [0]) with 1; Z.div_mod_to_equations; lia|].
    intros i Hi. by apply bit_at_zero_end. }
  clearbody array. destruct Ha as (Hb & Hal & Hbits). rewrite H1. destruct (bit_at_split (zlen l) Hl) as (q & k & E & Hq & Hk & Eq & Ek). rewrite Eq, Ek.
  assert (Hv : byte (array.[q] .| (Z.b2z b .<< (7 - k)))).
  { apply fits_lor; [lia|by apply bytes_rd|]. destruct b; cbn [Z.b2z]; [|rewrite Z.shiftl_0_l; unfold fits; lia]. rewrite Z.shiftl_1_l. split; [lia|]. apply Z.pow_lt_mono_r; lia. }
  assert (Hqa : 0 <= q < zlen array) by (rewrite Hal; Z.div_mod_to_equations; lia). rewrite (fits_small 8) by done.
  constructor; cbn [m_sizeInBits m_array].
  - by rewrite zlen_app.
  - by apply bytes_wr.
  - rewrite zlen_wr, Hal, zlen_app. change (zlen [b]) with 1. f_equal. lia.
  - intros i Hi. rewrite bit_at_wr by lia. destruct (bit_at_split i Hi) as (q' & j & Ei & Hq' & Hj & -> & ->).
    assert (Eb : Z.testbit (array.[q] .| (Z.b2z b .<< (7 - k))) (7 - j) = (b && (j =? k)) || Z.testbit array.[q] (7 - j)).
    { destruct b; cbn [Z.b2z andb]; [by apply set_bit_testbit|]. by rewrite Z.shiftl_0_l, Z.lor_0_r. }
    destruct (decide (i = zlen l)) as [->|Hne].
    + replace (q' =? q) with true by lia. rewrite Eb. replace (j =? k) with true by lia.
      assert (Ez : Z.testbit array.[q] (7 - j) = false).
      { rewrite <-bit_at_byte by lia. replace (8 * q + j) with (zlen l) by lia. rewrite Hbits, H4 by lia. by rewrite lookup_ge_None_2 by (unfold zlen; lia). }
      unfold zlen. rewrite Ez, Nat2Z.id, lookup_app_r, Nat.sub_diag by lia. cbn. by destruct b.
    + assert (E2 : default false ((l ++ [b]) !! Z.to_nat i) = bit_at array i).
      { rewrite Hbits, H4 by done. destruct (decide (i < zlen l)); [by rewrite lookup_app_l by (unfold zlen in *; lia)|].
        rewrite !lookup_ge_None_2; [done|unfold zlen in *; lia|rewrite length_app; unfold zlen in *; cbn; lia]. }
      rewrite E2. destruct (Z.eqb_spec q' q) as [->|]; [|done]. rewrite Eb. replace (j =? k) with false by lia.
      rewrite andb_false_r. cbn [orb]. by rewrite Ei, bit_at_byte by lia.
Qed.

Lemma AppendByte_holds x v l : holds v l → zlen l mod 8 = 0 → holds (AppendByte x v) (l ++ put_bits 8 x).
Proof.
  intros [H1 H2 H3 H4] Hm. pose proof (zlen_nonneg l) as Hl. unfold AppendByte. rewrite shr3, H1, H3.
  assert (Eq : (zlen l + 7) / 8 = zlen l / 8) by (Z.div_mod_to_equations; lia). rewrite Eq, Z.eqb_refl in *.
  assert (Ew : wr (m_array v ++ [0]) (zlen l / 8) (u8 x) = m_array v ++ [u8 x]).
  { unfold wr. rewrite insert_app_r_alt by (unfold zlen in *; lia). f_equal. replace (_ - _)%nat with 0%nat by (unfold zlen in *; lia). done. }
  rewrite Ew. constructor; cbn [m_sizeInBits m_array].
  - rewrite zlen_app. f_equal.
  - apply Forall_app. split; [done|]. constructor; [apply fits_mod; lia|constructor].
  - rewrite !zlen_app, H3. change (zlen [_]) with 1. change (zlen (put_bits 8 x)) with 8. Z.div_mod_to_equations; lia.
  - intros i Hi. destruct (decide (i < zlen l)).
    + rewrite lookup_app_l by (unfold zlen in *; lia). rewrite <-H4 by done. rewrite !bit_at_testbit by done. by rewrite rd_app_l by (Z.div_mod_to_equations; lia).
    + destruct (bit_at_split i Hi) as (q & j & -> & Hq & Hj & _). rewrite bit_at_byte by lia. rewrite lookup_app_r by (unfold zlen in *; lia).
      destruct (decide (q = zlen (m_array v))) as [->|Hne].
      * rewrite rd_snoc. change (2 ^ 8) with (2 ^ 8). rewrite Z.mod_pow2_bits_low by lia.
        replace (Z.to_nat (8 * zlen (m_array v) + j) - length l)%nat with (Z.to_nat j) by (unfold zlen in *; Z.div_mod_to_equations; lia).
        assert (Hc : j = 0 ∨ j = 1 ∨ j = 2 ∨ j = 3 ∨ j = 4 ∨ j = 5 ∨ j = 6 ∨ j = 7) by lia.
        destruct Hc as [->|[->|[->|[->|[->|[->|[->| ->]]]]]]]; reflexivity.
      * rewrite lookup_ge_None_2 by (rewrite length_put_bits; unfold zlen in *; Z.div_mod_to_equations; lia).
        unfold rd. rewrite nth_overflow by (rewrite length_app; unfold zlen in *; cbn; Z.div_mod_to_equations; lia). apply Z.bits_0.
Qed.

Lemma append_bits_holds value fuel : ∀ n v l, (n <= fuel)%nat → holds v l → holds (append_bits fuel value (Z.of_nat n) v) (l ++ put_bits n value).
Proof.
  induction fuel as [|fuel IH]; intros n v l Hf Hv; cbn [append_bits]; [replace n with 0%nat by lia; by rewrite app_nil_r|].
  destruct (Z.leb_spec (Z.of_nat n) 0); [replace n with 0%nat by lia; by rewrite app_nil_r|]. rewrite and7. destruct (_ && _) eqn:E.
  - rewrite andb_true_iff, Z.eqb_eq, Z.leb_le, (holds_size v l Hv) in E. destruct E as [Em En].
    replace n with (8 + (n - 8))%nat at 3 by lia. rewrite put_bits_app, app_assoc.
    replace (Z.of_nat n - 8) with (Z.of_nat (n - 8)) by lia. apply IH; [lia|].
    assert (Eb : put_bits 8 (value .>> Z.of_nat (n - 8)) = put_bits 8 ((value .>> Z.of_nat (n - 8)) .& 0xff)).
    { cbn [put_bits]. change 0xff with (Z.ones 8). rewrite !Z.land_spec, !Z.ones_spec_low, !andb_true_r by lia. done. }
    rewrite Eb. by apply AppendByte_holds.
  - destruct n as [|n]; [lia|]. cbn [put_bits]. change (?b :: ?r) with ([b] ++ r). rewrite app_assoc.
    replace (Z.of_nat (S n) - 1) with (Z.of_nat n) by lia. apply IH; [lia|].
    assert (Eb : (value .>> Z.of_nat n) .& 1 = Z.b2z (Z.testbit value (Z.of_nat n))).
    { change 1 with (2 ^ 1 - 1) at 1. rewrite land_ones_mod by lia. rewrite Z.testbit_spec' by lia. by rewrite Z.shiftr_div_pow2 by lia. }
    rewrite Eb. by apply AppendBit_holds.
Qed.

Lemma AppendBits_holds value n v l : 0 <= n → holds v l → holds (AppendBits value n v) (l ++ put_bits (Z.to_nat n) value).
Proof. intros Hn Hv. unfold AppendBits. rewrite <-(Z2Nat.id n Hn) at 2. by apply append_bits_holds. Qed.

Lemma At_holds i v l : holds v l → 0 <= i → At i v = Z.b2z (default false (l !! Z.to_nat i)).
Proof.
  intros Hv Hi. rewrite <-(holds_bits v l Hv) by done. rewrite bit_at_testbit by done. unfold At. rewrite shr3, and7.
  change 1 with (2 ^ 1 - 1) at 1. rewrite land_ones_mod by lia. pose proof (Z.mod_pos_bound i 8 ltac:(lia)). rewrite Z.testbit_spec' by lia. by rewrite Z.shiftr_div_pow2 by lia.
Qed.

Lemma AppendBitVector_holds bits b v l : holds bits b → holds v l → holds (AppendBitVector bits v) (l ++ b).
Proof.
  intros Hb Hv. unfold AppendBitVector. rewrite (holds_size bits b Hb).
  assert (Hn : ∀ n, (n <= length b)%nat → holds (fold_left (λ v i, AppendBit (At i bits) v) (seqZ 0 (Z.of_nat n)) v) (l ++ take n b)).
  { induction n as [|n IH]; intros Hle; [by rewrite take_0, app_nil_r|]. rewrite seqZ_S, fold_left_app.
    destruct (lookup_lt_is_Some_2 b n ltac:(lia)) as [c Ec]. rewrite (take_S_r _ _ _ Ec), app_assoc. cbn [fold_left].
    rewrite (At_holds _ _ _ Hb), Z.add_0_l, Nat2Z.id by lia. rewrite Ec. cbn [default]. apply AppendBit_holds, IH. lia. }
  specialize (Hn (length b) ltac:(lia)). by rewrite take_ge in Hn by lia.
Qed.

Lemma XOR_holds other o v l : holds other o → holds v l → length o = length l → ∃ r, XOR other v = Some r ∧ holds r (zip_with xorb l o).
Proof.
  intros Ho Hv Hl. unfold XOR. rewrite (holds_size _ _ Ho), (holds_size _ _ Hv). unfold zlen. rewrite Hl, Z.eqb_refl. cbn [negb]. eexists. split; [done|].
  destruct Ho as [O1 O2 O3 O4], Hv as [V1 V2 V3 V4].
  assert (Ela : length (m_array v) = length (m_array other)) by (unfold zlen in *; rewrite Hl in *; lia).
  assert (El : length (zip_with xorb l o) = length l) by (rewrite length_zip_with; lia). constructor; cbn [m_sizeInBits m_array].
  - unfold zlen. by rewrite El.
  - clear -V2 O2 Ela. revert O2 Ela. generalize (m_array other). induction V2 as [|x a Hx Ha IH]; intros [|y b] Hb El; [constructor|done|done|].
    cbn. apply Forall_cons in Hb as [Hy Hb]. constructor; [by apply fits_lxor|]. apply IH; [done|by injection El].
  - unfold zlen in *. rewrite length_zip_with, El. rewrite Ela, Nat.min_id. rewrite O3, Hl. done.
  - intros i Hi. assert (E : bit_at (zip_with Z.lxor (m_array v) (m_array other)) i = xorb (bit_at (m_array v) i) (bit_at (m_array other) i)).
    { rewrite !bit_at_testbit by done. rewrite <-Z.lxor_spec. f_equal. unfold rd. clear -Ela. revert Ela. generalize (m_array other). generalize (Z.to_nat (i / 8)).
      induction (m_array v) as [|x a IH]; intros [|n] [|y b] El; try done. cbn. apply IH. by injection El. }
    rewrite E, V4, O4 by done. rewrite lookup_zip_with. destruct (l !! Z.to_nat i) eqn:E1, (o !! Z.to_nat i) eqn:E2; cbn; try done.
    + apply lookup_ge_None in E2. apply lookup_lt_Some in E1. lia.
    + apply lookup_ge_None in E1. apply lookup_lt_Some in E2. lia.
Qed.
