(* ===== verification/QrMatrix.v ===== *)
(** * The symbol of a QR code

    [CBC_CommonByteMatrix] ([fxbarcode/common/BC_CommonByteMatrix.cpp]),
    [CBC_QRCoderMatrixUtil::BuildMatrix] ([fxbarcode/qrcode/BC_QRCoderMatrixUtil.cpp])
    and [CBC_QRCoderMaskUtil] ([BC_QRCoderMaskUtil.cpp]): the patterns of a symbol,
    the bits between them, and the penalties of masks.  A function that returns
    false is [None]. *)
From Stdlib Require Import SpecFloat.
From S2P Require Import Prelude BitStream QrTables QrBits.

Record CBC_CommonByteMatrix := ByteMatrix { m_width : Z; m_height : Z; m_bytes : list Z }.

Definition byte_matrix_new (width height : Z) : CBC_CommonByteMatrix :=
  ByteMatrix width height (replicate (Z.to_nat (height * width)) 0xff).
Definition matrix_Get (x y : Z) (m : CBC_CommonByteMatrix) : Z := (m_bytes m).[y * m_width m + x].
Definition matrix_Set (x y value : Z) (m : CBC_CommonByteMatrix) : CBC_CommonByteMatrix :=
  ByteMatrix (m_width m) (m_height m) (wr (m_bytes m) (y * m_width m + x) (u8 value)).
Definition matrix_clear (value : Z) (m : CBC_CommonByteMatrix) : CBC_CommonByteMatrix :=
  ByteMatrix (m_width m) (m_height m) (replicate (length (m_bytes m)) value).

Definition IsEmpty (value : Z) : bool := u8 value =? 0xff.
Definition IsValidValue (value : Z) : bool := (u8 value =? 0xff) || (u8 value =? 0) || (u8 value =? 1).

(** A loop that may fail. *)
Fixpoint each {A S} (f : A → S → option S) (l : list A) (s : S) : option S :=
  match l with [] => Some s | a :: l' => s ← f a s; each f l' s end.

(** The places of a rectangle, line by line. *)
Definition places_of (width height : Z) : list (Z * Z) := y ← seqZ 0 height; x ← seqZ 0 width; [(x, y)].

(** ** The mask *)
Definition GetDataMaskBit (maskPattern x y : Z) : bool :=
  let temp := y * x in
  let intermediate :=
    if maskPattern =? 0 then (y + x) .& 1
    else if maskPattern =? 1 then y .& 1
    else if maskPattern =? 2 then x mod 3
    else if maskPattern =? 3 then (y + x) mod 3
    else if maskPattern =? 4 then ((y .>> 1) + x / 3) .& 1
    else if maskPattern =? 5 then (temp .& 1) + temp mod 3
    else if maskPattern =? 6 then ((temp .& 1) + temp mod 3) .& 1
    else (temp mod 3 + ((y + x) .& 1)) .& 1 in
  intermediate =? 0.

(** ** Data *)
Section data.
Context (dataBits : CBC_QRCoderBitVector) (maskPattern : Z).

Definition embed_bit (xx y : Z) (s : Z * CBC_CommonByteMatrix) : Z * CBC_CommonByteMatrix :=
  let '(szBitIndex, matrix) := s in
  if negb (IsEmpty (matrix_Get xx y matrix)) then (szBitIndex, matrix)
  else
    let '(bit, szBitIndex) :=
      if szBitIndex <? m_sizeInBits dataBits then (At szBitIndex dataBits, szBitIndex + 1) else (0, szBitIndex) in
    let bit := if GetDataMaskBit maskPattern xx y then bit .^ 1 else bit in
    (szBitIndex, matrix_Set xx y bit matrix).

(** Two columns, up or down: the line behind the last one. *)
Fixpoint embed_columns (fuel : nat) (x y direction : Z) (s : Z * CBC_CommonByteMatrix) : Z * (Z * CBC_CommonByteMatrix) :=
  match fuel with
  | O => (y, s)
  | S fuel' =>
      if (0 <=? y) && (y <? m_height (snd s)) then
        if y =? 6 then embed_columns fuel' x (y + direction) direction s
        else embed_columns fuel' x (y + direction) direction (embed_bit (x - 1) y (embed_bit x y s))
      else (y, s)
  end.

Fixpoint embed_all (fuel : nat) (x y direction : Z) (s : Z * CBC_CommonByteMatrix) : Z * CBC_CommonByteMatrix :=
  match fuel with
  | O => s
  | S fuel' =>
      if 0 <? x then
        let x := if x =? 6 then x - 1 else x in
        let '(y, s) := embed_columns (S (Z.to_nat (m_height (snd s)))) x y direction s in
        embed_all fuel' (x - 2) (y - direction) (- direction) s
      else s
  end.

Definition EmbedDataBits (matrix : CBC_CommonByteMatrix) : option CBC_CommonByteMatrix :=
  let '(szBitIndex, matrix) := embed_all (Z.to_nat (m_width matrix)) (m_width matrix - 1) (m_height matrix - 1) (-1) (0, matrix) in
  if szBitIndex =? m_sizeInBits dataBits then Some matrix else None.
End data.

(** ** The description of the level, the mask and the version *)
Fixpoint find_msb (fuel : nat) (value numDigits : Z) : Z :=
  match fuel with
  | O => numDigits
  | S fuel' => if value =? 0 then numDigits else find_msb fuel' (value .>> 1) (numDigits + 1)
  end.
Definition FindMSBSet (value : Z) : Z := find_msb 32 value 0.

Fixpoint bch_loop (fuel : nat) (value poly msbSetInPoly : Z) : Z :=
  match fuel with
  | O => value
  | S fuel' =>
      if msbSetInPoly <=? FindMSBSet value
      then bch_loop fuel' (value .^ (poly .<< (FindMSBSet value - msbSetInPoly))) poly msbSetInPoly else value
  end.
Definition CalculateBCHCode (value poly : Z) : Z :=
  let msbSetInPoly := FindMSBSet poly in bch_loop 32 (value .<< (msbSetInPoly - 1)) poly msbSetInPoly.

(** [CBC_QRCoderErrorCorrectionLevel]: ordinal and bits. *)
Inductive CBC_QRCoderErrorCorrectionLevel := level_L | level_M | level_Q | level_H.
Definition Ordinal (ecLevel : CBC_QRCoderErrorCorrectionLevel) : Z := match ecLevel with level_L => 0 | level_M => 1 | level_Q => 2 | level_H => 3 end.
Definition level_GetBits (ecLevel : CBC_QRCoderErrorCorrectionLevel) : Z := match ecLevel with level_L => 1 | level_M => 0 | level_Q => 3 | level_H => 2 end.

Definition kNumMaskPatterns : Z := 8.
Definition IsValidMaskPattern (maskPattern : Z) : bool := (0 <=? maskPattern) && (maskPattern <? kNumMaskPatterns).

Definition MakeTypeInfoBits (ecLevel : CBC_QRCoderErrorCorrectionLevel) (maskPattern : Z) : option CBC_QRCoderBitVector :=
  if negb (IsValidMaskPattern maskPattern) then None
  else
    let typeInfo := (level_GetBits ecLevel .<< 3) .| maskPattern in
    let bits := AppendBits (CalculateBCHCode typeInfo TYPE_INFO_POLY) 10 (AppendBits typeInfo 5 bit_vector_new) in
    XOR (AppendBits TYPE_INFO_MASK_PATTERN 15 bit_vector_new) bits.

Definition MakeVersionInfoBits (version : Z) : CBC_QRCoderBitVector :=
  AppendBits (CalculateBCHCode version VERSION_INFO_POLY) 12 (AppendBits version 6 bit_vector_new).

Definition embed_type_bit (typeInfoBits : CBC_QRCoderBitVector) (i : Z) (matrix : CBC_CommonByteMatrix) : CBC_CommonByteMatrix :=
  let bit := At (m_sizeInBits typeInfoBits - 1 - i) typeInfoBits in
  let matrix := matrix_Set (entry TYPE_INFO_COORDINATES i 0) (entry TYPE_INFO_COORDINATES i 1) bit matrix in
  if i <? 8 then matrix_Set (m_width matrix - i - 1) 8 bit matrix
  else matrix_Set 8 (m_height matrix - 7 + (i - 8)) bit matrix.
Definition EmbedTypeInfo (ecLevel : CBC_QRCoderErrorCorrectionLevel) (maskPattern : Z) (matrix : CBC_CommonByteMatrix) : option CBC_CommonByteMatrix :=
  typeInfoBits ← MakeTypeInfoBits ecLevel maskPattern;
  Some (fold_left (λ m i, embed_type_bit typeInfoBits i m) (seqZ 0 (m_sizeInBits typeInfoBits)) matrix).

Definition MaybeEmbedVersionInfo (version : Z) (matrix : CBC_CommonByteMatrix) : CBC_CommonByteMatrix :=
  if version <? 7 then matrix
  else
    let versionInfoBits := MakeVersionInfoBits version in
    fold_left (λ m p, let '(j, i) := p in
      let bit := At (17 - (3 * i + j)) versionInfoBits in
      let m := matrix_Set i (m_height m - 11 + j) bit m in matrix_Set (m_height m - 11 + j) i bit m) (places_of 3 6) matrix.

(** ** Patterns *)

(** The check of a place that is to be empty, and its value. *)
Definition put_empty (x y value : Z) (matrix : CBC_CommonByteMatrix) : option CBC_CommonByteMatrix :=
  if negb (IsEmpty (matrix_Get x y matrix)) then None else Some (matrix_Set x y value matrix).

Definition timing_place (x y bit : Z) (matrix : CBC_CommonByteMatrix) : option CBC_CommonByteMatrix :=
  if negb (IsValidValue (matrix_Get x y matrix)) then None
  else if IsEmpty (matrix_Get x y matrix) then Some (matrix_Set x y bit matrix) else Some matrix.
Definition EmbedTimingPatterns (matrix : CBC_CommonByteMatrix) : option CBC_CommonByteMatrix :=
  each (λ i m, m ← timing_place i 6 ((i + 1) mod 2) m; timing_place 6 i ((i + 1) mod 2) m) (seqZ 8 (m_width matrix - 16)) matrix.

Definition EmbedDarkDotAtLeftBottomCorner (matrix : CBC_CommonByteMatrix) : option CBC_CommonByteMatrix :=
  if matrix_Get 8 (m_height matrix - 8) matrix =? 0 then None else Some (matrix_Set 8 (m_height matrix - 8) 1 matrix).

Definition EmbedHorizontalSeparationPattern (xStart yStart : Z) (matrix : CBC_CommonByteMatrix) : option CBC_CommonByteMatrix :=
  each (λ x m, put_empty (xStart + x) yStart 0 m) (seqZ 0 8) matrix.
Definition EmbedVerticalSeparationPattern (xStart yStart : Z) (matrix : CBC_CommonByteMatrix) : option CBC_CommonByteMatrix :=
  each (λ y m, put_empty xStart (yStart + y) 0 m) (seqZ 0 7) matrix.
Definition EmbedPositionAdjustmentPattern (xStart yStart : Z) (matrix : CBC_CommonByteMatrix) : option CBC_CommonByteMatrix :=
  each (λ p m, let '(x, y) := p in put_empty (xStart + x) (yStart + y) (entry POSITION_ADJUSTMENT_PATTERN y x) m) (places_of 5 5) matrix.
Definition EmbedPositionDetectionPattern (xStart yStart : Z) (matrix : CBC_CommonByteMatrix) : option CBC_CommonByteMatrix :=
  each (λ p m, let '(x, y) := p in put_empty (xStart + x) (yStart + y) (entry POSITION_DETECTION_PATTERN y x) m) (places_of 7 7) matrix.

Definition EmbedPositionDetectionPatternsAndSeparators (matrix : CBC_CommonByteMatrix) : option CBC_CommonByteMatrix :=
  let pdpWidth := 7 in let hspWidth := 8 in let vspSize := 7 in
  matrix ← EmbedPositionDetectionPattern 0 0 matrix;
  matrix ← EmbedPositionDetectionPattern (m_width matrix - pdpWidth) 0 matrix;
  matrix ← EmbedPositionDetectionPattern 0 (m_width matrix - pdpWidth) matrix;
  matrix ← EmbedHorizontalSeparationPattern 0 (hspWidth - 1) matrix;
  matrix ← EmbedHorizontalSeparationPattern (m_width matrix - hspWidth) (hspWidth - 1) matrix;
  matrix ← EmbedHorizontalSeparationPattern 0 (m_width matrix - hspWidth) matrix;
  matrix ← EmbedVerticalSeparationPattern vspSize 0 matrix;
  matrix ← EmbedVerticalSeparationPattern (m_height matrix - vspSize - 1) 0 matrix;
  EmbedVerticalSeparationPattern vspSize (m_height matrix - vspSize) matrix.

(** The places before the first 0. *)
Fixpoint coordinates_of (l : list Z) : list Z := match l with [] => [] | c :: l' => if c =? 0 then [] else c :: coordinates_of l' end.

Definition MaybeEmbedPositionAdjustmentPatterns (version : Z) (matrix : CBC_CommonByteMatrix) : option CBC_CommonByteMatrix :=
  if version <? 2 then Some matrix
  else if zlen kPositionAdjustmentPatternCoordinates <=? version - 2 then None
  else
    let coordinates := coordinates_of (nth (Z.to_nat (version - 2)) kPositionAdjustmentPatternCoordinates []) in
    each (λ y m, each (λ x m,
      if IsEmpty (matrix_Get x y m) then EmbedPositionAdjustmentPattern (x - 2) (y - 2) m else Some m) coordinates m) coordinates matrix.

Definition EmbedBasicPatterns (version : Z) (matrix : CBC_CommonByteMatrix) : option CBC_CommonByteMatrix :=
  matrix ← EmbedPositionDetectionPatternsAndSeparators matrix;
  matrix ← EmbedDarkDotAtLeftBottomCorner matrix;
  matrix ← MaybeEmbedPositionAdjustmentPatterns version matrix;
  EmbedTimingPatterns matrix.

Definition BuildMatrix (dataBits : CBC_QRCoderBitVector) (ecLevel : CBC_QRCoderErrorCorrectionLevel) (version maskPattern : Z)
    (matrix : CBC_CommonByteMatrix) : option CBC_CommonByteMatrix :=
  let matrix := matrix_clear 0xff matrix in
  matrix ← EmbedBasicPatterns version matrix;
  matrix ← EmbedTypeInfo ecLevel maskPattern matrix;
  EmbedDataBits dataBits maskPattern (MaybeEmbedVersionInfo version matrix).

(** ** The penalties of masks

    [CBC_QRCoderMaskUtil] ([fxbarcode/qrcode/BC_QRCoderMaskUtil.cpp]): how hard a
    symbol is to read.  The mask with the least penalty is chosen. *)

Definition int_range (n : Z) : list Z := seqZ 0 n.

(** Runs of five and more cells: the state of the loop is the penalty, the length of
    the run and its value. *)
Definition rule1_cell (bit : Z) (s : Z * Z * Z) : Z * Z * Z :=
  let '(penalty, numSameBitCells, prevBit) := s in
  if bit =? prevBit then
    let numSameBitCells := numSameBitCells + 1 in
    (if numSameBitCells =? 5 then penalty + 3 else if 5 <? numSameBitCells then penalty + 1 else penalty, numSameBitCells, prevBit)
  else (penalty, 1, bit).
Definition ApplyMaskPenaltyRule1Internal (matrix : CBC_CommonByteMatrix) (isHorizontal : bool) : Z :=
  let width := m_width matrix in let height := m_height matrix in
  let iLimit := if isHorizontal then height else width in
  let jLimit := if isHorizontal then width else height in
  let row (s : Z * Z * Z) (i : Z) :=
    let '(penalty, _, prevBit) :=
      fold_left (λ s j, rule1_cell (m_bytes matrix).[if isHorizontal then i * width + j else j * width + i] s) (int_range jLimit) s in
    (penalty, 0, prevBit) in
  (fold_left row (int_range iLimit) (0, 0, -1)).1.1.
Definition ApplyMaskPenaltyRule1 (matrix : CBC_CommonByteMatrix) : Z :=
  ApplyMaskPenaltyRule1Internal matrix true + ApplyMaskPenaltyRule1Internal matrix false.

(** How many of the places have a property. *)
Definition count_places (width height : Z) (p : Z → Z → bool) : Z := zlen (List.filter (λ c, p c.1 c.2) (places_of width height)).

Definition ApplyMaskPenaltyRule2 (matrix : CBC_CommonByteMatrix) : Z :=
  let width := m_width matrix in let array := m_bytes matrix in
  3 * count_places (width - 1) (m_height matrix - 1) (λ x y,
    let value := array.[y * width + x] in
    (value =? array.[y * width + x + 1]) && (value =? array.[(y + 1) * width + x]) && (value =? array.[(y + 1) * width + x + 1])).

(** The pattern of rule 3 at [k0], [k0 + step], ...: the cells at 0 to 6, and four light
    ones behind or before them. *)
Definition rule3_pattern (array : list Z) (k0 step pos limit : Z) : bool :=
  let cell (i : Z) := array.[k0 + i * step] in
  (pos + 6 <? limit) && (cell 0 =? 1) && (cell 1 =? 0) && (cell 2 =? 1) && (cell 3 =? 1) && (cell 4 =? 1) && (cell 5 =? 0) && (cell 6 =? 1) &&
  ((pos + 10 <? limit) && (cell 7 =? 0) && (cell 8 =? 0) && (cell 9 =? 0) && (cell 10 =? 0) ||
   (0 <=? pos - 4) && (cell (-1) =? 0) && (cell (-2) =? 0) && (cell (-3) =? 0) && (cell (-4) =? 0)).

(** The borders of the position detection patterns are left out. *)
Definition rule3_skip (width height x y : Z) : bool :=
  (x =? 0) && ((0 <=? y) && (y <=? 6) || (height - 7 <=? y) && (y <=? height - 1)) ||
  (x =? width - 7) && ((0 <=? y) && (y <=? 6)) ||
  (y =? 0) && ((0 <=? x) && (x <=? 6) || (width - 7 <=? x) && (x <=? width - 1)) ||
  (y =? height - 7) && ((0 <=? x) && (x <=? 6)).
Definition ApplyMaskPenaltyRule3 (matrix : CBC_CommonByteMatrix) : Z :=
  let width := m_width matrix in let height := m_height matrix in let array := m_bytes matrix in
  40 * count_places width height (λ x y, negb (rule3_skip width height x y) && rule3_pattern array (y * width + x) 1 x width) +
  40 * count_places width height (λ x y, negb (rule3_skip width height x y) && rule3_pattern array (y * width + x) width y height).

(** A [double], and its conversion to an [int32_t]. *)
Definition f64_of_Z (z : Z) : spec_float := binary_normalize 53 1024 z 0 false.
Definition f64_trunc (f : spec_float) : Z :=
  match f with
  | S754_finite s m e =>
      let z := if 0 <=? e then Z.pos m * 2 ^ e else Z.pos m / 2 ^ (- e) in if s then - z else z
  | _ => 0
  end.
Definition ApplyMaskPenaltyRule4 (matrix : CBC_CommonByteMatrix) : Z :=
  let width := m_width matrix in let height := m_height matrix in
  let numDarkCells := count_places width height (λ x y, (m_bytes matrix).[y * width + x] =? 1) in
  let darkRatio := SFdiv 53 1024 (f64_of_Z numDarkCells) (f64_of_Z (height * width)) in
  let t := f64_trunc (SFsub 53 1024 (SFmul 53 1024 darkRatio (f64_of_Z 100)) (f64_of_Z 50)) in
  Z.abs (Z.quot t 5) * 5 * 10.

Definition CalculateMaskPenalty (matrix : CBC_CommonByteMatrix) : Z :=
  ApplyMaskPenaltyRule1 matrix + ApplyMaskPenaltyRule2 matrix + ApplyMaskPenaltyRule3 matrix + ApplyMaskPenaltyRule4 matrix.

(** The matrix is that of the last mask. *)
Definition choose_mask (bits : CBC_QRCoderBitVector) (ecLevel : CBC_QRCoderErrorCorrectionLevel) (version maskPattern : Z)
    (s : Z * Z * CBC_CommonByteMatrix) : option (Z * Z * CBC_CommonByteMatrix) :=
  let '(minPenalty, bestMaskPattern, matrix) := s in
  matrix ← BuildMatrix bits ecLevel version maskPattern matrix;
  let penalty := CalculateMaskPenalty matrix in
  Some (if penalty <? minPenalty then (penalty, maskPattern, matrix) else (minPenalty, bestMaskPattern, matrix)).
Definition ChooseMaskPattern (bits : CBC_QRCoderBitVector) (ecLevel : CBC_QRCoderErrorCorrectionLevel) (version : Z)
    (matrix : CBC_CommonByteMatrix) : option (Z * CBC_CommonByteMatrix) :=
  '(_, bestMaskPattern, matrix) ← each (choose_mask bits ecLevel version) (int_range kNumMaskPatterns) (65535, -1, matrix);
  Some (bestMaskPattern, matrix).
