(* ===== verification/QrEncoder.v ===== *)
(** * The encoder of QR codes

    [CBC_QRCoderEncoder::Encode] ([fxbarcode/qrcode/BC_QRCoderEncoder.cpp]) with the
    modes, versions and blocks it chooses from ([BC_QRCoderMode.cpp],
    [BC_QRCoderVersion.cpp], [BC_QRCoderECBlocks.cpp], [BC_QRCoder.cpp]): from a text
    to the symbol.  A function that returns false is [None]. *)
From Stdlib Require Import String.
From S2P Require Import Prelude Utf8 ReedSolomon BitStream QrTables QrBits QrMatrix.

(** ** Modes, blocks and versions *)
Inductive CBC_QRCoderMode :=
  | sBYTE | sNUMERIC | sALPHANUMERIC | sKANJI | sECI | sGBK | sTERMINATOR | sFNC1_FIRST_POSITION | sFNC1_SECOND_POSITION | sSTRUCTURED_APPEND.

Definition mode_GetBits (mode : CBC_QRCoderMode) : Z :=
  match mode with
  | sBYTE => 0x4 | sALPHANUMERIC => 0x2 | sECI => 0x7 | sKANJI => 0x8 | sNUMERIC => 0x1 | sGBK => 0x0D
  | sTERMINATOR => 0x00 | sFNC1_FIRST_POSITION => 0x05 | sFNC1_SECOND_POSITION => 0x09 | sSTRUCTURED_APPEND => 0x03
  end.
Definition m_characterCountBitsForVersions (mode : CBC_QRCoderMode) : list Z :=
  match mode with
  | sBYTE => [8; 16; 16] | sALPHANUMERIC => [9; 11; 13] | sKANJI => [8; 10; 12] | sNUMERIC => [10; 12; 14] | sGBK => [8; 10; 12]
  | _ => []
  end.
Definition GetCharacterCountBits (number : Z) (mode : CBC_QRCoderMode) : Z :=
  match m_characterCountBitsForVersions mode with
  | [] => 0
  | l => l.[if number <=? 9 then 0 else if number <=? 26 then 1 else 2]
  end.

Definition GetNumBlocks (d : CBC_QRCoderECBlockData) : Z := count1 d + count2 d.
Definition GetTotalECCodeWords (d : CBC_QRCoderECBlockData) : Z := ecCodeWordsPerBlock d * GetNumBlocks d.
Definition GetTotalDataCodeWords (d : CBC_QRCoderECBlockData) : Z :=
  count1 d * (dataCodeWords1 d + ecCodeWordsPerBlock d) + count2 d * (dataCodeWords2 d + ecCodeWordsPerBlock d).

Definition kMaxVersion : Z := 40.
Record CBC_QRCoderVersion := QRVersion { m_versionNumber : Z; m_ecBlocksArray : list CBC_QRCoderECBlockData }.
Definition GetVersionForNumber (versionNumber : Z) : option CBC_QRCoderVersion :=
  if (versionNumber <? 1) || (kMaxVersion <? versionNumber) then None
  else QRVersion versionNumber <$> kECBData !! Z.to_nat (versionNumber - 1).
Definition blocks_at (i : Z) (version : CBC_QRCoderVersion) : CBC_QRCoderECBlockData := nth (Z.to_nat i) (m_ecBlocksArray version) (ECB 0 0 0 0 0).
Definition GetTotalCodeWords (version : CBC_QRCoderVersion) : Z := GetTotalDataCodeWords (blocks_at 0 version).
Definition GetDimensionForVersion (version : CBC_QRCoderVersion) : Z := 17 + 4 * m_versionNumber version.
Definition GetECBlocksForLevel (ecLevel : CBC_QRCoderErrorCorrectionLevel) (version : CBC_QRCoderVersion) : CBC_QRCoderECBlockData :=
  blocks_at (Ordinal ecLevel) version.

(** ** The bits of a text *)

(** A byte as the [char] that [ByteString::operator[]] returns. *)
Definition as_char (b : Z) : Z := if b <? 128 then b else b - 256.

Definition GetAlphaNumericCode (code : Z) : Z :=
  if code <? 32 then -1 else if zlen kAlphaNumericTable <=? code - 32 then -1 else kAlphaNumericTable.[code - 32].

Fixpoint AppendNumericBytes (content : list Z) (bits : CBC_QRCoderBitVector) : CBC_QRCoderBitVector :=
  match content with
  | c1 :: c2 :: c3 :: rest =>
      AppendNumericBytes rest (AppendBits ((as_char c1 - 48) * 100 + (as_char c2 - 48) * 10 + (as_char c3 - 48)) 10 bits)
  | [c1; c2] => AppendBits ((as_char c1 - 48) * 10 + (as_char c2 - 48)) 7 bits
  | [c1] => AppendBits (as_char c1 - 48) 4 bits
  | [] => bits
  end.

Fixpoint AppendAlphaNumericBytes (content : list Z) (bits : CBC_QRCoderBitVector) : option CBC_QRCoderBitVector :=
  match content with
  | [] => Some bits
  | c1 :: rest =>
      let code1 := GetAlphaNumericCode (as_char c1) in
      if code1 =? -1 then None
      else
        match rest with
        | c2 :: rest' =>
            let code2 := GetAlphaNumericCode (as_char c2) in
            if code2 =? -1 then None else AppendAlphaNumericBytes rest' (AppendBits (code1 * 45 + code2) 11 bits)
        | [] => Some (AppendBits code1 6 bits)
        end
  end.

(** An odd number of bytes fails a [CHECK], which is [None] too. *)
Fixpoint AppendGBKBytes (content : list Z) (bits : CBC_QRCoderBitVector) : option CBC_QRCoderBitVector :=
  match content with
  | [] => Some bits
  | c1 :: c2 :: rest =>
      let value := u32 ((as_char c1 .<< 8) .| as_char c2) in
      value ← (if (value <=? 0xAAFE) && (0xA1A1 <=? value) then Some (value - 0xA1A1)
               else if (value <=? 0xFAFE) && (0xB0A1 <=? value) then Some (value - 0xA6A1) else None);
      AppendGBKBytes rest (AppendBits ((value .>> 8) * 0x60 + (value .& 0xff)) 13 bits)
  | _ => None
  end.

Definition Append8BitBytes (content : list Z) (bits : CBC_QRCoderBitVector) : CBC_QRCoderBitVector :=
  fold_left (λ v c, AppendBits (as_char c) 8 v) content bits.

(** Its loop runs over a vector that is empty. *)
Definition AppendKanjiBytes (content : list Z) (bits : CBC_QRCoderBitVector) : option CBC_QRCoderBitVector := Some bits.

Definition AppendModeInfo (mode : CBC_QRCoderMode) (bits : CBC_QRCoderBitVector) : CBC_QRCoderBitVector :=
  let bits := AppendBits (mode_GetBits mode) 4 bits in
  match mode with sGBK => AppendBits 1 4 bits | _ => bits end.

Definition AppendLengthInfo (numLetters version : Z) (mode : CBC_QRCoderMode) (bits : CBC_QRCoderBitVector) : option CBC_QRCoderBitVector :=
  qcv ← GetVersionForNumber version;
  let numBits := GetCharacterCountBits (m_versionNumber qcv) mode in
  if numBits =? 0 then None
  else if (1 .<< numBits) - 1 <? numBits then Some bits
  else
    let bits := match mode with sGBK => AppendBits (numLetters / 2) numBits bits | _ => bits end in
    Some (AppendBits numLetters numBits bits).

Definition AppendBytes (content : list Z) (mode : CBC_QRCoderMode) (bits : CBC_QRCoderBitVector) : option CBC_QRCoderBitVector :=
  match mode with
  | sNUMERIC => Some (AppendNumericBytes content bits)
  | sALPHANUMERIC => AppendAlphaNumericBytes content bits
  | sBYTE => Some (Append8BitBytes content bits)
  | sKANJI => AppendKanjiBytes content bits
  | sGBK => AppendGBKBytes content bits
  | _ => None
  end.

Definition isdigit (c : Z) : bool := (48 <=? c) && (c <=? 57).

(** The loop of [ChooseMode]. *)
Fixpoint mode_of (content : list Z) (hasNumeric hasAlphaNumeric : bool) : CBC_QRCoderMode :=
  match content with
  | [] => if hasAlphaNumeric then sALPHANUMERIC else if hasNumeric then sNUMERIC else sBYTE
  | c :: rest =>
      if isdigit (as_char c) then mode_of rest true hasAlphaNumeric
      else if negb (GetAlphaNumericCode (as_char c) =? -1) then mode_of rest hasNumeric true
      else sBYTE
  end.
Definition ChooseMode (content : list Z) (encoding : string) : CBC_QRCoderMode :=
  if String.eqb encoding "SHIFT_JIS" then sKANJI else mode_of content false false.

(** ** Code words *)

(** [size_t] times of appending a bit. *)
Fixpoint terminator_bits (n : nat) (capacity : Z) (bits : CBC_QRCoderBitVector) : CBC_QRCoderBitVector :=
  match n with O => bits | S n' => if m_sizeInBits bits <? capacity then terminator_bits n' capacity (AppendBit 0 bits) else bits end.
Definition TerminateBits (numDataBytes : Z) (bits : CBC_QRCoderBitVector) : option CBC_QRCoderBitVector :=
  let capacity := numDataBytes .<< 3 in
  if capacity <? m_sizeInBits bits then None
  else
    let bits := terminator_bits 4 capacity bits in
    let numBitsInLastByte := m_sizeInBits bits mod 8 in
    let bits := if 0 <? numBitsInLastByte then Nat.iter (Z.to_nat (8 - numBitsInLastByte)) (AppendBit 0) bits else bits in
    if negb (m_sizeInBits bits mod 8 =? 0) then None
    else
      let bits := fold_left (λ v k, AppendBits (if k mod 2 =? 0 then 0xec else 0x11) 8 v) (seqZ 0 (numDataBytes - sizeInBytes bits)) bits in
      if m_sizeInBits bits =? capacity then Some bits else None.

(** The numbers of data and check bytes of a block. *)
Definition GetNumDataBytesAndNumECBytesForBlockID (numTotalBytes numDataBytes numRSBlocks blockID : Z) : Z * Z :=
  let numRsBlocksInGroup2 := numTotalBytes mod numRSBlocks in
  let numRsBlocksInGroup1 := numRSBlocks - numRsBlocksInGroup2 in
  let numTotalBytesInGroup1 := numTotalBytes / numRSBlocks in
  let numTotalBytesInGroup2 := numTotalBytesInGroup1 + 1 in
  let numDataBytesInGroup1 := numDataBytes / numRSBlocks in
  let numDataBytesInGroup2 := numDataBytesInGroup1 + 1 in
  if blockID <? numRsBlocksInGroup1 then (numDataBytesInGroup1, numTotalBytesInGroup1 - numDataBytesInGroup1)
  else (numDataBytesInGroup2, numTotalBytesInGroup2 - numDataBytesInGroup2).

Definition GenerateECBytes (dataBytes : list Z) (numEcBytesInBlock : Z) : list Z :=
  let n := Z.to_nat numEcBytesInBlock in
  match rs_Encode g_QRCodeField (dataBytes ++ replicate n 0) n m_cachedGenerators_init with
  | Some (toEncode, _) => drop (length dataBytes) toEncode
  | None => []
  end.

(** The blocks from [i] on, and the offset behind them. *)
Fixpoint make_blocks (n : nat) (array : list Z) (numTotalBytes numDataBytes numRSBlocks i dataBytesOffset : Z) : option (list (list Z * list Z) * Z) :=
  match n with
  | O => Some ([], dataBytesOffset)
  | S n' =>
      let '(numDataBytesInBlock, numEcBytesInBlock) := GetNumDataBytesAndNumECBytesForBlockID numTotalBytes numDataBytes numRSBlocks i in
      if (numDataBytesInBlock <? 0) || (numEcBytesInBlock <=? 0) then None
      else
        let dataBytes := subspan array (Z.to_nat dataBytesOffset) (Z.to_nat numDataBytesInBlock) in
        match GenerateECBytes dataBytes numEcBytesInBlock with
        | [] => None
        | ecBytes =>
            '(blocks, dataBytesOffset) ← make_blocks n' array numTotalBytes numDataBytes numRSBlocks (i + 1) (dataBytesOffset + numDataBytesInBlock);
            Some ((dataBytes, ecBytes) :: blocks, dataBytesOffset)
        end
  end.

Definition max_length (l : list (list Z)) : Z := fold_left (λ m b, Z.max m (zlen b)) l 0.
(** Byte [x] of every block that has one, for every [x]. *)
Definition append_interleaved (l : list (list Z)) (result : CBC_QRCoderBitVector) : CBC_QRCoderBitVector :=
  fold_left (λ v x, fold_left (λ v b, if x <? zlen b then AppendBits b.[x] 8 v else v) l v) (seqZ 0 (max_length l)) result.

Definition InterleaveWithECBytes (bits : CBC_QRCoderBitVector) (numTotalBytes numDataBytes numRSBlocks : Z) (result : CBC_QRCoderBitVector) :
    option CBC_QRCoderBitVector :=
  if negb (sizeInBytes bits =? numDataBytes) then None
  else
    '(blocks, dataBytesOffset) ← make_blocks (Z.to_nat numRSBlocks) (m_array bits) numTotalBytes numDataBytes numRSBlocks 0 0;
    if negb (numDataBytes =? dataBytesOffset) then None
    else
      let result := append_interleaved blocks.*2 (append_interleaved blocks.*1 result) in
      if numTotalBytes =? sizeInBytes result then Some result else None.

(** ** The code *)
Record CBC_QRCoder := QRCoder {
  m_ecLevel : option CBC_QRCoderErrorCorrectionLevel;
  m_version : Z; m_matrixWidth : Z; m_maskPattern : Z; m_numTotalBytes : Z; m_numDataBytes : Z; m_numECBytes : Z; m_numRSBlocks : Z;
  m_matrix : option CBC_CommonByteMatrix;
}.
Definition qr_coder_new : CBC_QRCoder := QRCoder None (-1) (-1) (-1) (-1) (-1) (-1) (-1) None.

Definition qr_IsValid (q : CBC_QRCoder) : bool :=
  bool_decide (is_Some (m_ecLevel q)) && negb (m_version q =? -1) && negb (m_matrixWidth q =? -1) && negb (m_maskPattern q =? -1) &&
  negb (m_numTotalBytes q =? -1) && negb (m_numDataBytes q =? -1) && negb (m_numECBytes q =? -1) && negb (m_numRSBlocks q =? -1) &&
  IsValidMaskPattern (m_maskPattern q) && (m_numTotalBytes q =? m_numDataBytes q + m_numECBytes q) &&
  match m_matrix q with
  | Some matrix => (m_matrixWidth q =? m_width matrix) && (m_width matrix =? m_height matrix)
  | None => false
  end.

(** [InitQRCode], from version [i] on. *)
Fixpoint init_version (n : nat) (numInputBytes : Z) (ecLevel : CBC_QRCoderErrorCorrectionLevel) (i : Z) : option CBC_QRCoder :=
  match n with
  | O => None
  | S n' =>
      version ← GetVersionForNumber i;
      let numBytes := GetTotalCodeWords version in
      let ecBlocks := GetECBlocksForLevel ecLevel version in
      let numEcBytes := GetTotalECCodeWords ecBlocks in
      let numDataBytes := numBytes - numEcBytes in
      if numInputBytes + 3 <=? numDataBytes
      then Some (QRCoder (Some ecLevel) i (GetDimensionForVersion version) (-1) numBytes numDataBytes numEcBytes (GetNumBlocks ecBlocks) None)
      else init_version n' numInputBytes ecLevel (i + 1)
  end.
Definition InitQRCode (numInputBytes : Z) (ecLevel : CBC_QRCoderErrorCorrectionLevel) : option CBC_QRCoder :=
  init_version (Z.to_nat kMaxVersion) numInputBytes ecLevel 1.

Definition with_symbol (maskPattern : Z) (matrix : CBC_CommonByteMatrix) (q : CBC_QRCoder) : CBC_QRCoder :=
  QRCoder (m_ecLevel q) (m_version q) (m_matrixWidth q) maskPattern (m_numTotalBytes q) (m_numDataBytes q) (m_numECBytes q) (m_numRSBlocks q) (Some matrix).

(** Up to the code words. *)
Definition code_words (content : list Z) (ecLevel : CBC_QRCoderErrorCorrectionLevel) : option (CBC_QRCoder * CBC_QRCoderBitVector) :=
  let encoding := "utf8"%string in
  let utf8Data := FX_UTF8Encode content in
  let mode := ChooseMode utf8Data encoding in
  dataBits ← AppendBytes utf8Data mode bit_vector_new;
  qrCode ← InitQRCode (sizeInBytes dataBits) ecLevel;
  let headerAndDataBits := AppendModeInfo mode bit_vector_new in
  let numLetters := match mode with sBYTE => sizeInBytes dataBits | _ => zlen content end in
  headerAndDataBits ← AppendLengthInfo numLetters (m_version qrCode) mode headerAndDataBits;
  headerAndDataBits ← TerminateBits (m_numDataBytes qrCode) (AppendBitVector dataBits headerAndDataBits);
  finalBits ← InterleaveWithECBytes headerAndDataBits (m_numTotalBytes qrCode) (m_numDataBytes qrCode) (m_numRSBlocks qrCode) bit_vector_new;
  Some (qrCode, finalBits).

Definition qr_Encode (content : list Z) (ecLevel : CBC_QRCoderErrorCorrectionLevel) : option CBC_QRCoder :=
  '(qrCode, finalBits) ← code_words content ecLevel;
  '(maskPattern, matrix) ← ChooseMaskPattern finalBits ecLevel (m_version qrCode) (byte_matrix_new (m_matrixWidth qrCode) (m_matrixWidth qrCode));
  matrix ← BuildMatrix finalBits ecLevel (m_version qrCode) maskPattern matrix;
  let qrCode := with_symbol maskPattern matrix qrCode in
  if qr_IsValid qrCode then Some qrCode else None.

(** ** [CBC_QRCodeWriter] *)
Definition level_of_number (ecLevel : Z) : option CBC_QRCoderErrorCorrectionLevel :=
  if ecLevel =? 0 then Some level_L else if ecLevel =? 1 then Some level_M else if ecLevel =? 2 then Some level_Q else if ecLevel =? 3 then Some level_H else None.

(** The cells, the width and the height; an empty vector is [None]. *)
Definition QRCodeWriter_Encode (contents : list Z) (ecLevel : Z) : option (list Z * Z * Z) :=
  ec ← level_of_number ecLevel;
  qr ← qr_Encode contents ec;
  matrix ← m_matrix qr;
  Some (take (Z.to_nat (m_matrixWidth qr * m_matrixWidth qr)) (m_bytes matrix), m_matrixWidth qr, m_matrixWidth qr).
