(* ===== verification/QrWords.v ===== *)
(** * Texts and code words of QR codes are read back

    A reader of the modes of a text and of the blocks of code words, as the format
    describes them: what the encoder makes of a text it reads. *)
From Stdlib Require Import String.
From S2P Require Import Prelude BitStream FaxTables Fax FaxBits Utf8 ReedSolomon QrTables QrBits QrMatrix QrEncoder.

(** ** A reader of the modes *)
Fixpoint read_numeric (n : nat) (bits : list bool) : list Z :=
  match n with
  | S (S (S n')) =>
      let v := bits_value (take 10 bits) in
      48 + v / 100 :: 48 + v / 10 mod 10 :: 48 + v mod 10 :: read_numeric n' (drop 10 bits)
  | S (S O) => let v := bits_value (take 7 bits) in [48 + v / 10; 48 + v mod 10]
  | S O => [48 + bits_value (take 4 bits)]
  | O => []
  end.

(** [0 ... 9 A ... Z], space and eight signs. *)
Definition alphanumeric : list Z :=
  seqZ 48 10 ++ seqZ 65 26 ++ [32; 36; 37; 42; 43; 45; 46; 47; 58].
Fixpoint read_alphanumeric (n : nat) (bits : list bool) : list Z :=
  match n with
  | S (S n') =>
      let v := bits_value (take 11 bits) in alphanumeric.[v / 45] :: alphanumeric.[v mod 45] :: read_alphanumeric n' (drop 11 bits)
  | S O => [alphanumeric.[bits_value (take 6 bits)]]
  | O => []
  end.

Fixpoint read_octets (n : nat) (bits : list bool) : list Z :=
  match n with S n' => bits_value (take 8 bits) :: read_octets n' (drop 8 bits) | O => [] end.

(** The bits of the number of characters, by the indicator of the mode. *)
Definition count_width (version indicator : Z) : Z :=
  let group := if version <=? 9 then 0 else if version <=? 26 then 1 else 2 in
  if indicator =? 1 then 10 + 2 * group else if indicator =? 2 then 9 + 2 * group else if group =? 0 then 8 else 16.

(** A segment: the indicator (1 for numbers, 2 for letters and numbers, 4 for
    bytes), the number of characters, the characters. *)
Definition read_segment (version : Z) (bits : list bool) : option (list Z) :=
  let indicator := bits_value (take 4 bits) in
  let bits := drop 4 bits in
  let width := Z.to_nat (count_width version indicator) in
  let n := Z.to_nat (bits_value (take width bits)) in
  let bits := drop width bits in
  if indicator =? 1 then Some (read_numeric n bits)
  else if indicator =? 2 then Some (read_alphanumeric n bits)
  else if indicator =? 4 then Some (read_octets n bits) else None.

(** ** What is appended *)
Lemma take_put n v (rest : list bool) : take n (put_bits n v ++ rest) = put_bits n v.
Proof. rewrite take_app_le by (rewrite length_put_bits; lia). apply take_ge. rewrite length_put_bits. lia. Qed.
Lemma drop_put n v (rest : list bool) : drop n (put_bits n v ++ rest) = rest.
Proof. rewrite drop_app_ge by (rewrite length_put_bits; lia). rewrite length_put_bits, Nat.sub_diag. by rewrite drop_0. Qed.
Lemma zlen_put n v : zlen (put_bits n v) = Z.of_nat n.
Proof. unfold zlen. by rewrite length_put_bits. Qed.
Lemma value_put n v (rest : list bool) : 0 <= v < 2 ^ Z.of_nat n → bits_value (take n (put_bits n v ++ rest)) = v.
Proof. intros Hv. rewrite take_put, put_bits_value. by apply Z.mod_small. Qed.

(** [d] has been appended to [v], and [read] gives [content] of it. *)
Definition appended (v v' : CBC_QRCoderBitVector) (d : list bool) : Prop := ∀ l, holds v l → holds v' (l ++ d).

Definition digit (c : Z) : Prop := 48 <= c <= 57.

Lemma numeric_spec k : ∀ content v, (length content <= k)%nat → Forall digit content →
  ∃ d, appended v (AppendNumericBytes content v) d ∧ (∀ rest, read_numeric (length content) (d ++ rest) = content) ∧
    10 * zlen content <= 3 * zlen d <= 12 * zlen content.
Proof.
  assert (Hc : ∀ c, digit c → as_char c = c) by (unfold as_char, digit; intros c Hc; by replace (c <? 128) with true by lia).
  induction k as [|k IH]; intros content v Hk Hd.
  { destruct content; [|cbn in Hk; lia]. exists []. split; [intros l Hl; by rewrite app_nil_r|]. done. }
  destruct content as [|c1 [|c2 [|c3 content]]].
  - exists []. split; [intros l Hl; by rewrite app_nil_r|]. done.
  - apply Forall_cons in Hd as [H1 _]. cbn [AppendNumericBytes]. rewrite !Hc by done. unfold digit in *.
    exists (put_bits 4 (c1 - 48)). split; [intros l Hl; by apply (AppendBits_holds _ 4)|]. split; [|done].
    intros rest. cbn [length read_numeric]. rewrite value_put by lia. do 2 f_equal. lia.
  - apply Forall_cons in Hd as [H1 Hd]. apply Forall_cons in Hd as [H2 _]. cbn [AppendNumericBytes]. rewrite !Hc by done. unfold digit in *.
    exists (put_bits 7 ((c1 - 48) * 10 + (c2 - 48))). split; [intros l Hl; by apply (AppendBits_holds _ 7)|]. split; [|done].
    intros rest. cbn [length read_numeric]. rewrite value_put by lia. repeat f_equal; Z.div_mod_to_equations; lia.
  - apply Forall_cons in Hd as [H1 Hd]. apply Forall_cons in Hd as [H2 Hd]. apply Forall_cons in Hd as [H3 Hd]. cbn [AppendNumericBytes]. rewrite !Hc by done.
    set (b := (c1 - 48) * 100 + (c2 - 48) * 10 + (c3 - 48)). unfold digit in *.
    destruct (IH content (AppendBits b 10 v)) as (d & Hv & Hr & Hl); [cbn in Hk; lia|done|]. exists (put_bits 10 b ++ d). split_and!.
    + intros l Hv'. rewrite app_assoc. by apply Hv, (AppendBits_holds _ 10).
    + intros rest. rewrite <-app_assoc. cbn [length read_numeric]. rewrite value_put, drop_put, Hr by (unfold b; lia).
      f_equal; [|f_equal; [|f_equal]]; unfold b; Z.div_mod_to_equations; lia.
    + rewrite !zlen_cons, zlen_app, zlen_put. lia.
    + rewrite !zlen_cons, zlen_app, zlen_put. lia.
Qed.

(** The characters of the alphanumeric mode. *)
Lemma alphanumeric_code c : byte c → GetAlphaNumericCode (as_char c) ≠ -1 →
  0 <= GetAlphaNumericCode (as_char c) < 45 ∧ alphanumeric.[GetAlphaNumericCode (as_char c)] = c ∧ c < 128.
Proof.
  intros Hc Hne.
  pose proof (forall_byte (λ c, (GetAlphaNumericCode (as_char c) =? -1) ||
    ((0 <=? GetAlphaNumericCode (as_char c)) && (GetAlphaNumericCode (as_char c) <? 45) && (alphanumeric.[GetAlphaNumericCode (as_char c)] =? c) && (c <? 128))) eq_refl c Hc) as H.
  cbv beta in H. lia.
Qed.

Definition coded (c : Z) : Prop := GetAlphaNumericCode (as_char c) ≠ -1.

Lemma alphanumeric_spec k : ∀ content v, (length content <= k)%nat → bytes content → Forall coded content →
  ∃ d v', AppendAlphaNumericBytes content v = Some v' ∧ appended v v' d ∧ (∀ rest, read_alphanumeric (length content) (d ++ rest) = content) ∧
    11 * zlen content <= 2 * zlen d <= 12 * zlen content.
Proof.
  induction k as [|k IH]; intros content v Hk Hb Hd.
  { destruct content; [|cbn in Hk; lia]. exists [], v. split; [done|]. split; [intros l Hl; by rewrite app_nil_r|]. done. }
  destruct content as [|c1 [|c2 content]].
  - exists [], v. split; [done|]. split; [intros l Hl; by rewrite app_nil_r|]. done.
  - apply Forall_cons in Hd as [H1 _]. apply Forall_cons in Hb as [B1 _]. destruct (alphanumeric_code c1 B1 H1) as (R1 & E1 & _). unfold coded in *. cbn [AppendAlphaNumericBytes].
    destruct (Z.eqb_spec (GetAlphaNumericCode (as_char c1)) (-1)); [done|]. eexists (put_bits 6 _), _. split; [done|]. split; [intros l Hl; by apply (AppendBits_holds _ 6)|]. split; [|done].
    intros rest. cbn [length read_alphanumeric]. rewrite value_put by lia. by rewrite E1.
  - apply Forall_cons in Hd as [H1 Hd]. apply Forall_cons in Hd as [H2 Hd]. apply Forall_cons in Hb as [B1 Hb]. apply Forall_cons in Hb as [B2 Hb].
    destruct (alphanumeric_code c1 B1 H1) as (R1 & E1 & _). destruct (alphanumeric_code c2 B2 H2) as (R2 & E2 & _). unfold coded in *. cbn [AppendAlphaNumericBytes].
    destruct (Z.eqb_spec (GetAlphaNumericCode (as_char c1)) (-1)); [done|]. destruct (Z.eqb_spec (GetAlphaNumericCode (as_char c2)) (-1)); [done|].
    set (a := GetAlphaNumericCode (as_char c1)) in *. set (e := GetAlphaNumericCode (as_char c2)) in *.
    destruct (IH content (AppendBits (a * 45 + e) 11 v)) as (d & v' & -> & Hv & Hr & Hl); [cbn in Hk; lia|done|done|]. exists (put_bits 11 (a * 45 + e) ++ d), v'. split_and!; [done| | | |].
    + intros l Hv'. rewrite app_assoc. by apply Hv, (AppendBits_holds _ 11).
    + intros rest. rewrite <-app_assoc. cbn [length read_alphanumeric]. rewrite value_put, drop_put, Hr by lia.
      replace ((a * 45 + e) / 45) with a by (Z.div_mod_to_equations; lia). replace ((a * 45 + e) mod 45) with e by (Z.div_mod_to_equations; lia). by rewrite E1, E2.
    + rewrite !zlen_cons, zlen_app, zlen_put. lia.
    + rewrite !zlen_cons, zlen_app, zlen_put. lia.
Qed.

Lemma octets_spec content : bytes content → ∀ v,
  ∃ d, appended v (Append8BitBytes content v) d ∧ (∀ rest, read_octets (length content) (d ++ rest) = content) ∧ zlen d = 8 * zlen content.
Proof.
  unfold Append8BitBytes. induction 1 as [|c content Hc Hb IH]; intros v; cbn [fold_left]; [exists []; split; [intros l Hl; by rewrite app_nil_r|done]|].
  destruct (IH (AppendBits (as_char c) 8 v)) as (d & Hv & Hr & Hl). exists (put_bits 8 (as_char c) ++ d). split_and!.
  - intros l Hv'. rewrite app_assoc. by apply Hv, (AppendBits_holds _ 8).
  - intros rest. rewrite <-app_assoc. cbn [length read_octets]. rewrite take_put, drop_put, Hr, put_bits_value. f_equal.
    unfold as_char, fits in *. change (2 ^ Z.of_nat 8) with 256. destruct (Z.ltb_spec c 128); Z.div_mod_to_equations; lia.
  - rewrite zlen_cons, zlen_app, zlen_put. lia.
Qed.

(** ** The mode that is chosen *)
Lemma digit_coded c : digit c → coded c.
Proof.
  intros Hd. unfold coded. assert (H : forallb (λ c, negb (GetAlphaNumericCode (as_char c) =? -1)) (seqZ 48 10) = true) by (vm_compute; reflexivity).
  rewrite List.forallb_forall in H. specialize (H c). assert (Hin : In c (seqZ 48 10)) by (apply list_elem_of_In, elem_of_seqZ; unfold digit in Hd; lia).
  specialize (H Hin). lia.
Qed.

Lemma mode_of_spec content : bytes content → ∀ n a,
  mode_of content n a = sBYTE ∨ (mode_of content n a = sNUMERIC ∧ Forall digit content ∧ a = false) ∨ (mode_of content n a = sALPHANUMERIC ∧ Forall coded content).
Proof.
  induction 1 as [|c content Hc Hb IH]; intros n a; cbn [mode_of].
  - destruct a; [right; right; split; [done|constructor]|]. destruct n; [|by left]. right. left. split; [done|]. split; [constructor|done].
  - destruct (isdigit (as_char c)) eqn:Ed.
    + assert (Hd : digit c) by (unfold isdigit, as_char, digit, fits in *; destruct (Z.ltb_spec c 128); lia).
      destruct (IH true a) as [?|[(? & ? & ?)|(? & ?)]]; [by left|right; left|right; right]; [split; [done|]; split; [by constructor|done]|].
      split; [done|]. constructor; [by apply digit_coded|done].
    + destruct (Z.eqb_spec (GetAlphaNumericCode (as_char c)) (-1)); cbn [negb]; [by left|].
      destruct (IH n true) as [?|[(? & ? & ?)|(? & ?)]]; [by left|done|right; right]. split; [done|by constructor].
Qed.

(** ** The bytes of a text *)
Lemma utf8_tail_bytes n : ∀ code order, 0 <= code → order = 2 ^ (6 * Z.of_nat n) → bytes (utf8_tail n code order).
Proof.
  induction n as [|n IH]; intros code order Hc ->; cbn [utf8_tail]; [constructor|]. set (c := code mod _).
  assert (Hr : 0 <= c < 2 ^ (6 * Z.of_nat (S n))) by (apply Z.mod_pos_bound; lia).
  replace (2 ^ (6 * Z.of_nat (S n)) .>> 6) with (2 ^ (6 * Z.of_nat n)).
  - constructor; [|apply IH; [lia|done]]. apply fits_lor; [lia|unfold fits; lia|]. unfold fits. split; [apply Z.div_pos; lia|].
    apply Z.div_lt_upper_bound; [lia|]. replace (6 * Z.of_nat (S n)) with (6 * Z.of_nat n + 6) in Hr by lia. rewrite Z.pow_add_r in Hr by lia. lia.
  - rewrite Z.shiftr_div_pow2 by lia. replace (6 * Z.of_nat (S n)) with (6 * Z.of_nat n + 6) by lia. rewrite Z.pow_add_r by lia. by rewrite Z.div_mul.
Qed.

Lemma encoder_bytes u : 0 <= u → bytes (encoder_Input u).
Proof.
  intros Hu. unfold encoder_Input. destruct (Z.ltb_spec u 0x80); [constructor; [unfold fits; lia|constructor]|]. destruct (Z.leb_spec 0x80000000 u); [constructor|].
  assert (Hn : utf8_nbytes u = 2%nat ∧ u < 0x800 ∨ utf8_nbytes u = 3%nat ∧ u < 0x10000 ∨ utf8_nbytes u = 4%nat ∧ u < 0x200000 ∨ utf8_nbytes u = 5%nat ∧ u < 0x4000000 ∨ utf8_nbytes u = 6%nat).
  { unfold utf8_nbytes. repeat (match goal with |- context [?a <? ?b] => destruct (Z.ltb_spec a b) end); tauto. }
  assert (Ht : ∀ n, bytes (utf8_tail n u (1 .<< (Z.of_nat n * 6)))) by (intros n; apply utf8_tail_bytes; [done|]; rewrite Z.shiftl_1_l; f_equal; lia).
  destruct Hn as [[-> H1]|[[-> H1]|[[-> H1]|[[-> H1]| ->]]]]; (constructor; [|apply Ht]); (apply fits_lor; [lia|by vm_compute|]); unfold fits.
  - change (1 .<< (Z.of_nat (2 - 1) * 6)) with 64. Z.div_mod_to_equations; lia.
  - change (1 .<< (Z.of_nat (3 - 1) * 6)) with 4096. Z.div_mod_to_equations; lia.
  - change (1 .<< (Z.of_nat (4 - 1) * 6)) with 262144. Z.div_mod_to_equations; lia.
  - change (1 .<< (Z.of_nat (5 - 1) * 6)) with 16777216. Z.div_mod_to_equations; lia.
  - change (1 .<< (Z.of_nat (6 - 1) * 6)) with 1073741824. Z.div_mod_to_equations; lia.
Qed.

Lemma utf8_bytes content : Forall (λ u, 0 <= u) content → bytes (FX_UTF8Encode content).
Proof. induction 1; [constructor|]. cbn [FX_UTF8Encode flat_map]. apply Forall_app. split; [by apply encoder_bytes|done]. Qed.

(** A text whose bytes are below 128 has a byte for each character. *)
Lemma utf8_ascii content : Forall (λ u, 0 <= u < 0x80000000) content → Forall (λ c, c < 128) (FX_UTF8Encode content) → zlen (FX_UTF8Encode content) = zlen content.
Proof.
  induction 1 as [|u content Hu Hc IH]; intros Ha; [done|]. cbn [FX_UTF8Encode flat_map] in *. apply Forall_app in Ha as [H1 H2]. specialize (IH H2).
  assert (E : encoder_Input u = [u]).
  { unfold encoder_Input in *. destruct (Z.ltb_spec u 0x80); [done|]. destruct (Z.leb_spec 0x80000000 u); [lia|]. exfalso. apply Forall_cons in H1 as [H1 _].
    assert (Hp : Z.testbit prefix.[Z.of_nat (utf8_nbytes u) - 2] 7 = true) by (unfold utf8_nbytes; repeat (match goal with |- context [?a <? ?b] => destruct (Z.ltb_spec a b) end); reflexivity).
    assert (Hn : 0 <= prefix.[Z.of_nat (utf8_nbytes u) - 2]) by (unfold utf8_nbytes; repeat (match goal with |- context [?a <? ?b] => destruct (Z.ltb_spec a b) end); by vm_compute).
    set (a := prefix.[_]) in *. set (b := u / _) in *. assert (Hb : 0 <= b) by (apply Z.div_pos; [lia|]; rewrite Z.shiftl_1_l; lia).
    assert (Hf : fits 7 (a .| b)) by (split; [by apply Z.lor_nonneg|exact H1]). apply fits_testbit in Hf as [_ Hf]; [|lia].
    specialize (Hf 7 ltac:(lia)). by rewrite Z.lor_spec, Hp in Hf. }
  unfold zlen in *. rewrite E. cbn. unfold FX_UTF8Encode in IH. lia.
Qed.

(** ** The header and the text *)

(** The numbers of bits of the counts are enough for what fits a symbol. *)
Definition capacity_ok (version : Z) (mode : CBC_QRCoderMode) (n : Z) : Prop := n < 2 ^ GetCharacterCountBits version mode.

Lemma count_width_mode version mode : mode = sNUMERIC ∨ mode = sALPHANUMERIC ∨ mode = sBYTE →
  count_width version (mode_GetBits mode) = GetCharacterCountBits version mode.
Proof.
  unfold count_width, GetCharacterCountBits. intros [->|[->| ->]]; cbn [mode_GetBits m_characterCountBitsForVersions];
    (destruct (version <=? 9); [done|]); by destruct (version <=? 26).
Qed.

Lemma read_segment_put version mode n rest content :
  match mode with
  | sNUMERIC => ∃ d r, rest = d ++ r ∧ read_numeric (Z.to_nat n) (d ++ r) = content
  | sALPHANUMERIC => ∃ d r, rest = d ++ r ∧ read_alphanumeric (Z.to_nat n) (d ++ r) = content
  | sBYTE => ∃ d r, rest = d ++ r ∧ read_octets (Z.to_nat n) (d ++ r) = content
  | _ => False
  end → 0 <= n → capacity_ok version mode n → 0 <= GetCharacterCountBits version mode →
  read_segment version (put_bits 4 (mode_GetBits mode) ++ put_bits (Z.to_nat (GetCharacterCountBits version mode)) n ++ rest) = Some content.
Proof.
  unfold capacity_ok. intros Hm Hn Hc Hw. unfold read_segment. rewrite drop_put.
  assert (Ei : bits_value (take 4 (put_bits 4 (mode_GetBits mode) ++ put_bits (Z.to_nat (GetCharacterCountBits version mode)) n ++ rest)) = mode_GetBits mode).
  { apply value_put. by destruct mode; vm_compute. }
  rewrite Ei. rewrite count_width_mode by (destruct mode; tauto). rewrite value_put, drop_put by (rewrite Z2Nat.id by done; done).
  destruct mode; try done; destruct Hm as (d & r & -> & <-); done.
Qed.

(** ** Code words of the QR code

    The padding of the data, their blocks with the check bytes, and the order the
    blocks are written in, against a reader that undoes it. *)

(** ** Bytes of vectors *)
Lemma stream_bits_lookup a : ∀ n, (n < 8 * length a)%nat → stream_bits a !! n = Some (bit_at a (Z.of_nat n)).
Proof.
  induction a as [|x a IH]; intros n Hn; [cbn in Hn; lia|]. change (stream_bits (x :: a)) with (put_bits 8 x ++ stream_bits a). cbn [length] in Hn.
  destruct (decide (n < 8)%nat).
  - rewrite lookup_app_l by (rewrite length_put_bits; lia). rewrite <-(Z.add_0_l (Z.of_nat n)). change 0 with (8 * 0) at 1. rewrite bit_at_byte, rd_cons_0 by lia.
    do 8 (destruct n as [|n]; [reflexivity|]). lia.
  - rewrite lookup_app_r by (rewrite length_put_bits; lia). rewrite length_put_bits, IH by lia. f_equal. rewrite !bit_at_testbit by lia.
    f_equal; [|f_equal; Z.div_mod_to_equations; lia]. replace (Z.of_nat n / 8) with (Z.of_nat (n - 8) / 8 + 1) by (Z.div_mod_to_equations; lia).
    rewrite rd_cons by (apply Z.div_pos; lia). done.
Qed.

Lemma holds_stream v l : holds v l → zlen l mod 8 = 0 → stream_bits (m_array v) = l ∧ 8 * zlen (m_array v) = zlen l.
Proof.
  intros [H1 H2 H3 H4] Hm. assert (El : 8 * zlen (m_array v) = zlen l) by (rewrite H3; pose proof (zlen_nonneg l); Z.div_mod_to_equations; lia). split; [|done].
  apply list_eq_same_length with (length l); [done|unfold zlen in *; rewrite length_stream_bits; lia|].
  intros i x y Hi Ex Ey. rewrite stream_bits_lookup in Ex by (unfold zlen in *; lia). rewrite H4, Nat2Z.id, Ey in Ex by lia. by injection Ex as <-.
Qed.

Lemma sizeInBytes_holds v l : holds v l → sizeInBytes v = (zlen l + 7) / 8.
Proof. intros Hv. unfold sizeInBytes. by rewrite shr3, (holds_size v l Hv). Qed.

Lemma holds_append_byte c v l : byte c → holds v l → holds (AppendBits c 8 v) (l ++ stream_bits [c]).
Proof. intros Hc Hv. apply (AppendBits_holds c 8) in Hv; [|lia]. exact Hv. Qed.

(** ** Padding *)
Lemma terminator_spec n : ∀ capacity v l, holds v l → zlen l <= capacity →
  ∃ pad, holds (terminator_bits n capacity v) (l ++ pad) ∧ zlen (l ++ pad) <= capacity.
Proof.
  induction n as [|n IH]; intros capacity v l Hv Hl; cbn [terminator_bits]; [exists []; by rewrite app_nil_r|].
  rewrite (holds_size v l Hv). destruct (Z.ltb_spec (zlen l) capacity); [|exists []; by rewrite app_nil_r].
  destruct (IH capacity (AppendBit 0 v) (l ++ [false])) as (pad & H1 & H2); [by apply (AppendBit_holds false)|rewrite zlen_app; change (zlen [false]) with 1; lia|].
  exists (false :: pad). rewrite <-app_assoc in H1, H2. done.
Qed.

Lemma iter_zeros n v l : holds v l → holds (Nat.iter n (AppendBit 0) v) (l ++ replicate n false).
Proof.
  intros Hv. induction n as [|n IH]; cbn [Nat.iter]; [by rewrite app_nil_r|]. rewrite replicate_S_end, app_assoc. by apply (AppendBit_holds false).
Qed.

Lemma padding_spec n : ∀ i v l, holds v l →
  ∃ pad, holds (fold_left (λ v k, AppendBits (if k mod 2 =? 0 then 0xec else 0x11) 8 v) (seqZ i (Z.of_nat n)) v) (l ++ pad) ∧ zlen pad = 8 * Z.of_nat n.
Proof.
  induction n as [|n IH]; intros i v l Hv; [exists []; by rewrite app_nil_r|]. rewrite seqZ_cons by lia. cbn [fold_left].
  replace (Z.pred (Z.of_nat (S n))) with (Z.of_nat n) by lia. set (c := if i mod 2 =? 0 then 0xec else 0x11).
  destruct (IH (Z.succ i) (AppendBits c 8 v) (l ++ put_bits 8 c)) as (pad & H1 & H2); [by apply (AppendBits_holds c 8)|].
  exists (put_bits 8 c ++ pad). rewrite app_assoc. split; [done|]. rewrite zlen_app, zlen_put. lia.
Qed.

Lemma TerminateBits_spec n v l : holds v l → 0 <= n → zlen l <= 8 * n →
  ∃ v' pad, TerminateBits n v = Some v' ∧ holds v' (l ++ pad) ∧ zlen (l ++ pad) = 8 * n.
Proof.
  intros Hv Hn Hl. unfold TerminateBits. replace (n .<< 3) with (8 * n) by (rewrite Z.shiftl_mul_pow2 by lia; lia).
  rewrite (holds_size v l Hv). replace (8 * n <? zlen l) with false by lia.
  destruct (terminator_spec 4 (8 * n) v l Hv Hl) as (p1 & H1 & L1). set (v1 := terminator_bits _ _ _) in *. set (l1 := l ++ p1) in *. rewrite (holds_size v1 l1 H1).
  pose proof (Z.mod_pos_bound (zlen l1) 8 ltac:(lia)) as Hm. pose proof (zlen_nonneg l1).
  set (v2 := if 0 <? zlen l1 mod 8 then _ else v1). assert (H2 : ∃ p2, holds v2 (l1 ++ p2) ∧ zlen (l1 ++ p2) <= 8 * n ∧ zlen (l1 ++ p2) mod 8 = 0).
  { unfold v2. destruct (Z.ltb_spec 0 (zlen l1 mod 8)) as [Hr|Hr].
    - exists (replicate (Z.to_nat (8 - zlen l1 mod 8)) false). split; [by apply iter_zeros|].
      assert (Ez : ∀ k, zlen (replicate k false) = Z.of_nat k) by (intros k; unfold zlen; by rewrite length_replicate). rewrite zlen_app, Ez, Z2Nat.id by lia. split; [Z.div_mod_to_equations; lia|].
      replace (zlen l1 + (8 - zlen l1 mod 8)) with ((zlen l1 / 8 + 1) * 8) by (Z.div_mod_to_equations; lia). by apply Z.mod_mul.
    - exists []. rewrite app_nil_r. split_and!; [done|done|lia]. }
  clearbody v2. destruct H2 as (p2 & H2 & L2 & M2). set (l2 := l1 ++ p2) in *. rewrite (holds_size v2 l2 H2), M2. cbn [Z.eqb negb].
  assert (Es : sizeInBytes v2 = zlen l2 / 8) by (rewrite (sizeInBytes_holds v2 l2 H2); Z.div_mod_to_equations; lia). rewrite Es.
  pose proof (zlen_nonneg l2). destruct (padding_spec (Z.to_nat (n - zlen l2 / 8)) 0 v2 l2 H2) as (p3 & H3 & L3). rewrite Z2Nat.id in H3, L3 by (Z.div_mod_to_equations; lia).
  set (v3 := fold_left _ _ _) in *. assert (L : zlen (l2 ++ p3) = 8 * n) by (rewrite zlen_app, L3; Z.div_mod_to_equations; lia).
  rewrite (holds_size v3 _ H3), L, Z.eqb_refl. exists v3, (p1 ++ p2 ++ p3). split; [done|]. rewrite !app_assoc. done.
Qed.

(** ** Interleaving *)
Definition row_of (x : Z) (l : list (list Z)) : list Z := b ← l; if x <? zlen b then [b.[x]] else [].
Definition interleave (l : list (list Z)) : list Z := x ← seqZ 0 (max_length l); row_of x l.

Lemma row_holds x l : 0 <= x → Forall bytes l → ∀ v bits, holds v bits →
  holds (fold_left (λ v b, if x <? zlen b then AppendBits b.[x] 8 v else v) l v) (bits ++ stream_bits (row_of x l)).
Proof.
  intros Hx. induction 1 as [|b l Hb Hl IH]; intros v bits Hv; cbn [fold_left]; [by rewrite app_nil_r|].
  change (row_of x (b :: l)) with ((if x <? zlen b then [b.[x]] else []) ++ row_of x l). unfold stream_bits. rewrite flat_map_app, app_assoc. fold (stream_bits (row_of x l)).
  apply IH. destruct (x <? zlen b); [|by rewrite app_nil_r]. apply holds_append_byte; [by apply bytes_rd|done].
Qed.

Lemma rows_hold l xs : Forall bytes l → Forall (λ x, 0 <= x) xs → ∀ v bits, holds v bits →
  holds (fold_left (λ v x, fold_left (λ v b, if x <? zlen b then AppendBits b.[x] 8 v else v) l v) xs v) (bits ++ stream_bits (x ← xs; row_of x l)).
Proof.
  intros Hl. induction 1 as [|x xs Hx Hxs IH]; intros v bits Hv; cbn [fold_left]; [by rewrite app_nil_r|].
  change (x ← x :: xs; row_of x l) with (row_of x l ++ (x ← xs; row_of x l)). unfold stream_bits. rewrite flat_map_app, app_assoc. fold (stream_bits (x ← xs; row_of x l)).
  apply IH. by apply row_holds.
Qed.

Lemma append_interleaved_holds l v bits : Forall bytes l → holds v bits → holds (append_interleaved l v) (bits ++ stream_bits (interleave l)).
Proof.
  intros Hl Hv. unfold append_interleaved, interleave. apply (rows_hold l (seqZ 0 (max_length l))); [exact Hl| |exact Hv]. apply Forall_forall. intros x Hx%elem_of_seqZ. lia.
Qed.

(** The reader: byte [x] of every block is dealt out, for every [x]. *)
Fixpoint deal (x : Z) (sizes : list Z) (blocks : list (list Z)) (s : list Z) : list (list Z) * list Z :=
  match sizes, blocks with
  | n :: sizes', b :: blocks' =>
      if x <? n then
        match s with
        | c :: s' => let '(r, s'') := deal x sizes' blocks' s' in ((b ++ [c]) :: r, s'')
        | [] => (blocks, [])
        end
      else let '(r, s') := deal x sizes' blocks' s in (b :: r, s')
  | _, _ => ([], s)
  end.
Definition deinterleave (sizes : list Z) (s : list Z) : list (list Z) * list Z :=
  fold_left (λ st x, deal x sizes st.1 st.2) (seqZ 0 (fold_left Z.max sizes 0)) (map (λ _, []) sizes, s).

Lemma deal_row x l rest : 0 <= x → deal x (map zlen l) (map (take (Z.to_nat x)) l) (row_of x l ++ rest) = (map (take (Z.to_nat (x + 1))) l, rest).
Proof.
  intros Hx. induction l as [|b l IH]; [done|]. change (row_of x (b :: l)) with ((if x <? zlen b then [b.[x]] else []) ++ row_of x l). cbn [map deal].
  destruct (Z.ltb_spec x (zlen b)) as [Hlt|Hge]; cbn [app]; rewrite IH.
  - do 2 f_equal. replace (Z.to_nat (x + 1)) with (S (Z.to_nat x)) by lia. rewrite take_S_rd by (unfold zlen in Hlt; lia). by rewrite Z2Nat.id.
  - do 2 f_equal. unfold zlen in Hge. by rewrite !take_ge by lia.
Qed.

Lemma max_length_spec l : max_length l = fold_left Z.max (map zlen l) 0 ∧ 0 <= max_length l ∧ Forall (λ b, zlen b <= max_length l) l.
Proof.
  assert (H : ∀ l m, fold_left (λ m b, Z.max m (zlen b)) l m = fold_left Z.max (map (@zlen Z) l) m ∧ m <= fold_left (λ m b, Z.max m (zlen b)) l m ∧
    Forall (λ b, zlen b <= fold_left (λ m b, Z.max m (zlen b)) l m) l).
  { clear. induction l as [|b l IH]; intros m; cbn [fold_left map]; [split_and!; [done|lia|constructor]|]. destruct (IH (Z.max m (zlen b))) as (H1 & H2 & H3).
    split_and!; [done|lia|]. constructor; [lia|done]. }
  destruct (H l 0) as (H1 & H2 & H3). done.
Qed.

Lemma deinterleave_spec l rest : deinterleave (map zlen l) (interleave l ++ rest) = (l, rest).
Proof.
  destruct (max_length_spec l) as (E & H0 & Hle). unfold deinterleave, interleave. rewrite <-E. set (m := max_length l) in *.
  assert (Hn : ∀ n s, fold_left (λ st x, deal x (map zlen l) st.1 st.2) (seqZ 0 (Z.of_nat n)) (map (λ _, []) (map (@zlen Z) l), (x ← seqZ 0 (Z.of_nat n); row_of x l) ++ s) = (map (take n) l, s)).
  { induction n as [|n IH]; intros s; [change (seqZ 0 (Z.of_nat 0)) with (@nil Z); cbn [fold_left mbind list_bind app]; rewrite List.map_map; f_equal; by apply List.map_ext|]. rewrite seqZ_S, fold_left_app, bind_app, <-app_assoc, IH. cbn [fold_left fst snd].
    rewrite Z.add_0_l. change ((x ← [Z.of_nat n]; row_of x l)) with (row_of (Z.of_nat n) l ++ []). rewrite app_nil_r.
    rewrite <-(Nat2Z.id n) at 2. rewrite deal_row by lia. by replace (Z.to_nat (Z.of_nat n + 1)) with (S n) by lia. }
  rewrite <-(Z2Nat.id m H0). rewrite Hn. f_equal. clearbody m. clear -Hle H0. induction Hle as [|b bs Hb Hl IH]; [done|]. cbn [map]. f_equal; [|done]. apply take_ge. unfold zlen in Hb. lia.
Qed.

(** ** Blocks *)
Section blocks.
Context (numTotalBytes numDataBytes numRSBlocks : Z).
Notation T := numTotalBytes. Notation D := numDataBytes. Notation nb := numRSBlocks.
Context (Hnb : 0 < nb) (Hdiv : D mod nb = T mod nb) (HD : nb <= D) (HE : D / nb < T / nb) (HT : T / nb < 255).

Definition data_size (j : Z) : Z := if j <? nb - T mod nb then D / nb else D / nb + 1.
Definition check_size : Z := T / nb - D / nb.

Lemma sizes_of j : GetNumDataBytesAndNumECBytesForBlockID T D nb j = (data_size j, check_size).
Proof. unfold GetNumDataBytesAndNumECBytesForBlockID, data_size, check_size. destruct (j <? nb - T mod nb); [done|]. f_equal. lia. Qed.

Lemma sizes_pos j : 1 <= data_size j <= 1 + D / nb ∧ 0 < check_size ∧ data_size j + check_size <= 255.
Proof. assert (1 <= D / nb) by (apply Z.div_le_lower_bound; lia). unfold data_size, check_size. destruct (j <? _); lia. Qed.

Definition data_sizes (n : nat) (i : Z) : list Z := map data_size (seqZ i (Z.of_nat n)).
Definition total (l : list Z) : Z := fold_right Z.add 0 l.

Lemma data_sizes_S n i : data_sizes (S n) i = data_size i :: data_sizes n (i + 1).
Proof. unfold data_sizes. rewrite seqZ_cons by lia. cbn [map]. replace (Z.pred (Z.of_nat (S n))) with (Z.of_nat n) by lia. done. Qed.

Lemma total_data_sizes n : ∀ i, 0 <= i → i + Z.of_nat n = nb → total (data_sizes n i) = D - (i * (D / nb) + Z.max 0 (i - (nb - T mod nb))).
Proof.
  pose proof (Z.mod_pos_bound T nb Hnb). pose proof (Z.div_mod D nb ltac:(lia)) as E. rewrite Hdiv in E. induction n as [|n IH]; intros i Hi Hn.
  - change (total (data_sizes 0 i)) with 0. assert (Ei : i = nb) by lia. rewrite Ei, Z.max_r by lia. lia.
  - rewrite data_sizes_S. cbn [total fold_right]. fold (total (data_sizes n (i + 1))). rewrite IH by lia. unfold data_size. destruct (Z.ltb_spec i (nb - T mod nb)); lia.
Qed.

Lemma total_all : total (data_sizes (Z.to_nat nb) 0) = D.
Proof. rewrite total_data_sizes by lia. pose proof (Z.mod_pos_bound T nb Hnb). rewrite Z.max_l by lia. lia. Qed.

Definition block_ok (b : list Z * list Z) : Prop :=
  bytes b.1 ∧ bytes b.2 ∧ zlen b.2 = check_size ∧ codeword g_QRCodeField (Z.to_nat check_size) (b.1 ++ b.2).

Lemma GenerateECBytes_spec data : bytes data → 1 <= zlen data → zlen data + check_size <= 255 →
  ∃ c check, GenerateECBytes data check_size = c :: check ∧ block_ok (data, c :: check).
Proof.
  intros Hd Hl Hle. destruct (sizes_pos 0) as (_ & Hc & _). unfold GenerateECBytes. set (n := Z.to_nat check_size).
  assert (Hn : (0 < n)%nat ∧ (n <= 255)%nat) by (unfold n; lia). pose proof (bytes_zeros n) as Hz.
  destruct (rs_Encode_spec 0x11D g_QRCodeField qr_field_check (data ++ replicate n 0) n m_cachedGenerators_init (cache_init 0x11D g_QRCodeField)) as (check & k & E & L & B & W & _);
    [cbn; lia|by apply Forall_app|rewrite length_app, length_replicate; unfold zlen in Hl; lia|lia|].
  rewrite length_app, length_replicate in E, W. replace (length data + n - n)%nat with (length data) in E, W by lia. rewrite take_app_length in E, W.
  rewrite E. rewrite drop_app_length. destruct check as [|c check]; [cbn in L; lia|]. exists c, check. split; [done|].
  split_and!; [done|done|unfold zlen; cbn [snd]; rewrite L; unfold n; lia|done].
Qed.

Lemma make_blocks_spec array n : bytes array → ∀ i off, 0 <= i → 0 <= off → off + total (data_sizes n i) <= zlen array →
  ∃ blocks, make_blocks n array T D nb i off = Some (blocks, off + total (data_sizes n i)) ∧
    map (@zlen Z) blocks.*1 = data_sizes n i ∧ Forall block_ok blocks ∧
    concat blocks.*1 = subspan array (Z.to_nat off) (Z.to_nat (total (data_sizes n i))).
Proof.
  intros Ha. induction n as [|n IH]; intros i off Hi Ho Hle; [exists []; cbn; split_and!; [by rewrite Z.add_0_r|done|constructor|done]|].
  cbn [make_blocks]. rewrite sizes_of. destruct (sizes_pos i) as (Hs & Hc & Hle2). replace (_ || _) with false by lia.
  rewrite data_sizes_S in *. cbn [total fold_right] in *. fold (total (data_sizes n (i + 1))) in *. set (t := total (data_sizes n (i + 1))) in *.
  assert (Ht : 0 <= t).
  { unfold t, data_sizes. generalize (seqZ (i + 1) (Z.of_nat n)). induction l as [|j l IHl]; cbn [map total fold_right]; [lia|]. destruct (sizes_pos j) as (? & _). unfold total in IHl. lia. }
  set (data := subspan array (Z.to_nat off) (Z.to_nat (data_size i))).
  assert (Hdl : zlen data = data_size i) by (unfold data, subspan, zlen in *; rewrite length_take, length_drop; lia).
  assert (Hdb : bytes data) by (by apply Forall_take, Forall_drop).
  destruct (GenerateECBytes_spec data Hdb) as (c & check & -> & Hok); [lia|lia|]. destruct (IH (i + 1) (off + data_size i)) as (blocks & -> & H1 & H2 & H3); [lia|lia|lia|].
  cbn [mbind option_bind]. exists ((data, c :: check) :: blocks). split_and!.
  - do 2 f_equal. fold t. lia.
  - cbn. by rewrite Hdl, H1.
  - by constructor.
  - cbn [fmap list_fmap fst concat]. rewrite H3. unfold data, subspan. fold t. rewrite !Z2Nat.inj_add by lia. rewrite <-drop_drop. by rewrite take_take_drop.
Qed.
End blocks.

(** ** All code words of a symbol *)

(** A reader of the code words: the data of the blocks, if all blocks are code words. *)
Definition vanishes (n : nat) (w : list Z) : bool := forallb (λ i, value g_QRCodeField w (Exp g_QRCodeField i) =? 0) (seqZ 0 (Z.of_nat n)).
Definition read_code_blocks (T D nb : Z) (words : list Z) : option (list Z) :=
  let n := Z.to_nat nb in
  let '(data, rest) := deinterleave (data_sizes T D nb n 0) words in
  let '(checks, _) := deinterleave (replicate n (check_size T D nb)) rest in
  if forallb (vanishes (Z.to_nat (check_size T D nb))) (zip_with app data checks) then Some (concat data) else None.

Lemma codeword_vanishes n w : codeword g_QRCodeField n w → vanishes n w = true.
Proof.
  intros [_ H]. unfold vanishes. apply forallb_forall. intros i Hi. apply list_elem_of_In, elem_of_seqZ in Hi. specialize (H (Z.to_nat i) ltac:(lia)).
  rewrite Z2Nat.id in H by lia. lia.
Qed.

Lemma length_interleave l : zlen (interleave l) = total (map (@zlen Z) l).
Proof.
  (* every byte of every block is dealt exactly once *)
  destruct (max_length_spec l) as (_ & H0 & Hle). unfold interleave. set (m := max_length l) in *.
  assert (Hn : ∀ n : nat, zlen (x ← seqZ 0 (Z.of_nat n); row_of x l) = total (map (λ b, Z.min (Z.of_nat n) (zlen b)) l)).
  { induction n as [|n IH].
    - change (seqZ 0 (Z.of_nat 0)) with (@nil Z). cbn [mbind list_bind]. rewrite zlen_nil. clear. induction l as [|b l IH]; [done|]. cbn [map total fold_right]. unfold total in IH. rewrite <-IH. pose proof (zlen_nonneg b). lia.
    - rewrite seqZ_S, bind_app, zlen_app, IH, Z.add_0_l. change ((x ← [Z.of_nat n]; row_of x l)) with (row_of (Z.of_nat n) l ++ []). rewrite app_nil_r.
      clear. induction l as [|b l IHl]; [done|]. change (row_of (Z.of_nat n) (b :: l)) with ((if Z.of_nat n <? zlen b then [b.[Z.of_nat n]] else []) ++ row_of (Z.of_nat n) l).
      cbn [map total fold_right]. rewrite zlen_app. unfold total in IHl. destruct (Z.ltb_spec (Z.of_nat n) (zlen b)); [change (zlen [_]) with 1|change (zlen []) with 0]; lia. }
  rewrite <-(Z2Nat.id m H0), Hn, Z2Nat.id by done. clear Hn. clearbody m. induction Hle as [|b bs Hb Hl IH]; [done|]. cbn [map total fold_right]. unfold total in IH. rewrite IH. lia.
Qed.

Lemma interleave_bytes l : Forall bytes l → bytes (interleave l).
Proof.
  intros Hl. apply Forall_bind, Forall_forall. intros x _. apply Forall_bind. eapply Forall_impl; [exact Hl|]. intros b Hb. cbn. destruct (x <? zlen b); [|constructor].
  constructor; [by apply bytes_rd|constructor].
Qed.

Lemma data_sizes_length T D nb n i : length (data_sizes T D nb n i) = n.
Proof. unfold data_sizes. by rewrite length_map, length_seqZ, Nat2Z.id. Qed.

Lemma total_replicate n c : total (replicate n c) = Z.of_nat n * c.
Proof. induction n as [|n IH]; [done|]. cbn [replicate total fold_right]. unfold total in IH. rewrite IH. lia. Qed.

Lemma Interleave_spec T D nb bits l : 0 < nb → D mod nb = T mod nb → nb <= D → D / nb < T / nb → T / nb < 255 →
  holds bits l → zlen l = 8 * D →
  ∃ result words, InterleaveWithECBytes bits T D nb bit_vector_new = Some result ∧ holds result (stream_bits words) ∧ zlen words = T ∧ bytes words ∧
    read_code_blocks T D nb words = Some (m_array bits) ∧ stream_bits (m_array bits) = l.
Proof.
  intros Hnb Hdiv HD HE HT Hb Hl. destruct (holds_stream bits l Hb) as [Es Ez]; [rewrite Hl, Z.mul_comm; by apply Z.mod_mul|]. assert (Ea : zlen (m_array bits) = D) by lia.
  pose proof (holds_bytes bits l Hb) as Hab. pose proof (total_all T D nb Hnb Hdiv) as Ht. set (n := Z.to_nat nb) in *.
  unfold InterleaveWithECBytes. fold n. rewrite (sizeInBytes_holds bits l Hb), Hl. replace ((8 * D + 7) / 8) with D by (Z.div_mod_to_equations; lia). rewrite Z.eqb_refl. cbn [negb].
  destruct (make_blocks_spec T D nb Hnb HD HE HT (m_array bits) n Hab 0 0) as (blocks & -> & H1 & H2 & H3); [lia|lia|rewrite Ht; lia|]. rewrite Ht, Z.add_0_l in *.
  cbn [mbind option_bind]. rewrite Z.eqb_refl. cbn [negb].
  assert (Hd : Forall bytes blocks.*1) by (apply Forall_fmap; eapply Forall_impl; [exact H2|]; by intros b (? & _)).
  assert (Hc : Forall bytes blocks.*2) by (apply Forall_fmap; eapply Forall_impl; [exact H2|]; by intros b (_ & ? & _)).
  set (words := interleave blocks.*1 ++ interleave blocks.*2).
  pose proof (append_interleaved_holds _ _ _ Hd holds_new) as R. apply (append_interleaved_holds _ _ _ Hc) in R. cbn [app] in R.
  assert (Ew : stream_bits (interleave blocks.*1) ++ stream_bits (interleave blocks.*2) = stream_bits words) by (unfold words, stream_bits; by rewrite flat_map_app). rewrite Ew in R.
  set (result := append_interleaved _ _) in *.
  assert (Hc2 : map (@zlen Z) blocks.*2 = replicate n (check_size T D nb)).
  { assert (Hln : length blocks = n) by (apply (f_equal length) in H1; rewrite length_map, length_fmap, data_sizes_length in H1; done).
    clear -H2 Hln. rewrite <-Hln. clear Hln. induction H2 as [|b bs (_ & _ & E & _) Hbs IH]; [done|]. cbn. by rewrite E, IH. }
  assert (Hw : zlen words = T).
  { unfold words. rewrite zlen_app, !length_interleave, H1, Hc2, Ht, total_replicate. unfold n, check_size. rewrite Z2Nat.id by lia.
    pose proof (Z.div_mod D nb ltac:(lia)). pose proof (Z.div_mod T nb ltac:(lia)). lia. }
  assert (Hsz : sizeInBytes result = T).
  { rewrite (sizeInBytes_holds result _ R). unfold zlen in *. rewrite length_stream_bits. Z.div_mod_to_equations; lia. }
  rewrite Hsz, Z.eqb_refl. exists result, words. split_and!; [done|done|done|apply Forall_app; split; by apply interleave_bytes| |done].
  unfold read_code_blocks. fold n. rewrite <-H1. unfold words. rewrite deinterleave_spec, <-Hc2. rewrite <-(app_nil_r (interleave blocks.*2)), deinterleave_spec.
  assert (Hv : forallb (vanishes (Z.to_nat (check_size T D nb))) (zip_with app blocks.*1 blocks.*2) = true).
  { clear -H2. induction H2 as [|b bs (_ & _ & _ & W) Hbs IH]; [done|]. cbn. by rewrite (codeword_vanishes _ _ W). }
  rewrite Hv, H3. f_equal. unfold subspan. rewrite drop_0. apply take_ge. unfold zlen in *. lia.
Qed.

(** ** The table of versions *)
Definition num_words (version : CBC_QRCoderVersion) : Z := GetTotalCodeWords version.
Definition num_data (version : CBC_QRCoderVersion) (ecLevel : CBC_QRCoderErrorCorrectionLevel) : Z :=
  GetTotalCodeWords version - GetTotalECCodeWords (GetECBlocksForLevel ecLevel version).

Definition table_row_ok (i : Z) (ecLevel : CBC_QRCoderErrorCorrectionLevel) : bool :=
  match GetVersionForNumber i with
  | Some v =>
      let T := num_words v in let D := num_data v ecLevel in let nb := GetNumBlocks (GetECBlocksForLevel ecLevel v) in
      (0 <? nb) && (D mod nb =? T mod nb) && (nb <=? D) && (D / nb <? T / nb) && (T / nb <? 255) &&
      (D <=? (if i <=? 9 then 232 else if i <=? 26 then 1370 else 2956))
  | None => false
  end.

Lemma table_ok : forallb (λ i, forallb (table_row_ok i) [level_L; level_M; level_Q; level_H]) (seqZ 1 40) = true.
Proof. vm_compute. reflexivity. Qed.

Lemma version_ok i ecLevel : 1 <= i <= 40 → table_row_ok i ecLevel = true.
Proof.
  intros Hi. pose proof table_ok as H. rewrite forallb_forall in H. specialize (H i). rewrite forallb_forall in H. apply H.
  - apply list_elem_of_In, elem_of_seqZ. lia.
  - destruct ecLevel; cbn; tauto.
Qed.

Lemma init_version_spec n ecLevel B : ∀ i qr, 1 <= i → i + Z.of_nat n <= 41 → init_version n B ecLevel i = Some qr →
  ∃ v, 1 <= m_version qr <= 40 ∧ GetVersionForNumber (m_version qr) = Some v ∧ m_versionNumber v = m_version qr ∧ m_ecLevel qr = Some ecLevel ∧
    m_matrixWidth qr = GetDimensionForVersion v ∧ m_numTotalBytes qr = num_words v ∧ m_numDataBytes qr = num_data v ecLevel ∧
    m_numRSBlocks qr = GetNumBlocks (GetECBlocksForLevel ecLevel v) ∧ m_numECBytes qr = num_words v - num_data v ecLevel ∧ B + 3 <= num_data v ecLevel.
Proof.
  induction n as [|n IH]; intros i qr Hi Hn E; [done|]. cbn [init_version] in E. destruct (GetVersionForNumber i) as [v|] eqn:Ev; [|done]. cbn [mbind option_bind] in E.
  destruct (Z.leb_spec (B + 3) (GetTotalCodeWords v - GetTotalECCodeWords (GetECBlocksForLevel ecLevel v))) as [Hle|]; [|apply (IH (i + 1)); [lia|lia|done]].
  injection E as <-. exists v. cbn [m_version m_ecLevel m_matrixWidth m_numTotalBytes m_numDataBytes m_numRSBlocks m_numECBytes]. split_and!; try done; try (unfold num_words, num_data; lia).
  unfold GetVersionForNumber in Ev. destruct (_ || _); [done|]. by destruct (kECBData !! _); simplify_eq/=.
Qed.

(** ** From the text to the code words *)
Definition text_ok (content : list Z) : Prop := Forall (λ u, 0 <= u < 0x80000000) content.

(** The bits of the text in the mode that is chosen, and their reading. *)
Record text_bits (content : list Z) (mode : CBC_QRCoderMode) (dataBits : CBC_QRCoderBitVector) (d : list bool) : Prop := {
  tb_append : AppendBytes (FX_UTF8Encode content) mode bit_vector_new = Some dataBits;
  tb_holds : holds dataBits d;
  tb_letters : match mode with sBYTE => sizeInBytes dataBits | _ => zlen content end = zlen (FX_UTF8Encode content);
  tb_size : zlen d <= 8 * zlen (FX_UTF8Encode content);
  tb_read : ∀ version r, zlen (FX_UTF8Encode content) < 2 ^ GetCharacterCountBits version mode → 0 <= GetCharacterCountBits version mode →
    read_segment version (put_bits 4 (mode_GetBits mode) ++
      put_bits (Z.to_nat (GetCharacterCountBits version mode)) (zlen (FX_UTF8Encode content)) ++ d ++ r) = Some (FX_UTF8Encode content);
  tb_mode : mode = sBYTE ∧ zlen d = 8 * zlen (FX_UTF8Encode content) ∨ mode = sNUMERIC ∧ 10 * zlen (FX_UTF8Encode content) <= 3 * zlen d ∨
    mode = sALPHANUMERIC ∧ 11 * zlen (FX_UTF8Encode content) <= 2 * zlen d;
}.

Lemma text_bits_exist content : text_ok content → ∃ dataBits d, text_bits content (ChooseMode (FX_UTF8Encode content) "utf8") dataBits d.
Proof.
  intros Ht. assert (Hb : bytes (FX_UTF8Encode content)) by (apply utf8_bytes; eapply Forall_impl; [exact Ht|]; cbn; lia).
  assert (Hn : Z.to_nat (zlen (FX_UTF8Encode content)) = length (FX_UTF8Encode content)) by apply Nat2Z.id. pose proof (zlen_nonneg (FX_UTF8Encode content)) as H0.
  change (ChooseMode (FX_UTF8Encode content) "utf8") with (mode_of (FX_UTF8Encode content) false false).
  pose proof (utf8_ascii content Ht) as Ha.
  destruct (mode_of_spec _ Hb false false) as [->|[(-> & Hd & _)|(-> & Hd)]].
  - destruct (octets_spec _ Hb bit_vector_new) as (d & Hv & Hr & Hl). exists (Append8BitBytes (FX_UTF8Encode content) bit_vector_new), d.
    pose proof (Hv [] holds_new) as Hv'. cbn [app] in Hv'. constructor; [done|done| |lia| |left; done].
    + rewrite (sizeInBytes_holds _ _ Hv'), Hl. Z.div_mod_to_equations; lia.
    + intros version r Hc Hw. apply read_segment_put; [|done..]. exists d, r. split; [done|]. by rewrite Hn.
  - destruct (numeric_spec _ _ bit_vector_new (le_n _) Hd) as (d & Hv & Hr & Hl). exists (AppendNumericBytes (FX_UTF8Encode content) bit_vector_new), d.
    pose proof (Hv [] holds_new) as Hv'. cbn [app] in Hv'. constructor; [done|done| |lia| |right; left; split; [done|lia]].
    + symmetry. apply Ha. eapply Forall_impl; [exact Hd|]. unfold digit. lia.
    + intros version r Hc Hw. apply read_segment_put; [|done..]. exists d, r. split; [done|]. by rewrite Hn.
  - destruct (alphanumeric_spec _ _ bit_vector_new (le_n _) Hb Hd) as (d & v' & E & Hv & Hr & Hl). exists v', d.
    pose proof (Hv [] holds_new) as Hv'. cbn [app] in Hv'. constructor; [done|done| |lia| |right; right; split; [done|lia]].
    + symmetry. apply Ha. apply Forall_forall. intros c Hc. destruct (alphanumeric_code c) as (_ & _ & ?); [|by apply (proj1 (Forall_forall _ _) Hd)|done].
      by apply (proj1 (Forall_forall _ _) Hb).
    + intros version r Hc Hw. apply read_segment_put; [|done..]. exists d, r. split; [done|]. by rewrite Hn.
Qed.

(** What [code_words] gives: the version, and words that are read back. *)
Definition words_read (content : list Z) (ecLevel : CBC_QRCoderErrorCorrectionLevel) (qr : CBC_QRCoder) (words : list Z) : Prop :=
  ∃ v data, 1 <= m_version qr <= 40 ∧ GetVersionForNumber (m_version qr) = Some v ∧ m_versionNumber v = m_version qr ∧
    m_matrixWidth qr = GetDimensionForVersion v ∧ zlen words = num_words v ∧ bytes words ∧
    read_code_blocks (num_words v) (num_data v ecLevel) (GetNumBlocks (GetECBlocksForLevel ecLevel v)) words = Some data ∧
    read_segment (m_version qr) (stream_bits data) = Some (FX_UTF8Encode content).

(** The numbers of words and blocks of a code. *)
Definition sized (qr : CBC_QRCoder) : Prop :=
  0 < m_numDataBytes qr ∧ 0 < m_numECBytes qr ∧ 0 < m_numRSBlocks qr ∧ m_numTotalBytes qr = m_numDataBytes qr + m_numECBytes qr.

Lemma code_words_spec content ecLevel : text_ok content →
  match code_words content ecLevel with
  | Some (qr, bits) => ∃ words, holds bits (stream_bits words) ∧ words_read content ecLevel qr words ∧ m_ecLevel qr = Some ecLevel ∧ sized qr
  | None => ∃ B, B <= zlen (FX_UTF8Encode content) ∧ InitQRCode B ecLevel = None
  end.
Proof.
  intros Ht. destruct (text_bits_exist content Ht) as (dataBits & d & [T1 T2 T3 T4 T5 T6]). unfold code_words. rewrite T1. cbn [mbind option_bind].
  set (mode := ChooseMode _ _) in *. set (n := zlen (FX_UTF8Encode content)) in *. pose proof (zlen_nonneg (FX_UTF8Encode content)) as Hn0. fold n in Hn0.
  assert (EB : sizeInBytes dataBits = (zlen d + 7) / 8) by by apply sizeInBytes_holds.
  destruct (InitQRCode (sizeInBytes dataBits) ecLevel) as [qr|] eqn:Ei; cbn [mbind option_bind]; [|exists (sizeInBytes dataBits); split; [rewrite EB; Z.div_mod_to_equations; lia|done]].
  apply init_version_spec in Ei as (v & Hv & Ev & Evn & El & Ew & ET & ED & EN & EC & HB); [|lia|done]. rewrite EB in HB.
  pose proof (version_ok (m_version qr) ecLevel Hv) as Hrow. unfold table_row_ok in Hrow. rewrite Ev in Hrow.
  set (T := num_words v) in *. set (D := num_data v ecLevel) in *. set (nb := GetNumBlocks _) in *. rewrite !andb_true_iff in Hrow. destruct Hrow as [[[[[R1 R2] R3] R4] R5] R6].
  (* the count fits *)
  set (w := GetCharacterCountBits (m_version qr) mode).
  assert (Hw : n < 2 ^ w ∧ 4 <= w ∧ w <= 16).
  { assert (Hd : zlen d + 24 <= 8 * D + 7) by (Z.div_mod_to_equations; lia). unfold w, GetCharacterCountBits.
    destruct T6 as [[Em T6]|[[Em T6]|[Em T6]]]; rewrite Em; cbn [m_characterCountBitsForVersions];
      destruct (Z.leb_spec (m_version qr) 9); [|destruct (Z.leb_spec (m_version qr) 26)| |destruct (Z.leb_spec (m_version qr) 26)| |destruct (Z.leb_spec (m_version qr) 26)];
      match goal with |- context [rd ?l ?i] => let x := eval cbv in (rd l i) in change (rd l i) with x end; split_and!; try lia. }
  assert (Hpow : (1 .<< w) - 1 <? w = false).
  { rewrite Z.shiftl_1_l. pose proof (Z.pow_gt_lin_r 2 w ltac:(lia) ltac:(lia)). lia. }
  assert (Hm : mode = sBYTE ∨ mode = sNUMERIC ∨ mode = sALPHANUMERIC) by tauto.
  assert (Hhead : holds (AppendModeInfo mode bit_vector_new) (put_bits 4 (mode_GetBits mode))).
  { destruct Hm as [->|[->| ->]]; apply (AppendBits_holds _ 4 bit_vector_new []); [lia|apply holds_new|lia|apply holds_new|lia|apply holds_new]. }
  assert (Hlen : AppendLengthInfo n (m_version qr) mode (AppendModeInfo mode bit_vector_new) = Some (AppendBits n w (AppendModeInfo mode bit_vector_new))).
  { unfold AppendLengthInfo. rewrite Ev. cbn [mbind option_bind]. rewrite Evn. fold w. rewrite Hpow. destruct (Z.eqb_spec w 0); [lia|]. by destruct Hm as [->|[->| ->]]. }
  rewrite T3, Hlen. cbn [mbind option_bind].
  apply (AppendBits_holds n w) in Hhead; [|lia]. apply (AppendBitVector_holds dataBits d _ _ T2) in Hhead. rewrite <-!app_assoc in Hhead.
  set (h := put_bits 4 _ ++ _) in *. assert (Hh : zlen h <= 8 * D).
  { unfold h. rewrite !zlen_app, !zlen_put. rewrite Z2Nat.id by lia. Z.div_mod_to_equations; lia. }
  rewrite ED, ET, EN. destruct (TerminateBits_spec D _ h Hhead ltac:(lia) Hh) as (bits & pad & -> & Hbits & Hpad). cbn [mbind option_bind].
  destruct (Interleave_spec T D nb bits _ ltac:(lia) ltac:(lia) ltac:(lia) ltac:(lia) ltac:(lia) Hbits Hpad) as (result & words & -> & Hres & Hwl & Hwb & Hread & Hdata).
  assert (HDT : D < T) by (apply Z.nle_gt; intros HTD; pose proof (Z.div_le_mono T D nb ltac:(lia) HTD); lia).
  cbn [mbind option_bind]. exists words. split; [done|]. split; [|split; [done|unfold sized; rewrite ED, ET, EN, EC; fold T D nb; lia]]. exists v, (m_array bits). split_and!; try done; try lia.
  rewrite Hdata. unfold h. rewrite <-!app_assoc. apply T5; [apply Hw|lia].
Qed.
