(* ===== verification/QrSymbol.v ===== *)
(** * The bits of a symbol, and the room its patterns leave

    The places of the bits of a QR code in their order, and what [EmbedDataBits]
    writes there; the function patterns of the format, as rectangles, and that the
    code draws just these in all forty versions, which leaves room for the code
    words. *)
From Stdlib Require Import String.
From Stdlib Require Import MSetPositive.
From S2P Require Import Prelude BitStream Utf8 ReedSolomon QrTables QrBits QrMatrix QrEncoder QrWords.

(** ** The order of the places

    Two columns at a time, up and down, without line 6 and column 6. *)
Definition rows_but_6 (height : Z) : list Z := List.filter (λ y, negb (y =? 6)) (seqZ 0 height).
Fixpoint scan_order (n : nat) (x height : Z) (up : bool) : list (Z * Z) :=
  match n with
  | O => []
  | S n' =>
      if 0 <? x then
        let x := if x =? 6 then x - 1 else x in
        flat_map (λ y, [(x, y); (x - 1, y)]) (if up then reverse (rows_but_6 height) else rows_but_6 height) ++ scan_order n' (x - 2) height (negb up)
      else []
  end.

(** The empty places of a matrix, and a bit without its mask. *)
Definition free_places (pattern : CBC_CommonByteMatrix) (order : list (Z * Z)) : list (Z * Z) :=
  List.filter (λ p, IsEmpty (matrix_Get p.1 p.2 pattern)) order.
Definition read_bit (maskPattern : Z) (m : CBC_CommonByteMatrix) (p : Z * Z) : bool :=
  xorb (matrix_Get p.1 p.2 m =? 1) (GetDataMaskBit maskPattern p.1 p.2).

(** ** Squares of cells *)
Record shape (w : Z) (m : CBC_CommonByteMatrix) : Prop := {
  sh_width : m_width m = w;
  sh_height : m_height m = w;
  sh_length : zlen (m_bytes m) = w * w;
}.

Lemma shape_Set w x y v m : shape w m → shape w (matrix_Set x y v m).
Proof. intros [H1 H2 H3]. constructor; cbn; [done|done|]. unfold zlen in *. by rewrite length_wr. Qed.

Lemma shape_new w : 0 <= w → shape w (byte_matrix_new w w).
Proof. intros Hw. constructor; cbn; [done|done|]. unfold zlen. rewrite length_replicate. nia. Qed.

Lemma clear_new w m : shape w m → matrix_clear 0xff m = byte_matrix_new w w.
Proof. intros [H1 H2 H3]. unfold matrix_clear, byte_matrix_new. rewrite H1, H2. do 2 f_equal. unfold zlen in H3. lia. Qed.

Definition inside (w : Z) (p : Z * Z) : Prop := 0 <= p.1 < w ∧ 0 <= p.2 < w.

Lemma index_inj w x y x' y' : 0 <= x < w → 0 <= x' < w → y * w + x = y' * w + x' → x = x' ∧ y = y'.
Proof. intros Hx Hx' E. assert (y = y') by nia. subst. split; [lia|done]. Qed.

Lemma Get_Set w x y x' y' v m : shape w m → inside w (x, y) → inside w (x', y') →
  matrix_Get x' y' (matrix_Set x y v m) = if bool_decide ((x, y) = (x', y')) then u8 v else matrix_Get x' y' m.
Proof.
  intros [H1 H2 H3] [Hx Hy] [Hx' Hy']. cbn [fst snd] in *. unfold matrix_Get, matrix_Set. cbn [m_bytes m_width]. rewrite H1. case_bool_decide as E.
  - injection E as <- <-. apply rd_wr_eq. rewrite H3. nia.
  - apply rd_wr_ne; [nia|nia|]. intros Ei. apply E. destruct (index_inj w x y x' y' Hx Hx' Ei) as [-> ->]. done.
Qed.

(** ** What is in the order *)
Lemma rows_in y h : In y (rows_but_6 h) ↔ 0 <= y < h ∧ y ≠ 6.
Proof. unfold rows_but_6. rewrite filter_In, <-list_elem_of_In, elem_of_seqZ. lia. Qed.

Lemma scan_order_in n : ∀ x h up p, x < h → p ∈ scan_order n x h up → 0 <= p.1 <= x ∧ 0 <= p.2 < h.
Proof.
  induction n as [|n IH]; intros x h up p Hx Hp; cbn [scan_order] in Hp; [by apply elem_of_nil in Hp|].
  destruct (Z.ltb_spec 0 x); [|by apply elem_of_nil in Hp]. apply elem_of_app in Hp as [Hp|Hp].
  - apply list_elem_of_In, in_flat_map in Hp as (y & Hy & Hin).
    assert (Hy' : In y (rows_but_6 h)) by (destruct up; [|done]; apply list_elem_of_In; apply elem_of_reverse; by apply list_elem_of_In).
    apply rows_in in Hy'. cbn [In] in Hin. destruct (Z.eqb_spec x 6); destruct Hin as [<-|[<-|[]]]; cbn [fst snd]; lia.
  - apply IH in Hp; [|destruct (Z.eqb_spec x 6); lia]. destruct (Z.eqb_spec x 6); lia.
Qed.

Lemma rows_NoDup h : NoDup (rows_but_6 h).
Proof. unfold rows_but_6. apply NoDup_ListNoDup, List.NoDup_filter, NoDup_ListNoDup, NoDup_seqZ. Qed.

Lemma column_NoDup x l : NoDup l → NoDup (flat_map (λ y : Z, [(x, y); (x - 1, y)]) l).
Proof.
  induction 1 as [|y l Hy Hl IH]; [constructor|]. cbn [flat_map app]. constructor; [|constructor; [|done]].
  - intros Hin. apply elem_of_cons in Hin as [E|Hin]; [injection E; lia|]. apply list_elem_of_In, in_flat_map in Hin as (y' & Hy' & [E|[E|[]]]); injection E; [intros ->|lia].
    apply Hy. by apply list_elem_of_In.
  - intros Hin. apply list_elem_of_In, in_flat_map in Hin as (y' & Hy' & [E|[E|[]]]); injection E; [lia|intros ->]. apply Hy. by apply list_elem_of_In.
Qed.

Lemma scan_order_NoDup n : ∀ x h up, x < h → NoDup (scan_order n x h up).
Proof.
  induction n as [|n IH]; intros x h up Hx; cbn [scan_order]; [constructor|]. destruct (Z.ltb_spec 0 x); [|constructor].
  set (x' := if x =? 6 then x - 1 else x). assert (Hx' : x' <= x) by (unfold x'; destruct (x =? 6); lia). apply NoDup_app. split_and!.
  - apply column_NoDup. destruct up; [rewrite reverse_Permutation|]; apply rows_NoDup.
  - intros p Hp Hq. apply scan_order_in in Hq; [|lia]. apply list_elem_of_In, in_flat_map in Hp as (y & _ & [<-|[<-|[]]]); cbn [fst] in Hq; lia.
  - apply IH. lia.
Qed.

(** ** [EmbedDataBits] goes through the places in this order *)
Section embed.
Context (dataBits : CBC_QRCoderBitVector) (l : list bool) (Hbits : holds dataBits l) (maskPattern w : Z) (Hw : 7 < w).
Notation step := (λ s p, embed_bit dataBits maskPattern p.1 p.2 s).

Lemma step_shape s p : shape w (snd s) → shape w (snd (step s p)).
Proof. destruct s as [i m]. cbn. unfold embed_bit. destruct (negb _); [done|]. destruct (_ <? _); intros H; by apply shape_Set. Qed.

Lemma step_pair_shape x y s : shape w (snd s) → shape w (snd (embed_bit dataBits maskPattern (x - 1) y (embed_bit dataBits maskPattern x y s))).
Proof. intros Hs. exact (step_shape _ (x - 1, y) (step_shape _ (x, y) Hs)). Qed.

Lemma fold_shape ps : ∀ s, shape w (snd s) → shape w (snd (fold_left step ps s)).
Proof. induction ps as [|p ps IH]; intros s Hs; cbn [fold_left]; [done|]. by apply IH, step_shape. Qed.

Lemma columns_up x k : ∀ fuel s, shape w (snd s) → Z.of_nat k <= w → (k < fuel)%nat →
  embed_columns dataBits maskPattern fuel x (Z.of_nat k - 1) (-1) s =
    (-1, fold_left step (flat_map (λ y, [(x, y); (x - 1, y)]) (reverse (rows_but_6 (Z.of_nat k)))) s).
Proof.
  induction k as [|k IH]; intros fuel s Hs Hk Hf; (destruct fuel as [|fuel]; [lia|]); cbn [embed_columns]; [done|].
  rewrite (sh_height w _ Hs). replace (_ && _) with true by lia.
  assert (Er : reverse (rows_but_6 (Z.of_nat (S k))) = (if Z.of_nat k =? 6 then [] else [Z.of_nat k]) ++ reverse (rows_but_6 (Z.of_nat k))).
  { unfold rows_but_6. rewrite seqZ_S, List.filter_app, reverse_app, Z.add_0_l. cbn [List.filter]. by destruct (Z.of_nat k =? 6). }
  rewrite Er. replace (Z.of_nat (S k) - 1) with (Z.of_nat k) by lia. replace (Z.of_nat k + -1) with (Z.of_nat k - 1) by lia.
  destruct (Z.eqb_spec (Z.of_nat k) 6); cbn [app flat_map]; [by apply IH; [done|lia|lia]|].
  rewrite IH; [done| |lia|lia]. by apply step_pair_shape.
Qed.

Lemma columns_down x k : ∀ fuel s, shape w (snd s) → Z.of_nat k <= w → (k < fuel)%nat →
  embed_columns dataBits maskPattern fuel x (w - Z.of_nat k) 1 s =
    (w, fold_left step (flat_map (λ y, [(x, y); (x - 1, y)]) (List.filter (λ y, negb (y =? 6)) (seqZ (w - Z.of_nat k) (Z.of_nat k)))) s).
Proof.
  induction k as [|k IH]; intros fuel s Hs Hk Hf; (destruct fuel as [|fuel]; [lia|]); cbn [embed_columns]; rewrite (sh_height w _ Hs).
  - replace (_ && _) with false by lia. cbn. f_equal. lia.
  - replace (_ && _) with true by lia. rewrite seqZ_cons by lia. replace (Z.pred (Z.of_nat (S k))) with (Z.of_nat k) by lia. cbn [List.filter].
    replace (w - Z.of_nat (S k) + 1) with (w - Z.of_nat k) by lia. replace (Z.succ (w - Z.of_nat (S k))) with (w - Z.of_nat k) by lia.
    destruct (Z.eqb_spec (w - Z.of_nat (S k)) 6); cbn [negb app flat_map]; [by apply IH; [done|lia|lia]|].
    rewrite IH; [done| |lia|lia]. by apply step_pair_shape.
Qed.

Lemma embed_all_order n : ∀ (x : Z) (up : bool) s, shape w (snd s) →
  embed_all dataBits maskPattern n x (if up then w - 1 else 0) (if up then -1 else 1) s = fold_left step (scan_order n x w up) s.
Proof.
  induction n as [|n IH]; intros x up s Hs; cbn [embed_all scan_order]; [done|]. destruct (0 <? x); [|done]. set (x' := if x =? 6 then x - 1 else x).
  rewrite (sh_height w _ Hs), fold_left_app. destruct up.
  - pose proof (columns_up x' (Z.to_nat w) (S (Z.to_nat w)) s Hs ltac:(lia) ltac:(lia)) as E. rewrite Z2Nat.id in E by lia. rewrite E.
    rewrite <-(IH (x' - 2) false); [done|]. by apply fold_shape.
  - pose proof (columns_down x' (Z.to_nat w) (S (Z.to_nat w)) s Hs ltac:(lia) ltac:(lia)) as E. rewrite Z2Nat.id, Z.sub_diag in E by lia. rewrite E.
    change (- (1)) with (-1). rewrite <-(IH (x' - 2) true); [done|]. by apply fold_shape.
Qed.

(** ** The bits come to the free places, one by one *)
Definition padded (n : nat) (b : list bool) : list bool := take n (b ++ replicate n false).

Lemma padded_S n b : padded (S n) b = default false (b !! 0%nat) :: padded n (drop 1 b).
Proof.
  unfold padded. destruct b as [|c b]; [done|]. cbn [lookup list_lookup default drop app take]. f_equal. rewrite replicate_S_end, app_assoc, take_app_le; [done|].
  rewrite length_app, length_replicate. lia.
Qed.

Lemma embed_fold ps : NoDup ps → Forall (inside w) ps → ∀ i m, 0 <= i <= zlen l → shape w m →
  let '(i', m') := fold_left step ps (i, m) in
  let free := free_places m ps in
  map (read_bit maskPattern m') free = padded (length free) (drop (Z.to_nat i) l) ∧
  i' = Z.min (zlen l) (i + zlen free) ∧
  (∀ q, inside w q → q ∉ free → matrix_Get q.1 q.2 m' = matrix_Get q.1 q.2 m).
Proof.
  induction 1 as [|p ps Hp Hnd IH]; intros Hin i m Hi Hm; cbn [fold_left]; [split_and!; [done|change (zlen (free_places m [])) with 0; lia|done]|].
  apply Forall_cons in Hin as [Hpi Hin]. specialize (IH Hin). cbn [free_places List.filter]. unfold embed_bit at 2.
  destruct (IsEmpty (matrix_Get p.1 p.2 m)) eqn:Ep; cbn [negb]; [|by apply IH].
  rewrite (holds_size _ _ Hbits). set (bit := default false (l !! Z.to_nat i)). set (i1 := if i <? zlen l then i + 1 else i).
  assert (Es : (let '(bit, szBitIndex) := if i <? zlen l then (At i dataBits, i + 1) else (0, i) in
    (szBitIndex, matrix_Set p.1 p.2 (if GetDataMaskBit maskPattern p.1 p.2 then bit .^ 1 else bit) m)) =
    (i1, matrix_Set p.1 p.2 (Z.b2z (xorb bit (GetDataMaskBit maskPattern p.1 p.2))) m)).
  { unfold i1, bit. destruct (Z.ltb_spec i (zlen l)).
    - rewrite (At_holds _ _ _ Hbits) by lia. destruct (default false _), (GetDataMaskBit _ _ _); reflexivity.
    - rewrite lookup_ge_None_2 by (unfold zlen in *; lia). cbn [default]. destruct (GetDataMaskBit _ _ _); reflexivity. }
  rewrite Es. set (v := Z.b2z _). set (m1 := matrix_Set p.1 p.2 v m).
  assert (Hm1 : shape w m1) by by apply shape_Set.
  assert (Hv : u8 v = v ∧ (v =? 1) = xorb bit (GetDataMaskBit maskPattern p.1 p.2)) by (unfold v; by destruct (xorb _ _)).
  assert (Hg : ∀ q, inside w q → matrix_Get q.1 q.2 m1 = if bool_decide (p = q) then v else matrix_Get q.1 q.2 m).
  { intros [qx qy] Hq. destruct p as [px py]. cbn [fst snd]. unfold m1. rewrite (Get_Set w) by done. by rewrite (proj1 Hv). }
  assert (Hf : free_places m1 ps = free_places m ps).
  { unfold free_places. clear -Hp Hg Hin. induction Hin as [|q ps Hq Hin IHl]; [done|]. apply not_elem_of_cons in Hp as [Hne Hp]. cbn [List.filter].
    rewrite Hg, bool_decide_eq_false_2 by done. rewrite IHl by done. done. }
  specialize (IH i1 m1 ltac:(unfold i1; destruct (Z.ltb_spec i (zlen l)); lia) Hm1). rewrite Hf in IH.
  destruct (fold_left step ps (i1, m1)) as [i' m'] eqn:Ef. destruct IH as (H1 & H2 & H3). fold (free_places m ps).
  assert (Hnf : p ∉ free_places m ps) by (intros H; apply Hp; unfold free_places in H; apply list_elem_of_In, filter_In in H as [H _]; by apply list_elem_of_In).
  split_and!.
  - cbn [map length]. rewrite padded_S, H1. f_equal.
    + unfold read_bit. rewrite H3 by done. rewrite Hg, bool_decide_eq_true_2 by done. rewrite (proj2 Hv), lookup_drop, Nat.add_0_r. fold bit.
      by destruct bit, (GetDataMaskBit _ _ _).
    + f_equal. rewrite drop_drop. unfold i1. destruct (Z.ltb_spec i (zlen l)); [f_equal; lia|]. rewrite !drop_ge by (unfold zlen in *; lia). done.
  - rewrite H2, zlen_cons. unfold i1. pose proof (zlen_nonneg (free_places m ps)). destruct (Z.ltb_spec i (zlen l)); lia.
  - intros q Hq Hnq. apply not_elem_of_cons in Hnq as [Hne Hnq]. rewrite H3 by done. by rewrite Hg, bool_decide_eq_false_2 by done.
Qed.

Lemma EmbedDataBits_spec m : shape w m → let free := free_places m (scan_order (Z.to_nat w) (w - 1) w true) in zlen l <= zlen free →
  ∃ m', EmbedDataBits dataBits maskPattern m = Some m' ∧ shape w m' ∧ (∃ rest, map (read_bit maskPattern m') free = l ++ rest) ∧
  (∀ q, inside w q → IsEmpty (matrix_Get q.1 q.2 m) = false → matrix_Get q.1 q.2 m' = matrix_Get q.1 q.2 m).
Proof.
  intros Hm free Hle. unfold EmbedDataBits. rewrite (sh_width w m Hm), (sh_height w m Hm).
  pose proof (embed_all_order (Z.to_nat w) (w - 1) true (0, m) Hm) as Eo. cbv iota in Eo. rewrite Eo. clear Eo.
  set (order := scan_order _ _ _ _) in *.
  assert (Hin : Forall (inside w) order) by (apply Forall_forall; intros p Hp; apply scan_order_in in Hp; [|lia]; unfold inside; lia).
  pose proof (embed_fold order (scan_order_NoDup (Z.to_nat w) (w - 1) w true ltac:(lia)) Hin 0 m ltac:(pose proof (zlen_nonneg l); lia) Hm) as Hs.
  pose proof (fold_shape order (0, m) Hm) as Hsh. destruct (fold_left step order (0, m)) as [i1 m1]. cbn [snd] in Hsh. destruct Hs as (H1 & H2 & H3). fold free in H1, H2, H3.
  rewrite (holds_size _ _ Hbits). replace (i1 =? zlen l) with true by lia. exists m1. split_and!; [done|done| |].
  - change (drop (Z.to_nat 0) l) with l in H1. rewrite H1. unfold padded.
    exists (take (length free - length l) (replicate (length free) false)). unfold zlen in Hle. by rewrite take_app, (take_ge l) by lia.
  - intros q Hq He. apply H3; [done|]. intros Hf. unfold free, free_places in Hf. apply list_elem_of_In, filter_In in Hf as [_ Hf]. congruence.
Qed.
End embed.

(** ** What the patterns of a symbol occupy

    The cells that [EmbedBasicPatterns], [EmbedTypeInfo] and
    [MaybeEmbedVersionInfo] take, whatever the level and the mask: the patterns
    of the forty versions never meet, and leave room for all code words. *)

(** The cells taken, and how many of them data could have taken. *)
Record cells := Cells { taken : PositiveSet.t; count : Z }.
Definition no_cells : cells := Cells PositiveSet.empty 0.

Definition key (w : Z) (p : Z * Z) : positive := Z.to_pos (p.2 * w + p.1 + 1).
Definition is_taken (w : Z) (s : cells) (p : Z * Z) : bool := PositiveSet.mem (key w p) (taken s).

Definition mark (w : Z) (p : Z * Z) (s : cells) : option cells :=
  if (0 <=? p.1) && (p.1 <? w) && (0 <=? p.2) && (p.2 <? w) then
    Some (if is_taken w s p then s else Cells (PositiveSet.add (key w p) (taken s)) (count s + if (p.1 =? 6) || (p.2 =? 6) then 0 else 1))
  else None.
Definition mark_free (w : Z) (p : Z * Z) (s : cells) : option cells := if is_taken w s p then None else mark w p s.

(** ** The patterns, as cells *)
Section cells.
Context (w : Z).
Notation mark := (mark w).
Notation mark_free := (mark_free w).

Definition block_cells (x0 y0 width height : Z) (s : cells) : option cells := each (λ p, mark_free (x0 + p.1, y0 + p.2)) (places_of width height) s.
Definition row_cells (x0 y0 : Z) (s : cells) : option cells := each (λ x, mark_free (x0 + x, y0)) (seqZ 0 8) s.
Definition column_cells (x0 y0 : Z) (s : cells) : option cells := each (λ y, mark_free (x0, y0 + y)) (seqZ 0 7) s.

Definition finder_cells (s : cells) : option cells :=
  s ← block_cells 0 0 7 7 s;
  s ← block_cells (w - 7) 0 7 7 s;
  s ← block_cells 0 (w - 7) 7 7 s;
  s ← row_cells 0 7 s;
  s ← row_cells (w - 8) 7 s;
  s ← row_cells 0 (w - 8) s;
  s ← column_cells 7 0 s;
  s ← column_cells (w - 8) 0 s;
  column_cells 7 (w - 7) s.

Definition adjustment_cells (version : Z) (s : cells) : option cells :=
  if version <? 2 then Some s
  else if zlen kPositionAdjustmentPatternCoordinates <=? version - 2 then None
  else
    let coordinates := coordinates_of (nth (Z.to_nat (version - 2)) kPositionAdjustmentPatternCoordinates []) in
    each (λ y s, each (λ x s,
      if negb ((0 <=? x) && (x <? w) && (0 <=? y) && (y <? w)) then None
      else if is_taken w s (x, y) then Some s else block_cells (x - 2) (y - 2) 5 5 s) coordinates s) coordinates s.

Definition timing_cells (s : cells) : option cells := each (λ i s, s ← mark (i, 6) s; mark (6, i) s) (seqZ 8 (w - 16)) s.

Definition basic_cells (version : Z) (s : cells) : option cells :=
  s ← finder_cells s;
  s ← mark_free (8, w - 8) s;
  s ← adjustment_cells version s;
  timing_cells s.

Definition type_cells (s : cells) : option cells :=
  each (λ i s, s ← mark (entry TYPE_INFO_COORDINATES i 0, entry TYPE_INFO_COORDINATES i 1) s;
    if i <? 8 then mark (w - i - 1, 8) s else mark (8, w - 7 + (i - 8)) s) (seqZ 0 15) s.
Definition version_cells (version : Z) (s : cells) : option cells :=
  if version <? 7 then Some s else each (λ p s, s ← mark (p.2, w - 11 + p.1) s; mark (w - 11 + p.1, p.2) s) (places_of 3 6) s.

Definition pattern_cells (version : Z) : option cells :=
  s ← basic_cells version no_cells; s ← type_cells s; version_cells version s.
End cells.

(** ** The function patterns of the format

    Rectangles [(x, y, width, height)]: three finders with their separators and the
    descriptions beside them, two timing lines, the version twice from version 7
    on, and the alignment patterns, whose centres are spread evenly, but not in
    the corners of the finders. *)
Definition side (version : Z) : Z := 4 * version + 17.

Definition alignment_centres (version : Z) : list Z :=
  if version <? 2 then []
  else
    let n := version / 7 + 2 in
    let step := if version =? 32 then 26 else (4 * version + 2 * n + 1) / (2 * n - 2) * 2 in
    6 :: map (λ i, side version - 7 - i * step) (reverse (seqZ 0 (n - 1))).

Definition function_patterns (version : Z) : list (Z * Z * Z * Z) :=
  let w := side version in
  [(0, 0, 9, 9); (w - 8, 0, 8, 9); (0, w - 8, 9, 8); (6, 0, 1, w); (0, 6, w, 1)] ++
  (if version <? 7 then [] else [(w - 11, 0, 3, 6); (0, w - 11, 6, 3)]) ++
  (y ← alignment_centres version; x ← alignment_centres version;
   if ((x =? 6) && ((y =? 6) || (y =? w - 7))) || ((x =? w - 7) && (y =? 6)) then [] else [(x - 2, y - 2, 5, 5)]).

Definition in_rectangle (p : Z * Z) (r : Z * Z * Z * Z) : bool :=
  let '(x, y, width, height) := r in (x <=? p.1) && (p.1 <? x + width) && (y <=? p.2) && (p.2 <? y + height).
Definition function_cell (version : Z) (p : Z * Z) : bool := existsb (in_rectangle p) (function_patterns version).

(** The cells of rectangles as a set of keys. *)
Definition rectangle_keys (w : Z) (r : Z * Z * Z * Z) (s : PositiveSet.t) : PositiveSet.t :=
  let '(x, y, width, height) := r in fold_left (λ s p, PositiveSet.add (key w (x + p.1, y + p.2)) s) (places_of width height) s.
Definition rectangles_keys (w : Z) (l : list (Z * Z * Z * Z)) : PositiveSet.t := fold_left (λ s r, rectangle_keys w r s) l PositiveSet.empty.
Definition rectangle_ok (w : Z) (r : Z * Z * Z * Z) : bool :=
  let '(x, y, width, height) := r in (0 <=? x) && (x + width <=? w) && (0 <=? y) && (y + height <=? w).

(** All forty versions: no pattern fails, the cells are those of the format, and
    the code words fill the others but for a few bits. *)
Definition pattern_ok (version : Z) : bool :=
  let w := side version in
  match pattern_cells w version, GetVersionForNumber version with
  | Some s, Some v =>
      (((w - 1) * (w - 1) - count s) / 8 =? num_words v) && forallb (rectangle_ok w) (function_patterns version) &&
      PositiveSet.equal (taken s) (rectangles_keys w (function_patterns version))
  | _, _ => false
  end.

Lemma patterns_ok : forallb pattern_ok (seqZ 1 40) = true.
Proof. vm_compute. reflexivity. Qed.

Lemma places_in width height p : p ∈ places_of width height ↔ 0 <= p.1 < width ∧ 0 <= p.2 < height.
Proof.
  unfold places_of. rewrite list_elem_of_bind. split.
  - intros (y & Hy & Hy'). apply list_elem_of_bind in Hy as (x & Hx & Hx'). apply list_elem_of_singleton in Hx as ->. apply elem_of_seqZ in Hx', Hy'. cbn. lia.
  - destruct p as [x y]. cbn [fst snd]. intros [Hx Hy]. exists y. split; [|apply elem_of_seqZ; lia]. apply list_elem_of_bind. exists x. split; [by left|apply elem_of_seqZ; lia].
Qed.

Lemma key_inj w p q : inside w p → inside w q → key w p = key w q → p = q.
Proof.
  destruct p as [x y], q as [x' y']. intros [Hx Hy] [Hx' Hy'] E. unfold key in E. cbn [fst snd] in *. apply (f_equal Z.pos) in E. rewrite !Z2Pos.id in E by nia.
  destruct (index_inj w x y x' y' Hx Hx') as [-> ->]; [lia|done].
Qed.

Lemma add_keys w (f : Z * Z → Z * Z) l q s : inside w q → Forall (λ p, inside w (f p)) l →
  PositiveSet.mem (key w q) (fold_left (λ s p, PositiveSet.add (key w (f p)) s) l s) = PositiveSet.mem (key w q) s || bool_decide (q ∈ map f l).
Proof.
  intros Hq Hl. revert s. induction Hl as [|p l Hp Hl IH]; intros s; cbn [fold_left map]; [by rewrite orb_false_r|]. rewrite IH. apply eq_true_iff_eq.
  rewrite !orb_true_iff, !bool_decide_eq_true, elem_of_cons, !PositiveSet.mem_spec, PositiveSet.add_spec. split; [|intros [?|[->|?]]; tauto].
  intros [[E|?]|?]; [|tauto|tauto]. right. left. by apply (key_inj w).
Qed.

Lemma rectangle_keys_mem w r q s : inside w q → rectangle_ok w r = true → PositiveSet.mem (key w q) (rectangle_keys w r s) = PositiveSet.mem (key w q) s || in_rectangle q r.
Proof.
  destruct r as [[[x y] width] height]. intros Hq Hr. unfold rectangle_keys, rectangle_ok in *.
  rewrite (add_keys w (λ p, (x + p.1, y + p.2))); [|done|apply Forall_forall; intros p Hp; apply places_in in Hp; unfold inside; cbn [fst snd]; lia]. f_equal.
  apply eq_true_iff_eq. rewrite bool_decide_eq_true. unfold in_rectangle. rewrite list_elem_of_In, in_map_iff. split.
  - intros (p & <- & Hp). apply list_elem_of_In, places_in in Hp. cbn [fst snd]. lia.
  - intros Hi. destruct q as [a b]. cbn [fst snd] in Hi. exists (a - x, b - y). split; [cbn [fst snd]; f_equal; lia|]. apply list_elem_of_In, places_in. cbn [fst snd]. lia.
Qed.

Lemma rectangles_keys_mem w l q : inside w q → forallb (rectangle_ok w) l = true → PositiveSet.mem (key w q) (rectangles_keys w l) = existsb (in_rectangle q) l.
Proof.
  intros Hq. unfold rectangles_keys. assert (H : ∀ s, forallb (rectangle_ok w) l = true →
    PositiveSet.mem (key w q) (fold_left (λ s r, rectangle_keys w r s) l s) = PositiveSet.mem (key w q) s || existsb (in_rectangle q) l); [|by apply H].
  induction l as [|r l IH]; intros s Hl; cbn [fold_left existsb forallb] in *; [by rewrite orb_false_r|]. apply andb_true_iff in Hl as [Hr Hl].
  rewrite IH, rectangle_keys_mem by done. by rewrite orb_assoc.
Qed.

Lemma pattern_room version v : 1 <= version <= 40 → GetVersionForNumber version = Some v →
  ∃ s, pattern_cells (side version) version = Some s ∧ ((side version - 1) * (side version - 1) - count s) / 8 = num_words v ∧
    ∀ p, inside (side version) p → is_taken (side version) s p = function_cell version p.
Proof.
  intros Hv Ev. pose proof patterns_ok as H. rewrite forallb_forall in H. specialize (H version).
  assert (Hin : In version (seqZ 1 40)) by (apply list_elem_of_In, elem_of_seqZ; lia). specialize (H Hin). unfold pattern_ok in H. cbv zeta in H. rewrite Ev in H.
  destruct (pattern_cells (side version) version) as [s|]; [|done]. rewrite !andb_true_iff in H. destruct H as [[Hc Hr] He]. exists s. split; [done|]. split; [by apply Z.eqb_eq|].
  intros p Hp. unfold is_taken, function_cell. rewrite <-(rectangles_keys_mem (side version)) by done. apply PositiveSet.equal_spec in He. apply eq_true_iff_eq.
  rewrite !PositiveSet.mem_spec. apply He.
Qed.

(** ** The places of the data *)
Lemma rows_length h : 6 < h → zlen (rows_but_6 h) = h - 1.
Proof.
  intros Hh. unfold rows_but_6. replace h with (6 + (1 + (h - 7))) at 1 by lia. rewrite !seqZ_app by lia. rewrite !List.filter_app, !zlen_app.
  change (List.filter _ (seqZ 0 6)) with [0; 1; 2; 3; 4; 5]. change (List.filter _ (seqZ (0 + 6) 1)) with (@nil Z).
  assert (E : ∀ l, Forall (λ y, y ≠ 6) l → List.filter (λ y, negb (y =? 6)) l = l).
  { induction 1 as [|y l Hy Hl IH]; [done|]. cbn [List.filter]. destruct (Z.eqb_spec y 6); [done|]. cbn [negb]. by f_equal. }
  rewrite E by (apply Forall_forall; intros y Hy; apply elem_of_seqZ in Hy; lia). unfold zlen. rewrite length_seqZ. cbn [length]. lia.
Qed.

Lemma column_length x l : zlen (flat_map (λ y : Z, [(x, y); (x - 1, y)]) l) = 2 * zlen l.
Proof. induction l as [|y l IH]; [done|]. cbn [flat_map app]. rewrite !zlen_cons, IH. lia. Qed.

(** The first of the last [k] pairs of columns. *)
Definition column_at (k : nat) : Z := if (3 <=? k)%nat then 2 * Z.of_nat k else 2 * Z.of_nat k - 1.

Lemma column_at_S k : (if column_at (S k) =? 6 then column_at (S k) - 1 else column_at (S k)) - 2 = column_at k ∧ 0 < column_at (S k) ∧
  (if column_at (S k) =? 6 then column_at (S k) - 1 else column_at (S k)) - 1 ≠ 6 ∧ (if column_at (S k) =? 6 then column_at (S k) - 1 else column_at (S k)) ≠ 6.
Proof. unfold column_at. destruct (Nat.leb_spec 3 k), (Nat.leb_spec 3 (S k)); destruct (Z.eqb_spec (2 * Z.of_nat (S k)) 6), (Z.eqb_spec (2 * Z.of_nat (S k) - 1) 6); lia. Qed.

Lemma scan_order_columns h k : 6 < h → ∀ n up, (k <= n)%nat → column_at k < h →
  zlen (scan_order n (column_at k) h up) = 2 * Z.of_nat k * (h - 1) ∧
  ∀ p, 0 <= p.1 <= column_at k → 0 <= p.2 < h → p ∈ scan_order n (column_at k) h up ↔ p.1 ≠ 6 ∧ p.2 ≠ 6.
Proof.
  intros Hh. induction k as [|k IH]; intros n up Hn Hc; (destruct n as [|n]; [try lia; cbn [scan_order]|]); cbn [scan_order].
  1,2: split; [done|unfold column_at; cbn; lia].
  destruct (column_at_S k) as (E & Hpos & Hne & Hne'). destruct (Z.ltb_spec 0 (column_at (S k))); [|lia]. rewrite E.
  assert (Hx : column_at (S k) = 6 ∧ (if column_at (S k) =? 6 then column_at (S k) - 1 else column_at (S k)) = 5 ∨ (if column_at (S k) =? 6 then column_at (S k) - 1 else column_at (S k)) = column_at (S k)) by (destruct (Z.eqb_spec (column_at (S k)) 6); lia).
  set (x := if _ =? 6 then _ else _) in *. set (rows := if up then _ else _).
  destruct (IH n (negb up) ltac:(lia) ltac:(lia)) as [Hl Hp].
  assert (Hrows : zlen rows = h - 1 ∧ ∀ y, In y rows ↔ 0 <= y < h ∧ y ≠ 6).
  { unfold rows. split; [rewrite <-rows_length by done; destruct up; [|done]; unfold zlen; by rewrite length_reverse|].
    intros y. rewrite <-rows_in. destruct up; [|done]. by rewrite <-!list_elem_of_In, elem_of_reverse. }
  destruct Hrows as [Hrl Hrows]. split; [rewrite zlen_app, Hl, column_length, Hrl; lia|]. intros p Hp1 Hp2.
  assert (Hhead : p ∈ flat_map (λ y, [(x, y); (x - 1, y)]) rows ↔ (p.1 = x ∨ p.1 = x - 1) ∧ p.2 ≠ 6).
  { rewrite list_elem_of_In, in_flat_map. destruct p as [a b]. cbn [fst snd] in *. split.
    - intros (y & Hy & Hin). apply Hrows in Hy. destruct Hin as [[= <- <-]|[[= <- <-]|[]]]; lia.
    - intros [Ha Hb]. exists b. split; [apply Hrows; lia|]. destruct Ha as [->| ->]; cbn; auto. }
  rewrite elem_of_app, Hhead. destruct (Z.le_gt_cases p.1 (column_at k)) as [Hle|Hgt]; [rewrite Hp by lia; lia|].
  split; [|lia]. intros [?|Ht]; [lia|]. apply scan_order_in in Ht; lia.
Qed.

(** The order of a square with [w] cells a side. *)
Definition data_order (w : Z) : list (Z * Z) := scan_order (Z.to_nat w) (w - 1) w true.

Lemma data_order_spec w : 20 < w → w mod 2 = 1 → zlen (data_order w) = (w - 1) * (w - 1) ∧ ∀ p, inside w p → p ∈ data_order w ↔ p.1 ≠ 6 ∧ p.2 ≠ 6.
Proof.
  intros Hw Ho. set (k := Z.to_nat (w / 2)). assert (Ew : w = 2 * Z.of_nat k + 1) by (unfold k; Z.div_mod_to_equations; lia).
  assert (Ec : column_at k = w - 1) by (unfold column_at; replace (3 <=? k)%nat with true by (symmetry; apply Nat.leb_le; lia); lia).
  unfold data_order. pose proof (scan_order_columns w k ltac:(lia) (Z.to_nat w) true ltac:(lia) ltac:(lia)) as [H1 H2]. rewrite Ec in *.
  split; [rewrite H1; nia|]. intros p [Hp1 Hp2]. apply H2; lia.
Qed.

Lemma data_order_inside w : Forall (inside w) (data_order w) ∧ NoDup (data_order w).
Proof.
  split; [|apply scan_order_NoDup; lia]. apply Forall_forall. intros p Hp. apply scan_order_in in Hp; [|lia]. unfold inside. lia.
Qed.

(** What [f] holds of and what it does not. *)
Lemma filter_split {A} (f : A → bool) l : zlen l = zlen (List.filter f l) + zlen (List.filter (λ a, negb (f a)) l).
Proof. induction l as [|a l IH]; [done|]. cbn [List.filter]. destruct (f a); cbn [negb]; rewrite !zlen_cons; lia. Qed.

Lemma filter_one_more {A} `{EqDecision A} (f f' : A → bool) (p : A) l : NoDup l → f p = false → (∀ q, q ∈ l → f' q = f q || bool_decide (p = q)) →
  zlen (List.filter f' l) = zlen (List.filter f l) + (if bool_decide (p ∈ l) then 1 else 0).
Proof.
  intros Hnd Hp. induction Hnd as [|a l Ha Hl IH]; intros Hf; [done|]. specialize (IH ltac:(intros q Hq; apply Hf; by right)). cbn [List.filter]. rewrite (Hf a) by left.
  destruct (decide (p = a)) as [->|Hne].
  - rewrite (bool_decide_eq_true_2 (a = a)), orb_true_r, (bool_decide_eq_true_2 (a ∈ a :: l)) by (done || left).
    rewrite (bool_decide_eq_false_2 (a ∈ l)) in IH by done. rewrite Hp, zlen_cons. lia.
  - rewrite (bool_decide_eq_false_2 (p = a)), orb_false_r by done. assert (E : bool_decide (p ∈ a :: l) = bool_decide (p ∈ l)) by (apply bool_decide_ext; rewrite elem_of_cons; tauto).
    rewrite E. destruct (f a); rewrite ?zlen_cons; lia.
Qed.

(** ** The cells follow the matrix *)
(** What a cell of a symbol holds. *)
Definition bit_value (v : Z) : Prop := v = 0 ∨ v = 1.

Lemma At_bit i v : bit_value (At i v).
Proof. unfold bit_value, At. set (z := _ .>> _). pose proof (Z.land_ones z 1 ltac:(lia)) as E. change (Z.ones 1) with 1 in E. rewrite E. Z.div_mod_to_equations. lia. Qed.

Section simulation.
Context (w : Z) (Hw : 20 < w) (Hodd : w mod 2 = 1).

Record marked (s : cells) (m : CBC_CommonByteMatrix) : Prop := {
  mk_shape : shape w m;
  mk_empty : ∀ p, inside w p → IsEmpty (matrix_Get p.1 p.2 m) = negb (is_taken w s p);
  mk_valid : ∀ p, inside w p → IsValidValue (matrix_Get p.1 p.2 m) = true;
  mk_count : zlen (List.filter (is_taken w s) (data_order w)) = count s;
}.
Lemma mark_inside p s s' : mark w p s = Some s' → inside w p ∧ ∀ q, inside w q → is_taken w s' q = is_taken w s q || bool_decide (p = q).
Proof.
  unfold mark. destruct (_ && _ && _ && _) eqn:E; [|done]. intros [= <-]. assert (Hp : inside w p) by (unfold inside; lia). split; [done|]. intros q Hq.
  destruct (is_taken w s p) eqn:Et.
  - case_bool_decide as Epq; [subst; by rewrite Et|by rewrite orb_false_r].
  - unfold is_taken. cbn [taken]. apply eq_true_iff_eq. rewrite orb_true_iff, bool_decide_eq_true, !PositiveSet.mem_spec, PositiveSet.add_spec. split; [|intros [?| ->]; tauto].
    intros [?|?]; [right; symmetry; by apply (key_inj w)|tauto].
Qed.

Lemma mark_count p s s' : mark w p s = Some s' → zlen (List.filter (is_taken w s) (data_order w)) = count s → zlen (List.filter (is_taken w s') (data_order w)) = count s'.
Proof.
  intros E Hc. destruct (mark_inside _ _ _ E) as [Hp Hq]. destruct (data_order_inside w) as [Hin Hnd]. rewrite Forall_forall in Hin.
  unfold mark in E. destruct (_ && _ && _ && _); [|done]. destruct (is_taken w s p) eqn:Et; [by injection E as <-|].
  rewrite (filter_one_more _ (is_taken w s') p _ Hnd Et (λ q Hq', Hq q (Hin q Hq'))), Hc. injection E as <-. cbn [count]. f_equal.
  destruct (data_order_spec w Hw Hodd) as [_ Hn]. specialize (Hn p Hp). destruct ((p.1 =? 6) || (p.2 =? 6)) eqn:E6.
  - rewrite bool_decide_eq_false_2; [done|]. rewrite Hn. lia.
  - rewrite bool_decide_eq_true_2; [done|]. rewrite Hn. lia.
Qed.

Lemma marked_Set p v s s' m : marked s m → mark w p s = Some s' → bit_value v → marked s' (matrix_Set p.1 p.2 v m).
Proof.
  intros [H1 H2 H3 H4] E Hv. pose proof (mark_count _ _ _ E H4). apply mark_inside in E as [Hp Hq]. assert (Eu : u8 v = v ∧ IsEmpty v = false ∧ IsValidValue v = true) by (by destruct Hv as [-> | ->]).
  destruct Eu as (Eu & Ee & Eval). constructor; [by apply shape_Set| | |done]; intros q Hin; destruct p as [x y], q as [x' y']; cbn [fst snd]; rewrite (Get_Set w) by done; rewrite Eu.
  - rewrite Hq by done. case_bool_decide; [by rewrite Ee, orb_true_r|]. rewrite orb_false_r. by apply (H2 (x', y')).
  - case_bool_decide; [done|]. by apply (H3 (x', y')).
Qed.

(** Where the cells go on, the matrix does. *)
Definition sim (f : CBC_CommonByteMatrix → option CBC_CommonByteMatrix) (g : cells → option cells) : Prop :=
  ∀ s m s', marked s m → g s = Some s' → ∃ m', f m = Some m' ∧ marked s' m'.

Lemma sim_bind f g f' g' : sim f g → sim f' g' → sim (λ m, m' ← f m; f' m') (λ s, s' ← g s; g' s').
Proof. intros Hf Hf' s m s' Hm E. destruct (g s) as [s1|] eqn:E1; [|done]. destruct (Hf s m s1 Hm E1) as (m1 & -> & Hm1). cbn [mbind option_bind] in *. by apply (Hf' s1). Qed.

Lemma sim_shape f f' g : (∀ m, shape w m → f m = f' m) → sim f' g → sim f g.
Proof. intros E Hf s m s' Hm Hg. rewrite E by apply (mk_shape s m Hm). by apply (Hf s). Qed.

Lemma sim_each {A} (f : A → CBC_CommonByteMatrix → option CBC_CommonByteMatrix) g l : (∀ a, a ∈ l → sim (f a) (g a)) → sim (each f l) (each g l).
Proof.
  induction l as [|a l IH]; intros H; [intros s m s' Hm [= <-]; by exists m|]. apply (sim_bind (f a) (g a) (each f l) (each g l)); [apply H; left|]. apply IH. intros b Hb. apply H. by right.
Qed.

Lemma sim_fold {A} (f : CBC_CommonByteMatrix → A → CBC_CommonByteMatrix) g l : (∀ a, a ∈ l → sim (λ m, Some (f m a)) (g a)) → sim (λ m, Some (fold_left f l m)) (each g l).
Proof.
  induction l as [|a l IH]; intros H; [intros s m s' Hm [= <-]; by exists m|]. cbn [fold_left].
  refine (sim_bind (λ m, Some (f m a)) (g a) (λ m, Some (fold_left f l m)) (each g l) _ _); [apply H; left|]. apply IH. intros b Hb. apply H. by right.
Qed.

Lemma sim_Set x y v : bit_value v → sim (λ m, Some (matrix_Set x y v m)) (mark w (x, y)).
Proof. intros Hv s m s' Hm E. eexists. split; [done|]. by apply (marked_Set (x, y) v s). Qed.

Lemma sim_put x y v : bit_value v → sim (put_empty x y v) (mark_free w (x, y)).
Proof.
  intros Hv s m s' Hm E. unfold mark_free in E. destruct (is_taken w s (x, y)) eqn:Et; [done|]. unfold put_empty.
  pose proof (mk_empty s m Hm (x, y) (proj1 (mark_inside _ _ _ E))) as He. rewrite Et in He. cbn [fst snd negb] in He. rewrite He. cbn [negb]. by apply (sim_Set x y v Hv s).
Qed.

Lemma sim_timing x y v : bit_value v → sim (timing_place x y v) (mark w (x, y)).
Proof.
  intros Hv s m s' Hm E. pose proof (mark_inside _ _ _ E) as [Hp _]. unfold timing_place. pose proof (mk_valid s m Hm (x, y) Hp) as Hval. cbn [fst snd] in Hval. rewrite Hval. cbn [negb].
  pose proof (mk_empty s m Hm (x, y) Hp) as He. cbn [fst snd] in He. rewrite He. destruct (is_taken w s (x, y)) eqn:Et; cbn [negb]; [|by apply (sim_Set x y v Hv s)].
  exists m. split; [done|]. unfold mark in E. destruct (_ && _ && _ && _); [|done]. rewrite Et in E. by injection E as <-.
Qed.

(** ** The patterns *)
Definition binary (pattern : list (list Z)) (width height : Z) : bool := forallb (λ p, (entry pattern p.2 p.1 =? 0) || (entry pattern p.2 p.1 =? 1)) (places_of width height).

Lemma binary_value pattern width height p : binary pattern width height = true → p ∈ places_of width height → bit_value (entry pattern p.2 p.1).
Proof. unfold binary. rewrite forallb_forall. intros H Hp. apply list_elem_of_In in Hp. specialize (H p Hp). unfold bit_value. lia. Qed.

Lemma sim_block pattern x0 y0 width height : binary pattern width height = true →
  sim (each (λ p m, let '(x, y) := p in put_empty (x0 + x) (y0 + y) (entry pattern y x) m) (places_of width height)) (block_cells w x0 y0 width height).
Proof. intros Hb. apply sim_each. intros [x y] Hp. apply sim_put. by apply (binary_value pattern width height (x, y)). Qed.

Lemma sim_finder x0 y0 : sim (EmbedPositionDetectionPattern x0 y0) (block_cells w x0 y0 7 7).
Proof. by apply sim_block. Qed.
Lemma sim_adjustment x0 y0 : sim (EmbedPositionAdjustmentPattern x0 y0) (block_cells w x0 y0 5 5).
Proof. by apply sim_block. Qed.
Lemma sim_row x0 y0 : sim (EmbedHorizontalSeparationPattern x0 y0) (row_cells w x0 y0).
Proof. apply sim_each. intros x _. apply sim_put. by left. Qed.
Lemma sim_column x0 y0 : sim (EmbedVerticalSeparationPattern x0 y0) (column_cells w x0 y0).
Proof. apply sim_each. intros y _. apply sim_put. by left. Qed.

(** The sides of the matrix are [w]. *)
Ltac in_square l :=
  eapply sim_shape; [|apply l]; let m := fresh in let Hm := fresh in intros m Hm; rewrite ?(sh_width w m Hm), ?(sh_height w m Hm); try replace (w - 7 - 1) with (w - 8) by lia; reflexivity.

Lemma sim_finders : sim EmbedPositionDetectionPatternsAndSeparators (finder_cells w).
Proof.
  unfold EmbedPositionDetectionPatternsAndSeparators, finder_cells.
  apply (sim_bind _ (block_cells w 0 0 7 7)); [apply sim_finder|].
  eapply (sim_bind (λ m, EmbedPositionDetectionPattern (m_width m - 7) 0 m)); [in_square sim_finder|].
  eapply (sim_bind (λ m, EmbedPositionDetectionPattern 0 (m_width m - 7) m)); [in_square sim_finder|].
  eapply (sim_bind (λ m, EmbedHorizontalSeparationPattern 0 (8 - 1) m)); [apply sim_row|].
  eapply (sim_bind (λ m, EmbedHorizontalSeparationPattern (m_width m - 8) (8 - 1) m)); [in_square sim_row|].
  eapply (sim_bind (λ m, EmbedHorizontalSeparationPattern 0 (m_width m - 8) m)); [in_square sim_row|].
  eapply (sim_bind (λ m, EmbedVerticalSeparationPattern 7 0 m)); [apply sim_column|].
  eapply (sim_bind (λ m, EmbedVerticalSeparationPattern (m_height m - 7 - 1) 0 m)); [in_square sim_column|].
  in_square sim_column.
Qed.

Lemma sim_dark : sim EmbedDarkDotAtLeftBottomCorner (mark_free w (8, w - 8)).
Proof.
  eapply (sim_shape _ (λ m, if matrix_Get 8 (w - 8) m =? 0 then None else Some (matrix_Set 8 (w - 8) 1 m))).
  { intros m Hm. unfold EmbedDarkDotAtLeftBottomCorner. by rewrite (sh_height w m Hm). }
  intros s m s' Hm E. unfold mark_free in E. destruct (is_taken w s (8, w - 8)) eqn:Et; [done|].
  pose proof (mk_empty s m Hm (8, w - 8) (proj1 (mark_inside _ _ _ E))) as He. rewrite Et in He. cbn [fst snd] in He.
  destruct (Z.eqb_spec (matrix_Get 8 (w - 8) m) 0) as [Ez|]; [by rewrite Ez in He|]. by apply (sim_Set 8 (w - 8) 1 (or_intror eq_refl) s).
Qed.

Lemma sim_adjustments version : sim (MaybeEmbedPositionAdjustmentPatterns version) (adjustment_cells w version).
Proof.
  unfold sim, MaybeEmbedPositionAdjustmentPatterns, adjustment_cells. destruct (version <? 2); [intros s m s' Hm [= <-]; by exists m|].
  destruct (_ <=? version - 2); [done|]. refine (sim_each _ _ _ _). intros y _. refine (sim_each _ _ _ _). intros x _ s m s' Hm E.
  destruct (negb _) eqn:Ei; [done|]. apply negb_false_iff in Ei. assert (Hin : inside w (x, y)) by (unfold inside; cbn [fst snd]; lia).
  pose proof (mk_empty s m Hm (x, y) Hin) as He. cbn [fst snd] in He. rewrite He. destruct (is_taken w s (x, y)); cbn [negb]; [injection E as <-; by exists m|].
  by apply (sim_adjustment _ _ s).
Qed.

Lemma sim_timings : sim EmbedTimingPatterns (timing_cells w).
Proof.
  unfold EmbedTimingPatterns, timing_cells. intros s m s' Hm. rewrite (sh_width w m (mk_shape s m Hm)). revert s m s' Hm. refine (sim_each _ _ _ _). intros i _.
  assert (Hb : bit_value ((i + 1) mod 2)) by (unfold bit_value; Z.div_mod_to_equations; lia). refine (sim_bind _ _ _ _ _ _); by apply sim_timing.
Qed.

Lemma sim_basic version : sim (EmbedBasicPatterns version) (basic_cells w version).
Proof.
  refine (sim_bind _ _ _ _ sim_finders _). refine (sim_bind _ _ _ _ sim_dark _). refine (sim_bind _ _ _ _ (sim_adjustments version) sim_timings).
Qed.

(** ** The descriptions *)
Lemma sim_type_bit typeInfoBits i :
  sim (λ m, Some (embed_type_bit typeInfoBits i m))
    (λ s, s ← mark w (entry TYPE_INFO_COORDINATES i 0, entry TYPE_INFO_COORDINATES i 1) s; if i <? 8 then mark w (w - i - 1, 8) s else mark w (8, w - 7 + (i - 8)) s).
Proof.
  pose proof (At_bit (m_sizeInBits typeInfoBits - 1 - i) typeInfoBits) as Hb. unfold embed_type_bit. set (bit := At _ _) in *.
  refine (sim_bind (λ m, Some (matrix_Set _ _ bit m)) _ (λ m, Some (if i <? 8 then matrix_Set (m_width m - i - 1) 8 bit m else matrix_Set 8 (m_height m - 7 + (i - 8)) bit m)) _ (sim_Set _ _ _ Hb) _).
  destruct (i <? 8).
  - eapply sim_shape; [intros m Hm; rewrite (sh_width w m Hm); reflexivity|]. by apply sim_Set.
  - eapply sim_shape; [intros m Hm; rewrite (sh_height w m Hm); reflexivity|]. by apply sim_Set.
Qed.

Lemma sim_version version : sim (λ m, Some (MaybeEmbedVersionInfo version m)) (version_cells w version).
Proof.
  unfold sim, MaybeEmbedVersionInfo, version_cells. destruct (version <? 7); [intros s m s' Hm [= <-]; by exists m|]. refine (sim_fold _ _ _ _). intros [j i] _. cbn [fst snd].
  pose proof (At_bit (17 - (3 * i + j)) (MakeVersionInfoBits version)) as Hb. set (bit := At _ _) in *.
  refine (sim_bind (λ m, Some (matrix_Set i (m_height m - 11 + j) bit m)) _ (λ m, Some (matrix_Set (m_height m - 11 + j) i bit m)) _ _ _);
    (eapply sim_shape; [intros m Hm; rewrite (sh_height w m Hm); reflexivity|]; by apply sim_Set).
Qed.
End simulation.
