(* ===== verification/QrRead.v ===== *)
(** * What is drawn is read

    A reader of QR codes, written from the format: the descriptions of the level,
    the mask and the version, with their copies and their check bits, the bits
    between the function patterns, the blocks and the text.  With the encoder it
    shares the table of the blocks and the arithmetic of the field of 256 elements.
    [CBC_QRCoderMatrixUtil::BuildMatrix] draws every version with every mask,
    [ChooseMaskPattern] takes the first mask of the least penalty, and what
    [CBC_QRCoderEncoder::Encode] draws is read. *)
From Stdlib Require Import String.
From Stdlib Require Import MSetPositive.
From S2P Require Import Prelude Utf8 ReedSolomon BitStream QrTables QrBits QrMatrix QrEncoder QrWords QrSymbol.

(** ** The reader *)

(** The condition of a mask, at line [y] and column [x]. *)
Definition mask_condition (maskPattern x y : Z) : bool :=
  match maskPattern with
  | 0 => (y + x) mod 2 =? 0
  | 1 => y mod 2 =? 0
  | 2 => x mod 3 =? 0
  | 3 => (y + x) mod 3 =? 0
  | 4 => (y / 2 + x / 3) mod 2 =? 0
  | 5 => (y * x) mod 2 + (y * x) mod 3 =? 0
  | 6 => ((y * x) mod 2 + (y * x) mod 3) mod 2 =? 0
  | 7 => ((y + x) mod 2 + (y * x) mod 3) mod 2 =? 0
  | _ => false
  end.

(** The remainder of a polynomial over the bits, of degree below [degree + k]. *)
Fixpoint bits_remainder (k : nat) (generator degree v : Z) : Z :=
  match k with
  | O => v
  | S k' => bits_remainder k' generator degree (if Z.testbit v (degree + Z.of_nat k') then v .^ (generator .<< Z.of_nat k') else v)
  end.

(** Bit [i] of the description of the level and the mask, beside the first
    pattern and beside the two others. *)
Definition format_place (i : Z) : Z * Z :=
  if i <? 6 then (8, i) else if i =? 6 then (8, 7) else if i =? 7 then (8, 8) else if i =? 8 then (7, 8) else (14 - i, 8).
Definition format_copy (w i : Z) : Z * Z := if i <? 8 then (w - 1 - i, 8) else (8, w - 15 + i).

(** Bit [i] of the version, in the block at the top and the one at the left. *)
Definition version_place (w i : Z) : Z * Z := (w - 11 + i mod 3, i / 3).
Definition version_copy (w i : Z) : Z * Z := (i / 3, w - 11 + i mod 3).

(** The number whose bits, from the least, are at the places. *)
Definition number_at (n : Z) (place : Z → Z * Z) (m : CBC_CommonByteMatrix) : Z :=
  bits_value (map (λ i, matrix_Get (place i).1 (place i).2 m =? 1) (reverse (seqZ 0 n))).

Definition level_of_bits (bits : Z) : CBC_QRCoderErrorCorrectionLevel :=
  if bits =? 1 then level_L else if bits =? 0 then level_M else if bits =? 3 then level_Q else level_H.

(** Both copies are the same, and without the pattern 101010000010010 (0x5412) they
    are a word of the code of x^10 + x^8 + x^5 + x^4 + x^2 + x + 1. *)
Definition decode_format (v : Z) : option (CBC_QRCoderErrorCorrectionLevel * Z) :=
  let word := v .^ 0x5412 in
  if bits_remainder 5 0x537 10 word =? 0 then Some (level_of_bits (word .>> 13), (word .>> 10) .& 7) else None.
Definition read_type_info (m : CBC_CommonByteMatrix) : option (CBC_QRCoderErrorCorrectionLevel * Z) :=
  let v := number_at 15 format_place m in
  if number_at 15 (format_copy (m_width m)) m =? v then decode_format v else None.

(** From version 7 on the version is drawn, as a word of the code of
    x^12 + x^11 + x^10 + x^9 + x^8 + x^5 + x^2 + 1; it agrees with the width. *)
Definition decode_version (v : Z) : option Z := if bits_remainder 6 0x1f25 12 v =? 0 then Some (v .>> 12) else None.
Definition read_version (m : CBC_CommonByteMatrix) : option Z :=
  let version := (m_width m - 17) / 4 in
  if version <? 7 then Some version
  else
    let v := number_at 18 (version_place (m_width m)) m in
    drawn ← (if number_at 18 (version_copy (m_width m)) m =? v then decode_version v else None);
    if drawn =? version then Some version else None.

Definition data_places (version : Z) (order : list (Z * Z)) : list (Z * Z) := List.filter (λ p, negb (function_cell version p)) order.
Definition unmasked_bit (maskPattern : Z) (m : CBC_CommonByteMatrix) (p : Z * Z) : bool :=
  xorb (matrix_Get p.1 p.2 m =? 1) (mask_condition maskPattern p.1 p.2).

Definition scan_symbol (m : CBC_CommonByteMatrix) : option (list Z) :=
  version ← read_version m;
  '(ecLevel, maskPattern) ← read_type_info m;
  v ← GetVersionForNumber version;
  let places := data_places version (scan_order (Z.to_nat (m_width m)) (m_width m - 1) (m_height m) true) in
  let total := zlen places / 8 in
  let words := read_octets (Z.to_nat total) (map (unmasked_bit maskPattern m) places) in
  data ← read_code_blocks total (num_data v ecLevel) (GetNumBlocks (GetECBlocksForLevel ecLevel v)) words;
  read_segment version (stream_bits data).

(** ** The masks *)
Lemma mask_condition_ok maskPattern x y : 0 <= maskPattern < 8 → 0 <= x → 0 <= y → GetDataMaskBit maskPattern x y = mask_condition maskPattern x y.
Proof.
  intros Hk Hx Hy. assert (Eand : ∀ z, z .& 1 = z mod 2) by (intros z; exact (Z.land_ones z 1 ltac:(lia))).
  unfold GetDataMaskBit, mask_condition. rewrite !Eand. change (y .>> 1) with (Z.shiftr y 1). rewrite Z.shiftr_div_pow2 by lia. change (2 ^ 1) with 2.
  assert (H : maskPattern = 0 ∨ maskPattern = 1 ∨ maskPattern = 2 ∨ maskPattern = 3 ∨ maskPattern = 4 ∨ maskPattern = 5 ∨ maskPattern = 6 ∨ maskPattern = 7) by lia.
  destruct H as [->|[->|[->|[->|[->|[->|[->| ->]]]]]]]; cbn [Z.eqb Pos.eqb]; try done.
  f_equal. rewrite (Z.add_comm ((y * x) mod 3)). done.
Qed.

(** ** Cells that are drawn twice *)
Section twice.
Context {A : Type} (w : Z) (place copy : A → Z * Z) (bit : A → Z) (f : CBC_CommonByteMatrix → A → CBC_CommonByteMatrix).
Context (Hf : ∀ m a, shape w m → f m a = matrix_Set (copy a).1 (copy a).2 (bit a) (matrix_Set (place a).1 (place a).2 (bit a) m)).
Context (Hbit : ∀ a, bit_value (bit a)).
Notation at_cell a q := (q = place a ∨ q = copy a).

Lemma twice_Get m a q : shape w m → inside w (place a) → inside w (copy a) → inside w q →
  (at_cell a q → matrix_Get q.1 q.2 (f m a) = bit a) ∧ (¬ at_cell a q → matrix_Get q.1 q.2 (f m a) = matrix_Get q.1 q.2 m).
Proof.
  intros Hm Hp Hc Hq. assert (Eu : u8 (bit a) = bit a) by (by destruct (Hbit a) as [-> | ->]). rewrite Hf by done.
  assert (Hm1 : shape w (matrix_Set (place a).1 (place a).2 (bit a) m)) by by apply shape_Set.
  destruct (place a) as [x y], (copy a) as [x' y'], q as [x2 y2]. cbn [fst snd] in *.
  rewrite (Get_Set w x' y') by done. rewrite (Get_Set w x y) by done. rewrite Eu.
  split; intros H; repeat case_bool_decide; try done; exfalso; [destruct H; congruence|apply H; auto..].
Qed.

Lemma twice_shape l : ∀ m, shape w m → shape w (fold_left f l m).
Proof. induction l as [|a l IH]; intros m Hm; cbn [fold_left]; [done|]. apply IH. rewrite Hf by done. by apply shape_Set, shape_Set. Qed.

(** Of different elements no cells are the same. *)
Lemma twice_fold l : NoDup l → Forall (λ a, inside w (place a) ∧ inside w (copy a)) l → (∀ a b q, a ∈ l → b ∈ l → at_cell a q → at_cell b q → a = b) →
  ∀ m q, shape w m → inside w q →
  (∀ a, a ∈ l → at_cell a q → matrix_Get q.1 q.2 (fold_left f l m) = bit a) ∧
  ((∀ a, a ∈ l → ¬ at_cell a q) → matrix_Get q.1 q.2 (fold_left f l m) = matrix_Get q.1 q.2 m).
Proof.
  induction 1 as [|a l Ha Hl IH]; intros Hi Hd m q Hm Hq; cbn [fold_left]; [split; [intros a Ha; by apply elem_of_nil in Ha|done]|].
  apply Forall_cons in Hi as [[Hpa Hca] Hi]. assert (Hm1 : shape w (f m a)) by (rewrite Hf by done; by apply shape_Set, shape_Set).
  destruct (twice_Get m a q Hm Hpa Hca Hq) as [G1 G2].
  destruct (IH Hi (λ b c q' Hb Hc, Hd b c q' (list_elem_of_further _ _ _ Hb) (list_elem_of_further _ _ _ Hc)) (f m a) q Hm1 Hq) as [F1 F2]. split.
  - intros b Hb Hat. apply elem_of_cons in Hb as [->|Hb]; [|by apply F1]. rewrite F2; [by apply G1|]. intros b Hb Hb'.
    apply Ha. rewrite (Hd a b q); [done|left|by right|done|done].
  - intros Hno. rewrite F2 by (intros b Hb; apply Hno; by right). apply G2, Hno. left.
Qed.
End twice.

(** ** The descriptions *)
Definition type_info_ok (ecLevel : CBC_QRCoderErrorCorrectionLevel) (maskPattern : Z) : bool :=
  match MakeTypeInfoBits ecLevel maskPattern with
  | Some bits =>
      (m_sizeInBits bits =? 15) &&
      match decode_format (bits_value (map (λ i, At (14 - i) bits =? 1) (reverse (seqZ 0 15)))) with
      | Some (ecLevel', maskPattern') => (Ordinal ecLevel' =? Ordinal ecLevel) && (maskPattern' =? maskPattern)
      | None => false
      end
  | None => false
  end.

Lemma type_infos_ok : forallb (λ ecLevel, forallb (type_info_ok ecLevel) (seqZ 0 8)) [level_L; level_M; level_Q; level_H] = true.
Proof. vm_compute. reflexivity. Qed.

Lemma type_info_spec ecLevel maskPattern : 0 <= maskPattern < 8 →
  ∃ bits, MakeTypeInfoBits ecLevel maskPattern = Some bits ∧ m_sizeInBits bits = 15 ∧
    decode_format (bits_value (map (λ i, At (14 - i) bits =? 1) (reverse (seqZ 0 15)))) = Some (ecLevel, maskPattern).
Proof.
  intros Hm. pose proof type_infos_ok as H. rewrite forallb_forall in H. specialize (H ecLevel ltac:(destruct ecLevel; cbn; tauto)). rewrite forallb_forall in H.
  specialize (H maskPattern ltac:(apply list_elem_of_In, elem_of_seqZ; lia)). unfold type_info_ok in H. destruct (MakeTypeInfoBits ecLevel maskPattern) as [bits|]; [|done].
  apply andb_true_iff in H as [Hs H]. exists bits. split; [done|]. split; [lia|]. destruct (decode_format _) as [[e k]|]; [|done]. apply andb_true_iff in H as [He Hk].
  f_equal. f_equal; [|lia]. by destruct e, ecLevel.
Qed.

Definition version_info (version : Z) : Z := bits_value (map (λ i, At (17 - i) (MakeVersionInfoBits version) =? 1) (reverse (seqZ 0 18))).
Lemma version_infos_ok : forallb (λ version, bool_decide (decode_version (version_info version) = Some version)) (seqZ 7 34) = true.
Proof. vm_compute. reflexivity. Qed.

Lemma version_info_spec version : 7 <= version <= 40 → decode_version (version_info version) = Some version.
Proof.
  intros Hv. pose proof version_infos_ok as H. rewrite forallb_forall in H. specialize (H version ltac:(apply list_elem_of_In, elem_of_seqZ; lia)).
  by apply bool_decide_eq_true in H.
Qed.

(** The places of the code are those of the format. *)
Lemma format_places_ok : forallb (λ i, bool_decide ((entry TYPE_INFO_COORDINATES i 0, entry TYPE_INFO_COORDINATES i 1) = format_place i) &&
  (0 <=? (format_place i).1) && ((format_place i).1 <=? 8) && (0 <=? (format_place i).2) && ((format_place i).2 <=? 8) &&
  forallb (λ j, (i =? j) || negb (bool_decide (format_place i = format_place j))) (seqZ 0 15)) (seqZ 0 15) = true.
Proof. vm_compute. reflexivity. Qed.

Lemma format_place_spec i : 0 <= i < 15 → (entry TYPE_INFO_COORDINATES i 0, entry TYPE_INFO_COORDINATES i 1) = format_place i ∧
  0 <= (format_place i).1 <= 8 ∧ 0 <= (format_place i).2 <= 8 ∧ ∀ j, 0 <= j < 15 → format_place i = format_place j → i = j.
Proof.
  intros Hi. pose proof format_places_ok as H. rewrite forallb_forall in H. specialize (H i ltac:(apply list_elem_of_In, elem_of_seqZ; lia)).
  rewrite !andb_true_iff in H. destruct H as [[[[[He H1] H2] H3] H4] Hj]. apply bool_decide_eq_true in He. split; [done|]. split; [lia|]. split; [lia|]. intros j Hj' E.
  rewrite forallb_forall in Hj. specialize (Hj j ltac:(apply list_elem_of_In, elem_of_seqZ; lia)).
  destruct (Z.eqb_spec i j); [done|]. cbn [orb] in Hj. by apply negb_true_iff, bool_decide_eq_false in Hj.
Qed.

Section square.
Context (w : Z) (Hw : 20 < w).

Definition type_place (i : Z) : Z * Z := (entry TYPE_INFO_COORDINATES i 0, entry TYPE_INFO_COORDINATES i 1).

Lemma format_copy_inside i : 0 <= i < 15 → inside w (format_copy w i) ∧ (8 < (format_copy w i).1 ∨ 8 < (format_copy w i).2).
Proof. intros Hi. unfold format_copy, inside. destruct (Z.ltb_spec i 8); cbn [fst snd]; lia. Qed.

Lemma format_cells_apart i j q : 0 <= i < 15 → 0 <= j < 15 →
  (q = type_place i ∨ q = format_copy w i) → (q = type_place j ∨ q = format_copy w j) → i = j.
Proof.
  intros Hi Hj. unfold type_place. destruct (format_place_spec i Hi) as (-> & I1 & I2 & I3), (format_place_spec j Hj) as (-> & J1 & J2 & _).
  destruct (format_copy_inside i Hi) as [_ Ci], (format_copy_inside j Hj) as [_ Cj].
  intros [->| ->] [E|E]; [by apply I3|rewrite E in *; lia|rewrite <-E in *; lia|].
  unfold format_copy in E. destruct (Z.ltb_spec i 8), (Z.ltb_spec j 8); injection E; lia.
Qed.

Lemma type_bits_read bits m : shape w m → let m' := fold_left (λ m i, embed_type_bit bits i m) (seqZ 0 15) m in
  shape w m' ∧ ∀ i, 0 <= i < 15 → matrix_Get (format_place i).1 (format_place i).2 m' = At (m_sizeInBits bits - 1 - i) bits ∧
    matrix_Get (format_copy w i).1 (format_copy w i).2 m' = At (m_sizeInBits bits - 1 - i) bits.
Proof.
  intros Hm m'. set (f := λ (m : CBC_CommonByteMatrix) (i : Z), embed_type_bit bits i m). set (bit := λ i, At (m_sizeInBits bits - 1 - i) bits).
  assert (Hf : ∀ m a, shape w m → f m a = matrix_Set (format_copy w a).1 (format_copy w a).2 (bit a) (matrix_Set (type_place a).1 (type_place a).2 (bit a) m)).
  { intros m0 a H0. unfold f, embed_type_bit, format_copy. fold (bit a). cbn [m_width m_height matrix_Set]. rewrite (sh_width w m0 H0), (sh_height w m0 H0).
    unfold type_place. cbn [fst snd]. destruct (a <? 8); cbn [fst snd]; f_equal; lia. }
  assert (Hb : ∀ a, bit_value (bit a)) by (intros a; apply At_bit). split; [by apply (twice_shape w type_place (format_copy w) bit f Hf)|]. intros i Hi.
  assert (Hi' : ∀ a, a ∈ seqZ 0 15 ↔ 0 <= a < 15) by (intros a; rewrite elem_of_seqZ; lia).
  destruct (format_place_spec i Hi) as (Ep & P1 & P2 & _). destruct (format_copy_inside i Hi) as [Hc _].
  assert (Hin : Forall (λ a, inside w (type_place a) ∧ inside w (format_copy w a)) (seqZ 0 15)).
  { apply Forall_forall. intros a Ha. apply Hi' in Ha. split; [|by apply format_copy_inside]. destruct (format_place_spec a Ha) as (Ea & ? & ? & _). unfold type_place. rewrite Ea. unfold inside. lia. }
  assert (Hap : ∀ a b q, a ∈ seqZ 0 15 → b ∈ seqZ 0 15 → (q = type_place a ∨ q = format_copy w a) → (q = type_place b ∨ q = format_copy w b) → a = b).
  { intros a b q Ha Hb'. apply Hi' in Ha, Hb'. by apply format_cells_apart. }
  split.
  - destruct (twice_fold w type_place (format_copy w) bit f Hf Hb (seqZ 0 15) (NoDup_seqZ _ _) Hin Hap m (format_place i) Hm) as [H _]; [unfold inside; lia|].
    apply (H i); [by apply Hi'|]. left. by rewrite <-Ep.
  - destruct (twice_fold w type_place (format_copy w) bit f Hf Hb (seqZ 0 15) (NoDup_seqZ _ _) Hin Hap m (format_copy w i) Hm Hc) as [H _].
    apply (H i); [by apply Hi'|]. by right.
Qed.

(** The cells of the version, for the elements of the loop. *)
Lemma version_bits_read version m : shape w m → 45 <= w → 7 <= version → let m' := MaybeEmbedVersionInfo version m in
  (∀ i, 0 <= i < 18 → matrix_Get (version_place w i).1 (version_place w i).2 m' = At (17 - i) (MakeVersionInfoBits version) ∧
    matrix_Get (version_copy w i).1 (version_copy w i).2 m' = At (17 - i) (MakeVersionInfoBits version)) ∧
  ∀ q, inside w q → (5 < q.1 ∧ 5 < q.2 ∨ q.1 < 9 ∧ q.2 < 9) → matrix_Get q.1 q.2 m' = matrix_Get q.1 q.2 m.
Proof.
  intros Hm Hw45 Hv m'. set (bits := MakeVersionInfoBits version) in *. set (bit := λ p : Z * Z, At (17 - (3 * p.2 + p.1)) bits).
  set (place := λ p : Z * Z, (p.2, w - 11 + p.1)). set (copy := λ p : Z * Z, (w - 11 + p.1, p.2)).
  set (f := λ (m : CBC_CommonByteMatrix) (p : Z * Z), let '(j, i) := p in
      let bit := At (17 - (3 * i + j)) bits in let m := matrix_Set i (m_height m - 11 + j) bit m in matrix_Set (m_height m - 11 + j) i bit m).
  assert (Em : m' = fold_left f (places_of 3 6) m) by (unfold m', MaybeEmbedVersionInfo; by replace (version <? 7) with false by lia).
  assert (Hf : ∀ m a, shape w m → f m a = matrix_Set (copy a).1 (copy a).2 (bit a) (matrix_Set (place a).1 (place a).2 (bit a) m)).
  { intros m0 [j i] H0. unfold f, bit, place, copy. cbn [fst snd m_height matrix_Set]. by rewrite (sh_height w m0 H0). }
  assert (Hb : ∀ a, bit_value (bit a)) by (intros a; apply At_bit).
  assert (Hin : Forall (λ a, inside w (place a) ∧ inside w (copy a)) (places_of 3 6)).
  { apply Forall_forall. intros a Ha. apply places_in in Ha. unfold inside, place, copy. cbn [fst snd]. lia. }
  assert (Hap : ∀ a b q, a ∈ places_of 3 6 → b ∈ places_of 3 6 → (q = place a ∨ q = copy a) → (q = place b ∨ q = copy b) → a = b).
  { intros [a1 a2] [b1 b2] [q1 q2] Ha Hb'. apply places_in in Ha, Hb'. unfold place, copy. cbn [fst snd] in *. intros [[= -> ->]|[= -> ->]] [[= E1 E2]|[= E1 E2]]; f_equal; lia. }
  assert (Hnd : NoDup (places_of 3 6)) by (apply (bool_decide_eq_true_1 _); vm_compute; reflexivity).
  pose proof (twice_fold w place copy bit f Hf Hb (places_of 3 6) Hnd Hin Hap m) as H. rewrite Em. split.
  - intros i Hi. assert (Ha : (i mod 3, i / 3) ∈ places_of 3 6) by (apply places_in; cbn [fst snd]; Z.div_mod_to_equations; lia).
    assert (Eb : bit (i mod 3, i / 3) = At (17 - i) bits) by (unfold bit; cbn [fst snd]; f_equal; Z.div_mod_to_equations; lia). rewrite <-Eb.
    split; refine (proj1 (H _ Hm _) _ Ha _); try (by left); try (by right); unfold inside, version_place, version_copy; cbn [fst snd]; Z.div_mod_to_equations; lia.
  - intros q Hq Hout. apply (H q Hm Hq). intros a Ha Hat. apply places_in in Ha. unfold place, copy in Hat. destruct Hat as [->| ->]; cbn [fst snd] in Hout; lia.
Qed.
End square.

(** ** A matrix for every version and mask *)
Lemma marked_new w : 0 <= w → marked w no_cells (byte_matrix_new w w).
Proof.
  intros Hw. assert (E : ∀ p, inside w p → matrix_Get p.1 p.2 (byte_matrix_new w w) = 0xff).
  { intros [x y] [Hx Hy]. cbn [fst snd] in *. unfold matrix_Get, byte_matrix_new, rd. cbn [m_bytes m_width]. rewrite nth_lookup, lookup_replicate_2; [done|nia]. }
  constructor; [by apply shape_new|intros p Hp; by rewrite E|intros p Hp; by rewrite E|]. cbn [count no_cells].
  induction (data_order w) as [|p l IH]; [done|]. done.
Qed.


Lemma zlen_stream_bits words : zlen (stream_bits words) = 8 * zlen words.
Proof. unfold zlen. rewrite length_stream_bits. lia. Qed.

(** What a matrix shows to its reader. *)
Record drawn (version : Z) (ecLevel : CBC_QRCoderErrorCorrectionLevel) (maskPattern : Z) (words : list Z) (m : CBC_CommonByteMatrix) : Prop := {
  dr_shape : shape (side version) m;
  dr_version : read_version m = Some version;
  dr_type : read_type_info m = Some (ecLevel, maskPattern);
  dr_size : zlen (data_places version (data_order (side version))) / 8 = zlen words;
  dr_bits : ∃ rest, map (unmasked_bit maskPattern m) (data_places version (data_order (side version))) = stream_bits words ++ rest;
}.

Lemma marked_patterns version s ecLevel maskPattern : 1 <= version <= 40 → 0 <= maskPattern < 8 → pattern_cells (side version) version = Some s →
  ∃ m1 bits, EmbedBasicPatterns version (byte_matrix_new (side version) (side version)) = Some m1 ∧ shape (side version) m1 ∧
    MakeTypeInfoBits ecLevel maskPattern = Some bits ∧ m_sizeInBits bits = 15 ∧
    decode_format (bits_value (map (λ i, At (14 - i) bits =? 1) (reverse (seqZ 0 15)))) = Some (ecLevel, maskPattern) ∧
    marked (side version) s (MaybeEmbedVersionInfo version (fold_left (λ m i, embed_type_bit bits i m) (seqZ 0 15) m1)).
Proof.
  intros Hv Hk Hs. assert (Hw : 20 < side version) by (unfold side; lia). assert (Ho : side version mod 2 = 1) by (unfold side; Z.div_mod_to_equations; lia).
  unfold pattern_cells in Hs. destruct (basic_cells (side version) version no_cells) as [s1|] eqn:E1; [|done]. cbn [mbind option_bind] in Hs.
  destruct (type_cells (side version) s1) as [s2|] eqn:E2; [|done]. cbn [mbind option_bind] in Hs.
  destruct (sim_basic (side version) Hw Ho version no_cells _ s1 (marked_new (side version) ltac:(lia)) E1) as (m1 & Em1 & Hm1).
  destruct (type_info_spec ecLevel maskPattern Hk) as (bits & Eb & Hsz & Hl).
  destruct (sim_fold (side version) (λ m i, embed_type_bit bits i m) _ (seqZ 0 15) (λ i _, sim_type_bit (side version) Hw Ho bits i) s1 m1 s2 Hm1 E2) as (m2 & [= <-] & Hm2).
  destruct (sim_version (side version) Hw Ho version s2 _ s Hm2 Hs) as (m3 & [= <-] & Hm3).
  exists m1, bits. split_and!; try done. apply (mk_shape _ _ _ Hm1).
Qed.

Lemma bind_Some {A B} (f : A → option B) x a r : x = Some a → f a = r → x ≫= f = r.
Proof. by intros -> <-. Qed.

Lemma EmbedTypeInfo_bits ecLevel maskPattern bits m : MakeTypeInfoBits ecLevel maskPattern = Some bits → m_sizeInBits bits = 15 →
  EmbedTypeInfo ecLevel maskPattern m = Some (fold_left (λ m i, embed_type_bit bits i m) (seqZ 0 15) m).
Proof. intros E Hs. unfold EmbedTypeInfo. rewrite E. cbn [mbind option_bind]. by rewrite Hs. Qed.

(** The empty places are those of the data. *)
Lemma free_places_data version s m : marked (side version) s m → (∀ p, inside (side version) p → is_taken (side version) s p = function_cell version p) →
  free_places m (data_order (side version)) = data_places version (data_order (side version)).
Proof.
  intros Hm Hs. destruct (data_order_inside (side version)) as [Hin _]. unfold free_places, data_places. induction Hin as [|p l Hp Hl IH]; [done|]. cbn [List.filter].
  by rewrite (mk_empty _ s m Hm p Hp), Hs, IH.
Qed.

Lemma data_places_count version s m : 1 <= version → marked (side version) s m →
  (∀ p, inside (side version) p → is_taken (side version) s p = function_cell version p) →
  zlen (data_places version (data_order (side version))) = (side version - 1) * (side version - 1) - count s.
Proof.
  intros Hv Hm Hs. destruct (data_order_spec (side version)) as [Hl _]; [unfold side; lia|unfold side; Z.div_mod_to_equations; lia|].
  rewrite (filter_split (is_taken (side version) s)), (mk_count _ s m Hm) in Hl.
  replace (data_places version (data_order (side version))) with (List.filter (λ p, negb (is_taken (side version) s p)) (data_order (side version))); [lia|].
  destruct (data_order_inside (side version)) as [Hin _]. unfold data_places. clear -Hs Hin. induction Hin as [|p l Hp Hl IH]; [done|]. cbn [List.filter]. by rewrite Hs, IH.
Qed.

Lemma unmasked_bits w maskPattern m l : 0 <= maskPattern < 8 → Forall (inside w) l → map (read_bit maskPattern m) l = map (unmasked_bit maskPattern m) l.
Proof.
  intros Hk. induction 1 as [|p l [H1 H2] Hl IH]; cbn [map]; [done|]. rewrite IH. f_equal. unfold read_bit, unmasked_bit. by rewrite mask_condition_ok by lia.
Qed.

(** The bits of a number, cell by cell. *)
Lemma number_at_bits n place value m : (∀ i, 0 <= i < n → matrix_Get (place i).1 (place i).2 m = value i) →
  number_at n place m = bits_value (map (λ i, value i =? 1) (reverse (seqZ 0 n))).
Proof.
  intros H. unfold number_at. f_equal. apply map_ext_in. intros i Hi. apply list_elem_of_In, elem_of_reverse, elem_of_seqZ in Hi. by rewrite H by lia.
Qed.

(** Cells whose value is a bit are kept by the data. *)
Lemma kept_bit w m m' v q : (∀ q, inside w q → IsEmpty (matrix_Get q.1 q.2 m) = false → matrix_Get q.1 q.2 m' = matrix_Get q.1 q.2 m) →
  inside w q → bit_value v → matrix_Get q.1 q.2 m = v → matrix_Get q.1 q.2 m' = v.
Proof. intros Hk Hq Hv E. rewrite Hk; [done|done|]. rewrite E. by destruct Hv as [-> | ->]. Qed.

Lemma read_format_drawn version ecLevel maskPattern bits m m' : 7 < side version - 13 → shape (side version) m → shape (side version) m' →
  m_sizeInBits bits = 15 → decode_format (bits_value (map (λ i, At (14 - i) bits =? 1) (reverse (seqZ 0 15)))) = Some (ecLevel, maskPattern) →
  (∀ q, inside (side version) q → IsEmpty (matrix_Get q.1 q.2 (MaybeEmbedVersionInfo version (fold_left (λ m i, embed_type_bit bits i m) (seqZ 0 15) m))) = false →
    matrix_Get q.1 q.2 m' = matrix_Get q.1 q.2 (MaybeEmbedVersionInfo version (fold_left (λ m i, embed_type_bit bits i m) (seqZ 0 15) m))) →
  read_type_info m' = Some (ecLevel, maskPattern).
Proof.
  intros Hw Hm Hm' Hsz Hdec Hkeep. assert (Hw' : 20 < side version) by lia. destruct (type_bits_read (side version) Hw' bits m Hm) as [H2 Hg]. rewrite Hsz in Hg. set (m2 := fold_left _ _ m) in *.
  assert (Hsame : ∀ q, inside (side version) q → (5 < q.1 ∧ 5 < q.2 ∨ q.1 < 9 ∧ q.2 < 9) → matrix_Get q.1 q.2 (MaybeEmbedVersionInfo version m2) = matrix_Get q.1 q.2 m2).
  { destruct (Z.ltb_spec version 7) as [Hlt|Hge]; [intros; unfold MaybeEmbedVersionInfo; by replace (version <? 7) with true by lia|].
    assert (H45 : 45 <= side version) by (unfold side; lia). apply (version_bits_read (side version) version m2 H2 H45 Hge). }
  assert (E : ∀ i, 0 <= i < 15 → matrix_Get (format_place i).1 (format_place i).2 m' = At (14 - i) bits ∧ matrix_Get (format_copy (side version) i).1 (format_copy (side version) i).2 m' = At (14 - i) bits).
  { intros i Hi. destruct (Hg i Hi) as [G1 G2]. change (15 - 1 - i) with (14 - i) in *. destruct (format_place_spec i Hi) as (_ & P1 & P2 & _).
    destruct (format_copy_inside (side version) Hw' i Hi) as [Hc _].
    assert (Hp : inside (side version) (format_place i)) by (unfold inside; lia).
    split; [apply (kept_bit _ _ m' _ _ Hkeep Hp (At_bit _ _))|apply (kept_bit _ _ m' _ _ Hkeep Hc (At_bit _ _))]; (rewrite Hsame; [done|done|]).
    - right. lia.
    - left. unfold format_copy. destruct (Z.ltb_spec i 8); cbn [fst snd]; lia. }
  unfold read_type_info. rewrite (sh_width _ m' Hm'). rewrite (number_at_bits 15 format_place (λ i, At (14 - i) bits)) by (intros i Hi; by apply E).
  rewrite (number_at_bits 15 (format_copy (side version)) (λ i, At (14 - i) bits)) by (intros i Hi; by apply E). by rewrite Z.eqb_refl.
Qed.

Lemma read_version_of m version v : (m_width m - 17) / 4 = version → number_at 18 (version_place (m_width m)) m = v → number_at 18 (version_copy (m_width m)) m = v →
  decode_version v = Some version → read_version m = Some version.
Proof.
  intros Ew E1 E2 Ev. unfold read_version. rewrite Ew. cbv zeta. rewrite E1, E2, Z.eqb_refl, Ev. cbn [mbind option_bind]. rewrite Z.eqb_refl. by destruct (version <? 7).
Qed.

Lemma read_version_drawn version m m' : 1 <= version <= 40 → shape (side version) m → shape (side version) m' →
  (∀ q, inside (side version) q → IsEmpty (matrix_Get q.1 q.2 (MaybeEmbedVersionInfo version m)) = false → matrix_Get q.1 q.2 m' = matrix_Get q.1 q.2 (MaybeEmbedVersionInfo version m)) →
  read_version m' = Some version.
Proof.
  intros Hv Hm Hm' Hkeep. assert (Ew : (m_width m' - 17) / 4 = version) by (rewrite (sh_width _ m' Hm'); unfold side; Z.div_mod_to_equations; lia).
  destruct (Z.ltb_spec version 7) as [Hlt|H7]; [unfold read_version; rewrite Ew; cbv zeta; by replace (version <? 7) with true by lia|].
  assert (H45 : 45 <= side version) by (unfold side; lia). destruct (version_bits_read (side version) version m Hm H45 H7) as [Hg _].
  assert (E : ∀ i, 0 <= i < 18 → matrix_Get (version_place (side version) i).1 (version_place (side version) i).2 m' = At (17 - i) (MakeVersionInfoBits version) ∧
    matrix_Get (version_copy (side version) i).1 (version_copy (side version) i).2 m' = At (17 - i) (MakeVersionInfoBits version)).
  { intros i Hi. destruct (Hg i Hi) as [G1 G2]. split; (apply (kept_bit (side version) (MaybeEmbedVersionInfo version m) m' _ _ Hkeep); [|apply At_bit|done]);
      unfold inside, version_place, version_copy, side; cbn [fst snd]; Z.div_mod_to_equations; lia. }
  apply (read_version_of m' version (version_info version) Ew); [| |apply version_info_spec; lia]; rewrite (sh_width _ m' Hm'); apply number_at_bits; intros i Hi; by apply E.
Qed.

(** Whatever the matrix held before, the symbol is drawn, and shows the words. *)
Lemma BuildMatrix_spec version v ecLevel maskPattern dataBits words m : 1 <= version <= 40 → GetVersionForNumber version = Some v → 0 <= maskPattern < 8 →
  holds dataBits (stream_bits words) → zlen words = num_words v → shape (side version) m →
  ∃ m', BuildMatrix dataBits ecLevel version maskPattern m = Some m' ∧
    BuildMatrix dataBits ecLevel version maskPattern (byte_matrix_new (side version) (side version)) = Some m' ∧ drawn version ecLevel maskPattern words m'.
Proof.
  intros Hv Ev Hk Hbits Hlen Hm. set (w := side version). assert (Hw : 20 < w) by (unfold w, side; lia).
  destruct (pattern_room version v Hv Ev) as (s & Hs & Hroom & Hcells). fold w in Hroom.
  destruct (marked_patterns version s ecLevel maskPattern Hv Hk Hs) as (m1 & bits & E1 & Hm1 & Eb & Hsz & Hlevel & Hmark).
  set (m2 := fold_left _ _ m1) in Hmark. set (m3 := MaybeEmbedVersionInfo version m2) in *.
  assert (H2 : shape (side version) m2) by apply (type_bits_read (side version) Hw bits m1 Hm1).
  assert (Hbuild : ∀ m0, shape w m0 → BuildMatrix dataBits ecLevel version maskPattern m0 = EmbedDataBits dataBits maskPattern m3).
  { intros m0 H0. unfold BuildMatrix. rewrite (clear_new w m0 H0). fold w in E1. rewrite E1. cbn [mbind option_bind]. by rewrite (EmbedTypeInfo_bits ecLevel maskPattern bits m1 Eb Hsz). }
  pose proof (free_places_data version s m3 Hmark Hcells) as Hfree. pose proof (data_places_count version s m3 ltac:(lia) Hmark Hcells) as Hcount. fold w in Hfree, Hcount.
  destruct (EmbedDataBits_spec dataBits (stream_bits words) Hbits maskPattern w ltac:(lia) m3 (mk_shape _ _ _ Hmark)) as (m' & Em' & Hm' & (rest & Hrest) & Hkeep).
  { fold (data_order w). rewrite zlen_stream_bits, Hlen, Hfree, Hcount, <-Hroom. Z.div_mod_to_equations; lia. }
  fold (data_order w) in Hrest. rewrite Hfree in Hrest. exists m'. rewrite !Hbuild by (done || (apply shape_new; lia)). split; [done|]. split; [done|]. constructor.
  - done.
  - by apply (read_version_drawn version m2 m').
  - apply (read_format_drawn version ecLevel maskPattern bits m1 m'); [unfold side; lia|done..].
  - fold w. by rewrite Hcount, Hroom, Hlen.
  - exists rest. fold w. rewrite <-Hrest. symmetry. apply (unmasked_bits w); [done|]. destruct (data_order_inside w) as [Hin _].
    clear -Hin. unfold data_places. induction Hin as [|p l Hp Hl IH]; cbn [List.filter]; [constructor|]. destruct (negb _); [by constructor|done].
Qed.

(** ** The mask *)
Section masks.
Context (version : Z) (v : CBC_QRCoderVersion) (ecLevel : CBC_QRCoderErrorCorrectionLevel) (dataBits : CBC_QRCoderBitVector) (words : list Z).
Context (Hv : 1 <= version <= 40) (Ev : GetVersionForNumber version = Some v) (Hbits : holds dataBits (stream_bits words)) (Hlen : zlen words = num_words v).
Notation blank := (byte_matrix_new (side version) (side version)).

(** The penalty of the symbol with a mask. *)
Definition penalty_of (maskPattern : Z) : Z :=
  match BuildMatrix dataBits ecLevel version maskPattern blank with Some m => CalculateMaskPenalty m | None => 0 end.

(** The first of the first [n] masks that have the least penalty, below 65535. *)
Definition best_of (n minPenalty best : Z) : Prop :=
  best = -1 ∧ minPenalty = 65535 ∧ (∀ k, 0 <= k < n → 65535 <= penalty_of k) ∨
  0 <= best < n ∧ minPenalty = penalty_of best ∧ minPenalty < 65535 ∧
    (∀ k, 0 <= k < n → penalty_of best <= penalty_of k ∧ (k < best → penalty_of best < penalty_of k)).

Lemma choose_mask_spec k minPenalty best m : 0 <= k < 8 → shape (side version) m → best_of k minPenalty best →
  ∃ minPenalty' best' m', choose_mask dataBits ecLevel version k (minPenalty, best, m) = Some (minPenalty', best', m') ∧ shape (side version) m' ∧ best_of (k + 1) minPenalty' best'.
Proof.
  intros Hk Hm Hbest. destruct (BuildMatrix_spec version v ecLevel k dataBits words m Hv Ev Hk Hbits Hlen Hm) as (m' & E & E0 & Hd).
  assert (Ep : penalty_of k = CalculateMaskPenalty m') by (unfold penalty_of; by rewrite E0).
  assert (Ec : choose_mask dataBits ecLevel version k (minPenalty, best, m) = Some (if penalty_of k <? minPenalty then (penalty_of k, k, m') else (minPenalty, best, m'))).
  { unfold choose_mask. refine (bind_Some _ _ m' _ E _). by rewrite Ep. }
  rewrite Ec. clear Ep Ec. pose proof (dr_shape _ _ _ _ _ Hd) as Hs. set (pk := penalty_of k) in *.
  assert (Hsplit : ∀ j, 0 <= j < k + 1 → j = k ∨ 0 <= j < k) by lia.
  destruct (Z.ltb_spec pk minPenalty) as [Hlt|Hge]; [exists pk, k, m'|exists minPenalty, best, m']; (split; [done|]; split; [done|]).
  - right. destruct Hbest as [(-> & -> & H)|(Hb & -> & H65 & H)]; (split_and!; [lia|lia|done|lia|]); intros j Hj; fold pk; destruct (Hsplit j Hj) as [->|Hj'];
      try (fold pk; lia); specialize (H j Hj'); lia.
  - destruct Hbest as [(-> & -> & H)|(Hb & E1 & H65 & H)].
    + left. split_and!; [done..|]. intros j Hj. destruct (Hsplit j Hj) as [->|Hj']; [done|auto].
    + right. split_and!; [lia|lia|done|done|]. intros j Hj. destruct (Hsplit j Hj) as [->|Hj']; [fold pk; lia|auto].
Qed.

Lemma choose_masks n : ∀ k minPenalty best m, 0 <= k → k + Z.of_nat n <= 8 → shape (side version) m → best_of k minPenalty best →
  ∃ minPenalty' best' m', each (choose_mask dataBits ecLevel version) (seqZ k (Z.of_nat n)) (minPenalty, best, m) = Some (minPenalty', best', m') ∧
    shape (side version) m' ∧ best_of (k + Z.of_nat n) minPenalty' best'.
Proof.
  induction n as [|n IH]; intros k minPenalty best m Hk Hn Hm Hb; [exists minPenalty, best, m; by rewrite Z.add_0_r|].
  rewrite seqZ_cons by lia. cbn [each]. destruct (choose_mask_spec k minPenalty best m ltac:(lia) Hm Hb) as (p1 & b1 & m1 & E1 & Hm1 & Hb1).
  destruct (IH (k + 1) p1 b1 m1 ltac:(lia) ltac:(lia) Hm1 Hb1) as (p2 & b2 & m2 & E2 & Hm2 & Hb2). exists p2, b2, m2.
  split; [|split; [done|by replace (k + Z.of_nat (S n)) with (k + 1 + Z.of_nat n) by lia]]. refine (bind_Some _ _ _ _ E1 _).
  by replace (Z.succ k) with (k + 1) by lia; replace (Z.pred (Z.of_nat (S n))) with (Z.of_nat n) by lia.
Qed.

Lemma ChooseMaskPattern_spec m : shape (side version) m →
  ∃ minPenalty best m', ChooseMaskPattern dataBits ecLevel version m = Some (best, m') ∧ shape (side version) m' ∧ best_of 8 minPenalty best.
Proof.
  intros Hm. destruct (choose_masks 8 0 65535 (-1) m ltac:(lia) ltac:(lia) Hm) as (p & b & m' & E & Hm' & Hb); [left; split_and!; [done|done|lia]|].
  exists p, b, m'. split; [|done]. refine (bind_Some _ _ _ _ E _). reflexivity.
Qed.
End masks.

(** ** The words and the text *)
Lemma read_octets_stream words rest : bytes words → read_octets (length words) (stream_bits words ++ rest) = words.
Proof.
  induction 1 as [|c words Hc Hw IH]; [done|]. change (stream_bits (c :: words)) with (put_bits 8 c ++ stream_bits words). rewrite <-app_assoc. cbn [length read_octets].
  rewrite take_put, drop_put, IH, put_bits_value. f_equal. unfold fits in Hc. change (2 ^ Z.of_nat 8) with 256. Z.div_mod_to_equations; lia.
Qed.

Lemma scan_drawn content ecLevel qr words maskPattern m : words_read content ecLevel qr words → drawn (m_version qr) ecLevel maskPattern words m →
  scan_symbol m = Some (FX_UTF8Encode content).
Proof.
  intros (v & data & Hv & Ev & Evn & Ew & Hlen & Hwb & Hblocks & Hseg) [Hs Hver Ht Hsize (rest & Hbits)]. unfold scan_symbol.
  refine (bind_Some _ _ _ _ Hver _). refine (bind_Some _ _ _ _ Ht _). refine (bind_Some _ _ v _ Ev _).
  cbv zeta. rewrite (sh_width _ m Hs), (sh_height _ m Hs). fold (data_order (side (m_version qr))). rewrite Hsize, Hbits, Hlen.
  replace (Z.to_nat (num_words v)) with (length words) by (unfold zlen in Hlen; lia).
  rewrite (read_octets_stream words rest Hwb). refine (bind_Some _ _ data _ Hblocks _). done.
Qed.

Lemma BuildMatrix_no_mask dataBits ecLevel version m : BuildMatrix dataBits ecLevel version (-1) m = None.
Proof.
  unfold BuildMatrix. assert (E : ∀ m0, EmbedTypeInfo ecLevel (-1) m0 = None) by reflexivity. destruct (EmbedBasicPatterns _ _) as [m0|]; [|reflexivity].
  refine (bind_Some _ _ m0 None eq_refl _). by rewrite E.
Qed.

Lemma with_symbol_valid qr ecLevel maskPattern m : sized qr → m_ecLevel qr = Some ecLevel → m_version qr ≠ -1 → m_matrixWidth qr ≠ -1 → 0 <= maskPattern < 8 →
  shape (m_matrixWidth qr) m → qr_IsValid (with_symbol maskPattern m qr) = true.
Proof.
  intros (H1 & H2 & H3 & H4) He Hv Hw Hk [S1 S2 _]. unfold qr_IsValid, with_symbol, IsValidMaskPattern, kNumMaskPatterns.
  cbn [m_ecLevel m_version m_matrixWidth m_maskPattern m_numTotalBytes m_numDataBytes m_numECBytes m_numRSBlocks m_matrix]. rewrite He, S1, S2.
  rewrite bool_decide_eq_true_2 by (by eexists). lia.
Qed.

(** The mask is the first of those whose symbols have the least penalty. *)
Definition best_mask (version : Z) (ecLevel : CBC_QRCoderErrorCorrectionLevel) (bits : CBC_QRCoderBitVector) (maskPattern : Z) : Prop :=
  let penalty := penalty_of version ecLevel bits in
  0 <= maskPattern < 8 ∧ penalty maskPattern < 65535 ∧
  ∀ k, 0 <= k < 8 → penalty maskPattern <= penalty k ∧ (k < maskPattern → penalty maskPattern < penalty k).

(** C6: Every text is drawn and read back.  For a text of codes below 2^31,
    [CBC_QRCoderEncoder::Encode] either gives a valid code, whose symbol a reader
    written from the format of QR codes (both copies of the descriptions of the level,
    the mask and the version, with their check bits; the bits between the patterns,
    unmasked; blocks that are code words of the Reed-Solomon code; the segment) reads
    as the text, the symbol being the one [BuildMatrix] draws of the words of the
    text with the first of the eight masks of the least penalty
    ([CalculateMaskPenalty]); or the text is too long for the forty versions at that
    level, or no mask has a penalty below 65535.  It has no other way to fail: in
    every version the patterns are drawn and the words find room.  The reader
    shares with the encoder the table of the blocks and the field of 256
    elements, and no more. *)
Theorem qr_roundtrip content ecLevel : text_ok content →
  match qr_Encode content ecLevel with
  | Some q => ∃ m, m_matrix q = Some m ∧ scan_symbol m = Some (FX_UTF8Encode content) ∧ FX_UTF8Decode (FX_UTF8Encode content) = content ∧
      qr_IsValid q = true ∧ m_ecLevel q = Some ecLevel ∧ read_type_info m = Some (ecLevel, m_maskPattern q) ∧
      ∃ q0 bits, code_words content ecLevel = Some (q0, bits) ∧ m_version q = m_version q0 ∧
        best_mask (m_version q) ecLevel bits (m_maskPattern q) ∧
        BuildMatrix bits ecLevel (m_version q) (m_maskPattern q) (byte_matrix_new (m_width m) (m_width m)) = Some m
  | None => (∃ B, B <= zlen (FX_UTF8Encode content) ∧ InitQRCode B ecLevel = None) ∨
      ∃ q bits, code_words content ecLevel = Some (q, bits) ∧ ∀ k, 0 <= k < 8 → 65535 <= penalty_of (m_version q) ecLevel bits k
  end.
Proof.
  intros Ht. pose proof (code_words_spec content ecLevel Ht) as Hc. destruct (code_words content ecLevel) as [[qr bits]|] eqn:Ec.
  2: { assert (E : qr_Encode content ecLevel = None) by (unfold qr_Encode; by rewrite Ec). rewrite E. by left. }
  destruct Hc as (words & Hbits & Hwords & Hlevel & Hsized). pose proof Hwords as (v & data & Hv & Ev & Evn & Ew & Hlen & Hwb & Hblocks & Hseg).
  assert (Eside : m_matrixWidth qr = side (m_version qr)) by (rewrite Ew; unfold GetDimensionForVersion, side; lia).
  assert (Hnew : shape (side (m_version qr)) (byte_matrix_new (m_matrixWidth qr) (m_matrixWidth qr))) by (rewrite Eside; apply shape_new; unfold side; lia).
  destruct (ChooseMaskPattern_spec (m_version qr) v ecLevel bits words Hv Ev Hbits Hlen _ Hnew) as (p & best & m1 & E1 & Hm1 & Hbest).
  assert (E : qr_Encode content ecLevel = (m ← BuildMatrix bits ecLevel (m_version qr) best m1; let qrCode := with_symbol best m qr in if qr_IsValid qrCode then Some qrCode else None)).
  { unfold qr_Encode. refine (bind_Some _ _ _ _ Ec _). refine (bind_Some _ _ _ _ E1 _). reflexivity. }
  rewrite E. clear E.
  unfold best_of in Hbest. destruct Hbest as [(-> & _ & Hall)|(Hb & Ep & Hp & Hall)].
  - rewrite BuildMatrix_no_mask. right. by exists qr, bits.
  - destruct (BuildMatrix_spec (m_version qr) v ecLevel best bits words m1 Hv Ev Hb Hbits Hlen Hm1) as (m & Em & Em0 & Hd). rewrite Em. cbn [mbind option_bind]. cbv zeta.
    pose proof (dr_shape _ _ _ _ _ Hd) as Hs.
    assert (Hvalid : qr_IsValid (with_symbol best m qr) = true) by (apply (with_symbol_valid qr ecLevel best m Hsized Hlevel); try lia; rewrite Eside; first [done|unfold side; lia]).
    rewrite Hvalid. exists m. split; [done|]. split; [by apply (scan_drawn content ecLevel qr words best)|]. split; [|split; [done|split; [done|split; [apply (dr_type _ _ _ _ _ Hd)|]]]].
    + pose proof (decode_string content [] 0 Ht) as Hdec. unfold FX_UTF8Decode, decoder_new. by destruct (FX_UTF8Encode content).
    + exists qr, bits. split; [done|]. split; [done|]. rewrite Ep in Hp. split; [by split|]. by rewrite (sh_width _ m Hs).
Qed.

Lemma qr_roundtrip_witness : text_ok [0x48; 0xe9] ∧
  match qr_Encode [0x48; 0xe9] level_M with
  | Some q => ∃ m, m_matrix q = Some m ∧ scan_symbol m = Some (FX_UTF8Encode [0x48; 0xe9]) ∧ FX_UTF8Decode (FX_UTF8Encode [0x48; 0xe9]) = [0x48; 0xe9] ∧
      qr_IsValid q = true ∧ m_ecLevel q = Some level_M ∧ read_type_info m = Some (level_M, m_maskPattern q) ∧
      ∃ q0 bits, code_words [0x48; 0xe9] level_M = Some (q0, bits) ∧ m_version q = m_version q0 ∧
        best_mask (m_version q) level_M bits (m_maskPattern q) ∧
        BuildMatrix bits level_M (m_version q) (m_maskPattern q) (byte_matrix_new (m_width m) (m_width m)) = Some m
  | None => (∃ B, B <= zlen (FX_UTF8Encode [0x48; 0xe9]) ∧ InitQRCode B level_M = None) ∨
      ∃ q bits, code_words [0x48; 0xe9] level_M = Some (q, bits) ∧ ∀ k, 0 <= k < 8 → 65535 <= penalty_of (m_version q) level_M bits k
  end.
Proof.
  assert (H : text_ok [0x48; 0xe9]) by (repeat constructor; lia). split; [exact H|]. exact (qr_roundtrip [0x48; 0xe9] level_M H).
Defined.

(** The symbol of "hello world" at level M, as the test of the writer has it. *)
Example qr_hello_world : QRCodeWriter_Encode [104; 101; 108; 108; 111; 32; 119; 111; 114; 108; 100] 1 = Some ([
  1; 1; 1; 1; 1; 1; 1; 0; 1; 1; 0; 1; 1; 0; 1; 1; 1; 1; 1; 1; 1;
  1; 0; 0; 0; 0; 0; 1; 0; 1; 1; 1; 1; 1; 0; 1; 0; 0; 0; 0; 0; 1;
  1; 0; 1; 1; 1; 0; 1; 0; 0; 0; 0; 1; 1; 0; 1; 0; 1; 1; 1; 0; 1;
  1; 0; 1; 1; 1; 0; 1; 0; 1; 1; 1; 0; 1; 0; 1; 0; 1; 1; 1; 0; 1;
  1; 0; 1; 1; 1; 0; 1; 0; 0; 1; 1; 1; 0; 0; 1; 0; 1; 1; 1; 0; 1;
  1; 0; 0; 0; 0; 0; 1; 0; 0; 1; 1; 1; 1; 0; 1; 0; 0; 0; 0; 0; 1;
  1; 1; 1; 1; 1; 1; 1; 0; 1; 0; 1; 0; 1; 0; 1; 1; 1; 1; 1; 1; 1;
  0; 0; 0; 0; 0; 0; 0; 0; 1; 1; 1; 1; 1; 0; 0; 0; 0; 0; 0; 0; 0;
  1; 0; 1; 1; 0; 1; 1; 1; 0; 0; 1; 1; 1; 0; 1; 0; 0; 1; 0; 1; 1;
  0; 1; 1; 0; 1; 1; 0; 1; 0; 1; 0; 1; 1; 1; 1; 1; 1; 1; 1; 0; 1;
  0; 0; 0; 1; 1; 0; 1; 1; 1; 0; 1; 1; 0; 1; 0; 1; 0; 0; 0; 1; 1;
  0; 1; 1; 1; 1; 1; 0; 1; 0; 0; 1; 1; 0; 0; 0; 1; 0; 1; 0; 1; 0;
  0; 0; 0; 1; 0; 1; 1; 1; 1; 1; 0; 0; 1; 1; 1; 0; 0; 0; 0; 0; 1;
  0; 0; 0; 0; 0; 0; 0; 0; 1; 1; 1; 1; 0; 0; 1; 1; 1; 0; 1; 0; 0;
  1; 1; 1; 1; 1; 1; 1; 0; 1; 1; 1; 1; 1; 1; 1; 1; 1; 0; 0; 0; 0;
  1; 0; 0; 0; 0; 0; 1; 0; 1; 0; 0; 0; 0; 1; 0; 1; 0; 1; 1; 1; 1;
  1; 0; 1; 1; 1; 0; 1; 0; 0; 1; 0; 0; 1; 0; 0; 0; 0; 1; 1; 0; 0;
  1; 0; 1; 1; 1; 0; 1; 0; 1; 0; 1; 0; 0; 0; 1; 0; 0; 1; 1; 1; 0;
  1; 0; 1; 1; 1; 0; 1; 0; 1; 1; 0; 0; 1; 0; 0; 1; 0; 0; 1; 0; 0;
  1; 0; 0; 0; 0; 0; 1; 0; 0; 0; 1; 1; 0; 1; 1; 1; 1; 0; 0; 0; 1;
  1; 1; 1; 1; 1; 1; 1; 0; 1; 0; 1; 1; 0; 1; 1; 1; 0; 0; 1; 0; 0], 21, 21).
Proof. vm_compute. reflexivity. Qed.
